(* ===== verification/_CoqProject ===== *)
-Q . S2P
Prelude.v
Address.v
HwInfo.v
Pmm.v
PmmReserved.v
PmmFreeList.v
PmmAlloc.v
PmmInit.v
PmmClients.v
PmmTheorems.v
HwInfoTheorems.v
Sync.v
Clock.v
Trap.v
Context.v
TrapEntry.v
Trace.v
KernelStack.v
PageMapper.v
Kmalloc.v
KmallocLemmas.v
KmallocPool.v
KmallocOps.v
KmallocHeap.v
KmallocUsers.v
KmallocTheorems.v
Arm64Mmu.v
Gic.v
Console.v
Xtask.v
XtaskTheorems.v
Arm64MmuLemmas.v
Arm64MmuWorld.v
Arm64MmuBoot.v
Arm64MmuTheorems.v
TableTree.v
RiscvMmu.v
RiscvMmuLemmas.v
RiscvMmuWorld.v
RiscvMmuBoot.v
RiscvMmuTheorems.v
Entry.v
EntryTheorems.v
Task.v
TaskInv.v
TaskTheorems.v
Switching.v
Startup.v
Locking.v
StartupLemmas.v
KernelMemory.v
StartupBoot.v
KernelRun.v
StartupTheorems.v
LockingTheorems.v
UnitTests.v
HwInfoTests.v
SmokeTheorems.v
