(* ===== verification/Prelude.v ===== *)
(** * Bullfinch: verification library (root file)

    A shallow embedding of the Bullfinch microkernel ([src/rust/kernel/src]) and
    of its developer's tool ([src/tools/xtask]) in Rocq, with the theorems that
    make its parts correct, alone and composed.  Code becomes functions of a
    small state monad (below in this file): a function ends normally, panics,
    performs an access its [unsafe] contract forbids, or runs out of the fuel of
    a [while] loop; [wp m Q s] says that it ends normally in [Q].  Machine
    integers are [Z] with the width written in each operation; a plain [+], [-]
    or [*] panics on overflow as in the [dev] profile.  Assembly is a list of
    instructions on a small machine.  Hardware, firmware, the external [fdt]
    crate and the host are arguments: classes or functions that answer what the
    code asks, possibly depending on what it did before.

    ** Parts and files

    The data every part shares
    - [Prelude]: machine integers, the monad, [wp] and its rules, loops, tactics
      and list lemmas.
    - [Address] ([limits.rs], [mmu/address.rs], [mmu/page_table_entry.rs]).
    - [HwInfo] ([hwinfo/mod.rs], [fdt/cells.rs], [fdt/blob.rs]): the hardware
      description, built from a device tree behind the class [FdtParser], whose
      accessors panic on malformed structure, the mode that [fdt/blob.rs] selects
      ([fdt_call]); [HwInfoTheorems].

    Memory
    - [Pmm] ([pmm/mod.rs]): the page allocator: arenas, page metadata in memory,
      reserved ranges, the free list, runs, leaking and freeing.  [PmmReserved],
      [PmmFreeList], [PmmAlloc] and [PmmInit] prove its parts, [PmmClients] is
      the machine of its clients, [PmmTheorems] has the claims.
    - [Kmalloc] ([allocator/mod.rs]): slab pools and size classes.
      [KmallocLemmas], [KmallocPool] (the invariant of a pool), [KmallocOps],
      [KmallocHeap] (all pools on the page allocator), [KmallocUsers] (the
      machine of its users), [KmallocTheorems].
    - [KernelStack] ([KernelStack] of [task/mod.rs]); [PageMapper] is the class
      that says what a stack needs of the page tables, and the life of stacks
      proved against it.
    - [Arm64Mmu] ([arch/aarch64/mmu.rs]) and [RiscvMmu] ([arch/riscv64/mmu.rs]):
      table entries, boot tables, walks, mapping and unmapping.  [TableTree] is
      the theory of trees of tables; [*MmuLemmas], [*MmuWorld] (tables over the
      page allocator), [*MmuBoot], and [*MmuTheorems] with the [PageMapper]
      instances.

    Execution
    - [Sync] ([sync/mod.rs]): [Once], the ticket lock and the interrupt-saving
      lock, sequentially and as interleaved atomic steps.
    - [Clock] ([clock/mod.rs], [runtime/clock.rs], [time/mod.rs], deadlines of
      both architectures).
    - [Trap] ([trap/*.rs]); [TrapEntry] (the entry assembly of
      [arch/*/trap.rs]); [Gic] ([arch/aarch64/interrupt.rs] and [mmio.rs], the
      interrupt part of both timers, [runtime/trap.rs]).
    - [Context] ([context/mod.rs], [arch/*/context.rs]): the switch assembly.
    - [Trace] ([trace/mod.rs]).
    - [Task] ([task/mod.rs]): processes, threads, the scheduler; [TaskInv],
      [TaskTheorems].  [Switching] runs the scheduler's switches with the assembly
      of [Context] on a CPU whose memory holds the context records.
    - [Locking]: the public functions of [task], [pmm] and [allocator] with the
      lock that guards their static ([with_guard]); [sim] compares a computation
      with and without its lock; [cpu_step] is one CPU whose interrupts arrive
      between the steps of a guard.  [LockingTheorems].

    The boot and the tool
    - [Entry] ([arch/*/boot.rs], [BOOT_HART_CLAIM] of [main.rs], the interrupt
      masks of [arch/*/cpu.rs]): the boot stubs on harts that interleave;
      [EntryTheorems].
    - [Console] ([console/mod.rs], [arch/*/console.rs], [startup/log.rs]).
    - [Startup] ([main.rs], [startup/init.rs], [hal/mod.rs]): [kernel_main] over
      the whole kernel state; the class [Hal] has one operation per function that
      [hal/mod.rs] forwards, and the translation of the loaded page tables
      ([hal_walk]), through which the device tree is read from physical memory.
      [StartupLemmas] has [HalLaws], what portable code
      relies on; [KernelMemory] the heap and the stacks on one page allocator;
      [StartupBoot] the boot, phase by phase, against [HalLaws]; [KernelRun] the
      running kernel as a step relation with its invariant; [StartupTheorems] the
      instances of both architectures and the claims.
    - [Xtask] ([tools/xtask/src/main.rs]); [XtaskTheorems]; [SmokeTheorems] joins
      it with the boot.
    - [UnitTests] and [HwInfoTests]: the [mod tests] of the kernel crate, test by
      test, on the definitions above; [HwInfoTests] has the tests' writer of
      device trees.

    ** What the theorems show

    - Boot: from reset exactly one hart leaves the stub, on a cleared bss and the
      right stack; on every supported machine the boot returns, every byte of the
      device tree it reads is mapped, and it prints [BOOT:OK] exactly when every
      component is in its invariant.  Supported ([machine_ok]) includes that the
      [fdt] crate does not panic on the device tree.
    - Running kernel: in every state that calls and interrupts reach, no physical
      byte is used twice or was reserved ([StartupTheorems]), and while the locks
      have tickets, identifiers and stack slots last, no call panics or loops
      ([LockingTheorems], with the locks).
    - Page allocator: no page is held twice, handed out while reserved or lost;
      every call of an owner returns, under [PMM_LOCK] ([LockingTheorems]); runs
      are first fit; each error of a free names the first check that fails;
      reserved ranges are merged exactly.
    - Heap: blocks are disjoint, aligned and inside their slabs; an allocation
      fails exactly for the reason it names; the number of pages kept is bounded.
    - Page tables: mapping and unmapping refine an abstract address space; boot
      leaves exactly the physmap; stacks translate to their own pages above an
      unmapped guard.
    - Scheduler: one running thread as long as the idle thread is entered only
      while it is current, which the code does not check; least virtual runtime
      first, bounded waiting; every thread the scheduler switches to resumes with
      the registers it was suspended with.
    - Locks: mutual exclusion and order below 2^16 tickets; calls under the
      scheduler's lock are atomic although interrupts arrive between the steps of
      a guard; at 2^16 acquisitions the lock is dead and a booted kernel stops.
    - Clock: no drift; the count is the number of intervals passed, missed ticks
      included.
    - Traps and contexts: interrupts are invisible to what they interrupt, every
      interrupt is completed once, switches resume threads.
    - Hardware description: equal to a reference that reads the tree in one go, or
      a panic of the [fdt] crate; the reservation block that the tests' writer
      makes is read back exactly from the offset in the blob's header.
    - Unit tests: those modelled all pass on the model.
    - Tool: a passed smoke test means that every variant printed the boot message,
      and on the modelled kernel that its boot succeeded.

    ** Bounds and fuel

    Loops over a range or list are structural.  [while] loops take fuel that a
    theorem shows to suffice: the page allocator's from the number of reserved
    ranges; the heap's search from the number of slab headers; the reservation
    block's from the length of the blob; the wake-up of a GICv3 redistributor has
    the code's own budget of a million reads; the UART's wait takes the patience
    after which its FIFO drains; the wait for the first tick follows the list of
    arriving interrupts; polling a child takes a tenth of the time limit in
    milliseconds; the boot stubs' turns are counted from the size of the bss.  A
    guard takes any fuel for its spin loop: below 2^16 acquisitions on one CPU it
    needs none, and past them no fuel is enough.

    ** Not modelled

    Barriers, fences, [wfi] and pause have no state to change ([arch/*/cpu.rs]
    but for its interrupt mask), and neither have the re-exports of
    [cpu/mod.rs] and the newtypes of [boot.rs]; the two tests of [fdt/blob.rs]
    parse with the external crate.  The accessors
    of newtypes and cells around statics ([get], [new], [raw]) are the identity
    and have no definition; compile-time [size_of] assertions are left out.
    [Locking] has the calls of the page allocator's clients under [PMM_LOCK], but
    treats a page function called by the heap, by the page tables or by a stack
    as one step of the caller that finds [PMM_LOCK] free, the innermost lock, and
    one CPU runs after the boot, as in the code; [maybe_reschedule], which chooses
    a thread without a context switch and is called by no kernel code, is part of
    [Task] and [Locking] but not of [Switching]; [block_current] and [wake] are
    compiled for the unit tests only, and no step relation has them.  Memory is sequentially consistent; the TLB is kept only as a
    record of the maintenance operations.  In [tools/xtask] the command line is
    parsed already ([clap]), the repository's path is an argument, and [trim] is
    that of ASCII.  The external [fdt] crate is not under [src]. *)

From stdpp Require Import base tactics option list list_numbers numbers gmap strings.

#[local] Open Scope Z_scope.

(** ** Machine integers

    Every machine integer of the kernel is a [Z]; the width is written out in
    the operation.  Both supported targets are 64-bit, so [usize] is [u64]. *)

Definition u8_MAX : Z := 2 ^ 8 - 1.
Definition u16_MAX : Z := 2 ^ 16 - 1.
Definition u32_MAX : Z := 2 ^ 32 - 1.
Definition u64_MAX : Z := 2 ^ 64 - 1.
Definition usize_MAX : Z := 2 ^ 64 - 1.

(** [is_uint w x]: [x] is a value of the [w]-bit unsigned type. *)
Definition is_uint (w x : Z) : Prop := 0 <= x < 2 ^ w.
Abbreviation is_usize := (is_uint 64).

(** Rust's [checked_*], [wrapping_*] and [saturating_*] on a [w]-bit unsigned
    type, and its bitwise complement. *)
Definition checked_add (w a b : Z) : option Z :=
  if a + b <? 2 ^ w then Some (a + b) else None.
Definition checked_sub (a b : Z) : option Z :=
  if b <=? a then Some (a - b) else None.
Definition checked_mul (w a b : Z) : option Z :=
  if a * b <? 2 ^ w then Some (a * b) else None.
Definition wrapping_add (w a b : Z) : Z := (a + b) mod 2 ^ w.
Definition wrapping_sub (w a b : Z) : Z := (a - b) mod 2 ^ w.
Definition wrapping_mul (w a b : Z) : Z := (a * b) mod 2 ^ w.
Definition saturating_add (w a b : Z) : Z := Z.min (a + b) (2 ^ w - 1).
Definition saturating_sub (a b : Z) : Z := Z.max 0 (a - b).
Definition not_uint (w a : Z) : Z := Z.land (Z.lnot a) (Z.ones w).
Definition div_ceil (a b : Z) : Z := (a + b - 1) / b.

(** [x as uN] between unsigned types: truncation. *)
Definition cast_uint (w a : Z) : Z := a mod 2 ^ w.

(** [uN::try_from]. *)
Definition try_from_uint (w a : Z) : option Z :=
  if a <? 2 ^ w then Some a else None.

(** ** Outcomes and the state monad

    A kernel function that mutates state is a function of the state it
    mutates.  It ends normally, or panics (the kernel is built with
    [panic = "abort"], so no state survives), or performs an access that the
    [unsafe] contract forbids, or exhausts the fuel of a [while] loop.  Plain
    [+], [-] and [*] panic on overflow, as in the [dev] profile; where a
    theorem shows that no panic happens, the [release] profile, which wraps,
    computes the same values. *)
Inductive outcome (A : Type) : Type :=
  | Done (a : A)
  | Panic (msg : string)
  | Undefined
  | OutOfFuel.
Arguments Done {A} a.
Arguments Panic {A} msg.
Arguments Undefined {A}.
Arguments OutOfFuel {A}.

(** Rust's [Result]. *)
Inductive Result (A E : Type) : Type :=
  | Ok (a : A)
  | Err (e : E).
Arguments Ok {A E} a.
Arguments Err {A E} e.

#[global] Instance Result_eq_dec {A E} `{EqDecision A, EqDecision E} :
  EqDecision (Result A E).
Proof. solve_decision. Defined.

Definition M (S A : Type) : Type := S -> outcome (A * S).

Definition ret {S A} (a : A) : M S A := fun s => Done (a, s).
Definition bind {S A B} (m : M S A) (f : A -> M S B) : M S B := fun s =>
  match m s with
  | Done (a, s') => f a s'
  | Panic msg => Panic msg
  | Undefined => Undefined
  | OutOfFuel => OutOfFuel
  end.
Definition panic {S A} (msg : string) : M S A := fun _ => Panic msg.
Definition undefined {S A} : M S A := fun _ => Undefined.
Definition out_of_fuel {S A} : M S A := fun _ => OutOfFuel.
Definition gets {S A} (f : S -> A) : M S A := fun s => Done (f s, s).
Definition modify {S} (f : S -> S) : M S unit := fun s => Done (tt, f s).

(** [Option::expect] and [Option::unwrap]. *)
Definition expect {S A} (msg : string) (o : option A) : M S A :=
  match o with Some a => ret a | None => panic msg end.

(** [a + b], [a - b], [a * b] with the overflow check. *)
Definition add_uint {S} (w a b : Z) : M S Z :=
  expect "attempt to add with overflow" (checked_add w a b).
Definition sub_uint {S} (a b : Z) : M S Z :=
  expect "attempt to subtract with overflow" (checked_sub a b).
Definition mul_uint {S} (w a b : Z) : M S Z :=
  expect "attempt to multiply with overflow" (checked_mul w a b).

(** What one iteration of a loop does: go on with new loop-carried locals, or
    [return] from the function. *)
Inductive ctl (B R : Type) : Type :=
  | Continue (b : B)
  | Return (r : R).
Arguments Continue {B R} b.
Arguments Return {B R} r.

(** [for x in l { .. }] with loop-carried locals [b] and [return]. *)
Fixpoint for_loop {S A B R} (l : list A) (b : B) (f : A -> B -> M S (ctl B R)) :
    M S (ctl B R) :=
  match l with
  | [] => ret (Continue b)
  | x :: l' => bind (f x b) (fun c =>
      match c with
      | Continue b' => for_loop l' b' f
      | Return r => ret (Return r)
      end)
  end.

(** [for x in l { .. }] without early exit. *)
Fixpoint for_each {S A} (l : list A) (f : A -> M S unit) : M S unit :=
  match l with
  | [] => ret tt
  | x :: l' => bind (f x) (fun _ => for_each l' f)
  end.

(** The range [a..b]. *)
Definition range (a b : Z) : list Z := seqZ a (b - a).

Declare Scope kernel_scope.
Delimit Scope kernel_scope with kernel.

Notation "'let!' x ':=' m 'in' k" := (bind m (fun x => k))
  (at level 10, x pattern, m at level 200, k at level 200) : kernel_scope.
Notation "m1 ;;; m2" := (bind m1 (fun _ => m2))
  (at level 100, right associativity) : kernel_scope.
(** [o?] in a function that returns an [Option]. *)
Notation "'let?' x ':=' o 'in' k" :=
  (match o with Some x => k | None => ret None end)
  (at level 10, x pattern, o at level 200, k at level 200) : kernel_scope.
(** [o.ok_or(e)?] in a function that returns a [Result]. *)
Notation "'let?' x ':=' o 'ok_or' e 'in' k" :=
  (match o with Some x => k | None => ret (Err e) end)
  (at level 10, x pattern, o at level 200, e at level 10, k at level 200) : kernel_scope.
(** [m?] in a function that returns a [Result]. *)
Notation "'try!' x ':=' m 'in' k" :=
  (bind m (fun r => match r with Ok x => k | Err e => ret (Err e) end))
  (at level 10, x pattern, m at level 200, k at level 200) : kernel_scope.

#[local] Open Scope kernel_scope.

(** ** Weakest preconditions

    [wp m Q s]: from [s], [m] terminates without a panic, without an undefined
    access and within its fuel, in a result and a state that satisfy [Q]. *)
Definition wp {S A} (m : M S A) (Q : A -> S -> Prop) (s : S) : Prop :=
  match m s with
  | Done (a, s') => Q a s'
  | _ => False
  end.

(** Two computations with the same runs. *)
Definition meq {S A} (m1 m2 : M S A) : Prop := forall s, m1 s = m2 s.

#[global] Instance meq_equivalence {S A} : Equivalence (@meq S A).
Proof. split; unfold meq; [done | congruence.. ]. Qed.

#[global] Instance bind_proper {S A B} :
  Proper (meq ==> pointwise_relation A meq ==> meq) (@bind S A B).
Proof.
  intros m1 m2 Hm f1 f2 Hf s. unfold bind. rewrite Hm.
  destruct (m2 s) as [[a s']| | |]; [apply Hf | done..].
Qed.

#[global] Instance wp_proper {S A} :
  Proper (meq ==> pointwise_relation A (pointwise_relation S iff) ==> eq ==> iff) (@wp S A).
Proof.
  intros m1 m2 Hm Q1 Q2 HQ s ? <-. unfold wp. rewrite Hm.
  destruct (m2 s) as [[a s']| | |]; [apply HQ | done..].
Qed.

(** Decomposing a run that ended. *)
Lemma bind_Done {S A B} (m : M S A) (f : A -> M S B) s b s' :
  bind m f s = Done (b, s') -> exists a s1, m s = Done (a, s1) /\ f a s1 = Done (b, s').
Proof. unfold bind. destruct (m s) as [[a s1]| | |]; [eauto|done..]. Qed.

(** What a run of a computation leaves and returns; for concrete runs. *)
Definition after {S A} (m : M S A) (s : S) : S := match m s with Done (_, s') => s' | _ => s end.
Definition result {S A} (m : M S A) (s : S) : option A := match m s with Done (a, _) => Some a | _ => None end.
Lemma result_after {S A} (m : M S A) s a : result m s = Some a -> m s = Done (a, after m s).
Proof. unfold result, after. destruct (m s) as [[b s']| | |]; [by intros [= ->]|done..]. Qed.

Section wp.
Context {S : Type}.
Implicit Types s : S.

Lemma wp_unfold {A} (m : M S A) Q s :
  wp m Q s <-> exists a s', m s = Done (a, s') /\ Q a s'.
Proof.
  unfold wp. destruct (m s) as [[a s']| | |]; naive_solver.
Qed.

Lemma wp_run {A} (m : M S A) Q s a s' :
  m s = Done (a, s') -> Q a s' -> wp m Q s.
Proof. unfold wp. by intros ->. Qed.

Lemma wp_Done {A} (m : M S A) Q s a s' : wp m Q s -> m s = Done (a, s') -> Q a s'.
Proof. unfold wp. intros Hwp Hm. by rewrite Hm in Hwp. Qed.

Lemma wp_mono {A} (m : M S A) (Q1 Q2 : A -> S -> Prop) s :
  wp m Q1 s -> (forall a s', Q1 a s' -> Q2 a s') -> wp m Q2 s.
Proof. unfold wp. destruct (m s) as [[a s']| | |]; naive_solver. Qed.

Lemma wp_meq {A} (m1 m2 : M S A) Q s : meq m1 m2 -> wp m2 Q s -> wp m1 Q s.
Proof. unfold wp. intros Hm. by rewrite (Hm s). Qed.

Lemma wp_bind {A B} (m : M S A) (f : A -> M S B) Q s :
  wp (bind m f) Q s <-> wp m (fun a => wp (f a) Q) s.
Proof. unfold wp, bind. by destruct (m s) as [[a s']| | |]. Qed.

Lemma wp_ret {A} (a : A) (Q : A -> S -> Prop) s : wp (ret a) Q s <-> Q a s.
Proof. done. Qed.
Lemma wp_gets {A} (f : S -> A) (Q : A -> S -> Prop) s : wp (gets f) Q s <-> Q (f s) s.
Proof. done. Qed.
Lemma wp_modify (f : S -> S) (Q : unit -> S -> Prop) s : wp (modify f) Q s <-> Q tt (f s).
Proof. done. Qed.

Lemma wp_expect {A} msg (o : option A) a (Q : A -> S -> Prop) s :
  o = Some a -> Q a s -> wp (expect msg o) Q s.
Proof. by intros ->. Qed.

Lemma wp_add_uint w a b (Q : Z -> S -> Prop) s :
  a + b < 2 ^ w -> Q (a + b) s -> wp (add_uint w a b) Q s.
Proof. intros ?. unfold add_uint, checked_add. by rewrite (proj2 (Z.ltb_lt _ _)). Qed.

Lemma wp_sub_uint a b (Q : Z -> S -> Prop) s :
  b <= a -> Q (a - b) s -> wp (sub_uint a b) Q s.
Proof. intros ?. unfold sub_uint, checked_sub. by rewrite (proj2 (Z.leb_le _ _)). Qed.

Lemma wp_mul_uint w a b (Q : Z -> S -> Prop) s :
  a * b < 2 ^ w -> Q (a * b) s -> wp (mul_uint w a b) Q s.
Proof. intros ?. unfold mul_uint, checked_mul. by rewrite (proj2 (Z.ltb_lt _ _)). Qed.

(** The rule of a loop that can [return]: [I] holds of the iterations done
    and the loop-carried locals; an iteration that returns establishes [QR]. *)
Lemma wp_for_loop {A B R} (I : list A -> B -> S -> Prop) (QR : R -> S -> Prop)
    (l : list A) (b : B) (f : A -> B -> M S (ctl B R)) s :
  I [] b s ->
  (forall pre x post b s, l = pre ++ x :: post -> I pre b s ->
     wp (f x b) (fun c s' =>
       match c with Continue b' => I (pre ++ [x]) b' s' | Return r => QR r s' end) s) ->
  wp (for_loop l b f)
     (fun c s' => match c with Continue b' => I l b' s' | Return r => QR r s' end) s.
Proof.
  intros HI Hstep.
  enough (forall post pre b s, l = pre ++ post -> I pre b s ->
    wp (for_loop post b f)
       (fun c s' => match c with Continue b' => I l b' s' | Return r => QR r s' end) s)
    as Hgen by (by apply (Hgen l [])).
  induction post as [|x post IH]; intros pre b' s' -> Hpre; simpl.
  - apply wp_ret. by rewrite app_nil_r.
  - apply wp_bind. eapply wp_mono; [by eapply Hstep|].
    intros [b''|r] s'' HQ; [|by apply wp_ret].
    apply (IH (pre ++ [x])); [|done]. by rewrite <-app_assoc.
Qed.

Lemma wp_for_each {A} (I : list A -> S -> Prop) (l : list A) (f : A -> M S unit) s :
  I [] s ->
  (forall pre x post s, l = pre ++ x :: post -> I pre s ->
     wp (f x) (fun _ s' => I (pre ++ [x]) s') s) ->
  wp (for_each l f) (fun _ s' => I l s') s.
Proof.
  intros HI Hstep.
  enough (forall post pre s, l = pre ++ post -> I pre s ->
    wp (for_each post f) (fun _ s' => I l s') s) as Hgen by (by apply (Hgen l [])).
  induction post as [|x post IH]; intros pre s' -> Hpre; simpl.
  - apply wp_ret. by rewrite app_nil_r.
  - apply wp_bind. eapply wp_mono; [by eapply Hstep|].
    intros [] s'' HQ. apply (IH (pre ++ [x])); [|done]. by rewrite <-app_assoc.
Qed.
End wp.

(** Peel the next primitive off a [wp] goal. *)
Ltac wp_step :=
  lazymatch goal with
  | |- wp (bind _ _) _ _ => apply wp_bind
  | |- wp (ret _) _ _ => apply wp_ret
  | |- wp (gets _) _ _ => apply wp_gets
  | |- wp (modify _) _ _ => apply wp_modify
  end.
Ltac wp_steps := repeat (wp_step; cbv beta).

(** [lia] with division and remainder by constants. *)
Ltac divlia := Z.to_euclidean_division_equations; lia.

(** ** List lemmas *)

Lemma Forall_elem {A} (P : A -> Prop) l x : Forall P l -> x ∈ l -> P x.
Proof. rewrite Forall_forall. eauto. Qed.

Lemma list_insert_middle {A} (l1 : list A) x y l2 :
  <[length l1 := y]> (l1 ++ x :: l2) = l1 ++ y :: l2.
Proof. rewrite insert_app_r_alt, Nat.sub_diag by done. done. Qed.

(** ** Integer lemmas *)

Create HintDb kernel.

Lemma checked_add_Some w a b c :
  checked_add w a b = Some c <-> c = a + b /\ a + b < 2 ^ w.
Proof. unfold checked_add. destruct (Z.ltb_spec (a + b) (2 ^ w)); naive_solver lia. Qed.
Lemma checked_add_None w a b : checked_add w a b = None <-> 2 ^ w <= a + b.
Proof. unfold checked_add. destruct (Z.ltb_spec (a + b) (2 ^ w)); naive_solver lia. Qed.
Lemma checked_sub_Some a b c : checked_sub a b = Some c <-> c = a - b /\ b <= a.
Proof. unfold checked_sub. destruct (Z.leb_spec b a); naive_solver lia. Qed.
Lemma checked_mul_Some w a b c :
  checked_mul w a b = Some c <-> c = a * b /\ a * b < 2 ^ w.
Proof. unfold checked_mul. destruct (Z.ltb_spec (a * b) (2 ^ w)); naive_solver lia. Qed.
Lemma checked_mul_None w a b : checked_mul w a b = None <-> 2 ^ w <= a * b.
Proof. unfold checked_mul. destruct (Z.ltb_spec (a * b) (2 ^ w)); naive_solver lia. Qed.
Lemma try_from_uint_Some w a c : try_from_uint w a = Some c <-> c = a /\ a < 2 ^ w.
Proof. unfold try_from_uint. destruct (Z.ltb_spec a (2 ^ w)); naive_solver lia. Qed.

(** [a & !b] clears the bits of [b]. *)
Lemma land_not_uint w a b :
  0 <= w -> 0 <= a < 2 ^ w -> Z.land a (not_uint w b) = Z.ldiff a b.
Proof.
  intros Hw Ha. apply Z.bits_inj'. intros i Hi. unfold not_uint.
  rewrite !Z.land_spec, Z.ldiff_spec, Z.lnot_spec by done.
  destruct (decide (i < w)) as [Hlt|Hge].
  - rewrite Z.ones_spec_low by lia. by rewrite andb_true_r.
  - rewrite <-(Z.mod_small a (2 ^ w)) by lia.
    by rewrite Z.mod_pow2_bits_high by lia.
Qed.

Lemma land_mask k a : 0 <= k -> Z.land a (2 ^ k - 1) = a mod 2 ^ k.
Proof. intros. rewrite <-Z.land_ones, Z.ones_equiv by done. done. Qed.
Lemma index_mod a k : 0 <= k -> Z.land (Z.shiftr a k) 0x1ff = a / 2 ^ k mod 512.
Proof. intros Hk. change 0x1ff with (2 ^ 9 - 1). rewrite land_mask by lia. by rewrite Z.shiftr_div_pow2. Qed.

Lemma land_not_mask w k a :
  0 <= w -> 0 <= k -> 0 <= a < 2 ^ w ->
  Z.land a (not_uint w (2 ^ k - 1)) = a - a mod 2 ^ k.
Proof.
  intros Hw Hk Ha. rewrite land_not_uint by done.
  replace (2 ^ k - 1) with (Z.ones k) by (rewrite Z.ones_equiv; lia).
  rewrite Z.ldiff_ones_r, Z.shiftl_mul_pow2, Z.shiftr_div_pow2 by done.
  pose proof (Z.div_mod a (2 ^ k)). lia.
Qed.

(** [a & (1 << k)] selects bit [k]. *)
Lemma land_bit a k : 0 <= k -> Z.land a (2 ^ k) = if Z.testbit a k then 2 ^ k else 0.
Proof.
  intros Hk. apply Z.bits_inj'. intros i Hi. rewrite Z.land_spec, Z.pow2_bits_eqb by done.
  destruct (Z.eqb_spec k i) as [->|Hne].
  - destruct (Z.testbit a i); simpl; [by rewrite Z.pow2_bits_true|by rewrite Z.bits_0].
  - rewrite andb_false_r. destruct (Z.testbit a k); [by rewrite Z.pow2_bits_false|by rewrite Z.bits_0].
Qed.

Lemma testbit_top a k : 0 <= k -> 0 <= a < 2 ^ (k + 1) -> Z.testbit a k = (2 ^ k <=? a).
Proof.
  intros Hk Ha. rewrite Z.testbit_odd, Z.shiftr_div_pow2 by done.
  rewrite Z.pow_add_r in Ha by lia. change (2 ^ 1) with 2 in Ha.
  assert (0 < 2 ^ k) by (by apply Z.pow_pos_nonneg).
  destruct (Z.leb_spec (2 ^ k) a).
  - replace (a / 2 ^ k) with 1; [done|]. apply (Z.div_unique _ _ _ (a - 2 ^ k)); lia.
  - by rewrite Z.div_small by lia.
Qed.

Lemma range_nil a b : b <= a -> range a b = [].
Proof. intros. unfold range. apply seqZ_nil. lia. Qed.
Lemma range_cons a b : a < b -> range a b = a :: range (a + 1) b.
Proof. intros. unfold range. rewrite seqZ_cons by lia. do 2 f_equal; lia. Qed.
Lemma range_snoc a b : a <= b -> range a (b + 1) = range a b ++ [b].
Proof.
  intros. unfold range. replace (b + 1 - a) with ((b - a) + 1) by lia.
  rewrite seqZ_app by lia. f_equal. replace (a + (b - a)) with b by lia. done.
Qed.
Lemma elem_of_range a b x : x ∈ range a b <-> a <= x < b.
Proof. unfold range. rewrite elem_of_seqZ. lia. Qed.
Lemma NoDup_range a b : NoDup (range a b).
Proof. apply NoDup_seqZ. Qed.
Lemma length_range a b : Z.of_nat (length (range a b)) = Z.max 0 (b - a).
Proof. unfold range. rewrite length_seqZ. lia. Qed.
(** The iterations before [x] of a loop over [a..b] are [a..x]. *)
Lemma range_split a b pre x post :
  range a b = pre ++ x :: post -> pre = range a x /\ a <= x < b.
Proof.
  intros Heq.
  assert (a <= x < b) as Hx.
  { apply elem_of_range. rewrite Heq. apply elem_of_app. right. left. }
  split; [|done].
  assert (range a b = range a x ++ x :: range (x + 1) b) as Heq2.
  { rewrite <-range_cons by lia. unfold range.
    replace (b - a) with ((x - a) + (b - x)) by lia.
    rewrite seqZ_app by lia. do 2 f_equal. lia. }
  rewrite Heq in Heq2.
  assert (NoDup (pre ++ x :: post)) as Hnd by (rewrite <-Heq; apply NoDup_range).
  rewrite Heq2 in Hnd.
  assert (x ∉ pre) as Hpre.
  { rewrite <-Heq2 in Hnd. apply NoDup_app in Hnd as (_ & Hnd & _).
    intros Hin. eapply Hnd; [done|]. left. }
  assert (x ∉ range a x) as Hpre2 by (rewrite elem_of_range; lia).
  clear -Heq2 Hpre Hpre2. revert Heq2 Hpre2.
  generalize (range a x) as pre2. induction pre as [|y pre IH]; intros [|y2 pre2] Heq Hp2;
    simplify_eq/=; [done|set_solver..|].
  f_equal. apply IH; set_solver.
Qed.

(** [div_ceil] by a positive divisor is the least multiple count that covers. *)
Lemma div_ceil_spec a b q : 0 < b -> div_ceil a b = q <-> (q - 1) * b < a <= q * b.
Proof.
  intros Hb. unfold div_ceil. split.
  - intros <-. pose proof (Z.div_mod (a + b - 1) b ltac:(lia)).
    pose proof (Z.mod_pos_bound (a + b - 1) b Hb). nia.
  - intros Hq. symmetry. apply (Z.div_unique _ _ _ (a + b - 1 - q * b)); nia.
Qed.
