(* ===== verification/Address.v ===== *)
(** * Address and page-count types, and mapping intents

    Models [mmu/address.rs], [mmu/page_table_entry.rs] and [limits.rs].  The
    [repr(transparent)] newtypes over [usize] are the integer they wrap. *)

From S2P Require Import Prelude.
From stdpp Require Import base tactics option list numbers.

#[local] Open Scope Z_scope.

Abbreviation PhysicalAddress := Z (only parsing).
Abbreviation VirtualAddress := Z (only parsing).
Abbreviation PageCount := Z (only parsing).
Abbreviation PageOffset := Z (only parsing).

(** ** Limits *)

Definition MAX_MEMORY_ARENAS : Z := 4.
Definition MAX_RESERVED_REGIONS : Z := 8.
Definition MAX_TASKS : Z := 32.
Definition ENTRIES_PER_PAGE_TABLE : Z := 512.
Definition DEVICE_TREE_BLOB_MAX_SIZE : Z := 2 ^ 20.
Definition MINIMUM_PHYSMAP_SIZE : Z := 2 ^ 30.

(** ** Addresses *)

Definition PAGE_SIZE : Z := 4096.
Definition PAGE_MASK : Z := PAGE_SIZE - 1.

Definition PhysicalAddress_ZERO : PhysicalAddress := 0.
Definition PhysicalAddress_try_from_u64 (raw : Z) : option PhysicalAddress :=
  try_from_uint 64 raw.
Definition PhysicalAddress_page_offset (a : PhysicalAddress) : PageOffset :=
  Z.land a PAGE_MASK.
Definition PhysicalAddress_is_page_aligned (a : PhysicalAddress) : bool :=
  PhysicalAddress_page_offset a =? 0.
Definition PhysicalAddress_checked_add (a : PhysicalAddress) (bytes : Z) : option PhysicalAddress :=
  checked_add 64 a bytes.
Definition PhysicalAddress_align_down (a : PhysicalAddress) : PhysicalAddress :=
  Z.land a (not_uint 64 PAGE_MASK).
Definition PhysicalAddress_align_up (a : PhysicalAddress) : option PhysicalAddress :=
  match checked_add 64 a PAGE_MASK with
  | None => None
  | Some sum => Some (Z.land sum (not_uint 64 PAGE_MASK))
  end.

Definition VirtualAddress_ZERO : VirtualAddress := 0.
Definition VirtualAddress_page_offset (a : VirtualAddress) : PageOffset :=
  Z.land a PAGE_MASK.
Definition VirtualAddress_is_page_aligned (a : VirtualAddress) : bool :=
  VirtualAddress_page_offset a =? 0.
Definition VirtualAddress_checked_add (a : VirtualAddress) (bytes : Z) : option VirtualAddress :=
  checked_add 64 a bytes.
Definition VirtualAddress_align_down (a : VirtualAddress) : VirtualAddress :=
  Z.land a (not_uint 64 PAGE_MASK).
Definition VirtualAddress_align_up (a : VirtualAddress) : option VirtualAddress :=
  match checked_add 64 a PAGE_MASK with
  | None => None
  | Some sum => Some (Z.land sum (not_uint 64 PAGE_MASK))
  end.

Definition PageCount_from_bytes_round_up (bytes : Z) : option PageCount :=
  option_map (fun value => value / PAGE_SIZE) (checked_add 64 bytes PAGE_MASK).
Definition PageCount_to_bytes (count : PageCount) : option Z :=
  checked_mul 64 count PAGE_SIZE.

Definition PageOffset_new (raw : Z) : option PageOffset :=
  if raw <? PAGE_SIZE then Some raw else None.

(** [PageAligned::<A>::new]: the proof token is the address itself. *)
Definition PageAligned_new_physical (addr : PhysicalAddress) : option PhysicalAddress :=
  if PhysicalAddress_is_page_aligned addr then Some addr else None.
Definition PageAligned_new_virtual (addr : VirtualAddress) : option VirtualAddress :=
  if VirtualAddress_is_page_aligned addr then Some addr else None.

(** ** Mapping intents *)

Inductive MapError :=
  | MapError_NotAligned
  | MapError_NotCanonical
  | MapError_TableNotPresent
  | MapError_AlreadyMapped
  | MapError_SuperpageConflict
  | MapError_OutOfMemory.

Inductive UnmapError :=
  | UnmapError_NotCanonical
  | UnmapError_NotMapped
  | UnmapError_SuperpageConflict.

Inductive MemoryKind := Normal | Device.

Inductive MappingSize := Page4K | Block2M | Block1G.

#[global] Instance MapError_eq_dec : EqDecision MapError.
Proof. solve_decision. Defined.
#[global] Instance UnmapError_eq_dec : EqDecision UnmapError.
Proof. solve_decision. Defined.
#[global] Instance MemoryKind_eq_dec : EqDecision MemoryKind.
Proof. solve_decision. Defined.
#[global] Instance MappingSize_eq_dec : EqDecision MappingSize.
Proof. solve_decision. Defined.

Definition MappingSize_bytes (size : MappingSize) : Z :=
  match size with
  | Page4K => PAGE_SIZE
  | Block2M => 2 ^ 21
  | Block1G => 2 ^ 30
  end.
Definition MappingSize_is_aligned (size : MappingSize) (address : PhysicalAddress) : bool :=
  Z.land address (MappingSize_bytes size - 1) =? 0.

Record MappingPermissions := {
  writable : bool;
  executable : bool;
  user_accessible : bool;
}.

Definition KERNEL_READ_WRITE : MappingPermissions :=
  {| writable := true; executable := false; user_accessible := false |}.
Definition KERNEL_READ_EXECUTE : MappingPermissions :=
  {| writable := false; executable := true; user_accessible := false |}.
Definition USER_READ_WRITE : MappingPermissions :=
  {| writable := true; executable := false; user_accessible := true |}.

Record MappingIntent := {
  physical_address : PhysicalAddress;
  size : MappingSize;
  memory : MemoryKind;
  permissions : MappingPermissions;
}.

Definition MappingIntent_new (physical_address : PhysicalAddress) (size : MappingSize)
    (memory : MemoryKind) (permissions : MappingPermissions) : option MappingIntent :=
  match PageAligned_new_physical physical_address with
  | None => None
  | Some physical_address =>
      if MappingSize_is_aligned size physical_address then
        Some {| physical_address := physical_address; size := size;
                memory := memory; permissions := permissions |}
      else None
  end.

(** ** Lemmas *)

Lemma page_offset_mod a : PhysicalAddress_page_offset a = a mod PAGE_SIZE.
Proof. unfold PhysicalAddress_page_offset. by apply (land_mask 12). Qed.

Lemma is_page_aligned_spec a :
  PhysicalAddress_is_page_aligned a = true <-> a mod PAGE_SIZE = 0.
Proof. unfold PhysicalAddress_is_page_aligned. by rewrite page_offset_mod, Z.eqb_eq. Qed.

Lemma virtual_page_offset_mod a : VirtualAddress_page_offset a = a mod PAGE_SIZE.
Proof. unfold VirtualAddress_page_offset. by apply (land_mask 12). Qed.

Lemma virtual_is_page_aligned_spec a :
  VirtualAddress_is_page_aligned a = true <-> a mod PAGE_SIZE = 0.
Proof. unfold VirtualAddress_is_page_aligned. by rewrite virtual_page_offset_mod, Z.eqb_eq. Qed.

Lemma align_down_mod a :
  is_usize a -> PhysicalAddress_align_down a = a - a mod PAGE_SIZE.
Proof. intros. unfold PhysicalAddress_align_down. by apply (land_not_mask 64 12). Qed.

Lemma align_down_bounds a :
  is_usize a ->
  a - PAGE_SIZE < PhysicalAddress_align_down a <= a /\
  PhysicalAddress_align_down a mod PAGE_SIZE = 0 /\
  0 <= PhysicalAddress_align_down a.
Proof.
  intros Ha. rewrite align_down_mod by done. unfold is_uint, PAGE_SIZE in *.
  split_and!; divlia.
Qed.

Lemma align_up_Some a r :
  is_usize a ->
  PhysicalAddress_align_up a = Some r <->
  r mod PAGE_SIZE = 0 /\ a <= r < a + PAGE_SIZE /\ r < 2 ^ 64.
Proof.
  intros Ha. unfold PhysicalAddress_align_up, PAGE_MASK, is_uint, PAGE_SIZE in *.
  destruct (checked_add 64 a (4096 - 1)) as [sum|] eqn:Hadd.
  - apply checked_add_Some in Hadd as [-> Hlt].
    rewrite (land_not_mask 64 12) by lia.
    change (2 ^ 12) with 4096. split; [intros [= <-]; split_and!; divlia|].
    intros. f_equal. divlia.
  - apply checked_add_None in Hadd. split; [done|]. intros. divlia.
Qed.

Lemma MappingIntent_new_Some pa sz mem perm intent :
  MappingIntent_new pa sz mem perm = Some intent ->
  physical_address intent = pa /\ size intent = sz /\ memory intent = mem /\
  permissions intent = perm /\ pa mod MappingSize_bytes sz = 0.
Proof.
  unfold MappingIntent_new, PageAligned_new_physical, MappingSize_is_aligned.
  destruct (PhysicalAddress_is_page_aligned pa); [|done].
  destruct (Z.eqb_spec (Z.land pa (MappingSize_bytes sz - 1)) 0) as [Heq|]; [|done].
  intros [= <-]. split_and!; try done. rewrite <-Heq.
  destruct sz; symmetry; [by apply (land_mask 12)|by apply (land_mask 21)|by apply (land_mask 30)].
Qed.

Lemma MappingIntent_new_page pa mem perm :
  pa mod PAGE_SIZE = 0 ->
  MappingIntent_new pa Page4K mem perm =
    Some {| physical_address := pa; size := Page4K; memory := mem; permissions := perm |}.
Proof.
  intros Hpa. unfold MappingIntent_new, PageAligned_new_physical, MappingSize_is_aligned.
  rewrite (proj2 (is_page_aligned_spec pa)) by done.
  replace (Z.land pa (MappingSize_bytes Page4K - 1)) with (pa mod PAGE_SIZE)
    by (symmetry; by apply (land_mask 12)).
  by rewrite Hpa.
Qed.

(** ** Properties *)

(** [PhysicalAddress::align_up] returns the least page-aligned address
    that is not below its argument, and returns [None] exactly when that
    address does not fit in a [usize]. *)
Theorem align_up_least a :
  is_usize a ->
  match PhysicalAddress_align_up a with
  | Some r => is_usize r /\ r mod PAGE_SIZE = 0 /\ a <= r /\
      (forall b, b mod PAGE_SIZE = 0 -> a <= b -> r <= b)
  | None => forall b, b mod PAGE_SIZE = 0 -> a <= b -> 2 ^ 64 <= b
  end.
Proof.
  intros Ha. destruct (PhysicalAddress_align_up a) as [r|] eqn:Hr.
  - apply align_up_Some in Hr as (? & ? & ?); [|done].
    unfold is_uint, PAGE_SIZE in *. split_and!; intros; divlia.
  - intros b Hb Hab. destruct (decide (2 ^ 64 <= b)) as [|Hlt]; [done|exfalso].
    unfold PhysicalAddress_align_up, PAGE_MASK, PAGE_SIZE, is_uint in *.
    destruct (checked_add 64 a (4096 - 1)) eqn:Hadd; [done|].
    apply checked_add_None in Hadd. divlia.
Qed.

Lemma align_up_least_witness :
  PhysicalAddress_align_up 4097 = Some 8192 /\
  match PhysicalAddress_align_up 4097 with
  | Some r => is_usize r /\ r mod PAGE_SIZE = 0 /\ 4097 <= r /\
      (forall b, b mod PAGE_SIZE = 0 -> 4097 <= b -> r <= b)
  | None => forall b, b mod PAGE_SIZE = 0 -> 4097 <= b -> 2 ^ 64 <= b
  end.
Proof. split; [reflexivity|]. apply (align_up_least 4097). unfold is_uint. lia. Defined.
