(* ===== verification/HwInfo.v ===== *)
(** * Hardware information discovered from the device tree

    Models [hwinfo/mod.rs], [fdt/cells.rs] and the parser mode of [fdt/blob.rs].
    The [fdt] crate, which parses the blob, is not part of the repository: its
    accessors are the fields of the class [FdtParser], an argument of every
    function that walks the tree.  In the mode that [fdt/blob.rs] selects they
    panic on malformed structure: an accessor answers a value or the message of
    a panic, and [fdt_call] is its call.  [HardwareInfo] is updated in place: its
    methods that only push a region are functions on the record, the ones that
    walk the tree or loop run in the monad [M]. *)

From S2P Require Import Prelude Address.
From stdpp Require Import base tactics option list numbers strings sorting.

#[local] Open Scope Z_scope.
#[local] Open Scope kernel_scope.

(** ** Memory regions *)

Record MemoryRegion := {
  region_base : PhysicalAddress;
  region_size : Z;
}.

#[global] Instance MemoryRegion_eq_dec : EqDecision MemoryRegion.
Proof. solve_decision. Defined.

Definition MemoryRegion_from_fdt_reg (address size : Z) : option MemoryRegion :=
  match PhysicalAddress_try_from_u64 address with
  | None => None
  | Some base =>
      match try_from_uint 64 size with
      | None => None
      | Some size => Some {| region_base := base; region_size := size |}
      end
  end.

Definition MemoryRegion_end (r : MemoryRegion) : option PhysicalAddress :=
  PhysicalAddress_checked_add (region_base r) (region_size r).

(** ** The snapshot *)

Inductive InterruptControllerInfo :=
  | InfoGicV2 (distributor_base : PhysicalAddress) (cpu_interface_base : option PhysicalAddress)
  | InfoGicV3 (distributor_base : PhysicalAddress) (redistributor_base : option PhysicalAddress).

Record Features := {
  hardware_random : bool;
  interrupt_controller : option InterruptControllerInfo;
}.

Record HardwareInfo := {
  dtb_phys : PhysicalAddress;
  dtb_size : Z;
  memory_regions_array : list MemoryRegion;
  memory_region_count : Z;
  dropped_memory_regions : Z;
  total_memory : Z;
  reserved_regions_array : list MemoryRegion;
  reserved_region_count : Z;
  dropped_reserved_regions : Z;
  timer_frequency_hz : option Z;
  cpu_count_found : Z;
  uart_base_found : option PhysicalAddress;
  features : Features;
}.

Definition HardwareInfo_empty (dtb_phys : PhysicalAddress) : HardwareInfo := {|
  dtb_phys := dtb_phys;
  dtb_size := 0;
  memory_regions_array :=
    replicate (Z.to_nat MAX_MEMORY_ARENAS) {| region_base := PhysicalAddress_ZERO; region_size := 0 |};
  memory_region_count := 0;
  dropped_memory_regions := 0;
  total_memory := 0;
  reserved_regions_array :=
    replicate (Z.to_nat MAX_RESERVED_REGIONS) {| region_base := PhysicalAddress_ZERO; region_size := 0 |};
  reserved_region_count := 0;
  dropped_reserved_regions := 0;
  timer_frequency_hz := None;
  cpu_count_found := 0;
  uart_base_found := None;
  features := {| hardware_random := false; interrupt_controller := None |};
|}.

(** The slices of the occupied entries. *)
Definition memory_regions (info : HardwareInfo) : list MemoryRegion :=
  take (Z.to_nat (memory_region_count info)) (memory_regions_array info).
Definition reserved_regions (info : HardwareInfo) : list MemoryRegion :=
  take (Z.to_nat (reserved_region_count info)) (reserved_regions_array info).

Definition max_memory_end (info : HardwareInfo) : PhysicalAddress :=
  match omap MemoryRegion_end (memory_regions info) with
  | [] => PhysicalAddress_ZERO
  | e :: es => foldl Z.max e es
  end.

(** Field updates ([self.field = value]). *)
Definition set_memory_regions (info : HardwareInfo) array count dropped total := {|
  dtb_phys := dtb_phys info; dtb_size := dtb_size info;
  memory_regions_array := array; memory_region_count := count;
  dropped_memory_regions := dropped; total_memory := total;
  reserved_regions_array := reserved_regions_array info;
  reserved_region_count := reserved_region_count info;
  dropped_reserved_regions := dropped_reserved_regions info;
  timer_frequency_hz := timer_frequency_hz info; cpu_count_found := cpu_count_found info;
  uart_base_found := uart_base_found info; features := features info |}.
Definition set_reserved_regions (info : HardwareInfo) array count dropped := {|
  dtb_phys := dtb_phys info; dtb_size := dtb_size info;
  memory_regions_array := memory_regions_array info;
  memory_region_count := memory_region_count info;
  dropped_memory_regions := dropped_memory_regions info; total_memory := total_memory info;
  reserved_regions_array := array; reserved_region_count := count;
  dropped_reserved_regions := dropped;
  timer_frequency_hz := timer_frequency_hz info; cpu_count_found := cpu_count_found info;
  uart_base_found := uart_base_found info; features := features info |}.

Definition push_memory_region (region : MemoryRegion) (info : HardwareInfo) : HardwareInfo :=
  if Z.of_nat (length (memory_regions_array info)) <=? memory_region_count info then
    set_memory_regions info (memory_regions_array info) (memory_region_count info)
      (saturating_add 64 (dropped_memory_regions info) 1) (total_memory info)
  else
    set_memory_regions info
      (<[Z.to_nat (memory_region_count info) := region]> (memory_regions_array info))
      (memory_region_count info + 1)
      (dropped_memory_regions info)
      (saturating_add 64 (total_memory info) (region_size region)).

Definition push_reserved_region (region : MemoryRegion) (info : HardwareInfo) : HardwareInfo :=
  if Z.of_nat (length (reserved_regions_array info)) <=? reserved_region_count info then
    set_reserved_regions info (reserved_regions_array info) (reserved_region_count info)
      (saturating_add 64 (dropped_reserved_regions info) 1)
  else
    set_reserved_regions info
      (<[Z.to_nat (reserved_region_count info) := region]> (reserved_regions_array info))
      (reserved_region_count info + 1)
      (dropped_reserved_regions info).

(** [self.dropped_reserved_regions = self.dropped_reserved_regions.saturating_add(1)] *)
Definition drop_reserved_region (info : HardwareInfo) : HardwareInfo :=
  set_reserved_regions info (reserved_regions_array info) (reserved_region_count info)
    (saturating_add 64 (dropped_reserved_regions info) 1).

(** ** Big-endian integers *)

(** [u64::from_be_bytes] and [u32::from_be_bytes]. *)
Definition from_be_bytes (bytes : list Z) : Z :=
  foldl (fun acc byte => acc * 256 + byte) 0 bytes.

Definition read_be_u64 (bytes : list Z) : option Z :=
  match bytes with
  | b0 :: b1 :: b2 :: b3 :: b4 :: b5 :: b6 :: b7 :: _ =>
      Some (from_be_bytes [b0; b1; b2; b3; b4; b5; b6; b7])
  | _ => None
  end.

(** [data.get(..n)]. *)
Definition get_prefix (n : nat) (data : list Z) : option (list Z) :=
  if (n <=? length data)%nat then Some (take n data) else None.

Definition read_cells (data : list Z) (cells : Z) : option Z :=
  if cells =? 1 then option_map from_be_bytes (get_prefix 4 data)
  else if cells =? 2 then option_map from_be_bytes (get_prefix 8 data)
  else None.

Definition parse_timer_frequency (prop : list Z) : option Z :=
  let len := Z.of_nat (length prop) in
  if len <=? 3 then None
  else if len <=? 7 then read_cells prop 1
  else read_cells prop 2.

(** ** The memory reservation block *)

(** The [while block.len() >= 16] loop; [true] is the early [return] at the
    terminating entry. *)
Fixpoint reservation_block_loop (fuel : nat) (block : list Z) : M HardwareInfo bool :=
  match fuel with
  | O => out_of_fuel
  | S fuel =>
      if Z.of_nat (length block) <? 16 then ret false
      else
        match read_be_u64 block with
        | None => ret false
        | Some address =>
            match read_be_u64 (drop 8 block) with
            | None => ret false
            | Some size =>
                if (address =? 0) && (size =? 0) then ret true
                else
                  match MemoryRegion_from_fdt_reg address size with
                  | None =>
                      modify drop_reserved_region ;;;
                      reservation_block_loop fuel (drop 16 block)
                  | Some region =>
                      modify (push_reserved_region region) ;;;
                      reservation_block_loop fuel (drop 16 block)
                  end
            end
        end
  end.

(** [offset] is [fdt.header().memory_reserve_map_offset]. *)
Definition collect_memory_reservation_block (offset : Z) (dtb_blob : list Z) : M HardwareInfo unit :=
  if Z.of_nat (length dtb_blob) <? offset then modify drop_reserved_region
  else
    let block := drop (Z.to_nat offset) dtb_blob in
    let! terminated := reservation_block_loop (S (length block)) block in
    if (terminated : bool) then ret tt else modify drop_reserved_region.

(** ** Sorting the regions *)

(** The inner [while j > 0 && regions[j - 1].size < key.size] loop: the final
    [j] and array.  [j <= i < regions.len()], so the index is in range. *)
Fixpoint shift_smaller (key : MemoryRegion) (j : nat) (regions : list MemoryRegion) :
    nat * list MemoryRegion :=
  match j with
  | O => (O, regions)
  | S j' =>
      match regions !! j' with
      | None => (j, regions)
      | Some r =>
          if region_size r <? region_size key
          then shift_smaller key j' (<[j := r]> regions)
          else (j, regions)
      end
  end.

Definition insert_region (regions : list MemoryRegion) (i : nat) : list MemoryRegion :=
  match regions !! i with
  | None => regions
  | Some key => let '(j, regions) := shift_smaller key i regions in <[j := key]> regions
  end.

Definition sort_regions_by_size (regions : list MemoryRegion) : list MemoryRegion :=
  foldl insert_region regions (seq 1 (length regions - 1)).

(** ** ISA strings *)

(** [haystack.windows(needle.len()).position(|window| window == needle)], for
    a non-empty needle. *)
Fixpoint find_subslice (haystack needle : list Z) : option nat :=
  if decide (take (length needle) haystack = needle) then Some O
  else match haystack with
       | [] => None
       | _ :: rest => option_map S (find_subslice rest needle)
       end.

Definition underscore : Z := 95.

(** The [while let Some(relative) = find_subslice(&isa[pos..], ext)] loop. *)
Fixpoint isa_scan (fuel : nat) (isa ext : list Z) (pos : nat) : bool :=
  match fuel with
  | O => false
  | S fuel =>
      match find_subslice (drop pos isa) ext with
      | None => false
      | Some relative =>
          let idx := (pos + relative)%nat in
          let before_ok := (idx =? 0)%nat || bool_decide (isa !! (idx - 1)%nat = Some underscore) in
          let after := (idx + length ext)%nat in
          let after_ok := (after =? length isa)%nat || bool_decide (isa !! after = Some underscore) in
          if before_ok && after_ok then true else isa_scan fuel isa ext (S idx)
      end
  end.

Definition isa_string_has_extension (isa ext : list Z) : bool :=
  if (length ext =? 0)%nat || (length isa <? length ext)%nat then false
  else isa_scan (S (length isa)) isa ext 0.

(** [prop.split(|byte| *byte == 0)]. *)
Fixpoint split_nul (prop : list Z) : list (list Z) :=
  match prop with
  | [] => [[]]
  | b :: rest =>
      if b =? 0 then [] :: split_nul rest
      else match split_nul rest with
           | [] => [[b]]
           | item :: items => (b :: item) :: items
           end
  end.

Definition has_string_list_entry (prop entry : list Z) : bool :=
  existsb (fun item => negb (length item =? 0)%nat && bool_decide (item = entry)) (split_nul prop).

Definition trim_prop_string (prop : list Z) : list Z := default prop (head (split_nul prop)).

Definition zkr : list Z := [122; 107; 114].

(** ** Walking the tree

    The accessors of the [fdt] crate that the kernel calls.  [fdt/blob.rs] fixes
    the crate's [Panic] mode: an accessor that meets a malformed tree panics, so
    its answer is a value or the message of a panic.  An iterator is the list of
    the answers of its [next], and the tree is walked from its root, so a tree
    without a root panics in [fdt_find_node].  [node_reg] enumerates
    [reg().iter::<u64, u64>()], whose entries are results of their own: one that
    the crate could not decode is [None]. *)
Abbreviation Answer A := (Result A string).

Class FdtParser := {
  Fdt : Type;
  Node : Type;
  fdt_total_size : Fdt -> Z;
  fdt_memory_reserve_map_offset : Fdt -> Z;
  fdt_find_node : Fdt -> string -> Answer (option Node);
  fdt_all_compatible : Fdt -> list string -> list (Answer Node);
  node_children : Node -> list (Answer Node);
  node_name : Node -> Answer string;
  node_reg : Node -> Answer (option (list (option (Z * Z))));
  node_raw_property : Node -> string -> Answer (option (list Z));
}.

(** A call into the crate. *)
Definition fdt_call {S A} (a : Answer A) : M S A :=
  match a with Ok a => ret a | Err msg => panic msg end.

(** [Frequency::try_from_hz]: a frequency is a non-zero [u64]. *)
Definition Frequency_try_from_hz (hz : Z) : option Z := if hz =? 0 then None else Some hz.

(** [for entry in reg.iter()]: the entries that decode and fit, in order. *)
Definition reg_regions (reg : list (option (Z * Z))) : list MemoryRegion :=
  omap (fun entry =>
    match entry with
    | None => None
    | Some (address, len) => MemoryRegion_from_fdt_reg address len
    end) reg.

(** The sort at the end of [collect_memory_regions]. *)
Definition sort_memory_regions (info : HardwareInfo) : HardwareInfo :=
  let count := Z.to_nat (memory_region_count info) in
  set_memory_regions info
    (sort_regions_by_size (take count (memory_regions_array info)) ++ drop count (memory_regions_array info))
    (memory_region_count info) (dropped_memory_regions info) (total_memory info).

(** [self.dtb_size = ..] and the other fields of [from_fdt]. *)
Definition set_dtb_size (size : Z) (info : HardwareInfo) : HardwareInfo := {|
  dtb_phys := dtb_phys info; dtb_size := size;
  memory_regions_array := memory_regions_array info; memory_region_count := memory_region_count info;
  dropped_memory_regions := dropped_memory_regions info; total_memory := total_memory info;
  reserved_regions_array := reserved_regions_array info; reserved_region_count := reserved_region_count info;
  dropped_reserved_regions := dropped_reserved_regions info;
  timer_frequency_hz := timer_frequency_hz info; cpu_count_found := cpu_count_found info;
  uart_base_found := uart_base_found info; features := features info |}.
Definition set_found (frequency : option Z) (cpus : Z) (random : bool) (controller : option InterruptControllerInfo)
    (uart : option PhysicalAddress) (info : HardwareInfo) : HardwareInfo := {|
  dtb_phys := dtb_phys info; dtb_size := dtb_size info;
  memory_regions_array := memory_regions_array info; memory_region_count := memory_region_count info;
  dropped_memory_regions := dropped_memory_regions info; total_memory := total_memory info;
  reserved_regions_array := reserved_regions_array info; reserved_region_count := reserved_region_count info;
  dropped_reserved_regions := dropped_reserved_regions info;
  timer_frequency_hz := frequency; cpu_count_found := cpus; uart_base_found := uart;
  features := {| hardware_random := random; interrupt_controller := controller |} |}.

Section FdtWalk.
Context `{FdtParser}.

Definition collect_memory_regions (fdt : Fdt) : M HardwareInfo unit :=
  let! memory := fdt_call (fdt_find_node fdt "/memory") in
  match memory with
  | None => ret tt
  | Some memory =>
      let! reg := fdt_call (node_reg memory) in
      match reg with
      | None => ret tt
      | Some reg =>
          for_each (reg_regions reg) (fun region => modify (push_memory_region region)) ;;;
          modify sort_memory_regions
      end
  end.

Definition collect_reserved_memory_node (fdt : Fdt) : M HardwareInfo unit :=
  let! parent := fdt_call (fdt_find_node fdt "/reserved-memory") in
  match parent with
  | None => ret tt
  | Some parent =>
      for_each (node_children parent) (fun child =>
        let! child := fdt_call child in
        let! reg := fdt_call (node_reg child) in
        match reg with
        | None => ret tt
        | Some reg => for_each (reg_regions reg) (fun region => modify (push_reserved_region region))
        end)
  end.

Definition collect_reserved_regions (fdt : Fdt) (dtb_blob : list Z) : M HardwareInfo unit :=
  collect_memory_reservation_block (fdt_memory_reserve_map_offset fdt) dtb_blob ;;;
  collect_reserved_memory_node fdt.

Section Lookups.
Context {S : Type}.

Definition timer_frequency (fdt : Fdt) : M S (option Z) :=
  let! cpus := fdt_call (fdt_find_node fdt "/cpus") in
  let? cpus := cpus in
  let! prop := fdt_call (node_raw_property cpus "timebase-frequency") in
  let? prop := prop in
  let? hz := parse_timer_frequency prop in
  ret (Frequency_try_from_hz hz).

(** [.filter(|node| node.name().name == "cpu").count()] *)
Fixpoint count_cpus (nodes : list (Answer Node)) : M S Z :=
  match nodes with
  | [] => ret 0
  | node :: nodes =>
      let! node := fdt_call node in
      let! name := fdt_call (node_name node) in
      let! rest := count_cpus nodes in
      ret (if String.eqb name "cpu" then rest + 1 else rest)
  end.

Definition cpu_count (fdt : Fdt) : M S Z :=
  let! cpus := fdt_call (fdt_find_node fdt "/cpus") in
  match cpus with
  | None => ret 0
  | Some cpus => count_cpus (node_children cpus)
  end.

(** [.find(|node| node.name().name == "cpu")]: the rest is not looked at. *)
Fixpoint find_cpu (nodes : list (Answer Node)) : M S (option Node) :=
  match nodes with
  | [] => ret None
  | node :: nodes =>
      let! node := fdt_call node in
      let! name := fdt_call (node_name node) in
      if String.eqb name "cpu" then ret (Some node) else find_cpu nodes
  end.

Definition first_cpu_node (fdt : Fdt) : M S (option Node) :=
  let! cpus := fdt_call (fdt_find_node fdt "/cpus") in
  let? cpus := cpus in
  find_cpu (node_children cpus).

Definition has_hardware_random (fdt : Fdt) : M S bool :=
  let! cpu := first_cpu_node fdt in
  match cpu with
  | None => ret false
  | Some cpu =>
      let! listed := fdt_call (node_raw_property cpu "riscv,isa-extensions") in
      if match listed with Some prop => has_string_list_entry prop zkr | None => false end then ret true
      else
        let! isa := fdt_call (node_raw_property cpu "riscv,isa") in
        ret (match isa with
             | Some prop => isa_string_has_extension (trim_prop_string prop) zkr
             | None => false
             end)
  end.

Definition parse_gic_regs (node : Node) (version : Z) : M S (option InterruptControllerInfo) :=
  let! reg := fdt_call (node_reg node) in
  let? entries := reg in
  ret (match entries with
       | Some (distributor, _) :: rest =>
           let second :=
             match rest with
             | Some (address, _) :: _ => PhysicalAddress_try_from_u64 address
             | _ => None
             end in
           match PhysicalAddress_try_from_u64 distributor with
           | None => None
           | Some distributor_base =>
               if version =? 2 then Some (InfoGicV2 distributor_base second)
               else if version =? 3 then Some (InfoGicV3 distributor_base second)
               else None
           end
       | _ => None
       end).

(** [all_compatible(..).next()] *)
Definition find_compatible (fdt : Fdt) (compatible : list string) : M S (option Node) :=
  match fdt_all_compatible fdt compatible with
  | [] => ret None
  | node :: _ => let! node := fdt_call node in ret (Some node)
  end.

Definition interrupt_controller_info (fdt : Fdt) : M S (option InterruptControllerInfo) :=
  let! v3 :=
    (let! node := find_compatible fdt ["arm,gic-v3"%string] in
     let? node := node in
     parse_gic_regs node 3) in
  match v3 with
  | Some info => ret (Some info)
  | None =>
      let! node := find_compatible fdt ["arm,cortex-a15-gic"%string; "arm,gic-400"%string] in
      let? node := node in
      parse_gic_regs node 2
  end.

Definition device_base (node : Node) : M S (option PhysicalAddress) :=
  let! reg := fdt_call (node_reg node) in
  ret (match reg with
       | Some (Some (address, _) :: _) => PhysicalAddress_try_from_u64 address
       | _ => None
       end).

Definition uart_base (fdt : Fdt) : M S (option PhysicalAddress) :=
  let! node := find_compatible fdt ["arm,pl011"%string; "ns16550a"%string] in
  let? node := node in
  device_base node.
End Lookups.

(** The body of [from_fdt] on [info], from the empty description. *)
Definition fill_from_fdt (fdt : Fdt) (dtb_blob : list Z) : M HardwareInfo unit :=
  modify (set_dtb_size (fdt_total_size fdt)) ;;;
  collect_memory_regions fdt ;;;
  collect_reserved_regions fdt dtb_blob ;;;
  let! frequency := timer_frequency fdt in
  let! cpus := cpu_count fdt in
  let! random := has_hardware_random fdt in
  let! controller := interrupt_controller_info fdt in
  let! uart := uart_base fdt in
  modify (set_found frequency cpus random controller uart).

Definition HardwareInfo_from_fdt (dtb_phys : PhysicalAddress) (fdt : Fdt) (dtb_blob : list Z) :
    outcome HardwareInfo :=
  match fill_from_fdt fdt dtb_blob (HardwareInfo_empty dtb_phys) with
  | Done (_, info) => Done info
  | Panic msg => Panic msg
  | Undefined => Undefined
  | OutOfFuel => OutOfFuel
  end.
End FdtWalk.
