(* ===== verification/Pmm.v ===== *)
(** * Physical page allocator: data and operations

    Models [pmm/mod.rs].  The manager is the record [Pmm]; the page metadata
    that [PageStorage::ptr] points at is the extra field [metadata], a map from
    the virtual address of a slot to the [Page] stored there, so that two
    arenas whose metadata overlapped would really share slots.  Every method
    runs in the monad [M Pmm]; reading a slot that was never written is
    [Undefined].  [PMM_LOCK] serialises the callers, so a call of a public
    function is one step of this state. *)

From S2P Require Import Prelude Address HwInfo.
From stdpp Require Import base tactics option list list_numbers numbers gmap strings.

#[local] Open Scope Z_scope.
#[local] Open Scope kernel_scope.

Definition INVALID_ARENA_INDEX : Z := u8_MAX.
Definition INVALID_PAGE_INDEX : Z := u32_MAX.
Definition KERNEL_RESERVE_PAD : Z := 2 * 1024 * 1024.

(** [core::mem::size_of::<Page>()]: [Page] has the default representation, so
    its size is the compiler's choice. *)
Class PageLayout := {
  size_of_Page : Z;
  size_of_Page_pos : 0 < size_of_Page;
}.

Inductive InitError :=
  | NoMemoryRegions
  | MetadataTooLarge
  | MetadataAddressUnavailable
  | TooManyReservedRanges
  | DroppedReservedRegions
  | OverlappingMemoryRegions
  | AddressNotMapped
  | ArithmeticOverflow
  | PageIndexTooLarge.

Inductive FreeContiguousError :=
  | NotContiguousHead
  | AddressNotInArena
  | NotAllocated
  | InvalidPageState.

Inductive PageState := Free | Allocated | Reserved.

#[global] Instance InitError_eq_dec : EqDecision InitError.
Proof. solve_decision. Defined.
#[global] Instance FreeContiguousError_eq_dec : EqDecision FreeContiguousError.
Proof. solve_decision. Defined.
#[global] Instance PageState_eq_dec : EqDecision PageState.
Proof. solve_decision. Defined.

(** ** Pages and handles *)

Record PageHandle := PageHandle_new {
  handle_arena_index : Z;
  handle_page_index : Z;
}.

#[global] Instance PageHandle_eq_dec : EqDecision PageHandle.
Proof. solve_decision. Defined.
#[global] Instance PageHandle_countable : Countable PageHandle.
Proof.
  refine (inj_countable' (fun h => (handle_arena_index h, handle_page_index h))
    (fun '(a, p) => PageHandle_new a p) _). by intros [].
Defined.

Definition PageHandle_NONE : PageHandle :=
  PageHandle_new INVALID_ARENA_INDEX INVALID_PAGE_INDEX.
Definition PageHandle_is_some (h : PageHandle) : bool :=
  negb (handle_page_index h =? INVALID_PAGE_INDEX).

Record Page := {
  previous_free : PageHandle;
  next_free : PageHandle;
  state : PageState;
  page_arena_index : Z;
  contiguous_head : bool;
}.

Definition Page_new (arena_index : Z) (state : PageState) : Page := {|
  previous_free := PageHandle_NONE;
  next_free := PageHandle_NONE;
  state := state;
  page_arena_index := arena_index;
  contiguous_head := false |}.

(** [page.field = value]. *)
Definition set_previous_free (h : PageHandle) (p : Page) : Page := {|
  previous_free := h; next_free := next_free p; state := state p;
  page_arena_index := page_arena_index p; contiguous_head := contiguous_head p |}.
Definition set_next_free (h : PageHandle) (p : Page) : Page := {|
  previous_free := previous_free p; next_free := h; state := state p;
  page_arena_index := page_arena_index p; contiguous_head := contiguous_head p |}.
Definition set_state (st : PageState) (p : Page) : Page := {|
  previous_free := previous_free p; next_free := next_free p; state := st;
  page_arena_index := page_arena_index p; contiguous_head := contiguous_head p |}.
Definition set_contiguous_head (b : bool) (p : Page) : Page := {|
  previous_free := previous_free p; next_free := next_free p; state := state p;
  page_arena_index := page_arena_index p; contiguous_head := b |}.

(** ** Arenas *)

Record PageStorage := {
  storage_ptr : Z;
  storage_len : Z;
  storage_arena_index : Z;
}.

Definition PageStorage_empty : PageStorage :=
  {| storage_ptr := 0; storage_len := 0; storage_arena_index := INVALID_ARENA_INDEX |}.

Record Arena := {
  arena_base : PhysicalAddress;
  page_count : Z;
  pages : PageStorage;
}.

Definition Arena_EMPTY : Arena :=
  {| arena_base := PhysicalAddress_ZERO; page_count := 0; pages := PageStorage_empty |}.

Definition physical_to_page (a : Arena) (physical : PhysicalAddress) : option PageHandle :=
  if negb (PhysicalAddress_is_page_aligned physical) || (physical <? arena_base a) then None
  else
    match checked_sub physical (arena_base a) with
    | None => None
    | Some offset =>
        let page_index := offset / PAGE_SIZE in
        if page_count a <=? page_index then None
        else
          match try_from_uint 32 page_index with
          | None => None
          | Some page_index => Some (PageHandle_new (storage_arena_index (pages a)) page_index)
          end
    end.

Definition page_to_physical (a : Arena) (page : PageHandle) : option PhysicalAddress :=
  if negb (handle_arena_index page =? storage_arena_index (pages a)) then None
  else
    let index := handle_page_index page in
    if page_count a <=? index then None
    else
      match checked_mul 64 index PAGE_SIZE with
      | None => None
      | Some bytes => PhysicalAddress_checked_add (arena_base a) bytes
      end.

Definition contains_page (a : Arena) (page : PageHandle) : bool :=
  (handle_arena_index page =? storage_arena_index (pages a)) &&
  (handle_page_index page <? page_count a).

(** [page_mut] and [page_ref]: the address of the metadata slot. *)
Definition page_slot `{PageLayout} (a : Arena) (page : PageHandle) : option Z :=
  if contains_page a page
  then Some (storage_ptr (pages a) + handle_page_index page * size_of_Page)
  else None.

(** ** Reserved ranges *)

Record ReservedRange := {
  range_start : PhysicalAddress;
  range_end : PhysicalAddress;
}.

#[global] Instance ReservedRange_eq_dec : EqDecision ReservedRange.
Proof. solve_decision. Defined.

Definition ReservedRange_EMPTY : ReservedRange :=
  {| range_start := PhysicalAddress_ZERO; range_end := PhysicalAddress_ZERO |}.
Definition ReservedRange_new (start end_ : PhysicalAddress) : option ReservedRange :=
  if start <? end_ then Some {| range_start := start; range_end := end_ |} else None.
Definition ReservedRange_contains (r : ReservedRange) (physical : PhysicalAddress) : bool :=
  (range_start r <=? physical) && (physical <? range_end r).

Definition ranges_overlap (left_start left_end right_start right_end : PhysicalAddress) : bool :=
  (left_start <? right_end) && (right_start <? left_end).
Definition ranges_overlap_or_touch (left_start left_end right_start right_end : PhysicalAddress) : bool :=
  (left_start <=? right_end) && (right_start <=? left_end).

(** The inner loop of [validate_memory_regions]: [left] against the regions
    after it. *)
Fixpoint validate_against (lft : MemoryRegion) (left_end : PhysicalAddress)
    (rights : list MemoryRegion) : Result unit InitError :=
  match rights with
  | [] => Ok tt
  | rgt :: rights =>
      match MemoryRegion_end rgt with
      | None => Err ArithmeticOverflow
      | Some right_end =>
          if ranges_overlap (region_base lft) left_end (region_base rgt) right_end
          then Err OverlappingMemoryRegions
          else validate_against lft left_end rights
      end
  end.

Fixpoint validate_memory_regions (regions : list MemoryRegion) : Result unit InitError :=
  match regions with
  | [] => Ok tt
  | lft :: rights =>
      match MemoryRegion_end lft with
      | None => Err ArithmeticOverflow
      | Some left_end =>
          match validate_against lft left_end rights with
          | Err e => Err e
          | Ok _ => validate_memory_regions rights
          end
      end
  end.

(** ** The manager *)

Record Pmm := {
  arenas : list Arena;
  arena_count : Z;
  reserved_ranges : list ReservedRange;
  reserved_count : Z;
  free_head : PageHandle;
  free_tail : PageHandle;
  total_pages : Z;
  free_pages : Z;
  initialized : bool;
  metadata : gmap Z Page;
}.

Definition set_arenas (l : list Arena) (n : Z) (s : Pmm) : Pmm := {|
  arenas := l; arena_count := n;
  reserved_ranges := reserved_ranges s; reserved_count := reserved_count s;
  free_head := free_head s; free_tail := free_tail s; total_pages := total_pages s;
  free_pages := free_pages s; initialized := initialized s; metadata := metadata s |}.
Definition set_reserved (l : list ReservedRange) (n : Z) (s : Pmm) : Pmm := {|
  arenas := arenas s; arena_count := arena_count s;
  reserved_ranges := l; reserved_count := n;
  free_head := free_head s; free_tail := free_tail s; total_pages := total_pages s;
  free_pages := free_pages s; initialized := initialized s; metadata := metadata s |}.
Definition set_free_head (h : PageHandle) (s : Pmm) : Pmm := {|
  arenas := arenas s; arena_count := arena_count s;
  reserved_ranges := reserved_ranges s; reserved_count := reserved_count s;
  free_head := h; free_tail := free_tail s; total_pages := total_pages s;
  free_pages := free_pages s; initialized := initialized s; metadata := metadata s |}.
Definition set_free_tail (h : PageHandle) (s : Pmm) : Pmm := {|
  arenas := arenas s; arena_count := arena_count s;
  reserved_ranges := reserved_ranges s; reserved_count := reserved_count s;
  free_head := free_head s; free_tail := h; total_pages := total_pages s;
  free_pages := free_pages s; initialized := initialized s; metadata := metadata s |}.
Definition set_total_pages (n : Z) (s : Pmm) : Pmm := {|
  arenas := arenas s; arena_count := arena_count s;
  reserved_ranges := reserved_ranges s; reserved_count := reserved_count s;
  free_head := free_head s; free_tail := free_tail s; total_pages := n;
  free_pages := free_pages s; initialized := initialized s; metadata := metadata s |}.
Definition set_free_pages (n : Z) (s : Pmm) : Pmm := {|
  arenas := arenas s; arena_count := arena_count s;
  reserved_ranges := reserved_ranges s; reserved_count := reserved_count s;
  free_head := free_head s; free_tail := free_tail s; total_pages := total_pages s;
  free_pages := n; initialized := initialized s; metadata := metadata s |}.
Definition set_initialized (b : bool) (s : Pmm) : Pmm := {|
  arenas := arenas s; arena_count := arena_count s;
  reserved_ranges := reserved_ranges s; reserved_count := reserved_count s;
  free_head := free_head s; free_tail := free_tail s; total_pages := total_pages s;
  free_pages := free_pages s; initialized := b; metadata := metadata s |}.
Definition set_metadata (m : gmap Z Page) (s : Pmm) : Pmm := {|
  arenas := arenas s; arena_count := arena_count s;
  reserved_ranges := reserved_ranges s; reserved_count := reserved_count s;
  free_head := free_head s; free_tail := free_tail s; total_pages := total_pages s;
  free_pages := free_pages s; initialized := initialized s; metadata := m |}.

(** [PhysicalMemoryManager::empty], over metadata memory [m]. *)
Definition Pmm_empty (m : gmap Z Page) : Pmm := {|
  arenas := replicate (Z.to_nat MAX_MEMORY_ARENAS) Arena_EMPTY; arena_count := 0;
  reserved_ranges := replicate (Z.to_nat MAX_RESERVED_REGIONS) ReservedRange_EMPTY;
  reserved_count := 0;
  free_head := PageHandle_NONE; free_tail := PageHandle_NONE; total_pages := 0;
  free_pages := 0; initialized := false; metadata := m |}.

(** [*self = Self::empty()]: the metadata memory is not part of [self]. *)
Definition reset : M Pmm unit := modify (fun s => Pmm_empty (metadata s)).

(** Memory accesses through a slot address. *)
Definition load_page (slot : Z) : M Pmm Page := fun s =>
  match metadata s !! slot with Some p => Done (p, s) | None => Undefined end.
Definition write_page (slot : Z) (p : Page) : M Pmm unit :=
  modify (fun s => set_metadata (<[slot := p]> (metadata s)) s).
Definition update_page (slot : Z) (f : Page -> Page) : M Pmm unit :=
  let! p := load_page slot in write_page slot (f p).

(** [array[i]] and [array[i] = x], which panic out of range. *)
Definition array_get {A} (l : list A) (i : Z) : M Pmm A :=
  expect "index out of bounds" (l !! Z.to_nat i).
Definition array_set {A} (l : list A) (i : Z) (x : A) : M Pmm (list A) :=
  if i <? Z.of_nat (length l) then ret (<[Z.to_nat i := x]> l) else panic "index out of bounds".

(** ** Reserved ranges of the manager *)

Definition remove_reserved (index : Z) : M Pmm unit :=
  let! count := gets reserved_count in
  let! last := sub_uint count 1 in
  for_each (range index last) (fun current =>
    let! next := add_uint 64 current 1 in
    let! ranges := gets reserved_ranges in
    let! r := array_get ranges next in
    let! ranges := array_set ranges current r in
    modify (set_reserved ranges count)) ;;;
  let! ranges := gets reserved_ranges in
  let! ranges := array_set ranges last ReservedRange_EMPTY in
  modify (set_reserved ranges last).

(** The [while index < self.reserved_count] loop: each iteration passes over
    one range or removes one, so [reserved_count + 1] fuel is enough. *)
Fixpoint record_reserved_loop (fuel : nat) (index : Z) (r : ReservedRange) : M Pmm ReservedRange :=
  match fuel with
  | O => out_of_fuel
  | S fuel =>
      let! count := gets reserved_count in
      if index <? count then
        let! ranges := gets reserved_ranges in
        let! existing := array_get ranges index in
        if negb (ranges_overlap_or_touch (range_start r) (range_end r)
                   (range_start existing) (range_end existing))
        then let! index := add_uint 64 index 1 in record_reserved_loop fuel index r
        else
          remove_reserved index ;;;
          record_reserved_loop fuel index
            {| range_start := Z.min (range_start r) (range_start existing);
               range_end := Z.max (range_end r) (range_end existing) |}
      else ret r
  end.

Definition record_reserved (start end_ : PhysicalAddress) : M Pmm (Result unit InitError) :=
  match ReservedRange_new start end_ with
  | None => ret (Ok tt)
  | Some r =>
      let! count := gets reserved_count in
      let! r := record_reserved_loop (S (Z.to_nat count)) 0 r in
      let! count := gets reserved_count in
      let! ranges := gets reserved_ranges in
      if Z.of_nat (length ranges) <=? count then ret (Err TooManyReservedRanges)
      else
        let! ranges := array_set ranges count r in
        let! count := add_uint 64 count 1 in
        modify (set_reserved ranges count) ;;;
        ret (Ok tt)
  end.

(** [self.reserved_ranges[..self.reserved_count]] *)
Definition active_ranges (s : Pmm) : list ReservedRange :=
  take (Z.to_nat (reserved_count s)) (reserved_ranges s).

Definition is_reserved (s : Pmm) (physical : PhysicalAddress) : bool :=
  existsb (fun r => ReservedRange_contains r physical) (active_ranges s).

(** [max_by_key(|range| range.start)]: the last of the maximal elements. *)
Definition max_by_start (l : list ReservedRange) : option ReservedRange :=
  foldl (fun best r =>
    match best with
    | None => Some r
    | Some b => if range_start b <=? range_start r then Some r else Some b
    end) None l.

Definition overlapping_reserved_range (s : Pmm) (start end_ : PhysicalAddress) : option ReservedRange :=
  max_by_start (filter (fun r => ranges_overlap start end_ (range_start r) (range_end r) = true)
                  (active_ranges s)).

(** The [loop] of [find_metadata_range].  A range that sends the candidate
    below its start is never met again, so [reserved_count + 1] fuel is enough. *)
Fixpoint find_metadata_loop (fuel : nat) (minimum_end metadata_bytes candidate_start : Z) :
    M Pmm (Result (option PhysicalAddress) InitError) :=
  match fuel with
  | O => out_of_fuel
  | S fuel =>
      let? candidate_end := PhysicalAddress_checked_add candidate_start metadata_bytes
        ok_or ArithmeticOverflow in
      let! overlap := gets (fun s => overlapping_reserved_range s candidate_start candidate_end) in
      match overlap with
      | None => ret (Ok (Some candidate_start))
      | Some overlap =>
          let new_end := PhysicalAddress_align_down (range_start overlap) in
          if new_end <? minimum_end then ret (Ok None)
          else
            let! candidate_start := sub_uint new_end metadata_bytes in
            find_metadata_loop fuel minimum_end metadata_bytes candidate_start
      end
  end.

Definition find_metadata_range (arena_base : PhysicalAddress) (total_pages metadata_pages : Z) :
    M Pmm (Result (option PhysicalAddress) InitError) :=
  if (metadata_pages =? 0) || (total_pages <? metadata_pages) then ret (Ok None)
  else
    let? metadata_bytes := checked_mul 64 metadata_pages PAGE_SIZE ok_or ArithmeticOverflow in
    let? arena_bytes := checked_mul 64 total_pages PAGE_SIZE ok_or ArithmeticOverflow in
    let? arena_end := PhysicalAddress_checked_add arena_base arena_bytes ok_or ArithmeticOverflow in
    let? minimum_end := PhysicalAddress_checked_add arena_base metadata_bytes
      ok_or ArithmeticOverflow in
    let! candidate_start := sub_uint arena_end metadata_bytes in
    let! count := gets reserved_count in
    find_metadata_loop (S (Z.to_nat count)) minimum_end metadata_bytes candidate_start.

Definition reserve_kernel (kernel_start kernel_end : PhysicalAddress) : M Pmm (Result unit InitError) :=
  let? padded_end := PhysicalAddress_checked_add kernel_start KERNEL_RESERVE_PAD
    ok_or ArithmeticOverflow in
  record_reserved kernel_start (Z.max kernel_end padded_end).

Definition reserve_device_tree (info : HardwareInfo) : M Pmm (Result unit InitError) :=
  if (dtb_phys info =? 0) || (dtb_size info =? 0) then ret (Ok tt)
  else
    let start := dtb_phys info in
    let? end_ :=
      match PhysicalAddress_checked_add start (dtb_size info) with
      | None => None
      | Some address => PhysicalAddress_align_up address
      end ok_or ArithmeticOverflow in
    record_reserved start end_.

Definition reserve_firmware_regions (info : HardwareInfo) : M Pmm (Result unit InitError) :=
  let! c := for_loop (reserved_regions info) tt (fun region _ =>
    if region_size region =? 0 then ret (Continue tt)
    else
      match MemoryRegion_end region with
      | None => ret (Return ArithmeticOverflow)
      | Some end_ =>
          let! r := record_reserved (region_base region) end_ in
          match r with
          | Ok _ => ret (Continue tt)
          | Err e => ret (Return e)
          end
      end) in
  match c with
  | Continue _ => ret (Ok tt)
  | Return e => ret (Err e)
  end.

(** ** The free list *)

Section Operations.
Context `{PageLayout}.

Definition arena_for (s : Pmm) (page : PageHandle) : option Arena :=
  match arenas s !! Z.to_nat (handle_arena_index page) with
  | None => None
  | Some arena => if contains_page arena page then Some arena else None
  end.

Definition arena_for_physical (s : Pmm) (physical : PhysicalAddress) : option Arena :=
  head (filter (fun arena => is_Some (physical_to_page arena physical))
          (take (Z.to_nat (arena_count s)) (arenas s))).

Definition push_free (handle : PageHandle) : M Pmm unit :=
  let! s := gets id in
  let! arena := expect "pmm: free page has arena" (arena_for s handle) in
  let! page := expect "pmm: free page has metadata" (page_slot arena handle) in
  update_page page (set_previous_free (free_tail s)) ;;;
  update_page page (set_next_free PageHandle_NONE) ;;;
  (if PageHandle_is_some (free_tail s) then
     let! tail_arena := expect "pmm: tail has arena" (arena_for s (free_tail s)) in
     let! tail := expect "pmm: tail has metadata" (page_slot tail_arena (free_tail s)) in
     update_page tail (set_next_free handle)
   else modify (set_free_head handle)) ;;;
  modify (set_free_tail handle).

Definition remove_free (handle : PageHandle) : M Pmm unit :=
  let! s := gets id in
  let! arena := expect "pmm: free page has arena" (arena_for s handle) in
  let! page := expect "pmm: free page has metadata" (page_slot arena handle) in
  let! p := load_page page in
  let previous := previous_free p in
  let next := next_free p in
  (if PageHandle_is_some previous then
     let! previous_arena := expect "pmm: previous has arena" (arena_for s previous) in
     let! slot := expect "pmm: previous has metadata" (page_slot previous_arena previous) in
     update_page slot (set_next_free next)
   else modify (set_free_head next)) ;;;
  (if PageHandle_is_some next then
     let! next_arena := expect "pmm: next has arena" (arena_for s next) in
     let! slot := expect "pmm: next has metadata" (page_slot next_arena next) in
     update_page slot (set_previous_free previous)
   else modify (set_free_tail previous)) ;;;
  update_page page (set_previous_free PageHandle_NONE) ;;;
  update_page page (set_next_free PageHandle_NONE).

Definition pop_free : M Pmm (option PageHandle) :=
  let! head := gets free_head in
  if negb (PageHandle_is_some head) then ret None
  else remove_free head ;;; ret (Some head).

(** ** Allocation *)

Definition alloc_page : M Pmm (option PageHandle) :=
  let! popped := pop_free in
  let? page := popped in
  let! s := gets id in
  let? arena := arena_for s page in
  let? slot := page_slot arena page in
  update_page slot (set_state Allocated) ;;;
  let! n := gets free_pages in
  let! n := sub_uint n 1 in
  modify (set_free_pages n) ;;;
  ret (Some page).

Definition free_page (page : PageHandle) : M Pmm unit :=
  let! s := gets id in
  let! arena := expect "pmm: address not in any managed arena" (arena_for s page) in
  let! slot := expect "called `Option::unwrap()` on a `None` value" (page_slot arena page) in
  let! p := load_page slot in
  match state p with
  | Free => panic "pmm: double-free detected"
  | Reserved => panic "pmm: cannot free reserved page"
  | Allocated =>
      update_page slot (set_state Free) ;;;
      update_page slot (set_contiguous_head false) ;;;
      push_free page ;;;
      let! n := gets free_pages in
      let! n := add_uint 64 n 1 in
      modify (set_free_pages n)
  end.

Record PageRun := {
  run_head : PageHandle;
  run_count : Z;
}.

Definition take_page (arena : Arena) (page_index : Z) (_ : unit) : M Pmm (ctl unit unit) :=
  let handle := PageHandle_new (storage_arena_index (pages arena)) (cast_uint 32 page_index) in
  remove_free handle ;;;
  match page_slot arena handle with
  | None => ret (Return tt)
  | Some slot => update_page slot (set_state Allocated) ;;; ret (Continue tt)
  end.

(** Taking the run: the [for page_index in start..start + count] loop of
    [alloc_contiguous] and what follows it. *)
Definition take_run (arena : Arena) (start count : Z) : M Pmm (option PageRun) :=
  let! stop := add_uint 64 start count in
  let! c := for_loop (range start stop) tt (take_page arena) in
  match c with
  | Return _ => ret None
  | Continue _ =>
      let head := PageHandle_new (storage_arena_index (pages arena)) (cast_uint 32 start) in
      let? slot := page_slot arena head in
      update_page slot (set_contiguous_head true) ;;;
      let! n := gets free_pages in
      let! n := sub_uint n count in
      modify (set_free_pages n) ;;;
      ret (Some {| run_head := head; run_count := count |})
  end.

(** One page of the scan of an arena; the loop-carried locals are [run_start]
    and [run_length]. *)
Definition scan_page (arena : Arena) (count alignment index : Z) (locals : option Z * Z) :
    M Pmm (ctl (option Z * Z) (option PageRun)) :=
  let '(run_start, run_length) := locals in
  let handle := PageHandle_new (storage_arena_index (pages arena)) (cast_uint 32 index) in
  match page_slot arena handle with
  | None => ret (Return None)
  | Some slot =>
      let! page := load_page slot in
      if negb (bool_decide (state page = Free)) then ret (Continue (None, 0))
      else
        let! step :=
          match run_start with
          | None =>
              match page_to_physical arena handle with
              | None => ret (Return None)
              | Some physical =>
                  if negb (Z.land physical (alignment - 1) =? 0)
                  then ret (Continue None)
                  else ret (Continue (Some (index, 1)))
              end
          | Some start =>
              let! run_length := add_uint 64 run_length 1 in
              ret (Continue (Some (start, run_length)))
          end in
        match step with
        | Return r => ret (Return r)
        | Continue None => ret (Continue (run_start, run_length))
        | Continue (Some (start, run_length)) =>
            if count <=? run_length then
              let! run := take_run arena start count in
              ret (Return run)
            else ret (Continue (Some start, run_length))
        end
  end.

Definition scan_arena (arena : Arena) (count alignment : Z) :
    M Pmm (ctl (option Z * Z) (option PageRun)) :=
  for_loop (range 0 (page_count arena)) (None, 0) (scan_page arena count alignment).

Definition alloc_contiguous (count alignment_log2 : Z) : M Pmm (option PageRun) :=
  if (count =? 0) || (64 <=? alignment_log2) then ret None
  else
    let alignment := Z.max (Z.shiftl 1 alignment_log2) PAGE_SIZE in
    let! n := gets arena_count in
    let! c := for_loop (range 0 n) tt (fun arena_index _ =>
      let! l := gets arenas in
      let! arena := array_get l arena_index in
      if page_count arena <? count then ret (Continue tt)
      else
        let! c := scan_arena arena count alignment in
        match c with
        | Continue _ => ret (Continue tt)
        | Return r => ret (Return r)
        end) in
    match c with
    | Continue _ => ret None
    | Return r => ret r
    end.

(** The check of one page of the run. *)
Definition check_run_page (arena : Arena) (head : PageHandle) (start index : Z) (_ : unit) :
    M Pmm (ctl unit FreeContiguousError) :=
  let handle := PageHandle_new (handle_arena_index head) (cast_uint 32 index) in
  match page_slot arena handle with
  | None => ret (Return AddressNotInArena)
  | Some slot =>
      let! page := load_page slot in
      if negb (bool_decide (state page = Allocated)) then ret (Return NotAllocated)
      else if negb (index =? start) && contiguous_head page
      then ret (Return InvalidPageState)
      else ret (Continue tt)
  end.

Definition free_contiguous (head : PageHandle) (count : Z) : M Pmm (Result unit FreeContiguousError) :=
  if count =? 0 then ret (Ok tt)
  else
    let! s := gets id in
    let? arena := arena_for s head ok_or AddressNotInArena in
    let? head_slot := page_slot arena head ok_or AddressNotInArena in
    let! head_page := load_page head_slot in
    if negb (contiguous_head head_page) then ret (Err NotContiguousHead)
    else
      let start := handle_page_index head in
      let? end_ := checked_add 64 start count ok_or AddressNotInArena in
      if page_count arena <? end_ then ret (Err AddressNotInArena)
      else
        let! c := for_loop (range start end_) tt (check_run_page arena head start) in
        match c with
        | Return e => ret (Err e)
        | Continue _ =>
            let! slot := expect "called `Option::unwrap()` on a `None` value" (page_slot arena head) in
            update_page slot (set_contiguous_head false) ;;;
            for_each (range start end_) (fun index =>
              free_page (PageHandle_new (handle_arena_index head) (cast_uint 32 index))) ;;;
            ret (Ok tt)
        end.

(** ** Initialisation *)

(** [physical_to_virtual] is the argument of that name. *)
Definition init_arena (region : MemoryRegion) (arena_index : Z)
    (physical_to_virtual : PhysicalAddress -> VirtualAddress) :
    M Pmm (Result (option Arena) InitError) :=
  let? aligned_base := PhysicalAddress_align_up (region_base region) ok_or ArithmeticOverflow in
  let? region_end := MemoryRegion_end region ok_or ArithmeticOverflow in
  if region_end <=? aligned_base then ret (Ok None)
  else
    let aligned_end := PhysicalAddress_align_down region_end in
    let! aligned_size := sub_uint aligned_end aligned_base in
    let total := aligned_size / PAGE_SIZE in
    if total =? 0 then ret (Ok None)
    else if u32_MAX <? total then ret (Err PageIndexTooLarge)
    else
      let? metadata_bytes := checked_mul 64 total size_of_Page ok_or ArithmeticOverflow in
      let metadata_pages := div_ceil metadata_bytes PAGE_SIZE in
      if total <=? metadata_pages then ret (Err MetadataTooLarge)
      else
        try! found := find_metadata_range aligned_base total metadata_pages in
        let? metadata_physical := found ok_or MetadataAddressUnavailable in
        let metadata_virtual := physical_to_virtual metadata_physical in
        if metadata_virtual =? 0 then ret (Err AddressNotMapped)
        else
          let storage := {| storage_ptr := metadata_virtual; storage_len := total;
                            storage_arena_index := arena_index |} in
          let! offset := sub_uint metadata_physical aligned_base in
          let metadata_page_start := offset / PAGE_SIZE in
          let! metadata_page_end := add_uint 64 metadata_page_start metadata_pages in
          for_each (range 0 (storage_len storage)) (fun index =>
            let st := if (metadata_page_start <=? index) && (index <? metadata_page_end)
                      then Reserved else Free in
            write_page (storage_ptr storage + index * size_of_Page) (Page_new arena_index st)) ;;;
          let! bytes := mul_uint 64 metadata_pages PAGE_SIZE in
          let? metadata_end := PhysicalAddress_checked_add metadata_physical bytes
            ok_or ArithmeticOverflow in
          try! _ := record_reserved metadata_physical metadata_end in
          let! usable := sub_uint total metadata_pages in
          let! n := gets total_pages in
          let? n := checked_add 64 n usable ok_or ArithmeticOverflow in
          modify (set_total_pages n) ;;;
          ret (Ok (Some {| arena_base := aligned_base; page_count := total; pages := storage |})).

(** The loops of [mark_reserved_ranges], from the innermost out. *)
Definition mark_page (arena : Arena) (index : Z) : M Pmm unit :=
  let handle := PageHandle_new (storage_arena_index (pages arena)) (cast_uint 32 index) in
  match page_slot arena handle with
  | None => ret tt
  | Some slot => update_page slot (set_state Reserved)
  end.

Definition mark_arena (r : ReservedRange) (arena_index : Z) : M Pmm unit :=
  let! l := gets arenas in
  let! arena := array_get l arena_index in
  let arena_start := arena_base arena in
  let! bytes := mul_uint 64 (page_count arena) PAGE_SIZE in
  match PhysicalAddress_checked_add (arena_base arena) bytes with
  | None => ret tt
  | Some arena_end =>
      if (range_end r <=? arena_start) || (arena_end <=? range_start r) then ret tt
      else
        let start := Z.max (range_start r) arena_start in
        let end_ := Z.min (range_end r) arena_end in
        let! start_offset := sub_uint start arena_start in
        let! end_offset := sub_uint end_ arena_start in
        let start_index := start_offset / PAGE_SIZE in
        let end_index := div_ceil end_offset PAGE_SIZE in
        for_each (range start_index (Z.min end_index (page_count arena))) (mark_page arena)
  end.

Definition mark_range (range_index : Z) : M Pmm unit :=
  let! ranges := gets reserved_ranges in
  let! r := array_get ranges range_index in
  let! n := gets arena_count in
  for_each (range 0 n) (mark_arena r).

Definition mark_reserved_ranges : M Pmm unit :=
  let! range_count := gets reserved_count in
  for_each (range 0 range_count) mark_range.

(** The loops of [build_free_list]. *)
Definition build_page (arena : Arena) (index : Z) : M Pmm unit :=
  let handle := PageHandle_new (storage_arena_index (pages arena)) (cast_uint 32 index) in
  match page_slot arena handle with
  | None => ret tt
  | Some slot =>
      let! page := load_page slot in
      if bool_decide (state page = Reserved) then ret tt
      else
        let! s := gets id in
        if is_reserved s (default PhysicalAddress_ZERO (page_to_physical arena handle))
        then update_page slot (set_state Reserved)
        else
          update_page slot (set_state Free) ;;;
          push_free handle ;;;
          let! n := gets free_pages in
          let! n := add_uint 64 n 1 in
          modify (set_free_pages n)
  end.

Definition build_arena (arena_index : Z) : M Pmm unit :=
  let! l := gets arenas in
  let! arena := array_get l arena_index in
  for_each (range 0 (page_count arena)) (build_page arena).

Definition build_free_list : M Pmm unit :=
  modify (set_free_head PageHandle_NONE) ;;;
  modify (set_free_tail PageHandle_NONE) ;;;
  modify (set_free_pages 0) ;;;
  let! n := gets arena_count in
  for_each (range 0 n) build_arena.

(** One iteration of the [for region in info.memory_regions()] loop:
    [Return None] is [break], [Return (Some e)] is [return Err(e)]. *)
Definition add_region (physical_to_virtual : PhysicalAddress -> VirtualAddress)
    (region : MemoryRegion) : M Pmm (ctl unit (option InitError)) :=
  let! count := gets arena_count in
  let! l := gets arenas in
  if Z.of_nat (length l) <=? count then ret (Return None)
  else
    let! r := init_arena region (cast_uint 8 count) physical_to_virtual in
    match r with
    | Err e => ret (Return (Some e))
    | Ok None => ret (Continue tt)
    | Ok (Some arena) =>
        let! count := gets arena_count in
        let! l := gets arenas in
        let! l := array_set l count arena in
        let! count := add_uint 64 count 1 in
        modify (set_arenas l count) ;;;
        ret (Continue tt)
    end.

Definition init_arenas (physical_to_virtual : PhysicalAddress -> VirtualAddress)
    (regions : list MemoryRegion) : M Pmm (ctl unit (option InitError)) :=
  for_loop regions tt (fun region _ => add_region physical_to_virtual region).

Definition init (info : HardwareInfo) (kernel_start kernel_end : PhysicalAddress)
    (physical_to_virtual : PhysicalAddress -> VirtualAddress) : M Pmm (Result unit InitError) :=
  reset ;;;
  if negb (dropped_reserved_regions info =? 0) then ret (Err DroppedReservedRegions)
  else
    match validate_memory_regions (memory_regions info) with
    | Err e => ret (Err e)
    | Ok _ =>
        try! _ := reserve_kernel kernel_start kernel_end in
        try! _ := reserve_device_tree info in
        try! _ := reserve_firmware_regions info in
        let! c := init_arenas physical_to_virtual (memory_regions info) in
        match c with
        | Return (Some e) => ret (Err e)
        | _ =>
            let! n := gets arena_count in
            if n =? 0 then ret (Err NoMemoryRegions)
            else
              mark_reserved_ranges ;;;
              build_free_list ;;;
              modify (set_initialized true) ;;;
              ret (Ok tt)
        end
    end.

(** ** The public interface

    These are the bodies of the public functions, which run under [PMM_LOCK];
    [Locking.v] has the functions with the lock. *)

Definition assert_initialized : M Pmm unit :=
  let! b := gets initialized in
  if (b : bool) then ret tt else panic "pmm: not initialized".

(** The body of [pmm::alloc_page], which is [locked_alloc_page] of [Locking.v]:
    the [AllocatedPage] is its handle. *)
Definition global_alloc_page : M Pmm (option PageHandle) :=
  assert_initialized ;;; alloc_page.

(** [free_page_handle], and dropping an [AllocatedPage]. *)
Definition free_page_handle (page : PageHandle) : M Pmm unit :=
  assert_initialized ;;; free_page page.

Definition global_alloc_contiguous (count alignment_log2 : Z) : M Pmm (option PageRun) :=
  assert_initialized ;;; alloc_contiguous count alignment_log2.

Definition free_contiguous_parts (head : PageHandle) (count : Z) : M Pmm (Result unit FreeContiguousError) :=
  assert_initialized ;;; free_contiguous head count.

Definition page_to_physical_handle (page : PageHandle) : M Pmm (option PhysicalAddress) :=
  assert_initialized ;;;
  let! s := gets id in
  let? arena := arena_for s page in
  ret (page_to_physical arena page).

Definition free_physical_page (physical : PhysicalAddress) : M Pmm unit :=
  assert_initialized ;;;
  let! s := gets id in
  let! handle := expect "pmm: physical page not managed by PMM"
    (match arena_for_physical s physical with
     | None => None
     | Some arena => physical_to_page arena physical
     end) in
  free_page handle.

Definition AllocatedPage_physical_address (page : PageHandle) : M Pmm (option PhysicalAddress) :=
  page_to_physical_handle page.
(** [AllocatedPage::leak_physical]: the page is not dropped. *)
Definition leak_physical (page : PageHandle) : M Pmm (option PhysicalAddress) :=
  AllocatedPage_physical_address page.

Definition PageRun_physical_address (run : PageRun) (index : Z) : M Pmm (option PhysicalAddress) :=
  if run_count run <=? index then ret None
  else
    let? index := try_from_uint 32 index in
    let? page_index := checked_add 32 (handle_page_index (run_head run)) index in
    page_to_physical_handle (PageHandle_new (handle_arena_index (run_head run)) page_index).

(** [Drop for PageRun]. *)
Definition PageRun_drop (run : PageRun) : M Pmm unit :=
  if run_count run =? 0 then ret tt
  else let! _ := free_contiguous_parts (run_head run) (run_count run) in ret tt.
End Operations.
