(* ===== verification/PmmReserved.v ===== *)
(** * Reserved ranges and the metadata search

    The manager keeps the physical ranges that must never be handed out in a
    fixed array, merging ranges that overlap or touch.  This file shows what
    [record_reserved] makes of the set of reserved addresses and that
    [find_metadata_range] finds the highest free span. *)

From S2P Require Import Prelude Address HwInfo Pmm.
From stdpp Require Import base tactics option list list_numbers numbers gmap strings.

#[local] Open Scope Z_scope.
#[local] Open Scope kernel_scope.

(** ** What the array of ranges means *)

Definition in_range (r : ReservedRange) (p : PhysicalAddress) : Prop :=
  range_start r <= p < range_end r.
Definition covered (l : list ReservedRange) (p : PhysicalAddress) : Prop :=
  exists r, r ∈ l /\ in_range r p.
(** Neither overlapping nor touching. *)
Definition separated (r1 r2 : ReservedRange) : Prop :=
  range_end r1 < range_start r2 \/ range_end r2 < range_start r1.
Definition range_wf (r : ReservedRange) : Prop :=
  0 <= range_start r /\ range_start r < range_end r /\ range_end r < 2 ^ 64.

Record ranges_wf (l : list ReservedRange) : Prop := {
  ranges_each : forall r, r ∈ l -> range_wf r;
  ranges_nodup : NoDup l;
  ranges_apart : forall r1 r2, r1 ∈ l -> r2 ∈ l -> r1 <> r2 -> separated r1 r2;
}.

(** The representation invariant of [reserved_ranges] and [reserved_count]. *)
Record reserved_inv (s : Pmm) : Prop := {
  reserved_len : length (reserved_ranges s) = Z.to_nat MAX_RESERVED_REGIONS;
  reserved_bound : 0 <= reserved_count s <= MAX_RESERVED_REGIONS;
  reserved_wf : ranges_wf (active_ranges s);
}.

Lemma is_reserved_spec s p : is_reserved s p = true <-> covered (active_ranges s) p.
Proof.
  unfold is_reserved. rewrite existsb_exists. unfold covered, in_range, ReservedRange_contains.
  split; intros (r & Hin & Hr); exists r.
  - apply list_elem_of_In in Hin. split; [done|]. lia.
  - split; [by apply list_elem_of_In|]. lia.
Qed.

Lemma ranges_wf_sublist l1 l2 : sublist l1 l2 -> ranges_wf l2 -> ranges_wf l1.
Proof.
  intros Hsub [Heach Hnd Hap].
  assert (forall r, r ∈ l1 -> r ∈ l2) as Hin by (intros; by eapply elem_of_sublist).
  split; [eauto| |eauto]. by eapply sublist_NoDup.
Qed.

Lemma elem_of_delete_or {A} (l : list A) i x y :
  l !! i = Some x -> y ∈ l <-> y = x \/ y ∈ delete i l.
Proof.
  intros Hi. pose proof (delete_Permutation l i x Hi) as Hp.
  rewrite <-elem_of_cons. by apply elem_of_Permutation_proper.
Qed.

Lemma length_filter_lt {A} (P Q : A -> Prop) `{!forall x, Decision (P x), !forall x, Decision (Q x)}
    (l : list A) y :
  (forall x, Q x -> P x) -> y ∈ l -> P y -> ~ Q y ->
  (length (filter Q l) < length (filter P l))%nat.
Proof.
  intros Himp Hy HP HQ.
  assert (forall l : list A, length (filter Q l) <= length (filter P l))%nat as Hle.
  { induction l0 as [|x l0 IH]; [done|]. rewrite !filter_cons.
    repeat case_decide; simpl; try lia. naive_solver. }
  induction Hy as [y l|y x l _ IH]; rewrite !filter_cons.
  - rewrite decide_False, decide_True by done. specialize (Hle l). simpl. lia.
  - specialize (IH HP HQ). repeat case_decide; simpl; try lia. naive_solver.
Qed.

(** ** Removing a range *)

Lemma remove_reserved_spec s i :
  length (reserved_ranges s) = Z.to_nat MAX_RESERVED_REGIONS ->
  0 <= i < reserved_count s -> reserved_count s <= MAX_RESERVED_REGIONS ->
  wp (remove_reserved i) (fun _ s' => exists l,
    s' = set_reserved l (reserved_count s - 1) s /\
    length l = Z.to_nat MAX_RESERVED_REGIONS /\
    active_ranges s' = delete (Z.to_nat i) (active_ranges s)) s.
Proof.
  intros Hlen Hi Hmax. unfold MAX_RESERVED_REGIONS in *.
  unfold remove_reserved. wp_steps. apply wp_sub_uint; [lia|].
  set (n := reserved_count s) in *.
  set (inv (c : Z) (s' : Pmm) := exists l, s' = set_reserved l n s /\ length l = 8%nat /\
    forall j, l !! j = if decide (i <= Z.of_nat j < c) then reserved_ranges s !! S j
                       else reserved_ranges s !! j).
  wp_steps. eapply wp_mono.
  - apply (wp_for_each (fun pre s' => inv (i + Z.of_nat (length pre)) s')).
    + exists (reserved_ranges s). split_and!; [by destruct s|lia|].
      intros j. rewrite decide_False; [done|]. simpl. lia.
    + intros pre x post s' Heq (l & -> & Hl & Hlook).
      apply range_split in Heq as [-> Hx].
      replace (i + Z.of_nat (length (range i x))) with x in * by (rewrite length_range; lia).
      wp_steps. apply wp_add_uint; [lia|]. wp_steps. unfold array_get.
      assert (exists r, l !! Z.to_nat (x + 1) = Some r) as [r Hr].
      { apply lookup_lt_is_Some_2. lia. }
      eapply wp_expect; [done|]. wp_steps. unfold array_set.
      rewrite (proj2 (Z.ltb_lt _ _)) by (simpl; lia). wp_steps.
      exists (<[Z.to_nat x := r]> l). split_and!; [done|by rewrite length_insert|].
      rewrite length_app, Nat2Z.inj_add, length_range. intros j.
      replace (i + (Z.max 0 (x - i) + Z.of_nat (length [x]))) with (x + 1) by (simpl; lia).
      rewrite list_lookup_insert. rewrite Hlook in Hr.
      destruct (decide (Z.to_nat x = j /\ (Z.to_nat x < length l)%nat)) as [[<- ?]|Hne].
      * rewrite decide_True by lia. rewrite decide_False in Hr by lia.
        rewrite <-Hr. f_equal. lia.
      * rewrite Hlook. destruct (decide (i <= Z.of_nat j < x)), (decide (i <= Z.of_nat j < x + 1)); try done; lia.
  - intros [] s' (l & -> & Hl & Hlook). wp_steps. unfold array_set.
    rewrite (proj2 (Z.ltb_lt _ _)) by (simpl; lia). wp_steps.
    exists (<[Z.to_nat (n - 1) := ReservedRange_EMPTY]> l).
    split_and!; [done|by rewrite length_insert|].
    unfold active_ranges; simpl. fold n. apply list_eq. intros j.
    rewrite length_range in Hlook.
    replace (i + Z.max 0 (n - 1 - i)) with (n - 1) in Hlook by lia.
    destruct (decide (j < Z.to_nat (n - 1))%nat) as [Hj|Hj].
    + rewrite lookup_take_lt, list_lookup_insert_ne, Hlook by lia.
      destruct (decide (j < Z.to_nat i)%nat).
      * rewrite list_lookup_delete_lt, lookup_take_lt, decide_False by lia. done.
      * rewrite list_lookup_delete_ge, lookup_take_lt, decide_True by lia. done.
    + rewrite lookup_take_ge by lia. symmetry. apply lookup_ge_None.
      rewrite length_delete; [rewrite length_take; lia|].
      apply lookup_lt_is_Some. rewrite length_take. lia.
Qed.

(** ** Recording a range *)

(** The merged range covers exactly what the two ranges cover. *)
Lemma merge_covers r e p :
  range_wf r -> range_wf e -> ~ separated r e ->
  in_range {| range_start := Z.min (range_start r) (range_start e);
              range_end := Z.max (range_end r) (range_end e) |} p
  <-> in_range r p \/ in_range e p.
Proof. unfold range_wf, separated, in_range; simpl. lia. Qed.

Lemma touch_spec r e :
  ranges_overlap_or_touch (range_start r) (range_end r) (range_start e) (range_end e) = false
  <-> separated r e.
Proof. unfold ranges_overlap_or_touch, separated. lia. Qed.

Lemma active_lookup s k :
  reserved_inv s -> (k < Z.to_nat (reserved_count s))%nat ->
  active_ranges s !! k = reserved_ranges s !! k.
Proof. intros _ Hk. unfold active_ranges. by rewrite lookup_take_lt. Qed.

Lemma length_active s : reserved_inv s -> length (active_ranges s) = Z.to_nat (reserved_count s).
Proof.
  intros [Hlen Hb _]. unfold active_ranges, MAX_RESERVED_REGIONS in *. rewrite length_take. lia.
Qed.

(** What [record_reserved_loop] leaves behind: a range [r'] apart from every
    active range, with the same addresses covered. *)
Definition recorded (s : Pmm) (r r' : ReservedRange) (s' : Pmm) : Prop :=
  exists l n,
    s' = set_reserved l n s /\ reserved_inv s' /\ range_wf r' /\ n <= reserved_count s /\
    (n = reserved_count s -> r' = r /\ s' = s) /\
    (forall e, e ∈ active_ranges s' -> separated r' e) /\
    (forall p, in_range r' p \/ covered (active_ranges s') p <->
               in_range r p \/ covered (active_ranges s) p).

Lemma record_reserved_loop_spec fuel : forall s index r,
  reserved_inv s -> range_wf r -> 0 <= index <= reserved_count s ->
  (Z.to_nat (reserved_count s) < fuel + Z.to_nat index)%nat ->
  (forall k e, (k < Z.to_nat index)%nat -> active_ranges s !! k = Some e -> separated r e) ->
  wp (record_reserved_loop fuel index r) (recorded s r) s.
Proof.
  induction fuel as [|fuel IH]; intros s index r Hinv Hr Hi Hfuel Hsep; [simpl in Hfuel; lia|].
  pose proof (length_active s Hinv) as Hlact.
  pose proof Hinv as [Hlen Hb Hwf]. unfold MAX_RESERVED_REGIONS in *.
  simpl. wp_steps. destruct (Z.ltb_spec index (reserved_count s)) as [Hlt|Hge].
  - wp_steps. unfold array_get.
    destruct (lookup_lt_is_Some_2 (active_ranges s) (Z.to_nat index)) as [e He]; [lia|].
    eapply wp_expect; [by rewrite <-active_lookup by (done || lia)|].
    assert (e ∈ active_ranges s) as Hein by (apply list_elem_of_lookup; eauto).
    pose proof (ranges_each _ Hwf e Hein) as Hewf. wp_steps.
    destruct (ranges_overlap_or_touch _ _ _ _) eqn:Htouch; simpl; wp_steps.
    + assert (~ separated r e) as Hns by (rewrite <-touch_spec; congruence).
      eapply wp_mono; [apply remove_reserved_spec; unfold MAX_RESERVED_REGIONS; lia|].
      intros [] s1 (l1 & -> & Hl1 & Hact).
      set (s1 := set_reserved l1 (reserved_count s - 1) s) in *.
      assert (reserved_inv s1) as Hinv1.
      { split; [done|unfold MAX_RESERVED_REGIONS; simpl; lia|].
        rewrite Hact. eapply ranges_wf_sublist; [apply sublist_delete|done]. }
      eapply wp_mono; [apply IH; [done|..]|].
      * unfold range_wf in *; simpl. lia.
      * simpl. lia.
      * simpl. lia.
      * intros k e' Hk He'. rewrite Hact, list_lookup_delete_lt in He' by done.
        assert (e' ∈ active_ranges s) as Hein' by (apply list_elem_of_lookup; eauto).
        pose proof (ranges_each _ Hwf e' Hein') as Hewf'.
        assert (separated e e') as Hee.
        { apply (ranges_apart _ Hwf); [done..|].
          intros ->. assert (k = Z.to_nat index); [|lia].
          eapply NoDup_lookup; [apply Hwf|done..]. }
        specialize (Hsep k e' Hk He').
        unfold separated, range_wf in *; simpl. lia.
      * intros r' s' (l & n & -> & Hinv' & Hwf' & Hn & _ & Hap & Hcov).
        exists l, n. split_and!; try done; [simpl in *; lia|simpl in *; lia|].
        intros p. rewrite Hcov, merge_covers, Hact by done.
        unfold covered. setoid_rewrite (elem_of_delete_or _ _ _ _ He). naive_solver.
    + apply touch_spec in Htouch. apply wp_add_uint; [lia|].
      apply IH; [done..|lia|lia|]. intros k e' Hk He'.
      destruct (decide (k = Z.to_nat index)) as [->|]; [naive_solver|].
      apply (Hsep k); [lia|done].
  - wp_steps. exists (reserved_ranges s), (reserved_count s).
    replace (set_reserved _ _ s) with s by (by destruct s).
    split_and!; try done. intros e [k He]%list_elem_of_lookup. apply (Hsep k); [|done].
    apply lookup_lt_Some in He. lia.
Qed.

(** Outside [reserved_ranges] and [reserved_count], nothing changes. *)
Definition same_but_reserved (s s' : Pmm) : Prop := exists l n, s' = set_reserved l n s.

Lemma ranges_wf_snoc l r :
  ranges_wf l -> range_wf r -> (forall e, e ∈ l -> separated r e) -> ranges_wf (l ++ [r]).
Proof.
  intros [Heach Hnd Hap] Hr Hsep.
  assert (r ∉ l) as Hnot.
  { intros Hin. specialize (Hsep r Hin). unfold separated, range_wf in *. lia. }
  split.
  - intros e [?| ->%list_elem_of_singleton]%elem_of_app; [auto|done].
  - apply NoDup_app. split_and!; [done| |apply NoDup_singleton].
    intros e He ->%list_elem_of_singleton. done.
  - intros r1 r2 [H1| ->%list_elem_of_singleton]%elem_of_app
      [H2| ->%list_elem_of_singleton]%elem_of_app Hne; [auto| |auto|done].
    specialize (Hsep r1 H1). unfold separated in *. lia.
Qed.

Lemma covered_snoc l r p : covered (l ++ [r]) p <-> in_range r p \/ covered l p.
Proof.
  unfold covered. setoid_rewrite elem_of_app. setoid_rewrite list_elem_of_singleton. naive_solver.
Qed.

Lemma record_reserved_spec s start end_ :
  reserved_inv s -> 0 <= start -> is_usize end_ ->
  wp (record_reserved start end_) (fun r s' =>
    same_but_reserved s s' /\ reserved_inv s' /\
    match r with
    | Ok _ => forall p, covered (active_ranges s') p <->
                        covered (active_ranges s) p \/ start <= p < end_
    | Err e => e = TooManyReservedRanges /\ s' = s /\
        start < end_ /\ reserved_count s = MAX_RESERVED_REGIONS /\
        forall e, e ∈ active_ranges s -> separated {| range_start := start; range_end := end_ |} e
    end) s.
Proof.
  intros Hinv Hs He. unfold record_reserved, ReservedRange_new.
  pose proof (reserved_bound _ Hinv) as Hb.
  destruct (Z.ltb_spec start end_) as [Hlt|Hge]; wp_steps.
  2: { split_and!; [|done|intros; split; [by left|]; intros [|]; [done|lia]].
       exists (reserved_ranges s), (reserved_count s). by destruct s. }
  eapply wp_mono; [apply record_reserved_loop_spec|].
  { done. } { unfold range_wf, is_uint in *; simpl; lia. } { lia. } { lia. } { lia. }
  intros r' s' (l & n & -> & Hinv' & Hr' & Hn & Hsame & Hap & Hcov).
  wp_steps. pose proof Hinv' as [Hlen' Hb' Hwf']. simpl in Hlen', Hb'.
  unfold MAX_RESERVED_REGIONS in *. simpl. rewrite Hlen'.
  destruct (Z.leb_spec (Z.of_nat (Z.to_nat 8)) n) as [Hfull|Hroom]; wp_steps.
  - assert (n = reserved_count s) as -> by lia. destruct (Hsame eq_refl) as [-> Heq].
    rewrite Heq in *. split_and!; [by exists l, (reserved_count s)|done..|lia|done].
  - unfold array_set. rewrite (proj2 (Z.ltb_lt _ _)) by lia. wp_steps.
    apply wp_add_uint; [lia|]. wp_steps.
    assert (active_ranges (set_reserved (<[Z.to_nat n := r']> l) (n + 1) (set_reserved l n s))
            = active_ranges (set_reserved l n s) ++ [r']) as Hact.
    { unfold active_ranges; simpl. replace (Z.to_nat (n + 1)) with (S (Z.to_nat n)) by lia.
      rewrite (take_S_r _ _ r') by (apply list_lookup_insert_eq; lia).
      by rewrite take_insert_ge by lia. }
    split_and!.
    + by eexists _, _.
    + split; [simpl; by rewrite length_insert|unfold MAX_RESERVED_REGIONS; simpl; lia|].
      rewrite Hact. by apply ranges_wf_snoc.
    + intros p. rewrite Hact, covered_snoc, Hcov. unfold in_range; simpl. tauto.
Qed.

(** ** The metadata search *)

(** One step of the fold in [max_by_start]. *)
Definition later_start (best : option ReservedRange) (r : ReservedRange) : option ReservedRange :=
  match best with
  | None => Some r
  | Some b => if range_start b <=? range_start r then Some r else Some b
  end.

Lemma max_by_start_elem l r : max_by_start l = Some r -> r ∈ l.
Proof.
  change (max_by_start l) with (foldl later_start None l).
  enough (forall acc, foldl later_start acc l = Some r -> r ∈ l \/ acc = Some r) as Hgen
    by (intros H; by destruct (Hgen None H)).
  induction l as [|x l IH]; intros acc; simpl; [by right|].
  intros [?|H]%IH; [left; by constructor|].
  unfold later_start in H. destruct acc as [b|].
  - destruct (_ <=? _); simplify_eq; [left; constructor|by right].
  - simplify_eq. left; constructor.
Qed.

Lemma later_start_Some l b : foldl later_start (Some b) l <> None.
Proof. revert b. induction l as [|y l IH]; intros b; simpl; [done|]. by destruct (_ <=? _). Qed.

Lemma max_by_start_None l : max_by_start l = None -> l = [].
Proof. destruct l as [|x l]; [done|]. intros H. by apply later_start_Some in H. Qed.

(** [candidate] is a place for [bytes] of metadata inside [base .. limit]. *)
Definition metadata_fits (l : list ReservedRange) (base limit bytes candidate : Z) : Prop :=
  candidate mod PAGE_SIZE = 0 /\ base <= candidate /\ candidate + bytes <= limit /\
  forall p, candidate <= p < candidate + bytes -> ~ covered l p.

Lemma overlapping_None s start end_ :
  overlapping_reserved_range s start end_ = None ->
  forall p, start <= p < end_ -> ~ covered (active_ranges s) p.
Proof.
  unfold overlapping_reserved_range. intros Hnone%max_by_start_None p Hp (r & Hin & Hr).
  assert (r ∈ filter (fun r => ranges_overlap start end_ (range_start r) (range_end r) = true)
            (active_ranges s)) as Hf; [|by rewrite Hnone in Hf; apply not_elem_of_nil in Hf].
  apply list_elem_of_filter. split; [|done]. unfold ranges_overlap, in_range in *. lia.
Qed.

Lemma overlapping_Some s start end_ r :
  overlapping_reserved_range s start end_ = Some r ->
  r ∈ active_ranges s /\ start < range_end r /\ range_start r < end_.
Proof.
  unfold overlapping_reserved_range. intros H%max_by_start_elem.
  apply list_elem_of_filter in H as [Hov Hin]. split; [done|]. unfold ranges_overlap in *. lia.
Qed.

Lemma find_metadata_loop_spec fuel : forall s base bytes candidate limit,
  reserved_inv s -> 0 <= base -> base mod PAGE_SIZE = 0 ->
  0 < bytes -> bytes mod PAGE_SIZE = 0 -> limit < 2 ^ 64 ->
  candidate mod PAGE_SIZE = 0 -> base <= candidate -> candidate + bytes <= limit ->
  (length (filter (fun r => (range_start r < candidate + bytes)%Z) (active_ranges s)) < fuel)%nat ->
  (forall c, metadata_fits (active_ranges s) base limit bytes c -> c <= candidate) ->
  wp (find_metadata_loop fuel (base + bytes) bytes candidate) (fun r s' => s' = s /\
    match r with
    | Ok (Some c) => metadata_fits (active_ranges s) base limit bytes c /\
        forall c', metadata_fits (active_ranges s) base limit bytes c' -> c' <= c
    | Ok None => forall c, ~ metadata_fits (active_ranges s) base limit bytes c
    | Err _ => False
    end) s.
Proof.
  induction fuel as [|fuel IH]; intros s base bytes c limit Hinv Hb Hba Hy Hya Hl Hca Hc Hcl Hfuel Hmax;
    [lia|]. simpl.
  unfold PhysicalAddress_checked_add.
  rewrite (proj2 (checked_add_Some 64 c bytes (c + bytes))) by lia. wp_steps.
  destruct (overlapping_reserved_range s c (c + bytes)) as [r|] eqn:Hov; wp_steps.
  2: { split; [done|]. split; [|done]. split_and!; try done. by apply overlapping_None. }
  apply overlapping_Some in Hov as (Hin & H1 & H2).
  pose proof (ranges_each _ (reserved_wf _ Hinv) r Hin) as (Hr0 & Hr1 & Hr2).
  destruct (align_down_bounds (range_start r)) as (Hd1 & Hd2 & Hd3); [unfold is_uint; lia|].
  set (new_end := PhysicalAddress_align_down (range_start r)) in *.
  assert (forall c', metadata_fits (active_ranges s) base limit bytes c' -> c' + bytes <= new_end) as Hbelow.
  { intros c' Hfit. specialize (Hmax c' Hfit). destruct Hfit as (Ha & Hbc & Hlim & Hfree).
    destruct (decide (c' + bytes <= new_end)) as [|Hgt]; [done|exfalso].
    assert (range_start r < c' + bytes) as Hlt.
    { unfold PAGE_SIZE in *. divlia. }
    apply (Hfree (Z.max c' (range_start r))); [lia|].
    exists r. split; [done|]. unfold in_range. lia. }
  destruct (Z.ltb_spec new_end (base + bytes)) as [Hlow|Hok]; wp_steps.
  - split; [done|]. intros c' Hfit. specialize (Hbelow c' Hfit). destruct Hfit; lia.
  - apply wp_sub_uint; [lia|]. apply IH; try done; try lia.
    + unfold PAGE_SIZE in *. divlia.
    + replace (new_end - bytes + bytes) with new_end by lia.
      assert (length (filter (fun r => (range_start r < new_end)%Z) (active_ranges s)) <
              length (filter (fun r => (range_start r < c + bytes)%Z) (active_ranges s)))%nat; [|lia].
      apply (length_filter_lt _ _ _ r); [intros; lia|done|lia|lia].
    + intros c' Hfit. specialize (Hbelow c' Hfit). lia.
Qed.

Lemma length_filter_active s P `{!forall r : ReservedRange, Decision (P r)} :
  reserved_inv s -> (length (filter P (active_ranges s)) <= Z.to_nat (reserved_count s))%nat.
Proof. intros Hinv. rewrite <-(length_active s Hinv). apply length_filter. Qed.

Lemma find_metadata_range_spec s base total metadata_pages :
  reserved_inv s -> is_usize base -> base mod PAGE_SIZE = 0 -> 0 <= total -> 0 <= metadata_pages ->
  wp (find_metadata_range base total metadata_pages) (fun r s' => s' = s /\
    match r with
    | Ok (Some c) => 0 < metadata_pages <= total /\ base + total * PAGE_SIZE < 2 ^ 64 /\
        metadata_fits (active_ranges s) base (base + total * PAGE_SIZE)
          (metadata_pages * PAGE_SIZE) c /\
        forall c', metadata_fits (active_ranges s) base (base + total * PAGE_SIZE)
          (metadata_pages * PAGE_SIZE) c' -> c' <= c
    | Ok None => metadata_pages = 0 \/ total < metadata_pages \/
        forall c, ~ metadata_fits (active_ranges s) base (base + total * PAGE_SIZE)
                    (metadata_pages * PAGE_SIZE) c
    | Err e => e = ArithmeticOverflow /\ 2 ^ 64 <= base + total * PAGE_SIZE
    end) s.
Proof.
  intros Hinv Hb Hba Ht Hm. unfold find_metadata_range, PhysicalAddress_checked_add.
  destruct (Z.eqb_spec metadata_pages 0); cbn [orb]; wp_steps; [by auto|].
  destruct (Z.ltb_spec total metadata_pages); cbn [orb]; wp_steps; [by auto|].
  unfold is_uint, PAGE_SIZE in *.
  destruct (checked_mul 64 metadata_pages 4096) eqn:H1;
    [apply checked_mul_Some in H1 as [-> ?]|apply checked_mul_None in H1; wp_steps; split_and!; [done..|lia]].
  destruct (checked_mul 64 total 4096) eqn:H2;
    [apply checked_mul_Some in H2 as [-> ?]|apply checked_mul_None in H2; wp_steps; split_and!; [done..|lia]].
  destruct (checked_add 64 base (total * 4096)) eqn:H3;
    [apply checked_add_Some in H3 as [-> ?]|apply checked_add_None in H3; wp_steps; split_and!; [done..|lia]].
  rewrite (proj2 (checked_add_Some 64 base (metadata_pages * 4096) _)) by (split; [done|lia]).
  wp_steps. apply wp_sub_uint; [lia|]. wp_steps.
  eapply wp_mono; [apply (find_metadata_loop_spec _ _ base _ _ (base + total * 4096)); try done; try lia|].
  - unfold PAGE_SIZE. divlia.
  - unfold PAGE_SIZE. divlia.
  - eapply Nat.le_lt_trans; [by apply length_filter_active|lia].
  - intros c (_ & _ & ? & _). lia.
  - intros [[c|]|e] s' [-> Hc]; (split; [done|]); [|by auto|done].
    destruct Hc. split_and!; try done; lia.
Qed.
