(* ===== verification/PmmFreeList.v ===== *)
(** * The free list of the physical page allocator

    The free pages form a doubly linked list threaded through the page
    metadata.  [pmm_inv s l] says that the manager [s] represents the queue [l]
    of free page handles; the single-page operations implement queue operations
    on [l], and none of their [expect]s can fire. *)

From S2P Require Import Prelude Address HwInfo Pmm.
From stdpp Require Import base tactics option list list_numbers numbers gmap strings.

#[local] Open Scope Z_scope.
#[local] Open Scope kernel_scope.

(** ** List segments

    [dseg g prev l next]: under the metadata [g], the handles [l] are linked in
    order in both directions, [prev] before the first and [next] after the
    last. *)

Definition hd_or (d : PageHandle) (l : list PageHandle) : PageHandle := default d (head l).
Definition last_or (d : PageHandle) (l : list PageHandle) : PageHandle := default d (last l).

Definition linked (g : PageHandle -> option Page) (h prev next : PageHandle) : Prop :=
  exists p, g h = Some p /\ previous_free p = prev /\ next_free p = next.

Fixpoint dseg (g : PageHandle -> option Page) (prev : PageHandle) (l : list PageHandle)
    (next : PageHandle) : Prop :=
  match l with
  | [] => True
  | h :: l' => linked g h prev (hd_or next l') /\ dseg g h l' next
  end.

Definition links_of (o : option Page) : option (PageHandle * PageHandle) :=
  (fun p => (previous_free p, next_free p)) <$> o.

Lemma linked_links g h prev next : linked g h prev next <-> links_of (g h) = Some (prev, next).
Proof.
  unfold linked, links_of. destruct (g h) as [p|]; simpl; [|naive_solver].
  split; [naive_solver|]. intros [= <- <-]. eauto.
Qed.

Lemma last_or_cons d h l : last_or d (h :: l) = last_or h l.
Proof. unfold last_or. rewrite last_cons. by destruct (last l). Qed.

Lemma last_or_snoc d l h : last_or d (l ++ [h]) = h.
Proof. unfold last_or. by rewrite last_snoc. Qed.

Lemma hd_or_app d l1 l2 : hd_or d (l1 ++ l2) = hd_or (hd_or d l2) l1.
Proof. by destruct l1. Qed.

Lemma dseg_app g prev l1 l2 next :
  dseg g prev (l1 ++ l2) next <->
  dseg g prev l1 (hd_or next l2) /\ dseg g (last_or prev l1) l2 next.
Proof.
  revert prev. induction l1 as [|h l1 IH]; intros prev; simpl; [unfold last_or; simpl; tauto|].
  rewrite IH, last_or_cons, hd_or_app. tauto.
Qed.

Lemma dseg_ext g g' prev l next :
  (forall h, h ∈ l -> links_of (g' h) = links_of (g h)) -> dseg g prev l next -> dseg g' prev l next.
Proof.
  revert prev. induction l as [|h l IH]; intros prev Hext; simpl; [done|].
  rewrite !linked_links, Hext by constructor.
  intros [? ?]. split; [done|]. apply IH; [|done]. intros; apply Hext; by constructor.
Qed.

(** Redirecting the last forward link and the first backward link. *)
Lemma dseg_set_next d g g' prev l next next' :
  NoDup l ->
  (forall h, h ∈ l -> links_of (g' h) =
     links_of (if decide (h = last_or d l) then set_next_free next' <$> g h else g h)) ->
  dseg g prev l next -> dseg g' prev l next'.
Proof.
  destruct l as [|t l _] using rev_ind; [done|]. rewrite last_or_snoc.
  intros Hnd Hg. apply NoDup_app in Hnd as (_ & Hnd & _). rewrite !dseg_app. simpl.
  rewrite !linked_links, (Hg t), decide_True by set_solver.
  intros (Hl & Hlink & _). split_and!; [|destruct (g t); unfold hd_or in *; simpl in *; congruence|done].
  eapply dseg_ext; [|exact Hl]. intros x Hx. rewrite Hg, decide_False by set_solver. done.
Qed.

Lemma dseg_set_prev d g g' prev prev' l next :
  NoDup l ->
  (forall h, h ∈ l -> links_of (g' h) =
     links_of (if decide (h = hd_or d l) then set_previous_free prev' <$> g h else g h)) ->
  dseg g prev l next -> dseg g' prev' l next.
Proof.
  destruct l as [|x l]; [done|]. intros [Hx Hnd]%NoDup_cons Hg. simpl.
  rewrite !linked_links, (Hg x), decide_True by set_solver.
  intros (Hlink & Hl). split; [destruct (g x); simpl in *; congruence|].
  eapply dseg_ext; [|exact Hl]. intros y Hy. rewrite Hg, decide_False; [done| |set_solver].
  unfold hd_or. simpl. set_solver.
Qed.

(** ** Arena layout *)

Section FreeList.
Context `{PageLayout}.
Implicit Types (s : Pmm) (h : PageHandle).

(** A handle of a page of some arena; the lower bounds are the [u8] and [u32]
    types of its fields. *)
Definition valid s h : Prop :=
  0 <= handle_arena_index h /\ 0 <= handle_page_index h /\ is_Some (arena_for s h).

Definition slot_of s h : option Z :=
  match arena_for s h with Some a => page_slot a h | None => None end.

(** The metadata of page [h]. *)
Definition page_at s h : option Page :=
  match slot_of s h with Some a => metadata s !! a | None => None end.

Definition state_at s h : option PageState := state <$> page_at s h.
Definition head_at s h : option bool := contiguous_head <$> page_at s h.

Record arena_wf (i : nat) (a : Arena) : Prop := {
  aw_index : storage_arena_index (pages a) = Z.of_nat i;
  aw_len : storage_len (pages a) = page_count a;
  aw_count : 0 < page_count a <= u32_MAX;
  aw_aligned : arena_base a mod PAGE_SIZE = 0;
  aw_base : 0 <= arena_base a;
  aw_end : arena_base a + page_count a * PAGE_SIZE < 2 ^ 64;
}.

(** Two arenas do not share a byte of physical memory. *)
Definition arenas_apart (a b : Arena) : Prop :=
  arena_base a + page_count a * PAGE_SIZE <= arena_base b \/
  arena_base b + page_count b * PAGE_SIZE <= arena_base a.

Record layout_wf s : Prop := {
  lw_len : length (arenas s) = Z.to_nat MAX_MEMORY_ARENAS;
  lw_count : 0 <= arena_count s <= MAX_MEMORY_ARENAS;
  lw_active : forall i a, arenas s !! i = Some a -> Z.of_nat i < arena_count s -> arena_wf i a;
  lw_inactive : forall i a, arenas s !! i = Some a -> arena_count s <= Z.of_nat i -> a = Arena_EMPTY;
  lw_apart : forall i j a b, arenas s !! i = Some a -> arenas s !! j = Some b -> i <> j ->
    Z.of_nat i < arena_count s -> Z.of_nat j < arena_count s -> arenas_apart a b;
  lw_slots : forall h, valid s h -> is_Some (page_at s h);
  lw_inj : forall h1 h2, valid s h1 -> valid s h2 -> slot_of s h1 = slot_of s h2 -> h1 = h2;
}.

Lemma valid_iff s h :
  layout_wf s ->
  valid s h <-> exists a, arenas s !! Z.to_nat (handle_arena_index h) = Some a /\
    0 <= handle_arena_index h < arena_count s /\ 0 <= handle_page_index h < page_count a /\
    arena_for s h = Some a.
Proof.
  intros Hwf. unfold valid. split.
  - intros (Ha & Hp & [a Hfor]). exists a. pose proof Hfor as Hfor'.
    unfold arena_for, contains_page in Hfor.
    destruct (arenas s !! _) as [a'|] eqn:Hlook; [|done].
    destruct (_ && _) eqn:Hc; simplify_eq.
    destruct (decide (Z.of_nat (Z.to_nat (handle_arena_index h)) < arena_count s)) as [Hlt|Hge].
    + split_and!; try done; lia.
    + apply (lw_inactive _ Hwf) in Hlook; [|lia]. subst a. simpl in Hc. lia.
  - intros (a & Hlook & ? & ? & Hfor). split_and!; [lia..|by eexists].
Qed.

Lemma arena_for_page s h a :
  layout_wf s -> 0 <= handle_arena_index h < arena_count s ->
  arenas s !! Z.to_nat (handle_arena_index h) = Some a ->
  handle_page_index h < page_count a -> arena_for s h = Some a.
Proof.
  intros Hwf Hi Hlook Hp. unfold arena_for, contains_page. rewrite Hlook.
  pose proof (aw_index _ _ (lw_active _ Hwf _ _ Hlook ltac:(lia))).
  destruct (_ && _) eqn:Hc; [done|]. lia.
Qed.

Lemma arena_for_slot s h a :
  arena_for s h = Some a ->
  page_slot a h = Some (storage_ptr (pages a) + handle_page_index h * size_of_Page).
Proof.
  unfold arena_for, page_slot. destruct (arenas s !! _) as [a'|]; [|done].
  destruct (contains_page a' h) eqn:Hc; [|done]. intros [= ->]. by rewrite Hc.
Qed.

Lemma valid_bounds s h :
  layout_wf s -> valid s h ->
  0 <= handle_arena_index h < MAX_MEMORY_ARENAS /\ 0 <= handle_page_index h < u32_MAX.
Proof.
  intros Hwf Hv. apply valid_iff in Hv as (a & Hlook & Hi & Hp & _); [|done].
  pose proof (lw_count _ Hwf). pose proof (aw_count _ _ (lw_active _ Hwf _ _ Hlook ltac:(lia))).
  lia.
Qed.

Lemma valid_is_some s h : layout_wf s -> valid s h -> PageHandle_is_some h = true.
Proof.
  intros Hwf Hv. destruct (valid_bounds s h Hwf Hv) as [_ Hp].
  unfold PageHandle_is_some, INVALID_PAGE_INDEX. destruct (Z.eqb_spec (handle_page_index h) u32_MAX); [lia|done].
Qed.

Lemma valid_not_none s h : layout_wf s -> valid s h -> h <> PageHandle_NONE.
Proof. intros Hwf Hv ->. by apply valid_is_some in Hv. Qed.

(** ** Edits of one page *)

(** [edit h f s]: the metadata of page [h] is rewritten by [f]. *)
Definition edit h (f : Page -> Page) s : Pmm :=
  match slot_of s h with
  | Some a => set_metadata (alter f a (metadata s)) s
  | None => s
  end.

(** A link of the list: a page, or [PageHandle::NONE]. *)
Definition is_link s h : Prop := valid s h \/ h = PageHandle_NONE.

(** Two managers over the same arenas. *)
Definition same_arenas s s' : Prop := arenas s' = arenas s /\ arena_count s' = arena_count s.

Lemma slot_of_none s : layout_wf s -> slot_of s PageHandle_NONE = None.
Proof.
  intros Hwf. unfold slot_of, arena_for. rewrite lookup_ge_None_2; [done|].
  rewrite (lw_len _ Hwf). vm_compute. lia.
Qed.

Lemma same_arenas_arena_for s s' h : same_arenas s s' -> arena_for s' h = arena_for s h.
Proof. intros [Ha _]. unfold arena_for. by rewrite Ha. Qed.
Lemma same_arenas_slot_of s s' h : same_arenas s s' -> slot_of s' h = slot_of s h.
Proof. intros. unfold slot_of. by erewrite same_arenas_arena_for. Qed.
Lemma same_arenas_valid s s' h : same_arenas s s' -> valid s' h <-> valid s h.
Proof. intros. unfold valid. by erewrite same_arenas_arena_for. Qed.

Lemma layout_wf_ext s s' :
  same_arenas s s' -> (forall h, valid s h -> is_Some (page_at s' h)) -> layout_wf s -> layout_wf s'.
Proof.
  intros Hsame Hpage Hwf. pose proof Hsame as [Ha Hc].
  split; rewrite ?Ha, ?Hc; try apply Hwf.
  - intros x Hx. apply Hpage. by eapply same_arenas_valid.
  - intros x y Hx Hy. rewrite !(same_arenas_slot_of s s') by done.
    apply (lw_inj _ Hwf); by eapply same_arenas_valid.
Qed.

Lemma edit_same h f s : same_arenas s (edit h f s).
Proof. unfold same_arenas, edit. by destruct (slot_of s h). Qed.
Lemma edit_none f s : layout_wf s -> edit PageHandle_NONE f s = s.
Proof. intros Hwf. unfold edit. by rewrite slot_of_none. Qed.

Lemma valid_slot s h :
  layout_wf s -> valid s h ->
  exists a slot, arena_for s h = Some a /\ page_slot a h = Some slot /\ slot_of s h = Some slot.
Proof.
  intros Hwf (_ & _ & [a Ha]). pose proof (arena_for_slot _ _ _ Ha) as Hs.
  exists a; eexists. split_and!; [done..|]. unfold slot_of. by rewrite Ha.
Qed.

Lemma page_at_edit h f s x :
  layout_wf s -> is_link s h -> valid s x ->
  page_at (edit h f s) x = if decide (x = h) then f <$> page_at s x else page_at s x.
Proof.
  intros Hwf [Hh| ->] Hx.
  - unfold page_at. rewrite (same_arenas_slot_of s (edit h f s)) by apply edit_same. unfold edit.
    destruct (valid_slot s h) as (? & b & _ & _ & Hb); [done..|].
    destruct (valid_slot s x) as (? & a & _ & _ & Ha); [done..|].
    rewrite Hb, Ha. simpl. case_decide as Heq.
    + subst x. replace a with b by congruence. by rewrite lookup_alter_eq.
    + rewrite lookup_alter_ne; [done|]. intros ->. apply Heq.
      apply (lw_inj _ Hwf); [done..|congruence].
  - rewrite edit_none by done. rewrite decide_False; [done|]. by apply (valid_not_none s).
Qed.

Lemma layout_wf_edit h f s : layout_wf s -> is_link s h -> layout_wf (edit h f s).
Proof.
  intros Hwf Hh. apply (layout_wf_ext s); [apply edit_same| |done].
  intros x Hx. rewrite page_at_edit by done.
  destruct (lw_slots _ Hwf x Hx) as [p Hp]. rewrite Hp. case_decide; simpl; eauto.
Qed.

(** [frame s s']: [s'] differs from [s] at most in the free-list links, the
    free count, the page states and the run heads. *)
Record frame s s' : Prop := {
  fr_same : same_arenas s s';
  fr_ranges : reserved_ranges s' = reserved_ranges s;
  fr_rcount : reserved_count s' = reserved_count s;
  fr_total : total_pages s' = total_pages s;
  fr_init : initialized s' = initialized s;
}.

#[global] Instance frame_preorder : PreOrder frame.
Proof.
  split; [by intros s|].
  intros s1 s2 s3 [[? ?] ? ? ? ?] [[? ?] ? ? ? ?]. split; try split; congruence.
Qed.

Lemma frame_edit h f s : frame s (edit h f s).
Proof. split; [apply edit_same|..]; unfold edit; by destruct (slot_of s h). Qed.

(** [links_only s s']: only links changed. *)
Record links_only s s' : Prop := {
  lo_frame : frame s s';
  lo_free : free_pages s' = free_pages s;
  lo_state : forall h, valid s h -> state_at s' h = state_at s h;
  lo_head : forall h, valid s h -> head_at s' h = head_at s h;
}.

#[global] Instance links_only_preorder : PreOrder links_only.
Proof.
  split; [by intros s|].
  intros s1 s2 s3 [H1 ? Hs1 Hh1] [H2 ? Hs2 Hh2]. split; [by etrans|congruence|..]; intros h Hv.
  - rewrite Hs2, Hs1; [done..|]. by eapply same_arenas_valid, Hv; apply H1.
  - rewrite Hh2, Hh1; [done..|]. by eapply same_arenas_valid, Hv; apply H1.
Qed.

Lemma links_only_edit h f s :
  layout_wf s -> is_link s h -> (forall p, state (f p) = state p) ->
  (forall p, contiguous_head (f p) = contiguous_head p) -> links_only s (edit h f s).
Proof.
  intros Hwf Hh Hst Hch. split; [apply frame_edit|unfold edit; by destruct (slot_of s h)|..];
    intros x Hx; unfold state_at, head_at; rewrite page_at_edit by done;
    case_decide; [|done| |done]; destruct (page_at s x); simpl; congruence.
Qed.

Lemma links_only_wf s s' : links_only s s' -> layout_wf s -> layout_wf s'.
Proof.
  intros [Hf _ Hst _] Hwf. apply (layout_wf_ext s); [apply Hf| |done].
  intros h Hv. specialize (Hst h Hv). destruct (lw_slots _ Hwf h Hv) as [p Hp].
  unfold state_at in Hst. rewrite Hp in Hst. destruct (page_at s' h); [by eexists|done].
Qed.

Lemma wp_update_page s h a f (Q : unit -> Pmm -> Prop) :
  layout_wf s -> valid s h -> slot_of s h = Some a -> Q tt (edit h f s) ->
  wp (update_page a f) Q s.
Proof.
  intros Hwf Hh Ha HQ. unfold update_page. wp_step.
  destruct (lw_slots _ Hwf h Hh) as [p Hp]. unfold page_at in Hp. rewrite Ha in Hp.
  eapply wp_run; [unfold load_page; by rewrite Hp|].
  unfold write_page. wp_steps. unfold edit in HQ. rewrite Ha in HQ.
  replace (<[a:=f p]> (metadata s)) with (alter f a (metadata s)); [done|].
  apply map_eq. intros i. destruct (decide (i = a)) as [->|Hne].
  - by rewrite lookup_alter_eq, lookup_insert_eq, Hp.
  - by rewrite lookup_alter_ne, lookup_insert_ne.
Qed.

Lemma wp_load_page s h a (Q : Page -> Pmm -> Prop) p :
  slot_of s h = Some a -> page_at s h = Some p -> Q p s -> wp (load_page a) Q s.
Proof.
  unfold page_at. intros -> Hp HQ. eapply wp_run; [unfold load_page; by rewrite Hp|done].
Qed.

(** ** Sequences of edits *)

Ltac solve_Forall := repeat (apply Forall_cons; split); try apply Forall_nil; auto.

Definition edits (es : list (PageHandle * (Page -> Page))) s : Pmm :=
  foldl (fun s '(h, f) => edit h f s) s es.
Ltac start_edits := lazymatch goal with |- wp ?m ?Q ?s => change (wp m Q (edits [] s)) end.

(** An edit that changes links only, of a page that [s] has or of no page. *)
Definition link_edit s (e : PageHandle * (Page -> Page)) : Prop :=
  is_link s e.1 /\ (forall p, state (e.2 p) = state p) /\
  (forall p, contiguous_head (e.2 p) = contiguous_head p).

Lemma link_edit_same s s' e : same_arenas s s' -> link_edit s e -> link_edit s' e.
Proof.
  intros Hsame [[Hv|Hn] Hf]; split; [left|done|by right|done]. by eapply same_arenas_valid.
Qed.

Lemma links_only_edits es s :
  layout_wf s -> Forall (link_edit s) es -> links_only s (edits es s).
Proof.
  revert s. induction es as [|[h f] es IH]; intros s Hwf Hes; [done|].
  apply Forall_cons in Hes as [(Hh & Hst & Hch) Hes]. simpl in *.
  assert (links_only s (edit h f s)) as Hlo by (by apply links_only_edit).
  etrans; [exact Hlo|]. apply IH; [by eapply links_only_wf|].
  eapply Forall_impl; [done|]. intros e. apply link_edit_same, Hlo.
Qed.

Lemma page_at_edits es s x :
  layout_wf s -> Forall (link_edit s) es -> valid s x ->
  page_at (edits es s) x =
  foldl (fun o '(h, f) => if decide (x = h) then f <$> o else o) (page_at s x) es.
Proof.
  revert s. induction es as [|[h f] es IH]; intros s Hwf Hes Hx; [done|].
  apply Forall_cons in Hes as [(Hh & Hst & Hch) Hes]. simpl in *.
  assert (links_only s (edit h f s)) as Hlo by (by apply links_only_edit).
  rewrite IH; [by rewrite page_at_edit|by eapply links_only_wf| |].
  - eapply Forall_impl; [done|]. intros e. apply link_edit_same, Hlo.
  - eapply same_arenas_valid; [apply Hlo|done].
Qed.

(** The ends of the list are not in the metadata. *)
Definition with_ends (hd tl : PageHandle) s : Pmm := set_free_head hd (set_free_tail tl s).

Lemma links_only_ends hd tl s : links_only s (with_ends hd tl s).
Proof. by split. Qed.

Lemma edit_ends hd tl h f s : edit h f (with_ends hd tl s) = with_ends hd tl (edit h f s).
Proof.
  unfold edit. change (slot_of (with_ends hd tl s) h) with (slot_of s h).
  by destruct (slot_of s h).
Qed.

Lemma wp_update_ends s hd tl es h a f (Q : unit -> Pmm -> Prop) :
  layout_wf s -> Forall (link_edit s) es -> valid s h -> slot_of s h = Some a ->
  Q tt (with_ends hd tl (edits (es ++ [(h, f)]) s)) ->
  wp (update_page a f) Q (with_ends hd tl (edits es s)).
Proof.
  intros Hwf Hes Hh Ha HQ. pose proof (links_only_edits es s Hwf Hes) as Hlo.
  eapply (wp_update_page _ h); [| | |].
  - eapply links_only_wf; [apply links_only_ends|]. by eapply links_only_wf.
  - eapply same_arenas_valid; [apply Hlo|done].
  - change (slot_of (edits es s) h = Some a). by rewrite (same_arenas_slot_of s) by apply Hlo.
  - rewrite edit_ends. by unfold edits in *; rewrite foldl_app in HQ.
Qed.

(** The access the list operations repeat: follow a link, or change an end of
    the list when it is [PageHandle::NONE]. *)
Lemma wp_relink s hd tl es x m1 m2 f g (Q : unit -> Pmm -> Prop) :
  layout_wf s -> Forall (link_edit s) es -> is_link s x ->
  Q tt ((if PageHandle_is_some x then id else g) (with_ends hd tl (edits (es ++ [(x, f)]) s))) ->
  wp (if PageHandle_is_some x then
        let! a := expect m1 (arena_for s x) in
        let! slot := expect m2 (page_slot a x) in
        update_page slot f
      else modify g) Q (with_ends hd tl (edits es s)).
Proof.
  intros Hwf Hes Hlink HQ. pose proof (links_only_edits es s Hwf Hes) as Hlo.
  assert (layout_wf (edits es s)) as Hwf' by (by eapply links_only_wf).
  destruct Hlink as [Hx| ->];
    [|unfold edits in HQ; rewrite foldl_app in HQ; simpl in HQ; by rewrite edit_none in HQ].
  rewrite (valid_is_some s) by done. rewrite (valid_is_some s) in HQ by done.
  destruct (valid_slot s x) as (a & slot & Ha & Hs & Hslot); [done..|].
  wp_step. eapply wp_expect; [done|]. wp_step. eapply wp_expect; [done|].
  by eapply wp_update_ends.
Qed.

(** ** The list *)

Record free_list s (l : list PageHandle) : Prop := {
  fl_head : free_head s = hd_or PageHandle_NONE l;
  fl_tail : free_tail s = last_or PageHandle_NONE l;
  fl_nodup : NoDup l;
  fl_valid : Forall (valid s) l;
  fl_dseg : dseg (page_at s) PageHandle_NONE l PageHandle_NONE;
}.

Lemma hd_or_link s l : Forall (valid s) l -> is_link s (hd_or PageHandle_NONE l).
Proof. destruct 1; [by right|by left]. Qed.
Lemma last_or_link s l : Forall (valid s) l -> is_link s (last_or PageHandle_NONE l).
Proof.
  intros Hl. destruct l as [|h l _] using rev_ind; [by right|].
  rewrite last_or_snoc. left. apply Forall_app in Hl as [_ Hl]. by apply Forall_cons in Hl as [? _].
Qed.

Lemma hd_or_is_some s x l :
  layout_wf s -> Forall (valid s) (x :: l) ->
  PageHandle_is_some (hd_or PageHandle_NONE (x :: l)) = true.
Proof. intros Hwf [? _]%Forall_cons. by apply (valid_is_some s). Qed.
Lemma last_or_is_some s x l :
  layout_wf s -> Forall (valid s) (x :: l) ->
  PageHandle_is_some (last_or PageHandle_NONE (x :: l)) = true.
Proof.
  intros Hwf Hval. unfold last_or. rewrite last_cons. apply Forall_cons in Hval as [Hx Hval].
  destruct (last l) as [y|] eqn:E; simpl; apply (valid_is_some s); try done.
  eapply Forall_forall; [done|]. by apply last_Some_elem_of.
Qed.
Lemma hd_or_other s x l :
  layout_wf s -> valid s x -> x ∉ l -> x <> hd_or PageHandle_NONE l.
Proof.
  intros Hwf Hv Hx. destruct l; [by apply (valid_not_none s)|]. unfold hd_or. simpl. set_solver.
Qed.
Lemma last_or_other s x l :
  layout_wf s -> valid s x -> x ∉ l -> x <> last_or PageHandle_NONE l.
Proof.
  intros Hwf Hv Hx. unfold last_or. destruct (last l) as [y|] eqn:E; simpl.
  - apply last_Some_elem_of in E. by intros ->.
  - by apply (valid_not_none s).
Qed.

Lemma edits_ends es s : edits es s = with_ends (free_head s) (free_tail s) (edits es s).
Proof.
  revert s. induction es as [|[h f] es IH]; intros s; [by destruct s|]. simpl.
  rewrite IH at 1. unfold edit. by destruct (slot_of s h).
Qed.

(** What a list operation leaves, given the edits it made. *)
Lemma free_list_edits s es hd tl l :
  layout_wf s -> Forall (link_edit s) es -> NoDup l -> Forall (valid s) l ->
  hd = hd_or PageHandle_NONE l -> tl = last_or PageHandle_NONE l ->
  dseg (fun x => foldl (fun o '(h, f) => if decide (x = h) then f <$> o else o) (page_at s x) es)
    PageHandle_NONE l PageHandle_NONE ->
  links_only s (with_ends hd tl (edits es s)) /\ free_list (with_ends hd tl (edits es s)) l.
Proof.
  intros Hwf Hes Hnd Hval -> -> Hseg. pose proof (links_only_edits es s Hwf Hes) as Hlo.
  split; [etrans; [exact Hlo|apply links_only_ends]|]. split; try done.
  - eapply Forall_impl; [done|]. intros x. by apply same_arenas_valid, Hlo.
  - eapply dseg_ext; [|exact Hseg]. intros x Hx.
    change (page_at (with_ends _ _ ?s') x) with (page_at s' x).
    rewrite page_at_edits; [done..|]. by eapply Forall_forall.
Qed.

Lemma push_free_spec s l h :
  layout_wf s -> free_list s l -> valid s h -> h ∉ l ->
  wp (push_free h) (fun _ s' => links_only s s' /\ free_list s' (l ++ [h])) s.
Proof.
  intros Hwf [Hhd Htl Hnd Hval Hseg] Hh Hin. unfold push_free. wp_steps.
  destruct (valid_slot s h) as (a & slot & Ha & Hs & Hslot); [done..|].
  eapply wp_expect; [done|]. wp_step. eapply wp_expect; [done|]. wp_step.
  simpl. assert (is_link s (free_tail s)) as Htail by (rewrite Htl; by apply last_or_link).
  assert (link_edit s (h, set_previous_free (free_tail s))) as E1 by (by split; [left|]).
  assert (link_edit s (h, set_next_free PageHandle_NONE)) as E2 by (by split; [left|]).
  assert (link_edit s (free_tail s, set_next_free h)) as E3 by done.
  start_edits. rewrite edits_ends.
  eapply wp_update_ends; [done|solve_Forall|done..|]. wp_step.
  eapply wp_update_ends; [done|solve_Forall|done..|]. wp_step.
  apply wp_relink; [done|solve_Forall|done|]. wp_step.
  set (es := _ ++ [_]).
  replace (set_free_tail h _) with (with_ends (hd_or PageHandle_NONE (l ++ [h])) h (edits es s)).
  2:{ rewrite Hhd, Htl, hd_or_app. destruct l as [|x l _] using rev_ind; [done|].
      rewrite last_or_snoc, (valid_is_some s); [|done|].
      - rewrite hd_or_app. by destruct l.
      - apply Forall_app in Hval as [_ Hval]. by apply Forall_cons in Hval as [? _]. }
  apply free_list_edits; [done|solve_Forall| | |done|by rewrite last_or_snoc|].
  - apply NoDup_app. split_and!; [done|set_solver|apply NoDup_singleton].
  - apply Forall_app. by rewrite Forall_singleton.
  - assert (h <> free_tail s) as Hne by (rewrite Htl; by apply (last_or_other s)).
    rewrite dseg_app. simpl. rewrite linked_links. split_and!; [|..|done].
    + eapply (dseg_set_next PageHandle_NONE); [done| |exact Hseg]. rewrite <-Htl.
      intros x Hx. simpl. by rewrite !(decide_False (P := x = h)) by (by intros ->).
    + rewrite !(decide_True (P := h = h)), decide_False by done. destruct (lw_slots _ Hwf h Hh) as [p ->].
      by rewrite <-Htl.
Qed.

Lemma remove_free_spec s l1 h l2 :
  layout_wf s -> free_list s (l1 ++ h :: l2) ->
  wp (remove_free h) (fun _ s' => links_only s s' /\ free_list s' (l1 ++ l2)) s.
Proof.
  intros Hwf [Hhd Htl Hnd Hval Hseg]. unfold remove_free. wp_steps.
  pose proof Hval as Hval'. apply Forall_app in Hval as [Hval1 [Hh Hval2]%Forall_cons].
  destruct (valid_slot s h) as (a & slot & Ha & Hs & Hslot); [done..|].
  eapply wp_expect; [done|]. wp_step. eapply wp_expect; [done|]. wp_step.
  apply dseg_app in Hseg as [Hseg1 [(p & Hp & Hprev & Hnext) Hseg2]].
  eapply wp_load_page; [done..|]. rewrite Hprev, Hnext. simpl.
  set (prev := last_or PageHandle_NONE l1) in *. set (next := hd_or PageHandle_NONE l2) in *.
  assert (is_link s prev) as Lp by (by apply last_or_link).
  assert (is_link s next) as Ln by (by apply hd_or_link).
  assert (link_edit s (prev, set_next_free next)) as E1 by done.
  assert (link_edit s (next, set_previous_free prev)) as E2 by done.
  assert (forall f, (forall p, state (f p) = state p) ->
    (forall p, contiguous_head (f p) = contiguous_head p) -> link_edit s (h, f)) as E3
    by (intros; split; [by left|done]).
  wp_step. start_edits. rewrite edits_ends. apply wp_relink; [done|solve_Forall|done|].
  set (hd' := if PageHandle_is_some prev then free_head s else next).
  replace (_ (with_ends _ _ _)) with
    (with_ends hd' (free_tail s) (edits ([] ++ [(prev, set_next_free next)]) s))
    by (unfold hd'; by destruct (PageHandle_is_some prev)).
  wp_step. apply wp_relink; [done|solve_Forall|done|].
  set (tl' := if PageHandle_is_some next then free_tail s else prev).
  set (es := ([] ++ _) ++ [_]).
  replace (_ (with_ends _ _ _)) with (with_ends hd' tl' (edits es s))
    by (unfold tl'; by destruct (PageHandle_is_some next)).
  wp_step. eapply wp_update_ends; [done|solve_Forall|done..|].
  eapply wp_update_ends; [done|solve_Forall|done..|].
  apply NoDup_app in Hnd as (Hnd1 & Hnd12 & [Hnh Hnd2]%NoDup_cons).
  apply free_list_edits; [done|solve_Forall| | | | |].
  - apply NoDup_app. split_and!; [done| |done]. set_solver.
  - by apply Forall_app.
  - unfold hd'. rewrite Hhd, hd_or_app. destruct l1 as [|x l1]; [done|].
    unfold prev. by rewrite (last_or_is_some s) by done.
  - unfold tl'. rewrite Htl. unfold last_or at 1 2. rewrite !last_app, last_cons.
    destruct l2 as [|x l2]; [done|].
    unfold next. rewrite (hd_or_is_some s), last_cons by done. by destruct (last l2).
  - rewrite dseg_app. simpl. split.
    + eapply (dseg_set_next PageHandle_NONE); [done| |exact Hseg1]. fold prev next. intros x Hx.
      assert (x <> h) by set_solver.
      assert (x <> next) by (apply (hd_or_other s); [done|by apply (Forall_elem _ l1)|set_solver]).
      by rewrite !(decide_False (P := x = h)), (decide_False (P := x = next)).
    + eapply (dseg_set_prev PageHandle_NONE); [done| |exact Hseg2]. fold prev next. intros x Hx.
      assert (x <> h) by set_solver.
      assert (x <> prev) by (apply (last_or_other s); [done|by apply (Forall_elem _ l2)|set_solver]).
      by rewrite !(decide_False (P := x = h)), (decide_False (P := x = prev)).
Qed.

(** ** The invariant *)

(** The page metadata of [s] represents the queue [l] of free pages. *)
Record pmm_core s (l : list PageHandle) : Prop := {
  pi_layout : layout_wf s;
  pi_list : free_list s l;
  pi_free : forall h, valid s h -> h ∈ l <-> state_at s h = Some Free;
  pi_heads : forall h, valid s h -> head_at s h = Some true -> state_at s h = Some Allocated;
}.

(** The manager [s] represents the queue [l]. *)
Record pmm_inv s (l : list PageHandle) : Prop := {
  pi_core : pmm_core s l;
  pi_count : free_pages s = Z.of_nat (length l);
}.

(** From [s] to [s'], exactly the pages [hs] changed state, to [st]. *)
Definition restated s s' (hs : list PageHandle) (st : PageState) : Prop :=
  forall x, valid s x -> state_at s' x = if decide (x ∈ hs) then Some st else state_at s x.

(** From [s] to [s'], exactly the pages [hs] changed their run-head mark. *)
Definition remarked s s' (hs : list PageHandle) (b : bool) : Prop :=
  forall x, valid s x -> head_at s' x = if decide (x ∈ hs) then Some b else head_at s x.

(** An edit of the state or the run head leaves the list alone. *)
Lemma free_list_edit s h f l :
  layout_wf s -> valid s h -> (forall p, previous_free (f p) = previous_free p) ->
  (forall p, next_free (f p) = next_free p) -> free_list s l -> free_list (edit h f s) l.
Proof.
  intros Hwf Hh Hprev Hnext [Hhd Htl Hnd Hval Hseg]. split; try done.
  - rewrite <-Hhd. unfold edit. by destruct (slot_of s h).
  - rewrite <-Htl. unfold edit. by destruct (slot_of s h).
  - eapply Forall_impl; [done|]. intros x. apply same_arenas_valid, edit_same.
  - eapply dseg_ext; [|done]. intros x Hx.
    rewrite page_at_edit; [|done|by left|by eapply Forall_elem].
    case_decide; [|done]. destruct (page_at s x); simpl; congruence.
Qed.

Lemma state_at_edit s h st x :
  layout_wf s -> valid s h -> valid s x ->
  state_at (edit h (set_state st) s) x = if decide (x = h) then Some st else state_at s x.
Proof.
  intros Hwf Hh Hx. unfold state_at. rewrite page_at_edit; [|done|by left|done].
  destruct (lw_slots _ Hwf x Hx) as [p ->]. by case_decide.
Qed.

Lemma head_at_edit s h f x :
  layout_wf s -> valid s h -> valid s x -> (forall p, contiguous_head (f p) = contiguous_head p) ->
  head_at (edit h f s) x = head_at s x.
Proof.
  intros Hwf Hh Hx Hf. unfold head_at. rewrite page_at_edit; [|done|by left|done].
  case_decide; [|done]. destruct (page_at s x); simpl; congruence.
Qed.

Lemma state_at_edit_head s h b x :
  layout_wf s -> valid s h -> valid s x ->
  state_at (edit h (set_contiguous_head b) s) x = state_at s x.
Proof.
  intros Hwf Hh Hx. unfold state_at. rewrite page_at_edit; [|done|by left|done].
  case_decide; [|done]. by destruct (page_at s x).
Qed.

Lemma head_at_edit_head s h b x :
  layout_wf s -> valid s h -> valid s x ->
  head_at (edit h (set_contiguous_head b) s) x = if decide (x = h) then Some b else head_at s x.
Proof.
  intros Hwf Hh Hx. unfold head_at. rewrite page_at_edit; [|done|by left|done].
  destruct (lw_slots _ Hwf x Hx) as [p ->]. by case_decide.
Qed.

(** The free count fits its [usize]: there are at most [4 * 2^32] pages. *)
Lemma valid_list_length s l :
  layout_wf s -> NoDup l -> Forall (valid s) l -> Z.of_nat (length l) <= 2 ^ 34.
Proof.
  intros Hwf Hnd Hval. set (f h := handle_arena_index h * 2 ^ 32 + handle_page_index h).
  assert (forall h, h ∈ l -> 0 <= handle_arena_index h < 4 /\ 0 <= handle_page_index h < 2 ^ 32) as Hb.
  { intros h Hh. destruct (valid_bounds s h) as [? Hp]; [done|by eapply Forall_elem|].
    unfold MAX_MEMORY_ARENAS, u32_MAX in *. lia. }
  assert (NoDup (f <$> l)) as Hnd'.
  { apply NoDup_fmap_2_strong; [|done]. intros [a1 p1] [a2 p2] H1%Hb H2%Hb Hf.
    unfold f in Hf. simpl in *. f_equal; lia. }
  assert (f <$> l ⊆+ range 0 (2 ^ 34)) as Hsub.
  { apply NoDup_submseteq; [done|]. intros x (h & -> & Hh)%list_elem_of_fmap.
    apply elem_of_range. apply Hb in Hh. unfold f. lia. }
  apply submseteq_length in Hsub. rewrite length_fmap in Hsub.
  pose proof (length_range 0 (2 ^ 34)). lia.
Qed.

(** Taking a page off the queue, and putting one back. *)
Lemma core_take s s1 l1 h l2 :
  pmm_core s (l1 ++ h :: l2) -> links_only s s1 -> free_list s1 (l1 ++ l2) ->
  let s' := edit h (set_state Allocated) s1 in
  pmm_core s' (l1 ++ l2) /\ frame s s' /\ restated s s' [h] Allocated /\ remarked s s' [] true /\
  free_pages s' = free_pages s.
Proof.
  intros [Hwf Hl Hfree Hheads] Hlo Hl1 s'.
  assert (layout_wf s1) as Hwf1 by (by eapply links_only_wf).
  assert (forall x, valid s1 x <-> valid s x) as V1 by (intros; apply same_arenas_valid, Hlo).
  assert (forall x, valid s' x <-> valid s1 x) as V' by (intros; apply same_arenas_valid, edit_same).
  assert (valid s h) as Hh by (eapply Forall_elem; [apply Hl|set_solver]).
  assert (restated s s' [h] Allocated) as Hre.
  { intros x Hx. unfold s'. rewrite state_at_edit, (lo_state _ _ Hlo); [|done|done|by apply V1..].
    destruct (decide (x = h)), (decide (x ∈ [h])); set_solver. }
  assert (remarked s s' [] true) as Hma.
  { intros x Hx. unfold s'. rewrite head_at_edit, (lo_head _ _ Hlo); try done; by apply V1. }
  split_and!; [|etrans; [apply Hlo|apply frame_edit]|done..|].
  2:{ rewrite <-(lo_free _ _ Hlo). unfold s', edit. by destruct (slot_of s1 h). }
  pose proof (fl_nodup _ _ Hl) as (Hnd1 & Hnd12 & [Hnh Hnd2]%NoDup_cons)%NoDup_app.
  split.
  - apply layout_wf_edit; [done|left; by apply V1].
  - apply free_list_edit; [done|by apply V1|done..].
  - intros x Hx. rewrite V', V1 in Hx. rewrite (Hre x Hx). specialize (Hfree x Hx).
    case_decide; [|set_solver]. split; [set_solver|done].
  - intros x Hx. rewrite V', V1 in Hx. rewrite (Hre x Hx), (Hma x Hx). simpl.
    case_decide; [done|by apply Hheads].
Qed.

Lemma core_give s s1 l h :
  pmm_core s l -> valid s h -> h ∉ l ->
  links_only (edit h (set_contiguous_head false) (edit h (set_state Free) s)) s1 ->
  free_list s1 (l ++ [h]) ->
  pmm_core s1 (l ++ [h]) /\ frame s s1 /\ restated s s1 [h] Free /\ remarked s s1 [h] false /\
  free_pages s1 = free_pages s.
Proof.
  intros [Hwf Hl Hfree Hheads] Hh Hnl Hlo Hl1. set (sa := edit h (set_state Free) s) in *.
  set (sb := edit h (set_contiguous_head false) sa) in *.
  assert (layout_wf sa) as Hwfa by (apply layout_wf_edit; [done|by left]).
  assert (forall x, valid sa x <-> valid s x) as Va by (intros; apply same_arenas_valid, edit_same).
  assert (layout_wf sb) as Hwfb by (apply layout_wf_edit; [done|left; by apply Va]).
  assert (forall x, valid sb x <-> valid s x) as Vb
    by (intros; etrans; [apply same_arenas_valid, edit_same|apply Va]).
  assert (frame s s1) as Hfr.
  { etrans; [|apply Hlo]. etrans; [apply frame_edit|apply frame_edit]. }
  assert (forall x, valid s1 x <-> valid s x) as V1 by (intros; apply same_arenas_valid, Hfr).
  assert (restated s s1 [h] Free) as Hre.
  { intros x Hx. rewrite (lo_state _ _ Hlo) by (by apply Vb). unfold sb.
    rewrite state_at_edit_head by (done || by apply Va). unfold sa. rewrite state_at_edit by done.
    destruct (decide (x = h)), (decide (x ∈ [h])); set_solver. }
  assert (remarked s s1 [h] false) as Hma.
  { intros x Hx. rewrite (lo_head _ _ Hlo) by (by apply Vb). unfold sb.
    rewrite head_at_edit_head by (done || by apply Va). unfold sa. rewrite head_at_edit by done.
    destruct (decide (x = h)), (decide (x ∈ [h])); set_solver. }
  split_and!; [|done..|].
  2:{ rewrite (lo_free _ _ Hlo). unfold sb, sa, edit. by repeat case_match. }
  split; [by eapply links_only_wf|done|..]; intros x Hx%V1.
  - rewrite (Hre x Hx). specialize (Hfree x Hx). case_decide; set_solver.
  - rewrite (Hre x Hx), (Hma x Hx). case_decide; [done|by apply Hheads].
Qed.
End FreeList.
