(* ===== verification/PmmAlloc.v ===== *)
(** * Allocation and release of pages

    Over a manager that represents a queue of free pages ([pmm_inv]):
    [alloc_page] takes the first page of the queue and [free_page] appends one;
    [alloc_contiguous] takes the first run that fits, in arena and page order,
    and [free_contiguous] gives a run back. *)

From S2P Require Import Prelude Address HwInfo Pmm PmmFreeList.
From stdpp Require Import base tactics option list list_numbers numbers gmap strings.

#[local] Open Scope Z_scope.
#[local] Open Scope kernel_scope.

Lemma head_filter_unique {A} (P : A -> Prop) `{!forall x, Decision (P x)} (l : list A) a :
  a ∈ l -> P a -> (forall b, b ∈ l -> P b -> b = a) -> head (filter P l) = Some a.
Proof.
  intros Ha HP Huniq. destruct (filter P l) as [|b l'] eqn:Heq; simpl.
  - assert (a ∈ filter P l) as Hin by (by apply list_elem_of_filter). rewrite Heq in Hin. set_solver.
  - f_equal. assert (b ∈ filter P l) as Hin by (rewrite Heq; set_solver).
    apply list_elem_of_filter in Hin as [? ?]. by apply Huniq.
Qed.

Section Alloc.
Context `{PageLayout}.
Implicit Types (s : Pmm) (h : PageHandle) (l : list PageHandle).

(** Setting the free count restores the invariant. *)
Lemma core_count s l n :
  pmm_core s l -> n = Z.of_nat (length l) -> pmm_inv (set_free_pages n s) l.
Proof. intros [[] [] Hf Hh] ->. split; [split; [by split|by split|done..]|done]. Qed.

Lemma frame_count s n : frame s (set_free_pages n s).
Proof. by split. Qed.

(** ** One page *)

Lemma alloc_page_empty s : pmm_inv s [] -> alloc_page s = Done (None, s).
Proof.
  intros [[_ [Hhd _ _ _ _] _ _] _]. unfold alloc_page, pop_free, bind, gets, ret. by rewrite Hhd.
Qed.

Lemma alloc_page_cons s h l :
  pmm_inv s (h :: l) ->
  wp alloc_page (fun r s' => r = Some h /\ pmm_inv s' l /\ frame s s' /\
    restated s s' [h] Allocated /\ remarked s s' [] true) s.
Proof.
  intros [Hcore Hcount]. pose proof Hcore as [Hwf Hl Hfree Hheads].
  pose proof (fl_valid _ _ Hl) as [Hh Hval]%Forall_cons.
  unfold alloc_page, pop_free. wp_steps. rewrite (fl_head _ _ Hl). unfold hd_or. simpl.
  rewrite (valid_is_some s) by done. simpl. wp_step.
  eapply wp_mono; [by apply (remove_free_spec s [] h l)|]. intros [] s1 [Hlo Hl1]. wp_steps.
  destruct (valid_slot s h) as (a & slot & Ha & Hs & Hslot); [done..|].
  rewrite (same_arenas_arena_for s), Ha by apply Hlo. rewrite Hs. wp_step.
  destruct (core_take s s1 [] h l) as (Hc' & Hf' & Hre & Hma & Hn); [done..|].
  eapply wp_update_page; [by eapply links_only_wf|by eapply same_arenas_valid; [apply Hlo|]| |].
  { by rewrite (same_arenas_slot_of s) by apply Hlo. }
  wp_steps. rewrite Hn, Hcount. simpl length.
  apply wp_sub_uint; [lia|]. wp_steps. split_and!; [done| |by etrans; [|apply frame_count]|done..].
  apply core_count; [done|lia].
Qed.

Lemma free_page_spec s l h :
  pmm_inv s l -> valid s h -> state_at s h = Some Allocated ->
  wp (free_page h) (fun _ s' => pmm_inv s' (l ++ [h]) /\ frame s s' /\
    restated s s' [h] Free /\ remarked s s' [h] false) s.
Proof.
  intros [Hcore Hcount] Hh Hst. pose proof Hcore as [Hwf Hl Hfree Hheads].
  assert (h ∉ l) as Hnl by (intros ?%Hfree; [congruence|done]).
  unfold free_page. wp_steps. destruct (valid_slot s h) as (a & slot & Ha & Hs & Hslot); [done..|].
  eapply wp_expect; [done|]. wp_step. eapply wp_expect; [done|]. wp_step.
  destruct (lw_slots _ Hwf h Hh) as [p Hp]. eapply wp_load_page; [done..|].
  unfold state_at in Hst. rewrite Hp in Hst. injection Hst as ->. wp_step.
  eapply wp_update_page; [done..|]. set (sa := edit h (set_state Free) s). wp_step.
  assert (layout_wf sa) as Hwfa by (apply layout_wf_edit; [done|by left]).
  assert (forall x, valid sa x <-> valid s x) as Va by (intros; apply same_arenas_valid, edit_same).
  eapply wp_update_page; [done|by apply Va|by rewrite (same_arenas_slot_of s) by apply edit_same|].
  set (sb := edit h (set_contiguous_head false) sa). wp_step.
  assert (layout_wf sb) as Hwfb by (apply layout_wf_edit; [done|left; by apply Va]).
  eapply wp_mono.
  { apply (push_free_spec sb l); [done| |by eapply same_arenas_valid; [apply edit_same|apply Va]|done].
    apply free_list_edit; [done|by apply Va|done..|]. by apply free_list_edit. }
  intros [] s1 [Hlo Hl1]. wp_steps.
  destruct (core_give s s1 l h) as (Hc' & Hf' & Hre & Hma & Hn); [done..|].
  pose proof (valid_list_length s l Hwf (fl_nodup _ _ Hl) (fl_valid _ _ Hl)).
  apply wp_add_uint; [lia|]. wp_steps. split_and!; [|by etrans; [|apply frame_count]|done..].
  apply core_count; [done|]. rewrite length_app. simpl. lia.
Qed.

(** The three ways [free_page] panics. *)
Lemma free_page_unmanaged s h :
  arena_for s h = None -> free_page h s = Panic "pmm: address not in any managed arena".
Proof. intros Ha. unfold free_page, bind, gets, expect, panic. simpl. by rewrite Ha. Qed.

Lemma free_page_state s l h msg :
  pmm_inv s l -> valid s h ->
  state_at s h = Some Free /\ msg = "pmm: double-free detected" \/
  state_at s h = Some Reserved /\ msg = "pmm: cannot free reserved page" ->
  free_page h s = Panic msg.
Proof.
  intros [[Hwf _ _ _] _] Hh Hst. destruct (valid_slot s h) as (a & slot & Ha & Hs & Hslot); [done..|].
  destruct (lw_slots _ Hwf h Hh) as [p Hp]. unfold state_at in Hst. rewrite Hp in Hst. simpl in Hst.
  unfold page_at in Hp. rewrite Hslot in Hp.
  unfold free_page, bind, gets, expect, panic, ret, load_page. simpl. rewrite Ha, Hs, Hp.
  destruct Hst as [[Hst ->]|[Hst ->]]; injection Hst as ->; done.
Qed.

(** ** Runs of pages *)

Definition handles (i a b : Z) : list PageHandle := PageHandle_new i <$> range a b.

Lemma elem_of_handles i a b h :
  h ∈ handles i a b <-> handle_arena_index h = i /\ a <= handle_page_index h < b.
Proof.
  unfold handles. rewrite list_elem_of_fmap. split.
  - intros (p & -> & ?%elem_of_range). done.
  - intros [<- ?]. exists (handle_page_index h). split; [by destruct h|by apply elem_of_range].
Qed.

Lemma NoDup_handles i a b : NoDup (handles i a b).
Proof. apply NoDup_fmap_2; [|apply NoDup_range]. by intros ?? [=]. Qed.

Lemma length_handles i a b : Z.of_nat (length (handles i a b)) = Z.max 0 (b - a).
Proof. unfold handles. rewrite length_fmap. apply length_range. Qed.

(** The queue without the pages [hs]. *)
Definition without (hs l : list PageHandle) : list PageHandle := filter (fun h => h ∉ hs) l.

Lemma without_nil l : without [] l = l.
Proof.
  unfold without. induction l as [|x l IH]; [done|].
  rewrite filter_cons, decide_True by set_solver. by rewrite IH.
Qed.

Lemma without_middle hs l1 h l2 l :
  NoDup l -> without hs l = l1 ++ h :: l2 -> without (hs ++ [h]) l = l1 ++ l2.
Proof.
  intros Hnd Heq. assert (without (hs ++ [h]) l = filter (fun x => x <> h) (without hs l)) as ->.
  { unfold without. rewrite list_filter_filter. apply list_filter_iff. set_solver. }
  assert (NoDup (l1 ++ h :: l2)) as Hnd' by (rewrite <-Heq; by apply NoDup_filter).
  apply NoDup_app in Hnd' as (_ & H1 & [H2 _]%NoDup_cons).
  rewrite Heq, filter_app, filter_cons, decide_False by naive_solver.
  assert (forall l0, h ∉ l0 -> filter (fun x => x <> h) l0 = l0) as Hid.
  { induction l0 as [|x l0 IH]; [done|]. intros Hx. rewrite filter_cons, decide_True by set_solver.
    rewrite IH by set_solver. done. }
  rewrite !Hid; [done|done|]. set_solver.
Qed.

Lemma length_without hs l :
  NoDup hs -> NoDup l -> (forall h, h ∈ hs -> h ∈ l) ->
  Z.of_nat (length (without hs l)) = Z.of_nat (length l) - Z.of_nat (length hs).
Proof.
  revert l. induction hs as [|h hs IH] using rev_ind; intros l Hhs Hl Hin.
  { rewrite without_nil. simpl. lia. }
  apply NoDup_app in Hhs as (Hhs & Hd & _).
  assert (h ∈ without hs l) as Hw by (apply list_elem_of_filter; set_solver).
  apply list_elem_of_split in Hw as (l1 & l2 & Hw).
  rewrite (without_middle _ l1 h l2) by done.
  specialize (IH l Hhs Hl ltac:(set_solver)). rewrite Hw, length_app in IH. simpl in IH.
  rewrite !length_app. simpl. lia.
Qed.

(** [a] is arena number [i] of [s]. *)
Definition active s (i : Z) (a : Arena) : Prop :=
  arenas s !! Z.to_nat i = Some a /\ 0 <= i < arena_count s.

Lemma active_wf s i a : layout_wf s -> active s i a -> arena_wf (Z.to_nat i) a.
Proof. intros Hwf [Ha Hi]. apply (lw_active _ Hwf); [done|lia]. Qed.

Lemma active_index s i a : layout_wf s -> active s i a -> storage_arena_index (pages a) = i.
Proof. intros Hwf Ha. rewrite (aw_index _ _ (active_wf s i a Hwf Ha)). destruct Ha. lia. Qed.

Lemma active_same s s' i a : same_arenas s s' -> active s i a -> active s' i a.
Proof. intros [Ha Hc] [? ?]. by split; [rewrite Ha|rewrite Hc]. Qed.

Lemma active_cast s i a p :
  layout_wf s -> active s i a -> 0 <= p < page_count a -> cast_uint 32 p = p.
Proof.
  intros Hwf Ha Hp. pose proof (aw_count _ _ (active_wf s i a Hwf Ha)). unfold u32_MAX in *.
  unfold cast_uint. apply Z.mod_small. lia.
Qed.

Lemma active_page s i a p :
  layout_wf s -> active s i a -> 0 <= p < page_count a ->
  valid s (PageHandle_new i p) /\
  exists slot, page_slot a (PageHandle_new i p) = Some slot /\
    slot_of s (PageHandle_new i p) = Some slot.
Proof.
  intros Hwf Ha Hp. pose proof Ha as [Hl Hi].
  assert (arena_for s (PageHandle_new i p) = Some a) as Hfor by (apply arena_for_page; simpl; auto; lia).
  pose proof (arena_for_slot _ _ _ Hfor) as Hs.
  split; [split_and!; simpl; [lia..|by eexists]|]. eexists. split; [done|].
  unfold slot_of. by rewrite Hfor.
Qed.

Lemma active_physical s i a p :
  layout_wf s -> active s i a -> 0 <= p < page_count a ->
  page_to_physical a (PageHandle_new i p) = Some (arena_base a + p * PAGE_SIZE).
Proof.
  intros Hwf Ha Hp. pose proof (active_wf s i a Hwf Ha) as [Hidx _ Hcount _ Hb He].
  unfold page_to_physical. simpl. rewrite Hidx. destruct Ha as [_ Hi].
  rewrite Z2Nat.id, Z.eqb_refl by lia. simpl. rewrite (proj2 (Z.leb_gt _ _)) by lia.
  unfold checked_mul. unfold PAGE_SIZE in *. rewrite (proj2 (Z.ltb_lt _ _)) by lia.
  apply checked_add_Some. lia.
Qed.

(** A run of [count] free pages of [a] starts at [start], aligned. *)
Definition fits s (a : Arena) (count alignment start : Z) : Prop :=
  0 <= start /\ start + count <= page_count a /\
  (arena_base a + start * PAGE_SIZE) mod alignment = 0 /\
  forall q, start <= q < start + count ->
    state_at s (PageHandle_new (storage_arena_index (pages a)) q) = Some Free.

(** What a successful [alloc_contiguous] does. *)
Record took s l s' (i start count : Z) : Prop := {
  tk_inv : pmm_inv s' (without (handles i start (start + count)) l);
  tk_frame : frame s s';
  tk_state : restated s s' (handles i start (start + count)) Allocated;
  tk_heads : remarked s s' [PageHandle_new i start] true;
}.

Lemma take_run_loop s l i a start stop :
  pmm_core s l -> active s i a -> 0 <= start -> stop <= page_count a ->
  (forall q, start <= q < stop -> PageHandle_new i q ∈ l) ->
  wp (for_loop (range start stop) tt (take_page a))
    (fun c s' => c = Continue tt /\ pmm_core s' (without (handles i start stop) l) /\ frame s s' /\
       restated s s' (handles i start stop) Allocated /\ remarked s s' [] true /\
       free_pages s' = free_pages s) s.
Proof.
  intros Hcore Ha Hstart Hstop Hin. pose proof Hcore as [Hwf Hl _ _].
  eapply wp_mono; [eapply (wp_for_loop (fun pre (_ : unit) s' =>
      pmm_core s' (without (PageHandle_new i <$> pre) l) /\ frame s s' /\
      restated s s' (PageHandle_new i <$> pre) Allocated /\ remarked s s' [] true /\
      free_pages s' = free_pages s) (fun _ _ => False))|].
  - rewrite without_nil. split_and!; try done.
  - intros pre q post [] s1 Hpre (Hc1 & Hf1 & Hre1 & Hma1 & Hn1).
    apply range_split in Hpre as [-> Hq]. pose proof Hc1 as [Hwf1 Hl1 _ _]. unfold take_page.
    rewrite (active_index s i a), (active_cast s i a q) by (done || lia). simpl.
    destruct (active_page s i a q) as (Hv & slot & Hs & Hslot); [done..|lia|].
    fold (handles i start q) in *. set (h := PageHandle_new i q) in *.
    assert (h ∈ without (handles i start q) l) as Hw.
    { apply list_elem_of_filter. split; [rewrite elem_of_handles; simpl; lia|apply Hin; lia]. }
    apply list_elem_of_split in Hw as (l1 & l2 & Hw). rewrite Hw in *.
    wp_step. eapply wp_mono; [by apply (remove_free_spec s1 l1 h l2)|].
    intros [] s2 [Hlo Hl2]. assert (frame s s2) as Hf2 by (etrans; [done|apply Hlo]).
    simpl. rewrite Hs. wp_step. destruct (core_take s1 s2 l1 h l2) as (Hc' & Hf' & Hre & Hma & Hn); [done..|].
    eapply (wp_update_page _ h); [by eapply links_only_wf|by eapply same_arenas_valid; [apply Hf2|]| |].
    { by rewrite (same_arenas_slot_of s) by apply Hf2. }
    wp_step. rewrite fmap_app. fold (handles i start q). simpl. fold h.
    rewrite (without_middle _ l1 h l2); [|apply Hl|done].
    split_and!; [done|etrans; [exact Hf1|exact Hf']|..|congruence].
    + intros x Hx. rewrite Hre by (eapply same_arenas_valid; [apply Hf1|done]). rewrite Hre1 by done.
      repeat case_decide; set_solver.
    + intros x Hx. rewrite Hma by (eapply same_arenas_valid; [apply Hf1|done]). by rewrite Hma1.
  - intros [[]|[]] s' HI; [|done]. by split.
Qed.

Lemma take_run_spec s l i a start count alignment :
  pmm_inv s l -> active s i a -> 0 < count -> fits s a count alignment start ->
  wp (take_run a start count) (fun r s' =>
    r = Some {| run_head := PageHandle_new i start; run_count := count |} /\
    took s l s' i start count) s.
Proof.
  intros [Hcore Hn] Ha Hcount (Hs & He & _ & Hfree). pose proof Hcore as [Hwf Hl Hiff Hheads].
  pose proof (active_wf s i a Hwf Ha) as Haw. rewrite (active_index s i a) in Hfree by done.
  pose proof (aw_count _ _ Haw) as Hc. unfold u32_MAX in Hc.
  assert (forall q, start <= q < start + count -> PageHandle_new i q ∈ l) as Hin.
  { intros q Hq. apply Hiff; [|by apply Hfree]. apply (active_page s i a q); [done..|lia]. }
  unfold take_run. wp_step. apply wp_add_uint; [lia|]. wp_step.
  eapply wp_mono; [by apply (take_run_loop s l)|].
  intros c s1 (-> & Hc1 & Hf1 & Hre1 & Hma1 & Hn1).
  rewrite (active_index s i a), (active_cast s i a) by (done || lia). simpl.
  destruct (active_page s i a start) as (Hv & slot & Hsl & Hslot); [done..|lia|].
  set (h := PageHandle_new i start) in *. rewrite Hsl. wp_step.
  assert (forall x, valid s1 x <-> valid s x) as V1 by (intros; apply same_arenas_valid, Hf1).
  pose proof Hc1 as [Hwf1 Hl1 Hiff1 Hheads1].
  eapply (wp_update_page _ h); [done|by apply V1|by rewrite (same_arenas_slot_of s) by apply Hf1|].
  wp_steps. set (s2 := edit h (set_contiguous_head true) s1).
  assert (forall x, valid s2 x <-> valid s x) as V2
    by (intros; etrans; [apply same_arenas_valid, edit_same|apply V1]).
  assert (free_pages s2 = free_pages s) as -> by (rewrite <-Hn1; unfold s2, edit; by case_match).
  assert (Z.of_nat (length (without (handles i start (start + count)) l)) =
          Z.of_nat (length l) - count) as Hlen.
  { rewrite length_without, length_handles; [lia|apply NoDup_handles|apply Hl|].
    intros x [<- ?]%elem_of_handles. destruct x. by apply Hin. }
  apply wp_sub_uint; [lia|]. wp_steps. split; [done|].
  assert (restated s s2 (handles i start (start + count)) Allocated) as Hre2.
  { intros x Hx. unfold s2. rewrite state_at_edit_head by (done || by apply V1). by apply Hre1. }
  assert (remarked s s2 [h] true) as Hma2.
  { intros x Hx. unfold s2. rewrite head_at_edit_head, Hma1 by (done || by apply V1). simpl.
    destruct (decide (x = h)), (decide (x ∈ [h])); set_solver. }
  split; [|by etrans; [|apply frame_count]; etrans; [|apply frame_edit]|done..].
  apply core_count; [|lia]. split.
  - apply layout_wf_edit; [done|left; by apply V1].
  - apply free_list_edit; [done|by apply V1|done..].
  - intros x Hx%V2. unfold s2. rewrite state_at_edit_head by (done || by apply V1).
    by apply Hiff1, V1.
  - intros x Hx%V2. rewrite Hre2, Hma2 by done.
    case_decide as Hd; [|case_decide; [done|by apply Hheads]].
    apply list_elem_of_singleton in Hd as ->. rewrite decide_True; [done|].
    apply elem_of_handles. simpl. lia.
Qed.

(** ** The search *)

(** Every run that would start before [bound] is broken by a page before [k]. *)
Definition broken s (a : Arena) (count alignment bound k : Z) : Prop :=
  forall p, 0 <= p < bound -> (arena_base a + p * PAGE_SIZE) mod alignment = 0 ->
    exists q, p <= q < k /\ q < p + count /\
      state_at s (PageHandle_new (storage_arena_index (pages a)) q) <> Some Free.

(** The loop-carried locals after the pages [0..k]. *)
Definition scan_inv s (a : Arena) (count alignment k : Z) (locals : option Z * Z) : Prop :=
  match locals with
  | (None, len) => len = 0 /\ broken s a count alignment k k
  | (Some st, len) =>
      len = k - st /\ 0 < len < count /\ 0 <= st /\ broken s a count alignment st k /\
      (arena_base a + st * PAGE_SIZE) mod alignment = 0 /\
      forall q, st <= q < k -> state_at s (PageHandle_new (storage_arena_index (pages a)) q) = Some Free
  end.

Lemma broken_no_fit s a count alignment k start :
  broken s a count alignment k k -> start < k -> ~ fits s a count alignment start.
Proof.
  intros Hb Hlt (H0 & _ & Hal & Hfree). destruct (Hb start) as (q & ? & ? & Hq); [lia|done|].
  apply Hq, Hfree. lia.
Qed.

(** A page that is not free breaks every run that reaches it. *)
Lemma scan_inv_used s a count alignment k locals :
  0 < count -> 0 <= k -> scan_inv s a count alignment k locals ->
  state_at s (PageHandle_new (storage_arena_index (pages a)) k) <> Some Free ->
  scan_inv s a count alignment (k + 1) (None, 0).
Proof.
  intros Hc Hk Hinv Hused. split; [done|]. intros p Hp Hal. destruct locals as [[st|] len]; simpl in *.
  - destruct Hinv as (-> & Hlen & Hst & Hb & _). destruct (decide (p < st)) as [Hlt|Hge].
    + destruct (Hb p) as (q & ? & ? & ?); [lia|done|]. exists q. split_and!; [lia..|done].
    + exists k. split_and!; [lia..|done].
  - destruct Hinv as [-> Hb]. destruct (decide (p < k)) as [Hlt|Hge].
    + destruct (Hb p) as (q & ? & ? & ?); [lia|done|]. exists q. split_and!; [lia..|done].
    + exists k. split_and!; [lia..|done].
Qed.

(** An unaligned free page does not start a run. *)
Lemma scan_inv_skip s a count alignment k :
  0 <= k -> scan_inv s a count alignment k (None, 0) ->
  (arena_base a + k * PAGE_SIZE) mod alignment <> 0 -> scan_inv s a count alignment (k + 1) (None, 0).
Proof.
  intros Hk [_ Hb] Hal. split; [done|]. intros p Hp Hp'.
  destruct (decide (p = k)) as [->|]; [done|].
  destruct (Hb p) as (q & ? & ? & ?); [lia|done|]. exists q. split_and!; [lia..|done].
Qed.

(** The first run that fits, in page order. *)
Definition first_fit s (a : Arena) (count alignment start : Z) : Prop :=
  fits s a count alignment start /\ forall st, fits s a count alignment st -> start <= st.

Lemma first_fit_complete s a count alignment k st :
  0 <= st -> st + count = k -> k <= page_count a -> broken s a count alignment st (k - 1) ->
  (arena_base a + st * PAGE_SIZE) mod alignment = 0 ->
  (forall q, st <= q < k -> state_at s (PageHandle_new (storage_arena_index (pages a)) q) = Some Free) ->
  first_fit s a count alignment st.
Proof.
  intros Hst Heq Hk Hb Hal Hfree. split; [split_and!; [lia..|done|]; intros; apply Hfree; lia|].
  intros st' (H0 & _ & Hal' & Hfree'). destruct (decide (st <= st')) as [|Hlt]; [done|].
  destruct (Hb st') as (q & ? & ? & Hq); [lia|done|]. exfalso. apply Hq, Hfree'. lia.
Qed.

(** How the scan of one arena ends. *)
Definition scan_result s l (i : Z) (a : Arena) (count alignment : Z) (r : option PageRun) s' : Prop :=
  exists st, first_fit s a count alignment st /\
    r = Some {| run_head := PageHandle_new i st; run_count := count |} /\
    took s l s' i st count.

(** A free page that continues or starts a run: the run is taken once it is
    long enough. *)
Lemma scan_take s l i a count alignment k st :
  pmm_inv s l -> active s i a -> 0 < count -> 0 <= k < page_count a -> 0 <= st <= k ->
  k + 1 - st <= count -> broken s a count alignment st k ->
  (arena_base a + st * PAGE_SIZE) mod alignment = 0 ->
  (forall q, st <= q < k + 1 ->
     state_at s (PageHandle_new (storage_arena_index (pages a)) q) = Some Free) ->
  wp (if count <=? k + 1 - st then let! run := take_run a st count in ret (Return run)
      else ret (Continue (Some st, k + 1 - st)))
    (fun c s' => match c with
       | Continue b => s' = s /\ scan_inv s a count alignment (k + 1) b
       | Return r => scan_result s l i a count alignment r s' end) s.
Proof.
  intros Hinv Ha Hc Hk Hst Hlen Hb Hal Hfree. destruct (Z.leb_spec count (k + 1 - st)) as [Hle|Hgt].
  - assert (first_fit s a count alignment st) as Hff.
    { apply (first_fit_complete s a count alignment (k + 1)); try (done || lia).
      by replace (k + 1 - 1) with k by lia. }
    wp_step. eapply wp_mono; [apply (take_run_spec s l i a st count alignment); try done; apply Hff|].
    intros r s' [-> Htook]. wp_step. by exists st.
  - wp_step. split; [done|]. simpl. split_and!; [lia|lia|lia|lia| |done|done].
    intros p Hp Hp'. destruct (Hb p Hp Hp') as (q & ? & ? & ?). exists q. split_and!; [lia..|done].
Qed.

Lemma scan_page_spec s l i a count alignment_log2 k b :
  let alignment := 2 ^ alignment_log2 in
  pmm_inv s l -> active s i a -> 0 < count -> 0 <= alignment_log2 -> 0 <= k < page_count a ->
  scan_inv s a count alignment k b ->
  wp (scan_page a count alignment k b) (fun c s' => match c with
     | Continue b => s' = s /\ scan_inv s a count alignment (k + 1) b
     | Return r => scan_result s l i a count alignment r s' end) s.
Proof.
  intros alignment Hinv Ha Hc Hal2 Hk Hscan. pose proof Hinv as [[Hwf _ _ _] _].
  pose proof (active_index s i a Hwf Ha) as Hidx.
  pose proof (aw_count _ _ (active_wf s i a Hwf Ha)) as Hpc. unfold u32_MAX in Hpc.
  destruct b as [rs len]. unfold scan_page. rewrite Hidx, (active_cast s i a k) by done. simpl.
  pose proof (active_physical s i a k Hwf Ha Hk) as Hphys.
  destruct (active_page s i a k) as (Hv & slot & Hs & Hslot); [done..|].
  rewrite Hs. wp_step. destruct (lw_slots _ Hwf _ Hv) as [p Hp]. eapply wp_load_page; [done..|].
  assert (state_at s (PageHandle_new i k) = Some (state p)) as Hst by (unfold state_at; by rewrite Hp).
  rewrite <-Hidx in Hst. case_bool_decide as Hfree; simpl.
  2:{ wp_step. split; [done|]. eapply scan_inv_used; [done|lia|exact Hscan|congruence]. }
  wp_step. destruct rs as [st|]; simpl in Hscan.
  - destruct Hscan as (-> & Hlen & Hst0 & Hb & Hal & Hrun). wp_step.
    apply wp_add_uint; [lia|]. wp_step. replace (k - st + 1) with (k + 1 - st) by lia.
    apply scan_take; try (done || lia). intros q Hq.
    destruct (decide (q = k)) as [->|]; [congruence|apply Hrun; lia].
  - destruct Hscan as [-> Hb]. rewrite Hphys. unfold alignment at 1.
    rewrite land_mask by done. fold alignment.
    destruct (Z.eqb_spec ((arena_base a + k * PAGE_SIZE) mod alignment) 0) as [Hal|Hal]; simpl.
    + wp_step. pose proof (scan_take s l i a count alignment k k) as Htake.
      replace (k + 1 - k) with 1 in Htake by lia. apply Htake; try (done || lia).
      intros q Hq. replace q with k by lia. congruence.
    + wp_step. wp_step. split; [done|]. apply scan_inv_skip; [lia|by split|done].
Qed.

Lemma scan_arena_spec s l i a count alignment_log2 :
  let alignment := 2 ^ alignment_log2 in
  pmm_inv s l -> active s i a -> 0 < count -> 0 <= alignment_log2 ->
  wp (scan_arena a count alignment) (fun c s' =>
    match c with
    | Continue _ => s' = s /\ forall st, ~ fits s a count alignment st
    | Return r => scan_result s l i a count alignment r s'
    end) s.
Proof.
  intros alignment Hinv Ha Hc Hal2. pose proof Hinv as [[Hwf _ _ _] _].
  pose proof (aw_count _ _ (active_wf s i a Hwf Ha)) as Hpc.
  unfold scan_arena. eapply wp_mono.
  { apply (wp_for_loop (fun pre b s' => s' = s /\
      scan_inv s a count alignment (Z.of_nat (length pre)) b)
      (scan_result s l i a count alignment)).
    - split; [done|]. split; [done|]. intros p Hp. simpl in Hp. lia.
    - intros pre k post b s1 Hsplit [-> Hscan]. apply range_split in Hsplit as [-> Hk].
      rewrite length_app. simpl length. rewrite Nat2Z.inj_add, length_range in *.
      replace (Z.max 0 (k - 0)) with k in * by lia. by apply scan_page_spec. }
  intros [[rs len]|r] s' Hr; [|exact Hr]. destruct Hr as [-> Hscan]. split; [done|].
  rewrite length_range in Hscan. replace (Z.max 0 _) with (page_count a) in Hscan by lia.
  intros st Hfit. pose proof Hfit as (H0 & He & Hals & Hfree).
  destruct rs as [st0|]; simpl in Hscan.
  - destruct Hscan as (-> & Hlen & Hst0 & Hb & _). destruct (Hb st) as (q & ? & ? & Hq); [lia|done|].
    apply Hq, Hfree. lia.
  - destruct Hscan as [_ Hb]. eapply broken_no_fit; [exact Hb| |done]. lia.
Qed.

Lemma alignment_pow2 al : 0 <= al -> Z.max (Z.shiftl 1 al) PAGE_SIZE = 2 ^ Z.max al 12.
Proof.
  intros Hal. rewrite Z.shiftl_mul_pow2, Z.mul_1_l by done.
  replace PAGE_SIZE with (2 ^ 12) by done.
  destruct (decide (al <= 12)).
  - rewrite !Z.max_r; [done..|]. by apply Z.pow_le_mono_r.
  - rewrite !Z.max_l; [done|lia|]. apply Z.pow_le_mono_r; lia.
Qed.

(** No arena in front of [n] has a run that fits. *)
Definition no_fit_before s (count alignment n : Z) : Prop :=
  forall i a st, active s i a -> i < n -> ~ fits s a count alignment st.

Lemma alloc_contiguous_spec s l count alignment_log2 :
  let alignment := 2 ^ Z.max alignment_log2 12 in
  pmm_inv s l -> 0 <= count -> 0 <= alignment_log2 ->
  wp (alloc_contiguous count alignment_log2) (fun r s' =>
    match r with
    | None => s' = s /\
        (count = 0 \/ 64 <= alignment_log2 \/ no_fit_before s count alignment (arena_count s))
    | Some run => 0 < count /\ alignment_log2 < 64 /\
        exists i a st, active s i a /\ first_fit s a count alignment st /\
          no_fit_before s count alignment i /\
          run = {| run_head := PageHandle_new i st; run_count := count |} /\ took s l s' i st count
    end) s.
Proof.
  intros alignment Hinv Hc Hal. unfold alloc_contiguous.
  destruct (Z.eqb_spec count 0) as [->|Hc0]; simpl; [wp_step; by split; [|left]|].
  destruct (Z.leb_spec 64 alignment_log2) as [H64|H64]; simpl; [wp_step; by split; [|right; left]|].
  rewrite alignment_pow2 by done. fold alignment. pose proof (pi_layout _ _ (pi_core _ _ Hinv)) as Hwf.
  pose proof (lw_count _ Hwf) as Hn. wp_steps. eapply wp_mono.
  { apply (wp_for_loop (fun pre (_ : unit) s' => s' = s /\
      no_fit_before s count alignment (Z.of_nat (length pre)))
      (fun r s' => exists i a, active s i a /\ no_fit_before s count alignment i /\
         scan_result s l i a count alignment r s')).
    - split; [done|]. intros i a st [_ ?] ?. simpl in *. lia.
    - intros pre i post [] s1 Hsplit [-> Hno]. apply range_split in Hsplit as [-> Hi].
      rewrite length_app. simpl length. rewrite Nat2Z.inj_add, length_range in *.
      replace (Z.max 0 (i - 0)) with i in * by lia. wp_steps.
      destruct (lookup_lt_is_Some_2 (arenas s) (Z.to_nat i)) as [a Ha].
      { rewrite (lw_len _ Hwf). lia. }
      assert (active s i a) as Hact by (by split).
      assert ((forall st, ~ fits s a count alignment st) ->
        no_fit_before s count alignment (i + 1)) as Hnext.
      { intros Hnf j b st Hj Hlt Hfit. destruct (decide (j = i)) as [->|]; [|eapply (Hno j); eauto; lia].
        destruct Hj as [Hj _]. simplify_eq. by eapply Hnf. }
      eapply wp_expect; [done|]. destruct (Z.ltb_spec (page_count a) count) as [Hlt|Hge].
      + wp_step. split; [done|]. apply Hnext. intros st (? & ? & _). lia.
      + wp_step. eapply wp_mono; [apply (scan_arena_spec s l i a); try done; lia|].
        intros [b|r] s' Hr; wp_step; [|by exists i, a]. destruct Hr as [-> Hnf]. eauto. }
  intros [[]|r] s' Hr; wp_step.
  - destruct Hr as [-> Hno]. split; [done|]. right; right. rewrite length_range in Hno.
    by replace (Z.max 0 _) with (arena_count s) in Hno by lia.
  - destruct Hr as (i & a & Ha & Hno & st & Hff & -> & Htook). split_and!; [lia..|].
    by exists i, a, st.
Qed.

(** ** Giving a run back *)

(** The pages [start..stop] of arena [i] are one allocated run as far as they
    go: each is allocated and only the first may be marked as a head. *)
Definition run_body s (i start stop : Z) : Prop :=
  forall q, start <= q < stop ->
    state_at s (PageHandle_new i q) = Some Allocated /\
    (q <> start -> head_at s (PageHandle_new i q) = Some false).

(** The run starts at a marked head and ends in the head's arena. *)
Definition run_placed s (head : PageHandle) (count : Z) : Prop :=
  valid s head /\ head_at s head = Some true /\
  exists a, active s (handle_arena_index head) a /\ handle_page_index head + count <= page_count a.

(** Why a run is refused: every check before the one named has passed.  The
    pages are checked in order, each for its state first. *)
Definition refusal s (head : PageHandle) (count : Z) (e : FreeContiguousError) : Prop :=
  let i := handle_arena_index head in
  let start := handle_page_index head in
  match e with
  | AddressNotInArena =>
      ~ valid s head \/
      valid s head /\ head_at s head = Some true /\ exists a, active s i a /\ page_count a < start + count
  | NotContiguousHead => valid s head /\ head_at s head = Some false
  | NotAllocated =>
      run_placed s head count /\ exists q, start <= q < start + count /\ run_body s i start q /\
        state_at s (PageHandle_new i q) <> Some Allocated
  | InvalidPageState =>
      run_placed s head count /\ exists q, start < q < start + count /\ run_body s i start q /\
        state_at s (PageHandle_new i q) = Some Allocated /\
        head_at s (PageHandle_new i q) = Some true
  end.

Lemma run_body_snoc s i start q :
  start <= q -> run_body s i start q -> state_at s (PageHandle_new i q) = Some Allocated ->
  (q <> start -> head_at s (PageHandle_new i q) = Some false) -> run_body s i start (q + 1).
Proof.
  intros Hle Hb Hst Hh q' Hq. destruct (decide (q' = q)) as [->|]; [done|]. apply Hb. lia.
Qed.

Lemma check_run_spec s i a start count :
  let head := PageHandle_new i start in
  layout_wf s -> active s i a -> 0 <= start -> start + count <= page_count a -> run_placed s head count ->
  wp (for_loop (range start (start + count)) tt (check_run_page a head start)) (fun c s' =>
    s' = s /\ match c with
      | Continue _ => run_body s i start (start + count)
      | Return e => refusal s head count e end) s.
Proof.
  intros head Hwf Ha Hstart Hend Hpl. eapply wp_mono.
  { apply (wp_for_loop (fun pre (_ : unit) s' => s' = s /\
      run_body s i start (start + Z.of_nat (length pre)))
      (fun e s' => s' = s /\ refusal s head count e)).
    - split; [done|]. intros q Hq. simpl in Hq. lia.
    - intros pre q post [] s1 Hsplit [-> Hb]. apply range_split in Hsplit as [-> Hq].
      rewrite length_app. simpl length. rewrite Nat2Z.inj_add, length_range in *.
      replace (start + Z.max 0 (q - start)) with q in * by lia. unfold check_run_page.
      replace (start + (Z.max 0 (q - start) + Z.of_nat 1)) with (q + 1) by lia.
      rewrite (active_cast s i a) by (done || lia). simpl.
      destruct (active_page s i a q) as (Hv & slot & Hs & Hslot); [done..|lia|].
      rewrite Hs. wp_step. destruct (lw_slots _ Hwf _ Hv) as [p Hp]. eapply wp_load_page; [done..|].
      assert (state_at s (PageHandle_new i q) = Some (state p)) as Hst by (unfold state_at; by rewrite Hp).
      assert (head_at s (PageHandle_new i q) = Some (contiguous_head p)) as Hhd
        by (unfold head_at; by rewrite Hp).
      case_bool_decide as Hal; simpl.
      2:{ wp_step. split; [done|]. split; [done|]. exists q. simpl. split_and!; [lia..|done|congruence]. }
      destruct (Z.eqb_spec q start) as [->|Hne]; simpl.
      { wp_step. split; [done|]. apply run_body_snoc; [lia|done|congruence|done]. }
      destruct (contiguous_head p) eqn:Hch; wp_step; (split; [done|]).
      + split; [done|]. exists q. simpl. split_and!; [lia..|done|congruence|done].
      + apply run_body_snoc; [lia|done|congruence|done]. }
  intros [[]|e] s' Hr; [|exact Hr]. destruct Hr as [-> Hb]. split; [done|].
  rewrite length_range in Hb. intros q Hq. apply Hb. lia.
Qed.

(** What a successful [free_contiguous] does. *)
Record gave s l s' (i start count : Z) : Prop := {
  gv_inv : pmm_inv s' (l ++ handles i start (start + count));
  gv_frame : frame s s';
  gv_state : restated s s' (handles i start (start + count)) Free;
  gv_heads : remarked s s' (handles i start (start + count)) false;
}.

Lemma free_run_spec s l i a start count :
  pmm_inv s l -> active s i a -> 0 <= start -> start + count <= page_count a ->
  (forall q, start <= q < start + count -> state_at s (PageHandle_new i q) = Some Allocated) ->
  wp (for_each (range start (start + count)) (fun index =>
        free_page (PageHandle_new i (cast_uint 32 index)))) (fun _ s' => gave s l s' i start count) s.
Proof.
  intros Hinv Ha Hstart Hend Hal. pose proof (pi_layout _ _ (pi_core _ _ Hinv)) as Hwf.
  eapply wp_mono; [apply (wp_for_each (fun pre s' =>
      let hs := PageHandle_new i <$> pre in
      pmm_inv s' (l ++ hs) /\ frame s s' /\ restated s s' hs Free /\ remarked s s' hs false))|].
  - simpl. rewrite app_nil_r. split_and!; done.
  - intros pre q post s1 Hsplit (Hi1 & Hf1 & Hre1 & Hma1). apply range_split in Hsplit as [-> Hq].
    rewrite (active_cast s i a) by (done || lia). simpl in *. fold (handles i start q) in *.
    destruct (active_page s i a q) as (Hv & _); [done..|lia|].
    assert (forall x, valid s1 x <-> valid s x) as V1 by (intros; apply same_arenas_valid, Hf1).
    eapply wp_mono; [apply (free_page_spec s1 _ _ Hi1); [by apply V1|]|].
    { rewrite Hre1 by done. rewrite decide_False; [apply Hal; lia|].
      rewrite elem_of_handles. simpl. lia. }
    intros [] s2 (Hi2 & Hf2 & Hre2 & Hma2). rewrite fmap_app, app_assoc. fold (handles i start q).
    split_and!; [done|etrans; [exact Hf1|exact Hf2]|..]; intros x Hx.
    + rewrite Hre2, Hre1 by (done || by apply V1). repeat case_decide; set_solver.
    + rewrite Hma2, Hma1 by (done || by apply V1). repeat case_decide; set_solver.
  - intros [] s' (? & ? & ? & ?). by split.
Qed.

Lemma pmm_inv_unmark s l h :
  pmm_inv s l -> valid s h -> pmm_inv (edit h (set_contiguous_head false) s) l.
Proof.
  intros [[Hwf Hl Hiff Hheads] Hn] Hv. set (s1 := edit _ _ s).
  assert (forall x, valid s1 x <-> valid s x) as V1 by (intros; apply same_arenas_valid, edit_same).
  split; [|rewrite <-Hn; unfold s1, edit; by case_match]. split.
  - apply layout_wf_edit; [done|by left].
  - by apply free_list_edit.
  - intros x Hx%V1. unfold s1. rewrite state_at_edit_head by done. by apply Hiff.
  - intros x Hx%V1. unfold s1. rewrite state_at_edit_head, head_at_edit_head by done.
    case_decide; [done|by apply Hheads].
Qed.

Lemma free_contiguous_spec s l head count :
  pmm_inv s l -> 0 <= count < 2 ^ 64 -> 0 <= handle_arena_index head -> 0 <= handle_page_index head ->
  let i := handle_arena_index head in
  let start := handle_page_index head in
  wp (free_contiguous head count) (fun r s' =>
    match r with
    | Ok _ => count = 0 /\ s' = s \/
        0 < count /\ valid s head /\ head_at s head = Some true /\
        run_body s i start (start + count) /\ gave s l s' i start count
    | Err e => s' = s /\ 0 < count /\ refusal s head count e
    end) s.
Proof.
  intros Hinv Hc Hi0 Hp0 i start. pose proof (pi_layout _ _ (pi_core _ _ Hinv)) as Hwf.
  unfold free_contiguous. destruct (Z.eqb_spec count 0) as [->|Hc0]; [wp_step; by left|].
  wp_steps. cbv [id]. destruct (arena_for s head) as [a|] eqn:Hfor.
  2:{ wp_step. split_and!; [done|lia|]. left. intros (_ & _ & [? ?]). congruence. }
  assert (valid s head) as Hv by (split_and!; [done..|by eexists]).
  destruct (valid_slot s head) as (a' & slot & Ha' & Hs & Hslot); [done..|].
  rewrite Hfor in Ha'. injection Ha' as <-. rewrite Hs. wp_step. destruct (lw_slots _ Hwf _ Hv) as [p Hp]. eapply wp_load_page; [done..|].
  assert (head_at s head = Some (contiguous_head p)) as Hhd by (unfold head_at; by rewrite Hp).
  apply valid_iff in Hv as Hv'; [|done]. destruct Hv' as (b & Hb & Hib & Hpb & Hfor').
  rewrite Hfor in Hfor'. injection Hfor' as <-.
  assert (active s i a) as Hact by (by split).
  destruct (contiguous_head p) eqn:Hch; simpl; [|wp_step; split_and!; [done|lia|done..]].
  pose proof (aw_count _ _ (active_wf s i a Hwf Hact)) as Hpc. unfold u32_MAX in Hpc.
  fold start. unfold checked_add. destruct (Z.ltb_spec (start + count) (2 ^ 64)) as [Hov|Hov].
  2:{ wp_step. split_and!; [done|lia|]. right. split_and!; [done..|]. exists a. split; [done|]. fold start. lia. }
  destruct (Z.ltb_spec (page_count a) (start + count)) as [Hlt|Hge].
  { wp_step. split_and!; [done|lia|]. right. split_and!; [done..|]. by exists a. }
  wp_step. assert (head = PageHandle_new i start) as Heq by (by destruct head). rewrite Heq.
  eapply wp_mono; [apply (check_run_spec s i a start count); [done..|lia|rewrite <-Heq; split_and!; [done..|by exists a]]|].
  intros [[]|e] s1 [-> Hc1]; [|wp_step; split_and!; [done|lia|by rewrite <-Heq]].
  rewrite <-Heq. wp_steps.
  eapply wp_update_page; [done..|]. set (s1 := edit head _ s).
  assert (forall x, valid s1 x <-> valid s x) as V1 by (intros; apply same_arenas_valid, edit_same).
  assert (forall x, valid s x -> state_at s1 x = state_at s x) as St1
    by (intros; by apply state_at_edit_head).
  assert (forall q, start <= q < start + count -> valid s (PageHandle_new i q)) as Vq
    by (intros; apply (active_page s i a); [done..|lia]).
  wp_step. eapply wp_mono; [apply (free_run_spec s1 l i a start count)|].
  - by apply pmm_inv_unmark.
  - by eapply active_same; [apply edit_same|].
  - done.
  - done.
  - intros q Hq. rewrite St1 by auto. apply Hc1; lia.
  - intros [] s' [Gi Gf Gs Gh]. wp_step. right. split_and!; [lia|done..|]. split; [done| |..].
    + etrans; [apply frame_edit|done].
    + intros x Hx. rewrite Gs, St1 by (done || by apply V1). done.
    + intros x Hx. rewrite Gh by (by apply V1). case_decide as Hd; [done|].
      unfold s1. rewrite head_at_edit_head, decide_False; [done| |done..].
      intros ->. apply Hd, elem_of_handles. fold i start. lia.
Qed.

(** The pages of a run that was just taken, and no reason to refuse it. *)
Lemma took_pages s l s' i a start count alignment q :
  pmm_inv s l -> active s i a -> fits s a count alignment start -> took s l s' i start count ->
  start <= q < start + count ->
  valid s (PageHandle_new i q) /\ state_at s (PageHandle_new i q) = Some Free /\
  state_at s' (PageHandle_new i q) = Some Allocated /\
  head_at s' (PageHandle_new i q) = Some (bool_decide (q = start)).
Proof.
  intros [[Hwf Hl Hiff Hheads] _] Ha (Hs & He & _ & Hfree) [_ Hf Hre Hma] Hq.
  rewrite (active_index s i a) in Hfree by done. specialize (Hfree q Hq).
  destruct (active_page s i a q) as [Hv _]; [done..|lia|].
  assert (PageHandle_new i q ∈ handles i start (start + count)) as Hin by (by apply elem_of_handles).
  split_and!; [done..|by rewrite Hre, decide_True by done|]. rewrite Hma by done.
  case_decide as Hd.
  - apply list_elem_of_singleton in Hd. injection Hd as ->. by rewrite bool_decide_true.
  - rewrite bool_decide_false by set_solver. destruct (lw_slots _ Hwf _ Hv) as [p Hp].
    specialize (Hheads _ Hv). unfold head_at in *. rewrite Hp in *. simpl in *.
    destruct (contiguous_head p); [|done]. rewrite Hheads in Hfree by done. done.
Qed.

Lemma took_accepted s l s' i a start count alignment e :
  pmm_inv s l -> active s i a -> 0 < count -> fits s a count alignment start ->
  took s l s' i start count -> ~ refusal s' (PageHandle_new i start) count e.
Proof.
  intros Hinv Ha Hc Hfit Htook. pose proof (fun q => took_pages s l s' i a start count alignment q
    Hinv Ha Hfit Htook) as Hq. pose proof (tk_frame _ _ _ _ _ _ Htook) as Hf.
  destruct (Hq start ltac:(lia)) as (Hv & _ & _ & Hhd). rewrite bool_decide_true in Hhd by done.
  destruct e; simpl.
  - intros [_ ?]. congruence.
  - intros [Hnv|(_ & _ & b & [Hb _] & Hlt)].
    + apply Hnv. eapply same_arenas_valid; [apply Hf|done].
    + destruct Hf as [[Harr _] _ _ _ _]. rewrite Harr in Hb. destruct Ha as [Ha _].
      simplify_eq. destruct Hfit. lia.
  - intros (_ & q & Hr & _ & Hst). destruct (Hq q Hr) as (_ & _ & ? & _). done.
  - intros (_ & q & Hr & _ & _ & Hh). destruct (Hq q ltac:(lia)) as (_ & _ & _ & Hh').
    rewrite bool_decide_false in Hh' by lia. congruence.
Qed.

Lemma without_perm hs l :
  NoDup hs -> NoDup l -> (forall h, h ∈ hs -> h ∈ l) -> l ≡ₚ hs ++ without hs l.
Proof.
  intros Hhs Hl Hsub. apply NoDup_Permutation; [done| |].
  - apply NoDup_app. split_and!; [done| |by apply NoDup_filter].
    intros h Hh [? _]%list_elem_of_filter. done.
  - intros h. rewrite elem_of_app. unfold without. rewrite list_elem_of_filter.
    destruct (decide (h ∈ hs)); naive_solver.
Qed.

(** The pages of a run that fits are in the queue. *)
Lemma fits_perm s l i a start count alignment :
  pmm_inv s l -> active s i a -> fits s a count alignment start ->
  l ≡ₚ handles i start (start + count) ++ without (handles i start (start + count)) l.
Proof.
  intros [[Hwf Hl Hiff _] _] Ha (Hs & He & _ & Hfree). apply without_perm; [apply NoDup_handles|apply Hl|].
  intros [hi hp] [? ?]%elem_of_handles. simpl in *. subst hi.
  apply Hiff; [apply (active_page s i a hp); [done..|lia]|].
  rewrite (active_index s i a) in Hfree by done. by apply Hfree.
Qed.

(** ** Handles and physical addresses *)

Lemma physical_to_page_Some a i phys h :
  arena_wf i a ->
  physical_to_page a phys = Some h <->
  handle_arena_index h = Z.of_nat i /\ 0 <= handle_page_index h < page_count a /\
  phys = arena_base a + handle_page_index h * PAGE_SIZE.
Proof.
  intros [Hidx _ Hcount Hal Hb He]. unfold physical_to_page. rewrite Hidx.
  pose proof (is_page_aligned_spec phys) as Hpa. unfold checked_sub, try_from_uint, u32_MAX in *.
  destruct (PhysicalAddress_is_page_aligned phys); simpl.
  2:{ split; [done|]. intros (_ & _ & ->). enough (false = true) by done. apply Hpa.
      unfold PAGE_SIZE in *. divlia. }
  assert (phys mod PAGE_SIZE = 0) as Hp by (by apply Hpa). clear Hpa.
  destruct (Z.ltb_spec phys (arena_base a)) as [Hlt|Hge]; simpl.
  { split; [done|]. unfold PAGE_SIZE. intros (_ & ? & ->). lia. }
  rewrite (proj2 (Z.leb_le _ _)) by lia.
  assert (phys = arena_base a + (phys - arena_base a) / PAGE_SIZE * PAGE_SIZE) as Heq
    by (unfold PAGE_SIZE in *; divlia).
  destruct (Z.leb_spec (page_count a) ((phys - arena_base a) / PAGE_SIZE)) as [Hle|Hgt].
  { split; [done|]. intros (_ & ? & ->). unfold PAGE_SIZE in *. divlia. }
  rewrite (proj2 (Z.ltb_lt _ _)) by lia. split.
  - intros [= <-]. simpl. split_and!; [done| |done|done]. apply Z.div_pos; [lia|done].
  - intros (Hi & ? & Hphys). destruct h as [hi hp]. simpl in *. subst hi. do 2 f_equal.
    unfold PAGE_SIZE in *. divlia.
Qed.

Lemma page_to_physical_Some s h a :
  layout_wf s -> valid s h -> arena_for s h = Some a ->
  page_to_physical a h = Some (arena_base a + handle_page_index h * PAGE_SIZE).
Proof.
  intros Hwf Hv Hfor. apply valid_iff in Hv as (b & Hb & Hi & Hp & Hfor'); [|done].
  rewrite Hfor in Hfor'. injection Hfor' as <-.
  assert (active s (handle_arena_index h) a) as Hact by (by split).
  pose proof (active_physical s _ a _ Hwf Hact Hp) as Hphys. by destruct h.
Qed.

(** The physical address of a page of [s]. *)
Definition physical_of s h : option PhysicalAddress :=
  match arena_for s h with Some a => page_to_physical a h | None => None end.

Lemma physical_of_valid s h :
  layout_wf s -> valid s h ->
  exists a, arena_for s h = Some a /\
    physical_of s h = Some (arena_base a + handle_page_index h * PAGE_SIZE).
Proof.
  intros Hwf Hv. pose proof Hv as (_ & _ & [a Ha]). exists a. split; [done|].
  unfold physical_of. rewrite Ha. by apply (page_to_physical_Some s).
Qed.

(** Which arena a physical address belongs to does not depend on the order of
    the search, since arenas do not overlap. *)
Lemma arena_for_physical_valid s h phys :
  layout_wf s -> valid s h -> physical_of s h = Some phys ->
  exists a, arena_for s h = Some a /\ arena_for_physical s phys = Some a /\
    physical_to_page a phys = Some h.
Proof.
  intros Hwf Hv Hphys. destruct (physical_of_valid s h Hwf Hv) as (a & Ha & Hp).
  rewrite Hphys in Hp. injection Hp as ->. exists a. split; [done|].
  apply valid_iff in Hv as (b & Hb & Hi & Hpi & Hfor); [|done].
  rewrite Ha in Hfor. injection Hfor as <-.
  assert (arena_wf (Z.to_nat (handle_arena_index h)) a) as Haw by (apply (lw_active _ Hwf); [done|lia]).
  assert (physical_to_page a (arena_base a + handle_page_index h * PAGE_SIZE) = Some h) as Hto.
  { eapply physical_to_page_Some; [done|]. split_and!; [lia..|done]. }
  split; [|done]. apply head_filter_unique; [|by eexists|].
  - apply list_elem_of_lookup. exists (Z.to_nat (handle_arena_index h)).
    by rewrite lookup_take_lt by lia.
  - intros b (j & Hj)%list_elem_of_lookup [h' Hb'].
    apply lookup_take_Some in Hj as [Hj Hlt].
    destruct (decide (j = Z.to_nat (handle_arena_index h))) as [->|Hne]; [congruence|].
    eapply physical_to_page_Some in Hb' as (_ & Hp' & Hphys'); [|apply (lw_active _ Hwf); [done|lia]].
    destruct (lw_apart _ Hwf _ _ _ _ Hj Hb Hne ltac:(lia) ltac:(lia)); unfold PAGE_SIZE in *; lia.
Qed.

Lemma free_physical_page_spec s l h phys :
  pmm_inv s l -> initialized s = true -> valid s h -> state_at s h = Some Allocated ->
  physical_of s h = Some phys ->
  wp (free_physical_page phys) (fun _ s' => pmm_inv s' (l ++ [h]) /\ frame s s' /\
    restated s s' [h] Free /\ remarked s s' [h] false) s.
Proof.
  intros Hinv Hinit Hv Hst Hphys. unfold free_physical_page, assert_initialized. wp_steps.
  rewrite Hinit. wp_steps. cbv [id].
  destruct (arena_for_physical_valid s h phys) as (a & _ & -> & ->); [apply Hinv|done..|].
  wp_steps. by apply free_page_spec.
Qed.
End Alloc.
