(* ===== verification/PmmInit.v ===== *)
(** * Initialisation of the page allocator

    [init] turns the hardware description into a manager that satisfies
    [pmm_inv].  This file follows its phases: the reservations, one arena per
    memory region with its metadata inside it, the marking of reserved pages
    and the construction of the free list. *)

From S2P Require Import Prelude Address HwInfo Pmm PmmReserved PmmFreeList PmmAlloc.
From stdpp Require Import base tactics option list list_numbers numbers gmap strings.

#[local] Open Scope Z_scope.
#[local] Open Scope kernel_scope.

(** ** Memory regions *)

Definition region_ok (r : MemoryRegion) : Prop := 0 <= region_base r /\ 0 <= region_size r.

(** Two regions do not share a byte. *)
Definition region_apart (r1 r2 : MemoryRegion) : Prop :=
  region_base r1 + region_size r1 <= region_base r2 \/
  region_base r2 + region_size r2 <= region_base r1.

Definition region_fits (r : MemoryRegion) : Prop := region_base r + region_size r < 2 ^ 64.

Lemma MemoryRegion_end_Some r e :
  MemoryRegion_end r = Some e <-> e = region_base r + region_size r /\ region_fits r.
Proof. apply checked_add_Some. Qed.

Lemma validate_against_Ok lft left_end rights u :
  left_end = region_base lft + region_size lft ->
  validate_against lft left_end rights = Ok u -> Forall (region_apart lft) rights.
Proof.
  intros ->. induction rights as [|r rights IH]; simpl; [by constructor|].
  destruct (MemoryRegion_end r) as [e|] eqn:He; [|done].
  apply MemoryRegion_end_Some in He as [-> _].
  destruct (ranges_overlap _ _ _ _) eqn:Hov; [done|]. intros Hok. constructor; [|by apply IH].
  unfold ranges_overlap in Hov. unfold region_apart. lia.
Qed.

Lemma validate_memory_regions_Ok regions u :
  validate_memory_regions regions = Ok u ->
  Forall region_fits regions /\ ForallOrdPairs region_apart regions.
Proof.
  induction regions as [|r regions IH]; simpl; [split; constructor|].
  destruct (MemoryRegion_end r) as [e|] eqn:He; [|done].
  apply MemoryRegion_end_Some in He as [-> Hfit].
  destruct (validate_against _ _ _) as [[]|] eqn:Hag; [|done]. intros [Hf Ho]%IH.
  split; [by constructor|]. constructor; [|done]. by eapply validate_against_Ok.
Qed.

Lemma ForallOrdPairs_middle {A} (R : A -> A -> Prop) pre x post :
  ForallOrdPairs R (pre ++ x :: post) -> Forall (fun y => R y x) pre.
Proof.
  induction pre as [|y pre IH]; simpl; [by constructor|]. inversion 1 as [|?? Hy Ho]; subst.
  constructor; [|by apply IH]. eapply Forall_elem; [done|]. set_solver.
Qed.

(** ** Reservations *)

(** [record_reserved] in a sequence of [?]: coverage only grows. *)
Lemma wp_reserve s start end_ Q :
  reserved_inv s -> 0 <= start -> is_usize end_ ->
  (forall e, Q (Err e) s) ->
  (forall s', same_but_reserved s s' -> reserved_inv s' ->
     (forall p, covered (active_ranges s') p <-> covered (active_ranges s) p \/ start <= p < end_) ->
     Q (Ok tt) s') ->
  wp (record_reserved start end_) Q s.
Proof.
  intros Hinv Hs He Herr Hok. eapply wp_mono; [by apply record_reserved_spec|].
  intros [[]|e] s' (Hsame & Hinv' & Hr); [by apply Hok|]. destruct Hr as (_ & -> & _). apply Herr.
Qed.

Section Init.
Context `{PageLayout}.
Implicit Types (s : Pmm) (h : PageHandle) (l : list PageHandle).

(** The physmap places physical address [p] at virtual address [p + off]. *)
Variable off : Z.

(** ** Arenas under construction *)

(** Some byte of page [p] of [a] is reserved. *)
Definition touched s (a : Arena) (p : Z) : Prop :=
  exists x, arena_base a + p * PAGE_SIZE <= x < arena_base a + (p + 1) * PAGE_SIZE /\
    covered (active_ranges s) x.

(** The metadata of [a] lies in the pages of [a] and is reserved. *)
Record metadata_placed s (a : Arena) : Prop := {
  mp_low : arena_base a + off <= storage_ptr (pages a);
  mp_high : storage_ptr (pages a) + page_count a * size_of_Page <=
            arena_base a + page_count a * PAGE_SIZE + off;
  mp_covered : forall x, storage_ptr (pages a) <= x < storage_ptr (pages a) + page_count a * size_of_Page ->
    covered (active_ranges s) (x - off);
}.

Definition inside (a : Arena) (r : MemoryRegion) : Prop :=
  region_base r <= arena_base a /\
  arena_base a + page_count a * PAGE_SIZE <= region_base r + region_size r.

(** A fresh page: free, or reserved because of a reserved byte in it. *)
Definition fresh_page s (i : Z) (a : Arena) (p : Z) (page : Page) : Prop :=
  page = Page_new i Free \/ page = Page_new i Reserved /\ touched s a p.

(** The arenas of the regions [regs] are in place. *)
Record building s (regs : list MemoryRegion) : Prop := {
  bd_reserved : reserved_inv s;
  bd_len : length (arenas s) = Z.to_nat MAX_MEMORY_ARENAS;
  bd_count : 0 <= arena_count s <= MAX_MEMORY_ARENAS;
  bd_active : forall i a, active s i a ->
    arena_wf (Z.to_nat i) a /\ metadata_placed s a /\ exists r, r ∈ regs /\ inside a r;
  bd_inactive : forall i a, arenas s !! i = Some a -> arena_count s <= Z.of_nat i -> a = Arena_EMPTY;
  bd_apart : forall i j a b, active s i a -> active s j b -> i <> j -> arenas_apart a b;
  bd_slots : forall i a p, active s i a -> 0 <= p < page_count a ->
    exists page, metadata s !! (storage_ptr (pages a) + p * size_of_Page) = Some page /\
      fresh_page s i a p page;
}.

(** Slots of different pages are different, since they are offset images of
    bytes of different arenas. *)
Lemma building_slot_inj s regs i j a b p q :
  building s regs -> active s i a -> active s j b ->
  0 <= p < page_count a -> 0 <= q < page_count b ->
  storage_ptr (pages a) + p * size_of_Page = storage_ptr (pages b) + q * size_of_Page ->
  i = j /\ p = q.
Proof.
  intros Hb Ha Hb' Hp Hq Heq. pose proof size_of_Page_pos as Hsz.
  destruct (bd_active _ _ Hb _ _ Ha) as (_ & [La Ha1 _] & _).
  destruct (bd_active _ _ Hb _ _ Hb') as (_ & [Lb Hb1 _] & _).
  destruct (decide (i = j)) as [->|Hne].
  - split; [done|]. destruct Ha as [Ha _], Hb' as [Hb' _]. simplify_eq. nia.
  - exfalso. assert (p * size_of_Page < page_count a * size_of_Page) by nia.
    assert (q * size_of_Page < page_count b * size_of_Page) by nia.
    assert (0 <= p * size_of_Page) by nia. assert (0 <= q * size_of_Page) by nia.
    destruct (bd_apart _ _ Hb _ _ _ _ Ha Hb' Hne); lia.
Qed.

Lemma valid_active s h :
  length (arenas s) = Z.to_nat MAX_MEMORY_ARENAS ->
  (forall i a, arenas s !! i = Some a -> arena_count s <= Z.of_nat i -> a = Arena_EMPTY) ->
  valid s h -> exists a, active s (handle_arena_index h) a /\
    0 <= handle_page_index h < page_count a /\ arena_for s h = Some a.
Proof.
  intros Hlen Hin (H0 & H1 & [a Ha]). exists a. pose proof Ha as Ha'. unfold arena_for in Ha'.
  destruct (arenas s !! Z.to_nat (handle_arena_index h)) as [b|] eqn:Hl; [|done].
  unfold contains_page in Ha'. destruct (_ && _) eqn:Hc; simplify_eq.
  destruct (decide (arena_count s <= handle_arena_index h)) as [Hge|Hlt].
  - apply Hin in Hl; [|lia]. subst a. simpl in Hc. lia.
  - split_and!; [split; [done|lia]|lia|lia|done].
Qed.

Lemma building_layout s regs : building s regs -> layout_wf s.
Proof.
  intros Hb. pose proof Hb as [Hres Hlen Hcount Hact Hinact Hap Hslots].
  assert (forall i a, arenas s !! i = Some a -> Z.of_nat i < arena_count s ->
    active s (Z.of_nat i) a) as Hmk by (intros; split; [by rewrite Nat2Z.id|lia]).
  split; [done..| |done| | |].
  - intros i a Ha Hi. destruct (Hact _ _ (Hmk i a Ha Hi)) as (Hw & _). by rewrite Nat2Z.id in Hw.
  - intros i j a b Ha Hb' Hne Hi Hj. apply (Hap (Z.of_nat i) (Z.of_nat j)); auto; lia.
  - intros h (a & Ha & Hp & Hfor)%valid_active; [|done..].
    unfold page_at, slot_of. rewrite Hfor, (arena_for_slot _ _ _ Hfor).
    destruct (Hslots _ _ _ Ha Hp) as (page & -> & _). by eexists.
  - intros [i p] [j q] (a & Ha & Hp & Hfor)%valid_active (b & Hb' & Hq & Hfor')%valid_active; [|done..].
    unfold slot_of. rewrite Hfor, Hfor', (arena_for_slot _ _ _ Hfor), (arena_for_slot _ _ _ Hfor').
    simpl in *. intros Heq. injection Heq as Heq.
    destruct (building_slot_inj s regs i j a b p q) as [-> ->]; done.
Qed.

(** Growing the set of reserved ranges keeps everything. *)
Lemma building_reserve s s' regs :
  building s regs -> same_but_reserved s s' -> reserved_inv s' ->
  (forall p, covered (active_ranges s) p -> covered (active_ranges s') p) -> building s' regs.
Proof.
  intros [Hres Hlen Hcount Hact Hinact Hap Hslots] (l & n & ->) Hres' Hgrow.
  split; try done.
  - intros i a Ha. destruct (Hact i a Ha) as (Hw & [] & Hr). split_and!; [done| |done].
    split; [done..|]. eauto.
  - intros i a p Ha Hp. destruct (Hslots i a p Ha Hp) as (page & Hpage & Hf). exists page.
    split; [done|]. destruct Hf as [?|[? (x & ? & ?)]]; [by left|right]. split; [done|].
    exists x. eauto.
Qed.

Lemma write_slots s ptr n (g : Z -> Page) :
  wp (for_each (range 0 n) (fun index => write_page (ptr + index * size_of_Page) (g index)))
    (fun _ s' => exists m, s' = set_metadata m s /\
      (forall k, 0 <= k < n -> m !! (ptr + k * size_of_Page) = Some (g k)) /\
      (forall x, (forall k, 0 <= k < n -> x <> ptr + k * size_of_Page) -> m !! x = metadata s !! x)) s.
Proof.
  pose proof size_of_Page_pos as Hsz.
  eapply wp_mono; [apply (wp_for_each (fun pre s' => exists m, s' = set_metadata m s /\
      (forall k, k ∈ pre -> m !! (ptr + k * size_of_Page) = Some (g k)) /\
      (forall x, (forall k, k ∈ pre -> x <> ptr + k * size_of_Page) -> m !! x = metadata s !! x)))|].
  - exists (metadata s). split; [by destruct s|]. split; [set_solver|done].
  - intros pre k post s1 Hsplit (m & -> & Hin & Hout). unfold write_page. wp_steps.
    exists (<[ptr + k * size_of_Page := g k]> m). split; [done|]. split.
    + intros k' [Hk| ->%list_elem_of_singleton]%elem_of_app.
      * destruct (decide (k' = k)) as [->|Hne]; [by rewrite lookup_insert_eq|].
        rewrite lookup_insert_ne by nia. by apply Hin.
      * by rewrite lookup_insert_eq.
    + intros x Hx. rewrite lookup_insert_ne by (intros <-; apply (Hx k); set_solver).
      apply Hout. intros k' Hk'. apply Hx. set_solver.
  - intros [] s' (m & -> & Hin & Hout). exists m. split; [done|]. split.
    + intros k Hk. by apply Hin, elem_of_range.
    + intros x Hx. apply Hout. intros k Hk%elem_of_range. by apply Hx.
Qed.

(** [x] is the virtual address of a byte of [a]. *)
Definition byte_of (a : Arena) (x : Z) : Prop :=
  arena_base a + off <= x < arena_base a + page_count a * PAGE_SIZE + off.

Lemma building_write s regs a m :
  building s regs -> (forall i b, active s i b -> arenas_apart b a) ->
  (forall x, ~ byte_of a x -> m !! x = metadata s !! x) -> building (set_metadata m s) regs.
Proof.
  intros [Hres Hlen Hcount Hact Hinact Hap Hslots] Hnew Hout.
  split; [destruct Hres; by split|done|done| |done|done|].
  - intros i b Hb. destruct (Hact i b Hb) as (? & [] & ?). split_and!; [done| |done]. by split.
  - intros i b p Hb Hp. destruct (Hslots i b p Hb Hp) as (page & Hpage & Hf). exists page.
    split; [|done]. simpl. rewrite Hout; [done|]. destruct (Hact i b Hb) as (_ & [Hlo Hhi _] & _).
    pose proof size_of_Page_pos. assert (p * size_of_Page < page_count b * size_of_Page) by nia.
    assert (0 <= p * size_of_Page) by nia. unfold byte_of. destruct (Hnew i b Hb); lia.
Qed.

Lemma building_extend s regs r a :
  building s regs -> arena_count s < MAX_MEMORY_ARENAS ->
  arena_wf (Z.to_nat (arena_count s)) a -> metadata_placed s a -> inside a r ->
  (forall i b, active s i b -> arenas_apart b a) ->
  (forall p, 0 <= p < page_count a ->
     exists page, metadata s !! (storage_ptr (pages a) + p * size_of_Page) = Some page /\
       fresh_page s (arena_count s) a p page) ->
  building (set_arenas (<[Z.to_nat (arena_count s) := a]> (arenas s)) (arena_count s + 1) s)
    (regs ++ [r]).
Proof.
  intros [Hres Hlen Hcount Hact Hinact Hap Hslots] Hroom Haw Hmp Hins Hnew Hfresh.
  set (s' := set_arenas _ _ s). set (n := arena_count s) in *.
  assert (forall i b, active s' i b -> i = n /\ b = a \/ active s i b) as Hcase.
  { intros i b [Hl Hi]. simpl in Hl, Hi. destruct (decide (i = n)) as [->|Hne].
    - left. rewrite list_lookup_insert_eq in Hl by (rewrite Hlen; lia). by simplify_eq.
    - right. rewrite list_lookup_insert_ne in Hl by lia. split; [done|]. fold n. lia. }
  split; simpl.
  - destruct Hres. by split.
  - by rewrite length_insert.
  - lia.
  - intros i b [[-> ->]|Hb]%Hcase.
    + split_and!; [done| |exists r; set_solver]. destruct Hmp. by split.
    + destruct (Hact i b Hb) as (? & [] & (r' & ? & ?)). split_and!; [done|by split|].
      exists r'. set_solver.
  - intros i b Hl Hi. rewrite list_lookup_insert_ne in Hl by lia. apply (Hinact i); [done|]. fold n. lia.
  - intros i j b c [[-> ->]|Hb]%Hcase [[-> ->]|Hc]%Hcase Hne; [done| | |by eapply Hap].
    + destruct (Hnew j c Hc); [by right|by left].
    + by apply (Hnew i b Hb).
  - intros i b p [[-> ->]|Hb]%Hcase Hp; [by apply Hfresh|by apply Hslots].
Qed.

(** The state [init_arena] leaves when it has placed the metadata of [a] in the
    pages [start .. start + count] of [a]. *)
Lemma building_place s s' m n regs r a start count :
  building s regs -> arena_count s < MAX_MEMORY_ARENAS ->
  (forall r', r' ∈ regs -> region_apart r' r) ->
  arena_wf (Z.to_nat (arena_count s)) a -> inside a r ->
  let first := arena_base a + start * PAGE_SIZE in
  0 <= start -> start + count <= page_count a ->
  storage_ptr (pages a) = first + off -> page_count a * size_of_Page <= count * PAGE_SIZE ->
  (forall k, 0 <= k < page_count a -> m !! (storage_ptr (pages a) + k * size_of_Page) =
     Some (Page_new (arena_count s) (if (start <=? k) && (k <? start + count) then Reserved else Free))) ->
  (forall x, (forall k, 0 <= k < page_count a -> x <> storage_ptr (pages a) + k * size_of_Page) ->
     m !! x = metadata s !! x) ->
  same_but_reserved (set_metadata m s) s' -> reserved_inv s' ->
  (forall p, covered (active_ranges s') p <->
     covered (active_ranges s) p \/ first <= p < first + count * PAGE_SIZE) ->
  building (set_arenas (<[Z.to_nat (arena_count s) := a]> (arenas s)) (arena_count s + 1)
              (set_total_pages n s')) (regs ++ [r]).
Proof.
  intros Hb Hroom Hreg Haw Hins first Hs Hc Hptr Hsz Hm Hout Hsame Hres Hcov.
  pose proof size_of_Page_pos as Hpos. pose proof (aw_count _ _ Haw) as Hpc.
  assert (forall i b, active s i b -> arenas_apart b a) as Hap.
  { intros i b Ha. destruct (bd_active _ _ Hb i b Ha) as (_ & _ & r' & Hr' & Hin').
    unfold inside, arenas_apart in *. destruct (Hreg r' Hr'); lia. }
  assert (building (set_metadata m s) regs) as Hbm.
  { eapply building_write; [done|exact Hap|]. intros x Hx. apply Hout. intros k Hk ->. apply Hx.
    unfold byte_of. rewrite Hptr. unfold first, PAGE_SIZE in *. nia. }
  assert (building s' regs) as Hbs.
  { eapply building_reserve; [exact Hbm|done..|]. intros p Hp. apply Hcov. by left. }
  assert (building (set_total_pages n s') regs) as Hbn.
  { destruct Hbs as [[] ? ? Hact ? ? ?]. split; [by split|done|done| |done..].
    intros i b Ha. destruct (Hact i b Ha) as (? & [] & ?). split_and!; [done|by split|done]. }
  destruct Hsame as (lr & nr & ->).
  apply (building_extend (set_total_pages n (set_reserved lr nr (set_metadata m s)))); try done.
  - split; rewrite Hptr; unfold first, PAGE_SIZE in *; [lia|nia|].
    intros x Hx. apply Hcov. right. lia.
  - intros p Hp. eexists. split; [by apply Hm|]. unfold fresh_page.
    destruct ((start <=? p) && (p <? start + count)) eqn:Hin; [right|by left].
    split; [done|]. exists (arena_base a + p * PAGE_SIZE). unfold PAGE_SIZE in *. split; [lia|].
    apply Hcov. right. unfold first. lia.
Qed.

(** What adding one region does. *)
Definition added s regs r (res : Result (option Arena) InitError) s' : Prop :=
  initialized s' = initialized s /\
  match res with
  | Err _ => True
  | Ok None => s' = s
  | Ok (Some a) => arena_count s' = arena_count s /\ arenas s' = arenas s /\
      building (set_arenas (<[Z.to_nat (arena_count s) := a]> (arenas s)) (arena_count s + 1) s')
        (regs ++ [r]) /\
      forall p, covered (active_ranges s) p -> covered (active_ranges s') p
  end.

Lemma init_arena_spec s regs r p2v :
  building s regs -> arena_count s < MAX_MEMORY_ARENAS ->
  region_ok r -> region_fits r -> (forall r', r' ∈ regs -> region_apart r' r) ->
  (forall p, region_base r <= p < region_base r + region_size r -> p2v p = p + off) ->
  wp (init_arena r (arena_count s) p2v) (added s regs r) s.
Proof.
  intros Hb Hroom [Hr0 Hr1] Hfit Hreg Hp2v. pose proof size_of_Page_pos as Hpos.
  unfold region_fits in Hfit. unfold init_arena.
  destruct (PhysicalAddress_align_up (region_base r)) as [ab|] eqn:Hab; [|wp_step; done].
  apply align_up_Some in Hab as (Hal & Hab & Hab'); [|unfold is_uint; lia].
  rewrite (proj2 (MemoryRegion_end_Some r _) (conj eq_refl Hfit)).
  set (re := region_base r + region_size r) in *.
  destruct (Z.leb_spec re ab) as [Hle|Hlt]; [wp_step; done|].
  destruct (align_down_bounds re) as (Hae & Hae' & Hae''); [unfold is_uint, re; lia|].
  set (ae := PhysicalAddress_align_down re) in *.
  wp_step. apply wp_sub_uint; [unfold PAGE_SIZE in *; divlia|].
  assert (ab + (ae - ab) / PAGE_SIZE * PAGE_SIZE = ae) as Htot by (unfold PAGE_SIZE in *; divlia).
  set (total := (ae - ab) / PAGE_SIZE) in *.
  assert (0 <= total) as Ht0 by (unfold total, PAGE_SIZE in *; divlia).
  destruct (Z.eqb_spec total 0) as [|Ht]; [wp_step; done|].
  destruct (Z.ltb_spec u32_MAX total) as [|Ht32]; [wp_step; done|].
  destruct (checked_mul 64 total size_of_Page) as [bytes|] eqn:Hbytes; [|wp_step; done].
  apply checked_mul_Some in Hbytes as [-> Hbytes].
  destruct (proj1 (div_ceil_spec (total * size_of_Page) PAGE_SIZE _ ltac:(done)) eq_refl) as [Hm1 Hm2].
  set (mpages := div_ceil (total * size_of_Page) PAGE_SIZE) in *.
  destruct (Z.leb_spec total mpages) as [|Hmp]; [wp_step; done|].
  assert (0 < mpages) as Hmp0 by (unfold PAGE_SIZE in *; nia).
  wp_step. eapply wp_mono; [apply (find_metadata_range_spec s ab total mpages)|].
  { apply Hb. } { unfold is_uint. lia. } { done. } { lia. } { lia. }
  intros [[c|]|e] s1 [-> Hfound]; [|wp_step; done..].
  destruct Hfound as (_ & _ & (Hcal & Hc1 & Hc2 & _) & _).
  assert (c = ab + (c - ab) / PAGE_SIZE * PAGE_SIZE) as Hstart by (unfold PAGE_SIZE in *; divlia).
  set (start := (c - ab) / PAGE_SIZE) in *.
  assert (0 <= start /\ start + mpages <= total) as [Hs0 Hs1] by (unfold PAGE_SIZE in *; lia).
  rewrite Hp2v by (unfold PAGE_SIZE in *; lia).
  destruct (Z.eqb_spec (c + off) 0) as [|_]; [wp_step; done|].
  unfold u32_MAX in Ht32. wp_step. apply wp_sub_uint; [lia|]. fold start. wp_step.
  apply wp_add_uint; [lia|]. wp_step. eapply wp_mono; [apply (write_slots s (c + off) total)|].
  intros [] s1 (m & -> & Hin & Hout). wp_step. apply wp_mul_uint; [unfold PAGE_SIZE in *; lia|].
  assert (c + mpages * PAGE_SIZE < 2 ^ 64) as Hend by lia.
  unfold PhysicalAddress_checked_add.
  rewrite (proj2 (checked_add_Some 64 c (mpages * PAGE_SIZE) _) (conj eq_refl Hend)).
  wp_step. apply wp_reserve; [|lia|unfold is_uint, PAGE_SIZE in *; lia|intros e; wp_step; done|].
  { destruct (bd_reserved _ _ Hb). by split. }
  intros s2 Hsame Hres Hcov. wp_step. apply wp_sub_uint; [lia|]. wp_steps.
  pose proof Hsame as (lr & nr & Hs2).
  assert (initialized s2 = initialized s) as Hinit by (by rewrite Hs2).
  destruct (checked_add 64 (total_pages s2) (total - mpages)) as [n|]; [|wp_step; done].
  wp_steps. split; [done|]. split_and!; [by rewrite Hs2..| |].
  - eapply building_place with (m := m) (start := start) (count := mpages); try done; simpl.
    + pose proof (bd_count _ _ Hb). split; simpl; unfold u32_MAX; try done; lia.
    + unfold inside. simpl. lia.
    + lia.
    + intros p. rewrite <-Hstart. apply Hcov.
  - intros p Hp. apply Hcov. by left.
Qed.

Definition grows s s' : Prop :=
  forall p, covered (active_ranges s) p -> covered (active_ranges s') p.

Lemma building_more s regs regs' :
  (forall r, r ∈ regs -> r ∈ regs') -> building s regs -> building s regs'.
Proof.
  intros Hsub [? ? ? Hact ? ? ?]. split; try done. intros i a Ha.
  destruct (Hact i a Ha) as (? & ? & r & ? & ?). split_and!; [done..|]. eauto.
Qed.

Lemma add_region_spec s regs r p2v :
  building s regs -> region_ok r -> region_fits r -> (forall r', r' ∈ regs -> region_apart r' r) ->
  (forall p, region_base r <= p < region_base r + region_size r -> p2v p = p + off) ->
  wp (add_region p2v r) (fun c s' => initialized s' = initialized s /\
    match c with
    | Continue _ => building s' (regs ++ [r]) /\ grows s s'
    | Return None => s' = s
    | Return (Some _) => True
    end) s.
Proof.
  intros Hb Hok Hfit Hreg Hp2v. pose proof Hb as [_ Hlen Hcount _ _ _ _].
  unfold add_region. wp_steps. rewrite Hlen.
  destruct (Z.leb_spec (Z.of_nat (Z.to_nat MAX_MEMORY_ARENAS)) (arena_count s)) as [|Hlt]; [by wp_step|].
  unfold MAX_MEMORY_ARENAS in *. wp_step.
  replace (cast_uint 8 (arena_count s)) with (arena_count s)
    by (symmetry; apply Z.mod_small; lia).
  eapply wp_mono; [apply (init_arena_spec s regs r p2v); auto; lia|].
  intros [[a|]|e] s' [Hi Hadd]; [|subst s'; wp_step; split; [done|]|by wp_step].
  - destruct Hadd as (Hc & Ha & Hb' & Hg). wp_steps. unfold array_set. rewrite Hc, Ha, Hlen.
    rewrite (proj2 (Z.ltb_lt _ _)) by lia. wp_steps. apply wp_add_uint; [lia|]. by wp_steps.
  - split; [|by intros p]. eapply building_more; [|done]. set_solver.
Qed.

Lemma init_arenas_spec s regions p2v :
  building s [] -> Forall region_ok regions -> Forall region_fits regions ->
  ForallOrdPairs region_apart regions ->
  (forall r p, r ∈ regions -> region_base r <= p < region_base r + region_size r -> p2v p = p + off) ->
  wp (init_arenas p2v regions) (fun c s' => initialized s' = initialized s /\
    match c with
    | Return (Some _) => True
    | _ => building s' regions /\ grows s s'
    end) s.
Proof.
  intros Hb Hok Hfit Hap Hp2v. unfold init_arenas. eapply wp_mono.
  { apply (wp_for_loop
      (fun pre (_ : unit) s' => initialized s' = initialized s /\ building s' pre /\ grows s s')
      (fun r s' => initialized s' = initialized s /\
         (r = None -> building s' regions /\ grows s s'))).
    - split_and!; [done..|by intros p].
    - intros pre r post [] s1 -> (Hi & Hb1 & Hg1).
      pose proof (ForallOrdPairs_middle _ _ _ _ Hap) as Hpre.
      eapply wp_mono; [apply (add_region_spec s1 pre r p2v); try done|].
      + eapply Forall_elem; [exact Hok|set_solver].
      + eapply Forall_elem; [exact Hfit|set_solver].
      + intros r' Hr'. by apply (Forall_elem _ _ _ Hpre).
      + intros p. apply Hp2v. set_solver.
      + intros [[]|[e|]] s2 [Hi2 H2]; (split; [congruence|]).
        * destruct H2 as [Hb2 Hg2]. split; [done|]. intros p Hp. by apply Hg2, Hg1.
        * done.
        * subst s2. intros _. split; [|done]. eapply building_more; [|done]. set_solver. }
  intros [[]|[e|]] s' Hr; [exact Hr|by destruct Hr|destruct Hr; auto].
Qed.

(** ** Marking *)

(** From [s] to [s'], the pages [P] became reserved; no page changed otherwise. *)
Record marked s s' (P : PageHandle -> Prop) : Prop := {
  mk_frame : frame s s';
  mk_heads : forall h, valid s h -> head_at s' h = head_at s h;
  mk_state : forall h, valid s h ->
    P h /\ state_at s' h = Some Reserved \/ ~ P h /\ state_at s' h = state_at s h;
}.

Lemma marked_trans s1 s2 s3 P Q :
  marked s1 s2 P -> marked s2 s3 Q -> marked s1 s3 (fun h => P h \/ Q h).
Proof.
  intros [F1 H1 S1] [F2 H2 S2].
  assert (forall h, valid s2 h <-> valid s1 h) as V by (intros; apply same_arenas_valid, F1).
  split; [by etrans|..]; intros h Hv.
  - rewrite H2 by (by apply V). by apply H1.
  - destruct (S2 h) as [[? ?]|[? ->]]; [by apply V|by auto|].
    destruct (S1 h Hv) as [[? ?]|[? ?]]; [by auto|]. right. split; [tauto|done].
Qed.

Lemma marked_iff s s' P Q :
  (forall h, valid s h -> P h <-> Q h) -> marked s s' P -> marked s s' Q.
Proof.
  intros Hiff [F Hh Hs]. split; [done..|]. intros h Hv. specialize (Hs h Hv).
  rewrite (Hiff h Hv) in Hs. done.
Qed.

Lemma marked_layout s s' P : marked s s' P -> layout_wf s -> layout_wf s'.
Proof.
  intros [F Hh Hs] Hwf. apply (layout_wf_ext s); [apply F| |done]. intros h Hv.
  specialize (Hh h Hv). destruct (lw_slots _ Hwf h Hv) as [p Hp].
  unfold head_at in Hh. rewrite Hp in Hh. destruct (page_at s' h); [by eexists|done].
Qed.

Lemma marked_refl s P : (forall h, valid s h -> ~ P h) -> marked s s P.
Proof. intros HP. split; [done..|]. intros h Hv. right. split; [by apply HP|done]. Qed.

(** The rule of a loop that marks. *)
Lemma wp_mark_loop {A} (xs : list A) (f : A -> M Pmm unit) (P : A -> PageHandle -> Prop) s0 :
  layout_wf s0 ->
  (forall x s, x ∈ xs -> layout_wf s -> frame s0 s -> wp (f x) (fun _ s' => marked s s' (P x)) s) ->
  wp (for_each xs f) (fun _ s' => marked s0 s' (fun h => exists x, x ∈ xs /\ P x h)) s0.
Proof.
  intros Hwf Hf. apply (wp_for_each (fun pre s' => marked s0 s' (fun h => exists x, x ∈ pre /\ P x h))).
  - apply marked_refl. intros h _ (x & Hx & _). set_solver.
  - intros pre x post s -> Hm. eapply wp_mono.
    { apply Hf; [set_solver|by eapply marked_layout|apply Hm]. }
    intros [] s' Hm'. eapply marked_iff; [|by eapply marked_trans]. intros h _. simpl. split.
    + intros [(y & ? & ?)|?]; [exists y|exists x]; set_solver.
    + intros (y & [?| ->%list_elem_of_singleton]%elem_of_app & ?); [left|by right]. eauto.
Qed.

(** Range [r] has a byte in page [p] of [a]. *)
Definition hits (r : ReservedRange) (a : Arena) (p : Z) : Prop :=
  range_start r < arena_base a + (p + 1) * PAGE_SIZE /\ arena_base a + p * PAGE_SIZE < range_end r.

Lemma mark_page_spec s i a p :
  layout_wf s -> active s i a -> 0 <= p < page_count a ->
  wp (mark_page a p) (fun _ s' => marked s s' (fun h => h = PageHandle_new i p)) s.
Proof.
  intros Hwf Ha Hp. unfold mark_page.
  rewrite (active_index s i a), (active_cast s i a p) by done. simpl.
  destruct (active_page s i a p) as (Hv & slot & Hs & Hslot); [done..|]. rewrite Hs.
  eapply wp_update_page; [done..|]. split; [apply frame_edit|..]; intros h Hh.
  - by apply head_at_edit.
  - rewrite state_at_edit by done. case_decide; auto.
Qed.

Lemma mark_arena_spec s r i a :
  layout_wf s -> active s i a -> range_wf r ->
  wp (mark_arena r i) (fun _ s' => marked s s' (fun h =>
    handle_arena_index h = i /\ hits r a (handle_page_index h))) s.
Proof.
  intros Hwf Ha (Hr0 & Hr1 & Hr2). pose proof (active_wf s i a Hwf Ha) as [Hidx _ Hcount Hal Hb He].
  assert (forall h, valid s h -> handle_arena_index h = i -> 0 <= handle_page_index h < page_count a) as Hbd.
  { intros h Hv Hi. apply valid_iff in Hv as (b & Hl & _ & Hp & _); [|done].
    rewrite Hi in Hl. destruct Ha as [Hl' _]. by simplify_eq. }
  unfold mark_arena. wp_steps. eapply wp_expect; [apply Ha|]. wp_step. unfold u32_MAX in Hcount.
  apply wp_mul_uint; [unfold PAGE_SIZE in *; lia|]. unfold PhysicalAddress_checked_add.
  rewrite (proj2 (checked_add_Some 64 _ _ _) (conj eq_refl He)).
  set (last := arena_base a + page_count a * PAGE_SIZE) in *.
  destruct (Z.leb_spec (range_end r) (arena_base a)) as [Hle|Hlt]; simpl;
    [|destruct (Z.leb_spec last (range_start r)) as [Hle|Hlt2]; simpl].
  1,2: wp_step; apply marked_refl; intros h Hv [Hi Hh]; specialize (Hbd h Hv Hi);
       subst last; unfold hits, PAGE_SIZE in *; lia.
  assert (arena_base a <= last) by (unfold last, PAGE_SIZE; lia).
  wp_step. apply wp_sub_uint; [lia|]. wp_step. apply wp_sub_uint; [lia|].
  set (first := (_ - arena_base a) / PAGE_SIZE). set (stop := Z.min _ _).
  assert (forall p, 0 <= p < page_count a -> first <= p < stop <-> hits r a p) as Hiff.
  { intros p Hp. unfold first, stop, hits, div_ceil, last, PAGE_SIZE in *.
    split; intros; Z.to_euclidean_division_equations; lia. }
  assert (0 <= first) as Hf0 by (apply Z.div_pos; [lia|done]).
  eapply wp_mono.
  { apply (wp_mark_loop _ _ (fun p h => h = PageHandle_new i p)); [done|].
    intros p s1 Hp%elem_of_range Hwf1 Hf1. apply mark_page_spec; [done| |].
    - eapply active_same; [apply Hf1|done].
    - unfold stop in Hp. lia. }
  intros [] s' Hm. eapply marked_iff; [|exact Hm]. intros h Hv. simpl. split.
  - intros (p & Hp%elem_of_range & ->). split; [done|]. apply Hiff; [unfold stop in Hp; simpl; lia|done].
  - intros [Hi Hh]. exists (handle_page_index h). rewrite elem_of_range. split; [|by destruct h; simpl in *; subst].
    apply Hiff; [by apply Hbd|done].
Qed.

(** The page of handle [h] has a byte in range [r]. *)
Definition page_hits s (r : ReservedRange) h : Prop :=
  exists a, active s (handle_arena_index h) a /\ hits r a (handle_page_index h).

Lemma mark_range_spec s k r :
  layout_wf s -> reserved_ranges s !! Z.to_nat k = Some r -> range_wf r ->
  wp (mark_range k) (fun _ s' => marked s s' (page_hits s r)) s.
Proof.
  intros Hwf Hr Hrw. unfold mark_range. wp_steps. eapply wp_expect; [done|]. wp_steps.
  pose proof (lw_len _ Hwf) as Hlen. pose proof (lw_count _ Hwf) as Hcount.
  eapply wp_mono.
  { apply (wp_mark_loop _ _ (fun i h => handle_arena_index h = i /\ page_hits s r h)); [done|].
    intros i s1 Hi%elem_of_range Hwf1 Hf1.
    destruct (lookup_lt_is_Some_2 (arenas s) (Z.to_nat i)) as [a Ha]; [rewrite Hlen; lia|].
    assert (active s i a) as Hact by (by split).
    eapply wp_mono; [by apply (mark_arena_spec s1 r i a); [|eapply active_same; [apply Hf1|]|]|].
    intros [] s2 Hm. eapply marked_iff; [|exact Hm]. intros h Hv. simpl. split.
    - intros [<- Hh]. split; [done|]. by exists a.
    - intros [<- (b & [Hb _] & Hh)]. destruct Hact as [Ha' _]. by simplify_eq. }
  intros [] s' Hm. eapply marked_iff; [|exact Hm]. intros h Hv. simpl. split.
  - by intros (? & _ & _ & ?).
  - intros Hh. exists (handle_arena_index h). rewrite elem_of_range.
    destruct Hh as (a & Ha & Hh). split; [apply Ha|]. split; [done|]. by exists a.
Qed.

Lemma mark_reserved_ranges_spec s :
  layout_wf s -> reserved_inv s ->
  wp mark_reserved_ranges (fun _ s' => marked s s' (fun h =>
    exists r, r ∈ active_ranges s /\ page_hits s r h)) s.
Proof.
  intros Hwf [Hlen Hb Hrw]. unfold mark_reserved_ranges. wp_steps.
  assert (forall k r, 0 <= k < reserved_count s -> reserved_ranges s !! Z.to_nat k = Some r ->
    r ∈ active_ranges s) as Hel.
  { intros k r Hk Hr. apply list_elem_of_lookup. exists (Z.to_nat k). unfold active_ranges.
    by rewrite lookup_take_lt by lia. }
  eapply wp_mono.
  { apply (wp_mark_loop _ _ (fun k h =>
      exists r, reserved_ranges s !! Z.to_nat k = Some r /\ page_hits s r h)); [done|].
    intros k s1 Hk%elem_of_range Hwf1 Hf1.
    destruct (lookup_lt_is_Some_2 (reserved_ranges s) (Z.to_nat k)) as [r Hr]; [rewrite Hlen; lia|].
    eapply wp_mono; [apply (mark_range_spec s1 k r); [done|by rewrite (fr_ranges _ _ Hf1)|]|].
    { eapply ranges_each; [done|]. by eapply Hel. }
    intros [] s2 Hm. eapply marked_iff; [|exact Hm]. intros h Hv. unfold page_hits. simpl. split.
    - intros (a & Ha & Hh). exists r. split; [done|]. exists a. split; [|done].
      destruct Hf1 as [[Harr Hcnt] _ _ _ _]. destruct Ha. split; congruence.
    - intros (r' & Hr' & a & Ha & Hh). simplify_eq. exists a. split; [|done].
      by eapply active_same; [apply Hf1|]. }
  intros [] s' Hm. eapply marked_iff; [|exact Hm]. intros h Hv. simpl. split.
  - intros (k & Hk%elem_of_range & r & Hr & Hh). exists r. split; [by eapply Hel|done].
  - intros (r & (k & Hk)%list_elem_of_lookup & Hh). unfold active_ranges in Hk.
    apply lookup_take_Some in Hk as [Hk Hlt]. exists (Z.of_nat k). rewrite elem_of_range, Nat2Z.id.
    split; [lia|]. by exists r.
Qed.

(** ** The free list *)

(** [build_free_list] links the page [h]. *)
Definition usable s h : Prop :=
  state_at s h <> Some Reserved /\
  is_reserved s (default PhysicalAddress_ZERO (physical_of s h)) = false.

#[local] Instance usable_dec s h : Decision (usable s h).
Proof. unfold usable. apply _. Defined.

(** The pages [pre] have been visited. *)
Record visited s0 (pre : list PageHandle) s : Prop := {
  vs_frame : frame s0 s;
  vs_layout : layout_wf s;
  vs_list : free_list s (filter (usable s0) pre);
  vs_count : free_pages s = Z.of_nat (length (filter (usable s0) pre));
  vs_heads : forall h, valid s0 h -> head_at s h = head_at s0 h;
  vs_state : forall h, valid s0 h -> state_at s h =
    if decide (h ∈ pre) then Some (if decide (usable s0 h) then Free else Reserved) else state_at s0 h;
}.

Lemma filter_snoc {A} (P : A -> Prop) `{!forall x, Decision (P x)} (xs : list A) x :
  filter P (xs ++ [x]) = filter P xs ++ (if decide (P x) then [x] else []).
Proof. rewrite filter_app, filter_cons. by destruct (decide (P x)). Qed.

(** A visit that leaves the list alone. *)
Lemma visited_skip s0 pre s s' h :
  visited s0 pre s -> ~ usable s0 h -> frame s0 s' -> layout_wf s' ->
  free_list s' (filter (usable s0) pre) -> free_pages s' = free_pages s ->
  (forall x, valid s0 x -> head_at s' x = head_at s x) ->
  (forall x, valid s0 x -> state_at s' x = if decide (x = h) then Some Reserved else state_at s x) ->
  visited s0 (pre ++ [h]) s'.
Proof.
  intros [Hf Hwf Hl Hn Hh Hs] Hu Hf' Hwf' Hl' Hn' Hh' Hs'.
  split; rewrite ?filter_snoc, ?(decide_False (P := usable s0 h)), ?app_nil_r by done; try done.
  - congruence.
  - intros x Hx. rewrite Hh' by done. by apply Hh.
  - intros x Hx. rewrite Hs', Hs by done. destruct (decide (x = h)) as [->|Hne].
    + rewrite decide_True by set_solver. by rewrite decide_False.
    + destruct (decide (x ∈ pre)), (decide (x ∈ pre ++ [h])); set_solver.
Qed.

Lemma frame_is_reserved s s' p : frame s s' -> is_reserved s' p = is_reserved s p.
Proof. intros [_ Hr Hc _ _]. unfold is_reserved, active_ranges. by rewrite Hr, Hc. Qed.

Lemma visited_push s0 pre s s1 h :
  visited s0 pre s -> usable s0 h -> valid s0 h -> h ∉ pre ->
  links_only (edit h (set_state Free) s) s1 ->
  free_list s1 (filter (usable s0) pre ++ [h]) ->
  visited s0 (pre ++ [h]) (set_free_pages (free_pages s1 + 1) s1).
Proof.
  intros [Hf Hwf Hl Hn Hh Hs] Hu Hv Hnin Hlo Hl1. set (sa := edit h (set_state Free) s) in *.
  assert (forall x, valid s x <-> valid s0 x) as V by (intros; apply same_arenas_valid, Hf).
  assert (forall x, valid sa x <-> valid s0 x) as Va
    by (intros; etrans; [apply same_arenas_valid, edit_same|apply V]).
  assert (layout_wf sa) as Hwfa by (apply layout_wf_edit; [done|left; by apply V]).
  assert (layout_wf s1) as Hwf1 by (by eapply links_only_wf).
  split; rewrite ?filter_snoc, ?(decide_True (P := usable s0 h)) by done.
  - etrans; [exact Hf|]. etrans; [apply frame_edit|]. etrans; [apply Hlo|apply frame_count].
  - destruct Hwf1. by split.
  - destruct Hl1. by split.
  - simpl. rewrite (lo_free _ _ Hlo), length_app. simpl.
    assert (free_pages sa = free_pages s) by (unfold sa, edit; by case_match). lia.
  - intros x Hx. etrans; [apply (lo_head _ _ Hlo); by apply Va|]. unfold sa.
    rewrite head_at_edit by (done || by apply V). by apply Hh.
  - intros x Hx. etrans; [apply (lo_state _ _ Hlo); by apply Va|]. unfold sa.
    rewrite state_at_edit, Hs by (done || by apply V). destruct (decide (x = h)) as [->|Hne].
    + rewrite decide_True by set_solver. by rewrite decide_True.
    + destruct (decide (x ∈ pre)), (decide (x ∈ pre ++ [h])); set_solver.
Qed.

Lemma build_page_spec s0 pre s i a p :
  layout_wf s0 -> active s0 i a -> 0 <= p < page_count a -> PageHandle_new i p ∉ pre ->
  Forall (valid s0) pre -> NoDup pre -> visited s0 pre s ->
  wp (build_page a p) (fun _ s' => visited s0 (pre ++ [PageHandle_new i p]) s') s.
Proof.
  intros Hwf0 Ha Hp Hnin Hval Hnd Hvis. pose proof Hvis as [Hf Hwf Hl Hn Hh Hs].
  unfold build_page. rewrite (active_index s0 i a), (active_cast s0 i a p) by done. simpl.
  assert (forall x, valid s x <-> valid s0 x) as V by (intros; apply same_arenas_valid, Hf).
  destruct (active_page s0 i a p) as (Hv & slot & Hsl & Hslot); [done..|].
  set (h := PageHandle_new i p) in *. rewrite Hsl. wp_step.
  assert (slot_of s h = Some slot) as Hslot' by (by rewrite (same_arenas_slot_of s0) by apply Hf).
  destruct (lw_slots _ Hwf h) as [pg Hpg]; [by apply V|]. eapply wp_load_page; [done..|].
  assert (state_at s0 h = Some (state pg)) as Hst.
  { rewrite <-(decide_False (P := h ∈ pre) (Some (if decide (usable s0 h) then Free else Reserved)) _)
      by done. rewrite <-Hs by done. unfold state_at. by rewrite Hpg. }
  assert (physical_of s0 h = page_to_physical a h) as Hph.
  { destruct (physical_of_valid s0 h) as (b & Hb & Hb'); [done..|].
    apply valid_iff in Hv as (b' & Hl' & _ & _ & Hfor); [|done]. unfold physical_of. rewrite Hfor.
    destruct Ha as [Ha _]. simpl in Hl'. congruence. }
  case_bool_decide as Hr.
  { wp_step. apply (visited_skip s0 pre s); try done; [intros [? _]; congruence|].
    intros x Hx. destruct (decide (x = h)) as [->|]; [|done]. unfold state_at. rewrite Hpg. simpl. congruence. }
  wp_steps. change (id s) with s. rewrite (frame_is_reserved s0 s), <-Hph by done.
  destruct (is_reserved s0 _) eqn:Hres.
  - eapply (wp_update_page _ h); [done|by apply V|done|].
    apply (visited_skip s0 pre s); try done.
    + intros [_ ?]. congruence.
    + etrans; [exact Hf|apply frame_edit].
    + apply layout_wf_edit; [done|left; by apply V].
    + apply free_list_edit; [done|by apply V|done..].
    + unfold edit. by case_match.
    + intros x Hx. apply head_at_edit; [done|by apply V..|done].
    + intros x Hx. by rewrite state_at_edit by (done || by apply V).
  - assert (usable s0 h) as Hu by (split; [congruence|done]).
    wp_step. eapply (wp_update_page _ h); [done|by apply V|done|]. wp_step.
    eapply wp_mono; [apply (push_free_spec _ (filter (usable s0) pre))|].
    + apply layout_wf_edit; [done|left; by apply V].
    + apply free_list_edit; [done|by apply V|done..].
    + eapply same_arenas_valid; [apply edit_same|by apply V].
    + intros [_ ?]%list_elem_of_filter. done.
    + intros [] s1 [Hlo Hl1]. wp_steps.
      assert (Z.of_nat (length (filter (usable s0) pre)) <= 2 ^ 34) as Hlen.
      { apply (valid_list_length s0); [done|by apply NoDup_filter|].
        apply Forall_forall. intros x [_ Hx]%list_elem_of_filter. by eapply Forall_elem. }
      assert (free_pages s1 = free_pages s) as Hfp
        by (rewrite (lo_free _ _ Hlo); unfold edit; by case_match).
      apply wp_add_uint; [lia|]. wp_step. by apply (visited_push s0 pre s).
Qed.

(** The pages of arena [i], and of the arenas before [n], in order. *)
Definition pages_of s (i : Z) : list PageHandle :=
  match arenas s !! Z.to_nat i with Some a => handles i 0 (page_count a) | None => [] end.
Definition pages_before s (n : Z) : list PageHandle := mjoin (pages_of s <$> range 0 n).

Lemma pages_before_S s n : 0 <= n -> pages_before s (n + 1) = pages_before s n ++ pages_of s n.
Proof.
  intros Hn. unfold pages_before. rewrite range_snoc, fmap_app, join_app by lia. simpl.
  by rewrite app_nil_r.
Qed.

Lemma elem_of_pages_before s n h :
  h ∈ pages_before s n <-> 0 <= handle_arena_index h < n /\
    exists a, arenas s !! Z.to_nat (handle_arena_index h) = Some a /\
      0 <= handle_page_index h < page_count a.
Proof.
  unfold pages_before. rewrite list_elem_of_join. split.
  - intros (l & Hh & (i & -> & Hi%elem_of_range)%list_elem_of_fmap). unfold pages_of in Hh.
    destruct (arenas s !! Z.to_nat i) as [a|] eqn:Ha; [|set_solver].
    apply elem_of_handles in Hh as [<- Hh]. split; [done|]. by exists a.
  - intros [Hi (a & Ha & Hp)]. exists (pages_of s (handle_arena_index h)). split.
    + unfold pages_of. rewrite Ha. by apply elem_of_handles.
    + apply list_elem_of_fmap. eexists. split; [done|]. by apply elem_of_range.
Qed.

Lemma pages_before_valid s n :
  layout_wf s -> n <= arena_count s -> Forall (valid s) (pages_before s n).
Proof.
  intros Hwf Hn. apply Forall_forall. intros h (Hi & a & Ha & Hp)%elem_of_pages_before.
  apply valid_iff; [done|]. exists a. split_and!; [done|lia..|]. apply arena_for_page; auto; lia.
Qed.

Lemma pages_before_complete s h : layout_wf s -> valid s h -> h ∈ pages_before s (arena_count s).
Proof.
  intros Hwf (a & Ha & Hi & Hp & _)%valid_iff; [|done]. apply elem_of_pages_before.
  split; [done|]. by exists a.
Qed.

Lemma NoDup_pages_before s (n : nat) : NoDup (pages_before s (Z.of_nat n)).
Proof.
  induction n as [|n IH]; [constructor|].
  replace (Z.of_nat (S n)) with (Z.of_nat n + 1) by lia. rewrite pages_before_S by lia.
  apply NoDup_app. split_and!; [done| |].
  - intros h (Hi & _)%elem_of_pages_before. unfold pages_of. case_match; [|set_solver].
    rewrite elem_of_handles. lia.
  - unfold pages_of. case_match; [apply NoDup_handles|constructor].
Qed.

Lemma build_arena_spec s0 s i a :
  layout_wf s0 -> active s0 i a -> visited s0 (pages_before s0 i) s ->
  wp (build_arena i) (fun _ s' => visited s0 (pages_before s0 (i + 1)) s') s.
Proof.
  intros Hwf0 Ha Hvis. pose proof Ha as [Hl Hi]. unfold build_arena. wp_steps.
  destruct (vs_frame _ _ _ Hvis) as [[Harr _] _ _ _ _]. rewrite Harr. eapply wp_expect; [done|].
  pose proof (pages_before_valid s0 i Hwf0 ltac:(lia)) as Hval.
  pose proof (NoDup_pages_before s0 (Z.to_nat i)) as Hnd. rewrite Z2Nat.id in Hnd by lia.
  rewrite pages_before_S by lia. unfold pages_of. rewrite Hl.
  apply (wp_for_each (fun pre s' => visited s0 (pages_before s0 i ++ (PageHandle_new i <$> pre)) s')).
  - simpl. by rewrite app_nil_r.
  - intros pre p post s1 Hsplit Hv1. apply range_split in Hsplit as [-> Hp].
    rewrite fmap_app, app_assoc. fold (handles i 0 p) in *.
    apply build_page_spec; try done.
    + rewrite elem_of_app, elem_of_pages_before, elem_of_handles. simpl. lia.
    + apply Forall_app. split; [done|]. apply Forall_forall. intros h [Hhi Hhp]%elem_of_handles.
      destruct h as [hi hp]. simpl in *. subst hi. apply (active_page s0 i a hp); [done..|lia].
    + apply NoDup_app. split_and!; [done| |apply NoDup_handles].
      intros h (? & _)%elem_of_pages_before. rewrite elem_of_handles. lia.
Qed.

Lemma build_free_list_spec s :
  layout_wf s ->
  wp build_free_list (fun _ s' => exists s0,
    s0 = set_free_pages 0 (set_free_tail PageHandle_NONE (set_free_head PageHandle_NONE s)) /\
    visited s0 (pages_before s (arena_count s)) s') s.
Proof.
  intros Hwf. unfold build_free_list. wp_steps. set (s0 := set_free_pages 0 _).
  assert (layout_wf s0) as Hwf0 by (destruct Hwf; by split).
  eapply wp_mono; [apply (wp_for_each (fun pre s' => visited s0 (pages_before s (Z.of_nat (length pre))) s'))|].
  - split; [done..| |done|done|done]. split; [done..|constructor|constructor|done].
  - intros pre i post s1 Hsplit Hv1. apply range_split in Hsplit as [-> Hi].
    rewrite length_app. simpl length. rewrite Nat2Z.inj_add, length_range in *.
    replace (Z.max 0 (i - 0)) with i in * by lia.
    destruct (lookup_lt_is_Some_2 (arenas s) (Z.to_nat i)) as [a Ha].
    { rewrite (lw_len _ Hwf). pose proof (lw_count _ Hwf). simpl in Hi. lia. }
    by apply (build_arena_spec s0 s1 i a); [|split|].
  - intros [] s' Hv. exists s0. split; [done|]. rewrite length_range in Hv.
    replace (Z.max 0 _) with (arena_count s) in Hv; [done|].
    pose proof (lw_count _ Hwf). simpl. lia.
Qed.

(** ** The whole of [init] *)

Lemma building_empty m : building (Pmm_empty m) [].
Proof.
  assert (forall i a, ~ active (Pmm_empty m) i a) as Hno by (intros i a [_ ?]; simpl in *; lia).
  split; try done.
  - split; [done|by compute|]. by split; [set_solver|constructor|set_solver].
  - intros i a Ha. by apply Hno in Ha.
  - intros i a Ha _. by apply lookup_replicate in Ha as [-> _].
  - intros i j a b Ha. by apply Hno in Ha.
  - intros i a p Ha. by apply Hno in Ha.
Qed.

(** A reservation step of [init]: on success the addresses [P] are covered. *)
Definition reserves s (P : Z -> Prop) (r : Result unit InitError) s' : Prop :=
  initialized s' = initialized s /\
  (r = Ok tt -> building s' [] /\ grows s s' /\ forall p, P p -> covered (active_ranges s') p).

Lemma record_reserved_step s start end_ :
  building s [] -> 0 <= start -> is_usize end_ ->
  wp (record_reserved start end_) (reserves s (fun p => start <= p < end_)) s.
Proof.
  intros Hb Hs He. apply wp_reserve; [apply Hb|done..|by intros e|].
  intros s' Hsame Hres Hcov.
  assert (grows s s') as Hg by (intros p Hp; apply Hcov; by left).
  split; [by destruct Hsame as (? & ? & ->)|]. intros _. split_and!; [|done|].
  - by eapply building_reserve.
  - intros p Hp. apply Hcov. by right.
Qed.

Lemma reserve_kernel_step s ks ke :
  building s [] -> is_usize ks -> is_usize ke ->
  wp (reserve_kernel ks ke) (reserves s (fun p => ks <= p < Z.max ke (ks + KERNEL_RESERVE_PAD))) s.
Proof.
  intros Hb Hks Hke. unfold reserve_kernel, PhysicalAddress_checked_add, is_uint in *.
  destruct (checked_add 64 ks KERNEL_RESERVE_PAD) as [pe|] eqn:Hpe; [|wp_step; done].
  apply checked_add_Some in Hpe as [-> Hpe].
  apply record_reserved_step; [done|lia|]. unfold KERNEL_RESERVE_PAD, is_uint in *. lia.
Qed.

Lemma reserve_device_tree_step s info :
  building s [] -> is_usize (dtb_phys info) -> is_usize (dtb_size info) ->
  wp (reserve_device_tree info) (reserves s (fun p => dtb_phys info <> 0 /\
    dtb_phys info <= p < dtb_phys info + dtb_size info)) s.
Proof.
  intros Hb Hp Hs. unfold reserve_device_tree, PhysicalAddress_checked_add, is_uint in *.
  destruct (Z.eqb_spec (dtb_phys info) 0) as [|Hp0]; simpl;
    [|destruct (Z.eqb_spec (dtb_size info) 0) as [|Hs0]; simpl].
  1,2: wp_step; split; [done|]; intros _; split_and!; [done|by intros p|intros; lia].
  destruct (checked_add 64 (dtb_phys info) (dtb_size info)) as [e|] eqn:He; [|wp_step; done].
  apply checked_add_Some in He as [-> He].
  destruct (PhysicalAddress_align_up _) as [e|] eqn:Hup; [|wp_step; done].
  apply align_up_Some in Hup as (_ & Hup & Hup'); [|unfold is_uint; lia].
  eapply wp_mono; [apply record_reserved_step; [done|lia|unfold is_uint; lia]|].
  intros r s' [Hi Hr]. split; [done|]. intros (? & ? & Hcov)%Hr. split_and!; [done..|].
  intros p [_ Hpp]. apply Hcov. lia.
Qed.

Lemma reserve_firmware_step s info :
  building s [] -> Forall region_ok (reserved_regions info) ->
  wp (reserve_firmware_regions info) (reserves s (fun p => exists r, r ∈ reserved_regions info /\
    region_base r <= p < region_base r + region_size r)) s.
Proof.
  intros Hb Hok. unfold reserve_firmware_regions. wp_step. eapply wp_mono.
  { apply (wp_for_loop
      (fun pre (_ : unit) s' => reserves s (fun p => exists r, r ∈ pre /\
         region_base r <= p < region_base r + region_size r) (Ok tt) s')
      (fun e s' => initialized s' = initialized s)).
    - split; [done|]. intros _. split_and!; [done|by intros p|]. intros p (r & Hr & _). set_solver.
    - intros pre r post [] s1 Heq [Hi H1]. destruct H1 as (Hb1 & Hg1 & Hc1); [done|].
      assert (region_ok r) as [Hr0 Hr1] by (eapply Forall_elem; [exact Hok|rewrite Heq; set_solver]).
      assert (forall p, (exists r', r' ∈ pre ++ [r] /\
          region_base r' <= p < region_base r' + region_size r') ->
        (exists r', r' ∈ pre /\ region_base r' <= p < region_base r' + region_size r') \/
        region_base r <= p < region_base r + region_size r) as Hsplit.
      { intros p (r' & [?| ->%list_elem_of_singleton]%elem_of_app & ?); [left; eauto|by right]. }
      destruct (Z.eqb_spec (region_size r) 0) as [Hz|Hz].
      + wp_step. split; [done|]. intros _. split_and!; [done..|].
        intros p [Hp|Hp]%Hsplit; [by apply Hc1|lia].
      + destruct (MemoryRegion_end r) as [e|] eqn:He; [|by wp_step].
        apply MemoryRegion_end_Some in He as [-> Hf]. unfold region_fits in Hf. wp_step.
        eapply wp_mono; [apply (record_reserved_step s1); [done|lia|unfold is_uint; lia]|].
        intros [[]|e] s2 [Hi2 Hr2]; wp_step; [|congruence].
        destruct Hr2 as (Hb2 & Hg2 & Hc2); [done|]. split; [congruence|]. intros _.
        split_and!; [done|intros p Hp; by apply Hg2, Hg1|].
        intros p [Hp|Hp]%Hsplit; [by apply Hg2, Hc1|by apply Hc2]. }
  intros [[]|e] s' Hr; wp_step; [exact Hr|by split].
Qed.

(** Address [x] is a byte of page [h]. *)
Definition page_byte s h (x : Z) : Prop :=
  exists a, arena_for s h = Some a /\
    arena_base a + handle_page_index h * PAGE_SIZE <= x <
    arena_base a + (handle_page_index h + 1) * PAGE_SIZE.

(** No byte of page [h] is reserved. *)
Definition untouched s h : Prop := forall x, page_byte s h x -> ~ covered (active_ranges s) x.

(** What [init] leaves: the queue [l] holds the untouched pages of the arenas in
    address order, the arenas lie in the regions, and the page metadata lies in
    reserved memory. *)
Record ready (regs : list MemoryRegion) s l : Prop := {
  rd_inv : pmm_inv s l;
  rd_init : initialized s = true;
  rd_reserved : reserved_inv s;
  rd_free : forall h, valid s h -> h ∈ l <-> untouched s h;
  rd_order : exists P : PageHandle -> Prop, exists _ : (forall h, Decision (P h)),
    l = filter P (pages_before s (arena_count s));
  rd_unallocated : forall h, valid s h -> state_at s h <> Some Allocated;
  rd_regions : forall i a, active s i a -> exists r, r ∈ regs /\ inside a r;
  rd_metadata : forall h slot x, valid s h -> slot_of s h = Some slot ->
    slot <= x < slot + size_of_Page -> covered (active_ranges s) (x - off) /\
    exists a, active s (handle_arena_index h) a /\ arena_base a <= x - off < arena_base a + page_count a * PAGE_SIZE;
}.

Lemma building_pages s regs h :
  building s regs -> valid s h ->
  exists a, active s (handle_arena_index h) a /\ arena_for s h = Some a /\
    0 <= handle_page_index h < page_count a /\ head_at s h = Some false /\
    (state_at s h = Some Free \/ state_at s h = Some Reserved /\ touched s a (handle_page_index h)).
Proof.
  intros [_ Hlen _ _ Hin _ Hslots] Hv.
  destruct (valid_active s h Hlen Hin Hv) as (a & Ha & Hp & Hfor). exists a.
  destruct (Hslots _ _ _ Ha Hp) as (pg & Hpg & Hf).
  assert (page_at s h = Some pg) as Hat.
  { unfold page_at, slot_of. by rewrite Hfor, (arena_for_slot _ _ _ Hfor). }
  unfold head_at, state_at. rewrite Hat. simpl. do 3 (split; [done|]).
  split; destruct Hf as [->|[-> ?]]; auto.
Qed.

(** The ranges that hit a page are those with a byte in it. *)
Lemma hits_touched s h a :
  reserved_inv s -> active s (handle_arena_index h) a -> 0 <= handle_page_index h ->
  (exists r, r ∈ active_ranges s /\ page_hits s r h) <-> touched s a (handle_page_index h).
Proof.
  intros Hres Ha Hp. split.
  - intros (r & Hr & b & Hb & H1 & H2). destruct Ha as [Ha _], Hb as [Hb _]. simplify_eq.
    pose proof (ranges_each _ (reserved_wf _ Hres) r Hr) as (? & ? & ?).
    exists (Z.max (range_start r) (arena_base a + handle_page_index h * PAGE_SIZE)).
    unfold PAGE_SIZE in *. split; [lia|]. exists r. split; [done|]. unfold in_range. lia.
  - intros (x & Hx & r & Hr & Hin). exists r. split; [done|]. exists a. split; [done|].
    unfold hits, in_range in *. lia.
Qed.

Lemma touched_untouched s h a :
  arena_for s h = Some a -> untouched s h <-> ~ touched s a (handle_page_index h).
Proof.
  intros Ha. unfold untouched, touched, page_byte. split.
  - intros Hu (x & Hx & Hc). eapply Hu; eauto.
  - intros Ht x (b & Hb & Hx) Hc. simplify_eq. apply Ht. eauto.
Qed.

(** After the marking, a page is usable exactly when it is untouched. *)
Lemma usable_untouched s s1 regs h :
  building s regs -> marked s s1 (fun h => exists r, r ∈ active_ranges s /\ page_hits s r h) ->
  valid s h -> usable s1 h <-> untouched s h.
Proof.
  intros Hb [Hf _ Hst] Hv. pose proof (building_layout s regs Hb) as Hwf.
  destruct (building_pages s regs h Hb Hv) as (a & Ha & Hfor & Hp & _ & Hs).
  specialize (Hst h Hv). rewrite (hits_touched s h a) in Hst by (apply Hb || done || lia).
  rewrite (touched_untouched s h a) by done. unfold usable. rewrite (frame_is_reserved s s1) by done.
  destruct Hst as [[Ht Hs1]|[Ht Hs1]].
  - split; [|done]. intros [? _]. done.
  - split; [done|]. intros _. split; [destruct Hs as [?|[_ ?]]; [congruence|done]|].
    apply not_true_iff_false. rewrite is_reserved_spec. intros Hc. apply Ht.
    exists (arena_base a + handle_page_index h * PAGE_SIZE). split; [unfold PAGE_SIZE; lia|].
    assert (physical_of s1 h = physical_of s h) as Heq.
    { unfold physical_of. by rewrite (same_arenas_arena_for s s1) by apply Hf. }
    rewrite Heq in Hc. destruct (physical_of_valid s h Hwf Hv) as (b & Hb' & Hph).
    rewrite Hph in Hc. by simplify_eq.
Qed.

(** The parts of [ready] that only depend on the arenas and the ranges. *)
Lemma building_ready s s' regs l :
  building s regs -> same_arenas s s' -> reserved_ranges s' = reserved_ranges s ->
  reserved_count s' = reserved_count s -> pmm_inv s' l -> initialized s' = true ->
  (forall h, valid s h -> h ∈ l <-> untouched s h) ->
  (exists P : PageHandle -> Prop, exists _ : (forall h, Decision (P h)),
     l = filter P (pages_before s (arena_count s))) ->
  (forall h, valid s h -> state_at s' h <> Some Allocated) -> ready regs s' l.
Proof.
  intros Hb Hsame Hr Hc Hinv Hinit Hfree Hord Hun. pose proof Hsame as [Ha' Hc'].
  assert (forall h, valid s' h <-> valid s h) as V by (intros; by apply same_arenas_valid).
  assert (active_ranges s' = active_ranges s) as Har by (unfold active_ranges; by rewrite Hr, Hc).
  split; [done|done| | | | | |].
  - destruct (bd_reserved _ _ Hb) as [H1 H2 H3]. by split; rewrite ?Har, ?Hr, ?Hc.
  - intros h Hv%V. rewrite Hfree by done. unfold untouched, page_byte.
    by rewrite Har, (same_arenas_arena_for s s').
  - destruct Hord as (P & HP & ->). exists P, HP. unfold pages_before, pages_of. by rewrite Ha', Hc'.
  - intros h Hv%V. by apply Hun.
  - intros i a Ha. destruct (bd_active _ _ Hb i a) as (_ & _ & Hrs); [|done].
    destruct Ha. split; congruence.
  - intros h slot x Hv%V Hslot Hx. rewrite Har. rewrite (same_arenas_slot_of s s') in Hslot by done.
    destruct (building_pages s regs h Hb Hv) as (a & Ha & Hfor & Hp & _).
    destruct (bd_active _ _ Hb _ _ Ha) as (_ & [Hlow Hhigh Hcov] & _).
    unfold slot_of in Hslot. rewrite Hfor, (arena_for_slot _ _ _ Hfor) in Hslot. simplify_eq.
    pose proof size_of_Page_pos. split; [apply Hcov; nia|]. exists a. split; [destruct Ha; split; congruence|nia].
Qed.

(** After [build_free_list] every page is free or reserved and none is a run
    head. *)
Lemma built_pages s s0 s1 s2 regs h :
  building s regs -> marked s s1 (fun h => exists r, r ∈ active_ranges s /\ page_hits s r h) ->
  s0 = set_free_pages 0 (set_free_tail PageHandle_NONE (set_free_head PageHandle_NONE s1)) ->
  visited s0 (pages_before s1 (arena_count s1)) s2 -> valid s h ->
  head_at s2 h = Some false /\ h ∈ pages_before s1 (arena_count s1) /\
  state_at s2 h = Some (if decide (usable s0 h) then Free else Reserved).
Proof.
  intros Hb Hm Hs0 [Hf2 _ _ _ Hh Hs] Hv. pose proof (building_layout s regs Hb) as Hwf.
  assert (valid s1 h) as Hv1 by (eapply same_arenas_valid; [apply (mk_frame _ _ _ Hm)|done]).
  assert (valid s0 h) as Hv0 by (by subst s0).
  assert (h ∈ pages_before s1 (arena_count s1)) as Hin.
  { apply pages_before_complete; [by eapply marked_layout|done]. }
  split_and!; [|done|].
  - rewrite Hh by done. subst s0. etrans; [apply (mk_heads _ _ _ Hm h Hv)|].
    by destruct (building_pages s regs h Hb Hv) as (? & ? & ? & ? & ? & _).
  - rewrite Hs by done. by rewrite decide_True.
Qed.

Lemma finish_init s regs :
  building s regs ->
  wp (mark_reserved_ranges ;;; build_free_list ;;; modify (set_initialized true) ;;;
      ret (Ok (E := InitError) tt))
    (fun r s' => r = Ok tt /\ active_ranges s' = active_ranges s /\ exists l, ready regs s' l) s.
Proof.
  intros Hb. pose proof (building_layout s regs Hb) as Hwf. wp_step.
  eapply wp_mono; [apply mark_reserved_ranges_spec; [done|apply Hb]|]. intros [] s1 Hm.
  assert (layout_wf s1) as Hwf1 by (by eapply marked_layout). wp_step.
  eapply wp_mono; [by apply build_free_list_spec|]. intros [] s2 (s0 & Hs0 & Hvis). wp_steps.
  set (s3 := set_initialized true s2).
  pose proof (fun h => built_pages s s0 s1 s2 regs h Hb Hm Hs0 Hvis) as Hpages.
  pose proof (mk_frame _ _ _ Hm) as Hf1. destruct Hvis as [Hf2 Hwf2 Hl Hn _ _].
  assert (frame s s2) as Hf. { etrans; [exact Hf1|]. etrans; [|exact Hf2]. by subst s0. }
  assert (forall h, valid s3 h <-> valid s h) as V by (intros; apply same_arenas_valid, Hf).
  set (l := filter (usable s0) (pages_before s1 (arena_count s1))) in *.
  split_and!; [done|unfold active_ranges; simpl; by rewrite (fr_ranges _ _ Hf), (fr_rcount _ _ Hf)|].
  exists l. apply (building_ready s); try done; try apply Hf.
  - split; [|done]. split; [destruct Hwf2; by split|destruct Hl; by split|..];
      intros h (Hhd & Hin & Hst)%V%Hpages.
    + change (state_at s3 h) with (state_at s2 h). rewrite Hst. unfold l.
      rewrite list_elem_of_filter. case_decide; naive_solver.
    + change (head_at s3 h) with (head_at s2 h). congruence.
  - intros h Hv. destruct (Hpages h Hv) as (_ & Hin & _). unfold l. rewrite list_elem_of_filter.
    rewrite <-(usable_untouched s s1 regs) by done. subst s0. tauto.
  - exists (usable s0), (usable_dec s0). unfold l, pages_before, pages_of.
    destruct Hf1 as [[Ha Hc] _ _ _ _]. by rewrite Ha, Hc.
  - intros h Hv. destruct (Hpages h Hv) as (_ & _ & Hst).
    change (state_at s3 h) with (state_at s2 h). rewrite Hst. by case_decide.
Qed.

(** The integers of the hardware description are [usize] values. *)
Record boot_ok (info : HardwareInfo) (ks ke : Z) : Prop := {
  bo_kernel : is_usize ks /\ is_usize ke;
  bo_dtb : is_usize (dtb_phys info) /\ is_usize (dtb_size info);
  bo_memory : Forall region_ok (memory_regions info);
  bo_reserved : Forall region_ok (reserved_regions info);
}.

(** The addresses the description says must not be handed out: the kernel image
    with its padding, the device tree and the firmware regions. *)
Definition must_reserve (info : HardwareInfo) (ks ke p : Z) : Prop :=
  ks <= p < Z.max ke (ks + KERNEL_RESERVE_PAD) \/
  dtb_phys info <> 0 /\ dtb_phys info <= p < dtb_phys info + dtb_size info \/
  exists r, r ∈ reserved_regions info /\ region_base r <= p < region_base r + region_size r.

Lemma init_spec info ks ke p2v s :
  boot_ok info ks ke ->
  (forall r p, r ∈ memory_regions info ->
     region_base r <= p < region_base r + region_size r -> p2v p = p + off) ->
  wp (init info ks ke p2v) (fun res s' =>
    match res with
    | Err _ => initialized s' = false
    | Ok _ => (exists l, ready (memory_regions info) s' l) /\
        forall p, must_reserve info ks ke p -> covered (active_ranges s') p
    end) s.
Proof.
  intros [[Hks Hke] [Hd1 Hd2] Hmem Hrsv] Hp2v. unfold init, reset. wp_steps.
  destruct (negb _); [by wp_step|].
  destruct (validate_memory_regions _) as [[]|] eqn:Hval; [|by wp_step].
  apply validate_memory_regions_Ok in Hval as [Hfit Hap].
  pose proof (building_empty (metadata s)) as Hb0. set (s0 := Pmm_empty (metadata s)) in *.
  wp_step. eapply wp_mono; [by apply reserve_kernel_step|].
  intros [[]|e] s1 [Hi1 H1]; [|by wp_step]. destruct H1 as (Hb1 & Hg1 & Hc1); [done|].
  wp_step. eapply wp_mono; [by apply reserve_device_tree_step|].
  intros [[]|e] s2 [Hi2 H2]; [|wp_step; by rewrite Hi2]. destruct H2 as (Hb2 & Hg2 & Hc2); [done|].
  wp_step. eapply wp_mono; [by apply reserve_firmware_step|].
  intros [[]|e] s3 [Hi3 H3]; [|wp_step; by rewrite Hi3, Hi2]. destruct H3 as (Hb3 & Hg3 & Hc3); [done|].
  wp_step. eapply wp_mono; [by apply (init_arenas_spec s3 (memory_regions info) p2v)|].
  intros c s4 [Hi4 H4].
  assert (initialized s4 = false) as Hi by (by rewrite Hi4, Hi3, Hi2, Hi1).
  assert (building s4 (memory_regions info) /\ grows s3 s4 -> wp (let! n := gets arena_count in
              if n =? 0 then ret (Err NoMemoryRegions)
              else mark_reserved_ranges ;;; build_free_list ;;; modify (set_initialized true) ;;; ret (Ok tt))
    (fun res s' => match res with
       | Err _ => initialized s' = false
       | Ok _ => (exists l, ready (memory_regions info) s' l) /\
           forall p, must_reserve info ks ke p -> covered (active_ranges s') p end) s4) as Hfin.
  { intros [Hb4 Hg4]. wp_steps. destruct (_ =? 0); [by wp_step|].
    eapply wp_mono; [by apply finish_init|]. intros r s5 (-> & Har & l & Hready).
    split; [by exists l|]. intros p Hp. rewrite Har. apply Hg4.
    destruct Hp as [Hp|[Hp|Hp]]; [apply Hg3, Hg2, Hc1|apply Hg3, Hc2|apply Hc3]; done. }
  destruct c as [[]|[e|]]; [by apply Hfin|by wp_step|by apply Hfin].
Qed.
End Init.
