(* ===== verification/PmmClients.v ===== *)
(** * Clients of the page allocator

    A state machine whose steps are the calls of the public interface, with the
    [AllocatedPage]s, [PageRun]s and leaked physical pages that clients hold.
    The invariant ties what clients hold to what the manager believes: every
    page of memory that is not reserved is in the free queue or held by exactly
    one client. *)

From S2P Require Import Prelude Address HwInfo Pmm PmmReserved PmmFreeList PmmAlloc PmmInit.
From stdpp Require Import base tactics option list list_numbers numbers gmap strings.

#[local] Open Scope Z_scope.
#[local] Open Scope kernel_scope.

Section Clients.
Context `{PageLayout}.
Implicit Types (s : Pmm) (h : PageHandle) (l : list PageHandle).

(** What a client holds: an [AllocatedPage], a [PageRun], or a page it leaked
    and will return by physical address. *)
Inductive holding :=
  | HoldPage (h : PageHandle)
  | HoldRun (run : PageRun)
  | HoldLeaked (h : PageHandle) (phys : PhysicalAddress).

Definition held_pages (o : holding) : list PageHandle :=
  match o with
  | HoldPage h => [h]
  | HoldRun run =>
      let start := handle_page_index (run_head run) in
      handles (handle_arena_index (run_head run)) start (start + run_count run)
  | HoldLeaked h _ => [h]
  end.

Definition all_held (os : list holding) : list PageHandle := os ≫= held_pages.

(** One call of the public interface by a client that respects ownership. *)
Inductive client_step : Pmm * list holding -> Pmm * list holding -> Prop :=
  | client_alloc s os r s' :
      global_alloc_page s = Done (r, s') ->
      client_step (s, os) (s', match r with Some h => HoldPage h :: os | None => os end)
  | client_drop_page s os1 h os2 s' :
      free_page_handle h s = Done (tt, s') ->
      client_step (s, os1 ++ HoldPage h :: os2) (s', os1 ++ os2)
  | client_alloc_run s os count alignment_log2 r s' :
      is_usize count -> is_uint 8 alignment_log2 ->
      global_alloc_contiguous count alignment_log2 s = Done (r, s') ->
      client_step (s, os) (s', match r with Some run => HoldRun run :: os | None => os end)
  | client_drop_run s os1 run os2 s' :
      PageRun_drop run s = Done (tt, s') ->
      client_step (s, os1 ++ HoldRun run :: os2) (s', os1 ++ os2)
  | client_leak s os1 h os2 phys s' :
      leak_physical h s = Done (Some phys, s') ->
      client_step (s, os1 ++ HoldPage h :: os2) (s', os1 ++ HoldLeaked h phys :: os2)
  | client_free_physical s os1 h phys os2 s' :
      free_physical_page phys s = Done (tt, s') ->
      client_step (s, os1 ++ HoldLeaked h phys :: os2) (s', os1 ++ os2).

(** The heads of the runs held. *)
Definition held_heads (os : list holding) : list PageHandle :=
  os ≫= fun o => match o with HoldRun run => [run_head run] | _ => [] end.

Definition holding_wf s (o : holding) : Prop :=
  match o with
  | HoldPage h => True
  | HoldRun run => 0 < run_count run < 2 ^ 64
  | HoldLeaked h phys => physical_of s h = Some phys
  end.

(** [s0] is the manager as [init] left it. *)
Variable s0 : Pmm.

Record client_inv s (os : list holding) l : Prop := {
  ci_init : initialized s = true;
  ci_inv : pmm_inv s l;
  ci_nodup : NoDup (l ++ all_held os);
  ci_all : forall h, valid s h -> h ∈ l ++ all_held os <-> untouched s h;
  ci_held : Forall (valid s) (all_held os);
  ci_state : forall h, valid s h -> h ∈ all_held os <-> state_at s h = Some Allocated;
  ci_heads : forall h, valid s h -> head_at s h = Some true <-> h ∈ held_heads os;
  ci_wf : Forall (holding_wf s) os;
  ci_frame : frame s0 s;
}.

Lemma all_held_app os1 os2 : all_held (os1 ++ os2) = all_held os1 ++ all_held os2.
Proof. apply bind_app. Qed.
Lemma held_heads_app os1 os2 : held_heads (os1 ++ os2) = held_heads os1 ++ held_heads os2.
Proof. apply bind_app. Qed.

(** What a step over the same arenas keeps. *)
Lemma frame_untouched s s' h : frame s s' -> untouched s' h <-> untouched s h.
Proof.
  intros Hf. unfold untouched, page_byte, active_ranges.
  by rewrite (fr_ranges _ _ Hf), (fr_rcount _ _ Hf), (same_arenas_arena_for s s') by apply Hf.
Qed.

Lemma frame_holding_wf s s' o : frame s s' -> holding_wf s o -> holding_wf s' o.
Proof.
  intros Hf. destruct o; simpl; [done..|]. unfold physical_of.
  by rewrite (same_arenas_arena_for s s') by apply Hf.
Qed.

Lemma client_inv_perm s os os' l : os ≡ₚ os' -> client_inv s os l -> client_inv s os' l.
Proof.
  intros Hp [Hi Hinv Hnd Hq Hh Hst Hhd Hwf Hfr].
  assert (all_held os ≡ₚ all_held os') as Ha by (unfold all_held; by rewrite Hp).
  assert (held_heads os ≡ₚ held_heads os') as Hb by (unfold held_heads; by rewrite Hp).
  split; [done|done|by rewrite <-Ha| |by rewrite <-Ha| | |by rewrite <-Hp|done]; intros h Hv.
  - rewrite <-Hq by done. apply elem_of_Permutation_proper. by rewrite Ha.
  - rewrite <-Hst by done. by apply elem_of_Permutation_proper.
  - rewrite Hhd by done. by apply elem_of_Permutation_proper.
Qed.

Lemma held_heads_held s os h :
  Forall (holding_wf s) os -> h ∈ held_heads os -> h ∈ all_held os.
Proof.
  intros Hwf. unfold held_heads, all_held. rewrite !list_elem_of_bind.
  intros (o & Ho & Hin). exists o. split; [|done]. rewrite Forall_forall in Hwf.
  specialize (Hwf o Hin). destruct o as [|run|]; simpl in *; try set_solver.
  apply list_elem_of_singleton in Ho as ->. apply elem_of_handles. lia.
Qed.

(** A client gains the holding [o]. *)
Lemma client_gain s os s' l l' o :
  client_inv s os l -> pmm_inv s' l' -> l ≡ₚ held_pages o ++ l' -> frame s s' ->
  restated s s' (held_pages o) Allocated -> remarked s s' (held_heads [o]) true ->
  holding_wf s' o -> client_inv s' (o :: os) l'.
Proof.
  intros [Hi Hinv Hnd Hq Hh Hst Hhd Hwf Hfr] Hinv' Hl Hf Hre Hma Ho.
  assert (forall h, valid s' h <-> valid s h) as V by (intros; apply same_arenas_valid, Hf).
  assert (l' ++ all_held (o :: os) ≡ₚ l ++ all_held os) as Hperm.
  { unfold all_held. simpl. rewrite Hl. solve_Permutation. }
  assert (Forall (valid s) (held_pages o)) as Hvo.
  { pose proof (fl_valid _ _ (pi_list _ _ (pi_core _ _ Hinv))) as Hv. rewrite Hl in Hv.
    by apply Forall_app in Hv as [? _]. }
  split; change (all_held (o :: os)) with (held_pages o ++ all_held os) in *;
    [by rewrite (fr_init _ _ Hf)|done|by rewrite Hperm|..].
  - intros h Hv%V. rewrite (frame_untouched s s') by done. rewrite <-Hq by done.
    by apply elem_of_Permutation_proper.
  - apply Forall_app. split; (eapply Forall_impl; [done|]); intros x; apply V.
  - intros h Hv%V. rewrite Hre by done. rewrite elem_of_app.
    case_decide; [split; auto|]. rewrite Hst by done. tauto.
  - intros h Hv%V. rewrite Hma by done. rewrite (held_heads_app [o] os : held_heads (o :: os) = _).
    rewrite elem_of_app. case_decide; [split; auto|]. rewrite Hhd by done. tauto.
  - constructor; [done|]. eapply Forall_impl; [done|]. intros x. by apply frame_holding_wf.
  - by etrans.
Qed.

(** A client gives the holding [o] back. *)
Lemma client_lose s os s' l o :
  client_inv s (o :: os) l -> pmm_inv s' (l ++ held_pages o) -> frame s s' ->
  restated s s' (held_pages o) Free -> remarked s s' (held_pages o) false ->
  client_inv s' os (l ++ held_pages o).
Proof.
  intros [Hi Hinv Hnd Hq Hh Hst Hhd Hwf Hfr] Hinv' Hf Hre Hma.
  assert (forall h, valid s' h <-> valid s h) as V by (intros; apply same_arenas_valid, Hf).
  apply Forall_cons in Hwf as [Ho Hwf].
  change (all_held (o :: os)) with (held_pages o ++ all_held os) in *.
  change (o :: os) with ([o] ++ os) in Hhd. rewrite held_heads_app in Hhd.
  assert (forall h, h ∈ held_heads [o] -> h ∈ held_pages o) as Hsub.
  { intros h Hin%(held_heads_held s); [|by constructor]. unfold all_held in Hin. simpl in Hin.
    by rewrite app_nil_r in Hin. }
  assert (forall h, h ∈ held_pages o -> h ∉ all_held os) as Hdis.
  { apply NoDup_app in Hnd as (_ & _ & Hnd). by apply NoDup_app in Hnd as (_ & ? & _). }
  split; [by rewrite (fr_init _ _ Hf)|done|by rewrite <-app_assoc|..].
  - intros h Hv%V. rewrite (frame_untouched s s') by done. rewrite <-Hq by done. by rewrite <-app_assoc.
  - apply Forall_app in Hh as [_ Hh]. eapply Forall_impl; [done|]. intros x. apply V.
  - intros h Hv%V. rewrite Hre by done. specialize (Hst h Hv). rewrite elem_of_app in Hst.
    case_decide as Hd; [|tauto]. split; [|done]. intros ?. by destruct (Hdis h).
  - intros h Hv%V. rewrite Hma by done. specialize (Hhd h Hv). rewrite elem_of_app in Hhd.
    case_decide as Hd; [|naive_solver]. split; [done|]. intros ?%(held_heads_held s); [|done].
    by destruct (Hdis h).
  - eapply Forall_impl; [done|]. intros x. by apply frame_holding_wf.
  - by etrans.
Qed.

(** ** Steps *)

Lemma wp_initialized {A} (m : M Pmm A) (Q : A -> Pmm -> Prop) s :
  initialized s = true -> wp m Q s -> wp (assert_initialized ;;; m) Q s.
Proof. intros Hi Hm. unfold assert_initialized. wp_steps. by rewrite Hi. Qed.

Lemma alloc_step s os l :
  client_inv s os l ->
  wp global_alloc_page (fun r s' =>
    exists l', client_inv s' (match r with Some h => HoldPage h :: os | None => os end) l') s.
Proof.
  intros Hci. pose proof Hci as [Hi Hinv _ _ _ _ _ _ _]. apply wp_initialized; [done|].
  destruct l as [|h l].
  - eapply wp_run; [by apply alloc_page_empty|]. by exists [].
  - eapply wp_mono; [by apply (alloc_page_cons s h l)|].
    intros r s' (-> & Hinv' & Hf & Hre & Hma). exists l. by eapply client_gain.
Qed.

Lemma alloc_run_step s os l count alignment_log2 :
  client_inv s os l -> is_usize count -> is_uint 8 alignment_log2 ->
  wp (global_alloc_contiguous count alignment_log2) (fun r s' =>
    (forall run, r = Some run -> run_count run = count) /\
    exists l', client_inv s' (match r with Some run => HoldRun run :: os | None => os end) l') s.
Proof.
  intros Hci Hc Hal. pose proof Hci as [Hi Hinv _ _ _ _ _ _ _]. unfold is_uint in *.
  apply wp_initialized; [done|].
  eapply wp_mono; [apply (alloc_contiguous_spec s l); [done|lia..]|].
  intros [run|] s'; [|intros [-> _]; split; [done|by exists l]].
  intros (Hc0 & _ & i & a & st & Ha & [Hfit _] & _ & -> & [Hinv' Hf Hre Hma]).
  split; [by intros run [= <-]|]. exists (without (handles i st (st + count)) l).
  eapply (client_gain s os s' l); simpl; try done; [by eapply fits_perm|lia].
Qed.

Lemma held_first s o os l h :
  client_inv s (o :: os) l -> h ∈ held_pages o -> valid s h /\ state_at s h = Some Allocated.
Proof.
  intros [_ _ _ _ Hh Hst _ _ _] Hin.
  assert (h ∈ all_held (o :: os)) as Ha by (unfold all_held; simpl; set_solver).
  assert (valid s h) as Hv by (by eapply Forall_elem). split; [done|]. by apply Hst.
Qed.

Lemma drop_page_step s h os l :
  client_inv s (HoldPage h :: os) l ->
  wp (free_page_handle h) (fun _ s' => exists l', client_inv s' os l') s.
Proof.
  intros Hci. destruct (held_first _ _ _ _ h Hci) as [Hv Hst]; [simpl; set_solver|].
  apply wp_initialized; [apply Hci|].
  eapply wp_mono; [by apply (free_page_spec s l h); [apply Hci|..]|].
  intros [] s' (Hinv & Hf & Hre & Hma). eexists. by eapply (client_lose s os s' l (HoldPage h)).
Qed.

Lemma free_physical_step s h phys os l :
  client_inv s (HoldLeaked h phys :: os) l ->
  wp (free_physical_page phys) (fun _ s' => exists l', client_inv s' os l') s.
Proof.
  intros Hci. destruct (held_first _ _ _ _ h Hci) as [Hv Hst]; [simpl; set_solver|].
  pose proof (ci_wf _ _ _ Hci) as [Hph _]%Forall_cons.
  eapply wp_mono; [by apply (free_physical_page_spec s l h phys); [apply Hci|apply Hci|..]|].
  intros [] s' (Hinv & Hf & Hre & Hma). eexists.
  by eapply (client_lose s os s' l (HoldLeaked h phys)).
Qed.

Lemma leak_step s h os l :
  client_inv s (HoldPage h :: os) l ->
  wp (leak_physical h) (fun r s' => s' = s /\
    exists phys, r = Some phys /\ client_inv s (HoldLeaked h phys :: os) l) s.
Proof.
  intros Hci. destruct (held_first _ _ _ _ h Hci) as [Hv _]; [simpl; set_solver|].
  apply wp_initialized; [apply Hci|]. wp_steps. change (id s) with s.
  destruct (physical_of_valid s h) as (a & Ha & Hph);
    [apply (pi_layout _ _ (pi_core _ _ (ci_inv _ _ _ Hci)))|done|].
  rewrite Ha. wp_step. split; [done|]. unfold physical_of in Hph. rewrite Ha in Hph.
  eexists. split; [done|]. destruct Hci as [? ? ? ? ? ? ? Hwf ?]. split; try done.
  apply Forall_cons in Hwf as [_ Hwf]. constructor; [|done]. simpl. unfold physical_of. by rewrite Ha.
Qed.

(** The pages of a run have addresses; the index of a page that is not in it has
    none. *)
Lemma run_address_step s run os l index :
  client_inv s (HoldRun run :: os) l -> 0 <= index ->
  exists phys, PageRun_physical_address run index s = Done (phys, s) /\ (is_Some phys <-> index < run_count run).
Proof.
  intros Hci Hi. unfold PageRun_physical_address. destruct (Z.leb_spec (run_count run) index) as [Hge|Hlt].
  { exists None. split; [done|]. split; [by intros []|lia]. }
  set (head := run_head run). set (i := handle_arena_index head). set (q := handle_page_index head + index).
  destruct (held_first _ _ _ _ (PageHandle_new i q) Hci) as [Hv _]; [apply elem_of_handles; fold head i; cbn; lia|].
  pose proof (pi_layout _ _ (pi_core _ _ (ci_inv _ _ _ Hci))) as Hwf.
  pose proof Hv as (a & Ha & Hia & Hpa & _)%valid_iff; [|done]. cbn in Ha, Hia, Hpa.
  pose proof (aw_count _ _ (active_wf s i a Hwf (conj Ha Hia))) as Hpc. unfold u32_MAX in Hpc.
  destruct (held_first _ _ _ _ head Hci) as [(_ & H0 & _) _]; [apply elem_of_handles; fold head; lia|].
  unfold try_from_uint, checked_add. rewrite (proj2 (Z.ltb_lt index _)) by lia. fold q. rewrite (proj2 (Z.ltb_lt q _)) by lia.
  destruct (physical_of_valid s _ Hwf Hv) as (b & Hb & Hph). unfold physical_of in Hph. rewrite Hb in Hph.
  exists (page_to_physical b (PageHandle_new i q)). split; [|by rewrite Hph].
  unfold page_to_physical_handle, assert_initialized, bind, gets. rewrite (ci_init _ _ _ Hci). cbn. fold head i. by rewrite Hb.
Qed.

(** No reason to refuse a run that a client holds. *)
Lemma held_run_accepted s run os l e :
  client_inv s (HoldRun run :: os) l -> ~ refusal s (run_head run) (run_count run) e.
Proof.
  intros Hci. pose proof (ci_wf _ _ _ Hci) as [Hc _]%Forall_cons. simpl in Hc.
  set (i := handle_arena_index (run_head run)). set (start := handle_page_index (run_head run)).
  assert (forall q, start <= q < start + run_count run ->
    PageHandle_new i q ∈ held_pages (HoldRun run)) as Hin by (intros; by apply elem_of_handles).
  assert (run_head run = PageHandle_new i start) as Heq by (unfold i, start; by destruct (run_head run)).
  destruct (held_first _ _ _ _ (run_head run) Hci) as [Hv _]; [rewrite Heq; apply Hin; lia|].
  assert (head_at s (run_head run) = Some true) as Hhd.
  { apply (ci_heads _ _ _ Hci); [done|]. apply elem_of_app. left. set_solver. }
  pose proof (pi_layout _ _ (pi_core _ _ (ci_inv _ _ _ Hci))) as Hwf.
  destruct e; unfold refusal; fold i start.
  - intros [_ ?]. congruence.
  - intros [?|(_ & _ & a & [Ha _] & Hlt)]; [done|].
    destruct (held_first _ _ _ _ (PageHandle_new i (start + run_count run - 1)) Hci) as [Hvq _];
      [apply Hin; lia|].
    apply valid_iff in Hvq as (b & Hb & _ & Hpb & _); [|done]. simpl in *. simplify_eq. lia.
  - intros (_ & q & Hq & _ & Hst). apply Hst. eapply held_first; [done|]. by apply Hin.
  - intros (_ & q & Hq & _ & _ & Hhq).
    destruct (held_first _ _ _ _ (PageHandle_new i q) Hci) as [Hvq _]; [apply Hin; lia|].
    apply (ci_heads _ _ _ Hci) in Hhq; [|done].
    change (HoldRun run :: os) with ([HoldRun run] ++ os) in Hhq. rewrite held_heads_app in Hhq.
    apply elem_of_app in Hhq as [Hhq|Hhq].
    + apply list_elem_of_singleton in Hhq. rewrite Heq in Hhq. simplify_eq. lia.
    + apply (held_heads_held s) in Hhq; [|by pose proof (ci_wf _ _ _ Hci) as [_ ?]%Forall_cons].
      pose proof (ci_nodup _ _ _ Hci) as (_ & _ & Hnd)%NoDup_app.
      change (all_held (HoldRun run :: os)) with (held_pages (HoldRun run) ++ all_held os) in Hnd.
      apply NoDup_app in Hnd as (_ & Hnd & _). eapply Hnd; [|exact Hhq]. apply Hin. lia.
Qed.

Lemma drop_run_step s run os l :
  client_inv s (HoldRun run :: os) l ->
  wp (PageRun_drop run) (fun _ s' => exists l', client_inv s' os l') s.
Proof.
  intros Hci. pose proof (ci_wf _ _ _ Hci) as [Hc _]%Forall_cons. simpl in Hc.
  destruct (held_first _ _ _ _ (run_head run) Hci) as [(H0 & H1 & _) _]; [apply elem_of_handles; lia|].
  unfold PageRun_drop. destruct (Z.eqb_spec (run_count run) 0); [lia|]. wp_step.
  apply wp_initialized; [apply Hci|].
  eapply wp_mono; [apply (free_contiguous_spec s l); [apply Hci|lia|done..]|].
  intros [[]|e] s'.
  - intros [[? _]|(_ & _ & _ & _ & [Hinv Hf Hre Hma])]; [lia|]. wp_step.
    eexists. by eapply (client_lose s os s' l (HoldRun run)).
  - intros (_ & _ & Href). by eapply held_run_accepted in Href.
Qed.

(** ** Reachable configurations *)

Lemma ready_client off regs l : ready off regs s0 l -> client_inv s0 [] l.
Proof.
  intros [Hinv Hi Hres Hfree _ Hun _ _]. pose proof (pi_core _ _ Hinv) as [Hwf Hl Hiff Hheads].
  split; try done.
  - rewrite app_nil_r. apply Hl.
  - intros h Hv. rewrite app_nil_r. by apply Hfree.
  - intros h Hv. split; [set_solver|]. intros ?. by destruct (Hun h).
  - intros h Hv. split; [|set_solver]. intros Ht%Hheads; [|done]. by destruct (Hun h).
Qed.

Lemma client_step_inv c c' :
  client_step c c' -> (exists l, client_inv c.1 c.2 l) -> exists l, client_inv c'.1 c'.2 l.
Proof.
  assert (forall s os1 o os2, (exists l, client_inv s (os1 ++ o :: os2) l) ->
    exists l, client_inv s (o :: os1 ++ os2) l) as Hfront.
  { intros s os1 o os2 [l Hci]. exists l. eapply client_inv_perm; [|exact Hci]. solve_Permutation. }
  intros Hstep Hex. destruct Hstep as [s os r s' Hrun|s os1 h os2 s' Hrun|s os n al r s' Hn Hal Hrun
    |s os1 run os2 s' Hrun|s os1 h os2 phys s' Hrun|s os1 h phys os2 s' Hrun]; simpl in *.
  - destruct Hex as [l Hci]. exact (wp_Done _ _ _ _ _ (alloc_step s os l Hci) Hrun).
  - apply Hfront in Hex as [l Hci].
    by apply (wp_Done _ _ _ _ _ (drop_page_step s h (os1 ++ os2) l Hci) Hrun).
  - destruct Hex as [l Hci]. exact (proj2 (wp_Done _ _ _ _ _ (alloc_run_step s os l n al Hci Hn Hal) Hrun)).
  - apply Hfront in Hex as [l Hci].
    by apply (wp_Done _ _ _ _ _ (drop_run_step s run (os1 ++ os2) l Hci) Hrun).
  - apply Hfront in Hex as [l Hci].
    destruct (wp_Done _ _ _ _ _ (leak_step s h (os1 ++ os2) l Hci) Hrun) as (-> & p & Hp & Hci').
    injection Hp as <-. exists l. eapply client_inv_perm; [|exact Hci']. solve_Permutation.
  - apply Hfront in Hex as [l Hci].
    by apply (wp_Done _ _ _ _ _ (free_physical_step s h phys (os1 ++ os2) l Hci) Hrun).
Qed.

(** A step does not depend on what other clients hold. *)
Lemma client_step_frame c c' os : client_step c c' -> client_step (c.1, c.2 ++ os) (c'.1, c'.2 ++ os).
Proof.
  destruct 1 as [s os0 r s' Hrun|s os1 h os2 s' Hrun|s os0 n al r s' Hn Hal Hrun
    |s os1 run os2 s' Hrun|s os1 h os2 phys s' Hrun|s os1 h phys os2 s' Hrun]; simpl.
  - pose proof (client_alloc s (os0 ++ os) r s' Hrun). by destruct r.
  - rewrite <-!(assoc_L (++)). exact (client_drop_page s os1 h (os2 ++ os) s' Hrun).
  - pose proof (client_alloc_run s (os0 ++ os) n al r s' Hn Hal Hrun). by destruct r.
  - rewrite <-!(assoc_L (++)). exact (client_drop_run s os1 run (os2 ++ os) s' Hrun).
  - rewrite <-!(assoc_L (++)). exact (client_leak s os1 h (os2 ++ os) phys s' Hrun).
  - rewrite <-!(assoc_L (++)). exact (client_free_physical s os1 h phys (os2 ++ os) s' Hrun).
Qed.

Lemma client_reachable c c' :
  (exists l, client_inv c.1 c.2 l) -> rtc client_step c c' -> exists l, client_inv c'.1 c'.2 l.
Proof.
  intros Hex Hrtc.
  induction Hrtc as [|c1 c2 c3 Hstep _ IH]; [done|]. apply IH. by eapply client_step_inv.
Qed.
End Clients.
