(* ===== verification/PmmTheorems.v ===== *)
(** * Theorems about the page allocator

    The properties of [pmm/mod.rs], each applied to a machine with one region
    of sixteen pages. *)

From S2P Require Import Prelude Address HwInfo Pmm PmmReserved PmmFreeList PmmAlloc PmmInit PmmClients.
From stdpp Require Import base tactics option list list_numbers numbers gmap strings.

#[local] Open Scope Z_scope.
#[local] Open Scope kernel_scope.

(** ** A small machine *)

#[local] Instance small_layout : PageLayout := {| size_of_Page := 20; size_of_Page_pos := eq_refl |}.

Definition small_region : MemoryRegion := {| region_base := 0x80000000; region_size := 16 * 4096 |}.
Definition small_info : HardwareInfo :=
  push_reserved_region {| region_base := 0x80002800; region_size := 16 |}
    (push_memory_region small_region (HardwareInfo_empty 0)).
Definition small_offset : Z := 0xffff800000000000.
Definition small_p2v (p : PhysicalAddress) : VirtualAddress := p + small_offset.
Definition small_pmm : Pmm :=
  match init small_info 0x1000 0x2000 small_p2v (Pmm_empty ∅) with
  | Done (_, s) => s
  | _ => Pmm_empty ∅
  end.

Lemma small_boot_ok : boot_ok small_info 0x1000 0x2000.
Proof. split; vm_compute; repeat constructor; done. Qed.

Lemma small_p2v_linear r p :
  r ∈ memory_regions small_info -> region_base r <= p < region_base r + region_size r ->
  small_p2v p = p + small_offset.
Proof. done. Qed.

Lemma small_init : init small_info 0x1000 0x2000 small_p2v (Pmm_empty ∅) = Done (Ok tt, small_pmm).
Proof. vm_compute. reflexivity. Qed.

Lemma small_ready : exists l, ready small_offset (memory_regions small_info) small_pmm l.
Proof.
  pose proof (init_spec small_offset small_info 0x1000 0x2000 small_p2v (Pmm_empty ∅)
    small_boot_ok small_p2v_linear) as Hwp.
  by destruct (wp_Done _ _ _ _ _ Hwp small_init) as [Hready _].
Qed.

Lemma small_inv : exists l, pmm_inv small_pmm l.
Proof. destruct small_ready as [l [Hinv _ _ _ _ _ _ _]]. eauto. Qed.

Section Theorems.
Context `{PageLayout}.

(** (C9) [init] always returns.  When it succeeds, the manager represents a
    queue that holds exactly the pages of the arenas without a reserved byte,
    arena after arena in the order of the arena table and by address within an
    arena; no page is allocated; every arena lies in a memory region; the metadata
    of a page lies in reserved memory of the page's own arena; and the kernel
    image with its padding, the device tree and every firmware region are
    reserved.  When it fails, the manager stays uninitialised. *)
Theorem init_ready (off : Z) (info : HardwareInfo) (kernel_start kernel_end : Z)
    (p2v : PhysicalAddress -> VirtualAddress) (s : Pmm) :
  boot_ok info kernel_start kernel_end ->
  (forall r p, r ∈ memory_regions info ->
     region_base r <= p < region_base r + region_size r -> p2v p = p + off) ->
  wp (init info kernel_start kernel_end p2v) (fun res s' =>
    match res with
    | Err _ => initialized s' = false
    | Ok _ => (exists l, ready off (memory_regions info) s' l) /\
        forall p, must_reserve info kernel_start kernel_end p -> covered (active_ranges s') p
    end) s.
Proof. apply init_spec. Qed.

(** What holds of every configuration that client calls reach after [init]. *)
Lemma reachable_inv off info kernel_start kernel_end p2v s0 s c :
  boot_ok info kernel_start kernel_end ->
  (forall r p, r ∈ memory_regions info ->
     region_base r <= p < region_base r + region_size r -> p2v p = p + off) ->
  init info kernel_start kernel_end p2v s0 = Done (Ok tt, s) ->
  rtc client_step (s, []) c ->
  (exists l, ready off (memory_regions info) s l) /\
  (forall p, must_reserve info kernel_start kernel_end p -> covered (active_ranges s) p) /\
  exists l, client_inv s c.1 c.2 l.
Proof.
  intros Hok Hp2v Hinit Hrtc.
  destruct (wp_Done _ _ _ _ _ (init_spec off info kernel_start kernel_end p2v s0 Hok Hp2v) Hinit)
    as [[l Hready] Hmust].
  split_and!; [by exists l|done|]. apply (client_reachable s (s, [])); [|done].
  exists l. by eapply ready_client.
Qed.

(** The free pages and the pages held are the free pages that [init] left. *)
Lemma client_count off regs s l0 s1 os l :
  ready off regs s l0 -> client_inv s s1 os l ->
  free_pages s1 + Z.of_nat (length (all_held os)) = free_pages s.
Proof.
  intros [Hinv0 _ _ Hfree0 _ _ _ _] [_ Hinv Hnd Hall Hval _ _ _ Hfr].
  pose proof (pi_core _ _ Hinv) as [_ Hl _ _]. pose proof (pi_core _ _ Hinv0) as [_ Hl0 _ _].
  rewrite (pi_count _ _ Hinv), (pi_count _ _ Hinv0).
  assert (l ++ all_held os ≡ₚ l0) as Hperm; [|rewrite <-Hperm, length_app; lia].
  apply NoDup_Permutation; [done|apply Hl0|]. intros h.
  assert (forall x, valid s1 x <-> valid s x) as V by (intros; apply same_arenas_valid, Hfr).
  split; intros Hin.
  - assert (valid s1 h) as Hv.
    { apply elem_of_app in Hin as [?|?]; [|by eapply Forall_elem].
      by eapply Forall_elem; [apply Hl|]. }
    apply Hfree0; [by apply V|]. apply (frame_untouched s s1); [done|]. by apply Hall.
  - assert (valid s h) as Hv by (eapply Forall_elem; [apply Hl0|done]).
    apply Hall; [by apply V|]. apply (frame_untouched s s1); [done|]. by apply Hfree0.
Qed.

(** A page that a client holds is usable memory. *)
Lemma held_usable off info ks ke s c os l l0 h :
  ready off (memory_regions info) s l0 -> (forall p, must_reserve info ks ke p -> covered (active_ranges s) p) ->
  client_inv s c os l -> h ∈ all_held os ->
  valid c h /\ state_at c h = Some Allocated /\ (forall x, page_byte c h x -> ~ must_reserve info ks ke x) /\
  exists r, r ∈ memory_regions info /\ forall x, page_byte c h x -> region_base r <= x < region_base r + region_size r.
Proof.
  intros Hready Hmust [_ Hinv Hnd Hall Hval Hst _ _ Hfr] Hh. assert (valid c h) as Hv by (by eapply Forall_elem).
  assert (untouched s h) as Hun.
  { rewrite <-(frame_untouched s c) by done. apply Hall; [done|]. set_solver. }
  assert (forall x, page_byte c h x <-> page_byte s h x) as Hpb.
  { intros x. unfold page_byte. by rewrite (same_arenas_arena_for s c) by apply Hfr. }
  split_and!; [done|by apply Hst|intros x Hx%Hpb Hm; by apply (Hun x), Hmust|].
  assert (valid s h) as Hvs by (by apply (same_arenas_valid s c h); [apply Hfr|]).
  pose proof (pi_layout _ _ (pi_core _ _ (rd_inv _ _ _ _ Hready))) as Hwf.
  apply valid_iff in Hvs as (a & Ha & Hi & Hp & Hfor); [|done].
  destruct (rd_regions _ _ _ _ Hready (handle_arena_index h) a) as (r & Hr & Hin1 & Hin2); [by split|].
  exists r. split; [done|]. intros x (b & Hb & Hx)%Hpb. simplify_eq. unfold PAGE_SIZE in *. lia.
Qed.

(** (C6) Whatever clients do after a successful [init], no page is held twice,
    a held page is one the manager counts as allocated, every byte of it lies in
    one of the machine's memory regions, and none belongs to the kernel image,
    the device tree or a firmware region. *)
Theorem clients_hold_usable_memory (off : Z) (info : HardwareInfo) (kernel_start kernel_end : Z)
    (p2v : PhysicalAddress -> VirtualAddress) (s0 s : Pmm) (c : Pmm * list holding) :
  boot_ok info kernel_start kernel_end ->
  (forall r p, r ∈ memory_regions info ->
     region_base r <= p < region_base r + region_size r -> p2v p = p + off) ->
  init info kernel_start kernel_end p2v s0 = Done (Ok tt, s) ->
  rtc client_step (s, []) c ->
  NoDup (all_held c.2) /\
  forall h, h ∈ all_held c.2 ->
    valid c.1 h /\ state_at c.1 h = Some Allocated /\
    (forall x, page_byte c.1 h x -> ~ must_reserve info kernel_start kernel_end x) /\
    exists r, r ∈ memory_regions info /\
      forall x, page_byte c.1 h x -> region_base r <= x < region_base r + region_size r.
Proof.
  intros Hok Hp2v Hinit Hrtc.
  destruct (reachable_inv off info kernel_start kernel_end p2v s0 s c Hok Hp2v Hinit Hrtc)
    as ([l0 Hready] & Hmust & l & Hci).
  split; [by apply (ci_nodup _ _ _ _) in Hci as (_ & _ & ?)%NoDup_app|]. intros h Hh. by eapply held_usable.
Qed.

(** (C7) No page is lost: after any sequence of client calls, a page without a
    reserved byte is in the free queue or held by a client, and the free count
    and the pages held add up to the free count that [init] left. *)
Theorem clients_lose_no_page (off : Z) (info : HardwareInfo) (kernel_start kernel_end : Z)
    (p2v : PhysicalAddress -> VirtualAddress) (s0 s : Pmm) (c : Pmm * list holding) :
  boot_ok info kernel_start kernel_end ->
  (forall r p, r ∈ memory_regions info ->
     region_base r <= p < region_base r + region_size r -> p2v p = p + off) ->
  init info kernel_start kernel_end p2v s0 = Done (Ok tt, s) ->
  rtc client_step (s, []) c ->
  (forall h, valid c.1 h -> untouched c.1 h ->
     state_at c.1 h = Some Free \/ h ∈ all_held c.2) /\
  free_pages c.1 + Z.of_nat (length (all_held c.2)) = free_pages s.
Proof.
  intros Hok Hp2v Hinit Hrtc.
  destruct (reachable_inv off info kernel_start kernel_end p2v s0 s c Hok Hp2v Hinit Hrtc)
    as ([l0 Hready] & _ & l & Hci). pose proof (pi_core _ _ (ci_inv _ _ _ _ Hci)) as [_ _ Hiff _].
  split.
  - intros h Hv Hun. apply (ci_all _ _ _ _ Hci), elem_of_app in Hun as [?|?]; [left; by apply Hiff|by right|done].
  - by eapply client_count.
Qed.

(** No call by the owner of a page or run panics, accesses metadata that does not
    exist or loops. *)
Lemma owner_calls_return s0 s os l :
  client_inv s0 s os l ->
  (exists r s', global_alloc_page s = Done (r, s')) /\
  (forall count alignment_log2, is_usize count -> is_uint 8 alignment_log2 ->
     exists r s', global_alloc_contiguous count alignment_log2 s = Done (r, s')) /\
  forall o, o ∈ os ->
    match o with
    | HoldPage h =>
        (exists s', free_page_handle h s = Done (tt, s')) /\
        exists phys, AllocatedPage_physical_address h s = Done (Some phys, s)
    | HoldRun run =>
        (exists s', PageRun_drop run s = Done (tt, s')) /\
        forall index, 0 <= index -> exists phys, PageRun_physical_address run index s = Done (phys, s) /\
          (is_Some phys <-> index < run_count run)
    | HoldLeaked _ phys => exists s', free_physical_page phys s = Done (tt, s')
    end.
Proof.
  intros Hci. split_and!.
  - destruct (proj1 (wp_unfold _ _ _) (alloc_step s0 s os l Hci)) as (r & s' & -> & _). eauto.
  - intros n al Hn Hal.
    destruct (proj1 (wp_unfold _ _ _) (alloc_run_step s0 s os l n al Hci Hn Hal)) as (r & s' & -> & _).
    eauto.
  - intros o (os1 & os2 & ->)%list_elem_of_split.
    apply (client_inv_perm s0 s _ (o :: os1 ++ os2)) in Hci; [|solve_Permutation].
    destruct o as [h|run|h phys].
    + split.
      * destruct (proj1 (wp_unfold _ _ _) (drop_page_step s0 s h _ l Hci)) as ([] & s' & -> & _). eauto.
      * destruct (proj1 (wp_unfold _ _ _) (leak_step s0 s h _ l Hci)) as (r & s' & Hrun & -> & p & -> & _).
        by exists p.
    + split; [|intros index Hi; by eapply run_address_step].
      destruct (proj1 (wp_unfold _ _ _) (drop_run_step s0 s run _ l Hci)) as ([] & s' & -> & _). eauto.
    + destruct (proj1 (wp_unfold _ _ _) (free_physical_step s0 s h phys _ l Hci)) as ([] & s' & -> & _).
      eauto.
Qed.

(** [alloc_page] takes the page at the head of the free queue and marks it
    allocated, and changes no other page; it returns [None] exactly when the
    queue is empty, and then changes nothing. *)
Theorem alloc_page_takes_head (s : Pmm) (l : list PageHandle) :
  pmm_inv s l ->
  match l with
  | [] => alloc_page s = Done (None, s)
  | h :: l' => exists s', alloc_page s = Done (Some h, s') /\ pmm_inv s' l' /\ frame s s' /\
      restated s s' [h] Allocated /\ remarked s s' [] true
  end.
Proof.
  intros Hinv. destruct l as [|h l]; [by apply alloc_page_empty|].
  destruct (proj1 (wp_unfold _ _ _) (alloc_page_cons s h l Hinv)) as (r & s' & Hrun & -> & ?). eauto.
Qed.

(** [free_page] of a page of an arena: an allocated page goes to the tail of
    the queue and becomes free, a free or a reserved page is refused with a
    panic; and a handle outside the arenas is refused with a panic. *)
Theorem free_page_cases (s : Pmm) (l : list PageHandle) (h : PageHandle) :
  pmm_inv s l -> 0 <= handle_arena_index h -> 0 <= handle_page_index h ->
  match state_at s h with
  | Some Allocated => exists s', free_page h s = Done (tt, s') /\ pmm_inv s' (l ++ [h]) /\
      frame s s' /\ restated s s' [h] Free /\ remarked s s' [h] false
  | Some Free => free_page h s = Panic "pmm: double-free detected"
  | Some Reserved => free_page h s = Panic "pmm: cannot free reserved page"
  | None => free_page h s = Panic "pmm: address not in any managed arena"
  end.
Proof.
  intros Hinv H0 H1. destruct (arena_for s h) as [a|] eqn:Ha.
  2:{ unfold state_at, page_at, slot_of. rewrite Ha. simpl. by apply free_page_unmanaged. }
  assert (valid s h) as Hv by (split_and!; [done..|by eexists]).
  destruct (lw_slots _ (pi_layout _ _ (pi_core _ _ Hinv)) h Hv) as [p Hp].
  assert (state_at s h = Some (state p)) as Hst by (unfold state_at; by rewrite Hp).
  rewrite Hst. destruct (state p); [eapply free_page_state; eauto| |eapply free_page_state; eauto].
  destruct (proj1 (wp_unfold _ _ _) (free_page_spec s l h Hinv Hv Hst)) as ([] & s' & Hrun & ?). eauto.
Qed.

(** (C11) [alloc_contiguous] is first fit, and complete: it returns the lowest
    aligned run of free pages of the first arena that has one, takes exactly
    those pages out of the queue and marks the first as the head of a run; it
    returns [None], without an effect, exactly when the request is empty, the
    alignment does not fit a [usize], or no arena has such a run. *)
Theorem alloc_contiguous_first_fit (s : Pmm) (l : list PageHandle) (count alignment_log2 : Z) :
  pmm_inv s l -> 0 <= count -> 0 <= alignment_log2 ->
  let alignment := 2 ^ Z.max alignment_log2 12 in
  wp (alloc_contiguous count alignment_log2) (fun r s' =>
    match r with
    | None => s' = s /\
        (count = 0 \/ 64 <= alignment_log2 \/ no_fit_before s count alignment (arena_count s))
    | Some run => 0 < count /\ alignment_log2 < 64 /\
        exists i a st, active s i a /\ first_fit s a count alignment st /\
          no_fit_before s count alignment i /\
          run = {| run_head := PageHandle_new i st; run_count := count |} /\ took s l s' i st count
    end) s.
Proof. intros. by apply alloc_contiguous_spec. Qed.

(** (C12) [free_contiguous] returns a run to the tail of the queue when its head is
    a page of an arena and marked as head, the run ends in the arena, every page
    of it is allocated and no other page of it is a head; otherwise it reports the
    first check that fails, all earlier ones having passed, and changes nothing.
    The checks are those of [refusal]: the head's page, its mark, the end of the
    run, then page by page the state and the mark. *)
Theorem free_contiguous_cases (s : Pmm) (l : list PageHandle) (head : PageHandle) (count : Z) :
  pmm_inv s l -> is_usize count -> 0 <= handle_arena_index head -> 0 <= handle_page_index head ->
  let i := handle_arena_index head in
  let start := handle_page_index head in
  wp (free_contiguous head count) (fun r s' =>
    match r with
    | Ok _ => count = 0 /\ s' = s \/
        0 < count /\ valid s head /\ head_at s head = Some true /\
        run_body s i start (start + count) /\ gave s l s' i start count
    | Err e => s' = s /\ 0 < count /\ refusal s head count e
    end) s.
Proof. intros. by apply free_contiguous_spec. Qed.

(** Allocating a run and giving it back succeeds and restores the state of
    every page; the queue holds the same pages, those of the run last. *)
Theorem run_round_trip (s s1 : Pmm) (l : list PageHandle) (count alignment_log2 : Z) (run : PageRun) :
  pmm_inv s l -> is_usize count -> is_uint 8 alignment_log2 ->
  alloc_contiguous count alignment_log2 s = Done (Some run, s1) ->
  exists s2 l2, free_contiguous (run_head run) (run_count run) s1 = Done (Ok tt, s2) /\
    pmm_inv s2 l2 /\ l2 ≡ₚ l /\ frame s s2 /\ free_pages s2 = free_pages s /\
    forall h, valid s h -> state_at s2 h = state_at s h /\
      (head_at s h = Some false -> head_at s2 h = Some false).
Proof.
  intros Hinv Hc Hal Hrun. unfold is_uint in Hc, Hal.
  pose proof (wp_Done _ _ _ _ _
    (alloc_contiguous_spec s l count alignment_log2 Hinv ltac:(lia) ltac:(lia)) Hrun) as Hspec.
  simpl in Hspec. destruct Hspec as (Hc0 & _ & i & a & st & Ha & [Hfit _] & _ & -> & [Hinv1 Hf Hre Hma]).
  assert (took s l s1 i st count) as Htook by done.
  pose proof (fun q => took_pages s l s1 i a st count _ q Hinv Ha Hfit Htook) as Hq.
  simpl. destruct (proj1 (wp_unfold _ _ _) (free_contiguous_spec s1 _ (PageHandle_new i st) count Hinv1
    ltac:(lia) ltac:(simpl; destruct Ha; lia) ltac:(apply Hfit))) as ([[]|e] & s2 & Hrun2 & Hpost);
    [|by destruct Hpost as (_ & _ & []%(took_accepted s l s1 i a st count _ e Hinv Ha Hc0 Hfit Htook))].
  destruct Hpost as [[? _]|(_ & _ & _ & _ & [Ginv Gf Gs Gh])]; [lia|]. simpl in *.
  assert (forall x, valid s1 x <-> valid s x) as V by (intros; apply same_arenas_valid, Hf).
  pose proof (fits_perm s l i a st count _ Hinv Ha Hfit) as Hperm.
  exists s2. eexists. split_and!; [done|exact Ginv|rewrite Hperm at 2; solve_Permutation|by etrans| |].
  - rewrite (pi_count _ _ Ginv), (pi_count _ _ Hinv), (Permutation_length Hperm), !length_app. lia.
  - intros h Hv. rewrite Gs, Gh, Hre, Hma by (done || by apply V). case_decide as Hd.
    + destruct h as [hi hp]. apply elem_of_handles in Hd as [Hi Hp]. simpl in *. subst hi.
      destruct (Hq hp Hp) as (_ & -> & _). done.
    + split; [done|]. rewrite decide_False; [done|]. intros ->%list_elem_of_singleton.
      apply Hd, elem_of_handles. simpl. lia.
Qed.

(** A page handle and its physical address determine each other: the
    address is page aligned, the search over the arenas finds the arena of the
    handle, and translating back gives the handle. *)
Theorem page_physical_round_trip (s : Pmm) (l : list PageHandle) (h : PageHandle) :
  pmm_inv s l -> valid s h ->
  exists a phys, arena_for s h = Some a /\ page_to_physical a h = Some phys /\
    phys mod PAGE_SIZE = 0 /\ arena_for_physical s phys = Some a /\ physical_to_page a phys = Some h.
Proof.
  intros [[Hwf _ _ _] _] Hv. destruct (physical_of_valid s h Hwf Hv) as (a & Ha & Hph).
  destruct (arena_for_physical_valid s h _ Hwf Hv Hph) as (b & Hb & Hfor & Hto). simplify_eq.
  exists a. eexists. unfold physical_of in Hph. rewrite Ha in Hph. split_and!; [done..| |done|done].
  apply valid_iff in Hv as (b & Hb & Hi & _ & Hfor'); [|done]. simplify_eq.
  pose proof (aw_aligned _ _ (lw_active _ Hwf _ _ Hb ltac:(lia))) as Hal.
  unfold PAGE_SIZE in *. divlia.
Qed.
End Theorems.

(** ** Reserved ranges *)

(** (C10) [record_reserved] always returns, within its fuel, and keeps the ranges
    sorted out: on success the reserved addresses are those that were reserved
    and those of the new range, and no two ranges overlap or touch; it fails
    only when the table is full and the new range cannot be merged, and then
    nothing changes. *)
Theorem record_reserved_exact (s : Pmm) (start end_ : PhysicalAddress) :
  reserved_inv s -> 0 <= start -> is_usize end_ ->
  wp (record_reserved start end_) (fun r s' =>
    same_but_reserved s s' /\ reserved_inv s' /\
    match r with
    | Ok _ => forall p, covered (active_ranges s') p <->
                        covered (active_ranges s) p \/ start <= p < end_
    | Err e => e = TooManyReservedRanges /\ s' = s /\
        start < end_ /\ reserved_count s = MAX_RESERVED_REGIONS /\
        forall e, e ∈ active_ranges s -> separated {| range_start := start; range_end := end_ |} e
    end) s.
Proof. apply record_reserved_spec. Qed.

(** [find_metadata_range] always returns, within its fuel, the highest
    page-aligned span of the arena that no reserved range meets, and [None]
    exactly when there is none. *)
Theorem find_metadata_range_highest (s : Pmm) (base : PhysicalAddress) (total metadata_pages : Z) :
  reserved_inv s -> is_usize base -> base mod PAGE_SIZE = 0 -> 0 <= total -> 0 <= metadata_pages ->
  wp (find_metadata_range base total metadata_pages) (fun r s' => s' = s /\
    match r with
    | Ok (Some c) => 0 < metadata_pages <= total /\ base + total * PAGE_SIZE < 2 ^ 64 /\
        metadata_fits (active_ranges s) base (base + total * PAGE_SIZE)
          (metadata_pages * PAGE_SIZE) c /\
        forall c', metadata_fits (active_ranges s) base (base + total * PAGE_SIZE)
          (metadata_pages * PAGE_SIZE) c' -> c' <= c
    | Ok None => metadata_pages = 0 \/ total < metadata_pages \/
        forall c, ~ metadata_fits (active_ranges s) base (base + total * PAGE_SIZE)
                    (metadata_pages * PAGE_SIZE) c
    | Err e => e = ArithmeticOverflow /\ 2 ^ 64 <= base + total * PAGE_SIZE
    end) s.
Proof. apply find_metadata_range_spec. Qed.

(** ** The theorems on the small machine *)

Lemma init_ready_witness :
  exists res s', init small_info 0x1000 0x2000 small_p2v (Pmm_empty ∅) = Done (res, s') /\
    match res with
    | Err _ => initialized s' = false
    | Ok _ => (exists l, ready small_offset (memory_regions small_info) s' l) /\
        forall p, must_reserve small_info 0x1000 0x2000 p -> covered (active_ranges s') p
    end.
Proof.
  apply wp_unfold.
  exact (init_ready small_offset small_info 0x1000 0x2000 small_p2v (Pmm_empty ∅)
    small_boot_ok small_p2v_linear).
Defined.

(** A client has allocated one page. *)
Definition small_config : Pmm * list holding :=
  match global_alloc_page small_pmm with
  | Done (Some h, s) => (s, [HoldPage h])
  | _ => (small_pmm, [])
  end.

Lemma small_client_step : client_step (small_pmm, []) small_config.
Proof.
  unfold small_config. destruct (global_alloc_page small_pmm) as [[[h|] s]| | |] eqn:Hrun.
  1: exact (client_alloc small_pmm [] (Some h) s Hrun).
  all: exfalso; revert Hrun; vm_compute; discriminate.
Qed.

Lemma clients_hold_usable_memory_witness :
  NoDup (all_held small_config.2) /\
  forall h, h ∈ all_held small_config.2 -> state_at small_config.1 h = Some Allocated.
Proof.
  pose proof (clients_hold_usable_memory small_offset small_info 0x1000 0x2000 small_p2v
    (Pmm_empty ∅) small_pmm small_config small_boot_ok small_p2v_linear small_init
    (rtc_once _ _ small_client_step)) as [Hnd Hheld].
  split; [exact Hnd|]. intros h Hh. exact (proj1 (proj2 (Hheld h Hh))).
Defined.

Lemma clients_lose_no_page_witness :
  free_pages small_config.1 + Z.of_nat (length (all_held small_config.2)) = free_pages small_pmm.
Proof.
  exact (proj2 (clients_lose_no_page small_offset small_info 0x1000 0x2000 small_p2v
    (Pmm_empty ∅) small_pmm small_config small_boot_ok small_p2v_linear small_init
    (rtc_once _ _ small_client_step))).
Defined.

Lemma alloc_page_takes_head_witness :
  exists l, pmm_inv small_pmm l /\
    match l with
    | [] => alloc_page small_pmm = Done (None, small_pmm)
    | h :: l' => exists s', alloc_page small_pmm = Done (Some h, s') /\ pmm_inv s' l' /\
        frame small_pmm s' /\ restated small_pmm s' [h] Allocated /\ remarked small_pmm s' [] true
    end.
Proof.
  destruct small_inv as [l Hinv]. exists l. split; [exact Hinv|].
  exact (alloc_page_takes_head small_pmm l Hinv).
Defined.

Lemma free_page_cases_witness :
  free_page (PageHandle_new 0 2) small_pmm = Panic "pmm: cannot free reserved page" /\
  free_page (PageHandle_new 0 3) small_pmm = Panic "pmm: double-free detected" /\
  free_page (PageHandle_new 0 16) small_pmm = Panic "pmm: address not in any managed arena".
Proof.
  destruct small_inv as [l Hinv].
  pose proof (fun p => free_page_cases small_pmm l (PageHandle_new 0 p) Hinv) as Hcases.
  assert (state_at small_pmm (PageHandle_new 0 2) = Some Reserved) as H2 by (vm_compute; reflexivity).
  assert (state_at small_pmm (PageHandle_new 0 3) = Some Free) as H3 by (vm_compute; reflexivity).
  assert (state_at small_pmm (PageHandle_new 0 16) = None) as H16 by (vm_compute; reflexivity).
  pose proof (Hcases 2) as C2. rewrite H2 in C2. pose proof (Hcases 3) as C3. rewrite H3 in C3.
  pose proof (Hcases 16) as C16. rewrite H16 in C16.
  split; [|split]; [apply C2|apply C3|apply C16]; discriminate.
Defined.

Lemma alloc_contiguous_first_fit_witness :
  exists l r s', pmm_inv small_pmm l /\ alloc_contiguous 3 13 small_pmm = Done (r, s') /\
    match r with
    | None => s' = small_pmm /\
        (3 = 0 \/ 64 <= 13 \/ no_fit_before small_pmm 3 (2 ^ 13) (arena_count small_pmm))
    | Some run => exists i a st, active small_pmm i a /\ first_fit small_pmm a 3 (2 ^ 13) st /\
        no_fit_before small_pmm 3 (2 ^ 13) i /\
        run = {| run_head := PageHandle_new i st; run_count := 3 |} /\ took small_pmm l s' i st 3
    end.
Proof.
  destruct small_inv as [l Hinv]. exists l.
  destruct (proj1 (wp_unfold _ _ _) (alloc_contiguous_first_fit small_pmm l 3 13 Hinv
    ltac:(discriminate) ltac:(discriminate))) as (r & s' & Hrun & Hpost).
  exists r, s'. split; [exact Hinv|]. split; [exact Hrun|].
  destruct r as [run|]; [exact (proj2 (proj2 Hpost))|exact Hpost].
Defined.

Lemma free_contiguous_cases_witness :
  exists r s', free_contiguous (PageHandle_new 0 3) 2 small_pmm = Done (r, s') /\
    match r with
    | Ok _ => True
    | Err e => s' = small_pmm /\ refusal small_pmm (PageHandle_new 0 3) 2 e
    end.
Proof.
  destruct small_inv as [l Hinv].
  destruct (proj1 (wp_unfold _ _ _) (free_contiguous_cases small_pmm l (PageHandle_new 0 3) 2 Hinv
    ltac:(split; [discriminate|reflexivity]) ltac:(discriminate) ltac:(discriminate)))
    as (r & s' & Hrun & Hpost).
  exists r, s'. split; [exact Hrun|]. destruct r as [|e]; [exact I|].
  split; [exact (proj1 Hpost)|exact (proj2 (proj2 Hpost))].
Defined.

Definition small_run : PageRun := {| run_head := PageHandle_new 0 4; run_count := 3 |}.
Definition small_run_pmm : Pmm :=
  match alloc_contiguous 3 13 small_pmm with Done (_, s) => s | _ => small_pmm end.

Lemma run_round_trip_witness :
  exists s2, free_contiguous (PageHandle_new 0 4) 3 small_run_pmm = Done (Ok tt, s2) /\
    free_pages s2 = free_pages small_pmm.
Proof.
  destruct small_inv as [l Hinv].
  assert (alloc_contiguous 3 13 small_pmm = Done (Some small_run, small_run_pmm)) as Hrun
    by (vm_compute; reflexivity).
  destruct (run_round_trip small_pmm small_run_pmm l 3 13 small_run Hinv
    ltac:(split; [discriminate|reflexivity]) ltac:(split; [discriminate|reflexivity]) Hrun)
    as (s2 & l2 & Hfree & _ & _ & _ & Hn & _).
  exists s2. split; [exact Hfree|exact Hn].
Defined.

Lemma page_physical_round_trip_witness :
  exists a phys, arena_for small_pmm (PageHandle_new 0 5) = Some a /\
    page_to_physical a (PageHandle_new 0 5) = Some phys /\ phys mod PAGE_SIZE = 0 /\
    arena_for_physical small_pmm phys = Some a /\ physical_to_page a phys = Some (PageHandle_new 0 5).
Proof.
  destruct small_inv as [l Hinv].
  apply (page_physical_round_trip small_pmm l (PageHandle_new 0 5) Hinv).
  split; [discriminate|]. split; [discriminate|]. vm_compute. eexists. reflexivity.
Defined.

Lemma empty_reserved_inv : reserved_inv (Pmm_empty ∅).
Proof. apply (bd_reserved 0 (Pmm_empty ∅) []), building_empty. Qed.

Lemma record_reserved_exact_witness :
  exists r s', record_reserved 0x1000 0x3000 (Pmm_empty ∅) = Done (r, s') /\ reserved_inv s'.
Proof.
  destruct (proj1 (wp_unfold _ _ _) (record_reserved_exact (Pmm_empty ∅) 0x1000 0x3000
    empty_reserved_inv ltac:(discriminate) ltac:(split; [discriminate|reflexivity])))
    as (r & s' & Hrun & _ & Hinv & _).
  exists r, s'. split; [exact Hrun|exact Hinv].
Defined.

Lemma find_metadata_range_highest_witness :
  find_metadata_range 0x1000 4 1 (Pmm_empty ∅) = Done (Ok (Some 0x4000), Pmm_empty ∅) /\
  forall c', metadata_fits [] 0x1000 0x5000 0x1000 c' -> c' <= 0x4000.
Proof.
  destruct (proj1 (wp_unfold _ _ _) (find_metadata_range_highest (Pmm_empty ∅) 0x1000 4 1
    empty_reserved_inv ltac:(split; [discriminate|reflexivity]) eq_refl ltac:(discriminate)
    ltac:(discriminate))) as (r & s' & Hrun & _ & Hpost).
  assert (find_metadata_range 0x1000 4 1 (Pmm_empty ∅) = Done (Ok (Some 0x4000), Pmm_empty ∅)) as Heq
    by (vm_compute; reflexivity).
  split; [exact Heq|]. rewrite Heq in Hrun. injection Hrun as <- <-.
  exact (proj2 (proj2 (proj2 Hpost))).
Defined.
