(* ===== verification/HwInfoTheorems.v ===== *)
(** * Properties of the hardware description

    What [HardwareInfo::from_fdt] makes of a device tree, for every answer of
    the [fdt] crate: the memory and reserved regions it keeps, that it returns
    unless the crate panics, and that its result is a description the page
    allocator accepts. *)

From S2P Require Import Prelude Address HwInfo Pmm PmmInit.
From stdpp Require Import base tactics option list list_numbers numbers gmap strings sorting.

#[local] Open Scope Z_scope.
#[local] Open Scope kernel_scope.

(** ** Sorting *)

Definition larger_first (a b : MemoryRegion) : Prop := region_size b <= region_size a.

Lemma shift_smaller_spec key P h R :
  exists P1 P2, P = P1 ++ P2 /\ Forall (fun r => region_size r < region_size key) P2 /\
    (P1 = [] \/ exists P0 r, P1 = P0 ++ [r] /\ region_size key <= region_size r) /\
    let '(j, L) := shift_smaller key (length P) (P ++ h :: R) in <[j := key]> L = P1 ++ key :: P2 ++ R.
Proof.
  revert h R. induction P as [|r P IH] using rev_ind; intros h R.
  - exists [], []. split_and!; [done|constructor|by left|done].
  - rewrite length_app, Nat.add_comm. cbn [length Nat.add shift_smaller]. rewrite <-(assoc_L (++)). cbn [app].
    rewrite list_lookup_middle by done. destruct (Z.ltb_spec (region_size r) (region_size key)) as [Hlt|Hge].
    + replace (<[S (length P) := r]> (P ++ r :: h :: R)) with (P ++ r :: r :: R).
      2:{ rewrite insert_app_r_alt by lia. by replace (S (length P) - length P)%nat with 1%nat by lia. }
      destruct (IH r (r :: R)) as (P1 & P2 & -> & Hall & Hlast & Heq). exists P1, (P2 ++ [r]). split_and!.
      * by rewrite (assoc_L (++)).
      * apply Forall_app. by split; [|constructor].
      * done.
      * destruct (shift_smaller key _ _) as [j L]. rewrite Heq. by rewrite <-(assoc_L (++)).
    + exists (P ++ [r]), []. split_and!; [by rewrite app_nil_r|constructor|right; by exists P, r|].
      replace (S (length P)) with (length (P ++ [r]) + 0)%nat by (rewrite length_app; cbn; lia).
      change (P ++ r :: h :: R) with (P ++ [r] ++ h :: R). rewrite (assoc_L (++)), insert_app_r. done.
Qed.

Lemma sorted_last P r x : StronglySorted larger_first (P ++ [r]) -> x ∈ P ++ [r] -> region_size r <= region_size x.
Proof.
  intros Hs [Hx|Hx]%elem_of_app; [|by apply list_elem_of_singleton in Hx as ->].
  apply (StronglySorted_app_1_elem_of larger_first P [r] x r Hs Hx). by left.
Qed.

Lemma insert_region_spec P key R :
  StronglySorted larger_first P ->
  exists P', insert_region (P ++ key :: R) (length P) = P' ++ R /\ P' ≡ₚ P ++ [key] /\ StronglySorted larger_first P'.
Proof.
  intros Hs. unfold insert_region. rewrite list_lookup_middle by done.
  destruct (shift_smaller_spec key P key R) as (P1 & P2 & -> & Hall & Hlast & Heq).
  destruct (shift_smaller key _ _) as [j L]. exists (P1 ++ key :: P2). split; [by rewrite Heq, <-(assoc_L (++))|]. split.
  { rewrite <-(assoc_L (++)). apply Permutation_app_head, Permutation_cons_append. }
  apply StronglySorted_app in Hs as (Hx & H1 & H2). apply StronglySorted_app. split_and!; [|done|].
  - intros x y Hx1 [->|Hy]%elem_of_cons; [|by apply Hx]. destruct Hlast as [->|(P0 & r & -> & Hr)]; [by apply elem_of_nil in Hx1|].
    unfold larger_first. pose proof (sorted_last P0 r x H1 Hx1). lia.
  - constructor; [done|]. apply Forall_forall. intros y Hy. pose proof (Forall_elem _ _ _ Hall Hy : _ < _). unfold larger_first. lia.
Qed.

Lemma sort_regions_spec regions :
  sort_regions_by_size regions ≡ₚ regions /\ StronglySorted larger_first (sort_regions_by_size regions).
Proof.
  unfold sort_regions_by_size.
  assert (forall m, (m < length regions)%nat -> exists P, foldl insert_region regions (seq 1 m) = P ++ drop (S m) regions /\
    P ≡ₚ take (S m) regions /\ StronglySorted larger_first P) as Hloop.
  { induction m as [|m IH]; intros Hm.
    - destruct regions as [|r regions]; [cbn in Hm; lia|]. exists [r]. split_and!; [done|done|repeat constructor].
    - destruct IH as (P & Heq & Hp & Hs); [lia|]. rewrite seq_S, foldl_app, Heq. cbn [foldl].
      destruct (lookup_lt_is_Some_2 regions (S m) ltac:(lia)) as [key Hk].
      rewrite (drop_S _ _ _ Hk). pose proof (Permutation_length Hp) as Hlen. rewrite length_take_le in Hlen by lia.
      replace (1 + m)%nat with (length P) by lia.
      destruct (insert_region_spec P key (drop (S (S m)) regions) Hs) as (P' & -> & Hp' & Hs'). exists P'. split_and!; [done| |done].
      rewrite Hp', Hp. by rewrite (take_S_r _ _ _ Hk). }
  destruct (decide (length regions = 0)%nat) as [Hz|Hnz].
  - apply length_zero_iff_nil in Hz as ->. split; [done|constructor].
  - destruct (Hloop (length regions - 1)%nat ltac:(lia)) as (P & -> & Hp & Hs).
    rewrite drop_ge, app_nil_r by lia. rewrite take_ge in Hp by lia. done.
Qed.

(** ** Collecting regions *)

Definition arenas : nat := Z.to_nat MAX_MEMORY_ARENAS.
Definition reservations : nat := Z.to_nat MAX_RESERVED_REGIONS.

(** The size that [total_memory] counts. *)
Definition total_of (l : list MemoryRegion) : Z :=
  foldl (fun total r => saturating_add 64 total (region_size r)) 0 l.
(** How many regions did not fit, counting [extra] entries that were no region. *)
Definition overflow (limit : nat) (l : list MemoryRegion) (extra : nat) : Z :=
  Z.min (Z.of_nat (length l - limit + extra)) (2 ^ 64 - 1).

(** [l] was pushed into the memory regions, and into the reserved regions. *)
Record memory_is (info : HardwareInfo) (l : list MemoryRegion) : Prop := {
  mi_array : length (memory_regions_array info) = arenas;
  mi_count : memory_region_count info = Z.of_nat (length (take arenas l));
  mi_regions : memory_regions info = take arenas l;
  mi_dropped : dropped_memory_regions info = overflow arenas l 0;
  mi_total : total_memory info = total_of (take arenas l);
}.
Record reserved_is (info : HardwareInfo) (l : list MemoryRegion) (extra : nat) : Prop := {
  ri_array : length (reserved_regions_array info) = reservations;
  ri_count : reserved_region_count info = Z.of_nat (length (take reservations l));
  ri_regions : reserved_regions info = take reservations l;
  ri_dropped : dropped_reserved_regions info = overflow reservations l extra;
}.

Lemma take_snoc_lt {A} n (l : list A) x : (length l < n)%nat -> take n (l ++ [x]) = take n l ++ [x].
Proof. intros Hn. rewrite take_app_ge, (take_ge l) by lia. replace (n - length l)%nat with (S (n - length l - 1)) by lia.
  cbn. by rewrite take_nil. Qed.
Lemma take_snoc_ge {A} n (l : list A) x : (n <= length l)%nat -> take n (l ++ [x]) = take n l.
Proof. intros Hn. by rewrite take_app_le. Qed.
Lemma take_insert_at {A} (a : list A) n x : (n < length a)%nat -> take (S n) (<[n := x]> a) = take n a ++ [x].
Proof.
  intros Hn. rewrite (take_S_r _ _ x); [|by apply list_lookup_insert_eq]. by rewrite take_insert_ge.
Qed.

Lemma push_memory_is info l r : memory_is info l -> memory_is (push_memory_region r info) (l ++ [r]).
Proof.
  intros [Ha Hc Hr Hd Ht]. unfold push_memory_region. rewrite Hc, Ha. rewrite length_take.
  destruct (decide (length l < arenas)%nat) as [Hlt|Hge].
  - rewrite Nat.min_r by lia. rewrite (proj2 (Z.leb_gt _ _)) by lia. rewrite length_take, Nat.min_r in Hc by lia.
    rewrite Nat2Z.id. split; cbn [memory_regions_array memory_region_count dropped_memory_regions total_memory set_memory_regions].
    + by rewrite length_insert.
    + rewrite take_snoc_lt, length_app, length_take by done. cbn. lia.
    + unfold memory_regions in *. cbn [memory_regions_array memory_region_count set_memory_regions]. rewrite Hc, Nat2Z.id in Hr.
      replace (Z.to_nat (Z.of_nat (length l) + 1)) with (S (length l)) by lia.
      rewrite take_insert_at by lia. by rewrite Hr, take_snoc_lt by done.
    + rewrite Hd. unfold overflow. rewrite length_app. cbn [length]. do 2 f_equal. lia.
    + rewrite Ht, take_snoc_lt by done. unfold total_of. by rewrite foldl_app.
  - rewrite Nat.min_l by lia. rewrite (proj2 (Z.leb_le _ _)) by lia.
    split; cbn [memory_regions_array memory_region_count dropped_memory_regions total_memory set_memory_regions];
      rewrite ?take_snoc_ge by lia; try done.
    + rewrite length_take. lia.
    + unfold memory_regions in *. rewrite Hc, length_take, Nat.min_l in Hr by lia. exact Hr.
    + rewrite Hd. unfold overflow, saturating_add. rewrite length_app. cbn [length]. lia.
Qed.

Lemma push_reserved_is info l r extra :
  reserved_is info l extra -> reserved_is (push_reserved_region r info) (l ++ [r]) extra.
Proof.
  intros [Ha Hc Hr Hd]. unfold push_reserved_region. rewrite Hc, Ha. rewrite length_take.
  destruct (decide (length l < reservations)%nat) as [Hlt|Hge].
  - rewrite Nat.min_r by lia. rewrite (proj2 (Z.leb_gt _ _)) by lia. rewrite length_take, Nat.min_r in Hc by lia.
    rewrite Nat2Z.id. split; cbn [reserved_regions_array reserved_region_count dropped_reserved_regions set_reserved_regions].
    + by rewrite length_insert.
    + rewrite take_snoc_lt, length_app, length_take by done. cbn. lia.
    + unfold reserved_regions in *. cbn [reserved_regions_array reserved_region_count set_reserved_regions]. rewrite Hc, Nat2Z.id in Hr.
      replace (Z.to_nat (Z.of_nat (length l) + 1)) with (S (length l)) by lia.
      rewrite take_insert_at by lia. by rewrite Hr, take_snoc_lt by done.
    + rewrite Hd. unfold overflow. rewrite length_app. cbn [length]. do 2 f_equal. lia.
  - rewrite Nat.min_l by lia. rewrite (proj2 (Z.leb_le _ _)) by lia.
    split; cbn [reserved_regions_array reserved_region_count dropped_reserved_regions set_reserved_regions];
      rewrite ?take_snoc_ge by lia; try done.
    + rewrite length_take. lia.
    + unfold reserved_regions in *. rewrite Hc, length_take, Nat.min_l in Hr by lia. exact Hr.
    + rewrite Hd. unfold overflow, saturating_add. rewrite length_app. cbn [length]. lia.
Qed.
Lemma drop_reserved_is info l extra : reserved_is info l extra -> reserved_is (drop_reserved_region info) l (S extra).
Proof. intros [Ha Hc Hr Hd]. split; [done..|]. cbn. rewrite Hd. unfold overflow, saturating_add. lia. Qed.

Lemma push_memory_all l info l0 :
  memory_is info l0 -> memory_is (foldl (fun info r => push_memory_region r info) info l) (l0 ++ l).
Proof.
  revert info l0. induction l as [|r l IH]; intros info l0 Hi; [by rewrite app_nil_r|].
  rewrite cons_middle, (assoc_L (++)). by apply IH, push_memory_is.
Qed.
Lemma push_reserved_all l info l0 extra :
  reserved_is info l0 extra -> reserved_is (foldl (fun info r => push_reserved_region r info) info l) (l0 ++ l) extra.
Proof.
  revert info l0. induction l as [|r l IH]; intros info l0 Hi; [by rewrite app_nil_r|].
  rewrite cons_middle, (assoc_L (++)). by apply IH, push_reserved_is.
Qed.

(** What the reserved regions do not touch. *)
Definition memory_part (info : HardwareInfo) :=
  (dtb_phys info, dtb_size info, memory_regions_array info, memory_region_count info,
   dropped_memory_regions info, total_memory info).
Lemma push_reserved_part r info : memory_part (push_reserved_region r info) = memory_part info.
Proof. unfold push_reserved_region. by case_match. Qed.
Lemma push_reserved_all_part l info :
  memory_part (foldl (fun info r => push_reserved_region r info) info l) = memory_part info.
Proof. revert info. induction l as [|r l IH]; intros info; [done|]. cbn. by rewrite IH, push_reserved_part. Qed.
Lemma push_memory_all_reserved l info l0 extra :
  reserved_is info l0 extra -> reserved_is (foldl (fun info r => push_memory_region r info) info l) l0 extra.
Proof.
  revert info. induction l as [|r l IH]; intros info Hi; [done|]. apply IH. destruct Hi as [Ha Hc Hr Hd].
  unfold push_memory_region. by case_match; split.
Qed.

(** ** The memory reservation block *)

Definition be_bytes (v : Z) : list Z := map (fun k => v / 256 ^ k mod 256) [7; 6; 5; 4; 3; 2; 1; 0].
Definition encode_reservation (r : MemoryRegion) : list Z := be_bytes (region_base r) ++ be_bytes (region_size r).
Definition terminator : list Z := replicate 16 0.
Definition region_u64 (r : MemoryRegion) : Prop := is_uint 64 (region_base r) /\ is_uint 64 (region_size r).
Definition region_zero (r : MemoryRegion) : Prop := region_base r = 0 /\ region_size r = 0.

Lemma read_be_bytes v rest : is_uint 64 v -> read_be_u64 (be_bytes v ++ rest) = Some v.
Proof.
  unfold is_uint. intros Hv. cbn [be_bytes map app read_be_u64 from_be_bytes foldl]. f_equal.
  change (256 ^ 7) with 72057594037927936. change (256 ^ 6) with 281474976710656. change (256 ^ 5) with 1099511627776.
  change (256 ^ 4) with 4294967296. change (256 ^ 3) with 16777216. change (256 ^ 2) with 65536.
  change (256 ^ 1) with 256. change (256 ^ 0) with 1. divlia.
Qed.

Lemma read_be_u64_bound bytes v : Forall (is_uint 8) bytes -> read_be_u64 bytes = Some v -> is_uint 64 v.
Proof.
  unfold is_uint. do 8 (destruct bytes as [|? bytes]; [done|]). cbn [read_be_u64]. intros Hall [= <-].
  repeat (apply Forall_cons in Hall as [? Hall]). cbn [from_be_bytes foldl]. lia.
Qed.

Lemma from_fdt_reg_u64 a n :
  is_uint 64 a -> is_uint 64 n -> MemoryRegion_from_fdt_reg a n = Some {| region_base := a; region_size := n |}.
Proof.
  intros [_ Ha] [_ Hn]. unfold MemoryRegion_from_fdt_reg, PhysicalAddress_try_from_u64, try_from_uint.
  by rewrite (proj2 (Z.ltb_lt _ _) Ha), (proj2 (Z.ltb_lt _ _) Hn).
Qed.

Lemma loop_encoded l tail fuel info :
  Forall region_u64 l -> Forall (fun r => ~ region_zero r) l -> (length l < fuel)%nat ->
  reservation_block_loop fuel (mjoin (encode_reservation <$> l) ++ terminator ++ tail) info =
    Done (true, foldl (fun info r => push_reserved_region r info) info l).
Proof.
  revert fuel info. induction l as [|r l IH]; intros fuel info Hu Hz Hf; (destruct fuel as [|fuel]; [cbn in Hf; lia|]).
  - cbn [fmap list_fmap mjoin list_join app]. unfold terminator. cbn [replicate app reservation_block_loop].
    rewrite (proj2 (Z.ltb_ge _ _)) by (cbn [length]; lia). done.
  - apply Forall_cons in Hu as [[Ha Hn] Hu]. apply Forall_cons in Hz as [Hr Hz].
    cbn [fmap list_fmap mjoin list_join]. unfold encode_reservation at 1. rewrite <-!(assoc_L (++)).
    cbn [reservation_block_loop]. set (block := be_bytes (region_size r) ++ _).
    rewrite (proj2 (Z.ltb_ge _ _)) by (rewrite length_app; unfold block; rewrite length_app; cbn [be_bytes map length]; lia).
    rewrite (read_be_bytes _ block Ha). change (drop 8 (be_bytes (region_base r) ++ block)) with block.
    unfold block at 1. rewrite (read_be_bytes _ _ Hn).
    change (drop 16 (be_bytes (region_base r) ++ block)) with (drop 8 block).
    destruct ((region_base r =? 0) && (region_size r =? 0)) eqn:He.
    { apply andb_true_iff in He as [?%Z.eqb_eq ?%Z.eqb_eq]. by destruct Hr. }
    rewrite (from_fdt_reg_u64 _ _ Ha Hn). unfold bind, modify. unfold block. cbn [be_bytes map app drop].
    rewrite IH by (done || cbn in Hf; lia). by destruct r.
Qed.

(** The regions that a block of 16-byte entries lists up to the zero entry,
    and how many times it is cut short: 1 when the zero entry is missing. *)
Fixpoint block_regions (block : list Z) : list MemoryRegion * nat :=
  match block with
  | b0 :: b1 :: b2 :: b3 :: b4 :: b5 :: b6 :: b7 :: c0 :: c1 :: c2 :: c3 :: c4 :: c5 :: c6 :: c7 :: rest =>
      let address := from_be_bytes [b0; b1; b2; b3; b4; b5; b6; b7] in
      let size := from_be_bytes [c0; c1; c2; c3; c4; c5; c6; c7] in
      if (address =? 0) && (size =? 0) then ([], 0%nat)
      else let '(l, missing) := block_regions rest in ({| region_base := address; region_size := size |} :: l, missing)
  | _ => ([], 1%nat)
  end.

Lemma block_regions_short block : (length block < 16)%nat -> block_regions block = ([], 1%nat).
Proof. intros Hlen. do 16 (destruct block as [|? block]; [done|]). cbn in Hlen. lia. Qed.

(** An entry of a block, as the loop reads it and as [block_regions] does. *)
Lemma block_regions_entry block :
  Forall (is_uint 8) block -> (16 <= length block)%nat -> exists a n,
    read_be_u64 block = Some a /\ read_be_u64 (drop 8 block) = Some n /\ is_uint 64 a /\ is_uint 64 n /\
    block_regions block = if (a =? 0) && (n =? 0) then ([], 0%nat) else
      ({| region_base := a; region_size := n |} :: (block_regions (drop 16 block)).1, (block_regions (drop 16 block)).2).
Proof.
  intros Hb Hlen. do 16 (destruct block as [|? block]; [cbn in Hlen; lia|]). eexists _, _.
  assert (Hn := read_be_u64_bound _ _ (Forall_drop _ 8 _ Hb) eq_refl). cbn [drop] in Hn.
  split; [reflexivity|]. split; [reflexivity|]. split; [by apply (read_be_u64_bound _ _ Hb)|]. split; [exact Hn|].
  cbn [block_regions drop]. rewrite drop_0. destruct (block_regions block) as [l missing]. cbn [fst snd]. reflexivity.
Qed.

Lemma block_regions_u64 block : Forall (is_uint 8) block -> Forall region_u64 (block_regions block).1.
Proof.
  induction block as [block IH] using (well_founded_ind (well_founded_ltof _ (@length Z))). intros Hb.
  destruct (decide (length block < 16)%nat) as [Hs|Hl]; [rewrite (block_regions_short _ Hs); constructor|].
  destruct (block_regions_entry block Hb) as (a & n & _ & _ & Ha & Hn & ->); [lia|].
  destruct ((a =? 0) && (n =? 0)); [constructor|]. constructor; [by split|].
  apply IH; [unfold ltof; rewrite length_drop; lia|by apply Forall_drop].
Qed.

(** Whatever the block holds, the loop ends, adds the regions the block lists
    and tells whether the zero entry was there. *)
Lemma loop_any fuel block info l extra :
  Forall (is_uint 8) block -> (length block < fuel)%nat -> reserved_is info l extra ->
  wp (reservation_block_loop fuel block) (fun found info' => reserved_is info' (l ++ (block_regions block).1) extra /\
    (block_regions block).2 = (if found : bool then 0 else 1)%nat /\ memory_part info' = memory_part info) info.
Proof.
  revert block info l extra. induction fuel as [|fuel IH]; intros block info l extra Hb Hf Hi; [lia|].
  cbn [reservation_block_loop]. destruct (Z.ltb_spec (Z.of_nat (length block)) 16) as [Hs|Hlen].
  { apply wp_ret. rewrite block_regions_short by lia. by rewrite app_nil_r. }
  destruct (block_regions_entry block Hb) as (a & n & -> & -> & Ha & Hn & ->); [lia|].
  destruct ((a =? 0) && (n =? 0)); [apply wp_ret; by rewrite app_nil_r|].
  rewrite (from_fdt_reg_u64 a n Ha Hn). apply wp_bind, wp_modify.
  eapply wp_mono; [apply (IH (drop 16 block) _ (l ++ [{| region_base := a; region_size := n |}]) extra)|].
  - by apply Forall_drop.
  - rewrite length_drop. lia.
  - by apply push_reserved_is.
  - intros found info' (Hi' & He & Hm). rewrite <-(assoc_L (++)) in Hi'. split_and!; [done..|].
    by rewrite Hm, push_reserved_part.
Qed.

(** The memory reservation block reads back: from a blob whose block lists
    any non-empty regions and ends with the terminator, exactly these regions
    are added to the reserved ones, in order, whatever follows. *)
Theorem reservation_block_round_trip l prefix tail info offset :
  Forall region_u64 l -> Forall (fun r => ~ region_zero r) l -> offset = Z.of_nat (length prefix) ->
  collect_memory_reservation_block offset (prefix ++ mjoin (encode_reservation <$> l) ++ terminator ++ tail) info =
    Done (tt, foldl (fun info r => push_reserved_region r info) info l).
Proof.
  intros Hu Hz ->. unfold collect_memory_reservation_block. rewrite (proj2 (Z.ltb_ge _ _)) by (rewrite length_app; lia).
  rewrite Nat2Z.id, drop_app_length. unfold bind. rewrite loop_encoded; [done|done|done|].
  assert (forall l, (length l <= length (mjoin (encode_reservation <$> l)))%nat) as Hlen.
  { intros l'. induction l' as [|r l' IH]; [done|]. change (mjoin (encode_reservation <$> r :: l')) with
      (encode_reservation r ++ mjoin (encode_reservation <$> l')). rewrite length_app. cbn [length].
    change (length (encode_reservation r)) with 16%nat. lia. }
  rewrite length_app. specialize (Hlen l). lia.
Qed.

(** ** ISA strings *)

(** [ext] is one of the names of [isa], which underscores separate. *)
Definition names_extension (isa ext : list Z) : Prop :=
  exists before after, isa = before ++ ext ++ after /\
    (before = [] \/ last before = Some underscore) /\ (after = [] \/ head after = Some underscore).

Definition matches_at (isa ext : list Z) (i : nat) : Prop := take (length ext) (drop i isa) = ext.
Definition bounded_at (isa ext : list Z) (i : nat) : bool :=
  ((i =? 0)%nat || bool_decide (isa !! (i - 1)%nat = Some underscore)) &&
  ((i + length ext =? length isa)%nat || bool_decide (isa !! (i + length ext)%nat = Some underscore)).

Lemma matches_lt isa ext i : ext <> [] -> matches_at isa ext i -> (i + length ext <= length isa)%nat.
Proof.
  unfold matches_at. intros Hne Hm. apply (f_equal length) in Hm. rewrite length_take, length_drop in Hm.
  destruct ext; [done|]. cbn [length] in *. lia.
Qed.

Lemma find_subslice_spec haystack needle :
  match find_subslice haystack needle with
  | Some k => matches_at haystack needle k /\ forall j, (j < k)%nat -> ~ matches_at haystack needle j
  | None => forall j, needle <> [] -> ~ matches_at haystack needle j
  end.
Proof.
  unfold matches_at. induction haystack as [|x haystack IH].
  - cbn [find_subslice]. destruct (decide _) as [Heq|Hne]; [split; [done|lia]|].
    intros j Hn Hm. rewrite drop_nil, take_nil in Hm. congruence.
  - cbn [find_subslice]. destruct (decide _) as [Heq|Hne]; [split; [done|lia]|].
    destruct (find_subslice haystack needle) as [k|]; cbn [option_map].
    + destruct IH as [Hk Hj]. split; [done|]. intros [|j] Hlt; [done|]. apply Hj. lia.
    + intros [|j] Hn; [done|]. by apply IH.
Qed.

Lemma isa_scan_spec isa ext fuel pos :
  ext <> [] -> (length isa < fuel + pos)%nat ->
  isa_scan fuel isa ext pos = true <-> exists i, (pos <= i)%nat /\ matches_at isa ext i /\ bounded_at isa ext i = true.
Proof.
  intros Hne. revert pos. induction fuel as [|fuel IH]; intros pos Hf.
  - split; [done|]. intros (i & Hi & Hm & _). apply matches_lt in Hm; [lia|done].
  - cbn [isa_scan]. pose proof (find_subslice_spec (drop pos isa) ext) as Hspec.
    destruct (find_subslice (drop pos isa) ext) as [k|]; unfold matches_at in Hspec; setoid_rewrite drop_drop in Hspec.
    + destruct Hspec as [Hk Hj]. fold (bounded_at isa ext (pos + k)).
      destruct (bounded_at isa ext (pos + k)) eqn:Hb; [split; [|done]; intros _; exists (pos + k)%nat; split_and!; [lia|done|done]|].
      rewrite IH by lia. split; intros (i & Hi & Hm & Hbi); exists i; [split_and!; [lia|done..]|].
      split_and!; [|done..]. destruct (decide (i < pos + k)%nat) as [Hlt|Hge].
      * exfalso. apply (Hj (i - pos)%nat ltac:(lia)). by replace (pos + (i - pos))%nat with i by lia.
      * assert (i <> pos + k)%nat by congruence. lia.
    + split; [done|]. intros (i & Hi & Hm & _). exfalso. apply (Hspec (i - pos)%nat Hne).
      by replace (pos + (i - pos))%nat with i by lia.
Qed.

Lemma bounded_split before ext after :
  bounded_at (before ++ ext ++ after) ext (length before) = true <->
  (before = [] \/ last before = Some underscore) /\ (after = [] \/ head after = Some underscore).
Proof.
  unfold bounded_at. rewrite andb_true_iff, !orb_true_iff, !bool_decide_eq_true, !Nat.eqb_eq, !length_app.
  assert ((before ++ ext ++ after) !! (length before + length ext)%nat = head after) as ->.
  { rewrite (assoc_L (++)), lookup_app_r by (rewrite length_app; lia). rewrite length_app, Nat.sub_diag. by destruct after. }
  split; intros [H1 H2]; (split; [clear H2|clear H1]).
  - destruct before as [|x before _] using rev_ind; [by left|right]. rewrite last_snoc. destruct H1 as [H1|H1].
    + rewrite length_app in H1. cbn in H1. lia.
    + rewrite length_app, <-(assoc_L (++)), lookup_app_r in H1 by (cbn; lia). cbn [length] in H1.
      by replace (length before + 1 - 1 - length before)%nat with 0%nat in H1 by lia.
  - destruct H2 as [H2|H2]; [left; apply length_zero_iff_nil; lia|by right].
  - destruct before as [|x before _] using rev_ind; [by left|right]. rewrite last_snoc in H1. destruct H1 as [H1|H1].
    + by apply app_nil in H1 as [_ ?].
    + rewrite length_app, <-(assoc_L (++)), lookup_app_r by (cbn; lia). cbn [length].
      by replace (length before + 1 - 1 - length before)%nat with 0%nat by lia.
  - destruct H2 as [->|H2]; [left; cbn; lia|by right].
Qed.

(** [isa_string_has_extension] is exact: it holds of an ISA string and a
    non-empty name exactly when the name occurs in the string between
    underscores or the string's ends. *)
Theorem isa_extension_exact isa ext :
  isa_string_has_extension isa ext = true <-> ext <> [] /\ names_extension isa ext.
Proof.
  unfold isa_string_has_extension. destruct ext as [|x ext'] eqn:Hext; [cbn; split; [done|by intros [? _]]|].
  rewrite <-Hext. assert (ext <> []) as Hne by (by rewrite Hext). clear Hext x ext'.
  assert ((length ext =? 0)%nat = false) as -> by (apply Nat.eqb_neq; by destruct ext). cbn [orb].
  assert ((exists i, matches_at isa ext i /\ bounded_at isa ext i = true) <-> names_extension isa ext) as Hnames.
  { split.
    - intros (i & Hm & Hb). pose proof (matches_lt _ _ _ Hne Hm) as Hlt. unfold matches_at in Hm.
      assert (isa = take i isa ++ ext ++ drop (length ext) (drop i isa)) as Hsplit.
      { rewrite <-Hm at 1. by rewrite take_drop, take_drop. }
      exists (take i isa), (drop (length ext) (drop i isa)). split; [exact Hsplit|]. apply (bounded_split _ ext).
      rewrite <-Hsplit, length_take_le by lia. exact Hb.
    - intros (before & after & -> & Hb). exists (length before). split; [|by apply bounded_split].
      unfold matches_at. by rewrite drop_app_length, take_app_length. }
  destruct (Nat.ltb_spec (length isa) (length ext)) as [Hshort|Hlong].
  - split; [done|]. intros [_ (i & Hm & _)%Hnames]. apply matches_lt in Hm; [lia|done].
  - rewrite isa_scan_spec by (done || lia). rewrite <-Hnames. split.
    + intros (i & _ & Hm & Hb). split; [done|]. by exists i.
    + intros [_ (i & Hm & Hb)]. exists i. split_and!; [lia|done..].
Qed.

(** ** What the crate's answers say *)

(** [m] returns with [Q], or panics with a message that [E] allows; it does
    nothing else. *)
Definition wpe {S A} (m : M S A) (Q : A -> S -> Prop) (E : string -> Prop) (s : S) : Prop :=
  match m s with Done (a, s') => Q a s' | Panic msg => E msg | Undefined | OutOfFuel => False end.

Lemma wpe_ret {S A} (a : A) Q E (s : S) : Q a s -> wpe (ret a) Q E s.
Proof. done. Qed.
Lemma wpe_bind {S A B} (m : M S A) (f : A -> M S B) Q E s : wpe m (fun a => wpe (f a) Q E) E s -> wpe (bind m f) Q E s.
Proof. unfold wpe, bind. by destruct (m s) as [[a s']| | |]. Qed.
Lemma wpe_mono {S A} (m : M S A) (P Q : A -> S -> Prop) E s : wpe m P E s -> (forall a s', P a s' -> Q a s') -> wpe m Q E s.
Proof. unfold wpe. destruct (m s) as [[a s']| | |]; auto. Qed.
Lemma wpe_modify {S} (f : S -> S) Q E s : Q tt (f s) -> wpe (modify f) Q E s.
Proof. done. Qed.
Lemma wpe_total {S A} (m : M S A) Q E s : wp m Q s -> wpe m Q E s.
Proof. unfold wp, wpe. by destruct (m s) as [[a s']| | |]. Qed.
Lemma wpe_for_each_pure {S A} (l : list A) (f : A -> S -> S) E s (Q : unit -> S -> Prop) :
  Q tt (foldl (fun s a => f a s) s l) -> wpe (for_each l (fun a => modify (f a))) Q E s.
Proof. revert s. induction l as [|a l IH]; intros s HQ; [done|]. cbn [for_each]. apply wpe_bind, wpe_modify, IH, HQ. Qed.

(** ** The whole description *)

Section Tree.
Context `{FdtParser}.

(** The value of an answer that is not a panic. *)
Definition answered {A} (a : Answer A) : option A := match a with Ok a => Some a | Err _ => None end.
Definition tree_node (fdt : Fdt) (path : string) : option Node := mjoin (answered (fdt_find_node fdt path)).
Definition tree_compatible (fdt : Fdt) (compatible : list string) : option Node :=
  head (fdt_all_compatible fdt compatible) ≫= answered.
Definition children (node : Node) : list Node := omap answered (node_children node).
Definition reg_of (node : Node) : option (list (option (Z * Z))) := mjoin (answered (node_reg node)).
Definition property_of (node : Node) (name : string) : option (list Z) := mjoin (answered (node_raw_property node name)).

(** The nodes that the crate reaches in a tree, and the panics it raises there. *)
Inductive node_of (fdt : Fdt) : Node -> Prop :=
  | node_found path node : fdt_find_node fdt path = Ok (Some node) -> node_of fdt node
  | node_compatible names node : Ok node ∈ fdt_all_compatible fdt names -> node_of fdt node
  | node_child parent node : node_of fdt parent -> Ok node ∈ node_children parent -> node_of fdt node.
Inductive raises (fdt : Fdt) (msg : string) : Prop :=
  | raises_find path : fdt_find_node fdt path = Err msg -> raises fdt msg
  | raises_compatible names : Err msg ∈ fdt_all_compatible fdt names -> raises fdt msg
  | raises_children node : node_of fdt node -> Err msg ∈ node_children node -> raises fdt msg
  | raises_name node : node_of fdt node -> node_name node = Err msg -> raises fdt msg
  | raises_reg node : node_of fdt node -> node_reg node = Err msg -> raises fdt msg
  | raises_property node name : node_of fdt node -> node_raw_property node name = Err msg -> raises fdt msg.

(** The accessors return values of their Rust types. *)
Definition entry_u64 (entry : option (Z * Z)) : Prop :=
  match entry with Some (address, len) => is_uint 64 address /\ is_uint 64 len | None => True end.
Record fdt_typed (fdt : Fdt) : Prop := {
  ft_size : is_uint 32 (fdt_total_size fdt);
  ft_offset : is_uint 32 (fdt_memory_reserve_map_offset fdt);
  ft_reg node reg : node_reg node = Ok (Some reg) -> Forall entry_u64 reg;
}.

(** The regions of [/memory], and those of the children of [/reserved-memory]. *)
Definition tree_memory (fdt : Fdt) : list MemoryRegion :=
  default [] (node ← tree_node fdt "/memory"; reg ← reg_of node; Some (reg_regions reg)).
Definition tree_reserved (fdt : Fdt) : list MemoryRegion :=
  default [] (parent ← tree_node fdt "/reserved-memory";
    Some (concat (map (fun child => from_option reg_regions [] (reg_of child)) (children parent)))).
(** The CPUs, the frequency of their time base, and whether the first one lists
    or names the extension [zkr]. *)
Definition is_cpu (node : Node) : bool := bool_decide (answered (node_name node) = Some "cpu"%string).
Definition tree_cpus (fdt : Fdt) : list Node :=
  default [] (cpus ← tree_node fdt "/cpus"; Some (List.filter is_cpu (children cpus))).
Definition tree_frequency (fdt : Fdt) : option Z :=
  cpus ← tree_node fdt "/cpus"; prop ← property_of cpus "timebase-frequency";
  hz ← parse_timer_frequency prop; Frequency_try_from_hz hz.
Definition tree_random (fdt : Fdt) : bool :=
  match head (tree_cpus fdt) with
  | None => false
  | Some cpu =>
      from_option (fun prop => has_string_list_entry prop zkr) false (property_of cpu "riscv,isa-extensions") ||
      from_option (fun prop => isa_string_has_extension (trim_prop_string prop) zkr) false (property_of cpu "riscv,isa")
  end.
(** The address of the [i]th entry of [reg]; the interrupt controller has its
    two blocks in the first two, a GICv3 is preferred to a GICv2. *)
Definition reg_address (node : Node) (i : nat) : option PhysicalAddress :=
  reg ← reg_of node; entry ← reg !! i; entry ← entry; PhysicalAddress_try_from_u64 entry.1.
Definition tree_controller (fdt : Fdt) : option InterruptControllerInfo :=
  match (node ← tree_compatible fdt ["arm,gic-v3"%string]; base ← reg_address node 0; Some (InfoGicV3 base (reg_address node 1))) with
  | Some info => Some info
  | None => node ← tree_compatible fdt ["arm,cortex-a15-gic"%string; "arm,gic-400"%string];
            base ← reg_address node 0; Some (InfoGicV2 base (reg_address node 1))
  end.
Definition tree_uart (fdt : Fdt) : option PhysicalAddress :=
  node ← tree_compatible fdt ["arm,pl011"%string; "ns16550a"%string]; reg_address node 0.

(** *** Calls into the crate *)
Section Calls.
Context {S : Type} (fdt : Fdt).
Implicit Types s : S.
Abbreviation wpf m Q s := (wpe m Q (raises fdt) s).

Lemma wpf_find path Q s :
  (forall node, tree_node fdt path = node -> (forall n, node = Some n -> node_of fdt n) -> Q node s) ->
  wpf (fdt_call (fdt_find_node fdt path)) Q s.
Proof.
  intros HQ. unfold tree_node in HQ. destruct (fdt_find_node fdt path) as [o|msg] eqn:He; [|by eapply raises_find].
  apply HQ; [done|]. intros n ->. by eapply node_found.
Qed.
Lemma wpf_reg node Q s : node_of fdt node -> Q (reg_of node) s -> wpf (fdt_call (node_reg node)) Q s.
Proof. intros Hn. unfold reg_of. destruct (node_reg node) eqn:He; [done|]. intros _. by eapply raises_reg. Qed.
Lemma wpf_property node name Q s :
  node_of fdt node -> Q (property_of node name) s -> wpf (fdt_call (node_raw_property node name)) Q s.
Proof. intros Hn. unfold property_of. destruct (node_raw_property node name) eqn:He; [done|]. intros _. by eapply raises_property. Qed.
Lemma wpf_name node Q s :
  node_of fdt node -> (forall name, String.eqb name "cpu" = is_cpu node -> Q name s) -> wpf (fdt_call (node_name node)) Q s.
Proof.
  intros Hn HQ. unfold is_cpu in HQ. destruct (node_name node) as [name|] eqn:He; [|by eapply raises_name]. apply HQ. cbn.
  destruct (String.eqb_spec name "cpu") as [->|Hne]; [by rewrite bool_decide_true|rewrite bool_decide_false; [done|congruence]].
Qed.
Lemma wpf_compatible names Q s :
  (forall node, tree_compatible fdt names = node -> (forall n, node = Some n -> node_of fdt n) -> Q node s) ->
  wpf (find_compatible fdt names) Q s.
Proof.
  intros HQ. unfold find_compatible, tree_compatible in *.
  destruct (fdt_all_compatible fdt names) as [|[node|msg] l] eqn:He; cbn in *; [by apply HQ| |].
  - apply HQ; [done|]. intros n [= ->]. eapply node_compatible. rewrite He. by left.
  - eapply raises_compatible. rewrite He. by left.
Qed.
(** Walking children, all of which are nodes of the tree. *)
Definition walkable (l : list (Answer Node)) : Prop :=
  Forall (fun a => match a with Ok node => node_of fdt node | Err msg => raises fdt msg end) l.
Lemma children_walkable node : node_of fdt node -> walkable (node_children node).
Proof.
  intros Hn. apply Forall_forall. intros [child|msg] Hin; [by eapply node_child|by eapply raises_children].
Qed.
Lemma wpf_child a Q s :
  match a with Ok node => node_of fdt node | Err msg => raises fdt msg end ->
  (forall node, a = Ok node -> node_of fdt node -> Q node s) -> wpf (fdt_call a) Q s.
Proof. destruct a as [node|msg]; [|done]. intros Hn HQ. by apply HQ. Qed.

Lemma count_cpus_spec l s :
  walkable l -> wpf (count_cpus l) (fun n s' => s' = s /\ n = Z.of_nat (length (List.filter is_cpu (omap answered l)))) s.
Proof.
  induction 1 as [|a l Ha _ IH]; [done|]. cbn [count_cpus]. apply wpe_bind, wpf_child; [done|]. intros node -> Hn.
  apply wpe_bind, wpf_name; [done|]. intros name Hname. apply wpe_bind. eapply wpe_mono; [exact IH|]. intros n s' [-> ->].
  apply wpe_ret. split; [done|]. rewrite Hname. cbn [omap list_omap answered List.filter]. destruct (is_cpu node); cbn [length]; lia.
Qed.
Lemma find_cpu_spec l s :
  walkable l -> wpf (find_cpu l) (fun o s' => s' = s /\ o = head (List.filter is_cpu (omap answered l)) /\
    forall n, o = Some n -> node_of fdt n) s.
Proof.
  induction 1 as [|a l Ha _ IH]; [done|]. cbn [find_cpu]. apply wpe_bind, wpf_child; [done|]. intros node -> Hn.
  apply wpe_bind, wpf_name; [done|]. intros name Hname. rewrite Hname. cbn [omap list_omap answered List.filter].
  destruct (is_cpu node); [|exact IH]. apply wpe_ret. split_and!; [done|done|]. by intros n [= <-].
Qed.

Lemma timer_frequency_spec s : wpf (timer_frequency fdt) (fun r s' => s' = s /\ r = tree_frequency fdt) s.
Proof.
  unfold timer_frequency, tree_frequency. apply wpe_bind, wpf_find. intros [cpus|] -> Hn; [|done]. cbn.
  apply wpe_bind, wpf_property; [by apply Hn|]. destruct (property_of cpus _) as [prop|]; [|done]. cbn.
  by destruct (parse_timer_frequency prop).
Qed.
Lemma cpu_count_spec s : wpf (cpu_count fdt) (fun r s' => s' = s /\ r = Z.of_nat (length (tree_cpus fdt))) s.
Proof.
  unfold cpu_count, tree_cpus. apply wpe_bind, wpf_find. intros [cpus|] -> Hn; [|done]. by apply count_cpus_spec, children_walkable, Hn.
Qed.
Lemma has_hardware_random_spec s : wpf (has_hardware_random fdt) (fun r s' => s' = s /\ r = tree_random fdt) s.
Proof.
  unfold has_hardware_random, first_cpu_node, tree_random, tree_cpus. do 2 apply wpe_bind. apply wpf_find. intros [cpus|] -> Hn; [|done].
  cbn. eapply wpe_mono; [by apply find_cpu_spec, children_walkable, Hn|]. intros o s' (-> & Ho & Hc). unfold children.
  cbn [mbind option_bind default from_option]. rewrite <-Ho. destruct o as [cpu|]; [|done]. apply wpe_bind, wpf_property; [by apply Hc|].
  destruct (from_option _ false (property_of cpu "riscv,isa-extensions")) eqn:Hl.
  - by destruct (property_of cpu "riscv,isa-extensions"); cbn in *; rewrite Hl.
  - destruct (property_of cpu "riscv,isa-extensions"); cbn in *; rewrite ?Hl; (apply wpe_bind, wpf_property; [by apply Hc|]);
      by destruct (property_of cpu "riscv,isa").
Qed.

Lemma parse_gic_regs_spec node version s : node_of fdt node ->
  wpf (parse_gic_regs node version) (fun r s' => s' = s /\ r =
    (base ← reg_address node 0;
     if version =? 2 then Some (InfoGicV2 base (reg_address node 1))
     else if version =? 3 then Some (InfoGicV3 base (reg_address node 1)) else None)) s.
Proof.
  intros Hn. unfold parse_gic_regs, reg_address. apply wpe_bind, wpf_reg; [done|].
  destruct (reg_of node) as [[|[[d dl]|] rest]|]; [done| |done|done]. cbn. split; [done|].
  destruct (PhysicalAddress_try_from_u64 d); [|done]. cbn. by destruct rest as [|[[a al]|] rest].
Qed.
Lemma interrupt_controller_spec s :
  wpf (interrupt_controller_info fdt) (fun r s' => s' = s /\ r = tree_controller fdt) s.
Proof.
  unfold interrupt_controller_info, tree_controller.
  assert (forall names version,
    wpf (let! node := find_compatible fdt names in let? node := node in parse_gic_regs node version) (fun r s' => s' = s /\ r =
      (node ← tree_compatible fdt names; base ← reg_address node 0;
       if version =? 2 then Some (InfoGicV2 base (reg_address node 1))
       else if version =? 3 then Some (InfoGicV3 base (reg_address node 1)) else None)) s) as Hone.
  { intros names version. apply wpe_bind, wpf_compatible. intros [node|] -> Hn; [|done]. by apply parse_gic_regs_spec, Hn. }
  apply wpe_bind. eapply wpe_mono; [apply Hone|]. intros [info|] s' [-> Hv3]; cbn in Hv3; rewrite <-Hv3; [done|]. apply Hone.
Qed.
Lemma uart_base_spec s : wpf (uart_base fdt) (fun r s' => s' = s /\ r = tree_uart fdt) s.
Proof.
  unfold uart_base, tree_uart. apply wpe_bind, wpf_compatible. intros [node|] -> Hn; [|done]. cbn. unfold device_base, reg_address.
  apply wpe_bind, wpf_reg; [by apply Hn|]. by destruct (reg_of node) as [[|[[a al]|] rest]|].
Qed.
End Calls.

Lemma reg_regions_u64 reg : Forall entry_u64 reg -> Forall region_u64 (reg_regions reg).
Proof.
  induction 1 as [|[[a n]|] reg Hr _ IH]; [constructor| |done]. unfold reg_regions. cbn [omap list_omap].
  destruct Hr as [Ha Hn]. rewrite (from_fdt_reg_u64 a n Ha Hn). by constructor.
Qed.
Lemma node_regions_u64 fdt node : fdt_typed fdt -> Forall region_u64 (from_option reg_regions [] (reg_of node)).
Proof.
  intros Ht. unfold reg_of. destruct (node_reg node) as [[reg|]|] eqn:Hreg; [|constructor..]. cbn.
  eapply reg_regions_u64, ft_reg; [exact Ht|exact Hreg].
Qed.
Lemma tree_memory_u64 fdt : fdt_typed fdt -> Forall region_u64 (tree_memory fdt).
Proof.
  intros Ht. unfold tree_memory. destruct (tree_node fdt "/memory") as [node|]; [|constructor]. cbn.
  pose proof (node_regions_u64 fdt node Ht). by destruct (reg_of node).
Qed.
Lemma tree_reserved_u64 fdt : fdt_typed fdt -> Forall region_u64 (tree_reserved fdt).
Proof.
  intros Ht. unfold tree_reserved. destruct (tree_node fdt "/reserved-memory") as [parent|]; [|constructor]. cbn.
  apply Forall_concat, Forall_map, Forall_forall. intros child _. by eapply node_regions_u64.
Qed.

Lemma memory_empty info :
  memory_regions_array info = memory_regions_array (HardwareInfo_empty 0) -> memory_region_count info = 0 ->
  dropped_memory_regions info = 0 -> total_memory info = 0 -> memory_is info [].
Proof. intros Ha Hc Hd Ht. split; rewrite ?Ha, ?Hc; try done. unfold memory_regions. by rewrite Hc. Qed.

Lemma collect_memory_spec fdt info :
  memory_is info [] -> reserved_is info [] 0 ->
  wpe (collect_memory_regions fdt) (fun _ info' =>
    memory_regions info' = sort_regions_by_size (take arenas (tree_memory fdt)) /\
    dropped_memory_regions info' = overflow arenas (tree_memory fdt) 0 /\
    total_memory info' = total_of (take arenas (tree_memory fdt)) /\
    dtb_phys info' = dtb_phys info /\ dtb_size info' = dtb_size info /\ reserved_is info' [] 0) (raises fdt) info.
Proof.
  intros Hm Hr. unfold collect_memory_regions, tree_memory.
  assert (forall l i, dtb_phys (foldl (fun info r => push_memory_region r info) i l) = dtb_phys i /\
    dtb_size (foldl (fun info r => push_memory_region r info) i l) = dtb_size i) as Hdtb.
  { induction l as [|r l IH]; intros i; [done|]. cbn. destruct (IH (push_memory_region r i)) as [-> ->].
    unfold push_memory_region. by case_match. }
  apply wpe_bind, wpf_find. intros [node|] -> Hn; cbn [mbind option_bind default from_option].
  2:{ apply wpe_ret. destruct Hm as [_ _ Hmr Hmd Hmt]. by split_and!. }
  apply wpe_bind, wpf_reg; [by apply Hn|]. destruct (reg_of node) as [reg|]; cbn [mbind option_bind default from_option].
  2:{ apply wpe_ret. destruct Hm as [_ _ Hmr Hmd Hmt]. by split_and!. }
  apply wpe_bind, wpe_for_each_pure, wpe_modify.
  pose proof (push_memory_all (reg_regions reg) info [] Hm) as [Ha Hc Hmr Hd Ht]. cbn [app] in *.
  pose proof (push_memory_all_reserved (reg_regions reg) info [] 0 Hr) as [Ra Rc Rr Rd].
  destruct (Hdtb (reg_regions reg) info) as [Hp Hs]. set (i1 := foldl _ info _) in *.
  destruct (sort_regions_spec (take arenas (reg_regions reg))) as [Hperm _]. unfold sort_memory_regions.
  split_and!; [|exact Hd|exact Ht|exact Hp|exact Hs|by split].
  unfold memory_regions in *. cbn [memory_regions_array memory_region_count set_memory_regions].
  rewrite Hmr. rewrite take_app_length'; [done|]. rewrite (Permutation_length Hperm), Hc, Nat2Z.id. done.
Qed.

Lemma collect_node_spec fdt info l extra :
  reserved_is info l extra ->
  wpe (collect_reserved_memory_node fdt) (fun _ info' =>
    reserved_is info' (l ++ tree_reserved fdt) extra /\ memory_part info' = memory_part info) (raises fdt) info.
Proof.
  intros Hi. unfold collect_reserved_memory_node, tree_reserved.
  apply wpe_bind, wpf_find. intros [parent|] -> Hn; cbn [mbind option_bind default from_option];
    [unfold id|apply wpe_ret; by rewrite app_nil_r].
  pose proof (children_walkable fdt parent (Hn _ eq_refl)) as Hw. unfold children. clear Hn. revert info l Hi.
  induction Hw as [|a nodes Ha _ IH]; intros info l Hi.
  - cbn. by rewrite app_nil_r.
  - cbn [for_each]. apply wpe_bind, wpe_bind, (wpf_child fdt); [done|]. intros child -> Hc.
    apply wpe_bind, wpf_reg; [done|]. cbn [omap list_omap answered map concat]. rewrite (assoc_L (++)).
    destruct (reg_of child) as [reg|]; cbn [from_option].
    + apply wpe_for_each_pure. eapply wpe_mono; [exact (IH _ _ (push_reserved_all (reg_regions reg) info l extra Hi))|].
      intros [] info' [Hr Hm]. split; [exact Hr|]. by rewrite Hm, push_reserved_all_part.
    + rewrite app_nil_r. by apply IH.
Qed.

(** What the reservation block of a blob lists, and whether it is cut short. *)
Definition blob_reserved (offset : Z) (blob : list Z) : list MemoryRegion * nat :=
  if Z.of_nat (length blob) <? offset then ([], 1%nat) else block_regions (drop (Z.to_nat offset) blob).

Lemma block_spec offset blob info :
  Forall (is_uint 8) blob -> reserved_is info [] 0 ->
  wp (collect_memory_reservation_block offset blob) (fun _ info' =>
    reserved_is info' (blob_reserved offset blob).1 (blob_reserved offset blob).2 /\
    memory_part info' = memory_part info) info.
Proof.
  intros Hb Hi. unfold collect_memory_reservation_block, blob_reserved. destruct (Z.of_nat (length blob) <? offset).
  { apply wp_modify. split; [by apply drop_reserved_is|done]. }
  apply wp_bind. eapply wp_mono; [eapply (loop_any _ _ info [] 0); [by apply Forall_drop|lia|exact Hi]|].
  intros [] info' (Hi' & He & Hm); rewrite He; [by apply wp_ret|].
  apply wp_modify. split; [by apply drop_reserved_is|exact Hm].
Qed.
Lemma blob_reserved_u64 offset blob : Forall (is_uint 8) blob -> Forall region_u64 (blob_reserved offset blob).1.
Proof. intros Hb. unfold blob_reserved. case_match; [constructor|]. by apply block_regions_u64, Forall_drop. Qed.

(** What [from_fdt] finds in a tree and its blob. *)
Record describes_tree (dtb : PhysicalAddress) (fdt : Fdt) (blob : list Z) (info : HardwareInfo) : Prop := {
  dt_phys : dtb_phys info = dtb;
  dt_size : dtb_size info = fdt_total_size fdt;
  dt_memory : memory_regions info ≡ₚ take arenas (tree_memory fdt);
  dt_sorted : StronglySorted larger_first (memory_regions info);
  dt_dropped : dropped_memory_regions info = overflow arenas (tree_memory fdt) 0;
  dt_total : total_memory info = total_of (take arenas (tree_memory fdt));
  dt_reserved : let '(block, missing) := blob_reserved (fdt_memory_reserve_map_offset fdt) blob in
    reserved_regions info = take reservations (block ++ tree_reserved fdt) /\
    dropped_reserved_regions info = overflow reservations (block ++ tree_reserved fdt) missing;
  dt_frequency : timer_frequency_hz info = tree_frequency fdt;
  dt_cpus : cpu_count_found info = Z.of_nat (length (tree_cpus fdt));
  dt_uart : uart_base_found info = tree_uart fdt;
  dt_random : hardware_random (features info) = tree_random fdt;
  dt_controller : interrupt_controller (features info) = tree_controller fdt;
}.

Lemma fill_spec dtb fdt blob :
  Forall (is_uint 8) blob ->
  wpe (fill_from_fdt fdt blob) (fun _ info => describes_tree dtb fdt blob info) (raises fdt) (HardwareInfo_empty dtb).
Proof.
  intros Hb. unfold fill_from_fdt. apply wpe_bind, wpe_modify. set (i0 := set_dtb_size _ _).
  assert (memory_is i0 []) as Hm0 by (by apply memory_empty). assert (reserved_is i0 [] 0) as Hr0 by (by split).
  apply wpe_bind. eapply wpe_mono; [exact (collect_memory_spec fdt i0 Hm0 Hr0)|]. intros [] i1 (Hmr & Hmd & Hmt & Hp & Hs & Hr1).
  unfold collect_reserved_regions. apply wpe_bind, wpe_bind.
  eapply wpe_mono; [apply wpe_total, (block_spec (fdt_memory_reserve_map_offset fdt) blob i1 Hb Hr1)|].
  intros [] i2 [Hr2 Hpart]. eapply wpe_mono; [exact (collect_node_spec fdt i2 _ _ Hr2)|]. intros [] i3 [Hr3 Hpart3].
  apply wpe_bind. eapply wpe_mono; [apply timer_frequency_spec|]. intros ? ? [-> ->].
  apply wpe_bind. eapply wpe_mono; [apply cpu_count_spec|]. intros ? ? [-> ->].
  apply wpe_bind. eapply wpe_mono; [apply has_hardware_random_spec|]. intros ? ? [-> ->].
  apply wpe_bind. eapply wpe_mono; [apply interrupt_controller_spec|]. intros ? ? [-> ->].
  apply wpe_bind. eapply wpe_mono; [apply uart_base_spec|]. intros ? ? [-> ->]. apply wpe_modify.
  rewrite Hpart in Hpart3. unfold memory_part in Hpart3. injection Hpart3 as Ep Es Ea Ec Ed Et.
  destruct (sort_regions_spec (take arenas (tree_memory fdt))) as [Hperm Hsorted].
  assert (memory_regions i3 = memory_regions i1) as Hmem by (unfold memory_regions; congruence).
  destruct Hr3 as [Ra Rc Rr Rd].
  split; cbn [dtb_phys dtb_size dropped_memory_regions total_memory timer_frequency_hz cpu_count_found uart_base_found features
    hardware_random interrupt_controller set_found dropped_reserved_regions]; try done.
  - by rewrite Ep, Hp.
  - by rewrite Es, Hs.
  - change (memory_regions i3 ≡ₚ take arenas (tree_memory fdt)). by rewrite Hmem, Hmr.
  - change (StronglySorted larger_first (memory_regions i3)). by rewrite Hmem, Hmr.
  - congruence.
  - congruence.
  - destruct (blob_reserved _ blob) as [block missing]. by split.
Qed.

Lemma describes_boot_ok dtb fdt blob info ks ke :
  fdt_typed fdt -> Forall (is_uint 8) blob -> is_usize dtb -> is_usize ks -> is_usize ke ->
  describes_tree dtb fdt blob info -> boot_ok info ks ke.
Proof.
  intros Ht Hb Hdtb Hks Hke [Hp Hs Hmem _ _ _ Hres _ _ _ _ _].
  assert (forall l, Forall region_u64 l -> Forall region_ok l) as Hok.
  { intros l Hl. eapply Forall_impl; [exact Hl|]. intros r [Ha Hn]. unfold region_ok, is_uint in *. lia. }
  pose proof (blob_reserved_u64 (fdt_memory_reserve_map_offset fdt) blob Hb) as Hu.
  destruct (blob_reserved _ blob) as [block missing]. cbn [fst] in Hu. destruct Hres as [Hres _]. split.
  - done.
  - rewrite Hp, Hs. split; [done|]. destruct (ft_size _ Ht). unfold is_usize, is_uint in *. lia.
  - rewrite Hmem. by apply Hok, Forall_take, tree_memory_u64.
  - rewrite Hres. apply Hok, Forall_take, Forall_app. split; [done|by apply tree_reserved_u64].
Qed.

Lemma from_fdt_spec dtb fdt blob :
  Forall (is_uint 8) blob ->
  match HardwareInfo_from_fdt dtb fdt blob with
  | Done info => describes_tree dtb fdt blob info
  | Panic msg => raises fdt msg
  | Undefined | OutOfFuel => False
  end.
Proof.
  intros Hb. pose proof (fill_spec dtb fdt blob Hb) as Hw. unfold wpe in Hw. unfold HardwareInfo_from_fdt.
  by destruct (fill_from_fdt fdt blob _) as [[[] info]| | |].
Qed.

(** (C39) [HardwareInfo::from_fdt] ends for every device tree and blob: it
    returns, or it panics with the message of a panic that the [fdt] crate
    raises on a node of the tree, and on a tree where the crate raises none it
    returns.  The memory regions of the result are the first four decodable
    regions of the first node [/memory], largest first, with the others counted
    as dropped and the kept sizes added up; its reserved regions are the first
    eight of those that the reservation block lists, followed by those of
    [/reserved-memory], with the others and a missing end of the block counted
    as dropped; its other fields are what the tree says of the CPUs, the timer,
    the UART and the interrupt controller; and it is a description that
    [pmm::init] accepts as well formed. *)
Theorem hwinfo_from_fdt_exact dtb fdt blob ks ke :
  fdt_typed fdt -> Forall (is_uint 8) blob -> is_usize dtb -> is_usize ks -> is_usize ke ->
  match HardwareInfo_from_fdt dtb fdt blob with
  | Done info => describes_tree dtb fdt blob info /\ boot_ok info ks ke
  | Panic msg => raises fdt msg
  | Undefined | OutOfFuel => False
  end.
Proof.
  intros Ht Hb Hdtb Hks Hke. pose proof (from_fdt_spec dtb fdt blob Hb) as Hs.
  destruct (HardwareInfo_from_fdt dtb fdt blob) as [info| | |]; [|done..]. split; [done|]. exact (describes_boot_ok _ _ _ _ _ _ Ht Hb Hdtb Hks Hke Hs).
Qed.
End Tree.

(** ** Witnesses *)

Lemma reservation_block_round_trip_witness :
  let l := [{| region_base := 2147483648; region_size := 524288 |}; {| region_base := 0; region_size := 4096 |}] in
  reserved_regions (HardwareInfo_empty 0) = [] /\
  collect_memory_reservation_block 3
    ([208; 13; 254] ++ mjoin (encode_reservation <$> l) ++ terminator ++ [1; 2]) (HardwareInfo_empty 0) =
    Done (tt, foldl (fun info r => push_reserved_region r info) (HardwareInfo_empty 0) l).
Proof.
  split; [reflexivity|]. apply (reservation_block_round_trip _ [208; 13; 254]).
  - repeat constructor; cbn; lia.
  - repeat constructor; unfold region_zero; cbn; lia.
  - reflexivity.
Defined.

(** A tree with the memory node 0, and the node 1 with the reserved child 2.
    The second tree has no root. *)
#[local] Instance DemoParser : FdtParser := {|
  Fdt := bool;
  Node := nat;
  fdt_total_size _ := 96;
  fdt_memory_reserve_map_offset _ := 4;
  fdt_find_node rooted path :=
    if negb rooted then Err "no root"%string
    else if String.eqb path "/memory" then Ok (Some 0%nat)
    else if String.eqb path "/reserved-memory" then Ok (Some 1%nat) else Ok None;
  fdt_all_compatible _ _ := [];
  node_children node := if (node =? 1)%nat then [Ok 2%nat] else [];
  node_name _ := Ok "memory"%string;
  node_reg node := Ok (match node with
    | 0%nat => Some [Some (1073741824, 4194304); None; Some (2147483648, 1073741824)]
    | 2%nat => Some [Some (2147483648, 524288)]
    | _ => None
    end);
  node_raw_property _ _ := Ok None;
|}.
Definition demo_blob : list Z := replicate 4 7 ++ be_bytes 2148007936 ++ be_bytes 8192.

Lemma hwinfo_from_fdt_exact_witness :
  (exists info, HardwareInfo_from_fdt 2415919104 (true : Fdt) demo_blob = Done info /\
    memory_regions info = [{| region_base := 2147483648; region_size := 1073741824 |};
                           {| region_base := 1073741824; region_size := 4194304 |}] /\
    reserved_regions info = [{| region_base := 2148007936; region_size := 8192 |};
                             {| region_base := 2147483648; region_size := 524288 |}] /\
    dropped_reserved_regions info = 1 /\ boot_ok info 2149580800 2149711872) /\
  HardwareInfo_from_fdt 2415919104 (false : Fdt) demo_blob = Panic "no root" /\ raises (false : Fdt) "no root".
Proof.
  assert (forall rooted : bool, fdt_typed (rooted : Fdt)) as Ht.
  { split; [by split; vm_compute|by split; vm_compute|]. intros [|[|[|node]]] reg [= <-]; repeat constructor; cbn; lia. }
  assert (Forall (is_uint 8) demo_blob) as Hb by (apply Forall_fold_right; vm_compute; by repeat split).
  split.
  - pose proof (@hwinfo_from_fdt_exact DemoParser 2415919104 true demo_blob 2149580800 2149711872 (Ht true) Hb
      ltac:(by split; vm_compute) ltac:(by split; vm_compute) ltac:(by split; vm_compute)) as Hx.
    destruct (HardwareInfo_from_fdt _ _ _) as [info| | |] eqn:Hrun; try (revert Hrun; vm_compute; discriminate).
    destruct Hx as [[_ _ _ _ _ _ [Hres Hdrop] _ _ _ _ _] Hok].
    exists info. split_and!; [done| |exact Hres|exact Hdrop|exact Hok]. revert Hrun. vm_compute. by intros [= <-].
  - pose proof (@hwinfo_from_fdt_exact DemoParser 2415919104 false demo_blob 2149580800 2149711872 (Ht false) Hb
      ltac:(by split; vm_compute) ltac:(by split; vm_compute) ltac:(by split; vm_compute)) as Hx.
    split; [by vm_compute|exact Hx].
Defined.
