(* ===== verification/Sync.v ===== *)
(** * Synchronization primitives

    Models [sync/mod.rs].  [Once], [TicketLock], [SpinLock] and its guard are
    functions on the words they hold, together with the interrupt-enable flag
    of the CPU that runs them.  [LockMachine] is the interleaved execution of
    any number of threads, one atomic access per step, under sequential
    consistency.

    The owner ticket is the low half of the word and the next ticket the high
    half.  [release] adds 1 to the whole word, so the 65536th release carries
    into the next ticket: [lock_dead_after_wrap] shows that nobody can take the
    lock after it.  The exclusion and progress theorems are about the runs that
    issue fewer tickets. *)

From S2P Require Import Prelude.
From stdpp Require Import base tactics option list list_numbers numbers strings sets relations.

#[local] Open Scope Z_scope.
#[local] Open Scope kernel_scope.

Definition TICKET_SHIFT : Z := 16.

(** ** [Once] *)

Definition Once_new : bool := false.
(** [swap(true)]: the result and the new flag. *)
Definition try_once (done : bool) : bool * bool := (negb done, true).
Definition is_done (done : bool) : bool := done.

(** ** The ticket lock

    [TicketLock::state] is a [u32]. *)

Definition TicketLock_new : Z := 0.
Definition owner_ticket (state : Z) : Z := cast_uint 16 state.
Definition next_ticket (state : Z) : Z := cast_uint 16 (Z.shiftr state TICKET_SHIFT).
(** [fetch_add(1 << TICKET_SHIFT)] and [fetch_add(1)], which wrap. *)
Definition issue_ticket (state : Z) : Z := wrapping_add 32 state (Z.shiftl 1 TICKET_SHIFT).
Definition advance_owner (state : Z) : Z := wrapping_add 32 state 1.

(** The lock, the debug flag and the CPU's interrupt enable. *)
Record SpinLock := {
  lock_state : Z;
  lock_held : bool;
  irq_enabled : bool;
}.
Definition SpinLock_new (irq : bool) : SpinLock :=
  {| lock_state := TicketLock_new; lock_held := false; irq_enabled := irq |}.

Definition set_lock_state (w : Z) (l : SpinLock) : SpinLock :=
  {| lock_state := w; lock_held := lock_held l; irq_enabled := irq_enabled l |}.
Definition set_lock_held (b : bool) (l : SpinLock) : SpinLock :=
  {| lock_state := lock_state l; lock_held := b; irq_enabled := irq_enabled l |}.
Definition set_irq (b : bool) (l : SpinLock) : SpinLock :=
  {| lock_state := lock_state l; lock_held := lock_held l; irq_enabled := b |}.

(** The [while] loop of [acquire]; each unit of fuel is one load. *)
Fixpoint spin (fuel : nat) (ticket : Z) : M SpinLock unit :=
  match fuel with
  | O => out_of_fuel
  | S fuel =>
      let! state := gets lock_state in
      if negb (owner_ticket state =? ticket) then spin fuel ticket else ret tt
  end.

Definition acquire (fuel : nat) : M SpinLock unit :=
  let! old := gets lock_state in
  modify (set_lock_state (issue_ticket old)) ;;;
  let ticket := next_ticket old in
  let owner := owner_ticket old in
  if owner =? ticket then ret tt else spin fuel ticket.

(** With no other thread the [compare_exchange] sees the value just loaded. *)
Definition try_acquire : M SpinLock bool :=
  let! current := gets lock_state in
  if negb (owner_ticket current =? next_ticket current) then ret false
  else
    let! state := gets lock_state in
    if state =? current
    then modify (set_lock_state (issue_ticket current)) ;;; ret true
    else ret false.

Definition release : M SpinLock unit :=
  let! state := gets lock_state in
  if owner_ticket state =? next_ticket state
  then panic "ticket: release called when lock is not held"
  else modify (fun l => set_lock_state (advance_owner (lock_state l)) l).

Definition lock (fuel : nat) : M SpinLock unit :=
  acquire fuel ;;; modify (set_lock_held true).

Definition try_lock : M SpinLock bool :=
  let! acquired := try_acquire in
  (if (acquired : bool) then modify (set_lock_held true) else ret tt) ;;;
  ret acquired.

Definition unlock : M SpinLock unit :=
  let! held := gets lock_held in
  if negb held then panic "spinlock: release called when lock is not held"
  else modify (set_lock_held false) ;;; release.

(** The guard is the saved interrupt state. *)
Definition guard (fuel : nat) : M SpinLock bool :=
  let! irq_was_enabled := gets irq_enabled in
  modify (set_irq false) ;;;
  lock fuel ;;;
  ret irq_was_enabled.

Definition restore_interrupts (irq_was_enabled : bool) : M SpinLock unit :=
  if irq_was_enabled then modify (set_irq true) else ret tt.

Definition try_guard : M SpinLock (option bool) :=
  let! irq_was_enabled := gets irq_enabled in
  modify (set_irq false) ;;;
  let! acquired := try_lock in
  if (acquired : bool) then ret (Some irq_was_enabled)
  else restore_interrupts irq_was_enabled ;;; ret None.

Definition guard_drop (irq_was_enabled : bool) : M SpinLock unit :=
  unlock ;;; restore_interrupts irq_was_enabled.

(** ** Arithmetic of the word *)

(** The word after [n] tickets issued and [r] releases. *)
Definition word (n r : Z) : Z := n * 2 ^ 16 + r.

Lemma owner_word n r : 0 <= r < 2 ^ 16 -> owner_ticket (word n r) = r.
Proof. intros. unfold owner_ticket, word, cast_uint. divlia. Qed.
Lemma next_word n r : 0 <= n < 2 ^ 16 -> 0 <= r < 2 ^ 16 -> next_ticket (word n r) = n.
Proof.
  intros. unfold next_ticket, word, cast_uint, TICKET_SHIFT.
  rewrite Z.shiftr_div_pow2 by done. divlia.
Qed.
Lemma issue_word n r :
  0 <= n -> n + 1 < 2 ^ 16 -> 0 <= r < 2 ^ 16 -> issue_ticket (word n r) = word (n + 1) r.
Proof. intros. unfold issue_ticket, word, wrapping_add, TICKET_SHIFT. change (Z.shiftl 1 16) with 65536. divlia. Qed.
Lemma advance_word n r :
  0 <= n < 2 ^ 16 -> 0 <= r -> r + 1 < 2 ^ 16 -> advance_owner (word n r) = word n (r + 1).
Proof. intros. unfold advance_owner, word, wrapping_add. divlia. Qed.

(** ** Interleaved execution *)

Module LockMachine.

(** Where a thread is between two atomic accesses. *)
Inductive pc :=
  | Idle                    (* outside the lock's functions *)
  | Spinning (ticket : Z)   (* in the [while] loop of [acquire] *)
  | TryCas (current : Z)    (* before the [compare_exchange] of [try_acquire] *)
  | Acquired                (* the ticket lock is taken, [held] not yet set *)
  | Critical                (* [lock] or [try_lock] has returned *)
  | Unheld                  (* [unlock] has cleared [held] *)
  | Checked                 (* [release] has loaded the word and passed its check *)
  | Faulted.                (* a [debug_assert] has failed *)

Record config := {
  c_word : Z;
  c_held : bool;
  c_threads : list pc;
  c_issued : Z;             (* tickets issued so far *)
}.

Definition initial (threads : nat) : config :=
  {| c_word := TicketLock_new; c_held := false; c_threads := replicate threads Idle; c_issued := 0 |}.

(** [at_pc i p w h n c]: thread [i] moves to [p]; the word, the flag and the
    ticket count become [w], [h] and [n]. *)
Definition move (c : config) (i : nat) (p : pc) (w : Z) (h : bool) (n : Z) : config :=
  {| c_word := w; c_held := h; c_threads := <[i := p]> (c_threads c); c_issued := n |}.

(** One atomic access of thread [i]. *)
Inductive step (c : config) (i : nat) : config -> Prop :=
  | step_fetch_add :
      c_threads c !! i = Some Idle ->
      step c i (move c i
        (if owner_ticket (c_word c) =? next_ticket (c_word c)
         then Acquired else Spinning (next_ticket (c_word c)))
        (issue_ticket (c_word c)) (c_held c) (c_issued c + 1))
  | step_spin ticket :
      c_threads c !! i = Some (Spinning ticket) ->
      step c i (move c i (if owner_ticket (c_word c) =? ticket then Acquired else Spinning ticket)
        (c_word c) (c_held c) (c_issued c))
  | step_try_load :
      c_threads c !! i = Some Idle ->
      step c i (move c i
        (if owner_ticket (c_word c) =? next_ticket (c_word c) then TryCas (c_word c) else Idle)
        (c_word c) (c_held c) (c_issued c))
  | step_cas current :
      c_threads c !! i = Some (TryCas current) ->
      step c i (if c_word c =? current
        then move c i Acquired (issue_ticket current) (c_held c) (c_issued c + 1)
        else move c i Idle (c_word c) (c_held c) (c_issued c))
  | step_set_held :
      c_threads c !! i = Some Acquired ->
      step c i (move c i Critical (c_word c) true (c_issued c))
  | step_clear_held :
      c_threads c !! i = Some Critical ->
      step c i (if c_held c then move c i Unheld (c_word c) false (c_issued c)
                else move c i Faulted (c_word c) (c_held c) (c_issued c))
  | step_check :
      c_threads c !! i = Some Unheld ->
      step c i (move c i
        (if owner_ticket (c_word c) =? next_ticket (c_word c) then Faulted else Checked)
        (c_word c) (c_held c) (c_issued c))
  | step_release :
      c_threads c !! i = Some Checked ->
      step c i (move c i Idle (advance_owner (c_word c)) (c_held c) (c_issued c)).

Definition steps (c c' : config) : Prop := exists i, step c i c'.

(** The thread has passed [acquire] and not yet [release]d. *)
Definition owns (p : pc) : bool :=
  match p with Acquired | Critical | Unheld | Checked => true | _ => false end.
(** The thread holds a ticket. *)
Definition queued (p : pc) : bool := match p with Spinning _ => true | _ => owns p end.

(** The queue [q] of the threads that hold tickets, in ticket order; the first
    has ticket [r]. *)
Record inv (c : config) (r : Z) (q : list nat) : Prop := {
  inv_count : c_issued c = r + Z.of_nat (length q);
  inv_r : 0 <= r;
  inv_word : c_word c = word (c_issued c) r;
  inv_nodup : NoDup q;
  inv_queued : forall i p, c_threads c !! i = Some p -> queued p = true <-> i ∈ q;
  inv_threads : forall i, i ∈ q -> is_Some (c_threads c !! i);
  inv_ticket : forall i j t, q !! j = Some i -> c_threads c !! i = Some (Spinning t) ->
    t = r + Z.of_nat j;
  inv_owner : forall i j p, q !! j = Some i -> c_threads c !! i = Some p -> owns p = true -> j = 0%nat;
  inv_critical : forall i, c_threads c !! i = Some Critical -> c_held c = true;
  inv_held : c_held c = true -> exists i, c_threads c !! i = Some Critical;
  inv_fault : forall i, c_threads c !! i <> Some Faulted;
  inv_try : forall i w, c_threads c !! i = Some (TryCas w) -> owner_ticket w = next_ticket w;
}.

Lemma queued_position c r q i p :
  inv c r q -> c_threads c !! i = Some p -> queued p = true ->
  exists j, q !! j = Some i /\ (owns p = true -> j = 0%nat).
Proof.
  intros Hinv Hi Hq. apply (inv_queued _ _ _ Hinv _ _ Hi) in Hq as Hin.
  apply list_elem_of_lookup in Hin as [j Hj]. exists j. split; [done|]. by eapply inv_owner.
Qed.

(** At most one thread owns the lock. *)
Lemma owner_unique c r q i j p p' :
  inv c r q -> c_threads c !! i = Some p -> c_threads c !! j = Some p' ->
  owns p = true -> owns p' = true -> i = j.
Proof.
  intros Hinv Hi Hj Hp Hp'.
  destruct (queued_position c r q i p) as (a & Ha & Ha0); [done..|by destruct p|].
  destruct (queued_position c r q j p') as (b & Hb & Hb0); [done..|by destruct p'|].
  rewrite Ha0 in Ha by done. rewrite Hb0 in Hb by done. congruence.
Qed.

Lemma threads_move (l : list pc) i p j p' :
  is_Some (l !! i) -> <[i := p]> l !! j = Some p' ->
  j = i /\ p' = p \/ j <> i /\ l !! j = Some p'.
Proof.
  intros Hi Hl. destruct (decide (j = i)) as [->|Hne].
  - rewrite list_lookup_insert_eq in Hl by (by apply lookup_lt_is_Some). left. by simplify_eq.
  - rewrite list_lookup_insert_ne in Hl by done. by right.
Qed.

(** A move that changes neither the word nor who holds tickets. *)
Lemma inv_local c r q i p p' h :
  inv c r q -> c_threads c !! i = Some p -> queued p' = queued p ->
  (forall t, p' = Spinning t -> p = Spinning t) ->
  (forall j, owns p' = true -> q !! j = Some i -> j = 0%nat) -> p' <> Faulted ->
  (forall j, <[i := p']> (c_threads c) !! j = Some Critical -> h = true) ->
  (h = true -> exists j, <[i := p']> (c_threads c) !! j = Some Critical) ->
  (forall w, p' = TryCas w -> owner_ticket w = next_ticket w) ->
  inv (move c i p' (c_word c) h (c_issued c)) r q.
Proof.
  intros [Hcount Hr Hword Hnd Hq Hth Htk Hown Hcr Hheld Hf Htry] Hi Hqp Hsp Hop Hpf Hc1 Hc2 Ht.
  assert (is_Some (c_threads c !! i)) as Hs by (by eexists).
  split; simpl; try done.
  - intros j x [[-> ->]|[_ Hj]]%threads_move; [|by eapply Hq|done]. rewrite Hqp. by apply Hq.
  - intros j Hj. apply Hth in Hj as [x Hx]. destruct (decide (j = i)) as [->|].
    + rewrite list_lookup_insert_eq by (by apply lookup_lt_is_Some). by eexists.
    + rewrite list_lookup_insert_ne by done. by eexists.
  - intros j k t Hk [[-> Heq]|[_ Hj]]%threads_move; [|by eapply Htk|done].
    eapply Htk; [done|]. rewrite Hi. f_equal. by apply Hsp.
  - intros j k x Hk [[-> ->]|[_ Hj]]%threads_move Ho; [|by eapply Hown|done]. by apply Hop.
  - intros j [[_ ?]|[_ Hj]]%threads_move; [done|by eapply Hf|done].
  - intros j w [[_ ?]|[_ Hj]]%threads_move; [by apply Ht|by eapply Htry|done].
Qed.

(** Thread [i] gets the next ticket. *)
Lemma inv_enqueue c r q i p p' :
  inv c r q -> c_threads c !! i = Some p -> queued p = false -> c_issued c + 1 < 2 ^ 16 ->
  (p' = Acquired /\ q = [] \/ p' = Spinning (c_issued c)) ->
  inv (move c i p' (issue_ticket (c_word c)) (c_held c) (c_issued c + 1)) r (q ++ [i]).
Proof.
  intros [Hcount Hr Hword Hnd Hq Hth Htk Hown Hcr Hheld Hf Htry] Hi Hqp Hn Hp'.
  assert (is_Some (c_threads c !! i)) as Hs by (by eexists).
  assert (i ∉ q) as Hni by (intros Hin; apply (Hq i p Hi) in Hin; congruence).
  assert (queued p' = true) as Hqp' by (by destruct Hp' as [[-> _]| ->]).
  split; simpl.
  - rewrite length_app. simpl. lia.
  - done.
  - rewrite Hword. apply issue_word; lia.
  - apply NoDup_app. split_and!; [done|set_solver|apply NoDup_singleton].
  - intros j x [[-> ->]|[Hne Hj]]%threads_move; [|rewrite (Hq j x Hj); set_solver|done]. set_solver.
  - intros j [Hj|Hj]%elem_of_app.
    + rewrite list_lookup_insert_ne; [by apply Hth|]. by intros ->.
    + apply list_elem_of_singleton in Hj as ->. rewrite list_lookup_insert_eq; [by eexists|].
      by apply lookup_lt_is_Some.
  - intros j k t Hk [[-> Heq]|[Hne Hj]]%threads_move; [| |done].
    + apply lookup_app_Some in Hk as [Hk|[Hk1 Hk2]]; [by apply list_elem_of_lookup_2 in Hk|].
      destruct Hp' as [[-> _]| ->]; [done|]. apply list_lookup_singleton_Some in Hk2 as [? _].
      injection Heq as ->. lia.
    + apply lookup_app_Some in Hk as [Hk|[_ Hk]]; [by eapply Htk|].
      by apply list_lookup_singleton_Some in Hk as [_ ->].
  - intros j k x Hk [[-> ->]|[Hne Hj]]%threads_move Ho; [| |done].
    + destruct Hp' as [[-> ->]| ->]; [|done]. by apply list_lookup_singleton_Some in Hk as [-> _].
    + apply lookup_app_Some in Hk as [Hk|[_ Hk]]; [by eapply Hown|].
      by apply list_lookup_singleton_Some in Hk as [_ ->].
  - intros j [[_ ?]|[_ Hj]]%threads_move; [by destruct Hp' as [[-> _]| ->]|by eapply Hcr|done].
  - intros [j Hj]%Hheld. exists j. rewrite list_lookup_insert_ne; [done|]. intros ->. by simplify_eq.
  - intros j [[_ ?]|[_ Hj]]%threads_move; [by destruct Hp' as [[-> _]| ->]|by eapply Hf|done].
  - intros j w [[_ ?]|[_ Hj]]%threads_move; [by destruct Hp' as [[-> _]| ->]|by eapply Htry|done].
Qed.

(** The owner releases. *)
Lemma inv_dequeue c r q i :
  inv c r q -> c_threads c !! i = Some Checked -> c_issued c < 2 ^ 16 ->
  exists q', q = i :: q' /\
    inv (move c i Idle (advance_owner (c_word c)) (c_held c) (c_issued c)) (r + 1) q'.
Proof.
  intros Hinv Hi Hn. destruct (queued_position c r q i Checked) as (j & Hj & Hj0); [done..|].
  rewrite Hj0 in Hj by done. destruct q as [|i' q']; [done|]. simpl in Hj. injection Hj as ->.
  exists q'. split; [done|].
  destruct Hinv as [Hcount Hr Hword Hnd Hq Hth Htk Hown Hcr Hheld Hf Htry].
  apply NoDup_cons in Hnd as [Hni Hnd]. simpl in Hcount.
  assert (is_Some (c_threads c !! i)) as Hs by (by eexists).
  split; simpl.
  - lia.
  - lia.
  - rewrite Hword. apply advance_word; lia.
  - done.
  - intros k x [[-> ->]|[Hne Hk]]%threads_move; [done|rewrite (Hq k x Hk); set_solver|done].
  - intros k Hk. rewrite list_lookup_insert_ne; [apply Hth; set_solver|]. by intros ->.
  - intros k m t Hm [[-> ?]|[Hne Hk]]%threads_move; [done| |done].
    specialize (Htk k (S m) t Hm Hk). lia.
  - intros k m x Hm [[-> ->]|[Hne Hk]]%threads_move Ho; [done| |done].
    specialize (Hown k (S m) x Hm Hk Ho). lia.
  - intros k [[_ ?]|[_ Hk]]%threads_move; [done|by eapply Hcr|done].
  - intros [k Hk]%Hheld. exists k. rewrite list_lookup_insert_ne; [done|]. intros ->. by simplify_eq.
  - intros k [[_ ?]|[_ Hk]]%threads_move; [done|by eapply Hf|done].
  - intros k w [[_ ?]|[_ Hk]]%threads_move; [done|by eapply Htry|done].
Qed.

(** The halves of the word are the counts. *)
Lemma inv_halves c r q :
  inv c r q -> c_issued c < 2 ^ 16 ->
  owner_ticket (c_word c) = r /\ next_ticket (c_word c) = c_issued c /\ 0 <= r <= c_issued c.
Proof.
  intros [Hcount Hr Hword _ _ _ _ _ _ _ _ _] Hn. rewrite Hword, owner_word, next_word by lia. lia.
Qed.

(** The flag when thread [i] moves to [p'], which is not [Critical]. *)
Lemma held_unchanged c r q i p p' :
  inv c r q -> c_threads c !! i = Some p -> p <> Critical -> p' <> Critical ->
  (forall j, <[i := p']> (c_threads c) !! j = Some Critical -> c_held c = true) /\
  (c_held c = true -> exists j, <[i := p']> (c_threads c) !! j = Some Critical).
Proof.
  intros Hinv Hi Hp Hp'. split.
  - intros j [[_ ?]|[_ Hj]]%threads_move; [congruence|by eapply inv_critical|by eexists].
  - intros [j Hj]%(inv_held _ _ _ Hinv). exists j. rewrite list_lookup_insert_ne; [done|]. congruence.
Qed.

(** What a step of thread [i] does to the queue: nothing, it joins at the end, or
    it leaves from the front. *)
Definition moved (q : list nat) (i : nat) (q' : list nat) : Prop := q' = q \/ q' = q ++ [i] \/ q = i :: q'.

Lemma step_inv c r q i c' :
  inv c r q -> step c i c' -> c_issued c' < 2 ^ 16 -> exists r' q', inv c' r' q' /\ moved q i q'.
Proof.
  intros Hinv Hstep Hn. pose proof (inv_halves c r q Hinv) as Hhalves.
  assert (forall p, c_threads c !! i = Some p -> owns p = true -> forall j, q !! j = Some i -> j = 0%nat)
    as Hown by (intros p Hp Ho j Hj; by eapply inv_owner).
  destruct Hstep as [Hi|t Hi|Hi|w Hi|Hi|Hi|Hi|Hi].
  - simpl in Hn. destruct Hhalves as (-> & -> & Hr); [lia|]. exists r, (q ++ [i]). split; [|by right; left].
    eapply inv_enqueue; [done..|]. destruct (Z.eqb_spec r (c_issued c)) as [Heq|Hne]; [left|by right].
    split; [done|]. pose proof (inv_count _ _ _ Hinv). destruct q; [done|]. simpl in *. lia.
  - simpl in Hn. destruct Hhalves as (-> & _ & Hr); [done|]. exists r, q. split; [|by left].
    destruct (held_unchanged c r q i _ (if r =? t then Acquired else Spinning t) Hinv Hi) as [Hc1 Hc2];
      [done|by destruct (r =? t)|].
    eapply inv_local; [done..| | | | |done|done|]; destruct (Z.eqb_spec r t) as [->|]; try done.
    intros j _ Hj. pose proof (inv_ticket _ _ _ Hinv i j t Hj Hi). lia.
  - simpl in Hn. destruct Hhalves as (Ho & Hnx & Hr); [done|]. rewrite Ho, Hnx. exists r, q. split; [|by left].
    destruct (held_unchanged c r q i _ (if r =? c_issued c then TryCas (c_word c) else Idle) Hinv Hi)
      as [Hc1 Hc2]; [done|by destruct (_ =? _)|].
    eapply inv_local; [done..| | | | |done|done|]; destruct (Z.eqb_spec r (c_issued c)) as [Heq|]; try done.
    intros w [= <-]. congruence.
  - destruct (Z.eqb_spec (c_word c) w) as [<-|Hne].
    + simpl in Hn. destruct Hhalves as (Ho & Hnx & Hr); [lia|]. exists r, (q ++ [i]). split; [|by right; left].
      eapply inv_enqueue; [done..|]. left. split; [done|].
      pose proof (inv_try _ _ _ Hinv i _ Hi). pose proof (inv_count _ _ _ Hinv).
      destruct q; [done|]. simpl in *. lia.
    + exists r, q. split; [|by left]. destruct (held_unchanged c r q i _ Idle Hinv Hi) as [Hc1 Hc2]; [done..|].
      by eapply inv_local.
  - exists r, q. split; [|by left]. eapply inv_local; try done; [by intros; eapply Hown|].
    intros _. exists i. apply list_lookup_insert_eq. by eapply lookup_lt_Some.
  - rewrite (inv_critical _ _ _ Hinv i Hi). exists r, q. split; [|by left]. eapply inv_local; try done.
    + by intros; eapply Hown.
    + intros j [[_ ?]|[Hne Hj]]%threads_move; [done| |by eexists].
      by rewrite (owner_unique c r q j i Critical Critical) in Hne.
  - simpl in Hn. destruct Hhalves as (Ho & Hnx & Hr); [done|]. rewrite Ho, Hnx.
    assert (r <> c_issued c) as Hne.
    { pose proof (inv_count _ _ _ Hinv).
      destruct (queued_position c r q i Unheld) as (j & Hj & _); [done..|].
      destruct q; [done|]. simpl in *. lia. }
    rewrite (proj2 (Z.eqb_neq _ _)) by done. exists r, q. split; [|by left].
    destruct (held_unchanged c r q i _ Checked Hinv Hi) as [Hc1 Hc2]; [done..|].
    eapply inv_local; try done. by intros; eapply Hown.
  - simpl in Hn. destruct (inv_dequeue c r q i Hinv Hi Hn) as (q' & -> & Hinv'). exists (r + 1), q'. split; [done|]. by right; right.
Qed.

Lemma initial_inv threads : inv (initial threads) 0 [].
Proof.
  assert (forall i p, replicate threads Idle !! i = Some p -> p = Idle) as Hidle
    by (intros i p Hi; by apply lookup_replicate in Hi as [-> _]).
  split; simpl; try done; try (intros i p Hi; apply Hidle in Hi; by subst).
  - constructor.
  - intros i p ->%Hidle. split; [done|]. intros Hin. by apply not_elem_of_nil in Hin.
  - intros i Hin. by apply not_elem_of_nil in Hin.
  - intros i Hi%Hidle. done.
  - intros i Hi%Hidle. done.
Qed.

Lemma step_issued c i c' : step c i c' -> c_issued c <= c_issued c'.
Proof. destruct 1; simpl; repeat case_match; simpl; lia. Qed.

Lemma lock_reachable_inv threads c :
  rtc steps (initial threads) c -> c_issued c < 2 ^ 16 -> exists r q, inv c r q.
Proof.
  intros Hrtc. pattern c. revert c Hrtc. apply rtc_ind_r.
  - intros _. exists 0, []. apply initial_inv.
  - intros c c' _ [i Hstep] IH Hn. pose proof (step_issued c i c' Hstep).
    destruct IH as (r & q & Hinv); [lia|].
    destruct (step_inv c r q i c' Hinv Hstep Hn) as (r' & q' & Hinv' & _). by exists r', q'.
Qed.

(** ** After the carry *)

(** Nobody owns the lock, the owner ticket is 0, and the tickets in use and the
    next one are not 0. *)
Record dead (c : config) (k : nat) : Prop := {
  dead_word : c_word c = word (1 + Z.of_nat k) 0;
  dead_count : k = length (filter (fun p => queued p = true) (c_threads c));
  dead_pc : forall i p, c_threads c !! i = Some p -> p = Idle \/ exists t, p = Spinning t /\ t <> 0;
}.

Lemma filter_insert_count (l : list pc) i p p' :
  l !! i = Some p -> queued p = false -> queued p' = true ->
  length (filter (fun p => queued p = true) (<[i := p']> l)) =
  S (length (filter (fun p => queued p = true) l)).
Proof.
  revert i. induction l as [|x l IH]; intros [|i] Hi Hp Hp'; simplify_eq/=.
  - rewrite !filter_cons, decide_True, decide_False by congruence. done.
  - rewrite !filter_cons. destruct (decide (queued x = true)); simpl; by rewrite (IH i).
Qed.

Lemma dead_step c k i c' :
  dead c k -> Z.of_nat (length (c_threads c)) < 2 ^ 16 - 2 -> step c i c' -> exists k', dead c' k'.
Proof.
  intros [Hword Hk Hpc] Hlen Hstep.
  assert (k <= length (c_threads c))%nat as Hkl by (rewrite Hk; apply length_filter).
  assert (owner_ticket (c_word c) = 0) as Ho by (rewrite Hword; by apply owner_word).
  assert (next_ticket (c_word c) = 1 + Z.of_nat k) as Hn by (rewrite Hword; apply next_word; lia).
  destruct Hstep as [Hi|t Hi|Hi|w Hi|Hi|Hi|Hi|Hi]; try (by apply Hpc in Hi as [?|(? & ? & _)]).
  - rewrite Ho, Hn, (proj2 (Z.eqb_neq _ _)) by lia. exists (S k). split; simpl.
    + rewrite Hword, issue_word by lia. f_equal. lia.
    + rewrite (filter_insert_count _ _ Idle) by done. by rewrite Hk.
    + intros j p [[_ ->]|[_ Hj]]%threads_move; [|by eapply Hpc|by eexists]. right. exists (1 + Z.of_nat k).
      split; [done|lia].
  - apply Hpc in Hi as Ht. destruct Ht as [?|(t' & [= <-] & Ht)]; [done|].
    rewrite Ho, (proj2 (Z.eqb_neq _ _)) by done. exists k.
    unfold move. rewrite list_insert_id by done. by split.
  - rewrite Ho, Hn, (proj2 (Z.eqb_neq _ _)) by lia. exists k.
    unfold move. rewrite list_insert_id by done. by split.
Qed.

Lemma step_length c i c' : step c i c' -> length (c_threads c') = length (c_threads c).
Proof. destruct 1; simpl; repeat case_match; simpl; apply length_insert. Qed.

Lemma dead_forever c k c' :
  dead c k -> Z.of_nat (length (c_threads c)) < 2 ^ 16 - 2 -> rtc steps c c' -> exists k', dead c' k'.
Proof.
  intros Hdead Hlen Hrtc. revert k Hdead Hlen.
  induction Hrtc as [c|c1 c2 c3 [i Hstep] _ IH]; intros k Hdead Hlen; [by exists k|].
  destruct (dead_step c1 k i c2) as [k' Hk']; [done..|]. apply (IH k'); [done|].
  by rewrite (step_length _ _ _ Hstep).
Qed.

(** All threads idle, the lock free, [n] acquisitions so far. *)
Definition idle (threads : nat) (w n : Z) : config :=
  {| c_word := w; c_held := false; c_threads := replicate threads Idle; c_issued := n |}.

(** One thread takes the lock and releases it. *)
Lemma idle_cycle threads n :
  (0 < threads)%nat -> 0 <= n < 2 ^ 16 ->
  rtc steps (idle threads (word n n) n)
    (idle threads (advance_owner (issue_ticket (word n n))) (n + 1)).
Proof.
  intros Hth Hn. set (w := issue_ticket (word n n)).
  assert ((owner_ticket w =? next_ticket w) = false) as Hw.
  { apply Z.eqb_neq. unfold w. destruct (decide (n + 1 < 2 ^ 16)).
    - rewrite issue_word, owner_word, next_word by lia. lia.
    - replace n with (2 ^ 16 - 1) by lia. vm_compute. done. }
  assert (forall p, <[0%nat := p]> (replicate threads Idle) !! 0%nat = Some p) as Hl
    by (intros; apply list_lookup_insert_eq; by rewrite length_replicate).
  assert (forall p p', <[0%nat := p]> (<[0%nat := p']> (replicate threads Idle)) =
    <[0%nat := p]> (replicate threads Idle)) as Hll by (intros; apply list_insert_insert_eq).
  set (cfg p h := {| c_word := w; c_held := h; c_threads := <[0%nat := p]> (replicate threads Idle);
                     c_issued := n + 1 |}).
  assert (forall (c : config) c', (exists i, step c i c') -> rtc steps c c') as Hone
    by (intros; by apply rtc_once).
  etrans; [|etrans; [|etrans; [|etrans]]]; apply Hone; exists 0%nat.
  - pose proof (step_fetch_add (idle threads (word n n) n) 0) as Hs. simpl in Hs.
    rewrite owner_word, next_word, Z.eqb_refl in Hs by lia. apply (Hs : _ -> step _ _ (cfg Acquired false)).
    by apply lookup_replicate_2.
  - pose proof (step_set_held (cfg Acquired false) 0 (Hl _)) as Hs. unfold move in Hs. simpl in Hs.
    rewrite Hll in Hs. exact (Hs : step _ _ (cfg Critical true)).
  - pose proof (step_clear_held (cfg Critical true) 0 (Hl _)) as Hs. unfold move in Hs. simpl in Hs.
    rewrite Hll in Hs. exact (Hs : step _ _ (cfg Unheld false)).
  - pose proof (step_check (cfg Unheld false) 0 (Hl _)) as Hs. unfold move in Hs. simpl in Hs.
    rewrite Hll, Hw in Hs. exact (Hs : step _ _ (cfg Checked false)).
  - pose proof (step_release (cfg Checked false) 0 (Hl _)) as Hs. unfold move in Hs. simpl in Hs.
    rewrite Hll in Hs. rewrite list_insert_id in Hs; [exact Hs|]. by apply lookup_replicate_2.
Qed.

Lemma idle_cycles threads (n : nat) :
  (0 < threads)%nat -> Z.of_nat n < 2 ^ 16 ->
  rtc steps (initial threads) (idle threads (word (Z.of_nat n) (Z.of_nat n)) (Z.of_nat n)).
Proof.
  intros Hth. induction n as [|n IH]; intros Hn; [done|].
  etrans; [apply IH; lia|]. pose proof (idle_cycle threads (Z.of_nat n) Hth ltac:(lia)) as Hc.
  rewrite issue_word, advance_word in Hc by lia.
  by replace (Z.of_nat (S n)) with (Z.of_nat n + 1) by lia.
Qed.
End LockMachine.

(** ** Theorems *)

Import LockMachine.

(** (C30) Mutual exclusion, for any number of threads and any interleaving, as
    long as fewer than 65536 tickets have been issued: at most one thread is
    between [acquire] and [release], no [debug_assert] of the lock fails, and
    the flag [held] is set exactly while a thread is in its critical section. *)
Theorem lock_mutual_exclusion (threads : nat) (c : config) :
  rtc steps (initial threads) c -> c_issued c < 2 ^ 16 ->
  (forall i j p p', c_threads c !! i = Some p -> c_threads c !! j = Some p' ->
     owns p = true -> owns p' = true -> i = j) /\
  (forall i, c_threads c !! i <> Some Faulted) /\
  (c_held c = true <-> exists i, c_threads c !! i = Some Critical).
Proof.
  intros Hrtc Hn. destruct (lock_reachable_inv threads c Hrtc Hn) as (r & q & Hinv). split_and!.
  - intros i j p p' Hi Hj. by eapply owner_unique.
  - apply Hinv.
  - split; [apply Hinv|]. intros [i Hi]. by eapply inv_critical.
Qed.

(** The threads that hold tickets, in the order of their tickets. *)
Record in_line (c : config) (q : list nat) : Prop := {
  il_nodup : NoDup q;
  il_members : forall i p, c_threads c !! i = Some p -> queued p = true <-> i ∈ q;
  il_tickets : forall k i t, q !! k = Some i -> c_threads c !! i = Some (Spinning t) ->
    t = owner_ticket (c_word c) + Z.of_nat k;
  il_next : next_ticket (c_word c) = owner_ticket (c_word c) + Z.of_nat (length q);
  il_owner : forall k i p, q !! k = Some i -> c_threads c !! i = Some p -> owns p = true -> k = 0%nat;
}.
Lemma inv_in_line c r q : inv c r q -> c_issued c < 2 ^ 16 -> in_line c q.
Proof.
  intros Hinv Hn. destruct (inv_halves c r q Hinv Hn) as (Ho & Hx & _). split; rewrite ?Ho, ?Hx.
  - apply Hinv.
  - apply Hinv.
  - intros k i t. by apply (inv_ticket _ _ _ Hinv).
  - apply Hinv.
  - intros k i p. by apply (inv_owner _ _ _ Hinv).
Qed.

(** (C31) First come, first served, while fewer than 65536 tickets have been
    issued: the threads that hold tickets form a queue with consecutive tickets
    from the owner ticket on, the next ticket to be issued comes after them, and
    only the first can own the lock; a waiting thread's load of the word lets it
    through if and only if it is the first; and as long as the bound holds a step
    leaves the queue as it is, appends the thread that took a ticket at its end,
    or removes the first thread when that releases the lock. *)
Theorem lock_first_come_first_served (threads : nat) (c : config) :
  rtc steps (initial threads) c -> c_issued c < 2 ^ 16 ->
  exists q, in_line c q /\
  (forall i t c', c_threads c !! i = Some (Spinning t) -> step c i c' ->
     c_threads c' !! i = Some Acquired <-> head q = Some i) /\
  (forall i c', step c i c' -> c_issued c' < 2 ^ 16 -> exists q', in_line c' q' /\ moved q i q').
Proof.
  intros Hrtc Hn. destruct (lock_reachable_inv threads c Hrtc Hn) as (r & q & Hinv). exists q.
  split_and!; [by eapply inv_in_line| |].
  - intros i t c' Hi Hstep. inversion Hstep; simplify_eq. cbn [c_threads move].
    rewrite list_lookup_insert_eq by (by eapply lookup_lt_Some).
    destruct (queued_position c r q i (Spinning t)) as (k & Hk & _); [done..|].
    pose proof (inv_ticket _ _ _ Hinv i k t Hk Hi) as ->. destruct (inv_halves c r q Hinv Hn) as (-> & _ & _).
    destruct (Z.eqb_spec r (r + Z.of_nat k)) as [He|Hne].
    + replace k with 0%nat in Hk by lia. split; [|done]. intros _. by destruct q.
    + split; [done|]. intros Hh. destruct q as [|i' q]; [done|]. injection Hh as ->.
      assert (0%nat = k) as <-; [|lia]. by apply (NoDup_lookup (i :: q) 0 k i (inv_nodup _ _ _ Hinv)).
  - intros i c' Hstep Hn'. destruct (step_inv c r q i c' Hinv Hstep Hn') as (r' & q' & Hinv' & Hm).
    exists q'. split; [by eapply inv_in_line|done].
Qed.

(** The word does not survive 65536 acquisitions.  With any number of
    threads below 65534 there is a run after which every thread is idle, yet
    whatever the threads do from then on, none of them ever owns the lock
    again: the last [release] carried into the next ticket. *)
Theorem lock_dead_after_wrap (threads : nat) :
  (0 < threads)%nat -> Z.of_nat threads < 2 ^ 16 - 2 ->
  exists c, rtc steps (initial threads) c /\ c_issued c = 2 ^ 16 /\
    (forall i p, c_threads c !! i = Some p -> p = Idle) /\
    forall c', rtc steps c c' -> forall i p, c_threads c' !! i = Some p -> owns p = false.
Proof.
  intros Hth Hb. exists (idle threads (word 1 0) (2 ^ 16)). split_and!.
  - etrans; [apply (idle_cycles threads (Z.to_nat (2 ^ 16 - 1))); lia|].
    rewrite Z2Nat.id by lia.
    pose proof (idle_cycle threads (2 ^ 16 - 1) Hth ltac:(lia)) as Hc. exact Hc.
  - done.
  - intros i p Hi. by apply lookup_replicate in Hi as [-> _].
  - intros c' Hrtc i p Hi.
    assert (dead (idle threads (word 1 0) (2 ^ 16)) 0) as Hdead.
    { split; [done| |].
      - simpl. clear. induction threads as [|n IH]; [done|]. simpl. by rewrite filter_cons.
      - intros j x Hj. apply lookup_replicate in Hj as [-> _]. by left. }
    destruct (dead_forever _ 0 c' Hdead) as [k [_ _ Hpc]]; [simpl; by rewrite length_replicate|done|].
    apply Hpc in Hi as [->|(t & -> & _)]; done.
Qed.

(** A guard brackets a critical section: taking it on a free lock disables
    interrupts and remembers their state, and dropping it restores that state
    and leaves the lock free, one ticket later; while it is held [try_guard]
    returns [None] with the interrupt state and the lock unchanged. *)
Theorem guard_brackets (n : Z) (irq : bool) (fuel : nat) :
  0 <= n -> n + 1 < 2 ^ 16 ->
  let free k := {| lock_state := word k k; lock_held := false; irq_enabled := irq |} in
  let taken := {| lock_state := word (n + 1) n; lock_held := true; irq_enabled := false |} in
  guard fuel (free n) = Done (irq, taken) /\
  try_guard (free n) = Done (Some irq, taken) /\
  try_guard taken = Done (None, taken) /\
  guard_drop irq taken = Done (tt, free (n + 1)).
Proof.
  intros H0 H1 free taken.
  assert (owner_ticket (word n n) = n /\ next_ticket (word n n) = n) as [Ho Hn]
    by (rewrite owner_word, next_word by lia; done).
  assert (owner_ticket (word (n + 1) n) = n /\ next_ticket (word (n + 1) n) = n + 1) as [Ho1 Hn1]
    by (rewrite owner_word, next_word by lia; done).
  assert ((n =? n + 1) = false) as Hne by lia. unfold taken, free.
  split_and!; [unfold guard, lock, acquire|unfold try_guard, try_lock, try_acquire..
    |unfold guard_drop, unlock, release, restore_interrupts]; unfold bind, gets, modify, ret; simpl.
  - by rewrite Ho, Hn, Z.eqb_refl, issue_word by lia.
  - rewrite Ho, Hn, Z.eqb_refl. simpl. rewrite Z.eqb_refl. simpl. by rewrite issue_word by lia.
  - by rewrite Ho1, Hn1, Hne.
  - rewrite Ho1, Hn1, Hne. simpl. rewrite advance_word by lia. by destruct irq.
Qed.

(** Two threads; thread 0 has taken the lock and thread 1 waits. *)
Definition contended : config :=
  {| c_word := word 2 0; c_held := false; c_threads := [Acquired; Spinning 1]; c_issued := 2 |}.

Lemma contended_reachable : rtc steps (initial 2) contended.
Proof.
  apply (rtc_l _ _ {| c_word := word 1 0; c_held := false; c_threads := [Acquired; Idle]; c_issued := 1 |}).
  - exists 0%nat. exact (step_fetch_add (initial 2) 0 eq_refl).
  - apply rtc_once. exists 1%nat.
    exact (step_fetch_add {| c_word := word 1 0; c_held := false; c_threads := [Acquired; Idle];
                             c_issued := 1 |} 1 eq_refl).
Qed.

Lemma lock_mutual_exclusion_witness :
  (forall i j p p', c_threads contended !! i = Some p -> c_threads contended !! j = Some p' ->
     owns p = true -> owns p' = true -> i = j) /\
  (forall i, c_threads contended !! i <> Some Faulted) /\
  (c_held contended = true <-> exists i, c_threads contended !! i = Some Critical).
Proof. exact (lock_mutual_exclusion 2 contended contended_reachable eq_refl). Defined.

(** The first thread has passed through its critical section. *)
Definition released : config :=
  {| c_word := word 2 1; c_held := false; c_threads := [Idle; Spinning 1]; c_issued := 2 |}.

Lemma released_reachable : rtc steps (initial 2) released.
Proof.
  pose (at_pc := fun p h => {| c_word := word 2 0; c_held := h; c_threads := [p; Spinning 1]; c_issued := 2 |}).
  etrans; [exact contended_reachable|].
  apply (rtc_l _ _ (at_pc Critical true)); [exists 0%nat; exact (step_set_held contended 0 eq_refl)|].
  apply (rtc_l _ _ (at_pc Unheld false));
    [exists 0%nat; exact (step_clear_held (at_pc Critical true) 0 eq_refl)|].
  apply (rtc_l _ _ (at_pc Checked false)); [exists 0%nat; exact (step_check (at_pc Unheld false) 0 eq_refl)|].
  apply rtc_once. exists 0%nat. exact (step_release (at_pc Checked false) 0 eq_refl).
Qed.

Lemma lock_first_come_first_served_witness :
  exists q, in_line released q /\ head q = Some 1%nat.
Proof.
  destruct (lock_first_come_first_served 2 released released_reachable eq_refl) as (q & Hq & Hfirst & _).
  exists q. split; [exact Hq|]. by apply (Hfirst 1%nat 1 _ eq_refl (step_spin released 1 1 eq_refl)).
Defined.

Lemma lock_dead_after_wrap_witness :
  exists c, rtc steps (initial 4) c /\ c_issued c = 2 ^ 16 /\
    (forall i p, c_threads c !! i = Some p -> p = Idle) /\
    forall c', rtc steps c c' -> forall i p, c_threads c' !! i = Some p -> owns p = false.
Proof. exact (lock_dead_after_wrap 4 ltac:(lia) eq_refl). Defined.

Lemma guard_brackets_witness :
  guard 1 (SpinLock_new true) =
    Done (true, {| lock_state := word 1 0; lock_held := true; irq_enabled := false |}).
Proof. exact (proj1 (guard_brackets 0 true 1 ltac:(discriminate) eq_refl)). Defined.
