(* ===== verification/Clock.v ===== *)
(** * Timer arithmetic and the runtime clock

    Models [time/mod.rs], [clock/mod.rs], [runtime/clock.rs] and the two
    architectures' [set_deadline] ([arch/aarch64/timer.rs],
    [arch/riscv64/timer.rs] over [arch/riscv64/sbi.rs]).  The timer interrupt
    handler counts the ticks that have passed, hands them to the scheduler and
    programs the next absolute deadline.  The counter's value is an argument
    of the functions that read it; SBI firmware is a parameter. *)

From S2P Require Import Prelude HwInfo.
From stdpp Require Import base tactics option list list_numbers numbers strings relations.

#[local] Open Scope Z_scope.
#[local] Open Scope kernel_scope.

(** ** Units

    [Frequency], [Ticks], [TickInterval] and [Deadline] are their [u64]s; the
    two [NonZeroU64]s are positive. *)

Definition TICK_RATE_HZ : Z := 100.

Inductive TimerError := DeadlineRejected.

Definition TickInterval_try_from_ticks (ticks : Z) : option Z :=
  if ticks =? 0 then None else Some ticks.
Definition Deadline_checked_after (deadline interval : Z) : option Z :=
  checked_add 64 deadline interval.

(** ** Tick arithmetic *)

Record TickAdvance := {
  elapsed_ticks : Z;
  advance_next_tick : Z;
}.

Definition ticks_per_interval (freq : Z) : option Z :=
  if freq <? TICK_RATE_HZ then None else TickInterval_try_from_ticks (freq / TICK_RATE_HZ).

Definition advance_tick_state {S} (now scheduled_tick interval : Z) : M S (option TickAdvance) :=
  let elapsed_ticks := 1 in
  let? deadline := Deadline_checked_after scheduled_tick interval in
  if deadline <=? now then
    let! late := sub_uint now deadline in
    let! missed := add_uint 64 (late / interval) 1 in
    let! elapsed_ticks := add_uint 64 elapsed_ticks missed in
    let? bytes := checked_mul 64 missed interval in
    let? deadline := checked_add 64 deadline bytes in
    ret (Some {| elapsed_ticks := elapsed_ticks; advance_next_tick := deadline |})
  else ret (Some {| elapsed_ticks := elapsed_ticks; advance_next_tick := deadline |}).

(** The [u128] products cannot overflow; the result is cut to [u64]. *)
Definition ticks_to_ns (ticks frequency : Z) : Z := cast_uint 64 (ticks * 1000000000 / frequency).
Definition ticks_to_us (ticks frequency : Z) : Z := cast_uint 64 (ticks * 1000000 / frequency).
Definition ns_to_ticks (ns frequency : Z) : Z := cast_uint 64 (ns * frequency / 1000000000).

(** ** Programming the hardware timer *)

(** [ecall extension function arg0 arg1 arg2]: the error and value registers. *)
Class SbiFirmware := { ecall : Z -> Z -> Z -> Z -> Z -> Z * Z }.

Definition EXTENSION_TIMER : Z := 0x54494d45.

(** [x as isize] *)
Definition as_isize (x : Z) : Z := if x <? 2 ^ 63 then x else x - 2 ^ 64.

Definition sbi_call `{SbiFirmware} (extension function arg0 arg1 arg2 : Z) : Result Z Z :=
  let '(error_raw, value) := ecall extension function arg0 arg1 arg2 in
  let error := as_isize error_raw in
  if error <? 0 then Err error else Ok value.

Definition sbi_set_timer `{SbiFirmware} (deadline : Z) : Result unit Z :=
  match sbi_call EXTENSION_TIMER 0 deadline 0 0 with Ok _ => Ok tt | Err e => Err e end.

(** The architecture's [set_deadline]: what it answers. *)
Class HalTimer := { hal_set_deadline : Z -> Result unit TimerError }.

Definition aarch64_set_deadline (deadline : Z) : Result unit TimerError := Ok tt.
Definition riscv64_set_deadline `{SbiFirmware} (deadline : Z) : Result unit TimerError :=
  match sbi_set_timer deadline with Ok _ => Ok tt | Err _ => Err DeadlineRejected end.

Definition aarch64_timer : HalTimer := {| hal_set_deadline := aarch64_set_deadline |}.
Definition riscv64_timer `{SbiFirmware} : HalTimer := {| hal_set_deadline := riscv64_set_deadline |}.

(** ** The runtime clock *)

Inductive ClockError :=
  | MissingFrequency
  | InvalidFrequency
  | DeadlineOverflow
  | Timer (e : TimerError)
  | FirstTickTimeout.

(** The four atomics, the compare value programmed last, whether the CPU has
    halted, and the scheduler. *)
Record Clock (Sched : Type) := {
  clk_frequency : Z;
  clk_interval : Z;
  clk_next_tick : Z;
  clk_tick_count : Z;
  clk_programmed : option Z;
  clk_halted : bool;
  clk_sched : Sched;
}.
Arguments clk_frequency {Sched}.
Arguments clk_interval {Sched}.
Arguments clk_next_tick {Sched}.
Arguments clk_tick_count {Sched}.
Arguments clk_programmed {Sched}.
Arguments clk_halted {Sched}.
Arguments clk_sched {Sched}.

Section Runtime.
Context `{HalTimer} {Sched : Type}.
(** [kernel::task::tick] *)
Variable task_tick : Z -> M Sched unit.

Definition Clock_new (sched : Sched) : Clock Sched := {|
  clk_frequency := 0; clk_interval := 0; clk_next_tick := 0; clk_tick_count := 0;
  clk_programmed := None; clk_halted := false; clk_sched := sched |}.

Definition set_clock (freq interval next count : Z) (c : Clock Sched) : Clock Sched := {|
  clk_frequency := freq; clk_interval := interval; clk_next_tick := next; clk_tick_count := count;
  clk_programmed := clk_programmed c; clk_halted := clk_halted c; clk_sched := clk_sched c |}.
Definition set_next_tick (next : Z) (c : Clock Sched) : Clock Sched :=
  set_clock (clk_frequency c) (clk_interval c) next (clk_tick_count c) c.
Definition set_tick_count (n : Z) (c : Clock Sched) : Clock Sched :=
  set_clock (clk_frequency c) (clk_interval c) (clk_next_tick c) n c.
Definition set_programmed (deadline : Z) (c : Clock Sched) : Clock Sched := {|
  clk_frequency := clk_frequency c; clk_interval := clk_interval c; clk_next_tick := clk_next_tick c;
  clk_tick_count := clk_tick_count c; clk_programmed := Some deadline; clk_halted := clk_halted c;
  clk_sched := clk_sched c |}.
Definition set_halted (c : Clock Sched) : Clock Sched := {|
  clk_frequency := clk_frequency c; clk_interval := clk_interval c; clk_next_tick := clk_next_tick c;
  clk_tick_count := clk_tick_count c; clk_programmed := clk_programmed c; clk_halted := true;
  clk_sched := clk_sched c |}.
Definition set_sched (x : Sched) (c : Clock Sched) : Clock Sched := {|
  clk_frequency := clk_frequency c; clk_interval := clk_interval c; clk_next_tick := clk_next_tick c;
  clk_tick_count := clk_tick_count c; clk_programmed := clk_programmed c; clk_halted := clk_halted c;
  clk_sched := x |}.

(** [hal::timer::set_deadline]: the compare value is programmed when accepted. *)
Definition program_deadline (deadline : Z) : M (Clock Sched) (Result unit TimerError) :=
  match hal_set_deadline deadline with
  | Ok _ => modify (set_programmed deadline) ;;; ret (Ok tt)
  | Err e => ret (Err e)
  end.

Definition run_task_tick (elapsed : Z) : M (Clock Sched) unit := fun c =>
  match task_tick elapsed (clk_sched c) with
  | Done (_, x) => Done (tt, set_sched x c)
  | Panic msg => Panic msg
  | Undefined => Undefined
  | OutOfFuel => OutOfFuel
  end.

(** [clock::init] with the frequency and the counter the hardware reports. *)
Definition clock_init (frequency : option Z) (now : Z) : M (Clock Sched) (Result unit ClockError) :=
  let? frequency := frequency ok_or MissingFrequency in
  let? interval := ticks_per_interval frequency ok_or InvalidFrequency in
  let? next := checked_add 64 now interval ok_or DeadlineOverflow in
  modify (set_clock frequency interval next 0) ;;;
  let! r := program_deadline next in
  match r with
  | Ok _ => ret (Ok tt)
  | Err e => ret (Err (Timer e))
  end.

(** [handle_timer_irq] when the counter reads [now]. *)
Definition handle_timer_irq (now : Z) : M (Clock Sched) unit :=
  let! raw := gets clk_interval in
  match TickInterval_try_from_ticks raw with
  | None => ret tt
  | Some interval =>
      let! scheduled := gets clk_next_tick in
      let! advance := advance_tick_state now scheduled interval in
      match advance with
      | None => ret tt
      | Some advance =>
          modify (fun c => set_tick_count
            (wrapping_add 64 (clk_tick_count c) (elapsed_ticks advance)) c) ;;;
          run_task_tick (elapsed_ticks advance) ;;;
          modify (set_next_tick (advance_next_tick advance)) ;;;
          let! r := program_deadline (advance_next_tick advance) in
          match r with
          | Ok _ => ret tt
          | Err _ => modify set_halted
          end
      end
  end.

(** [wait_for_first_tick]: the loads of [TICK_COUNT] see the values [reads]. *)
Fixpoint wait_for_first_tick (max_spins : nat) (reads : nat -> Z) : Result unit ClockError :=
  match max_spins with
  | O => Err FirstTickTimeout
  | S n => if negb (reads O =? 0) then Ok tt else wait_for_first_tick n (fun i => reads (S i))
  end.
End Runtime.

(** ** Lemmas *)

(** The ticks that have passed at [now]: at least the one that fired. *)
Definition ticks_passed (now scheduled interval : Z) : Z := Z.max 1 ((now - scheduled) / interval + 1).

Lemma ticks_passed_bounds now scheduled interval :
  0 < interval ->
  let n := ticks_passed now scheduled interval in
  now < scheduled + n * interval /\ (n = 1 \/ scheduled + (n - 1) * interval <= now).
Proof.
  intros Hi n. unfold n, ticks_passed.
  pose proof (Z.div_mod (now - scheduled) interval ltac:(lia)).
  pose proof (Z.mod_pos_bound (now - scheduled) interval Hi).
  set (q := (now - scheduled) / interval) in *. destruct (decide (1 <= q + 1)).
  - rewrite Z.max_r by lia. split; [nia|]. right. nia.
  - rewrite Z.max_l by lia. split; [nia|by left].
Qed.

Lemma advance_tick_run {S} now scheduled interval (s : S) :
  is_uint 64 now -> is_uint 64 scheduled -> is_uint 64 interval -> interval <> 0 ->
  let n := ticks_passed now scheduled interval in
  advance_tick_state now scheduled interval s =
    if n =? 2 ^ 64 then Panic "attempt to add with overflow"
    else if scheduled + n * interval <? 2 ^ 64
         then Done (Some {| elapsed_ticks := n; advance_next_tick := scheduled + n * interval |}, s)
         else Done (None, s).
Proof.
  intros Hn Hs Hi H0 n. unfold is_uint in Hn, Hs, Hi.
  unfold advance_tick_state, Deadline_checked_after, bind, ret, add_uint, sub_uint, checked_add, checked_sub.
  pose proof (ticks_passed_bounds now scheduled interval ltac:(lia)) as [Hlt Hge]. fold n in Hlt, Hge.
  pose proof (Z.div_mod (now - scheduled) interval ltac:(lia)) as Hdm.
  pose proof (Z.mod_pos_bound (now - scheduled) interval ltac:(lia)) as Hmb.
  assert (n = Z.max 1 ((now - scheduled) / interval + 1)) as Hdef by done. clearbody n.
  set (q := (now - scheduled) / interval) in *.
  destruct (Z.ltb_spec (scheduled + interval) (2 ^ 64)) as [Hok|Hov].
  2:{ destruct (Z.eqb_spec n (2 ^ 64)) as [He|He]; [exfalso; nia|].
      rewrite (proj2 (Z.ltb_ge _ _)) by nia. done. }
  destruct (Z.leb_spec (scheduled + interval) now) as [Hle|Hgt].
  - simpl.
    assert ((now - (scheduled + interval)) / interval = q - 1) as Hq.
    { replace (now - (scheduled + interval)) with ((now - scheduled) + (-1) * interval) by lia.
      rewrite Z.div_add by lia. unfold q. lia. }
    rewrite Hq. replace (q - 1 + 1) with q by lia. assert (1 <= q) as Hq1 by nia.
    rewrite Z.max_r in Hdef by lia. subst n. assert (q < 2 ^ 64) as Hq2 by nia.
    rewrite (proj2 (Z.ltb_lt q _)) by lia. simpl.
    destruct (Z.ltb_spec (1 + q) (2 ^ 64)) as [Hsum|Hsum].
    2:{ rewrite (proj2 (Z.eqb_eq _ _)) by lia. done. }
    rewrite (proj2 (Z.eqb_neq _ _)) by lia. simpl. unfold checked_mul.
    destruct (Z.ltb_spec (scheduled + (q + 1) * interval) (2 ^ 64)).
    + rewrite (proj2 (Z.ltb_lt (q * interval) _)) by nia.
      rewrite (proj2 (Z.ltb_lt _ _)) by nia. unfold ret. do 4 f_equal; lia.
    + destruct (Z.ltb_spec (q * interval) (2 ^ 64)); [|done].
      by rewrite (proj2 (Z.ltb_ge _ _)) by nia.
  - assert (q < 1) as Hq by nia. rewrite Z.max_l in Hdef by lia. subst n.
    rewrite (proj2 (Z.eqb_neq _ _)) by lia.
    replace (scheduled + 1 * interval) with (scheduled + interval) by lia.
    by rewrite (proj2 (Z.ltb_lt _ _)).
Qed.

(** ** Theorems *)

(** [advance_tick_state] counts the ticks that have passed and returns the
    first deadline of the grid [scheduled + k * interval] that is later than
    [now]; it is [None] exactly when that deadline does not fit a [u64].  On one
    input, a first tick at the end of the counter's range, the count itself
    overflows. *)
Theorem advance_tick_exact (now scheduled interval : Z) :
  is_uint 64 now -> is_uint 64 scheduled -> is_uint 64 interval -> interval <> 0 ->
  let n := ticks_passed now scheduled interval in
  now < scheduled + n * interval /\ (n = 1 \/ scheduled + (n - 1) * interval <= now) /\
  (n = 2 ^ 64 <-> now = u64_MAX /\ scheduled = 0 /\ interval = 1) /\
  advance_tick_state now scheduled interval tt =
    if n =? 2 ^ 64 then Panic "attempt to add with overflow"
    else if scheduled + n * interval <? 2 ^ 64
         then Done (Some {| elapsed_ticks := n; advance_next_tick := scheduled + n * interval |}, tt)
         else Done (None, tt).
Proof.
  intros Hn Hs Hi H0 n. destruct (ticks_passed_bounds now scheduled interval) as [H1 H2];
    [unfold is_uint in *; lia|]. split_and!; [done..| |by apply advance_tick_run].
  unfold n, is_uint, u64_MAX in *. split.
  - intros Heq. rewrite Heq in *. nia.
  - intros (-> & -> & ->). reflexivity.
Qed.

(** Converting ticks to nanoseconds and back loses at most one tick, when the
    counter runs at 1 GHz or less and the nanoseconds fit a [u64]. *)
Theorem ticks_ns_round_trip (ticks frequency : Z) :
  is_uint 64 ticks -> 0 < frequency <= 1000000000 -> ticks * 1000000000 / frequency < 2 ^ 64 ->
  ticks - 1 <= ns_to_ticks (ticks_to_ns ticks frequency) frequency <= ticks.
Proof.
  intros Ht Hf Hfit. unfold is_uint in Ht. unfold ns_to_ticks, ticks_to_ns, cast_uint.
  set (ns := ticks * 1000000000 / frequency) in *.
  assert (0 <= ns) as Hns by (apply Z.div_pos; lia).
  rewrite (Z.mod_small ns) by lia.
  pose proof (Z.div_mod (ticks * 1000000000) frequency ltac:(lia)) as Hdm. fold ns in Hdm.
  pose proof (Z.mod_pos_bound (ticks * 1000000000) frequency ltac:(lia)) as Hmb.
  assert (ticks - 1 <= ns * frequency / 1000000000 <= ticks) as Hb.
  { split; [apply Z.div_le_lower_bound; nia|apply Z.div_le_upper_bound; nia]. }
  rewrite Z.mod_small; [done|]. split; [apply Z.div_pos; nia|lia].
Qed.

Section RuntimeTheorems.
Context `{HalTimer} {Sched : Type} (task_tick : Z -> M Sched unit).

(** The counter's value and the clock after the interrupts so far.  The timer
    fires when the counter, which never goes back, has reached the deadline
    programmed last; how much later the handler runs is open.  A halted CPU takes
    no more interrupts. *)
Inductive timer_irq : Z * Clock Sched -> Z * Clock Sched -> Prop :=
  | timer_fires before deadline now c c' :
      clk_halted c = false -> clk_programmed c = Some deadline ->
      before <= now -> deadline <= now -> is_uint 64 now ->
      handle_timer_irq task_tick now c = Done (tt, c') ->
      timer_irq (before, c) (now, c').

(** The first point of the grid [origin + k * interval] after [now]. *)
Definition next_point (origin interval now : Z) : Z := origin + ((now - origin) / interval + 1) * interval.

Lemma next_point_bounds origin interval now :
  0 < interval -> next_point origin interval now - interval <= now < next_point origin interval now.
Proof.
  intros Hi. unfold next_point. pose proof (Z.div_mod (now - origin) interval ltac:(lia)).
  pose proof (Z.mod_pos_bound (now - origin) interval Hi). lia.
Qed.
Lemma next_point_mono origin interval now now' :
  0 < interval -> now <= now' -> next_point origin interval now <= next_point origin interval now'.
Proof.
  intros Hi Hle. unfold next_point. pose proof (Z.div_le_mono (now - origin) (now' - origin) interval ltac:(lia) ltac:(lia)). nia.
Qed.

(** As long as the next grid point fits a [u64], the clock is exact: the count is
    the number of points passed, and the deadline is the next one. *)
Record on_grid (origin interval now : Z) (c : Clock Sched) : Prop := {
  og_interval : clk_interval c = interval;
  og_past : origin <= now;
  og_exact : next_point origin interval now < 2 ^ 64 ->
    clk_tick_count c = (now - origin) / interval /\ clk_next_tick c = next_point origin interval now /\
    (clk_programmed c = Some (clk_next_tick c) \/ clk_halted c = true);
}.

(** A late interrupt skips to the next grid point. *)
Lemma late_point origin interval before now :
  0 < interval -> next_point origin interval before <= now ->
  let n := ticks_passed now (next_point origin interval before) interval in
  next_point origin interval before + n * interval = next_point origin interval now /\
  (before - origin) / interval + n = (now - origin) / interval.
Proof.
  intros Hi Hle n.
  assert ((before - origin) / interval + n = (now - origin) / interval) as Hn.
  { unfold n, ticks_passed.
    replace (now - next_point origin interval before) with
      ((now - origin) + (- ((before - origin) / interval + 1)) * interval) by (unfold next_point; lia).
    rewrite Z.div_add by lia.
    assert ((before - origin) / interval + 1 <= (now - origin) / interval); [|lia].
    apply Z.div_le_lower_bound; [done|]. unfold next_point in Hle. lia. }
  split; [|done]. unfold next_point. nia.
Qed.

Lemma handler_interval now c c' : handle_timer_irq task_tick now c = Done (tt, c') -> clk_interval c' = clk_interval c.
Proof.
  unfold handle_timer_irq. intros (raw & c1 & [= <- <-] & Hrun)%bind_Done.
  destruct (TickInterval_try_from_ticks _) as [interval|]; [|by injection Hrun as <-].
  apply bind_Done in Hrun as (d & c2 & [= <- <-] & Hrun). apply bind_Done in Hrun as (o & c3 & Hadv & Hrun).
  assert (c3 = c) as ->.
  { unfold advance_tick_state, sub_uint, add_uint, bind, expect, ret, panic in Hadv. by repeat case_match; simplify_eq. }
  destruct o as [adv|]; [|by injection Hrun as <-]. unfold bind, modify, run_task_tick, program_deadline in Hrun.
  destruct (task_tick _ _) as [[[] x]| | |]; [|done..]. by destruct (hal_set_deadline _) as [[]|e]; injection Hrun as <-.
Qed.

Lemma timer_irq_grid origin interval before now c c' :
  0 <= origin -> 0 < interval < 2 ^ 64 -> on_grid origin interval before c ->
  timer_irq (before, c) (now, c') -> on_grid origin interval now c'.
Proof.
  intros Ho Hpos [Hint Hpast Hexact] Hstep. inversion Hstep as [? d ? ? ? Hh Hp Hle Hd Hnow Hrun]; subst. clear Hstep.
  pose proof (next_point_mono origin (clk_interval c) before now ltac:(lia) Hle) as Hmono.
  pose proof (next_point_bounds origin (clk_interval c) before ltac:(lia)) as Hb.
  pose proof (next_point_bounds origin (clk_interval c) now ltac:(lia)) as Hb'. unfold is_uint in Hnow.
  destruct (Z.ltb_spec (next_point origin (clk_interval c) now) (2 ^ 64)) as [Hfit|Hno].
  - destruct Hexact as (Hc & Hn & [Hpr|]); [lia| |congruence]. rewrite Hp in Hpr. injection Hpr as ->.
    destruct (late_point origin (clk_interval c) before now ltac:(lia) ltac:(lia)) as [Hnext Hcnt].
    unfold handle_timer_irq, bind, gets in Hrun. unfold TickInterval_try_from_ticks in Hrun.
    rewrite (proj2 (Z.eqb_neq _ _)) in Hrun by lia. rewrite advance_tick_run in Hrun by (unfold is_uint; lia).
    rewrite Hn in Hrun. set (n := ticks_passed _ _ _) in *.
    assert (1 <= n) as Hn1 by (unfold n, ticks_passed; lia).
    assert (n < 2 ^ 64) as Hn64 by nia.
    rewrite (proj2 (Z.eqb_neq n _)), Hnext, (proj2 (Z.ltb_lt _ _)) in Hrun by lia.
    unfold modify, run_task_tick, program_deadline in Hrun. simpl in Hrun.
    destruct (task_tick n (clk_sched c)) as [[[] x]| | |]; [|done..]. simpl in Hrun.
    assert (wrapping_add 64 (clk_tick_count c) n = (now - origin) / clk_interval c) as Hw.
    { unfold wrapping_add. rewrite Hc, Hcnt. apply Z.mod_small. split; [apply Z.div_pos; lia|]. unfold next_point in Hfit. nia. }
    destruct (hal_set_deadline _) as [[]|e]; injection Hrun as <-; (split; simpl; [done|lia|]; rewrite Hw; auto).
  - split; [by eapply handler_interval|lia|lia].
Qed.

(** (C32) The clock does not drift.  After [init] at the counter value [origin],
    let the timer fire any number of times, each time when the counter has
    reached the programmed deadline, with whatever delay before the handler runs,
    the last time at [now].  As long as the next grid point fits a [u64], the
    tick count is the number of intervals that have passed since [origin], ticks
    that the delays swallowed included, the next deadline is the first point of
    the grid [origin + k * interval] after [now], and that is what the timer is
    programmed with, unless the hardware rejected it and the CPU halted. *)
Theorem clock_never_drifts (frequency origin now : Z) (c0 c1 c : Clock Sched) :
  is_uint 64 frequency -> is_uint 64 origin ->
  clock_init (Some frequency) origin c0 = Done (Ok tt, c1) ->
  rtc timer_irq (origin, c1) (now, c) ->
  let interval := frequency / TICK_RATE_HZ in
  next_point origin interval now < 2 ^ 64 ->
  clk_tick_count c = (now - origin) / interval /\
  clk_next_tick c = origin + (clk_tick_count c + 1) * interval /\
  clk_next_tick c - interval <= now < clk_next_tick c /\
  (clk_programmed c = Some (clk_next_tick c) \/ clk_halted c = true).
Proof.
  intros Hf Ho Hinit Hrtc interval Hfit. unfold is_uint in *.
  assert (0 < interval < 2 ^ 64 /\ on_grid origin interval origin c1) as [Hi Hg].
  { unfold clock_init, ticks_per_interval, TickInterval_try_from_ticks in Hinit. fold interval in Hinit.
    destruct (Z.ltb_spec frequency TICK_RATE_HZ) as [|Hge]; [done|].
    destruct (Z.eqb_spec interval 0) as [|Hnz]; [done|].
    assert (0 < interval < 2 ^ 64) as Hi by (unfold interval, TICK_RATE_HZ in *; divlia).
    destruct (checked_add 64 origin _) as [next|] eqn:Hadd; [|done].
    apply checked_add_Some in Hadd as [-> Hadd].
    unfold bind, modify, program_deadline, ret in Hinit.
    destruct (hal_set_deadline _) as [[]|e]; [|done]. injection Hinit as <-. split; [done|].
    split; simpl; [done|lia|]. intros _. unfold next_point. rewrite Z.sub_diag, Z.div_0_l by lia. split_and!; [done|lia|by left]. }
  assert (on_grid origin interval now c) as [_ _ Hex].
  { clear Hinit Hfit.
    assert (forall p q : Z * Clock Sched, rtc timer_irq p q -> on_grid origin interval p.1 p.2 -> on_grid origin interval q.1 q.2) as Hall.
    { induction 1 as [p|[t a] [t' a'] q Hstep _ IH]; [done|]. cbn in *. intros Ha. apply IH. eapply timer_irq_grid; [lia|done|exact Ha|exact Hstep]. }
    exact (Hall _ _ Hrtc Hg). }
  destruct (Hex Hfit) as (Hc & Hn & Hp). pose proof (next_point_bounds origin interval now ltac:(lia)).
  split_and!; [done|rewrite Hn, Hc; done|lia|lia|done].
Qed.
End RuntimeTheorems.

Lemma advance_tick_exact_witness :
  advance_tick_state 1350 1000 100 tt = Done (Some {| elapsed_ticks := 4; advance_next_tick := 1400 |}, tt).
Proof.
  exact (proj2 (proj2 (proj2 (advance_tick_exact 1350 1000 100 ltac:(split; [discriminate|reflexivity])
    ltac:(split; [discriminate|reflexivity]) ltac:(split; [discriminate|reflexivity])
    ltac:(discriminate))))).
Defined.

Lemma ticks_ns_round_trip_witness :
  12345 - 1 <= ns_to_ticks (ticks_to_ns 12345 62500000) 62500000 <= 12345.
Proof.
  exact (ticks_ns_round_trip 12345 62500000 ltac:(split; [discriminate|reflexivity])
    ltac:(split; [reflexivity|discriminate]) eq_refl).
Defined.

(** A 62.5 MHz counter; the first interrupt comes two intervals late. *)
Definition demo_tick (n : Z) : M Z unit := modify (Z.add n).
#[local] Existing Instance aarch64_timer.
Definition demo_clock : Clock Z :=
  match clock_init (Some 62500000) 1000 (Clock_new 0) with Done (_, c) => c | _ => Clock_new 0 end.
Definition demo_late : Clock Z :=
  match handle_timer_irq demo_tick 1900000 demo_clock with Done (_, c) => c | _ => demo_clock end.

Lemma clock_never_drifts_witness :
  clk_tick_count demo_late = (1900000 - 1000) / 625000 /\ clk_tick_count demo_late = 3 /\ clk_next_tick demo_late = 2501000.
Proof.
  split; [|by split].
  refine (proj1 (clock_never_drifts demo_tick 62500000 1000 1900000 (Clock_new 0) demo_clock demo_late _ _ _ _ _)).
  - split; [discriminate|reflexivity].
  - split; [discriminate|reflexivity].
  - reflexivity.
  - apply rtc_once. apply (timer_fires demo_tick 1000 626000); try reflexivity; try discriminate. split; [discriminate|reflexivity].
  - reflexivity.
Defined.
