(* ===== verification/Trap.v ===== *)
(** * Traps

    Models [trap/cause.rs], [trap/frame.rs], [trap/report.rs],
    [trap/dispatch.rs] and [trap/fmt.rs]: the decoding of the architectures'
    cause registers into portable causes, the register frames that the assembly
    entry code fills, the portable snapshot of a frame, and the number
    formatting that the trap report uses. *)

From S2P Require Import Prelude.
From stdpp Require Import base tactics option list list_numbers numbers strings.

#[local] Open Scope Z_scope.
#[local] Open Scope kernel_scope.

(** ** Causes *)

Inductive InterruptKind :=
  | UnknownInterrupt | SupervisorSoftware | SupervisorTimer | SupervisorExternal.

Inductive TrapKind :=
  | UnknownTrap
  | Syscall
  | PageFault
  | Interrupt (kind : InterruptKind)
  | Breakpoint
  | IllegalInstruction
  | AlignmentFault
  | FloatingPointUnavailable
  | SystemError
  | OtherTrap.

#[global] Instance InterruptKind_eq_dec : EqDecision InterruptKind.
Proof. solve_decision. Defined.
#[global] Instance TrapKind_eq_dec : EqDecision TrapKind.
Proof. solve_decision. Defined.

Record TrapCause := TrapCause_new {
  cause_kind : TrapKind;
  cause_raw : Z;
  cause_name : string;
}.

Definition is_syscall (c : TrapCause) : bool :=
  match cause_kind c with Syscall => true | _ => false end.
Definition is_page_fault (c : TrapCause) : bool :=
  match cause_kind c with PageFault => true | _ => false end.
Definition is_interrupt (c : TrapCause) : bool :=
  match cause_kind c with Interrupt _ => true | _ => false end.
Definition interrupt_kind (c : TrapCause) : option InterruptKind :=
  match cause_kind c with Interrupt kind => Some kind | _ => None end.

(** A [match] on an integer: the first entry of the table, or the default. *)
Fixpoint match_int {A} (table : list (Z * A)) (default : A) (x : Z) : A :=
  match table with
  | [] => default
  | (k, a) :: table => if x =? k then a else match_int table default x
  end.

Definition EXCEPTION_CLASS_SHIFT : Z := 26.
Definition EXCEPTION_CLASS_MASK : Z := 0x3f.

Definition exception_class_table : list (Z * (TrapKind * string)) := [
  (0x00, (UnknownTrap, "unknown exception"));
  (0x01, (OtherTrap, "wfi/wfe trapped"));
  (0x07, (FloatingPointUnavailable, "simd/fp access"));
  (0x11, (Syscall, "svc (syscall, aarch32)"));
  (0x12, (OtherTrap, "hvc (hypervisor call, aarch32)"));
  (0x13, (OtherTrap, "smc (secure monitor call, aarch32)"));
  (0x15, (Syscall, "svc (syscall)"));
  (0x16, (OtherTrap, "hvc (hypervisor call)"));
  (0x17, (OtherTrap, "smc (secure monitor call)"));
  (0x18, (OtherTrap, "msr/mrs/sys trapped"));
  (0x20, (PageFault, "instruction abort (lower level)"));
  (0x21, (PageFault, "instruction abort (same level)"));
  (0x22, (AlignmentFault, "program counter alignment fault"));
  (0x24, (PageFault, "data abort (lower level)"));
  (0x25, (PageFault, "data abort (same level)"));
  (0x26, (AlignmentFault, "stack pointer alignment fault"));
  (0x2f, (SystemError, "system error"));
  (0x30, (Breakpoint, "breakpoint (lower level)"));
  (0x31, (Breakpoint, "breakpoint (same level)"));
  (0x3c, (Breakpoint, "brk instruction")) ].

Definition decode_exception_syndrome (esr : Z) : TrapCause :=
  let class := cast_uint 8 (Z.land (Z.shiftr esr EXCEPTION_CLASS_SHIFT) EXCEPTION_CLASS_MASK) in
  let '(kind, name) := match_int exception_class_table (OtherTrap, "other exception") class in
  TrapCause_new kind esr name.

Definition INTERRUPT_BIT : Z := Z.shiftl 1 63.
Definition CAUSE_CODE_MASK : Z := not_uint 64 INTERRUPT_BIT.

Definition interrupt_table : list (Z * (InterruptKind * string)) := [
  (1, (SupervisorSoftware, "supervisor software interrupt"));
  (5, (SupervisorTimer, "supervisor timer interrupt"));
  (9, (SupervisorExternal, "supervisor external interrupt")) ].

Definition decode_interrupt (raw code : Z) : TrapCause :=
  let '(kind, name) := match_int interrupt_table (UnknownInterrupt, "unknown interrupt") code in
  TrapCause_new (Interrupt kind) raw name.

Definition exception_table : list (Z * (TrapKind * string)) := [
  (0, (AlignmentFault, "instruction address misaligned"));
  (1, (OtherTrap, "instruction access fault"));
  (2, (IllegalInstruction, "illegal instruction"));
  (3, (Breakpoint, "breakpoint"));
  (4, (AlignmentFault, "load address misaligned"));
  (5, (OtherTrap, "load access fault"));
  (6, (AlignmentFault, "store address misaligned"));
  (7, (OtherTrap, "store access fault"));
  (8, (Syscall, "environment call from user mode"));
  (9, (Syscall, "environment call from supervisor mode"));
  (11, (Syscall, "environment call from machine mode"));
  (12, (PageFault, "instruction page fault"));
  (13, (PageFault, "load page fault"));
  (15, (PageFault, "store page fault"));
  (20, (PageFault, "instruction guest page fault"));
  (21, (PageFault, "load guest page fault"));
  (22, (OtherTrap, "virtual instruction"));
  (23, (PageFault, "store guest page fault")) ].

Definition decode_exception (scause : Z) : TrapCause :=
  let '(kind, name) := match_int exception_table (UnknownTrap, "unknown trap") scause in
  TrapCause_new kind scause name.

Definition decode_supervisor_cause (scause : Z) : TrapCause :=
  if negb (Z.land scause INTERRUPT_BIT =? 0)
  then decode_interrupt scause (Z.land scause CAUSE_CODE_MASK)
  else decode_exception scause.

(** ** Snapshots *)

Class TrapFrameSnapshot (Frame : Type) := {
  architecture_name : Frame -> string;
  program_counter : Frame -> Z;
  frame_cause : Frame -> TrapCause;
  fault_address : Frame -> Z;
  is_from_user : Frame -> bool;
}.

Record TrapReport := {
  report_architecture_name : string;
  report_program_counter : Z;
  report_cause : TrapCause;
  report_fault_address : Z;
  report_from_user : bool;
}.

Definition TrapReport_from_frame `{TrapFrameSnapshot Frame} (frame : Frame) : TrapReport := {|
  report_architecture_name := architecture_name frame;
  report_program_counter := program_counter frame;
  report_cause := frame_cause frame;
  report_fault_address := fault_address frame;
  report_from_user := is_from_user frame |}.

Inductive KernelTrapAction :=
  | TrapReturn
  | TrapPanic (report : TrapReport).

Definition dispatch_kernel_trap `{TrapFrameSnapshot Frame} (frame : Frame) : KernelTrapAction :=
  TrapPanic (TrapReport_from_frame frame).

(** ** Frames

    Both frames are [repr(C)] structs of [u64]s. *)

Record Arm64TrapFrame := {
  arm64_regs : list Z;
  arm64_sp_saved : Z;
  arm64_elr : Z;
  arm64_spsr : Z;
  arm64_esr : Z;
  arm64_far : Z;
}.

Definition arm64_pc (f : Arm64TrapFrame) : Z := arm64_elr f.
Definition arm64_set_pc (value : Z) (f : Arm64TrapFrame) : Arm64TrapFrame := {|
  arm64_regs := arm64_regs f; arm64_sp_saved := arm64_sp_saved f; arm64_elr := value;
  arm64_spsr := arm64_spsr f; arm64_esr := arm64_esr f; arm64_far := arm64_far f |}.
Definition arm64_sp (f : Arm64TrapFrame) : Z := arm64_sp_saved f.
Definition arm64_cause (f : Arm64TrapFrame) : Z := arm64_esr f.
Definition arm64_fault_addr (f : Arm64TrapFrame) : Z := arm64_far f.
Definition arm64_fp (f : Arm64TrapFrame) : option Z := arm64_regs f !! 29%nat.
Definition arm64_is_from_user (f : Arm64TrapFrame) : bool := Z.land (arm64_spsr f) 0xf =? 0.
Definition arm64_reg (index : Z) (f : Arm64TrapFrame) : option Z := arm64_regs f !! Z.to_nat index.
Definition arm64_syscall_num (f : Arm64TrapFrame) : option Z := arm64_regs f !! 8%nat.
Definition arm64_syscall_arg (index : Z) (f : Arm64TrapFrame) : option Z :=
  match arm64_regs f !! Z.to_nat index with
  | None => None
  | Some value => if index <=? 5 then Some value else None
  end.
Definition arm64_set_syscall_return (value : Z) (f : Arm64TrapFrame) : Arm64TrapFrame := {|
  arm64_regs := <[0%nat := value]> (arm64_regs f); arm64_sp_saved := arm64_sp_saved f;
  arm64_elr := arm64_elr f; arm64_spsr := arm64_spsr f; arm64_esr := arm64_esr f;
  arm64_far := arm64_far f |}.

#[global] Instance Arm64TrapFrame_snapshot : TrapFrameSnapshot Arm64TrapFrame := {|
  architecture_name _ := "arm64";
  program_counter := arm64_pc;
  frame_cause f := decode_exception_syndrome (arm64_cause f);
  fault_address := arm64_fault_addr;
  is_from_user := arm64_is_from_user |}.

Record Riscv64TrapFrame := {
  riscv64_regs : list Z;
  riscv64_sp_saved : Z;
  riscv64_sepc : Z;
  riscv64_sstatus : Z;
  riscv64_scause : Z;
  riscv64_stval : Z;
}.

Definition riscv64_pc (f : Riscv64TrapFrame) : Z := riscv64_sepc f.
Definition riscv64_set_pc (value : Z) (f : Riscv64TrapFrame) : Riscv64TrapFrame := {|
  riscv64_regs := riscv64_regs f; riscv64_sp_saved := riscv64_sp_saved f; riscv64_sepc := value;
  riscv64_sstatus := riscv64_sstatus f; riscv64_scause := riscv64_scause f;
  riscv64_stval := riscv64_stval f |}.
Definition riscv64_sp (f : Riscv64TrapFrame) : Z := riscv64_sp_saved f.
Definition riscv64_cause (f : Riscv64TrapFrame) : Z := riscv64_scause f.
Definition riscv64_fault_addr (f : Riscv64TrapFrame) : Z := riscv64_stval f.
Definition riscv64_fp (f : Riscv64TrapFrame) : option Z := riscv64_regs f !! 7%nat.
Definition riscv64_is_from_user (f : Riscv64TrapFrame) : bool :=
  Z.land (riscv64_sstatus f) 0x100 =? 0.
Definition riscv64_reg (index : Z) (f : Riscv64TrapFrame) : option Z :=
  if index =? 0 then Some 0
  else if index =? 2 then Some (riscv64_sp_saved f)
  else if (1 <=? index) && (index <=? 31) then riscv64_regs f !! Z.to_nat (index - 1)
  else None.
Definition riscv64_syscall_num (f : Riscv64TrapFrame) : option Z := riscv64_regs f !! 16%nat.
Definition riscv64_syscall_arg (index : Z) (f : Riscv64TrapFrame) : option Z :=
  if 5 <? index then None else riscv64_regs f !! Z.to_nat (9 + index).
Definition riscv64_set_syscall_return (value : Z) (f : Riscv64TrapFrame) : Riscv64TrapFrame := {|
  riscv64_regs := <[9%nat := value]> (riscv64_regs f); riscv64_sp_saved := riscv64_sp_saved f;
  riscv64_sepc := riscv64_sepc f; riscv64_sstatus := riscv64_sstatus f;
  riscv64_scause := riscv64_scause f; riscv64_stval := riscv64_stval f |}.

#[global] Instance Riscv64TrapFrame_snapshot : TrapFrameSnapshot Riscv64TrapFrame := {|
  architecture_name _ := "riscv64";
  program_counter := riscv64_pc;
  frame_cause f := decode_supervisor_cause (riscv64_cause f);
  fault_address := riscv64_fault_addr;
  is_from_user := riscv64_is_from_user |}.

(** ** The stack image of a frame

    A frame as the sequence of 64-bit words that the entry code stores; field
    offsets as [offset_of!] gives them for the [repr(C)] layout. *)

Definition arm64_words (f : Arm64TrapFrame) : list Z :=
  arm64_regs f ++ [arm64_sp_saved f; arm64_elr f; arm64_spsr f; arm64_esr f; arm64_far f].
Definition riscv64_words (f : Riscv64TrapFrame) : list Z :=
  riscv64_regs f ++ [riscv64_sp_saved f; riscv64_sepc f; riscv64_sstatus f; riscv64_scause f;
                     riscv64_stval f].

Definition TrapFrame_SIZE : Z := 31 * 8 + 5 * 8.
Definition SAVED_STACK_POINTER_OFFSET : Z := 31 * 8.
Definition LINK_REGISTER_OFFSET : Z := 30 * 8.
Definition EXCEPTION_RETURN_ADDRESS_OFFSET : Z := 31 * 8 + 8.
Definition PROGRAM_STATUS_OFFSET : Z := 31 * 8 + 2 * 8.
Definition SYNDROME_OFFSET : Z := 31 * 8 + 3 * 8.
Definition FAULT_ADDRESS_OFFSET : Z := 31 * 8 + 4 * 8.
(** The RISC-V frame. *)
Definition PROGRAM_COUNTER_OFFSET : Z := 31 * 8 + 8.
Definition STATUS_OFFSET : Z := 31 * 8 + 2 * 8.
Definition CAUSE_OFFSET : Z := 31 * 8 + 3 * 8.
Definition TRAP_VALUE_OFFSET : Z := 31 * 8 + 4 * 8.
Definition LAST_REGISTER_OFFSET : Z := 30 * 8.
Definition Arm64IrqFrame_SIZE : Z := 20 * 8 + 2 * 8.
Definition Arm64IrqFrame_EXCEPTION_RETURN_ADDRESS_OFFSET : Z := 20 * 8.
Definition Arm64IrqFrame_PROGRAM_STATUS_OFFSET : Z := 20 * 8 + 8.
Definition Riscv64IrqFrame_SIZE : Z := 16 * 8 + 2 * 8.
Definition Riscv64IrqFrame_PROGRAM_COUNTER_OFFSET : Z := 16 * 8.
Definition Riscv64IrqFrame_STATUS_OFFSET : Z := 16 * 8 + 8.

(** [offset_of] read from the image. *)
Definition word_at (image : list Z) (offset : Z) : option Z := image !! Z.to_nat (offset / 8).

(** ** Number formatting *)

Definition HEX_DIGITS : list Z :=
  [48; 49; 50; 51; 52; 53; 54; 55; 56; 57; 97; 98; 99; 100; 101; 102].
Definition HEX_USIZE_DIGITS : nat := 16.
Definition DECIMAL_USIZE_DIGITS : nat := 20.

Record Decimal := {
  decimal_buf : list Z;
  decimal_len : Z;
}.
Definition as_bytes (d : Decimal) : list Z := take (Z.to_nat (decimal_len d)) (decimal_buf d).

(** [buf[index] = HEX_DIGITS[nibble]]. *)
Definition put_digit (buf : list Z) (index : nat) (nibble : Z) : option (list Z) :=
  match HEX_DIGITS !! Z.to_nat nibble with
  | Some digit => Some (<[index := digit]> buf)
  | None => None
  end.

(** The [while index < buf.len()] loop of [format_hex]; one iteration per unit
    of fuel, and [buf.len() + 1] is enough. *)
Fixpoint format_hex_loop (fuel : nat) (value shift : Z) (index : nat) (buf : list Z) :
    outcome (list Z) :=
  match fuel with
  | O => OutOfFuel
  | S fuel =>
      if decide (index < length buf)%nat then
        match put_digit buf index (Z.land (Z.shiftr value shift) 0xf) with
        | None => Panic "index out of bounds"
        | Some buf => format_hex_loop fuel value (saturating_sub shift 4) (S index) buf
        end
      else Done buf
  end.
Definition format_hex (value : Z) : outcome (list Z) :=
  format_hex_loop 17 value 60 0 (replicate 16 0).

Fixpoint format_hex_usize_loop (fuel : nat) (value : Z) (index : nat) (buf : list Z) :
    outcome (list Z) :=
  match fuel with
  | O => OutOfFuel
  | S fuel =>
      if decide (index < length buf)%nat then
        let shift := (Z.of_nat (length buf) - 1 - Z.of_nat index) * 4 in
        match put_digit buf index (Z.land (Z.shiftr value shift) 0xf) with
        | None => Panic "index out of bounds"
        | Some buf => format_hex_usize_loop fuel value (S index) buf
        end
      else Done buf
  end.
Definition format_hex_usize (value : Z) : outcome (list Z) :=
  format_hex_usize_loop 17 value 0 (replicate HEX_USIZE_DIGITS 0).

(** The [while value > 0] loop; every iteration uses one of the 20 places. *)
Fixpoint format_decimal_loop (fuel : nat) (value : Z) (index : nat) (scratch : list Z) :
    outcome (nat * list Z) :=
  match fuel with
  | O => OutOfFuel
  | S fuel =>
      if 0 <? value then
        match index with
        | O => Panic "attempt to subtract with overflow"
        | S index =>
            format_decimal_loop fuel (value / 10) index (<[index := 48 + value mod 10]> scratch)
        end
      else Done (index, scratch)
  end.

Definition format_decimal (value : Z) : outcome Decimal :=
  let result := replicate DECIMAL_USIZE_DIGITS 0 in
  if value =? 0 then Done {| decimal_buf := <[0%nat := 48]> result; decimal_len := 1 |}
  else
    match format_decimal_loop 21 value DECIMAL_USIZE_DIGITS (replicate DECIMAL_USIZE_DIGITS 0) with
    | Done (index, scratch) =>
        let len := (length scratch - index)%nat in
        Done {| decimal_buf := drop index scratch ++ drop len result; decimal_len := Z.of_nat len |}
    | Panic msg => Panic msg
    | Undefined => Undefined
    | OutOfFuel => OutOfFuel
    end.

(** ** Lemmas *)

(** Reading a number back. *)
Definition char_value (c : Z) : Z := if c <=? 57 then c - 48 else c - 87.
Definition parse (base : Z) (l : list Z) : Z := foldl (fun acc c => acc * base + char_value c) 0 l.

Definition hex_char (d : Z) : Z := if d <? 10 then 48 + d else 87 + d.

(** The [n] low hexadecimal digits of [value], most significant first. *)
Fixpoint hex_digits (n : nat) (value : Z) : list Z :=
  match n with
  | O => []
  | S n => hex_char (Z.land (Z.shiftr value (4 * Z.of_nat n)) 0xf) :: hex_digits n value
  end.

Lemma length_hex_digits n value : length (hex_digits n value) = n.
Proof. induction n; simpl; congruence. Qed.

Lemma nibble_bound value shift : 0 <= Z.land (Z.shiftr value shift) 0xf < 16.
Proof. rewrite (land_mask 4) by done. by apply Z.mod_pos_bound. Qed.

Lemma HEX_DIGITS_lookup d : 0 <= d < 16 -> HEX_DIGITS !! Z.to_nat d = Some (hex_char d).
Proof.
  intros Hd. assert (d ∈ range 0 16) as Hin by (by apply elem_of_range). revert d Hd Hin.
  assert (Forall (fun d => HEX_DIGITS !! Z.to_nat d = Some (hex_char d)) (range 0 16)) as Hall
    by (vm_compute; repeat constructor).
  intros d _ Hin. by apply (Forall_elem _ _ _ Hall).
Qed.

Lemma char_value_hex d : 0 <= d < 16 -> char_value (hex_char d) = d.
Proof.
  intros Hd. unfold char_value, hex_char. destruct (Z.ltb_spec d 10).
  - rewrite (proj2 (Z.leb_le _ _)) by lia. lia.
  - rewrite (proj2 (Z.leb_gt _ _)) by lia. lia.
Qed.

Lemma parse_acc base l acc :
  foldl (fun acc c => acc * base + char_value c) acc l = acc * base ^ Z.of_nat (length l) + parse base l.
Proof.
  unfold parse. revert acc. induction l as [|c l IH]; intros acc; simpl length; [simpl; lia|].
  simpl foldl. rewrite IH, (IH (0 * base + _)), Nat2Z.inj_succ, Z.pow_succ_r by lia. lia.
Qed.

Lemma parse_hex_digits n value :
  0 <= value -> parse 16 (hex_digits n value) = value mod 16 ^ Z.of_nat n.
Proof.
  intros Hv. induction n as [|n IH]; [by rewrite Z.mod_1_r|].
  change (hex_digits (S n) value) with
    (hex_char (Z.land (Z.shiftr value (4 * Z.of_nat n)) 0xf) :: hex_digits n value).
  unfold parse. simpl foldl. rewrite parse_acc, length_hex_digits, IH.
  rewrite char_value_hex by apply nibble_bound.
  rewrite (land_mask 4), Z.shiftr_div_pow2 by lia.
  replace (2 ^ (4 * Z.of_nat n)) with (16 ^ Z.of_nat n) by (rewrite Z.pow_mul_r by lia; done).
  rewrite Nat2Z.inj_succ, Z.pow_succ_r, (Z.mul_comm 16), Z.rem_mul_r by lia. change (2 ^ 4) with 16. lia.
Qed.

(** Writing the next place of a partly filled buffer. *)
Lemma put_digit_next (pre : list Z) rem d :
  0 <= d < 16 ->
  put_digit (pre ++ replicate (S rem) 0) (length pre) d =
    Some ((pre ++ [hex_char d]) ++ replicate rem 0).
Proof.
  intros Hd. unfold put_digit. rewrite HEX_DIGITS_lookup by done.
  f_equal. simpl. by rewrite list_insert_middle, <-app_assoc.
Qed.

Lemma format_hex_loop_spec rem : forall fuel value pre,
  (rem < fuel)%nat ->
  format_hex_loop fuel value (saturating_sub (4 * Z.of_nat rem) 4) (length pre)
    (pre ++ replicate rem 0) = Done (pre ++ hex_digits rem value).
Proof.
  induction rem as [|rem IH]; intros [|fuel] value pre Hf; [lia|..|lia|]; simpl.
  - by rewrite app_nil_r, decide_False by lia.
  - rewrite decide_True by (rewrite length_app; simpl; lia).
    change (0 :: replicate rem 0) with (replicate (S rem) 0).
    replace (saturating_sub (4 * Z.of_nat (S rem)) 4) with (4 * Z.of_nat rem)
      by (unfold saturating_sub; lia).
    rewrite put_digit_next by apply nibble_bound.
    set (d := hex_char _). specialize (IH fuel value (pre ++ [d]) ltac:(lia)).
    rewrite length_app, Nat.add_1_r in IH. rewrite IH. by rewrite <-app_assoc.
Qed.

Lemma format_hex_usize_loop_spec rem : forall fuel value pre,
  (rem < fuel)%nat ->
  format_hex_usize_loop fuel value (length pre) (pre ++ replicate rem 0) =
    Done (pre ++ hex_digits rem value).
Proof.
  induction rem as [|rem IH]; intros [|fuel] value pre Hf; [lia|..|lia|]; simpl.
  - by rewrite app_nil_r, decide_False by lia.
  - rewrite decide_True by (rewrite length_app; simpl; lia).
    change (0 :: replicate rem 0) with (replicate (S rem) 0).
    replace ((Z.of_nat (length (pre ++ replicate (S rem) 0)) - 1 - Z.of_nat (length pre)) * 4)
      with (4 * Z.of_nat rem) by (rewrite length_app, length_replicate; lia).
    rewrite put_digit_next by apply nibble_bound.
    set (d := hex_char _). specialize (IH fuel value (pre ++ [d]) ltac:(lia)).
    rewrite length_app, Nat.add_1_r in IH. rewrite IH. by rewrite <-app_assoc.
Qed.

(** [ds] is the decimal numeral of [value]: digits, no leading zero. *)
Definition numeral (value : Z) (ds : list Z) : Prop :=
  parse 10 ds = value /\ Forall (fun c => 48 <= c <= 57) ds /\
  forall d, head ds = Some d -> d <> 48.

Lemma numeral_zero : numeral 0 [].
Proof. split; [done|]. split; [constructor|done]. Qed.

Lemma parse_snoc base l c : parse base (l ++ [c]) = parse base l * base + char_value c.
Proof. unfold parse. by rewrite foldl_app. Qed.

Lemma format_decimal_loop_spec index : forall fuel value suffix,
  (index < fuel)%nat -> 0 <= value < 10 ^ Z.of_nat index ->
  exists index' ds, format_decimal_loop fuel value index (replicate index 0 ++ suffix) =
    Done (index', replicate index' 0 ++ ds ++ suffix) /\ numeral value ds /\
    (index' + length ds = index)%nat /\ (0 < value -> ds <> []).
Proof.
  induction index as [|index IH]; intros [|fuel] value suffix Hf Hv; [lia|..|lia|]; cbn [format_decimal_loop].
  - simpl in Hv. rewrite (proj2 (Z.ltb_ge _ _)) by lia. assert (value = 0) as -> by lia.
    exists 0%nat, []. split_and!; [done|apply numeral_zero|done|lia].
  - destruct (Z.ltb_spec 0 value) as [Hpos|Hz].
    2:{ assert (value = 0) as -> by lia.
        exists (S index), []. split_and!; [done|apply numeral_zero|simpl; lia|lia]. }
    assert (<[index := 48 + value mod 10]> (replicate (S index) 0 ++ suffix) =
      replicate index 0 ++ (48 + value mod 10) :: suffix) as Hins.
    { rewrite replicate_S_end, <-app_assoc. simpl.
      pose proof (list_insert_middle (replicate index 0) 0 (48 + value mod 10) suffix) as Hm.
      by rewrite length_replicate in Hm. }
    rewrite Hins. rewrite Nat2Z.inj_succ, Z.pow_succ_r in Hv by lia.
    destruct (IH fuel (value / 10) ((48 + value mod 10) :: suffix)) as (i' & ds & Hrun & Hnum & Hlen & Hne).
    { lia. } { split; [apply Z.div_pos; lia|apply Z.div_lt_upper_bound; lia]. }
    exists i', (ds ++ [48 + value mod 10]). destruct Hnum as (Hp & Hd & Hlead).
    pose proof (Z.mod_pos_bound value 10 ltac:(lia)) as Hmod. split_and!.
    + by rewrite <-app_assoc.
    + split; [|split]; [|apply Forall_app; split; [done|]; constructor; [lia|constructor]|].
      { rewrite parse_snoc, Hp. unfold char_value. rewrite (proj2 (Z.leb_le _ _)) by lia. divlia. }
      intros d Hd0. destruct ds as [|d0 ds]; [|by apply Hlead]. simpl in Hd0. injection Hd0 as <-.
      intros Heq. assert (value / 10 = 0) as Hq; [|divlia].
      destruct (decide (0 < value / 10)) as [?|?]; [by destruct Hne|].
      assert (0 <= value / 10) by (apply Z.div_pos; lia). lia.
    + rewrite length_app. simpl. lia.
    + intros _. by destruct ds.
Qed.

(** ** Theorems *)

(** [format_hex] and [format_hex_usize] print the same sixteen hexadecimal
    digits, which read back as the value. *)
Theorem format_hex_round_trip (value : Z) :
  is_uint 64 value ->
  exists b, format_hex value = Done b /\ format_hex_usize value = Done b /\
    length b = 16%nat /\ parse 16 b = value.
Proof.
  intros Hv. exists (hex_digits 16 value). split_and!.
  - exact (format_hex_loop_spec 16 17 value [] ltac:(lia)).
  - exact (format_hex_usize_loop_spec 16 17 value [] ltac:(lia)).
  - apply length_hex_digits.
  - rewrite parse_hex_digits by apply Hv. by apply Z.mod_small.
Qed.

(** [format_decimal] stays inside its twenty-byte buffers for every [usize]
    and prints the decimal numeral of the value: digits that read back as the
    value, without a leading zero except for zero itself. *)
Theorem format_decimal_round_trip (value : Z) :
  is_uint 64 value ->
  exists d, format_decimal value = Done d /\ parse 10 (as_bytes d) = value /\
    Forall (fun c => 48 <= c <= 57) (as_bytes d) /\ 1 <= decimal_len d <= 20 /\
    (forall c, head (as_bytes d) = Some c -> c = 48 -> value = 0).
Proof.
  intros Hv. unfold is_uint in Hv. unfold format_decimal. destruct (Z.eqb_spec value 0) as [->|Hnz].
  - eexists. split_and!; [done|done|repeat constructor; lia|done|done|done].
  - destruct (format_decimal_loop_spec DECIMAL_USIZE_DIGITS 21 value []) as (i & ds & Hrun & Hnum & Hlen & Hne).
    { unfold DECIMAL_USIZE_DIGITS. lia. } { change (10 ^ Z.of_nat DECIMAL_USIZE_DIGITS) with (10 ^ 20). lia. }
    rewrite !app_nil_r in Hrun. rewrite Hrun.
    assert (length (replicate i 0%Z ++ ds) - i = length ds)%nat as Hl
      by (rewrite length_app, length_replicate; lia).
    rewrite Hl, drop_app_length' by (by rewrite length_replicate).
    eexists. split; [done|]. unfold as_bytes. simpl decimal_buf. simpl decimal_len.
    rewrite Nat2Z.id, take_app_length. destruct Hnum as (Hp & Hd & Hlead).
    specialize (Hne ltac:(lia)). unfold DECIMAL_USIZE_DIGITS in Hlen.
    split_and!; [done|done|destruct ds; [done|simpl; lia]|lia|].
    intros c Hc ->. by apply Hlead in Hc.
Qed.

(** The values that a decoding table sends to a kind are the keys listed with it. *)
Lemma match_int_iff `{EqDecision A} {B} (table : list (Z * (A * B))) d x a :
  d.1 <> a -> NoDup table.*1 ->
  (match_int table d x).1 = a <-> x ∈ (filter (fun e => e.2.1 = a) table).*1.
Proof.
  intros Hd Hnd. induction table as [|[k c] table IH]; simpl.
  - split; [done|]. intros Hx. by apply not_elem_of_nil in Hx.
  - apply NoDup_cons in Hnd as [Hk Hnd]. specialize (IH Hnd). rewrite filter_cons. simpl.
    assert (forall y, y ∈ (filter (fun e : Z * (A * B) => e.2.1 = a) table).*1 -> y ∈ table.*1) as Hsub.
    { intros y (e & -> & [_ He]%list_elem_of_filter)%list_elem_of_fmap. by apply list_elem_of_fmap_2. }
    destruct (Z.eqb_spec x k) as [->|Hne]; destruct (decide (c.1 = a)) as [HP|HP]; simpl;
      rewrite ?elem_of_cons; [tauto| |tauto|done].
    split; [done|]. intros Hin%Hsub. by destruct Hk.
Qed.

Lemma is_page_fault_iff c : is_page_fault c = true <-> cause_kind c = PageFault.
Proof. unfold is_page_fault. by destruct (cause_kind c). Qed.
Lemma is_syscall_iff c : is_syscall c = true <-> cause_kind c = Syscall.
Proof. unfold is_syscall. by destruct (cause_kind c). Qed.

Lemma decode_exception_kind scause kind :
  kind <> UnknownTrap ->
  cause_kind (decode_exception scause) = kind <->
    scause ∈ (filter (fun e => e.2.1 = kind) exception_table).*1.
Proof.
  intros Hk. rewrite <-(match_int_iff _ (UnknownTrap, "unknown trap")) by (done || compute_done).
  unfold decode_exception. by destruct (match_int _ _ _).
Qed.

Lemma decode_exception_not_interrupt scause : is_interrupt (decode_exception scause) = false.
Proof.
  unfold is_interrupt. destruct (cause_kind (decode_exception scause)) as [| | |k| | | | | |] eqn:Hk; try done.
  apply decode_exception_kind in Hk; [|done]. destruct k; by apply not_elem_of_nil in Hk.
Qed.

Lemma decode_interrupt_timer raw code :
  interrupt_kind (decode_interrupt raw code) = Some SupervisorTimer <-> code = 5.
Proof.
  assert ((match_int interrupt_table (UnknownInterrupt, "unknown interrupt") code).1 = SupervisorTimer <->
    code ∈ [5]) as Hiff by 
    (exact (match_int_iff interrupt_table (UnknownInterrupt, "unknown interrupt") code SupervisorTimer ltac:(done) ltac:(compute_done))).
  rewrite list_elem_of_singleton in Hiff. unfold decode_interrupt. destruct (match_int _ _ _) as [k n].
  cbn in *. rewrite <-Hiff. by split; [intros [= ->]|intros ->].
Qed.

Lemma cause_raw_supervisor scause : cause_raw (decode_supervisor_cause scause) = scause.
Proof.
  unfold decode_supervisor_cause, decode_interrupt, decode_exception.
  case_match; by destruct (match_int _ _ _).
Qed.

Lemma decode_syndrome_kind esr kind :
  is_uint 64 esr -> kind <> OtherTrap ->
  cause_kind (decode_exception_syndrome esr) = kind <->
    (esr / 2 ^ 26) mod 2 ^ 6 ∈ (filter (fun e => e.2.1 = kind) exception_class_table).*1.
Proof.
  intros Hs Hk. rewrite <-(match_int_iff _ (OtherTrap, "other exception")) by (done || compute_done).
  unfold decode_exception_syndrome, EXCEPTION_CLASS_SHIFT, EXCEPTION_CLASS_MASK.
  change 0x3f with (2 ^ 6 - 1). rewrite land_mask, Z.shiftr_div_pow2 by lia.
  pose proof (Z.mod_pos_bound (esr / 2 ^ 26) (2 ^ 6) ltac:(lia)).
  unfold cast_uint. rewrite (Z.mod_small _ (2 ^ 8)) by lia. by destruct (match_int _ _ _).
Qed.

Lemma supervisor_cause_split scause :
  is_uint 64 scause ->
  decode_supervisor_cause scause =
    if 2 ^ 63 <=? scause then decode_interrupt scause (scause - 2 ^ 63) else decode_exception scause.
Proof.
  intros Hs. unfold is_uint in Hs. unfold decode_supervisor_cause.
  change INTERRUPT_BIT with (2 ^ 63). change CAUSE_CODE_MASK with (2 ^ 63 - 1).
  rewrite land_bit, testbit_top, land_mask by lia.
  destruct (Z.leb_spec (2 ^ 63) scause); simpl; [|done]. f_equal.
  replace scause with ((scause - 2 ^ 63) + 1 * 2 ^ 63) at 1 by lia.
  rewrite Z.mod_add, Z.mod_small by lia. done.
Qed.

(** Decoding [scause]: the raw value is kept, bit 63 alone decides between
    interrupts and exceptions, exactly the page-fault codes of the privileged
    specification (base and hypervisor extension) decode to page faults, exactly
    the environment calls to system calls, and only code 5 to the timer. *)
Theorem decode_supervisor_cause_exact (scause : Z) :
  is_uint 64 scause ->
  let c := decode_supervisor_cause scause in
  cause_raw c = scause /\
  (is_interrupt c = true <-> 2 ^ 63 <= scause) /\
  (interrupt_kind c = Some SupervisorTimer <-> scause = 2 ^ 63 + 5) /\
  (is_page_fault c = true <-> scause ∈ [12; 13; 15; 20; 21; 23]) /\
  (is_syscall c = true <-> scause ∈ [8; 9; 11]).
Proof.
  intros Hs c. split; [apply cause_raw_supervisor|]. unfold c. rewrite supervisor_cause_split by done.
  unfold is_uint in Hs. destruct (Z.leb_spec (2 ^ 63) scause) as [Hbit|Hbit].
  - rewrite decode_interrupt_timer, is_page_fault_iff, is_syscall_iff.
    rewrite !elem_of_cons, elem_of_nil. unfold decode_interrupt. destruct (match_int _ _ _) as [k n]. cbn.
    split_and!; [done|lia|split; [done|lia]..].
  - rewrite is_page_fault_iff, is_syscall_iff, decode_exception_not_interrupt, !decode_exception_kind by done.
    pose proof (decode_exception_not_interrupt scause) as Hni. unfold is_interrupt in Hni.
    split_and!; [split; [done|lia]| |done|done].
    unfold interrupt_kind. destruct (cause_kind _); (split; [done|intros ->; lia]).
Qed.

(** Decoding [ESR_EL1]: the raw value is kept and only the exception class
    in bits 31:26 matters; exactly the instruction and data aborts are page
    faults, exactly the two SVC classes are system calls, and nothing decodes to
    an interrupt. *)
Theorem decode_exception_syndrome_exact (esr : Z) :
  is_uint 64 esr ->
  let c := decode_exception_syndrome esr in
  let class := (esr / 2 ^ 26) mod 2 ^ 6 in
  cause_raw c = esr /\ is_interrupt c = false /\
  (is_page_fault c = true <-> class ∈ [0x20; 0x21; 0x24; 0x25]) /\
  (is_syscall c = true <-> class ∈ [0x11; 0x15]).
Proof.
  intros Hs c class. unfold c. split; [unfold decode_exception_syndrome; by destruct (match_int _ _ _)|].
  rewrite is_page_fault_iff, is_syscall_iff, !decode_syndrome_kind by done.
  split_and!; [|done|done]. unfold is_interrupt.
  destruct (cause_kind (decode_exception_syndrome esr)) as [| | |k| | | | | |] eqn:Hk; try done.
  apply decode_syndrome_kind in Hk; [|done|done]. destruct k; by apply not_elem_of_nil in Hk.
Qed.

(** The offsets handed to the assembly entry code select, in the image of a
    frame as a sequence of words, the fields they are named after, and the frame
    sizes are the ones the code asserts: sixteen-byte multiples. *)
Theorem frame_offsets (a : Arm64TrapFrame) (r : Riscv64TrapFrame) :
  length (arm64_regs a) = 31%nat -> length (riscv64_regs r) = 31%nat ->
  word_at (arm64_words a) LINK_REGISTER_OFFSET = arm64_reg 30 a /\
  word_at (arm64_words a) SAVED_STACK_POINTER_OFFSET = Some (arm64_sp a) /\
  word_at (arm64_words a) EXCEPTION_RETURN_ADDRESS_OFFSET = Some (arm64_pc a) /\
  word_at (arm64_words a) PROGRAM_STATUS_OFFSET = Some (arm64_spsr a) /\
  word_at (arm64_words a) SYNDROME_OFFSET = Some (arm64_cause a) /\
  word_at (arm64_words a) FAULT_ADDRESS_OFFSET = Some (arm64_fault_addr a) /\
  word_at (riscv64_words r) LAST_REGISTER_OFFSET = riscv64_reg 31 r /\
  word_at (riscv64_words r) SAVED_STACK_POINTER_OFFSET = riscv64_reg 2 r /\
  word_at (riscv64_words r) PROGRAM_COUNTER_OFFSET = Some (riscv64_pc r) /\
  word_at (riscv64_words r) STATUS_OFFSET = Some (riscv64_sstatus r) /\
  word_at (riscv64_words r) CAUSE_OFFSET = Some (riscv64_cause r) /\
  word_at (riscv64_words r) TRAP_VALUE_OFFSET = Some (riscv64_fault_addr r) /\
  TrapFrame_SIZE = 8 * Z.of_nat (length (arm64_words a)) /\
  TrapFrame_SIZE = 8 * Z.of_nat (length (riscv64_words r)) /\
  (forall i, 1 <= i <= 31 -> i <> 2 -> riscv64_reg i r = word_at (riscv64_words r) (8 * (i - 1))) /\
  TrapFrame_SIZE = 288 /\ Arm64IrqFrame_SIZE = 176 /\ Riscv64IrqFrame_SIZE = 144.
Proof.
  intros Ha Hr. unfold word_at, arm64_words, riscv64_words, arm64_reg.
  rewrite !length_app, Ha, Hr.
  rewrite (lookup_app_l (arm64_regs a)) by (rewrite Ha; compute_done).
  rewrite !(lookup_app_r (arm64_regs a)) by (rewrite Ha; compute_done). rewrite Ha.
  rewrite (lookup_app_l (riscv64_regs r) _ (Z.to_nat (LAST_REGISTER_OFFSET / 8))) by (rewrite Hr; compute_done).
  rewrite (lookup_app_r (riscv64_regs r) _ (Z.to_nat (SAVED_STACK_POINTER_OFFSET / 8))) by (rewrite Hr; compute_done).
  rewrite (lookup_app_r (riscv64_regs r) _ (Z.to_nat (PROGRAM_COUNTER_OFFSET / 8))) by (rewrite Hr; compute_done).
  rewrite (lookup_app_r (riscv64_regs r) _ (Z.to_nat (STATUS_OFFSET / 8))) by (rewrite Hr; compute_done).
  rewrite (lookup_app_r (riscv64_regs r) _ (Z.to_nat (CAUSE_OFFSET / 8))) by (rewrite Hr; compute_done).
  rewrite (lookup_app_r (riscv64_regs r) _ (Z.to_nat (TRAP_VALUE_OFFSET / 8))) by (rewrite Hr; compute_done).
  rewrite Hr.
  split_and!; try done. intros i Hi Hne. unfold riscv64_reg.
  rewrite (proj2 (Z.eqb_neq i 0)), (proj2 (Z.eqb_neq i 2)) by lia.
  rewrite (proj2 (Z.leb_le 1 i)), (proj2 (Z.leb_le i 31)) by lia. simpl.
  rewrite (Z.mul_comm 8), Z.div_mul, lookup_app_l by lia. done.
Qed.

(** ** Witnesses *)

Lemma format_hex_round_trip_witness :
  exists b, format_hex 0xdeadbeef = Done b /\ format_hex_usize 0xdeadbeef = Done b /\
    length b = 16%nat /\ parse 16 b = 0xdeadbeef.
Proof. apply (format_hex_round_trip 0xdeadbeef). split; lia. Defined.

Lemma format_decimal_round_trip_witness :
  exists d, format_decimal 18446744073709551615 = Done d /\
    parse 10 (as_bytes d) = 18446744073709551615 /\
    Forall (fun c => 48 <= c <= 57) (as_bytes d) /\ 1 <= decimal_len d <= 20 /\
    (forall c, head (as_bytes d) = Some c -> c = 48 -> 18446744073709551615 = 0).
Proof. apply (format_decimal_round_trip 18446744073709551615). split; lia. Defined.

Lemma decode_supervisor_cause_exact_witness :
  interrupt_kind (decode_supervisor_cause (2 ^ 63 + 5)) = Some SupervisorTimer.
Proof.
  assert (is_uint 64 (2 ^ 63 + 5)) as Hs by (split; lia).
  destruct (decode_supervisor_cause_exact (2 ^ 63 + 5) Hs) as (_ & _ & Htimer & _). by apply Htimer.
Defined.

Lemma decode_exception_syndrome_exact_witness :
  is_page_fault (decode_exception_syndrome 0x96000045) = true.
Proof.
  assert (is_uint 64 0x96000045) as Hs by (split; lia).
  destruct (decode_exception_syndrome_exact 0x96000045 Hs) as (_ & _ & Hfault & _).
  apply Hfault. compute_done.
Defined.

Definition sample_arm64_frame : Arm64TrapFrame := {|
  arm64_regs := seqZ 100 31; arm64_sp_saved := 7; arm64_elr := 8; arm64_spsr := 5; arm64_esr := 9;
  arm64_far := 10 |}.
Definition sample_riscv64_frame : Riscv64TrapFrame := {|
  riscv64_regs := seqZ 100 31; riscv64_sp_saved := 7; riscv64_sepc := 8; riscv64_sstatus := 0x100;
  riscv64_scause := 9; riscv64_stval := 10 |}.

Lemma frame_offsets_witness :
  word_at (arm64_words sample_arm64_frame) SYNDROME_OFFSET = Some 9 /\
  riscv64_reg 10 sample_riscv64_frame = Some 109.
Proof.
  destruct (frame_offsets sample_arm64_frame sample_riscv64_frame eq_refl eq_refl)
    as (_ & _ & _ & _ & Hesr & _ & _ & _ & _ & _ & _ & _ & _ & _ & Hreg & _).
  split; [exact Hesr|]. rewrite Hreg by lia. reflexivity.
Defined.
