(* ===== verification/Context.v ===== *)
(** * Context switching

    Models [context/mod.rs] (the host placeholder), [arch/aarch64/context.rs]
    and [arch/riscv64/context.rs]: the callee-saved register records, their
    layout in memory, and the assembly that switches between two of them.  The
    assembly is a program of a small load/store machine whose instructions are
    the ones the two files use. *)

From S2P Require Import Prelude.
From stdpp Require Import base tactics option list list_numbers numbers gmap strings.

#[local] Open Scope Z_scope.
#[local] Open Scope kernel_scope.

(** ** What the scheduler needs of a context *)

Class ContextOps (Ctx : Type) := {
  context_new : Z -> Z -> Ctx;
  context_empty : Ctx;
  context_set_entry_data : Z -> Z -> Ctx -> Ctx;
  context_stack_pointer : Ctx -> Z;
}.

(** A context made for a new thread resumes at its entry point, on its stack. *)
Class ContextLaws (Ctx : Type) `{ContextOps Ctx} := {
  context_new_stack pc top : context_stack_pointer (context_new pc top) = top;
  context_entry_stack entry arg c :
    context_stack_pointer (context_set_entry_data entry arg c) = context_stack_pointer c;
}.

(** ** The host placeholder *)

Record HostContext := {
  host_entry : Z;
  host_stack_pointer : Z;
  host_entry_data : Z;
}.
#[global] Instance HostContext_ops : ContextOps HostContext := {|
  context_new entry_pc stack_top :=
    {| host_entry := entry_pc; host_stack_pointer := stack_top; host_entry_data := 0 |};
  context_empty := {| host_entry := 0; host_stack_pointer := 0; host_entry_data := 0 |};
  context_set_entry_data entry arg c :=
    {| host_entry := entry; host_stack_pointer := host_stack_pointer c; host_entry_data := arg |};
  context_stack_pointer := host_stack_pointer |}.
#[global] Instance HostContext_laws : ContextLaws HostContext.
Proof. by split. Qed.

(** [Context::SIZE] of both architectures. *)
Definition Context_SIZE : Z := 128.

(** ** The machine *)

Record Cpu (R : Type) := {
  cpu_regs : R -> Z;
  cpu_irq : bool;               (* interrupts are unmasked *)
  cpu_mem : gmap Z Z;           (* 64-bit words by address *)
}.
Arguments cpu_regs {R}.
Arguments cpu_irq {R}.
Arguments cpu_mem {R}.

(** [stp] and [ldp] are two accesses at consecutive words. *)
Inductive instr (R : Type) :=
  | Store (r base : R) (offset : Z)
  | StorePair (r1 r2 base : R) (offset : Z)
  | Load (r base : R) (offset : Z)
  | LoadPair (r1 r2 base : R) (offset : Z)
  | Move (dst src : R)
  | BranchZero (r : R) (label : nat)
  | Jump (label : nat)
  | Unmask
  | Mask
  | JumpRegister (r : R).
Arguments Store {R}.
Arguments StorePair {R}.
Arguments Load {R}.
Arguments LoadPair {R}.
Arguments Move {R}.
Arguments BranchZero {R}.
Arguments Jump {R}.
Arguments Unmask {R}.
Arguments Mask {R}.
Arguments JumpRegister {R}.

(** Where execution goes after an instruction. *)
Inductive flow :=
  | Next
  | Goto (label : nat)
  | Leave (address : Z).

Section Machine.
Context {R : Type} `{EqDecision R}.

Definition set_reg (r : R) (v : Z) (c : Cpu R) : Cpu R := {|
  cpu_regs := fun r' => if decide (r' = r) then v else cpu_regs c r';
  cpu_irq := cpu_irq c; cpu_mem := cpu_mem c |}.
Definition set_cpu_irq (b : bool) (c : Cpu R) : Cpu R :=
  {| cpu_regs := cpu_regs c; cpu_irq := b; cpu_mem := cpu_mem c |}.
Definition set_word (a v : Z) (c : Cpu R) : Cpu R :=
  {| cpu_regs := cpu_regs c; cpu_irq := cpu_irq c; cpu_mem := <[a := v]> (cpu_mem c) |}.

(** An access to an address that is not mapped is [Undefined]. *)
Definition store (a v : Z) : M (Cpu R) unit :=
  let! word := gets (fun c => cpu_mem c !! a) in
  match word with
  | Some _ => modify (set_word a v)
  | None => undefined
  end.
Definition load (r : R) (a : Z) : M (Cpu R) unit :=
  let! word := gets (fun c => cpu_mem c !! a) in
  match word with
  | Some v => modify (set_reg r v)
  | None => undefined
  end.

Definition exec (i : instr R) : M (Cpu R) flow :=
  let! reg := gets cpu_regs in
  match i with
  | Store r base offset => store (reg base + offset) (reg r) ;;; ret Next
  | StorePair r1 r2 base offset =>
      store (reg base + offset) (reg r1) ;;; store (reg base + offset + 8) (reg r2) ;;; ret Next
  | Load r base offset => load r (reg base + offset) ;;; ret Next
  | LoadPair r1 r2 base offset =>
      load r1 (reg base + offset) ;;; load r2 (reg base + offset + 8) ;;; ret Next
  | Move dst src => modify (set_reg dst (reg src)) ;;; ret Next
  | BranchZero r label => ret (if reg r =? 0 then Goto label else Next)
  | Jump label => ret (Goto label)
  | Unmask => modify (set_cpu_irq true) ;;; ret Next
  | Mask => modify (set_cpu_irq false) ;;; ret Next
  | JumpRegister r => ret (Leave (reg r))
  end.

(** Runs the program until it leaves; the result is the address it leaves to. *)
Fixpoint run (program : list (instr R)) (fuel : nat) (pc : nat) : M (Cpu R) Z :=
  match fuel with
  | O => out_of_fuel
  | S fuel =>
      match program !! pc with
      | None => undefined
      | Some i =>
          let! f := exec i in
          match f with
          | Next => run program fuel (S pc)
          | Goto label => run program fuel label
          | Leave a => ret a
          end
      end
  end.
Definition call (program : list (instr R)) : M (Cpu R) Z := run program (S (length program)) 0.
End Machine.

(** ** ARM64 *)

Module Arm64.

Inductive Arm64Reg :=
  | X0 | X1 | X2
  | X19 | X20 | X21 | X22 | X23 | X24 | X25 | X26 | X27 | X28 | X29 | X30
  | Sp.
#[global] Instance Arm64Reg_eq_dec : EqDecision Arm64Reg.
Proof. solve_decision. Defined.

Record Arm64Context := {
  x19 : Z; x20 : Z; x21 : Z; x22 : Z; x23 : Z; x24 : Z; x25 : Z; x26 : Z; x27 : Z; x28 : Z;
  a_frame_pointer : Z;
  a_link_register : Z;
  a_stack_pointer : Z;
  a_irq_enabled : Z;
  a_pad : list Z;
}.
(** The [repr(C)] image. *)
Definition arm64_context_words (c : Arm64Context) : list Z :=
  [x19 c; x20 c; x21 c; x22 c; x23 c; x24 c; x25 c; x26 c; x27 c; x28 c;
   a_frame_pointer c; a_link_register c; a_stack_pointer c; a_irq_enabled c] ++ a_pad c.

Definition X19_OFFSET : Z := 0.
Definition X21_OFFSET : Z := 16.
Definition X23_OFFSET : Z := 32.
Definition X25_OFFSET : Z := 48.
Definition X27_OFFSET : Z := 64.
Definition FRAME_POINTER_OFFSET : Z := 80.
Definition A_STACK_POINTER_OFFSET : Z := 96.
Definition A_IRQ_ENABLED_OFFSET : Z := 104.

Definition arm64_empty : Arm64Context := {|
  x19 := 0; x20 := 0; x21 := 0; x22 := 0; x23 := 0; x24 := 0; x25 := 0; x26 := 0; x27 := 0; x28 := 0;
  a_frame_pointer := 0; a_link_register := 0; a_stack_pointer := 0; a_irq_enabled := 1;
  a_pad := [0; 0] |}.
Definition arm64_new (entry_pc stack_top : Z) : Arm64Context := {|
  x19 := x19 arm64_empty; x20 := x20 arm64_empty; x21 := x21 arm64_empty; x22 := x22 arm64_empty;
  x23 := x23 arm64_empty; x24 := x24 arm64_empty; x25 := x25 arm64_empty; x26 := x26 arm64_empty;
  x27 := x27 arm64_empty; x28 := x28 arm64_empty; a_frame_pointer := a_frame_pointer arm64_empty;
  a_link_register := entry_pc; a_stack_pointer := stack_top; a_irq_enabled := 1;
  a_pad := a_pad arm64_empty |}.
Definition arm64_set_entry_data (entry arg : Z) (c : Arm64Context) : Arm64Context := {|
  x19 := entry; x20 := arg; x21 := x21 c; x22 := x22 c; x23 := x23 c; x24 := x24 c; x25 := x25 c;
  x26 := x26 c; x27 := x27 c; x28 := x28 c; a_frame_pointer := a_frame_pointer c;
  a_link_register := a_link_register c; a_stack_pointer := a_stack_pointer c;
  a_irq_enabled := a_irq_enabled c; a_pad := a_pad c |}.

#[global] Instance Arm64Context_ops : ContextOps Arm64Context := {|
  context_new := arm64_new; context_empty := arm64_empty;
  context_set_entry_data := arm64_set_entry_data; context_stack_pointer := a_stack_pointer |}.
#[global] Instance Arm64Context_laws : ContextLaws Arm64Context.
Proof. by split. Qed.

(** The registers a context holds. *)
Definition arm64_save_block : list (instr Arm64Reg) :=
  [ StorePair X19 X20 X0 X19_OFFSET;
    StorePair X21 X22 X0 X21_OFFSET;
    StorePair X23 X24 X0 X23_OFFSET;
    StorePair X25 X26 X0 X25_OFFSET;
    StorePair X27 X28 X0 X27_OFFSET;
    StorePair X29 X30 X0 FRAME_POINTER_OFFSET;
    Move X2 Sp;
    Store X2 X0 A_STACK_POINTER_OFFSET ].
Definition arm64_load_block : list (instr Arm64Reg) :=
  [ LoadPair X19 X20 X1 X19_OFFSET;
    LoadPair X21 X22 X1 X21_OFFSET;
    LoadPair X23 X24 X1 X23_OFFSET;
    LoadPair X25 X26 X1 X25_OFFSET;
    LoadPair X27 X28 X1 X27_OFFSET;
    LoadPair X29 X30 X1 FRAME_POINTER_OFFSET;
    Load X2 X1 A_STACK_POINTER_OFFSET;
    Move Sp X2 ].
(** Label [1:] is instruction 20 and [2:] instruction 21. *)
Definition arm64_restore_irq : list (instr Arm64Reg) :=
  [ Load X2 X1 A_IRQ_ENABLED_OFFSET;
    BranchZero X2 20;
    Unmask;
    Jump 21;
    Mask;
    JumpRegister X30 ].
Definition arm64_switch_context : list (instr Arm64Reg) :=
  arm64_save_block ++ arm64_load_block ++ arm64_restore_irq.
Definition arm64_switch_context_from_trap : list (instr Arm64Reg) :=
  arm64_save_block ++ arm64_load_block ++ [ JumpRegister X30 ].
Definition arm64_thread_trampoline : list (instr Arm64Reg) :=
  [ Move X0 X20; JumpRegister X19 ].

End Arm64.

(** ** RISC-V *)

Module Riscv64.

Inductive Riscv64Reg :=
  | A0 | A1 | T0
  | S0 | S1 | S2 | S3 | S4 | S5 | S6 | S7 | S8 | S9 | S10 | S11
  | Ra | RSp.
#[global] Instance Riscv64Reg_eq_dec : EqDecision Riscv64Reg.
Proof. solve_decision. Defined.

Record Riscv64Context := {
  s0 : Z; s1 : Z; s2 : Z; s3 : Z; s4 : Z; s5 : Z; s6 : Z; s7 : Z; s8 : Z; s9 : Z; s10 : Z; s11 : Z;
  r_return_address : Z;
  r_stack_pointer : Z;
  r_irq_enabled : Z;
  r_pad : list Z;
}.
Definition riscv64_context_words (c : Riscv64Context) : list Z :=
  [s0 c; s1 c; s2 c; s3 c; s4 c; s5 c; s6 c; s7 c; s8 c; s9 c; s10 c; s11 c;
   r_return_address c; r_stack_pointer c; r_irq_enabled c] ++ r_pad c.

Definition S0_OFFSET : Z := 0.
Definition S1_OFFSET : Z := 8.
Definition S2_OFFSET : Z := 16.
Definition S3_OFFSET : Z := 24.
Definition S4_OFFSET : Z := 32.
Definition S5_OFFSET : Z := 40.
Definition S6_OFFSET : Z := 48.
Definition S7_OFFSET : Z := 56.
Definition S8_OFFSET : Z := 64.
Definition S9_OFFSET : Z := 72.
Definition S10_OFFSET : Z := 80.
Definition S11_OFFSET : Z := 88.
Definition RETURN_ADDRESS_OFFSET : Z := 96.
Definition R_STACK_POINTER_OFFSET : Z := 104.
Definition R_IRQ_ENABLED_OFFSET : Z := 112.

Definition riscv64_empty : Riscv64Context := {|
  s0 := 0; s1 := 0; s2 := 0; s3 := 0; s4 := 0; s5 := 0; s6 := 0; s7 := 0; s8 := 0; s9 := 0; s10 := 0;
  s11 := 0; r_return_address := 0; r_stack_pointer := 0; r_irq_enabled := 1; r_pad := [0] |}.
Definition riscv64_new (entry_pc stack_top : Z) : Riscv64Context := {|
  s0 := s0 riscv64_empty; s1 := s1 riscv64_empty; s2 := s2 riscv64_empty; s3 := s3 riscv64_empty;
  s4 := s4 riscv64_empty; s5 := s5 riscv64_empty; s6 := s6 riscv64_empty; s7 := s7 riscv64_empty;
  s8 := s8 riscv64_empty; s9 := s9 riscv64_empty; s10 := s10 riscv64_empty; s11 := s11 riscv64_empty;
  r_return_address := entry_pc; r_stack_pointer := stack_top; r_irq_enabled := 1;
  r_pad := r_pad riscv64_empty |}.
Definition riscv64_set_entry_data (entry arg : Z) (c : Riscv64Context) : Riscv64Context := {|
  s0 := s0 c; s1 := entry; s2 := arg; s3 := s3 c; s4 := s4 c; s5 := s5 c; s6 := s6 c; s7 := s7 c;
  s8 := s8 c; s9 := s9 c; s10 := s10 c; s11 := s11 c; r_return_address := r_return_address c;
  r_stack_pointer := r_stack_pointer c; r_irq_enabled := r_irq_enabled c; r_pad := r_pad c |}.

#[global] Instance Riscv64Context_ops : ContextOps Riscv64Context := {|
  context_new := riscv64_new; context_empty := riscv64_empty;
  context_set_entry_data := riscv64_set_entry_data; context_stack_pointer := r_stack_pointer |}.
#[global] Instance Riscv64Context_laws : ContextLaws Riscv64Context.
Proof. by split. Qed.

Definition riscv64_save_block : list (instr Riscv64Reg) :=
  [ Store S0 A0 S0_OFFSET; Store S1 A0 S1_OFFSET; Store S2 A0 S2_OFFSET; Store S3 A0 S3_OFFSET;
    Store S4 A0 S4_OFFSET; Store S5 A0 S5_OFFSET; Store S6 A0 S6_OFFSET; Store S7 A0 S7_OFFSET;
    Store S8 A0 S8_OFFSET; Store S9 A0 S9_OFFSET; Store S10 A0 S10_OFFSET; Store S11 A0 S11_OFFSET;
    Store Ra A0 RETURN_ADDRESS_OFFSET; Store RSp A0 R_STACK_POINTER_OFFSET ].
Definition riscv64_load_block : list (instr Riscv64Reg) :=
  [ Load S0 A1 S0_OFFSET; Load S1 A1 S1_OFFSET; Load S2 A1 S2_OFFSET; Load S3 A1 S3_OFFSET;
    Load S4 A1 S4_OFFSET; Load S5 A1 S5_OFFSET; Load S6 A1 S6_OFFSET; Load S7 A1 S7_OFFSET;
    Load S8 A1 S8_OFFSET; Load S9 A1 S9_OFFSET; Load S10 A1 S10_OFFSET; Load S11 A1 S11_OFFSET;
    Load Ra A1 RETURN_ADDRESS_OFFSET; Load RSp A1 R_STACK_POINTER_OFFSET ].
(** Label [1:] is instruction 32 and [2:] instruction 33. *)
Definition riscv64_restore_irq : list (instr Riscv64Reg) :=
  [ Load T0 A1 R_IRQ_ENABLED_OFFSET;
    BranchZero T0 32;
    Unmask;
    Jump 33;
    Mask;
    JumpRegister Ra ].
Definition riscv64_switch_context : list (instr Riscv64Reg) :=
  riscv64_save_block ++ riscv64_load_block ++ riscv64_restore_irq.
Definition riscv64_switch_context_from_trap : list (instr Riscv64Reg) :=
  riscv64_save_block ++ riscv64_load_block ++ [ JumpRegister Ra ].
Definition riscv64_thread_trampoline : list (instr Riscv64Reg) :=
  [ Move A0 S2; JumpRegister S1 ].

End Riscv64.

(** ** Rules of the machine *)

Section Rules.
Context {R : Type} `{EqDecision R}.
Implicit Types c : Cpu R.
Implicit Types Q : flow -> Cpu R -> Prop.

Lemma wp_run_step program fuel pc i (Q : Z -> Cpu R -> Prop) c :
  program !! pc = Some i ->
  wp (exec i) (fun f c' =>
    match f with
    | Next => wp (run program fuel (S pc)) Q c'
    | Goto label => wp (run program fuel label) Q c'
    | Leave a => Q a c'
    end) c ->
  wp (run program (S fuel) pc) Q c.
Proof.
  intros Hi Hwp. cbn [run]. rewrite Hi. apply wp_bind. eapply wp_mono; [exact Hwp|].
  by intros [|label|a] c'.
Qed.

Lemma wp_store r base offset Q c :
  is_Some (cpu_mem c !! (cpu_regs c base + offset)) ->
  Q Next (set_word (cpu_regs c base + offset) (cpu_regs c r) c) ->
  wp (exec (Store r base offset)) Q c.
Proof. intros [w Hw] HQ. unfold wp, exec, store, bind, gets. cbn. by rewrite Hw. Qed.

Lemma wp_store_pair r1 r2 base offset Q c :
  is_Some (cpu_mem c !! (cpu_regs c base + offset)) ->
  is_Some (cpu_mem c !! (cpu_regs c base + (offset + 8))) ->
  Q Next (set_word (cpu_regs c base + (offset + 8)) (cpu_regs c r2)
           (set_word (cpu_regs c base + offset) (cpu_regs c r1) c)) ->
  wp (exec (StorePair r1 r2 base offset)) Q c.
Proof.
  rewrite Z.add_assoc. intros [w1 H1] [w2 H2] HQ. unfold wp, exec, store, bind, gets. cbn. rewrite H1. cbn.
  by rewrite lookup_insert_ne, H2 by lia.
Qed.

Lemma wp_load r base offset v Q c :
  cpu_mem c !! (cpu_regs c base + offset) = Some v ->
  Q Next (set_reg r v c) -> wp (exec (Load r base offset)) Q c.
Proof. intros Hw HQ. unfold wp, exec, load, bind, gets. cbn. by rewrite Hw. Qed.

Lemma wp_load_pair r1 r2 base offset v1 v2 Q c :
  cpu_mem c !! (cpu_regs c base + offset) = Some v1 ->
  cpu_mem c !! (cpu_regs c base + (offset + 8)) = Some v2 ->
  Q Next (set_reg r2 v2 (set_reg r1 v1 c)) -> wp (exec (LoadPair r1 r2 base offset)) Q c.
Proof. rewrite Z.add_assoc. intros H1 H2 HQ. unfold wp, exec, load, bind, gets. cbn. rewrite H1. cbn. by rewrite H2. Qed.

Lemma wp_move dst src Q c : Q Next (set_reg dst (cpu_regs c src) c) -> wp (exec (Move dst src)) Q c.
Proof. done. Qed.

Lemma wp_branch_zero r label Q c :
  (cpu_regs c r = 0 -> Q (Goto label) c) -> (cpu_regs c r <> 0 -> Q Next c) ->
  wp (exec (BranchZero r label)) Q c.
Proof.
  intros Hz Hnz. unfold wp, exec, bind, gets, ret. destruct (Z.eqb_spec (cpu_regs c r) 0); auto.
Qed.
Lemma wp_jump label Q c : Q (Goto label) c -> wp (exec (Jump label)) Q c.
Proof. done. Qed.
Lemma wp_unmask Q c : Q Next (set_cpu_irq true c) -> wp (exec Unmask) Q c.
Proof. done. Qed.
Lemma wp_mask Q c : Q Next (set_cpu_irq false c) -> wp (exec Mask) Q c.
Proof. done. Qed.
Lemma wp_jump_register r Q c : Q (Leave (cpu_regs c r)) c -> wp (exec (JumpRegister r)) Q c.
Proof. done. Qed.
End Rules.

(** The words of a record at an address. *)
Definition stored (mem : gmap Z Z) (base : Z) (words : list Z) : Prop :=
  forall i w, words !! i = Some w -> mem !! (base + 8 * Z.of_nat i) = Some w.

Definition apart (a b : Z) : Prop := a + Context_SIZE <= b \/ b + Context_SIZE <= a.

(** ** The switching interface

    What an architecture provides, and what its assembly does.  [capture regs c]
    is [c] with the callee-saved registers, the return address and the stack
    pointer of [regs]. *)
Class SwitchArch (R Ctx : Type) := {
  first_argument : R;
  second_argument : R;
  link : R;
  stack : R;
  context_words : Ctx -> list Z;
  context_link : Ctx -> Z;
  context_irq : Ctx -> Z;
  capture : (R -> Z) -> Ctx -> Ctx;
  switch_program : list (instr R);
  from_trap_program : list (instr R);
  trampoline_program : list (instr R);
}.

Section Switch.
Context {R Ctx : Type} `{EqDecision R, SwitchArch R Ctx}.

(** A switch call: [old] and [new] are records at the argument registers. *)
Record switch_call (c : Cpu R) (old new : Ctx) : Prop := {
  call_apart : apart (cpu_regs c first_argument) (cpu_regs c second_argument);
  call_old : stored (cpu_mem c) (cpu_regs c first_argument) (context_words old);
  call_new : stored (cpu_mem c) (cpu_regs c second_argument) (context_words new);
  call_old_len : length (context_words old) = 16%nat;
  call_new_len : length (context_words new) = 16%nat;
}.

(** What every switch does: the old record holds the caller's registers, the
    registers are those of the new record, and no other word changes. *)
Record switched (c : Cpu R) (old new : Ctx) (address : Z) (c' : Cpu R) : Prop := {
  sw_address : address = context_link new;
  sw_regs : capture (cpu_regs c') new = new;
  sw_saved : stored (cpu_mem c') (cpu_regs c first_argument) (context_words (capture (cpu_regs c) old));
  sw_frame a :
    a < cpu_regs c first_argument \/ cpu_regs c first_argument + Context_SIZE <= a ->
    cpu_mem c' !! a = cpu_mem c !! a;
}.
End Switch.

Class SwitchLaws (R Ctx : Type) `{EqDecision R, SwitchArch R Ctx, ContextOps Ctx} := {
  switch_spec (c : Cpu R) (old new : Ctx) :
    switch_call c old new ->
    wp (call switch_program) (fun a c' =>
      switched c old new a c' /\ cpu_irq c' = negb (context_irq new =? 0)) c;
  from_trap_spec (c : Cpu R) (old new : Ctx) :
    switch_call c old new ->
    wp (call from_trap_program) (fun a c' => switched c old new a c' /\ cpu_irq c' = cpu_irq c) c;
  trampoline_spec (c : Cpu R) (entry arg pc top : Z) :
    let ctx := context_set_entry_data entry arg (context_new pc top) in
    capture (cpu_regs c) ctx = ctx ->
    wp (call trampoline_program) (fun a c' =>
      a = entry /\ cpu_regs c' first_argument = arg /\ cpu_regs c' stack = top /\
      cpu_irq c' = cpu_irq c) c;
  capture_link (regs : R -> Z) (old : Ctx) : context_link (capture regs old) = regs link;
  capture_capture (r r' : R -> Z) (old : Ctx) :
    capture r' (capture r old) = capture r old -> capture r' old = capture r old;
  new_link (entry arg pc top : Z) :
    context_link (context_set_entry_data entry arg (context_new pc top)) = pc;
}.

(** ** The instances *)

Lemma stored_word mem base words offset i w :
  stored mem base words -> offset = 8 * Z.of_nat i -> words !! i = Some w ->
  mem !! (base + offset) = Some w.
Proof. intros Hs -> Hw. by apply Hs. Qed.

Lemma stored_present mem base words offset :
  stored mem base words -> offset mod 8 = 0 -> 0 <= offset < 8 * Z.of_nat (length words) ->
  is_Some (mem !! (base + offset)).
Proof.
  intros Hs Hmod Hoff. destruct (lookup_lt_is_Some_2 words (Z.to_nat (offset / 8))) as [w Hw]; [divlia|].
  exists w. exact (stored_word mem base words offset (Z.to_nat (offset / 8)) w Hs ltac:(divlia) Hw).
Qed.

Lemma present_insert (mem : gmap Z Z) a b v : is_Some (mem !! a) -> is_Some (<[b := v]> mem !! a).
Proof. intros Hm. rewrite lookup_insert. case_decide; [done|exact Hm]. Qed.

Lemma insert_outside (mem : gmap Z Z) base offset v a :
  a < base \/ base + Context_SIZE <= a -> 0 <= offset < Context_SIZE ->
  <[base + offset := v]> mem !! a = mem !! a.
Proof. intros Ha Ho. apply lookup_insert_ne. lia. Qed.

(** A word stored outside a record leaves it alone; one stored at its place
    changes that word. *)
Lemma stored_insert_ne mem base words a v :
  a < base \/ base + 8 * Z.of_nat (length words) <= a ->
  stored mem base words -> stored (<[a := v]> mem) base words.
Proof.
  intros Ha Hs i w Hw. pose proof (lookup_lt_Some _ _ _ Hw). rewrite lookup_insert_ne by lia. by apply Hs.
Qed.
Lemma stored_insert mem base words i offset v :
  offset = 8 * Z.of_nat i ->
  stored mem base words -> stored (<[base + offset := v]> mem) base (<[i := v]> words).
Proof.
  intros -> Hs j w Hw. destruct (decide (i = j)) as [<-|Hne].
  - rewrite lookup_insert_eq. pose proof (lookup_lt_Some _ _ _ Hw) as Hlt. rewrite length_insert in Hlt.
    by rewrite list_lookup_insert_eq in Hw.
  - rewrite lookup_insert_ne by lia. rewrite list_lookup_insert_ne in Hw by done. by apply Hs.
Qed.

#[local] Hint Resolve present_insert : kernel.

(** The next instruction of a program whose blocks are written out. *)
Ltac machine_step lem :=
  eapply wp_run_step; [reflexivity|]; eapply lem; cbn [set_word cpu_regs cpu_irq cpu_mem].

(** Word [i] of a stored record, at [offset], becomes [v]. *)
Ltac record_word H i offset v := apply (stored_insert _ _ _ i offset v eq_refl) in H.

Module Arm64Switch.
Import Arm64.

#[global] Instance arm64_arch : SwitchArch Arm64Reg Arm64Context := {|
  first_argument := X0; second_argument := X1; link := X30; stack := Sp;
  context_words := arm64_context_words;
  context_link := a_link_register;
  context_irq := a_irq_enabled;
  capture regs c := {|
    x19 := regs X19; x20 := regs X20; x21 := regs X21; x22 := regs X22; x23 := regs X23;
    x24 := regs X24; x25 := regs X25; x26 := regs X26; x27 := regs X27; x28 := regs X28;
    a_frame_pointer := regs X29; a_link_register := regs X30; a_stack_pointer := regs Sp;
    a_irq_enabled := a_irq_enabled c; a_pad := a_pad c |};
  switch_program := arm64_switch_context;
  from_trap_program := arm64_switch_context_from_trap;
  trampoline_program := arm64_thread_trampoline |}.

Lemma arm64_save_block_spec (c : Cpu Arm64Reg) (old new : Arm64Context) tail fuel Q :
  switch_call c old new ->
  (forall c1, cpu_irq c1 = cpu_irq c ->
    (forall r, r <> X2 -> cpu_regs c1 r = cpu_regs c r) ->
    stored (cpu_mem c1) (cpu_regs c X0) (context_words (capture (cpu_regs c) old)) ->
    stored (cpu_mem c1) (cpu_regs c X1) (context_words new) ->
    (forall a, a < cpu_regs c X0 \/ cpu_regs c X0 + Context_SIZE <= a -> cpu_mem c1 !! a = cpu_mem c !! a) ->
    wp (run (arm64_save_block ++ tail) fuel 8) Q c1) ->
  wp (run (arm64_save_block ++ tail) (8 + fuel) 0) Q c.
Proof.
  intros [Hap Hold Hnew Hlo Hln] HQ. cbn [first_argument second_argument context_words arm64_arch] in *.
  assert (forall o, o mod 8 = 0 -> 0 <= o < 128 -> is_Some (cpu_mem c !! (cpu_regs c X0 + o))) as Hpre.
  { intros o Hm Ho. eapply stored_present; [exact Hold|done|lia]. }
  assert (forall o, 0 <= o < 128 -> (cpu_regs c X0 + o < cpu_regs c X1 \/
    cpu_regs c X1 + 8 * Z.of_nat (length (arm64_context_words new)) <= cpu_regs c X0 + o)) as Hout.
  { intros o Ho. unfold apart, Context_SIZE in Hap. lia. }
  cbn [Nat.add].
  do 6 (machine_step (@wp_store_pair Arm64Reg); [repeat apply present_insert; by apply Hpre..|]).
  machine_step (@wp_move Arm64Reg).
  machine_step (@wp_store Arm64Reg); [repeat apply present_insert; by apply Hpre|].
  apply HQ; clear HQ.
  - reflexivity.
  - intros r Hr. cbn. by rewrite decide_False.
  - record_word Hold 0%nat X19_OFFSET (cpu_regs c X19).
    record_word Hold 1%nat (X19_OFFSET + 8) (cpu_regs c X20).
    record_word Hold 2%nat X21_OFFSET (cpu_regs c X21).
    record_word Hold 3%nat (X21_OFFSET + 8) (cpu_regs c X22).
    record_word Hold 4%nat X23_OFFSET (cpu_regs c X23).
    record_word Hold 5%nat (X23_OFFSET + 8) (cpu_regs c X24).
    record_word Hold 6%nat X25_OFFSET (cpu_regs c X25).
    record_word Hold 7%nat (X25_OFFSET + 8) (cpu_regs c X26).
    record_word Hold 8%nat X27_OFFSET (cpu_regs c X27).
    record_word Hold 9%nat (X27_OFFSET + 8) (cpu_regs c X28).
    record_word Hold 10%nat FRAME_POINTER_OFFSET (cpu_regs c X29).
    record_word Hold 11%nat (FRAME_POINTER_OFFSET + 8) (cpu_regs c X30).
    record_word Hold 12%nat A_STACK_POINTER_OFFSET (cpu_regs c Sp).
    exact Hold.
  - cbn. repeat (apply stored_insert_ne; [by apply Hout|]). exact Hnew.
  - intros a Ha. cbn. repeat (etrans; [eapply insert_outside; [exact Ha|done]|]). done.
Qed.

Lemma arm64_load_block_spec (c : Cpu Arm64Reg) (new : Arm64Context) tail fuel Q :
  stored (cpu_mem c) (cpu_regs c X1) (context_words new) ->
  (forall c1, cpu_irq c1 = cpu_irq c -> cpu_mem c1 = cpu_mem c ->
    capture (cpu_regs c1) new = new -> cpu_regs c1 X1 = cpu_regs c X1 ->
    wp (run (arm64_save_block ++ arm64_load_block ++ tail) fuel 16) Q c1) ->
  wp (run (arm64_save_block ++ arm64_load_block ++ tail) (8 + fuel) 8) Q c.
Proof.
  intros Hnew HQ.
  machine_step (@wp_load_pair Arm64Reg);
    [exact (stored_word _ _ _ _ 0 _ Hnew eq_refl eq_refl)|exact (stored_word _ _ _ _ 1 _ Hnew eq_refl eq_refl)|].
  machine_step (@wp_load_pair Arm64Reg);
    [exact (stored_word _ _ _ _ 2 _ Hnew eq_refl eq_refl)|exact (stored_word _ _ _ _ 3 _ Hnew eq_refl eq_refl)|].
  machine_step (@wp_load_pair Arm64Reg);
    [exact (stored_word _ _ _ _ 4 _ Hnew eq_refl eq_refl)|exact (stored_word _ _ _ _ 5 _ Hnew eq_refl eq_refl)|].
  machine_step (@wp_load_pair Arm64Reg);
    [exact (stored_word _ _ _ _ 6 _ Hnew eq_refl eq_refl)|exact (stored_word _ _ _ _ 7 _ Hnew eq_refl eq_refl)|].
  machine_step (@wp_load_pair Arm64Reg);
    [exact (stored_word _ _ _ _ 8 _ Hnew eq_refl eq_refl)|exact (stored_word _ _ _ _ 9 _ Hnew eq_refl eq_refl)|].
  machine_step (@wp_load_pair Arm64Reg);
    [exact (stored_word _ _ _ _ 10 _ Hnew eq_refl eq_refl)|exact (stored_word _ _ _ _ 11 _ Hnew eq_refl eq_refl)|].
  machine_step (@wp_load Arm64Reg); [exact (stored_word _ _ _ _ 12 _ Hnew eq_refl eq_refl)|].
  machine_step (@wp_move Arm64Reg).
  apply HQ; [reflexivity|reflexivity|by destruct new|reflexivity].
Qed.

Lemma arm64_blocks_spec (c : Cpu Arm64Reg) (old new : Arm64Context) tail fuel Q :
  switch_call c old new ->
  (forall c2, switched c old new (context_link new) c2 -> cpu_irq c2 = cpu_irq c ->
    cpu_regs c2 X30 = context_link new ->
    stored (cpu_mem c2) (cpu_regs c2 X1) (context_words new) ->
    wp (run (arm64_save_block ++ arm64_load_block ++ tail) fuel 16) Q c2) ->
  wp (run (arm64_save_block ++ arm64_load_block ++ tail) (16 + fuel) 0) Q c.
Proof.
  intros Hcall HQ. change (16 + fuel)%nat with (8 + (8 + fuel))%nat.
  eapply arm64_save_block_spec; [exact Hcall|].
  intros c1 Hirq Hregs Hsaved Hnew Hframe. apply (arm64_load_block_spec c1 new); [by rewrite Hregs|].
  intros c2 Hirq2 Hmem2 Hcap Hx1. apply HQ.
  - constructor; [done|done| |]; rewrite Hmem2; [exact Hsaved|exact Hframe].
  - congruence.
  - rewrite <-Hcap. reflexivity.
  - by rewrite Hmem2, Hx1, Hregs.
Qed.

#[global] Instance arm64_laws : SwitchLaws Arm64Reg Arm64Context.
Proof.
  split.
  - intros c old new Hcall. 
    change (call switch_program) with
      (run (arm64_save_block ++ arm64_load_block ++ arm64_restore_irq) (16 + 7) 0).
    eapply arm64_blocks_spec; [exact Hcall|].
    intros c2 Hsw Hirq Hlink Hnew.
    machine_step (@wp_load Arm64Reg); [exact (stored_word _ _ _ _ 13 _ Hnew eq_refl eq_refl)|].
    machine_step (@wp_branch_zero Arm64Reg); intros Hz; change (context_irq new) with (a_irq_enabled new).
    + machine_step (@wp_mask Arm64Reg). machine_step (@wp_jump_register Arm64Reg).
      change (a_irq_enabled new = 0) in Hz. rewrite Hz. split; [|done].
      rewrite <-Hlink in Hsw. by destruct Hsw.
    + machine_step (@wp_unmask Arm64Reg). machine_step (@wp_jump Arm64Reg).
      machine_step (@wp_jump_register Arm64Reg).
      change (a_irq_enabled new <> 0) in Hz. rewrite (proj2 (Z.eqb_neq _ _) Hz). split; [|done].
      rewrite <-Hlink in Hsw. by destruct Hsw.
  - intros c old new Hcall.
    change (call from_trap_program) with
      (run (arm64_save_block ++ arm64_load_block ++ [JumpRegister X30]) (16 + 2) 0).
    eapply arm64_blocks_spec; [exact Hcall|].
    intros c2 Hsw Hirq Hlink Hnew. machine_step (@wp_jump_register Arm64Reg). by rewrite Hlink.
  - intros c entry arg pc top ctx Hcap. injection Hcap as H19 H20 _ _ _ _ _ _ _ _ _ _ Hsp.
    unfold call. machine_step (@wp_move Arm64Reg). machine_step (@wp_jump_register Arm64Reg). done.
  - done.
  - intros r r' old Heq. exact Heq.
  - done.
Qed.
End Arm64Switch.

Module Riscv64Switch.
Import Riscv64.

#[global] Instance riscv64_arch : SwitchArch Riscv64Reg Riscv64Context := {|
  first_argument := A0; second_argument := A1; link := Ra; stack := RSp;
  context_words := riscv64_context_words;
  context_link := r_return_address;
  context_irq := r_irq_enabled;
  capture regs c := {|
    s0 := regs S0; s1 := regs S1; s2 := regs S2; s3 := regs S3; s4 := regs S4; s5 := regs S5;
    s6 := regs S6; s7 := regs S7; s8 := regs S8; s9 := regs S9; s10 := regs S10; s11 := regs S11;
    r_return_address := regs Ra; r_stack_pointer := regs RSp; r_irq_enabled := r_irq_enabled c;
    r_pad := r_pad c |};
  switch_program := riscv64_switch_context;
  from_trap_program := riscv64_switch_context_from_trap;
  trampoline_program := riscv64_thread_trampoline |}.

Lemma riscv64_save_block_spec (c : Cpu Riscv64Reg) (old new : Riscv64Context) tail fuel Q :
  switch_call c old new ->
  (forall c1, cpu_irq c1 = cpu_irq c ->
    cpu_regs c1 = cpu_regs c ->
    stored (cpu_mem c1) (cpu_regs c A0) (context_words (capture (cpu_regs c) old)) ->
    stored (cpu_mem c1) (cpu_regs c A1) (context_words new) ->
    (forall a, a < cpu_regs c A0 \/ cpu_regs c A0 + Context_SIZE <= a -> cpu_mem c1 !! a = cpu_mem c !! a) ->
    wp (run (riscv64_save_block ++ tail) fuel 14) Q c1) ->
  wp (run (riscv64_save_block ++ tail) (14 + fuel) 0) Q c.
Proof.
  intros [Hap Hold Hnew Hlo Hln] HQ. cbn [first_argument second_argument context_words riscv64_arch] in *.
  assert (forall o, o mod 8 = 0 -> 0 <= o < 128 -> is_Some (cpu_mem c !! (cpu_regs c A0 + o))) as Hpre.
  { intros o Hm Ho. eapply stored_present; [exact Hold|done|lia]. }
  assert (forall o, 0 <= o < 128 -> (cpu_regs c A0 + o < cpu_regs c A1 \/
    cpu_regs c A1 + 8 * Z.of_nat (length (riscv64_context_words new)) <= cpu_regs c A0 + o)) as Hout.
  { intros o Ho. unfold apart, Context_SIZE in Hap. lia. }
  cbn [Nat.add].
  do 14 (machine_step (@wp_store Riscv64Reg); [repeat apply present_insert; by apply Hpre|]).
  apply HQ; clear HQ.
  - reflexivity.
  - reflexivity.
  - record_word Hold 0%nat S0_OFFSET (cpu_regs c S0).
    record_word Hold 1%nat S1_OFFSET (cpu_regs c S1).
    record_word Hold 2%nat S2_OFFSET (cpu_regs c S2).
    record_word Hold 3%nat S3_OFFSET (cpu_regs c S3).
    record_word Hold 4%nat S4_OFFSET (cpu_regs c S4).
    record_word Hold 5%nat S5_OFFSET (cpu_regs c S5).
    record_word Hold 6%nat S6_OFFSET (cpu_regs c S6).
    record_word Hold 7%nat S7_OFFSET (cpu_regs c S7).
    record_word Hold 8%nat S8_OFFSET (cpu_regs c S8).
    record_word Hold 9%nat S9_OFFSET (cpu_regs c S9).
    record_word Hold 10%nat S10_OFFSET (cpu_regs c S10).
    record_word Hold 11%nat S11_OFFSET (cpu_regs c S11).
    record_word Hold 12%nat RETURN_ADDRESS_OFFSET (cpu_regs c Ra).
    record_word Hold 13%nat R_STACK_POINTER_OFFSET (cpu_regs c RSp).
    exact Hold.
  - cbn. repeat (apply stored_insert_ne; [by apply Hout|]). exact Hnew.
  - intros a Ha. cbn. repeat (etrans; [eapply insert_outside; [exact Ha|done]|]). done.
Qed.

Lemma riscv64_load_block_spec (c : Cpu Riscv64Reg) (new : Riscv64Context) tail fuel Q :
  stored (cpu_mem c) (cpu_regs c A1) (context_words new) ->
  (forall c1, cpu_irq c1 = cpu_irq c -> cpu_mem c1 = cpu_mem c ->
    capture (cpu_regs c1) new = new -> cpu_regs c1 A1 = cpu_regs c A1 ->
    wp (run (riscv64_save_block ++ riscv64_load_block ++ tail) fuel 28) Q c1) ->
  wp (run (riscv64_save_block ++ riscv64_load_block ++ tail) (14 + fuel) 14) Q c.
Proof.
  intros Hnew HQ.
  machine_step (@wp_load Riscv64Reg); [exact (stored_word _ _ _ _ 0 _ Hnew eq_refl eq_refl)|].
  machine_step (@wp_load Riscv64Reg); [exact (stored_word _ _ _ _ 1 _ Hnew eq_refl eq_refl)|].
  machine_step (@wp_load Riscv64Reg); [exact (stored_word _ _ _ _ 2 _ Hnew eq_refl eq_refl)|].
  machine_step (@wp_load Riscv64Reg); [exact (stored_word _ _ _ _ 3 _ Hnew eq_refl eq_refl)|].
  machine_step (@wp_load Riscv64Reg); [exact (stored_word _ _ _ _ 4 _ Hnew eq_refl eq_refl)|].
  machine_step (@wp_load Riscv64Reg); [exact (stored_word _ _ _ _ 5 _ Hnew eq_refl eq_refl)|].
  machine_step (@wp_load Riscv64Reg); [exact (stored_word _ _ _ _ 6 _ Hnew eq_refl eq_refl)|].
  machine_step (@wp_load Riscv64Reg); [exact (stored_word _ _ _ _ 7 _ Hnew eq_refl eq_refl)|].
  machine_step (@wp_load Riscv64Reg); [exact (stored_word _ _ _ _ 8 _ Hnew eq_refl eq_refl)|].
  machine_step (@wp_load Riscv64Reg); [exact (stored_word _ _ _ _ 9 _ Hnew eq_refl eq_refl)|].
  machine_step (@wp_load Riscv64Reg); [exact (stored_word _ _ _ _ 10 _ Hnew eq_refl eq_refl)|].
  machine_step (@wp_load Riscv64Reg); [exact (stored_word _ _ _ _ 11 _ Hnew eq_refl eq_refl)|].
  machine_step (@wp_load Riscv64Reg); [exact (stored_word _ _ _ _ 12 _ Hnew eq_refl eq_refl)|].
  machine_step (@wp_load Riscv64Reg); [exact (stored_word _ _ _ _ 13 _ Hnew eq_refl eq_refl)|].
  apply HQ; [reflexivity|reflexivity|by destruct new|reflexivity].
Qed.

Lemma riscv64_blocks_spec (c : Cpu Riscv64Reg) (old new : Riscv64Context) tail fuel Q :
  switch_call c old new ->
  (forall c2, switched c old new (context_link new) c2 -> cpu_irq c2 = cpu_irq c ->
    cpu_regs c2 Ra = context_link new ->
    stored (cpu_mem c2) (cpu_regs c2 A1) (context_words new) ->
    wp (run (riscv64_save_block ++ riscv64_load_block ++ tail) fuel 28) Q c2) ->
  wp (run (riscv64_save_block ++ riscv64_load_block ++ tail) (28 + fuel) 0) Q c.
Proof.
  intros Hcall HQ. change (28 + fuel)%nat with (14 + (14 + fuel))%nat.
  eapply riscv64_save_block_spec; [exact Hcall|].
  intros c1 Hirq Hregs Hsaved Hnew Hframe. apply (riscv64_load_block_spec c1 new); [by rewrite Hregs|].
  intros c2 Hirq2 Hmem2 Hcap Hx1. apply HQ.
  - constructor; [done|done| |]; rewrite Hmem2; [exact Hsaved|exact Hframe].
  - congruence.
  - rewrite <-Hcap. reflexivity.
  - by rewrite Hmem2, Hx1, Hregs.
Qed.

#[global] Instance riscv64_laws : SwitchLaws Riscv64Reg Riscv64Context.
Proof.
  split.
  - intros c old new Hcall. 
    change (call switch_program) with
      (run (riscv64_save_block ++ riscv64_load_block ++ riscv64_restore_irq) (28 + 7) 0).
    eapply riscv64_blocks_spec; [exact Hcall|].
    intros c2 Hsw Hirq Hlink Hnew.
    machine_step (@wp_load Riscv64Reg); [exact (stored_word _ _ _ _ 14 _ Hnew eq_refl eq_refl)|].
    machine_step (@wp_branch_zero Riscv64Reg); intros Hz; change (context_irq new) with (r_irq_enabled new).
    + machine_step (@wp_mask Riscv64Reg). machine_step (@wp_jump_register Riscv64Reg).
      change (r_irq_enabled new = 0) in Hz. rewrite Hz. split; [|done].
      rewrite <-Hlink in Hsw. by destruct Hsw.
    + machine_step (@wp_unmask Riscv64Reg). machine_step (@wp_jump Riscv64Reg).
      machine_step (@wp_jump_register Riscv64Reg).
      change (r_irq_enabled new <> 0) in Hz. rewrite (proj2 (Z.eqb_neq _ _) Hz). split; [|done].
      rewrite <-Hlink in Hsw. by destruct Hsw.
  - intros c old new Hcall.
    change (call from_trap_program) with
      (run (riscv64_save_block ++ riscv64_load_block ++ [JumpRegister Ra]) (28 + 2) 0).
    eapply riscv64_blocks_spec; [exact Hcall|].
    intros c2 Hsw Hirq Hlink Hnew. machine_step (@wp_jump_register Riscv64Reg). by rewrite Hlink.
  - intros c entry arg pc top ctx Hcap. injection Hcap as _ H1 H2 _ _ _ _ _ _ _ _ _ _ Hsp.
    unfold call. machine_step (@wp_move Riscv64Reg). machine_step (@wp_jump_register Riscv64Reg). done.
  - done.
  - intros r r' old Heq. exact Heq.
  - done.
Qed.
End Riscv64Switch.

(** ** Threads *)

Section Threads.
Context (R Ctx : Type) `{SwitchLaws R Ctx}.

(** [program] suspends the caller so that a later switch back to its record, by
    whatever thread and from whatever state that left the record alone, returns
    from the call with the caller's registers. *)
Definition suspends_and_resumes (program : list (instr R)) : Prop :=
  forall (c : Cpu R) (a b : Ctx),
  switch_call c a b ->
  exists c1, call program c = Done (context_link b, c1) /\ capture (cpu_regs c1) b = b /\
  forall (c2 : Cpu R) (d : Ctx),
  switch_call c2 d (capture (cpu_regs c) a) ->
  exists c3, call program c2 = Done (cpu_regs c link, c3) /\
    capture (cpu_regs c3) a = capture (cpu_regs c) a.

(** [program], switching to the record that [create_thread_with_stack] makes,
    and then the trampoline, enter [entry] with its argument on its stack, with
    interrupts unmasked if [irq] of the state before. *)
Definition starts_thread (program : list (instr R)) (irq : Cpu R -> bool) : Prop :=
  forall (c : Cpu R) (a : Ctx) (trampoline top entry arg : Z),
  switch_call c a (context_set_entry_data entry arg (context_new trampoline top)) ->
  exists c1 c2, call program c = Done (trampoline, c1) /\
    call trampoline_program c1 = Done (entry, c2) /\
    cpu_regs c2 first_argument = arg /\ cpu_regs c2 stack = top /\ cpu_irq c2 = irq c.

(** Both programs are switches. *)
Definition switches (program : list (instr R)) (irq : Cpu R -> Ctx -> bool) : Prop :=
  forall (c : Cpu R) (old new : Ctx), switch_call c old new ->
  wp (call program) (fun a c' => switched c old new a c' /\ cpu_irq c' = irq c new) c.

Lemma switches_resume program irq : switches program irq -> suspends_and_resumes program.
Proof.
  intros Hsw c a b Hcall. destruct (proj1 (wp_unfold _ _ _) (Hsw _ _ _ Hcall)) as (ad & c1 & Hrun & Hs1 & _).
  exists c1. destruct Hs1 as [-> Hregs _ _]. split; [done|]. split; [done|].
  intros c2 d Hcall2. destruct (proj1 (wp_unfold _ _ _) (Hsw _ _ _ Hcall2)) as (ad & c3 & Hrun3 & Hs3 & _).
  exists c3. destruct Hs3 as [-> Hregs3 _ _]. rewrite capture_link in Hrun3. split; [done|].
  by apply capture_capture.
Qed.

Lemma switches_start program irq irq' :
  switches program irq ->
  (forall c entry arg pc top, irq c (context_set_entry_data entry arg (context_new pc top)) = irq' c) ->
  starts_thread program irq'.
Proof.
  intros Hsw Hirq c a trampoline top entry arg Hcall.
  destruct (proj1 (wp_unfold _ _ _) (Hsw _ _ _ Hcall)) as (ad & c1 & Hrun & Hs1 & Hi1).
  destruct Hs1 as [-> Hregs _ _]. rewrite new_link in Hrun.
  destruct (proj1 (wp_unfold _ _ _) (trampoline_spec c1 entry arg trampoline top Hregs))
    as (ad & c2 & Hrun2 & -> & Harg & Hstack & Hi2).
  exists c1, c2. split_and!; [done..|]. by rewrite Hi2, Hi1, Hirq.
Qed.

Lemma switch_switches : switches switch_program (fun _ new => negb (context_irq new =? 0)).
Proof. intros c old new Hcall. by apply switch_spec. Qed.
Lemma from_trap_switches : switches from_trap_program (fun c _ => cpu_irq c).
Proof. intros c old new Hcall. by apply from_trap_spec. Qed.
End Threads.

(** ** Theorems *)

(** On both architectures and for both entry points of the switch assembly:
    a thread that switches away is resumed by any later switch to its record at
    the return address of its call with its callee-saved registers and stack
    pointer. *)
Theorem context_switch_round_trip :
  suspends_and_resumes Arm64.Arm64Reg Arm64.Arm64Context Arm64.arm64_switch_context /\
  suspends_and_resumes Arm64.Arm64Reg Arm64.Arm64Context Arm64.arm64_switch_context_from_trap /\
  suspends_and_resumes Riscv64.Riscv64Reg Riscv64.Riscv64Context Riscv64.riscv64_switch_context /\
  suspends_and_resumes Riscv64.Riscv64Reg Riscv64.Riscv64Context Riscv64.riscv64_switch_context_from_trap.
Proof.
  split_and!; eapply switches_resume; try apply _.
  - exact (switch_switches Arm64.Arm64Reg Arm64.Arm64Context).
  - exact (from_trap_switches Arm64.Arm64Reg Arm64.Arm64Context).
  - exact (switch_switches Riscv64.Riscv64Reg Riscv64.Riscv64Context).
  - exact (from_trap_switches Riscv64.Riscv64Reg Riscv64.Riscv64Context).
Qed.

(** (C29) A thread started by [switch_context] enters its entry function with its
    argument, on its stack and with interrupts unmasked.  Started by
    [switch_context_from_trap] it enters with the interrupt state of the trap
    handler: masked, since no instruction of that path and of the trampoline
    changes it and the record's [irq_enabled] is not read. *)
Theorem thread_start :
  starts_thread Arm64.Arm64Reg Arm64.Arm64Context Arm64.arm64_switch_context (fun _ => true) /\
  starts_thread Riscv64.Riscv64Reg Riscv64.Riscv64Context Riscv64.riscv64_switch_context (fun _ => true) /\
  starts_thread Arm64.Arm64Reg Arm64.Arm64Context Arm64.arm64_switch_context_from_trap cpu_irq /\
  starts_thread Riscv64.Riscv64Reg Riscv64.Riscv64Context Riscv64.riscv64_switch_context_from_trap cpu_irq.
Proof.
  split_and!.
  - exact (switches_start _ _ _ _ (fun _ => true) (switch_switches Arm64.Arm64Reg Arm64.Arm64Context) (fun _ _ _ _ _ => eq_refl)).
  - exact (switches_start _ _ _ _ (fun _ => true) (switch_switches Riscv64.Riscv64Reg Riscv64.Riscv64Context) (fun _ _ _ _ _ => eq_refl)).
  - exact (switches_start _ _ _ _ cpu_irq (from_trap_switches Arm64.Arm64Reg Arm64.Arm64Context) (fun _ _ _ _ _ => eq_refl)).
  - exact (switches_start _ _ _ _ cpu_irq (from_trap_switches Riscv64.Riscv64Reg Riscv64.Riscv64Context) (fun _ _ _ _ _ => eq_refl)).
Qed.

(** ** Witnesses *)

(** A machine with two records: an empty one and a new thread's. *)
Definition image (base : Z) (words : list Z) : gmap Z Z :=
  list_to_map (imap (fun i w => (base + 8 * Z.of_nat i, w)) words).
Definition sample_thread : Arm64.Arm64Context :=
  context_set_entry_data 0x4000 7 (context_new 0x3000 0x9000).
Definition sample_cpu : Cpu Arm64.Arm64Reg := {|
  cpu_regs r := match r with Arm64.X0 => 0x1000 | Arm64.X1 => 0x2000 | Arm64.X30 => 0x5000 | _ => 1 end;
  cpu_irq := false;
  cpu_mem := image 0x1000 (Arm64.arm64_context_words Arm64.arm64_empty) ∪
             image 0x2000 (Arm64.arm64_context_words sample_thread) |}.

Lemma stored_check mem base words :
  forallb (fun iw => bool_decide (mem !! (base + 8 * Z.of_nat iw.1) = Some iw.2))
    (zip (seq 0 (length words)) words) = true ->
  stored mem base words.
Proof.
  intros Hall%Is_true_eq_left%forallb_True i w Hw.
  assert ((i, w) ∈ zip (seq 0 (length words)) words) as Hin.
  { apply list_elem_of_lookup. exists i. apply lookup_zip_with_Some. exists i, w. split_and!; [done| |done].
    apply lookup_seq. split; [done|]. by apply lookup_lt_Some in Hw. }
  pose proof (Forall_elem _ _ _ Hall Hin) as Hiw. by apply bool_decide_unpack in Hiw.
Qed.

Lemma sample_call : switch_call sample_cpu Arm64.arm64_empty sample_thread.
Proof.
  constructor; [left; unfold Context_SIZE; simpl; lia|apply stored_check; vm_compute; reflexivity..|
    reflexivity|reflexivity].
Qed.

Lemma context_switch_round_trip_witness :
  exists c1, call Arm64.arm64_switch_context sample_cpu = Done (0x3000, c1).
Proof.
  destruct context_switch_round_trip as (Harm & _).
  destruct (Harm sample_cpu Arm64.arm64_empty sample_thread sample_call) as (c1 & Hrun & _).
  exists c1. exact Hrun.
Defined.

(** A thread preempted in for the first time runs with interrupts masked. *)
Lemma thread_start_witness :
  exists c1 c2, call Arm64.arm64_switch_context_from_trap sample_cpu = Done (0x3000, c1) /\
    call Arm64.arm64_thread_trampoline c1 = Done (0x4000, c2) /\ cpu_irq c2 = false.
Proof.
  destruct thread_start as (_ & _ & Htrap & _).
  destruct (Htrap sample_cpu Arm64.arm64_empty 0x3000 0x9000 0x4000 7 sample_call)
    as (c1 & c2 & H1 & H2 & _ & _ & H3). exists c1, c2. split_and!; assumption.
Defined.
