(* ===== verification/TrapEntry.v ===== *)
(** * Trap entry and return

    Models the assembly of [arch/aarch64/trap.rs] and [arch/riscv64/trap.rs]:
    the vector tables, the two entry sequences of each architecture, which save
    the interrupted registers in a frame on the stack, call a Rust handler and
    return from the exception.  The programs run on the machine of [Context];
    the handler is an argument. *)

From S2P Require Import Prelude Trap Context.
From stdpp Require Import base tactics option list list_numbers numbers gmap strings.

#[local] Open Scope Z_scope.
#[local] Open Scope kernel_scope.

(** ** Entry code *)

(** [stp], [ldp], [sd], [ld], [mrs], [msr], [csrr], [csrw] and [mov] are
    instructions of [Context]'s machine, system registers being registers; the
    others are [add], [sub] and [addi] with an immediate, the call of the handler
    and the exception return. *)
Inductive entry_instr (R : Type) :=
  | Plain (i : instr R)
  | AddImm (dst src : R) (imm : Z)
  | CallHandler (link : R)
  | ExceptionReturn (pc : R).
Arguments Plain {R}.
Arguments AddImm {R}.
Arguments CallHandler {R}.
Arguments ExceptionReturn {R}.

Section Entry.
Context {R : Type} `{EqDecision R}.
Variable handler : M (Cpu R) unit.

(** The address of instruction [pc] of the entry code. *)
Variable address : nat -> Z.

(** Entry code has no branches; [None] is the end of the listing. *)
Fixpoint run_entry (program : list (entry_instr R)) (pc : nat) : M (Cpu R) Z :=
  match program with
  | [] => undefined
  | Plain i :: rest =>
      let! f := exec i in
      match f with Next => run_entry rest (S pc) | _ => undefined end
  | AddImm dst src imm :: rest =>
      let! reg := gets cpu_regs in
      modify (set_reg dst (wrapping_add 64 (reg src) imm)) ;;;
      run_entry rest (S pc)
  | CallHandler link :: rest =>
      modify (set_reg link (address (S pc))) ;;;
      handler ;;;
      run_entry rest (S pc)
  | ExceptionReturn r :: _ => let! reg := gets cpu_regs in ret (reg r)
  end.
End Entry.

(** ** ARM64 *)

Module Arm64Entry.

(** The general registers, the stack pointer and the exception registers. *)
Inductive Reg := X (n : nat) | Sp | ELR_EL1 | SPSR_EL1 | ESR_EL1 | FAR_EL1.
#[global] Instance Reg_eq_dec : EqDecision Reg.
Proof. solve_decision. Defined.

Definition stp (r1 r2 : Reg) (offset : Z) : entry_instr Reg := Plain (StorePair r1 r2 Sp offset).
Definition ldp (r1 r2 : Reg) (offset : Z) : entry_instr Reg := Plain (LoadPair r1 r2 Sp offset).
Definition ldr (r : Reg) (offset : Z) : entry_instr Reg := Plain (Load r Sp offset).
Definition mov (dst src : Reg) : entry_instr Reg := Plain (Move dst src).

Definition IRQ_EXCEPTION_RETURN_ADDRESS_OFFSET : Z := 20 * 8.

Definition save_trap_frame : list (entry_instr Reg) :=
  [ AddImm Sp Sp (- TrapFrame_SIZE);
    stp (X 0) (X 1) 0; stp (X 2) (X 3) 16; stp (X 4) (X 5) 32; stp (X 6) (X 7) 48;
    stp (X 8) (X 9) 64; stp (X 10) (X 11) 80; stp (X 12) (X 13) 96; stp (X 14) (X 15) 112;
    stp (X 16) (X 17) 128; stp (X 18) (X 19) 144; stp (X 20) (X 21) 160; stp (X 22) (X 23) 176;
    stp (X 24) (X 25) 192; stp (X 26) (X 27) 208; stp (X 28) (X 29) 224;
    AddImm (X 0) Sp TrapFrame_SIZE;
    stp (X 30) (X 0) LINK_REGISTER_OFFSET;
    mov (X 0) ELR_EL1; mov (X 1) SPSR_EL1;
    stp (X 0) (X 1) EXCEPTION_RETURN_ADDRESS_OFFSET;
    mov (X 0) ESR_EL1; mov (X 1) FAR_EL1;
    stp (X 0) (X 1) SYNDROME_OFFSET;
    mov (X 0) Sp;
    CallHandler (X 30);
    ldp (X 0) (X 1) EXCEPTION_RETURN_ADDRESS_OFFSET;
    mov ELR_EL1 (X 0); mov SPSR_EL1 (X 1);
    ldp (X 2) (X 3) 16; ldp (X 4) (X 5) 32; ldp (X 6) (X 7) 48; ldp (X 8) (X 9) 64;
    ldp (X 10) (X 11) 80; ldp (X 12) (X 13) 96; ldp (X 14) (X 15) 112; ldp (X 16) (X 17) 128;
    ldp (X 18) (X 19) 144; ldp (X 20) (X 21) 160; ldp (X 22) (X 23) 176; ldp (X 24) (X 25) 192;
    ldp (X 26) (X 27) 208; ldp (X 28) (X 29) 224;
    ldr (X 30) LINK_REGISTER_OFFSET;
    ldp (X 0) (X 1) 0;
    AddImm Sp Sp TrapFrame_SIZE;
    ExceptionReturn ELR_EL1 ].

Definition save_irq_frame : list (entry_instr Reg) :=
  [ AddImm Sp Sp (- Arm64IrqFrame_SIZE);
    stp (X 0) (X 1) 0; stp (X 2) (X 3) 16; stp (X 4) (X 5) 32; stp (X 6) (X 7) 48;
    stp (X 8) (X 9) 64; stp (X 10) (X 11) 80; stp (X 12) (X 13) 96; stp (X 14) (X 15) 112;
    stp (X 16) (X 17) 128; stp (X 18) (X 30) 144;
    mov (X 0) ELR_EL1; mov (X 1) SPSR_EL1;
    stp (X 0) (X 1) IRQ_EXCEPTION_RETURN_ADDRESS_OFFSET;
    CallHandler (X 30);
    ldp (X 0) (X 1) IRQ_EXCEPTION_RETURN_ADDRESS_OFFSET;
    mov ELR_EL1 (X 0); mov SPSR_EL1 (X 1);
    ldp (X 2) (X 3) 16; ldp (X 4) (X 5) 32; ldp (X 6) (X 7) 48; ldp (X 8) (X 9) 64;
    ldp (X 10) (X 11) 80; ldp (X 12) (X 13) 96; ldp (X 14) (X 15) 112; ldp (X 16) (X 17) 128;
    ldp (X 18) (X 30) 144;
    ldp (X 0) (X 1) 0;
    AddImm Sp Sp Arm64IrqFrame_SIZE;
    ExceptionReturn ELR_EL1 ].

(** The 16 vectors: synchronous, IRQ, FIQ and SError for each of the current
    level on [SP_EL0], the current level on [SP_ELx] and the lower levels. *)
Inductive Entry := KernelTrapEntry | KernelIrqEntry.
Definition trap_vectors : list Entry :=
  [ KernelTrapEntry; KernelIrqEntry; KernelTrapEntry; KernelTrapEntry;
    KernelTrapEntry; KernelIrqEntry; KernelTrapEntry; KernelTrapEntry;
    KernelTrapEntry; KernelIrqEntry; KernelTrapEntry; KernelTrapEntry;
    KernelTrapEntry; KernelIrqEntry; KernelTrapEntry; KernelTrapEntry ].
Definition arm64_entry_code (e : Entry) : list (entry_instr Reg) :=
  match e with KernelTrapEntry => save_trap_frame | KernelIrqEntry => save_irq_frame end.
End Arm64Entry.

(** ** RISC-V *)

Module Riscv64Entry.

(** [x0] is never written by the entry code. *)
Inductive Reg := X (n : nat) | Sepc | Sstatus | Scause | Stval.
#[global] Instance Reg_eq_dec : EqDecision Reg.
Proof. solve_decision. Defined.
(** ABI names. *)
Definition ra := X 1.
Definition sp := X 2.
Definition t0 := X 5.
Definition t1 := X 6.
Definition t2 := X 7.
Definition a0 := X 10.
Definition a1 := X 11.
Definition a2 := X 12.
Definition a3 := X 13.
Definition a4 := X 14.
Definition a5 := X 15.
Definition a6 := X 16.
Definition a7 := X 17.
Definition t3 := X 28.
Definition t4 := X 29.
Definition t5 := X 30.
Definition t6 := X 31.

Definition sd (r : Reg) (offset : Z) : entry_instr Reg := Plain (Store r sp offset).
Definition ld (r : Reg) (offset : Z) : entry_instr Reg := Plain (Load r sp offset).
Definition mv (dst src : Reg) : entry_instr Reg := Plain (Move dst src).

Definition FRAME_SIZE_NEGATIVE : Z := - TrapFrame_SIZE.
Definition IRQ_FRAME_SIZE_NEGATIVE : Z := - Riscv64IrqFrame_SIZE.
Definition IRQ_PROGRAM_COUNTER_OFFSET : Z := 16 * 8.
Definition IRQ_STATUS_OFFSET : Z := 16 * 8 + 8.

Definition kernel_trap_entry : list (entry_instr Reg) :=
  [ AddImm sp sp FRAME_SIZE_NEGATIVE;
    sd (X 1) 0; sd (X 2) 8; sd (X 3) 16; sd (X 4) 24; sd (X 5) 32; sd (X 6) 40; sd (X 7) 48;
    sd (X 8) 56; sd (X 9) 64; sd (X 10) 72; sd (X 11) 80; sd (X 12) 88; sd (X 13) 96; sd (X 14) 104;
    sd (X 15) 112; sd (X 16) 120; sd (X 17) 128; sd (X 18) 136; sd (X 19) 144; sd (X 20) 152;
    sd (X 21) 160; sd (X 22) 168; sd (X 23) 176; sd (X 24) 184; sd (X 25) 192; sd (X 26) 200;
    sd (X 27) 208; sd (X 28) 216; sd (X 29) 224; sd (X 30) 232; sd (X 31) 240;
    AddImm t0 sp TrapFrame_SIZE; sd t0 SAVED_STACK_POINTER_OFFSET;
    mv t0 Sepc; sd t0 PROGRAM_COUNTER_OFFSET;
    mv t0 Sstatus; sd t0 STATUS_OFFSET;
    mv t0 Scause; sd t0 CAUSE_OFFSET;
    mv t0 Stval; sd t0 TRAP_VALUE_OFFSET;
    mv a0 sp;
    CallHandler ra;
    ld t0 PROGRAM_COUNTER_OFFSET; mv Sepc t0;
    ld t0 STATUS_OFFSET; mv Sstatus t0;
    ld (X 1) 0; ld (X 3) 16; ld (X 4) 24; ld (X 6) 40; ld (X 7) 48;
    ld (X 8) 56; ld (X 9) 64; ld (X 10) 72; ld (X 11) 80; ld (X 12) 88; ld (X 13) 96; ld (X 14) 104;
    ld (X 15) 112; ld (X 16) 120; ld (X 17) 128; ld (X 18) 136; ld (X 19) 144; ld (X 20) 152;
    ld (X 21) 160; ld (X 22) 168; ld (X 23) 176; ld (X 24) 184; ld (X 25) 192; ld (X 26) 200;
    ld (X 27) 208; ld (X 28) 216; ld (X 29) 224; ld (X 30) 232; ld (X 31) LAST_REGISTER_OFFSET;
    ld (X 5) 32;
    AddImm sp sp TrapFrame_SIZE;
    ExceptionReturn Sepc ].

Definition kernel_fast_irq_entry : list (entry_instr Reg) :=
  [ AddImm sp sp IRQ_FRAME_SIZE_NEGATIVE;
    sd ra 0; sd t0 8; sd t1 16; sd t2 24; sd a0 32; sd a1 40; sd a2 48; sd a3 56; sd a4 64; sd a5 72;
    sd a6 80; sd a7 88; sd t3 96; sd t4 104; sd t5 112; sd t6 120;
    mv t0 Sepc; sd t0 IRQ_PROGRAM_COUNTER_OFFSET;
    mv t0 Sstatus; sd t0 IRQ_STATUS_OFFSET;
    CallHandler ra;
    ld t0 IRQ_PROGRAM_COUNTER_OFFSET; mv Sepc t0;
    ld t0 IRQ_STATUS_OFFSET; mv Sstatus t0;
    ld ra 0; ld t0 8; ld t1 16; ld t2 24; ld a0 32; ld a1 40; ld a2 48; ld a3 56; ld a4 64; ld a5 72;
    ld a6 80; ld a7 88; ld t3 96; ld t4 104; ld t5 112; ld t6 120;
    AddImm sp sp Riscv64IrqFrame_SIZE;
    ExceptionReturn Sepc ].

(** The 256 slots of [stvec] in vectored mode. *)
Inductive Entry := KernelTrapEntry | KernelFastIrqEntry.
Definition trap_vector : list Entry :=
  [KernelTrapEntry] ++ replicate 4 KernelTrapEntry ++ [KernelFastIrqEntry] ++ replicate 250 KernelTrapEntry.
Definition riscv64_entry_code (e : Entry) : list (entry_instr Reg) :=
  match e with KernelTrapEntry => kernel_trap_entry | KernelFastIrqEntry => kernel_fast_irq_entry end.
End Riscv64Entry.

(** ** Blocks of saves and restores *)

Section Blocks.
Context {R : Type} `{EqDecision R} (handler : M (Cpu R) unit) (address : nat -> Z).
Abbreviation run := (run_entry handler address).
Implicit Types (c : Cpu R) (ws : list Z) (Q : Z -> Cpu R -> Prop).

(** A frame after saving registers at word indices, and the registers after
    restoring them. *)
Definition put (regs : R -> Z) (l : list (R * nat)) (ws : list Z) : list Z :=
  foldl (fun ws p => <[p.2 := regs p.1]> ws) ws l.
Definition get (ws : list Z) (l : list (R * nat)) (regs : R -> Z) : R -> Z :=
  foldl (fun regs p r => if decide (r = p.1) then nth p.2 ws 0 else regs r) regs l.

Definition with_mem (m : gmap Z Z) c : Cpu R := {| cpu_regs := cpu_regs c; cpu_irq := cpu_irq c; cpu_mem := m |}.
Definition with_regs (f : R -> Z) c : Cpu R := {| cpu_regs := f; cpu_irq := cpu_irq c; cpu_mem := cpu_mem c |}.
Definition same_outside (b : Z) (n : nat) (m m' : gmap Z Z) : Prop :=
  forall a, a < b \/ b + 8 * Z.of_nat n <= a -> m' !! a = m !! a.

Lemma length_put regs l ws : length (put regs l ws) = length ws.
Proof. unfold put. revert ws. induction l as [|p l IH]; intros ws; [done|]. cbn. by rewrite IH, length_insert. Qed.

Lemma same_outside_insert b n m m' i v :
  (i < n)%nat -> same_outside b n m m' -> same_outside b n m (<[b + 8 * Z.of_nat i := v]> m').
Proof. intros Hi Hs a Ha. rewrite lookup_insert_ne by lia. by apply Hs. Qed.

Lemma entry_store r base i rest pc Q c b ws :
  cpu_regs c base = b -> stored (cpu_mem c) b ws -> (i < length ws)%nat ->
  wp (run rest (S pc)) Q (with_mem (<[b + 8 * Z.of_nat i := cpu_regs c r]> (cpu_mem c)) c) ->
  wp (run (Plain (Store r base (8 * Z.of_nat i)) :: rest) pc) Q c.
Proof.
  intros Hb Hs Hi HQ. cbn [run_entry]. apply wp_bind, wp_store.
  - rewrite Hb. destruct (lookup_lt_is_Some_2 ws i Hi) as [w Hw]. exists w. by apply Hs.
  - by rewrite Hb.
Qed.

Lemma entry_stores base l rest pc Q c b ws :
  cpu_regs c base = b -> stored (cpu_mem c) b ws -> Forall (fun p : R * nat => (p.2 < length ws)%nat) l ->
  (forall m, stored m b (put (cpu_regs c) l ws) -> same_outside b (length ws) (cpu_mem c) m ->
    wp (run rest (length l + pc)) Q (with_mem m c)) ->
  wp (run (((fun p : R * nat => Plain (Store p.1 base (8 * Z.of_nat p.2))) <$> l) ++ rest) pc) Q c.
Proof.
  intros Hb Hs Hall HQ. revert pc c ws Hb Hs Hall HQ. induction l as [|[r i] l IH]; intros pc c ws Hb Hs Hall HQ.
  - destruct c as [regs irq m]. by apply (HQ m).
  - apply Forall_cons in Hall as [Hi Hall]. cbn [fmap list_fmap app]. eapply entry_store; [exact Hb|exact Hs|exact Hi|].
    eapply (IH _ _ (<[i := cpu_regs c r]> ws)); [done| |by rewrite length_insert|].
    + cbn. by apply stored_insert.
    + intros m Hm Hout. rewrite length_insert in Hout. cbn in Hm, Hout. replace (length l + S pc)%nat with (S (length l) + pc)%nat by lia.
      apply (HQ m); [exact Hm|]. intros a Ha. rewrite (Hout a Ha). by rewrite lookup_insert_ne by (cbn in Hi; lia).
Qed.

Lemma entry_store_pairs base l rest pc Q c b ws :
  cpu_regs c base = b -> stored (cpu_mem c) b ws -> Forall (fun p : R * R * nat => (S p.2 < length ws)%nat) l ->
  (forall m, stored m b (put (cpu_regs c) (l ≫= fun p => [(p.1.1, p.2); (p.1.2, S p.2)]) ws) ->
    same_outside b (length ws) (cpu_mem c) m -> wp (run rest (length l + pc)) Q (with_mem m c)) ->
  wp (run (((fun p : R * R * nat => Plain (StorePair p.1.1 p.1.2 base (8 * Z.of_nat p.2))) <$> l) ++ rest) pc) Q c.
Proof.
  intros Hb Hs Hall HQ. revert pc c ws Hb Hs Hall HQ. induction l as [|[[r1 r2] i] l IH]; intros pc c ws Hb Hs Hall HQ.
  - destruct c as [regs irq m]. by apply (HQ m).
  - apply Forall_cons in Hall as [Hi Hall]. cbn [fmap list_fmap app run_entry fst snd] in *.
    apply wp_bind, wp_store_pair; rewrite Hb.
    { destruct (lookup_lt_is_Some_2 ws i ltac:(lia)) as [w Hw]. exists w. by apply Hs. }
    { destruct (lookup_lt_is_Some_2 ws (S i) Hi) as [w Hw]. exists w. replace (8 * Z.of_nat i + 8) with (8 * Z.of_nat (S i)) by lia. by apply Hs. }
    eapply (IH _ _ (<[S i := cpu_regs c r2]> (<[i := cpu_regs c r1]> ws))); [done| |by rewrite !length_insert|].
    + cbn. apply stored_insert; [lia|]. by apply stored_insert.
    + intros m Hm Hout. rewrite !length_insert in Hout. cbn in Hm, Hout. replace (length l + S pc)%nat with (S (length l) + pc)%nat by lia.
      apply (HQ m); [exact Hm|]. intros a Ha. rewrite (Hout a Ha). by rewrite !lookup_insert_ne by lia.
Qed.

Lemma nth_lookup_frame ws i : (i < length ws)%nat -> ws !! i = Some (nth i ws 0).
Proof. intros Hi. rewrite nth_lookup. by destruct (lookup_lt_is_Some_2 ws i Hi) as [w ->]. Qed.

Lemma entry_loads base l rest pc Q c b ws :
  cpu_regs c base = b -> stored (cpu_mem c) b ws ->
  Forall (fun p : R * nat => p.1 <> base /\ (p.2 < length ws)%nat) l ->
  wp (run rest (length l + pc)) Q (with_regs (get ws l (cpu_regs c)) c) ->
  wp (run (((fun p : R * nat => Plain (Load p.1 base (8 * Z.of_nat p.2))) <$> l) ++ rest) pc) Q c.
Proof.
  intros Hb Hs Hall HQ. revert pc c Hb Hs HQ. induction l as [|[r i] l IH]; intros pc c Hb Hs HQ.
  - by destruct c.
  - apply Forall_cons in Hall as [[Hr Hi] Hall]. cbn [fmap list_fmap app run_entry fst snd] in *.
    apply wp_bind. eapply wp_load; [rewrite Hb; by apply Hs, nth_lookup_frame|]. apply (IH Hall); [|done|].
    + cbn. by rewrite decide_False.
    + by replace (length l + S pc)%nat with (S (length l) + pc)%nat by lia.
Qed.

Lemma entry_load_pairs base l rest pc Q c b ws :
  cpu_regs c base = b -> stored (cpu_mem c) b ws ->
  Forall (fun p : R * R * nat => p.1.1 <> base /\ p.1.2 <> base /\ (S p.2 < length ws)%nat) l ->
  wp (run rest (length l + pc)) Q (with_regs (get ws (l ≫= fun p => [(p.1.1, p.2); (p.1.2, S p.2)]) (cpu_regs c)) c) ->
  wp (run (((fun p : R * R * nat => Plain (LoadPair p.1.1 p.1.2 base (8 * Z.of_nat p.2))) <$> l) ++ rest) pc) Q c.
Proof.
  intros Hb Hs Hall HQ. revert pc c Hb Hs HQ. induction l as [|[[r1 r2] i] l IH]; intros pc c Hb Hs HQ.
  - by destruct c.
  - apply Forall_cons in Hall as [(Hr1 & Hr2 & Hi) Hall]. cbn [fmap list_fmap app run_entry fst snd] in *.
    apply wp_bind. eapply wp_load_pair; rewrite ?Hb.
    + by apply Hs, nth_lookup_frame; lia.
    + replace (8 * Z.of_nat i + 8) with (8 * Z.of_nat (S i)) by lia. by apply Hs, nth_lookup_frame.
    + apply (IH Hall); [|done|].
      * cbn. by rewrite !decide_False.
      * by replace (length l + S pc)%nat with (S (length l) + pc)%nat by lia.
Qed.

Lemma entry_move dst src rest pc Q c :
  wp (run rest (S pc)) Q (with_regs (fun r => if decide (r = dst) then cpu_regs c src else cpu_regs c r) c) ->
  wp (run (Plain (Move dst src) :: rest) pc) Q c.
Proof. done. Qed.
Lemma entry_add dst src imm rest pc Q c :
  wp (run rest (S pc)) Q (with_regs (fun r => if decide (r = dst) then wrapping_add 64 (cpu_regs c src) imm else cpu_regs c r) c) ->
  wp (run (AddImm dst src imm :: rest) pc) Q c.
Proof. done. Qed.
Lemma entry_call link rest pc Q c :
  wp handler (fun _ c' => wp (run rest (S pc)) Q c')
    (with_regs (fun r => if decide (r = link) then address (S pc) else cpu_regs c r) c) ->
  wp (run (CallHandler link :: rest) pc) Q c.
Proof. intros HQ. cbn [run_entry]. apply wp_bind, wp_modify, wp_bind. exact HQ. Qed.
Lemma entry_return r rest pc Q c : Q (cpu_regs c r) c -> wp (run (ExceptionReturn r :: rest) pc) Q c.
Proof. done. Qed.
End Blocks.

(** The block at the head of the program is the one for the list [l]. *)
Ltac entry_block f l :=
  match goal with
  | |- wp (run_entry ?h ?a ?p ?pc) ?Q ?c =>
      let n := eval vm_compute in (length l) in
      let rest := eval cbn [drop] in (drop n p) in
      change (wp (run_entry h a ((f <$> l) ++ rest) pc) Q c)
  end.
Ltac store_pairs base l :=
  entry_block (fun p : _ * _ * nat => Plain (StorePair p.1.1 p.1.2 base (8 * Z.of_nat p.2))) l; eapply entry_store_pairs.
Ltac load_pairs base l :=
  entry_block (fun p : _ * _ * nat => Plain (LoadPair p.1.1 p.1.2 base (8 * Z.of_nat p.2))) l; eapply entry_load_pairs.
Ltac stores base l :=
  entry_block (fun p : _ * nat => Plain (Store p.1 base (8 * Z.of_nat p.2))) l; eapply entry_stores.
Ltac loads base l :=
  entry_block (fun p : _ * nat => Plain (Load p.1 base (8 * Z.of_nat p.2))) l; eapply entry_loads.

(** The words of a block lie in the frame. *)
Ltac in_frame :=
  repeat first [apply List.Forall_nil|apply List.Forall_cons]; vm_compute; repeat split; (discriminate || lia).

(** A list of known length, as its elements. *)
Ltac list_elements ws H := repeat (destruct ws as [|? ws]; [discriminate H|]); destruct ws as [|? ws]; [|discriminate H].

Module Arm64EntryProofs.
Import Arm64Entry.

(** The IRQ vectors, the second of each group of four, lead to the IRQ entry. *)
Lemma trap_vectors_irq i : trap_vectors !! i = Some KernelIrqEntry <-> (i < 16 /\ i mod 4 = 1)%nat.
Proof. do 16 (destruct i as [|i]; [cbn; intuition (discriminate || lia)|]). cbn [lookup list_lookup trap_vectors]. split; [done|lia]. Qed.

Section Irq.
Context (handler : M (Cpu Reg) unit) (address : nat -> Z).

(** What the procedure call standard asks of a handler: it returns, keeps the
    stack pointer and [x19] to [x29], and leaves the frame of its caller. *)
Definition aapcs64 (frame_words : nat) : Prop := forall c ws,
  length ws = frame_words -> stored (cpu_mem c) (cpu_regs c Sp) ws ->
  wp handler (fun _ c' => cpu_regs c' Sp = cpu_regs c Sp /\
    (forall n, (19 <= n <= 29)%nat -> cpu_regs c' (X n) = cpu_regs c (X n)) /\
    stored (cpu_mem c') (cpu_regs c Sp) ws) c.

(** (C33) The IRQ entry on ARM64 is invisible to the code it interrupts: with stack
    space for a frame and a handler that follows the procedure call standard, it
    calls the handler once, on memory that differs from the interrupted memory
    in the frame below the stack only, leaves the memory as the handler left it,
    and returns to the interrupted instruction with the saved program status and
    every general register and the stack pointer as they were. *)
Theorem arm64_irq_transparent c ws :
  aapcs64 22 -> Arm64IrqFrame_SIZE <= cpu_regs c Sp < 2 ^ 64 ->
  stored (cpu_mem c) (cpu_regs c Sp - Arm64IrqFrame_SIZE) ws -> length ws = 22%nat ->
  wp (run_entry handler address save_irq_frame 0) (fun pc c' =>
    (exists c1 c2, handler c1 = Done (tt, c2) /\ cpu_mem c' = cpu_mem c2 /\
       same_outside (cpu_regs c Sp - Arm64IrqFrame_SIZE) 22 (cpu_mem c) (cpu_mem c1)) /\
    pc = cpu_regs c ELR_EL1 /\
    forall r, r = Sp \/ r = ELR_EL1 \/ r = SPSR_EL1 \/ (exists n, (n <= 30)%nat /\ r = X n) ->
      cpu_regs c' r = cpu_regs c r) c.
Proof.
  intros Habi Hsp Hws Hlen. change Arm64IrqFrame_SIZE with 176 in *. unfold save_irq_frame.
  set (b := cpu_regs c Sp - 176) in *.
  assert (wrapping_add 64 (cpu_regs c Sp) (-176) = b) as Hb by (unfold wrapping_add; rewrite Z.mod_small; lia).
  assert (wrapping_add 64 b 176 = cpu_regs c Sp) as Hb' by (unfold wrapping_add; rewrite Z.mod_small; lia).
  list_elements ws Hlen. apply entry_add. change (- Arm64IrqFrame_SIZE) with (-176). rewrite Hb.
  store_pairs Sp [(X 0, X 1, 0%nat); (X 2, X 3, 2%nat); (X 4, X 5, 4%nat); (X 6, X 7, 6%nat); (X 8, X 9, 8%nat);
    (X 10, X 11, 10%nat); (X 12, X 13, 12%nat); (X 14, X 15, 14%nat); (X 16, X 17, 16%nat); (X 18, X 30, 18%nat)];
    [reflexivity|exact Hws|in_frame|].
  intros m Hm Hout. cbn [with_regs cpu_regs cpu_mem] in Hout. do 2 apply entry_move.
  store_pairs Sp [(X 0, X 1, 20%nat)]; [reflexivity|exact Hm|in_frame|].
  intros m2 Hm2 Hout2. cbn [with_regs with_mem cpu_mem] in Hout2. apply entry_call.
  match goal with |- wp handler _ ?s => set (c1 := s) end.
  set (frame := map (fun n => cpu_regs c (X n)) (seq 0 19) ++ [cpu_regs c (X 30); cpu_regs c ELR_EL1; cpu_regs c SPSR_EL1]).
  assert (stored (cpu_mem c1) (cpu_regs c1 Sp) frame) as Hframe by exact Hm2.
  destruct (proj1 (wp_unfold _ _ _) (Habi c1 frame eq_refl Hframe)) as ([] & c2 & Hrun & Hsp2 & Hcs & Hfr).
  eapply wp_run; [exact Hrun|]. cbn beta.
  load_pairs Sp [(X 0, X 1, 20%nat)]; [reflexivity|rewrite Hsp2; exact Hfr|in_frame|].
  do 2 apply entry_move.
  load_pairs Sp [(X 2, X 3, 2%nat); (X 4, X 5, 4%nat); (X 6, X 7, 6%nat); (X 8, X 9, 8%nat);
    (X 10, X 11, 10%nat); (X 12, X 13, 12%nat); (X 14, X 15, 14%nat); (X 16, X 17, 16%nat); (X 18, X 30, 18%nat); (X 0, X 1, 0%nat)];
    [reflexivity|cbn; rewrite Hsp2; exact Hfr|in_frame|].
  apply entry_add, entry_return. split; [exists c1, c2; split_and!; [done|done|]|split; [done|]].
  - intros a Ha. cbn. etrans; [apply (Hout2 a); exact Ha|]. apply (Hout a). exact Ha.
  - intros r [->|[->|[->|(n & Hn & ->)]]].
    + cbn. by rewrite Hsp2.
    + done.
    + done.
    + destruct (decide (19 <= n <= 29)%nat) as [Hcal|].
      * pose proof (Hcs n Hcal) as Heq. clear Hcs Hn.
        do 30 (destruct n as [|n]; [first [lia|exact Heq]|]). lia.
      * do 31 (destruct n as [|n]; [first [reflexivity|lia]|]). lia.
Qed.
End Irq.
Section Trap.
Context (handler : M (Cpu Reg) unit) (address : nat -> Z).

(** The frame of the interrupted code. *)
Definition trap_frame (c : Cpu Reg) : Arm64TrapFrame := {|
  arm64_regs := map (fun n => cpu_regs c (X n)) (seq 0 31);
  arm64_sp_saved := cpu_regs c Sp; arm64_elr := cpu_regs c ELR_EL1; arm64_spsr := cpu_regs c SPSR_EL1;
  arm64_esr := cpu_regs c ESR_EL1; arm64_far := cpu_regs c FAR_EL1 |}.

(** A handler that gets a pointer to the frame in [x0], returns, keeps the stack
    pointer and changes the frame as [K] says. *)
Definition updates_frame (K : Arm64TrapFrame -> Arm64TrapFrame -> Prop) : Prop := forall c f,
  cpu_regs c (X 0) = cpu_regs c Sp -> length (arm64_regs f) = 31%nat ->
  stored (cpu_mem c) (cpu_regs c Sp) (arm64_words f) ->
  wp handler (fun _ c' => cpu_regs c' Sp = cpu_regs c Sp /\
    exists f', K f f' /\ length (arm64_regs f') = 31%nat /\ stored (cpu_mem c') (cpu_regs c Sp) (arm64_words f')) c.

(** The synchronous entry on ARM64 hands its handler a [TrapFrame] that holds
    the interrupted registers, stack pointer, return address, status, syndrome
    and fault address, and resumes with the registers, the return address and
    the status of the frame as the handler left it, on the interrupted stack. *)
Theorem arm64_trap_resumes_frame K c ws :
  updates_frame K -> TrapFrame_SIZE <= cpu_regs c Sp < 2 ^ 64 ->
  stored (cpu_mem c) (cpu_regs c Sp - TrapFrame_SIZE) ws -> length ws = 36%nat ->
  wp (run_entry handler address save_trap_frame 0) (fun pc c' => exists f, K (trap_frame c) f /\
    pc = arm64_elr f /\ cpu_regs c' SPSR_EL1 = arm64_spsr f /\ cpu_regs c' Sp = cpu_regs c Sp /\
    forall n, (n <= 30)%nat -> arm64_regs f !! n = Some (cpu_regs c' (X n))) c.
Proof.
  intros HK Hsp Hws Hlen. change TrapFrame_SIZE with 288 in *. unfold save_trap_frame.
  set (b := cpu_regs c Sp - 288) in *.
  assert (wrapping_add 64 (cpu_regs c Sp) (-288) = b) as Hb by (unfold wrapping_add; rewrite Z.mod_small; lia).
  assert (wrapping_add 64 b 288 = cpu_regs c Sp) as Hb' by (unfold wrapping_add; rewrite Z.mod_small; lia).
  list_elements ws Hlen. apply entry_add. change (- TrapFrame_SIZE) with (-288). rewrite Hb.
  store_pairs Sp [(X 0, X 1, 0%nat); (X 2, X 3, 2%nat); (X 4, X 5, 4%nat); (X 6, X 7, 6%nat); (X 8, X 9, 8%nat);
    (X 10, X 11, 10%nat); (X 12, X 13, 12%nat); (X 14, X 15, 14%nat); (X 16, X 17, 16%nat); (X 18, X 19, 18%nat);
    (X 20, X 21, 20%nat); (X 22, X 23, 22%nat); (X 24, X 25, 24%nat); (X 26, X 27, 26%nat); (X 28, X 29, 28%nat)];
    [reflexivity|exact Hws|in_frame|].
  intros m1 Hm1 _. apply entry_add.
  store_pairs Sp [(X 30, X 0, 30%nat)]; [reflexivity|exact Hm1|in_frame|]. intros m2 Hm2 _. do 2 apply entry_move.
  store_pairs Sp [(X 0, X 1, 32%nat)]; [reflexivity|exact Hm2|in_frame|]. intros m3 Hm3 _. do 2 apply entry_move.
  store_pairs Sp [(X 0, X 1, 34%nat)]; [reflexivity|exact Hm3|in_frame|]. intros m4 Hm4 _. apply entry_move, entry_call.
  match goal with |- wp handler _ ?s => set (c1 := s) end.
  assert (stored (cpu_mem c1) (cpu_regs c1 Sp) (arm64_words (trap_frame c))) as Hframe
    by (unfold trap_frame; rewrite <-Hb'; exact Hm4).
  eapply wp_mono; [exact (HK c1 (trap_frame c) eq_refl eq_refl Hframe)|]. intros [] c2 (Hsp2 & f & HKf & Hlf & Hfr).
  destruct f as [regs sps elr spsr esr far]. cbn [arm64_regs] in Hlf. list_elements regs Hlf.
  load_pairs Sp [(X 0, X 1, 32%nat)]; [reflexivity|rewrite Hsp2; exact Hfr|in_frame|]. do 2 apply entry_move.
  load_pairs Sp [(X 2, X 3, 2%nat); (X 4, X 5, 4%nat); (X 6, X 7, 6%nat); (X 8, X 9, 8%nat);
    (X 10, X 11, 10%nat); (X 12, X 13, 12%nat); (X 14, X 15, 14%nat); (X 16, X 17, 16%nat); (X 18, X 19, 18%nat);
    (X 20, X 21, 20%nat); (X 22, X 23, 22%nat); (X 24, X 25, 24%nat); (X 26, X 27, 26%nat); (X 28, X 29, 28%nat)];
    [reflexivity|cbn; rewrite Hsp2; exact Hfr|in_frame|].
  loads Sp [(X 30, 30%nat)]; [reflexivity|cbn; rewrite Hsp2; exact Hfr|in_frame|].
  load_pairs Sp [(X 0, X 1, 0%nat)]; [reflexivity|cbn; rewrite Hsp2; exact Hfr|in_frame|].
  apply entry_add, entry_return. eexists. split; [exact HKf|]. split_and!; [done|done|cbn; by rewrite Hsp2|].
  intros n Hn. do 31 (destruct n as [|n]; [reflexivity|]). lia.
Qed.
End Trap.
End Arm64EntryProofs.

Module Riscv64EntryProofs.
Import Riscv64Entry.

(** Only the supervisor timer interrupt takes the fast entry. *)
Lemma trap_vector_fast i : length trap_vector = 256%nat /\ (trap_vector !! i = Some KernelFastIrqEntry <-> i = 5%nat).
Proof.
  split; [done|]. unfold trap_vector. do 6 (destruct i as [|i]; [cbn; intuition discriminate|]).
  change (replicate 250 KernelTrapEntry !! i = Some KernelFastIrqEntry <-> S (S (S (S (S (S i))))) = 5%nat).
  rewrite lookup_replicate. intuition (discriminate || lia).
Qed.

Section Irq.
Context (handler : M (Cpu Reg) unit) (address : nat -> Z).

(** The registers that a function of the RISC-V calling convention keeps: the
    stack, global and thread pointers and [s0] to [s11]. *)
Definition riscv_saved (n : nat) : bool :=
  match n with
  | 2 | 3 | 4 | 8 | 9 | 18 | 19 | 20 | 21 | 22 | 23 | 24 | 25 | 26 | 27 => true
  | _ => false
  end%nat.

(** A handler that follows the convention returns, keeps those registers and
    leaves the frame of its caller. *)
Definition riscv_abi (frame_words : nat) : Prop := forall c ws,
  length ws = frame_words -> stored (cpu_mem c) (cpu_regs c sp) ws ->
  wp handler (fun _ c' => (forall n, riscv_saved n = true -> cpu_regs c' (X n) = cpu_regs c (X n)) /\
    stored (cpu_mem c') (cpu_regs c sp) ws) c.

(** (C34) The timer interrupt entry on RISC-V is invisible to the code it
    interrupts: with stack space for a frame and a handler that follows the
    calling convention, it calls the handler once, on memory that differs from
    the interrupted memory in the frame below the stack only, leaves the memory
    as the handler left it, and returns to the interrupted instruction with the
    saved status and the registers [x1] to [x31] as they were. *)
Theorem riscv_irq_transparent c ws :
  riscv_abi 18 -> Riscv64IrqFrame_SIZE <= cpu_regs c sp < 2 ^ 64 ->
  stored (cpu_mem c) (cpu_regs c sp - Riscv64IrqFrame_SIZE) ws -> length ws = 18%nat ->
  wp (run_entry handler address kernel_fast_irq_entry 0) (fun pc c' =>
    (exists c1 c2, handler c1 = Done (tt, c2) /\ cpu_mem c' = cpu_mem c2 /\
       same_outside (cpu_regs c sp - Riscv64IrqFrame_SIZE) 18 (cpu_mem c) (cpu_mem c1)) /\
    pc = cpu_regs c Sepc /\
    forall r, r = Sepc \/ r = Sstatus \/ (exists n, (1 <= n <= 31)%nat /\ r = X n) -> cpu_regs c' r = cpu_regs c r) c.
Proof.
  intros Habi Hsp Hws Hlen. change Riscv64IrqFrame_SIZE with 144 in *. unfold kernel_fast_irq_entry.
  set (b := cpu_regs c sp - 144) in *.
  assert (wrapping_add 64 (cpu_regs c sp) (-144) = b) as Hb by (unfold wrapping_add; rewrite Z.mod_small; lia).
  assert (wrapping_add 64 b 144 = cpu_regs c sp) as Hb' by (unfold wrapping_add; rewrite Z.mod_small; lia).
  list_elements ws Hlen. apply entry_add. change IRQ_FRAME_SIZE_NEGATIVE with (-144). rewrite Hb.
  stores sp [(X 1, 0%nat); (X 5, 1%nat); (X 6, 2%nat); (X 7, 3%nat); (X 10, 4%nat); (X 11, 5%nat); (X 12, 6%nat);
    (X 13, 7%nat); (X 14, 8%nat); (X 15, 9%nat); (X 16, 10%nat); (X 17, 11%nat); (X 28, 12%nat); (X 29, 13%nat);
    (X 30, 14%nat); (X 31, 15%nat)]; [reflexivity|exact Hws|in_frame|].
  intros m1 Hm1 Ho1. cbn [with_regs cpu_mem] in Ho1. apply entry_move.
  stores sp [(X 5, 16%nat)]; [reflexivity|exact Hm1|in_frame|].
  intros m2 Hm2 Ho2. cbn [with_regs with_mem cpu_mem] in Ho2. apply entry_move.
  stores sp [(X 5, 17%nat)]; [reflexivity|exact Hm2|in_frame|].
  intros m3 Hm3 Ho3. cbn [with_regs with_mem cpu_mem] in Ho3. apply entry_call.
  match goal with |- wp handler _ ?s => set (c1 := s) end.
  set (frame := map (fun n => cpu_regs c (X n)) [1; 5; 6; 7; 10; 11; 12; 13; 14; 15; 16; 17; 28; 29; 30; 31]%nat
    ++ [cpu_regs c Sepc; cpu_regs c Sstatus]).
  assert (stored (cpu_mem c1) (cpu_regs c1 sp) frame) as Hframe by exact Hm3.
  destruct (proj1 (wp_unfold _ _ _) (Habi c1 frame eq_refl Hframe)) as ([] & c2 & Hrun & Hcs & Hfr).
  assert (cpu_regs c2 sp = cpu_regs c1 sp) as Hsp2 by (by apply Hcs).
  eapply wp_run; [exact Hrun|]. cbn beta.
  loads sp [(X 5, 16%nat)]; [reflexivity|rewrite Hsp2; exact Hfr|in_frame|]. apply entry_move.
  loads sp [(X 5, 17%nat)]; [reflexivity|cbn; rewrite Hsp2; exact Hfr|in_frame|]. apply entry_move.
  loads sp [(X 1, 0%nat); (X 5, 1%nat); (X 6, 2%nat); (X 7, 3%nat); (X 10, 4%nat); (X 11, 5%nat); (X 12, 6%nat);
    (X 13, 7%nat); (X 14, 8%nat); (X 15, 9%nat); (X 16, 10%nat); (X 17, 11%nat); (X 28, 12%nat); (X 29, 13%nat);
    (X 30, 14%nat); (X 31, 15%nat)]; [reflexivity|cbn; rewrite Hsp2; exact Hfr|in_frame|].
  apply entry_add, entry_return. split; [exists c1, c2; split_and!; [done|done|]|split; [done|]].
  - intros a Ha. cbn. etrans; [apply (Ho3 a); exact Ha|]. etrans; [apply (Ho2 a); exact Ha|]. apply (Ho1 a). exact Ha.
  - intros r [->|[->|(n & Hn & ->)]]; [done|done|].
    destruct (decide (n = 2%nat)) as [->|Hne]; [cbn; by rewrite Hsp2|].
    destruct (riscv_saved n) eqn:Hs.
    + pose proof (Hcs n Hs) as Heq. clear Hcs Hn.
      do 32 (destruct n as [|n]; [first [discriminate Hs|congruence|exact Heq]|]). discriminate Hs.
    + do 32 (destruct n as [|n]; [first [reflexivity|discriminate Hs|lia]|]). lia.
Qed.
End Irq.
Section Trap.
Context (handler : M (Cpu Reg) unit) (address : nat -> Z).

(** The frame of the interrupted code; the word of [x2] holds the frame's own
    address, the interrupted stack pointer is in [sp_saved]. *)
Definition trap_frame (c : Cpu Reg) : Riscv64TrapFrame := {|
  riscv64_regs := map (fun n => if (n =? 2)%nat then cpu_regs c sp - TrapFrame_SIZE else cpu_regs c (X n)) (seq 1 31);
  riscv64_sp_saved := cpu_regs c sp; riscv64_sepc := cpu_regs c Sepc; riscv64_sstatus := cpu_regs c Sstatus;
  riscv64_scause := cpu_regs c Scause; riscv64_stval := cpu_regs c Stval |}.

(** A handler that gets a pointer to the frame in [a0], returns, keeps the stack
    pointer and changes the frame as [K] says. *)
Definition updates_frame (K : Riscv64TrapFrame -> Riscv64TrapFrame -> Prop) : Prop := forall c f,
  cpu_regs c a0 = cpu_regs c sp -> length (riscv64_regs f) = 31%nat ->
  stored (cpu_mem c) (cpu_regs c sp) (riscv64_words f) ->
  wp handler (fun _ c' => cpu_regs c' sp = cpu_regs c sp /\
    exists f', K f f' /\ length (riscv64_regs f') = 31%nat /\ stored (cpu_mem c') (cpu_regs c sp) (riscv64_words f')) c.

(** The common entry on RISC-V hands its handler a [TrapFrame] from which
    [reg] reads the interrupted [x1] to [x31], with the interrupted program
    counter, status, cause and trap value, and resumes with the registers, the
    program counter and the status of the frame as the handler left it, on the
    interrupted stack. *)
Theorem riscv_trap_resumes_frame K c ws :
  updates_frame K -> TrapFrame_SIZE <= cpu_regs c sp < 2 ^ 64 ->
  stored (cpu_mem c) (cpu_regs c sp - TrapFrame_SIZE) ws -> length ws = 36%nat ->
  (forall n, (1 <= n <= 31)%nat -> riscv64_reg (Z.of_nat n) (trap_frame c) = Some (cpu_regs c (X n))) /\
  wp (run_entry handler address kernel_trap_entry 0) (fun pc c' => exists f, K (trap_frame c) f /\
    pc = riscv64_sepc f /\ cpu_regs c' Sstatus = riscv64_sstatus f /\ cpu_regs c' sp = cpu_regs c sp /\
    forall n, (1 <= n <= 31)%nat -> n <> 2%nat -> riscv64_reg (Z.of_nat n) f = Some (cpu_regs c' (X n))) c.
Proof.
  intros HK Hsp Hws Hlen. split; [intros n Hn; do 32 (destruct n as [|n]; [first [reflexivity|lia]|]); lia|].
  change TrapFrame_SIZE with 288 in *. unfold kernel_trap_entry. set (b := cpu_regs c sp - 288) in *.
  assert (wrapping_add 64 (cpu_regs c sp) (-288) = b) as Hb by (unfold wrapping_add; rewrite Z.mod_small; lia).
  assert (wrapping_add 64 b 288 = cpu_regs c sp) as Hb' by (unfold wrapping_add; rewrite Z.mod_small; lia).
  list_elements ws Hlen. apply entry_add. change FRAME_SIZE_NEGATIVE with (-288). rewrite Hb.
  stores sp [(X 1, 0%nat); (X 2, 1%nat); (X 3, 2%nat); (X 4, 3%nat); (X 5, 4%nat); (X 6, 5%nat); (X 7, 6%nat); (X 8, 7%nat);
    (X 9, 8%nat); (X 10, 9%nat); (X 11, 10%nat); (X 12, 11%nat); (X 13, 12%nat); (X 14, 13%nat); (X 15, 14%nat); (X 16, 15%nat);
    (X 17, 16%nat); (X 18, 17%nat); (X 19, 18%nat); (X 20, 19%nat); (X 21, 20%nat); (X 22, 21%nat); (X 23, 22%nat); (X 24, 23%nat);
    (X 25, 24%nat); (X 26, 25%nat); (X 27, 26%nat); (X 28, 27%nat); (X 29, 28%nat); (X 30, 29%nat); (X 31, 30%nat)];
    [reflexivity|exact Hws|in_frame|]. intros m0 Hm0 _. apply entry_add.
  stores sp [(X 5, 31%nat)]; [reflexivity|exact Hm0|in_frame|]. intros m1 Hm1 _. apply entry_move.
  stores sp [(X 5, 32%nat)]; [reflexivity|exact Hm1|in_frame|]. intros m2 Hm2 _. apply entry_move.
  stores sp [(X 5, 33%nat)]; [reflexivity|exact Hm2|in_frame|]. intros m3 Hm3 _. apply entry_move.
  stores sp [(X 5, 34%nat)]; [reflexivity|exact Hm3|in_frame|]. intros m4 Hm4 _. apply entry_move.
  stores sp [(X 5, 35%nat)]; [reflexivity|exact Hm4|in_frame|]. intros m5 Hm5 _. apply entry_move, entry_call.
  match goal with |- wp handler _ ?s => set (c1 := s) end.
  assert (stored (cpu_mem c1) (cpu_regs c1 sp) (riscv64_words (trap_frame c))) as Hframe.
  { exact (eq_ind _ (fun v => stored (cpu_mem c1) (cpu_regs c1 sp) (riscv64_regs (trap_frame c) ++
      [v; cpu_regs c Sepc; cpu_regs c Sstatus; cpu_regs c Scause; cpu_regs c Stval])) Hm5 _ Hb'). }
  eapply wp_mono; [exact (HK c1 (trap_frame c) eq_refl eq_refl Hframe)|]. intros [] c2 (Hsp2 & f & HKf & Hlf & Hfr).
  destruct f as [regs sps epc st cause tval]. cbn [riscv64_regs] in Hlf. list_elements regs Hlf.
  loads sp [(X 5, 32%nat)]; [reflexivity|rewrite Hsp2; exact Hfr|in_frame|]. apply entry_move.
  loads sp [(X 5, 33%nat)]; [reflexivity|cbn; rewrite Hsp2; exact Hfr|in_frame|]. apply entry_move.
  loads sp [(X 1, 0%nat); (X 3, 2%nat); (X 4, 3%nat); (X 6, 5%nat); (X 7, 6%nat); (X 8, 7%nat);
    (X 9, 8%nat); (X 10, 9%nat); (X 11, 10%nat); (X 12, 11%nat); (X 13, 12%nat); (X 14, 13%nat); (X 15, 14%nat); (X 16, 15%nat);
    (X 17, 16%nat); (X 18, 17%nat); (X 19, 18%nat); (X 20, 19%nat); (X 21, 20%nat); (X 22, 21%nat); (X 23, 22%nat); (X 24, 23%nat);
    (X 25, 24%nat); (X 26, 25%nat); (X 27, 26%nat); (X 28, 27%nat); (X 29, 28%nat); (X 30, 29%nat); (X 31, 30%nat); (X 5, 4%nat)];
    [reflexivity|cbn; rewrite Hsp2; exact Hfr|in_frame|].
  apply entry_add, entry_return. eexists. split; [exact HKf|]. split_and!; [done|done|cbn; by rewrite Hsp2|].
  intros n Hn Hne. do 32 (destruct n as [|n]; [first [reflexivity|lia|congruence]|]). lia.
Qed.
End Trap.
End Riscv64EntryProofs.

(** ** Interrupted code *)

Definition demo_stack (base : Z) (n : nat) : gmap Z Z :=
  list_to_map (map (fun i => (base + 8 * Z.of_nat i, 0)) (seq 0 n)).
Ltac demo_stored :=
  let i := fresh "i" in intros i ? Hi;
  do 36 (try (destruct i as [|i]; [injection Hi as <-; vm_compute; reflexivity|])); discriminate Hi.

Module Arm64EntryDemo.
Import Arm64Entry Arm64EntryProofs.

Definition arm64_demo_cpu : Cpu Reg := {|
  cpu_regs := fun r => match r with
    | X n => 100 + Z.of_nat n | Sp => 0x8000 | ELR_EL1 => 0x4000 | SPSR_EL1 => 5 | ESR_EL1 => 0 | FAR_EL1 => 0 end;
  cpu_irq := false; cpu_mem := demo_stack (0x8000 - 288) 36 |}.
Definition arm64_demo_address (pc : nat) : Z := 0x1000 + 4 * Z.of_nat pc.

(** A handler that overwrites what it may, its own stack included. *)
Definition arm64_clobber : M (Cpu Reg) unit := modify (fun c => {|
  cpu_regs := fun r => match r with
    | X n => if (19 <=? n)%nat && (n <=? 29)%nat then cpu_regs c (X n) else 0xdead
    | Sp => cpu_regs c Sp | _ => 0xdead end;
  cpu_irq := cpu_irq c; cpu_mem := <[cpu_regs c Sp - 8 := 0xdead]> (cpu_mem c) |}).
Lemma arm64_clobber_abi : aapcs64 arm64_clobber 22.
Proof.
  intros c ws _ Hws. apply wp_modify. cbn [cpu_regs cpu_mem]. split; [done|]. split.
  - intros n Hn. by rewrite (proj2 (Nat.leb_le 19 n)), (proj2 (Nat.leb_le n 29)) by lia.
  - apply stored_insert_ne; [lia|exact Hws].
Qed.

(** A handler that sets the return value of a system call. *)
Definition arm64_return_seven : M (Cpu Reg) unit :=
  let! frame := gets (fun c => cpu_regs c (X 0)) in
  modify (fun c => {| cpu_regs := cpu_regs c; cpu_irq := cpu_irq c; cpu_mem := <[frame + 0 := 7]> (cpu_mem c) |}).
Lemma arm64_return_seven_updates : updates_frame arm64_return_seven (fun f f' => f' = arm64_set_syscall_return 7 f).
Proof.
  intros c f Hx Hlen Hws. apply wp_bind, wp_gets, wp_modify. cbn. split; [done|]. eexists. split; [done|]. split.
  - cbn. by rewrite length_insert.
  - rewrite Hx. unfold arm64_words. cbn [arm64_regs arm64_set_syscall_return arm64_sp_saved arm64_elr arm64_spsr arm64_esr arm64_far].
    rewrite <-insert_app_l by lia. by apply stored_insert.
Qed.

Lemma arm64_irq_transparent_witness :
  exists pc c', run_entry arm64_clobber arm64_demo_address save_irq_frame 0 arm64_demo_cpu = Done (pc, c') /\
    pc = 0x4000 /\ cpu_regs c' (X 5) = 105 /\ cpu_regs c' (X 30) = 130.
Proof.
  assert (stored (cpu_mem arm64_demo_cpu) (cpu_regs arm64_demo_cpu Sp - Arm64IrqFrame_SIZE) (replicate 22 0)) as Hws by demo_stored.
  destruct (proj1 (wp_unfold _ _ _) (arm64_irq_transparent arm64_clobber arm64_demo_address arm64_demo_cpu (replicate 22 0)
    arm64_clobber_abi ltac:(vm_compute; split; congruence) Hws eq_refl)) as (pc & c' & Hrun & _ & Hpc & Hregs).
  exists pc, c'. split_and!; [exact Hrun|exact Hpc|..].
  - apply (Hregs (X 5)). right. right. right. exists 5%nat. split; [lia|reflexivity].
  - apply (Hregs (X 30)). right. right. right. exists 30%nat. split; [lia|reflexivity].
Defined.

Lemma arm64_trap_resumes_frame_witness :
  exists pc c', run_entry arm64_return_seven arm64_demo_address save_trap_frame 0 arm64_demo_cpu = Done (pc, c') /\
    pc = 0x4000 /\ Some (cpu_regs c' (X 0)) = Some 7 /\ Some (cpu_regs c' (X 1)) = Some 101.
Proof.
  assert (stored (cpu_mem arm64_demo_cpu) (cpu_regs arm64_demo_cpu Sp - TrapFrame_SIZE) (replicate 36 0)) as Hws by demo_stored.
  destruct (proj1 (wp_unfold _ _ _) (arm64_trap_resumes_frame arm64_return_seven arm64_demo_address _ arm64_demo_cpu (replicate 36 0)
    arm64_return_seven_updates ltac:(vm_compute; split; congruence) Hws eq_refl)) as (pc & c' & Hrun & f & -> & Hpc & _ & _ & Hregs).
  exists pc, c'. split_and!; [exact Hrun|exact Hpc|..].
  - rewrite <-(Hregs 0%nat ltac:(lia)). reflexivity.
  - rewrite <-(Hregs 1%nat ltac:(lia)). reflexivity.
Defined.
End Arm64EntryDemo.

Module Riscv64EntryDemo.
Import Riscv64Entry Riscv64EntryProofs.

Definition riscv_demo_cpu : Cpu Reg := {|
  cpu_regs := fun r => match r with
    | X n => if (n =? 2)%nat then 0x8000 else 100 + Z.of_nat n
    | Sepc => 0x4000 | Sstatus => 0x120 | Scause => 5 | Stval => 0 end;
  cpu_irq := false; cpu_mem := demo_stack (0x8000 - 288) 36 |}.
Definition riscv_demo_address (pc : nat) : Z := 0x1000 + 4 * Z.of_nat pc.

Definition riscv_clobber : M (Cpu Reg) unit := modify (fun c => {|
  cpu_regs := fun r => match r with X n => if riscv_saved n then cpu_regs c (X n) else 0xdead | _ => 0xdead end;
  cpu_irq := cpu_irq c; cpu_mem := <[cpu_regs c sp - 8 := 0xdead]> (cpu_mem c) |}).
Lemma riscv_clobber_abi : riscv_abi riscv_clobber 18.
Proof.
  intros c ws _ Hws. apply wp_modify. cbn. split; [by intros n ->|]. apply stored_insert_ne; [lia|exact Hws].
Qed.

Definition riscv_return_seven : M (Cpu Reg) unit :=
  let! frame := gets (fun c => cpu_regs c a0) in
  modify (fun c => {| cpu_regs := cpu_regs c; cpu_irq := cpu_irq c; cpu_mem := <[frame + 72 := 7]> (cpu_mem c) |}).
Lemma riscv_return_seven_updates : updates_frame riscv_return_seven (fun f f' => f' = riscv64_set_syscall_return 7 f).
Proof.
  intros c f Hx Hlen Hws. apply wp_bind, wp_gets, wp_modify. cbn. split; [done|]. eexists. split; [done|]. split.
  - cbn. by rewrite length_insert.
  - rewrite Hx. unfold riscv64_words.
    cbn [riscv64_regs riscv64_set_syscall_return riscv64_sp_saved riscv64_sepc riscv64_sstatus riscv64_scause riscv64_stval].
    rewrite <-insert_app_l by lia. by apply stored_insert.
Qed.

Lemma riscv_irq_transparent_witness :
  exists pc c', run_entry riscv_clobber riscv_demo_address kernel_fast_irq_entry 0 riscv_demo_cpu = Done (pc, c') /\
    pc = 0x4000 /\ cpu_regs c' (X 1) = 101 /\ cpu_regs c' (X 31) = 131.
Proof.
  assert (stored (cpu_mem riscv_demo_cpu) (cpu_regs riscv_demo_cpu sp - Riscv64IrqFrame_SIZE) (replicate 18 0)) as Hws by demo_stored.
  destruct (proj1 (wp_unfold _ _ _) (riscv_irq_transparent riscv_clobber riscv_demo_address riscv_demo_cpu (replicate 18 0)
    riscv_clobber_abi ltac:(vm_compute; split; congruence) Hws eq_refl)) as (pc & c' & Hrun & _ & Hpc & Hregs).
  exists pc, c'. split_and!; [exact Hrun|exact Hpc|..].
  - apply (Hregs (X 1)). right. right. exists 1%nat. split; [lia|reflexivity].
  - apply (Hregs (X 31)). right. right. exists 31%nat. split; [lia|reflexivity].
Defined.

Lemma riscv_trap_resumes_frame_witness :
  exists pc c', run_entry riscv_return_seven riscv_demo_address kernel_trap_entry 0 riscv_demo_cpu = Done (pc, c') /\
    pc = 0x4000 /\ Some (cpu_regs c' (X 10)) = Some 7 /\ Some (cpu_regs c' (X 5)) = Some 105.
Proof.
  assert (stored (cpu_mem riscv_demo_cpu) (cpu_regs riscv_demo_cpu sp - TrapFrame_SIZE) (replicate 36 0)) as Hws by demo_stored.
  destruct (proj1 (wp_unfold _ _ _) (proj2 (riscv_trap_resumes_frame riscv_return_seven riscv_demo_address _ riscv_demo_cpu (replicate 36 0)
    riscv_return_seven_updates ltac:(vm_compute; split; congruence) Hws eq_refl))) as (pc & c' & Hrun & f & -> & Hpc & _ & _ & Hregs).
  exists pc, c'. split_and!; [exact Hrun|exact Hpc|..].
  - rewrite <-(Hregs 10%nat ltac:(lia) ltac:(lia)). reflexivity.
  - rewrite <-(Hregs 5%nat ltac:(lia) ltac:(lia)). reflexivity.
Defined.
End Riscv64EntryDemo.
