(* ===== verification/Trace.v ===== *)
(** * The trace ring

    Models [trace/mod.rs]: a ring of the last [N] scheduler events, [N] a power
    of two. *)

From S2P Require Import Prelude.
From stdpp Require Import base tactics option list list_numbers numbers strings.

#[local] Open Scope Z_scope.
#[local] Open Scope kernel_scope.

Definition TRACE_EVENTS : nat := 128.

Inductive TraceKind :=
  | SchedSwitch | SchedEnqueue | SchedDequeue | SchedTick | SchedBlock | SchedWake | SchedYield
  | SchedExit | SchedPreempt.

Record TraceEvent := {
  event_kind : TraceKind;
  event_subject : Z;
  event_object : Z;
  event_value : Z;
}.
Definition TraceEvent_EMPTY : TraceEvent :=
  {| event_kind := SchedTick; event_subject := 0; event_object := 0; event_value := 0 |}.

Record Ring := {
  events : list TraceEvent;
  cursor : Z;
  ring_len : Z;
}.

Definition Ring_new (N : nat) : Ring :=
  {| events := replicate N TraceEvent_EMPTY; cursor := 0; ring_len := 0 |}.

(** [events[cursor] = event] panics out of bounds; [N] is the array's length. *)
Definition emit (event : TraceEvent) : M Ring unit :=
  let! r := gets id in
  let N := Z.of_nat (length (events r)) in
  if cursor r <? N then
    let! next := add_uint 64 (cursor r) 1 in
    let! len := add_uint 64 (ring_len r) 1 in
    modify (fun r => {|
      events := <[Z.to_nat (cursor r) := event]> (events r);
      cursor := Z.land next (N - 1);
      ring_len := Z.min len N |})
  else panic "index out of bounds".

Definition Ring_is_empty (r : Ring) : bool := ring_len r =? 0.

(** ** The ring as a history *)

(** The [j]-th latest event. *)
Definition latest (r : Ring) (j : nat) : option TraceEvent :=
  let N := Z.of_nat (length (events r)) in
  events r !! Z.to_nat ((cursor r - 1 - Z.of_nat j) mod N).

(** [r] has recorded [history], oldest event first. *)
Record records (k : Z) (history : list TraceEvent) (r : Ring) : Prop := {
  rec_bits : 0 <= k < 32;
  rec_size : Z.of_nat (length (events r)) = 2 ^ k;
  rec_cursor : cursor r = Z.of_nat (length history) mod 2 ^ k;
  rec_len : ring_len r = Z.min (Z.of_nat (length history)) (2 ^ k);
  rec_events i :
    Z.of_nat (length history) - 2 ^ k <= Z.of_nat i -> (i < length history)%nat ->
    events r !! Z.to_nat (Z.of_nat i mod 2 ^ k) = history !! i;
}.

(** Within a window of [N] the residues are distinct. *)
Lemma mod_window_ne n i N : 0 < N -> n - N < i < n -> Z.to_nat (n mod N) <> Z.to_nat (i mod N).
Proof.
  intros HN Hw Heq. pose proof (Z.mod_pos_bound n N HN). pose proof (Z.mod_pos_bound i N HN).
  apply Z2Nat.inj in Heq; [|lia..]. pose proof (Z.div_mod n N). pose proof (Z.div_mod i N).
  assert (n - i = N * (n / N - i / N)) as Hd by lia.
  destruct (Z.le_gt_cases (n / N - i / N) 0); nia.
Qed.

Lemma records_new k : 0 <= k < 32 -> records k [] (Ring_new (Z.to_nat (2 ^ k))).
Proof.
  intros Hk. assert (0 < 2 ^ k) by (apply Z.pow_pos_nonneg; lia).
  split; simpl; [done|rewrite length_replicate; lia|by rewrite Z.mod_small by lia|lia|lia].
Qed.

Lemma records_emit k history r event :
  records k history r ->
  wp (emit event) (fun _ r' => records k (history ++ [event]) r') r.
Proof.
  intros [Hk Hn Hc Hl Hev]. set (n := Z.of_nat (length history)) in *. set (N := 2 ^ k) in *.
  assert (0 < N) as HN by (apply Z.pow_pos_nonneg; lia).
  assert (N <= 2 ^ 31) as HN31 by (apply Z.pow_le_mono_r; lia).
  pose proof (Z.mod_pos_bound n N HN) as Hb.
  unfold emit. apply wp_bind, wp_gets. change (id r) with r. cbv zeta.
  rewrite Hn, Hc, (proj2 (Z.ltb_lt _ _)) by lia.
  apply wp_bind, wp_add_uint; [lia|]. apply wp_bind, wp_add_uint; [lia|]. apply wp_modify.
  assert (Z.of_nat (length (history ++ [event])) = n + 1) as Hlen by (rewrite length_app; simpl; lia).
  split; simpl events; simpl cursor; simpl ring_len; rewrite ?Hlen; [done|by rewrite length_insert|..].
  - rewrite (land_mask k) by lia. fold N. rewrite Zplus_mod_idemp_l. done.
  - rewrite Hl. lia.
  - intros i Hlo Hi. rewrite length_app in Hi. simpl in Hi. rewrite Hc. fold N. fold N in Hlo.
    destruct (decide (Z.of_nat i = n)) as [He|Hne].
    + rewrite He, list_lookup_insert_eq by lia. symmetry. apply list_lookup_middle. lia.
    + rewrite list_lookup_insert_ne by (by apply (mod_window_ne n _ N); lia).
      rewrite lookup_app_l by lia. apply Hev; lia.
Qed.

Fixpoint emit_all (es : list TraceEvent) : M Ring unit :=
  match es with
  | [] => ret tt
  | e :: es => emit e ;;; emit_all es
  end.

Lemma records_emit_all k es : forall history r,
  records k history r -> wp (emit_all es) (fun _ r' => records k (history ++ es) r') r.
Proof.
  induction es as [|e es IH]; intros history r Hr; cbn [emit_all].
  - apply wp_ret. by rewrite app_nil_r.
  - apply wp_bind. eapply wp_mono; [exact (records_emit k history r e Hr)|]. intros ? r1 Hr1.
    eapply wp_mono; [exact (IH _ _ Hr1)|]. intros ? r2. by rewrite <-app_assoc.
Qed.

(** A ring of a power-of-two size records any sequence of events without a
    panic: its length is the number of events up to its size, and the [j]-th
    latest place holds the [j]-th latest event. *)
Theorem ring_keeps_latest (k : Z) (es : list TraceEvent) :
  0 <= k < 32 ->
  exists r, emit_all es (Ring_new (Z.to_nat (2 ^ k))) = Done (tt, r) /\
    ring_len r = Z.min (Z.of_nat (length es)) (2 ^ k) /\
    forall j, Z.of_nat j < ring_len r -> latest r j = es !! (length es - 1 - j)%nat.
Proof.
  intros Hk. destruct (proj1 (wp_unfold _ _ _) (records_emit_all k es [] _ (records_new k Hk)))
    as ([] & r & Hrun & [_ Hn Hc Hl Hev]). exists r. split_and!; [done|done|].
  intros j Hj. simpl app in *. unfold latest. rewrite Hn, Hc.
  replace ((Z.of_nat (length es) mod 2 ^ k - 1 - Z.of_nat j) mod 2 ^ k)
    with (Z.of_nat (length es - 1 - j) mod 2 ^ k).
  - apply Hev; lia.
  - replace (Z.of_nat (length es) mod 2 ^ k - 1 - Z.of_nat j)
      with (Z.of_nat (length es) mod 2 ^ k - (1 + Z.of_nat j)) by lia.
    rewrite Zminus_mod_idemp_l. f_equal. lia.
Qed.

Lemma ring_keeps_latest_witness :
  exists r, emit_all (replicate 200 TraceEvent_EMPTY) (Ring_new (Z.to_nat (2 ^ 7))) = Done (tt, r) /\
    ring_len r = 128.
Proof.
  destruct (ring_keeps_latest 7 (replicate 200 TraceEvent_EMPTY) ltac:(lia)) as (r & Hrun & Hl & _).
  exists r. split; [exact Hrun|]. rewrite Hl. reflexivity.
Defined.
