(* ===== verification/KernelStack.v ===== *)
(** * Kernel stacks

    Models [KernelStack] of [task/mod.rs]: a stack is a run of two physical
    pages mapped in a slot of the kernel stack region above an unmapped guard
    page.  The page-table operations are arguments, as in the code. *)

From S2P Require Import Prelude Address HwInfo Pmm PmmReserved PmmFreeList PmmAlloc PmmInit PmmClients PmmTheorems.
From stdpp Require Import base tactics option list list_numbers numbers gmap strings.

#[local] Open Scope Z_scope.
#[local] Open Scope kernel_scope.

Definition KERNEL_STACK_SIZE : Z := PAGE_SIZE * 2.
Definition KERNEL_STACK_PAGES : Z := KERNEL_STACK_SIZE / PAGE_SIZE.
Definition PAGE_ALIGNMENT_LOG2 : Z := 12.
Definition KERNEL_STACK_GUARD_SIZE : Z := PAGE_SIZE.
Definition KERNEL_STACK_SLOT_SIZE : Z := KERNEL_STACK_GUARD_SIZE + KERNEL_STACK_SIZE.
Definition KERNEL_STACK_REGION_SIZE : Z := Z.shiftl 1 30.
Definition MAX_KERNEL_STACK_SLOTS : Z := KERNEL_STACK_REGION_SIZE / KERNEL_STACK_SLOT_SIZE.

Inductive StackError :=
  | StackOutOfMemory
  | AddressNotMapped
  | RegionExhausted
  | StackMap (error : MapError).

(** [unmap] is the function that unmaps the stack's pages; every stack made by
    [create_mapped] has one. *)
Record KernelStack := {
  stack_pages : PageRun;
  stack_base : VirtualAddress;
  stack_size : Z;
  stack_unmap : bool;
}.
Definition stack_top {S} (k : KernelStack) : M S VirtualAddress :=
  add_uint 64 (stack_base k) (stack_size k).

(** The page allocator, [NEXT_STACK_SLOT] and the page tables. *)
Record World (Mmu : Type) := {
  w_pmm : Pmm;
  w_next_slot : Z;
  w_mmu : Mmu;
}.
Arguments w_pmm {Mmu}.
Arguments w_next_slot {Mmu}.
Arguments w_mmu {Mmu}.

Section Stacks.
Context `{PageLayout} {Mmu : Type}.
(** [stack_region_base], [map_page] and [unmap_page]. *)
Variable region_base : VirtualAddress.
Variable map_page : VirtualAddress -> PhysicalAddress -> M (World Mmu) (Result unit MapError).
Variable unmap_page : VirtualAddress -> M (World Mmu) (Result PhysicalAddress UnmapError).

Definition lift_pmm {A} (m : M Pmm A) : M (World Mmu) A := fun w =>
  match m (w_pmm w) with
  | Done (a, p) => Done (a, {| w_pmm := p; w_next_slot := w_next_slot w; w_mmu := w_mmu w |})
  | Panic msg => Panic msg
  | Undefined => Undefined
  | OutOfFuel => OutOfFuel
  end.
Definition lift_mmu {A} (m : M Mmu A) : M (World Mmu) A := fun w =>
  match m (w_mmu w) with
  | Done (a, t) => Done (a, {| w_pmm := w_pmm w; w_next_slot := w_next_slot w; w_mmu := t |})
  | Panic msg => Panic msg
  | Undefined => Undefined
  | OutOfFuel => OutOfFuel
  end.

(** [fetch_add(1)], which wraps. *)
Definition take_slot : M (World Mmu) Z :=
  let! slot := gets w_next_slot in
  modify (fun w => {| w_pmm := w_pmm w; w_next_slot := wrapping_add 64 slot 1; w_mmu := w_mmu w |}) ;;;
  ret slot.

(** [rollback_stack_mapping]: the [while index > 0] loop counts down. *)
Fixpoint rollback_stack_mapping (base : VirtualAddress) (mapped_pages : nat) : M (World Mmu) unit :=
  match mapped_pages with
  | O => ret tt
  | S index =>
      match VirtualAddress_checked_add base (Z.of_nat index * PAGE_SIZE) with
      | Some virtual_address => let! _ := unmap_page virtual_address in ret tt
      | None => ret tt
      end ;;;
      rollback_stack_mapping base index
  end.

(** The [while mapped_pages < KERNEL_STACK_PAGES] loop; [todo] pages are
    left to map. *)
Fixpoint map_stack_pages (todo : nat) (pages : PageRun) (base : VirtualAddress) (mapped_pages : nat) :
    M (World Mmu) (Result unit StackError) :=
  match todo with
  | O => ret (Ok tt)
  | S todo =>
      let! physical := lift_pmm (PageRun_physical_address pages (Z.of_nat mapped_pages)) in
      match physical with
      | None => rollback_stack_mapping base mapped_pages ;;; ret (Err AddressNotMapped)
      | Some physical =>
          let? virtual_address := VirtualAddress_checked_add base (Z.of_nat mapped_pages * PAGE_SIZE)
            ok_or RegionExhausted in
          let! r := map_page virtual_address physical in
          match r with
          | Err error => rollback_stack_mapping base mapped_pages ;;; ret (Err (StackMap error))
          | Ok _ => map_stack_pages todo pages base (S mapped_pages)
          end
      end
  end.

(** Once [pages] is allocated every early return drops it. *)
Definition create_mapped : M (World Mmu) (Result KernelStack StackError) :=
  let! slot := take_slot in
  if MAX_KERNEL_STACK_SLOTS <=? slot then ret (Err RegionExhausted)
  else
    let! pages := lift_pmm (global_alloc_contiguous KERNEL_STACK_PAGES PAGE_ALIGNMENT_LOG2) in
    let? pages := pages ok_or StackOutOfMemory in
    let base :=
      match checked_mul 64 slot KERNEL_STACK_SLOT_SIZE with
      | None => None
      | Some offset =>
          match checked_add 64 offset KERNEL_STACK_GUARD_SIZE with
          | None => None
          | Some offset => VirtualAddress_checked_add region_base offset
          end
      end in
    match base with
    | None => lift_pmm (PageRun_drop pages) ;;; ret (Err RegionExhausted)
    | Some base =>
        let! r := map_stack_pages (Z.to_nat KERNEL_STACK_PAGES) pages base 0 in
        match r with
        | Err e => lift_pmm (PageRun_drop pages) ;;; ret (Err e)
        | Ok _ => ret (Ok {| stack_pages := pages; stack_base := base;
                             stack_size := KERNEL_STACK_SIZE; stack_unmap := true |})
        end
    end.

(** [Drop for KernelStack], and then its [PageRun]. *)
Definition KernelStack_drop (k : KernelStack) : M (World Mmu) unit :=
  (if stack_unmap k then rollback_stack_mapping (stack_base k) (Z.to_nat KERNEL_STACK_PAGES) else ret tt) ;;;
  lift_pmm (PageRun_drop (stack_pages k)).

Definition boot_probe : M (World Mmu) (Result unit StackError) :=
  let! r := create_mapped in
  match r with
  | Err e => ret (Err e)
  | Ok stack => KernelStack_drop stack ;;; ret (Ok tt)
  end.

(** ** Slots *)

(** A stack lies in the slot that [NEXT_STACK_SLOT] gave, above its guard page. *)
Lemma create_mapped_slot w k w' :
  0 <= w_next_slot w -> create_mapped w = Done (Ok k, w') ->
  w_next_slot w < MAX_KERNEL_STACK_SLOTS /\
  stack_base k = region_base + w_next_slot w * KERNEL_STACK_SLOT_SIZE + KERNEL_STACK_GUARD_SIZE /\
  stack_base k < 2 ^ 64 /\ stack_size k = KERNEL_STACK_SIZE /\ stack_unmap k = true.
Proof.
  intros Hs Hrun. unfold create_mapped in Hrun.
  apply bind_Done in Hrun as (slot & w1 & Hslot & Hrun).
  unfold take_slot, bind, gets, modify, ret in Hslot. injection Hslot as <- _.
  destruct (Z.leb_spec MAX_KERNEL_STACK_SLOTS (w_next_slot w)) as [|Hlt]; [done|].
  apply bind_Done in Hrun as ([pages|] & w2 & _ & Hrun); [|done].
  destruct (checked_mul 64 (w_next_slot w) KERNEL_STACK_SLOT_SIZE) as [off|] eqn:Hm.
  2:{ by apply bind_Done in Hrun as (? & ? & _ & ?). }
  apply checked_mul_Some in Hm as [-> _].
  destruct (checked_add 64 _ KERNEL_STACK_GUARD_SIZE) as [off|] eqn:Ha.
  2:{ by apply bind_Done in Hrun as (? & ? & _ & ?). }
  apply checked_add_Some in Ha as [-> _].
  destruct (VirtualAddress_checked_add region_base _) as [base|] eqn:Hb.
  2:{ by apply bind_Done in Hrun as (? & ? & _ & ?). }
  apply checked_add_Some in Hb as [-> Hb].
  apply bind_Done in Hrun as ([[]|e] & w3 & _ & Hrun).
  - unfold ret in Hrun. injection Hrun as <- _. cbn. split_and!; [done|lia|lia|done|done].
  - by apply bind_Done in Hrun as (? & ? & _ & ?).
Qed.

(** Two stacks created at different values of [NEXT_STACK_SLOT] lie in the
    stack region without overlapping, and the page below each of them, its
    guard, belongs to no stack. *)
Theorem stack_slots_apart w1 k1 w1' w2 k2 w2' :
  is_usize (w_next_slot w1) -> w_next_slot w1 < w_next_slot w2 ->
  create_mapped w1 = Done (Ok k1, w1') -> create_mapped w2 = Done (Ok k2, w2') ->
  region_base + PAGE_SIZE <= stack_base k1 /\
  stack_base k1 + stack_size k1 <= stack_base k2 - PAGE_SIZE /\
  stack_base k2 + stack_size k2 <= region_base + KERNEL_STACK_REGION_SIZE.
Proof.
  intros [Hs1 _] Hlt H1 H2.
  destruct (create_mapped_slot w1 k1 w1' Hs1 H1) as (Hm1 & -> & _ & -> & _).
  destruct (create_mapped_slot w2 k2 w2' ltac:(lia) H2) as (Hm2 & -> & _ & -> & _).
  change MAX_KERNEL_STACK_SLOTS with 87381 in *. change KERNEL_STACK_SLOT_SIZE with 12288.
  change KERNEL_STACK_GUARD_SIZE with 4096. change KERNEL_STACK_SIZE with 8192.
  change KERNEL_STACK_REGION_SIZE with 1073741824. unfold PAGE_SIZE. lia.
Qed.

(** Dropping a stack, or rolling one back, asks for the unmapping of exactly the
    pages that were mapped, last first. *)
Fixpoint unmap_list (base : VirtualAddress) (n : nat) : list VirtualAddress :=
  match n with O => [] | S n => base + Z.of_nat n * PAGE_SIZE :: unmap_list base n end.
Lemma rollback_spec base n :
  base + Z.of_nat n * PAGE_SIZE < 2 ^ 64 ->
  meq (rollback_stack_mapping base n)
      (for_each (unmap_list base n) (fun va => let! _ := unmap_page va in ret tt)).
Proof.
  induction n as [|n IH]; intros Hb; [done|]. cbn [rollback_stack_mapping unmap_list for_each].
  unfold VirtualAddress_checked_add, checked_add. unfold PAGE_SIZE in *.
  rewrite (proj2 (Z.ltb_lt _ _)) by lia. intros w. unfold bind.
  destruct (unmap_page _ w) as [[r w1]| | |]; [|done..]. apply IH. lia.
Qed.
End Stacks.

(** ** A mapper and two stacks *)

#[local] Existing Instance small_layout.

(** Page tables as a map from virtual to physical pages. *)
Definition demo_map (va : VirtualAddress) (pa : PhysicalAddress) :
    M (World (gmap Z Z)) (Result unit MapError) :=
  let! tables := gets w_mmu in
  match tables !! va with
  | Some _ => ret (Err MapError_AlreadyMapped)
  | None =>
      modify (fun w => {| w_pmm := w_pmm w; w_next_slot := w_next_slot w; w_mmu := <[va := pa]> tables |}) ;;;
      ret (Ok tt)
  end.
Definition demo_unmap (va : VirtualAddress) : M (World (gmap Z Z)) (Result PhysicalAddress UnmapError) :=
  let! tables := gets w_mmu in
  match tables !! va with
  | Some pa =>
      modify (fun w => {| w_pmm := w_pmm w; w_next_slot := w_next_slot w; w_mmu := delete va tables |}) ;;;
      ret (Ok pa)
  | None => ret (Err UnmapError_NotMapped)
  end.

Definition demo_world : World (gmap Z Z) := {| w_pmm := small_pmm; w_next_slot := 0; w_mmu := ∅ |}.
Definition demo_create : M (World (gmap Z Z)) (Result KernelStack StackError) :=
  create_mapped (2 ^ 40) demo_map demo_unmap.
Definition demo_world1 : World (gmap Z Z) :=
  match demo_create demo_world with Done (_, w) => w | _ => demo_world end.
Definition demo_world2 : World (gmap Z Z) :=
  match demo_create demo_world1 with Done (_, w) => w | _ => demo_world1 end.
Definition demo_created (w : World (gmap Z Z)) : KernelStack :=
  match demo_create w with
  | Done (Ok k, _) => k
  | _ => {| stack_pages := {| run_head := PageHandle_new 0 0; run_count := 0 |}; stack_base := 0;
            stack_size := 0; stack_unmap := false |}
  end.

Lemma stack_slots_apart_witness :
  stack_base (demo_created demo_world) + stack_size (demo_created demo_world)
    <= stack_base (demo_created demo_world1) - PAGE_SIZE.
Proof.
  assert (create_mapped (2 ^ 40) demo_map demo_unmap demo_world = Done (Ok (demo_created demo_world), demo_world1)) as H1
    by (vm_compute; reflexivity).
  assert (create_mapped (2 ^ 40) demo_map demo_unmap demo_world1 = Done (Ok (demo_created demo_world1), demo_world2)) as H2
    by (vm_compute; reflexivity).
  exact (proj1 (proj2 (stack_slots_apart (2 ^ 40) demo_map demo_unmap demo_world _ demo_world1
    demo_world1 _ demo_world2 ltac:(split; [discriminate|reflexivity]) ltac:(vm_compute; reflexivity) H1 H2))).
Defined.
