(* ===== verification/PageMapper.v ===== *)
(** * Kernel page mappings and kernel stacks

    What [KernelStack] of [task/mod.rs] relies on from the page-table code, as a
    class; and what creating and dropping stacks does to the kernel's address
    space and to the page allocator, proved against that class.  Each
    architecture's MMU is an instance. *)

From S2P Require Import Prelude Address HwInfo Pmm PmmReserved PmmFreeList PmmAlloc PmmInit PmmClients.
From S2P Require Import KernelStack.
From stdpp Require Import base tactics option list list_numbers numbers gmap strings.

#[local] Open Scope Z_scope.
#[local] Open Scope kernel_scope.

(** ** Physical pages *)

Section Physical.
Context `{PageLayout}.

Lemma frame_physical_of s0 s h : frame s0 s -> physical_of s h = physical_of s0 h.
Proof. intros Hf. unfold physical_of. by rewrite (same_arenas_arena_for s0 s) by apply Hf. Qed.

Lemma frame_valid s0 s h : frame s0 s -> valid s h <-> valid s0 h.
Proof. intros Hf. unfold valid. by rewrite (same_arenas_arena_for s0 s) by apply Hf. Qed.

Lemma physical_of_aligned s h phys :
  layout_wf s -> valid s h -> physical_of s h = Some phys -> phys mod PAGE_SIZE = 0.
Proof.
  intros Hwf Hv Hp. destruct (physical_of_valid s h Hwf Hv) as (a & Ha & Hph).
  rewrite Hp in Hph. injection Hph as ->.
  apply valid_iff in Hv as (b & Hb & Hi & _ & Hfor); [|done]. simplify_eq.
  pose proof (aw_aligned _ _ (lw_active _ Hwf _ _ Hb ltac:(lia))) as Hal. unfold PAGE_SIZE in *. divlia.
Qed.

Lemma physical_of_bound s h phys :
  layout_wf s -> valid s h -> physical_of s h = Some phys -> 0 <= phys < 2 ^ 64.
Proof.
  intros Hwf Hv Hp. destruct (physical_of_valid s h Hwf Hv) as (a & Ha & Hpa). rewrite Hp in Hpa.
  injection Hpa as ->. pose proof Hv as (B0 & B1 & _).
  apply valid_iff in Hv as (b & Hb & Hbi & Hpg & Hfor); [|done]. simplify_eq.
  pose proof (aw_base _ _ (lw_active _ Hwf _ _ Hb ltac:(lia))).
  pose proof (aw_end _ _ (lw_active _ Hwf _ _ Hb ltac:(lia))). unfold PAGE_SIZE in *. lia.
Qed.

Lemma physical_of_inj s h1 h2 phys :
  layout_wf s -> valid s h1 -> valid s h2 ->
  physical_of s h1 = Some phys -> physical_of s h2 = Some phys -> h1 = h2.
Proof.
  intros Hwf V1 V2 P1 P2.
  destruct (arena_for_physical_valid s h1 phys Hwf V1 P1) as (a & _ & Ha & Hpa).
  destruct (arena_for_physical_valid s h2 phys Hwf V2 P2) as (b & _ & Hb & Hpb). congruence.
Qed.

(** A leaked page is not leaked to anybody else. *)
Lemma leaked_distinct s0 s h phys os l h2 phys2 :
  client_inv s0 s (HoldLeaked h phys :: os) l -> HoldLeaked h2 phys2 ∈ os -> phys2 <> phys.
Proof.
  intros Hc Hin ->. pose proof (ci_wf _ _ _ _ Hc) as [Hph Hos]%Forall_cons. simpl in Hph.
  pose proof (Forall_elem _ _ _ Hos Hin) as Hph2. simpl in Hph2.
  pose proof (pi_layout _ _ (pi_core _ _ (ci_inv _ _ _ _ Hc))) as Hlw.
  assert (h2 ∈ all_held os) as Hh2.
  { unfold all_held. apply list_elem_of_bind. exists (HoldLeaked h2 phys). split; [by left|done]. }
  pose proof (ci_held _ _ _ _ Hc) as Hheld. change (all_held (HoldLeaked h phys :: os)) with (h :: all_held os) in Hheld.
  apply Forall_cons in Hheld as [Hv Hheld]. pose proof (Forall_elem _ _ _ Hheld Hh2) as Hv2.
  assert (h = h2) as <- by (by apply (physical_of_inj s h h2 phys)).
  pose proof (ci_nodup _ _ _ _ Hc) as (_ & _ & Hnd)%NoDup_app.
  change (all_held (HoldLeaked h phys :: os)) with (h :: all_held os) in Hnd. by apply NoDup_cons in Hnd as [Hn _].
Qed.

(** The physical address of a page of the manager. *)
Definition managed (s0 : Pmm) (pa : PhysicalAddress) : Prop :=
  exists h, valid s0 h /\ physical_of s0 h = Some pa.

(** A page of the manager lies in one of the machine's memory regions. *)
Lemma managed_in_region off regs s l pa :
  ready off regs s l -> managed s pa -> exists r, r ∈ regs /\ pa mod PAGE_SIZE = 0 /\ 0 <= pa /\
    region_base r <= pa /\ pa + PAGE_SIZE <= region_base r + region_size r.
Proof.
  intros Hready (h & Hv & Hp). pose proof (pi_layout _ _ (pi_core _ _ (rd_inv _ _ _ _ Hready))) as Hwf.
  pose proof (physical_of_aligned s h pa Hwf Hv Hp) as Hal. pose proof (physical_of_bound s h pa Hwf Hv Hp) as [H0 _].
  destruct (physical_of_valid _ h Hwf Hv) as (a & Ha & Hpa). rewrite Hp in Hpa. injection Hpa as ->.
  pose proof Hv as (B0 & B1 & _). apply valid_iff in Hv as (b & Hb & Hbi & Hpg & Hfor); [|done]. simplify_eq.
  destruct (rd_regions _ _ _ _ Hready (handle_arena_index h) b) as (r & Hr & Hin1 & Hin2); [by split|].
  exists r. unfold PAGE_SIZE in *. split_and!; [done..|lia|lia].
Qed.

(** The pages of a run. *)
Definition run_page (run : PageRun) (i : Z) : PageHandle :=
  PageHandle_new (handle_arena_index (run_head run)) (handle_page_index (run_head run) + i).

(** A holder of a run can find the address of each of its pages. *)
Lemma held_run_page s0 s os l run i :
  client_inv s0 s os l -> HoldRun run ∈ os -> 0 <= i < run_count run ->
  exists pa, PageRun_physical_address run i s = Done (Some pa, s) /\
    valid s0 (run_page run i) /\ physical_of s0 (run_page run i) = Some pa.
Proof.
  intros Hci Hin Hi. pose proof (pi_layout _ _ (pi_core _ _ (ci_inv _ _ _ _ Hci))) as Hwf.
  assert (forall j, 0 <= j < run_count run -> valid s (run_page run j)) as Hvj.
  { intros j Hj. apply (Forall_elem _ _ _ (ci_held _ _ _ _ Hci)). unfold all_held. apply list_elem_of_bind.
    exists (HoldRun run). split; [|done]. apply elem_of_handles. cbn. lia. }
  pose proof (Hvj i Hi) as Hv. destruct (Hvj 0 ltac:(lia)) as (_ & Hhead & _). clear Hvj.
  destruct (physical_of_valid s _ Hwf Hv) as (a & Ha & Hpa). exists (arena_base a + handle_page_index (run_page run i) * PAGE_SIZE).
  split; [|split; [by apply (frame_valid s0 s), Hv; apply Hci|by rewrite <-(frame_physical_of s0 s) by apply Hci]].
  pose proof Hv as (H0 & H1 & _). apply valid_iff in Hv as (b & Hb & Hbi & Hp & Hfor); [|done]. simplify_eq.
  pose proof (aw_count _ _ (lw_active _ Hwf _ _ Hb ltac:(lia))) as Hpc.
  unfold run_page in *. cbn [handle_page_index] in *. unfold u32_MAX in Hpc.
  unfold PageRun_physical_address. rewrite (proj2 (Z.leb_gt _ _)) by lia.
  unfold try_from_uint. rewrite (proj2 (Z.ltb_lt _ _)) by lia.
  unfold checked_add. rewrite (proj2 (Z.ltb_lt _ _)) by lia.
  unfold page_to_physical_handle, assert_initialized, bind, gets, ret.
  rewrite (ci_init _ _ _ _ Hci). cbn. rewrite Hfor.
  unfold physical_of in Hpa. rewrite Hfor in Hpa. by rewrite Hpa.
Qed.
End Physical.

(** Pages that a list without repetitions lists in two places. *)
Lemma bind_apart {A B} (f : A -> list B) (l : list A) i j x y b :
  NoDup (l ≫= f) -> l !! i = Some x -> l !! j = Some y -> i <> j -> b ∈ f x -> b ∈ f y -> False.
Proof.
  revert i j x y. induction l as [|a l IH]; intros i j x y Hnd Hi Hj Hne Hx Hy; [done|]. cbn in Hnd.
  apply NoDup_app in Hnd as (_ & Hd & Hnd). destruct i as [|i], j as [|j]; cbn in *; simplify_eq.
  - apply (Hd b Hx), list_elem_of_bind. exists y. split; [done|]. by apply list_elem_of_lookup_2 in Hj.
  - apply (Hd b Hy), list_elem_of_bind. exists x. split; [done|]. by apply list_elem_of_lookup_2 in Hi.
  - by apply (IH i j x y); [|..|congruence| |].
Qed.

(** ** The interface *)

(** Holdings that grew by leaked pages only, and holdings whose leaked pages
    are still there. *)
Definition leaked_more (os os' : list holding) : Prop :=
  exists extra, os' = extra ++ os /\ Forall (fun o => exists h phys, o = HoldLeaked h phys) extra.
Definition keeps_leaked (os os' : list holding) : Prop :=
  forall h phys, HoldLeaked h phys ∈ os -> HoldLeaked h phys ∈ os'.

Lemma leaked_refl os : leaked_more os os.
Proof. exists []. by split. Qed.
Lemma leaked_trans os1 os2 os3 : leaked_more os1 os2 -> leaked_more os2 os3 -> leaked_more os1 os3.
Proof.
  intros (e1 & -> & F1) (e2 & -> & F2). exists (e2 ++ e1). rewrite <-app_assoc. split; [done|].
  by apply Forall_app.
Qed.
#[global] Instance leaked_more_preorder : PreOrder leaked_more.
Proof. split; [exact leaked_refl|exact leaked_trans]. Qed.
Lemma leaked_more_in os os' o : leaked_more os os' -> o ∈ os -> o ∈ os'.
Proof. intros (e & -> & _) Hin. set_solver. Qed.

(** The mapping of every kernel address: its size and where it leads. *)
Definition kspace : Type := VirtualAddress -> option (MappingSize * PhysicalAddress).
Definition page_of (va : VirtualAddress) : Z := va / PAGE_SIZE.

(** What the page-table code promises: kernel pages can be mapped to pages of
    the allocator and unmapped, changing that page's mapping only; tables are
    made of pages leaked from the allocator. *)
Class PageMapper `{PageLayout} (s0 : Pmm) {Mmu : Type}
    (map_page : VirtualAddress -> PhysicalAddress -> M (World Mmu) (Result unit MapError))
    (unmap_page : VirtualAddress -> M (World Mmu) (Result PhysicalAddress UnmapError)) := {
  pm_kernel : VirtualAddress -> Prop;
  pm_ok : World Mmu -> list holding -> Prop;
  pm_space : Mmu -> kspace;
  pm_client w os : pm_ok w os -> exists l, client_inv s0 (w_pmm w) os l;
  pm_frame w os s os' l n : pm_ok w os -> client_inv s0 s os' l -> keeps_leaked os os' ->
    pm_ok {| w_pmm := s; w_next_slot := n; w_mmu := w_mmu w |} os';
  pm_page m va va' : page_of va = page_of va' -> pm_space m va = pm_space m va';
  pm_map w os va pa : pm_ok w os -> pm_kernel va -> va mod PAGE_SIZE = 0 -> managed s0 pa ->
    wp (map_page va pa) (fun r w' => exists os', pm_ok w' os' /\ leaked_more os os' /\
      w_next_slot w' = w_next_slot w /\
      match r with
      | Ok _ => pm_space (w_mmu w) va = None /\
          (forall va', pm_kernel va' -> pm_space (w_mmu w') va' =
            if decide (page_of va' = page_of va) then Some (Page4K, pa) else pm_space (w_mmu w) va')
      | Err e => (forall va', pm_kernel va' -> pm_space (w_mmu w') va' = pm_space (w_mmu w) va') /\
          match e with
          | MapError_OutOfMemory => True
          | MapError_AlreadyMapped | MapError_SuperpageConflict => pm_space (w_mmu w) va <> None
          | _ => False
          end
      end) w;
  pm_unmap w os va : pm_ok w os -> pm_kernel va -> va mod PAGE_SIZE = 0 ->
    wp (unmap_page va) (fun r w' => pm_ok w' os /\ w_next_slot w' = w_next_slot w /\
      match pm_space (w_mmu w) va with
      | Some (Page4K, pa) => r = Ok pa /\
          (forall va', pm_kernel va' -> pm_space (w_mmu w') va' =
            if decide (page_of va' = page_of va) then None else pm_space (w_mmu w) va')
      | _ => (exists e, r = Err e) /\
          (forall va', pm_kernel va' -> pm_space (w_mmu w') va' = pm_space (w_mmu w) va')
      end) w;
}.

(** ** Stacks *)

Section Stacks.
Context `{PageLayout} (s0 : Pmm) {Mmu : Type}.
Context (map_page : VirtualAddress -> PhysicalAddress -> M (World Mmu) (Result unit MapError)).
Context (unmap_page : VirtualAddress -> M (World Mmu) (Result PhysicalAddress UnmapError)).
Context {PM : PageMapper s0 map_page unmap_page}.
Context (region_base : VirtualAddress).

(** The stack region: page-aligned kernel addresses. *)
Definition stack_region : Prop :=
  0 <= region_base /\ region_base mod PAGE_SIZE = 0 /\ region_base + KERNEL_STACK_REGION_SIZE <= 2 ^ 64 /\
  forall va, region_base <= va < region_base + KERNEL_STACK_REGION_SIZE -> pm_kernel va.
Hypothesis Hregion : stack_region.

Definition agree (A B : kspace) : Prop := forall va, pm_kernel va -> A va = B va.

(** [A] with the first [n] pages of [run] mapped from [base] up. *)
Definition overlay (A : kspace) (run : PageRun) (base : VirtualAddress) (n : Z) : kspace := fun va =>
  if decide (base <= va < base + n * PAGE_SIZE)
  then (Page4K,.) <$> physical_of s0 (run_page run ((va - base) / PAGE_SIZE))
  else A va.
Definition vacant (A : kspace) (base : VirtualAddress) (n : Z) : Prop :=
  forall va, pm_kernel va -> base <= va < base + n * PAGE_SIZE -> A va = None.

(** [base] is where a stack of the region can start. *)
Definition stack_start (base : VirtualAddress) : Prop :=
  base mod PAGE_SIZE = 0 /\ region_base <= base /\
  base + KERNEL_STACK_SIZE <= region_base + KERNEL_STACK_REGION_SIZE.

Lemma stack_start_page base i :
  stack_start base -> 0 <= i < KERNEL_STACK_PAGES ->
  pm_kernel (base + i * PAGE_SIZE) /\ (base + i * PAGE_SIZE) mod PAGE_SIZE = 0 /\
  base + i * PAGE_SIZE < 2 ^ 64 /\ page_of (base + i * PAGE_SIZE) = base / PAGE_SIZE + i.
Proof.
  intros (Hal & Hlo & Hhi) Hi. destruct Hregion as (H0 & Hra & Hre & Hk).
  change KERNEL_STACK_PAGES with 2 in *. change KERNEL_STACK_SIZE with (2 * PAGE_SIZE) in *.
  unfold page_of, PAGE_SIZE in *. split; [apply Hk; lia|]. split; [divlia|]. split; [lia|divlia].
Qed.

Lemma in_page base i va :
  base mod PAGE_SIZE = 0 ->
  page_of va = base / PAGE_SIZE + i <-> base + i * PAGE_SIZE <= va < base + (i + 1) * PAGE_SIZE.
Proof. unfold page_of, PAGE_SIZE. intros. split; intros; divlia. Qed.

Lemma rollback_overlay w os A run base n :
  pm_ok w os -> stack_start base -> Z.of_nat n <= KERNEL_STACK_PAGES ->
  (forall i, 0 <= i < KERNEL_STACK_PAGES -> exists pa, physical_of s0 (run_page run i) = Some pa) ->
  vacant A base (Z.of_nat n) -> agree (pm_space (w_mmu w)) (overlay A run base (Z.of_nat n)) ->
  wp (rollback_stack_mapping unmap_page base n) (fun _ w' => pm_ok w' os /\
    w_next_slot w' = w_next_slot w /\ agree (pm_space (w_mmu w')) A) w.
Proof.
  intros Hok Hst. revert w Hok. induction n as [|n IH]; intros w Hok Hn Hrun Hvac Hag; cbn [rollback_stack_mapping].
  - apply wp_ret. split_and!; [done|done|]. intros va Hk. rewrite Hag by done. unfold overlay.
    rewrite decide_False; [done|]. lia.
  - destruct (stack_start_page base (Z.of_nat n) Hst ltac:(lia)) as (Hk & Hal & Hb & Hpg).
    unfold VirtualAddress_checked_add, checked_add. rewrite (proj2 (Z.ltb_lt _ _)) by done.
    apply wp_bind, wp_bind. eapply wp_mono; [exact (pm_unmap w os _ Hok Hk Hal)|].
    intros r w1 (Hok1 & Hs1 & Hr). apply wp_ret.
    assert (pm_space (w_mmu w) (base + Z.of_nat n * PAGE_SIZE) =
      (Page4K,.) <$> physical_of s0 (run_page run (Z.of_nat n))) as Hcur.
    { rewrite Hag by done. unfold overlay. rewrite decide_True by (unfold PAGE_SIZE; lia).
      do 3 f_equal. unfold PAGE_SIZE. divlia. }
    destruct (Hrun (Z.of_nat n) ltac:(lia)) as [pa Hpa]. rewrite Hpa in Hcur. cbn in Hcur.
    rewrite Hcur in Hr. destruct Hr as [_ Hr].
    eapply wp_mono; [apply (IH w1 Hok1)|]; [lia|done|..].
    + intros va Hkv Hr'. apply Hvac; [done|]. unfold PAGE_SIZE in *. lia.
    + intros va Hkv. rewrite Hr by done. destruct Hst as [Hbase _]. unfold overlay. rewrite Hpg.
      destruct (decide (page_of va = _)) as [Hin|Hout]; rewrite in_page in * by done.
      * rewrite decide_False by (unfold PAGE_SIZE in *; lia). symmetry. apply Hvac; [done|].
        unfold PAGE_SIZE in *. lia.
      * rewrite Hag by done. unfold overlay. unfold PAGE_SIZE in *.
        destruct (decide (base <= va < base + Z.of_nat n * 4096)); [rewrite decide_True by lia; done|].
        rewrite decide_False by lia. done.
    + intros [] w' (Hok' & Hs' & Hag'). split_and!; [done|congruence|done].
Qed.

(** Mapping one more page of a stack. *)
Lemma overlay_succ (A B : kspace) run base n pa :
  base mod PAGE_SIZE = 0 -> 0 <= n -> physical_of s0 (run_page run n) = Some pa ->
  (forall va, pm_kernel va -> B va =
    if decide (page_of va = base / PAGE_SIZE + n) then Some (Page4K, pa) else overlay A run base n va) ->
  agree B (overlay A run base (n + 1)).
Proof.
  intros Hbase Hn Hpa HB va Hk. rewrite HB by done. unfold overlay.
  destruct (decide (page_of va = _)) as [Hin|Hout]; rewrite in_page in * by done; unfold PAGE_SIZE in *.
  - rewrite decide_True by lia. replace ((va - base) / 4096) with n by divlia. by rewrite Hpa.
  - destruct (decide (base <= va < base + n * 4096)); [rewrite decide_True by lia; done|].
    rewrite decide_False by lia. done.
Qed.

(** The pages of a stack's run, which the mapper may use. *)
Lemma stack_run_pages w os run i :
  pm_ok w os -> HoldRun run ∈ os -> run_count run = KERNEL_STACK_PAGES -> 0 <= i < KERNEL_STACK_PAGES ->
  exists pa, PageRun_physical_address run i (w_pmm w) = Done (Some pa, w_pmm w) /\
    physical_of s0 (run_page run i) = Some pa /\ managed s0 pa.
Proof.
  intros Hok Hin Hc Hi. destruct (pm_client w os Hok) as [l Hci].
  destruct (held_run_page s0 (w_pmm w) os l run i Hci Hin) as (pa & Hr & Hv & Hp); [by rewrite Hc|].
  exists pa. split_and!; [done|done|]. by exists (run_page run i).
Qed.

Lemma lift_pmm_run {A} (m : M Pmm A) (a : A) (w : World Mmu) :
  m (w_pmm w) = Done (a, w_pmm w) -> lift_pmm m w = Done (a, w).
Proof. unfold lift_pmm. intros ->. by destruct w. Qed.

(** Why a page of a stack cannot be mapped. *)
Definition map_failure (A : kspace) (base : VirtualAddress) (e : StackError) : Prop :=
  match e with
  | StackMap MapError_OutOfMemory => True
  | StackMap MapError_AlreadyMapped | StackMap MapError_SuperpageConflict =>
      ~ vacant A base KERNEL_STACK_PAGES
  | _ => False
  end.

Lemma map_stack_pages_spec w os A run base n todo :
  pm_ok w os -> HoldRun run ∈ os -> run_count run = KERNEL_STACK_PAGES -> stack_start base ->
  Z.of_nat n + Z.of_nat todo = KERNEL_STACK_PAGES -> vacant A base (Z.of_nat n) ->
  agree (pm_space (w_mmu w)) (overlay A run base (Z.of_nat n)) ->
  wp (map_stack_pages map_page unmap_page todo run base n) (fun r w' => exists os',
    pm_ok w' os' /\ leaked_more os os' /\ w_next_slot w' = w_next_slot w /\
    match r with
    | Ok _ => vacant A base KERNEL_STACK_PAGES /\
        agree (pm_space (w_mmu w')) (overlay A run base KERNEL_STACK_PAGES)
    | Err e => agree (pm_space (w_mmu w')) A /\ map_failure A base e
    end) w.
Proof.
  intros Hok Hin Hc Hst. revert w os n Hok Hin.
  induction todo as [|todo IH]; intros w os n Hok Hin Hn Hvac Hag; cbn [map_stack_pages].
  { apply wp_ret. exists os. rewrite Z.add_0_r in Hn. rewrite Hn in *. split_and!; [done|apply leaked_refl|done..]. }
  destruct (stack_run_pages w os run (Z.of_nat n) Hok Hin Hc ltac:(lia)) as (pa & Hrun & Hpa & Hman).
  apply wp_bind. eapply wp_run; [by apply lift_pmm_run|].
  destruct (stack_start_page base (Z.of_nat n) Hst ltac:(lia)) as (Hk & Hal & Hb & Hpg).
  unfold VirtualAddress_checked_add, checked_add. rewrite (proj2 (Z.ltb_lt _ _)) by done.
  apply wp_bind. eapply wp_mono; [exact (pm_map w os _ pa Hok Hk Hal Hman)|].
  assert (pm_space (w_mmu w) (base + Z.of_nat n * PAGE_SIZE) = A (base + Z.of_nat n * PAGE_SIZE)) as Hcur.
  { rewrite Hag by done. unfold overlay. rewrite decide_False by lia. done. }
  assert (forall va, pm_kernel va -> page_of va = base / PAGE_SIZE + Z.of_nat n ->
    A va = pm_space (w_mmu w) (base + Z.of_nat n * PAGE_SIZE)) as Hpage.
  { intros va Hkv Hp. rewrite <-(pm_page (w_mmu w) va) by congruence. rewrite Hag by done. unfold overlay.
    apply in_page in Hp; [|apply Hst]. rewrite decide_False by lia. done. }
  intros [[]|e] w1 (os1 & Hok1 & Hl1 & Hs1 & Hr).
  - destruct Hr as [Hfree Hnew]. eapply wp_mono; [apply (IH w1 os1 (S n) Hok1)|].
    + by eapply leaked_more_in.
    + lia.
    + intros va Hkv Hva. destruct (decide (page_of va = base / PAGE_SIZE + Z.of_nat n)) as [Hp|Hp].
      * by rewrite (Hpage va Hkv Hp).
      * rewrite in_page in Hp by apply Hst. apply Hvac; [done|]. unfold PAGE_SIZE in *. lia.
    + replace (Z.of_nat (S n)) with (Z.of_nat n + 1) by lia.
      apply (overlay_succ A _ run base (Z.of_nat n) pa); [apply Hst|lia|done|].
      intros va Hkv. rewrite Hnew, Hpg by done. case_decide; [done|]. by apply Hag.
    + intros r w' (os' & Hok' & Hl' & Hs' & Hr'). exists os'.
      split_and!; [done|by etrans|congruence|done].
  - destruct Hr as [Hsame Herr]. apply wp_bind.
    eapply wp_mono; [apply (rollback_overlay w1 os1 A run base n Hok1 Hst)|]; [lia| |done| |].
    + intros i Hi. destruct (stack_run_pages w os run i Hok Hin Hc Hi) as (pa' & _ & Hp' & _). by exists pa'.
    + intros va Hkv. by rewrite Hsame, Hag.
    + intros [] w2 (Hok2 & Hs2 & Hag2). apply wp_ret. exists os1.
      split_and!; [done|done|congruence|done|].
      destruct e; cbn; try done; intros Hv; apply Herr; rewrite Hcur; apply Hv; try done; unfold PAGE_SIZE; lia.
Qed.

Lemma lift_pmm_wp {A} (m : M Pmm A) (Q : A -> World Mmu -> Prop) w :
  wp m (fun a p => Q a {| w_pmm := p; w_next_slot := w_next_slot w; w_mmu := w_mmu w |}) (w_pmm w) ->
  wp (lift_pmm m) Q w.
Proof. unfold wp, lift_pmm. by destruct (m (w_pmm w)) as [[a p]| | |]. Qed.

Lemma lift_mmu_wp {A} (m : M Mmu A) (Q : A -> World Mmu -> Prop) w :
  wp m (fun a t => Q a {| w_pmm := w_pmm w; w_next_slot := w_next_slot w; w_mmu := t |}) (w_mmu w) ->
  wp (lift_mmu m) Q w.
Proof. unfold wp, lift_mmu. by destruct (m (w_mmu w)) as [[a t]| | |]. Qed.

(** Returning the run of a stack. *)
Lemma drop_stack_run w run extra os :
  pm_ok w (extra ++ HoldRun run :: os) ->
  wp (lift_pmm (PageRun_drop run)) (fun _ w' => pm_ok w' (extra ++ os) /\
    w_next_slot w' = w_next_slot w /\ w_mmu w' = w_mmu w) w.
Proof.
  intros Hok. destruct (pm_client _ _ Hok) as [l Hci]. apply lift_pmm_wp.
  apply (client_inv_perm _ _ _ (HoldRun run :: extra ++ os)) in Hci; [|solve_Permutation].
  eapply wp_mono; [exact (drop_run_step s0 _ _ _ _ Hci)|]. intros [] s' [l' Hci'].
  split; [|done]. eapply pm_frame; [done..|]. intros h phys Hin. set_solver.
Qed.

Definition slot_base (slot : Z) : VirtualAddress :=
  region_base + slot * KERNEL_STACK_SLOT_SIZE + KERNEL_STACK_GUARD_SIZE.
Lemma slot_base_start slot : 0 <= slot < MAX_KERNEL_STACK_SLOTS -> stack_start (slot_base slot).
Proof.
  destruct Hregion as (H0 & Hra & Hre & _). intros Hs. unfold stack_start, slot_base.
  change MAX_KERNEL_STACK_SLOTS with 87381 in *. change KERNEL_STACK_SLOT_SIZE with (3 * PAGE_SIZE).
  change KERNEL_STACK_GUARD_SIZE with PAGE_SIZE. change KERNEL_STACK_SIZE with (2 * PAGE_SIZE).
  change KERNEL_STACK_REGION_SIZE with 1073741824. unfold PAGE_SIZE in *. split; [divlia|]. lia.
Qed.

(** What [create_mapped] does, on every branch. *)
Definition created (w : World Mmu) (os : list holding) (r : Result KernelStack StackError) (w' : World Mmu) : Prop :=
  let slot := w_next_slot w in
  exists os', pm_ok w' os' /\ w_next_slot w' = wrapping_add 64 slot 1 /\
  match r with
  | Ok k => slot < MAX_KERNEL_STACK_SLOTS /\ stack_base k = slot_base slot /\
      stack_size k = KERNEL_STACK_SIZE /\ stack_unmap k = true /\
      run_count (stack_pages k) = KERNEL_STACK_PAGES /\
      leaked_more (HoldRun (stack_pages k) :: os) os' /\
      vacant (pm_space (w_mmu w)) (stack_base k) KERNEL_STACK_PAGES /\
      agree (pm_space (w_mmu w')) (overlay (pm_space (w_mmu w)) (stack_pages k) (stack_base k) KERNEL_STACK_PAGES)
  | Err e => leaked_more os os' /\ agree (pm_space (w_mmu w')) (pm_space (w_mmu w)) /\
      match e with
      | RegionExhausted => MAX_KERNEL_STACK_SLOTS <= slot
      | StackOutOfMemory => slot < MAX_KERNEL_STACK_SLOTS
      | _ => slot < MAX_KERNEL_STACK_SLOTS /\ map_failure (pm_space (w_mmu w)) (slot_base slot) e
      end
  end.

Lemma slot_base_checked slot :
  0 <= slot < MAX_KERNEL_STACK_SLOTS ->
  match checked_mul 64 slot KERNEL_STACK_SLOT_SIZE with
  | None => None
  | Some offset =>
      match checked_add 64 offset KERNEL_STACK_GUARD_SIZE with
      | None => None
      | Some offset => VirtualAddress_checked_add region_base offset
      end
  end = Some (slot_base slot).
Proof.
  intros Hs. destruct (slot_base_start slot Hs) as (_ & Hlo & Hhi). destruct Hregion as (H0 & _ & Hre & _).
  unfold slot_base in *. unfold VirtualAddress_checked_add, checked_mul, checked_add.
  change MAX_KERNEL_STACK_SLOTS with 87381 in *. change KERNEL_STACK_SLOT_SIZE with 12288 in *.
  change KERNEL_STACK_GUARD_SIZE with 4096 in *. change KERNEL_STACK_SIZE with 8192 in *.
  do 3 rewrite (proj2 (Z.ltb_lt _ _)) by lia. f_equal. lia.
Qed.

Lemma overlay_none A run base : agree A (overlay A run base 0).
Proof. intros va Hk. unfold overlay. rewrite decide_False by lia. done. Qed.

Lemma create_mapped_spec w os :
  pm_ok w os -> 0 <= w_next_slot w ->
  wp (create_mapped region_base map_page unmap_page) (created w os) w.
Proof.
  intros Hok H0. unfold create_mapped, take_slot. apply wp_bind, wp_bind, wp_gets, wp_bind, wp_modify, wp_ret.
  set (w1 := {| w_pmm := _; w_next_slot := _; w_mmu := _ |}).
  destruct (pm_client _ _ Hok) as [l Hci]. assert (pm_ok w1 os) as Hok1
    by (apply (pm_frame w os (w_pmm w) os l); [done|done|by intros ?]).
  destruct (Z.leb_spec MAX_KERNEL_STACK_SLOTS (w_next_slot w)) as [Hfull|Hslot].
  { apply wp_ret. exists os. split_and!; [done|done|apply leaked_refl|done|done]. }
  apply wp_bind, lift_pmm_wp. eapply wp_mono; [by apply (alloc_run_step s0 _ _ _ _ _ Hci)|].
  intros [run|] s2 [Hcount [l2 Hci2]].
  2:{ apply wp_ret. exists os. split_and!; [by apply (pm_frame w os s2 os l2); [..|intros ?]|done|apply leaked_refl|done|done]. }
  specialize (Hcount run eq_refl).
  set (w2 := {| w_pmm := s2; w_next_slot := w_next_slot w1; w_mmu := w_mmu w1 |}).
  assert (pm_ok w2 (HoldRun run :: os)) as Hok2 by (apply (pm_frame w os s2 _ l2); [done|done|intros ??; set_solver]).
  rewrite slot_base_checked by lia. set (base := slot_base (w_next_slot w)).
  pose proof (slot_base_start (w_next_slot w) ltac:(lia)) as Hst.
  apply wp_bind. eapply wp_mono.
  { apply (map_stack_pages_spec w2 (HoldRun run :: os) (pm_space (w_mmu w)) run base 0); try done; [set_solver| |].
    - intros va _ ?. unfold PAGE_SIZE in *. lia.
    - apply overlay_none. }
  intros [[]|e] w3 (os3 & Hok3 & Hl3 & Hs3 & Hr).
  - apply wp_ret. exists os3. destruct Hr as [Hvac Hag]. by split_and!.
  - destruct Hr as [Hag Herr]. apply wp_bind. pose proof Hl3 as (extra & -> & Hex).
    eapply wp_mono; [exact (drop_stack_run w3 run extra os Hok3)|]. intros [] w4 (Hok4 & Hs4 & Hm4).
    apply wp_ret. exists (extra ++ os). rewrite Hm4. split_and!; [done|by rewrite Hs4, Hs3|by exists extra|done|].
    by destruct e.
Qed.

(** What [Drop for KernelStack] does to a stack whose pages are mapped. *)
Lemma drop_stack_spec w k extra os A :
  pm_ok w (extra ++ HoldRun (stack_pages k) :: os) ->
  stack_start (stack_base k) -> stack_unmap k = true -> run_count (stack_pages k) = KERNEL_STACK_PAGES ->
  vacant A (stack_base k) KERNEL_STACK_PAGES ->
  agree (pm_space (w_mmu w)) (overlay A (stack_pages k) (stack_base k) KERNEL_STACK_PAGES) ->
  wp (KernelStack_drop unmap_page k) (fun _ w' => pm_ok w' (extra ++ os) /\
    w_next_slot w' = w_next_slot w /\ agree (pm_space (w_mmu w')) A) w.
Proof.
  intros Hok Hst Hun Hc Hvac Hag. unfold KernelStack_drop. rewrite Hun. apply wp_bind.
  eapply wp_mono; [apply (rollback_overlay w _ A (stack_pages k) (stack_base k) _ Hok Hst)|]; try done.
  - intros i Hi. destruct (stack_run_pages w _ (stack_pages k) i Hok) as (pa & _ & Hp & _); try done; [set_solver|].
    by exists pa.
  - intros [] w1 (Hok1 & Hs1 & Hag1). eapply wp_mono; [exact (drop_stack_run w1 _ extra os Hok1)|].
    intros [] w2 (Hok2 & Hs2 & Hm2). rewrite Hm2. split_and!; [done|congruence|done].
Qed.

(** ** The stacks in use *)

(** Creating and dropping stacks, in any order; the slot counter does not wrap
    within 2^64 creations. *)
Inductive stack_step : World Mmu * list KernelStack -> World Mmu * list KernelStack -> Prop :=
  | stack_step_create w ks k w' :
      w_next_slot w + 1 < 2 ^ 64 ->
      create_mapped region_base map_page unmap_page w = Done (Ok k, w') -> stack_step (w, ks) (w', k :: ks)
  | stack_step_refused w ks e w' :
      w_next_slot w + 1 < 2 ^ 64 ->
      create_mapped region_base map_page unmap_page w = Done (Err e, w') -> stack_step (w, ks) (w', ks)
  | stack_step_drop w ks1 k ks2 w' :
      KernelStack_drop unmap_page k w = Done (tt, w') -> stack_step (w, ks1 ++ k :: ks2) (w', ks1 ++ ks2).

Definition in_stack (k : KernelStack) (va : VirtualAddress) : Prop :=
  stack_base k <= va < stack_base k + KERNEL_STACK_SIZE.

(** A live stack, made from slot [slot]. *)
Record stack_live (A : kspace) (k : KernelStack) (slot : Z) : Prop := {
  sl_slot : 0 <= slot < MAX_KERNEL_STACK_SLOTS;
  sl_base : stack_base k = slot_base slot;
  sl_size : stack_size k = KERNEL_STACK_SIZE;
  sl_unmap : stack_unmap k = true;
  sl_count : run_count (stack_pages k) = KERNEL_STACK_PAGES;
  sl_mapped va : in_stack k va -> exists pa,
    physical_of s0 (run_page (stack_pages k) ((va - stack_base k) / PAGE_SIZE)) = Some pa /\
    A va = Some (Page4K, pa);
}.

(** [A0] is the address space before any stack was made. *)
Record stacks_inv (A0 : kspace) (w : World Mmu) (ks : list KernelStack) : Prop := {
  si_ok : exists rest, pm_ok w (((fun k => HoldRun (stack_pages k)) <$> ks) ++ rest);
  si_next : 0 <= w_next_slot w;
  si_live : exists slots, NoDup slots /\ Forall (fun slot => slot < w_next_slot w) slots /\
    Forall2 (stack_live (pm_space (w_mmu w))) ks slots;
  si_vacant va : pm_kernel va -> region_base <= va < region_base + KERNEL_STACK_REGION_SIZE -> A0 va = None;
  si_rest va : pm_kernel va -> (forall k, k ∈ ks -> ~ in_stack k va) -> pm_space (w_mmu w) va = A0 va;
}.

Lemma in_stack_kernel A k slot va : stack_live A k slot -> in_stack k va -> pm_kernel va.
Proof.
  intros [Hs Hb _ _ _ _] Hin. destruct (slot_base_start slot Hs) as (_ & Hlo & Hhi).
  destruct Hregion as (_ & _ & _ & Hk). apply Hk. unfold in_stack in Hin. rewrite Hb in Hin. lia.
Qed.

(** Different slots, disjoint stacks. *)
Lemma slots_disjoint A A' k1 k2 s1 s2 va :
  stack_live A k1 s1 -> stack_live A' k2 s2 -> s1 <> s2 -> in_stack k1 va -> ~ in_stack k2 va.
Proof.
  intros [H1 B1 _ _ _ _] [H2 B2 _ _ _ _] Hne. unfold in_stack. rewrite B1, B2. unfold slot_base.
  change KERNEL_STACK_SLOT_SIZE with 12288. change KERNEL_STACK_GUARD_SIZE with 4096.
  change KERNEL_STACK_SIZE with 8192. lia.
Qed.

(** The guard page of a stack is in the region and in no stack. *)
Lemma guard_vacant A k slot va :
  stack_live A k slot -> stack_base k - PAGE_SIZE <= va < stack_base k ->
  region_base <= va < region_base + KERNEL_STACK_REGION_SIZE /\
  forall A' k' slot', stack_live A' k' slot' -> ~ in_stack k' va.
Proof.
  intros [Hs Hb _ _ _ _] Hva. destruct (slot_base_start slot Hs) as (_ & Hlo & Hhi). rewrite Hb in Hva. split.
  - revert Hva Hhi. unfold slot_base. change KERNEL_STACK_SLOT_SIZE with 12288. change KERNEL_STACK_GUARD_SIZE with 4096.
    change KERNEL_STACK_SIZE with 8192. unfold PAGE_SIZE. lia.
  - intros A' k' slot' [Hs' Hb' _ _ _ _]. revert Hva. unfold in_stack. rewrite Hb'. unfold slot_base.
    change KERNEL_STACK_SLOT_SIZE with 12288. change KERNEL_STACK_GUARD_SIZE with 4096.
    change KERNEL_STACK_SIZE with 8192. unfold PAGE_SIZE. lia.
Qed.

(** A stack stays live when its addresses keep their mappings. *)
Lemma stack_live_keep A A' k slot :
  stack_live A k slot -> (forall va, pm_kernel va -> in_stack k va -> A' va = A va) -> stack_live A' k slot.
Proof.
  intros Hl Heq. pose proof Hl as [? ? ? ? ? Hm]. split; try done. intros va Hin.
  rewrite Heq; [by apply Hm|by eapply in_stack_kernel|done].
Qed.

Lemma overlay_stack A k va :
  overlay A (stack_pages k) (stack_base k) KERNEL_STACK_PAGES va =
  if decide (in_stack k va) then
    (Page4K,.) <$> physical_of s0 (run_page (stack_pages k) ((va - stack_base k) / PAGE_SIZE))
  else A va.
Proof. reflexivity. Qed.

Lemma pm_ok_perm w os os' : os ≡ₚ os' -> pm_ok w os -> pm_ok w os'.
Proof.
  intros Hp Hok. destruct (pm_client w os Hok) as [l Hci]. apply (client_inv_perm _ _ _ _ _ Hp) in Hci.
  replace w with {| w_pmm := w_pmm w; w_next_slot := w_next_slot w; w_mmu := w_mmu w |} by (by destruct w).
  eapply pm_frame; [done..|]. intros h phys. by rewrite Hp.
Qed.

Lemma leaked_more_ok w os' ks rest :
  pm_ok w os' -> leaked_more (((fun k => HoldRun (stack_pages k)) <$> ks) ++ rest) os' ->
  exists rest', pm_ok w (((fun k => HoldRun (stack_pages k)) <$> ks) ++ rest').
Proof.
  intros Hok (extra & -> & _). exists (extra ++ rest). eapply pm_ok_perm; [|exact Hok]. solve_Permutation.
Qed.

Lemma create_inv A0 w ks k w' :
  stacks_inv A0 w ks -> w_next_slot w + 1 < 2 ^ 64 ->
  create_mapped region_base map_page unmap_page w = Done (Ok k, w') -> stacks_inv A0 w' (k :: ks).
Proof.
  intros [[rest Hok] Hn (slots & Hnd & Hlt & Hl) Hvac Hrest] Hb Hrun.
  pose proof (wp_Done _ _ _ _ _ (create_mapped_spec w _ Hok Hn) Hrun) as (os' & Hok' & Hn' & Hr).
  destruct Hr as (Hslot & Hbase & Hsize & Hun & Hc & Hlk & _ & Hag).
  assert (w_next_slot w' = w_next_slot w + 1) as Hn1
    by (rewrite Hn'; unfold wrapping_add; apply Z.mod_small; lia).
  assert (stack_live (pm_space (w_mmu w')) k (w_next_slot w)) as Hk.
  { split; try done. intros va Hin.
    destruct (stack_run_pages w' os' (stack_pages k) ((va - stack_base k) / PAGE_SIZE) Hok')
      as (pa & _ & Hpa & _); [eapply leaked_more_in; [done|by left]|done| |].
    - unfold in_stack in Hin. change KERNEL_STACK_SIZE with (2 * PAGE_SIZE) in Hin.
      change KERNEL_STACK_PAGES with 2. unfold PAGE_SIZE in *. divlia.
    - exists pa. split; [done|]. rewrite Hag, overlay_stack, decide_True, Hpa; [done|done|].
      destruct (slot_base_start (w_next_slot w) ltac:(lia)) as (_ & Hlo & Hhi). rewrite <-Hbase in Hlo, Hhi.
      destruct Hregion as (_ & _ & _ & Hkr). apply Hkr. unfold in_stack in Hin. lia. }
  split.
  - by eapply (leaked_more_ok w' os' (k :: ks) rest).
  - lia.
  - exists (w_next_slot w :: slots). split_and!.
    + apply NoDup_cons. split; [|done]. intros Hin. pose proof (Forall_elem _ _ _ Hlt Hin). cbn in *. lia.
    + constructor; [lia|]. eapply Forall_impl; [done|]. cbn. lia.
    + constructor; [done|]. apply Forall2_same_length_lookup. split; [by eapply Forall2_length|].
      intros i k2 s2 Hk2 Hs2. pose proof (Forall2_lookup_lr _ _ _ _ _ _ Hl Hk2 Hs2) as Hl2.
      eapply stack_live_keep; [exact Hl2|]. intros va Hkv Hin. rewrite Hag, overlay_stack by done.
      rewrite decide_False; [done|]. eapply (slots_disjoint _ _ k2 k s2); [done|done| |done].
      apply list_elem_of_lookup_2 in Hs2. pose proof (Forall_elem _ _ _ Hlt Hs2). cbn in *. lia.
  - done.
  - intros va Hkv Hout. rewrite Hag, overlay_stack by done. rewrite decide_False by (apply Hout; by left).
    apply Hrest; [done|]. intros k2 Hk2. apply Hout. by right.
Qed.

Lemma stack_refused_inv A0 w ks e w' :
  stacks_inv A0 w ks -> w_next_slot w + 1 < 2 ^ 64 ->
  create_mapped region_base map_page unmap_page w = Done (Err e, w') -> stacks_inv A0 w' ks.
Proof.
  intros [[rest Hok] Hn (slots & Hnd & Hlt & Hl) Hvac Hrest] Hb Hrun.
  pose proof (wp_Done _ _ _ _ _ (create_mapped_spec w _ Hok Hn) Hrun) as (os' & Hok' & Hn' & Hlk & Hag & _).
  assert (w_next_slot w' = w_next_slot w + 1) as Hn1
    by (rewrite Hn'; unfold wrapping_add; apply Z.mod_small; lia).
  split.
  - by eapply (leaked_more_ok w' os' ks rest).
  - lia.
  - exists slots. split_and!; [done|eapply Forall_impl; [done|cbn; lia]|].
    eapply Forall2_impl; [done|]. intros k s Hk. eapply stack_live_keep; [done|]. intros va Hkv _. by apply Hag.
  - done.
  - intros va Hkv Hout. rewrite Hag by done. by apply Hrest.
Qed.

Lemma drop_rest A0 w ks1 k ks2 rest :
  stacks_inv A0 w (ks1 ++ k :: ks2) ->
  pm_ok w (((fun k => HoldRun (stack_pages k)) <$> ks1 ++ k :: ks2) ++ rest) ->
  wp (KernelStack_drop unmap_page k) (fun _ w' => w_next_slot w' = w_next_slot w /\ stacks_inv A0 w' (ks1 ++ ks2) /\
    pm_ok w' (((fun k => HoldRun (stack_pages k)) <$> ks1 ++ ks2) ++ rest)) w.
Proof.
  intros [_ Hn (slots & Hnd & Hlt & Hl) Hvac Hrest] Hok.
  apply Forall2_app_inv_l in Hl as (sl1 & sl' & Hl1 & Hl2 & ->).
  apply Forall2_cons_inv_l in Hl2 as (s & sl2 & Hk & Hl2 & ->).
  set (A := fun va => if decide (in_stack k va) then None else pm_space (w_mmu w) va).
  pose proof Hk as [Hs Hb Hsz Hun Hc Hm]. rewrite fmap_app, fmap_cons, <-app_assoc in Hok. cbn in Hok.
  eapply wp_mono; [apply (drop_stack_spec w k _ _ A Hok)|]; try done.
  - rewrite Hb. by apply slot_base_start.
  - intros va _ Hin. unfold A. by rewrite decide_True.
  - intros va Hkv. rewrite overlay_stack. unfold A. destruct (decide (in_stack k va)) as [Hin|]; [|done].
    destruct (Hm va Hin) as (pa & -> & ->). done.
  - intros [] w' (Hok' & Hn' & Hag). apply NoDup_app in Hnd as (Hnd1 & Hx & Hnd2).
    apply NoDup_cons in Hnd2 as [Hns Hnd2].
    assert (forall ks sl, s ∉ sl -> Forall2 (stack_live (pm_space (w_mmu w))) ks sl ->
      Forall2 (stack_live (pm_space (w_mmu w'))) ks sl) as Hkeep.
    { intros ks sl Hnin Hf. apply Forall2_same_length_lookup. split; [by eapply Forall2_length|].
      intros i k2 s2 Hk2 Hs2. pose proof (Forall2_lookup_lr _ _ _ _ _ _ Hf Hk2 Hs2) as Hl'.
      eapply stack_live_keep; [exact Hl'|]. intros va Hkv Hin. rewrite Hag by done. unfold A.
      rewrite decide_False; [done|]. eapply (slots_disjoint _ _ k2 k s2); [done|done| |done].
      apply list_elem_of_lookup_2 in Hs2. by intros ->. }
    rewrite app_assoc, <-fmap_app in Hok'. split; [exact Hn'|]. split; [|exact Hok']. split.
    + by exists rest.
    + congruence.
    + exists (sl1 ++ sl2). split_and!.
      * apply NoDup_app. split_and!; [done| |done]. intros x Hx1 Hx2. apply (Hx x Hx1). by right.
      * rewrite Hn'. apply Forall_app in Hlt as [? [_ ?]%Forall_cons]. by apply Forall_app.
      * apply Forall2_app; apply Hkeep; try done. intros Hin. apply (Hx s Hin). by left.
    + done.
    + intros va Hkv Hout. rewrite Hag by done. unfold A. destruct (decide (in_stack k va)) as [Hin|Hin].
      * symmetry. apply Hvac; [done|]. destruct (slot_base_start s Hs) as (_ & Hlo & Hhi).
        unfold in_stack in Hin. rewrite Hb in Hin. lia.
      * apply Hrest; [done|]. intros k2 Hk2 Hin2. assert (k2 <> k) by (by intros ->).
        apply (Hout k2); [set_solver|done].
Qed.
Lemma drop_wp A0 w ks1 k ks2 :
  stacks_inv A0 w (ks1 ++ k :: ks2) ->
  wp (KernelStack_drop unmap_page k) (fun _ w' => stacks_inv A0 w' (ks1 ++ ks2)) w.
Proof.
  intros Hinv. destruct (si_ok _ _ _ Hinv) as [rest Hok].
  eapply wp_mono; [exact (drop_rest A0 w ks1 k ks2 rest Hinv Hok)|]. by intros _ w' (_ & ? & _).
Qed.

Lemma stacks_init w os :
  pm_ok w os -> 0 <= w_next_slot w ->
  (forall va, pm_kernel va -> region_base <= va < region_base + KERNEL_STACK_REGION_SIZE ->
    pm_space (w_mmu w) va = None) ->
  stacks_inv (pm_space (w_mmu w)) w [].
Proof. intros Hok Hn Hvac. split; try done; [by exists os|]. exists []. split_and!; constructor. Qed.

Lemma stacks_reachable A0 c c' :
  stacks_inv A0 c.1 c.2 -> rtc stack_step c c' -> stacks_inv A0 c'.1 c'.2.
Proof.
  intros Hinv Hrtc. induction Hrtc as [|c1 c2 c3 Hstep _ IH]; [done|]. apply IH. clear IH.
  destruct Hstep as [w ks k w' Hb Hrun|w ks e w' Hb Hrun|w ks1 k ks2 w' Hrun]; cbn in *.
  - by eapply create_inv.
  - by eapply stack_refused_inv.
  - exact (wp_Done _ _ _ _ _ (drop_wp A0 w ks1 k ks2 Hinv) Hrun).
Qed.

(** The slot that the next stack will get is vacant, and so is its guard. *)
Lemma region_vacant A0 w ks va :
  stacks_inv A0 w ks -> region_base <= va < region_base + KERNEL_STACK_REGION_SIZE ->
  (forall k, k ∈ ks -> ~ in_stack k va) -> pm_space (w_mmu w) va = None.
Proof.
  intros [_ _ _ Hvac Hrest] Hva Hout. destruct Hregion as (_ & _ & _ & Hk).
  rewrite Hrest; [by apply Hvac, Hva; apply Hk|by apply Hk|done].
Qed.

Lemma live_slot A0 w ks k :
  stacks_inv A0 w ks -> k ∈ ks ->
  exists slot, slot < w_next_slot w /\ stack_live (pm_space (w_mmu w)) k slot.
Proof.
  intros [_ _ (slots & _ & Hlt & Hl) _ _] Hk. apply list_elem_of_lookup_1 in Hk as [i Hi].
  destruct (Forall2_lookup_l _ _ _ _ _ Hl Hi) as (slot & Hs & Hlive).
  exists slot. split; [|done]. by apply (Forall_elem _ _ _ Hlt), list_elem_of_lookup_2 with i.
Qed.

(** Why a stack is refused: no slots left, or no memory. *)
Lemma create_refusals A0 w ks :
  stacks_inv A0 w ks ->
  wp (create_mapped region_base map_page unmap_page) (fun r _ => forall e, r = Err e ->
    if decide (w_next_slot w < MAX_KERNEL_STACK_SLOTS)
    then e = StackOutOfMemory \/ e = StackMap MapError_OutOfMemory else e = RegionExhausted) w.
Proof.
  intros Hinv. pose proof Hinv as [[rest Hok] Hn _ _ _].
  eapply wp_mono; [exact (create_mapped_spec w _ Hok Hn)|]. intros r w' (os' & _ & _ & Hr) e ->.
  assert (w_next_slot w < MAX_KERNEL_STACK_SLOTS ->
    vacant (pm_space (w_mmu w)) (slot_base (w_next_slot w)) KERNEL_STACK_PAGES) as Hvac.
  { intros Hlt va Hkv Hva. destruct (slot_base_start (w_next_slot w) ltac:(lia)) as (_ & Hlo & Hhi).
    change (KERNEL_STACK_PAGES * PAGE_SIZE) with KERNEL_STACK_SIZE in Hva.
    apply (region_vacant A0 w ks); [done|lia|]. intros k Hk Hin.
    destruct (live_slot A0 w ks k Hinv Hk) as (slot & Hsl & [Hs Hb _ _ _ _]).
    unfold in_stack in Hin. rewrite Hb in Hin. revert Hin Hva. unfold slot_base.
    change KERNEL_STACK_SLOT_SIZE with 12288. change KERNEL_STACK_GUARD_SIZE with 4096.
    change KERNEL_STACK_SIZE with 8192. lia. }
  destruct Hr as (_ & _ & He). case_decide as Hlt; destruct e as [| | |[]]; cbn [map_failure] in He; tauto || lia.
Qed.

(** No physical page backs two stacks. *)
Lemma stacks_apart A0 w ks i j k1 k2 va1 va2 pa1 pa2 :
  stacks_inv A0 w ks -> ks !! i = Some k1 -> ks !! j = Some k2 -> i <> j ->
  in_stack k1 va1 -> in_stack k2 va2 ->
  pm_space (w_mmu w) va1 = Some (Page4K, pa1) -> pm_space (w_mmu w) va2 = Some (Page4K, pa2) -> pa1 <> pa2.
Proof.
  intros Hinv Hi Hj Hne H1 H2 Hp1 Hp2 <-. pose proof Hinv as [[rest Hok] _ (slots & _ & _ & Hl) _ _].
  destruct (pm_client _ _ Hok) as [l Hci]. pose proof (pi_layout _ _ (pi_core _ _ (ci_inv _ _ _ _ Hci))) as Hwf.
  pose proof (ci_nodup _ _ _ _ Hci) as (_ & _ & Hnd)%NoDup_app. rewrite all_held_app in Hnd.
  apply NoDup_app in Hnd as (Hnd & _ & _).
  assert (forall n k va, ks !! n = Some k -> in_stack k va -> pm_space (w_mmu w) va = Some (Page4K, pa1) ->
    exists h, h ∈ held_pages (HoldRun (stack_pages k)) /\ physical_of s0 h = Some pa1) as Hpage.
  { intros n k va Hk Hin Hp. destruct (Forall2_lookup_l _ _ _ _ _ Hl Hk) as (slot & _ & [_ _ _ _ Hc Hm]).
    destruct (Hm va Hin) as (pa & Hph & Hpa). exists (run_page (stack_pages k) ((va - stack_base k) / PAGE_SIZE)).
    split; [|congruence]. apply elem_of_handles. cbn. rewrite Hc. unfold in_stack in Hin.
    change KERNEL_STACK_SIZE with (2 * PAGE_SIZE) in Hin. change KERNEL_STACK_PAGES with 2.
    unfold PAGE_SIZE in *. divlia. }
  destruct (Hpage i k1 va1 Hi H1 Hp1) as (h1 & Hh1 & Hq1). destruct (Hpage j k2 va2 Hj H2 Hp2) as (h2 & Hh2 & Hq2).
  assert (forall n k h, ks !! n = Some k -> h ∈ held_pages (HoldRun (stack_pages k)) -> valid (w_pmm w) h) as Hval.
  { intros n k h Hk Hh. apply (Forall_elem _ _ _ (ci_held _ _ _ _ Hci)). apply list_elem_of_bind.
    exists (HoldRun (stack_pages k)). split; [done|]. apply elem_of_app. left. apply list_elem_of_fmap.
    exists k. split; [done|]. by apply list_elem_of_lookup_2 in Hk. }
  rewrite <-(frame_physical_of s0 (w_pmm w)) in Hq1, Hq2 by apply Hci.
  assert (h1 = h2) as <- by (apply (physical_of_inj (w_pmm w) h1 h2 pa1); eauto).
  apply (bind_apart (fun k => held_pages (HoldRun (stack_pages k))) ks i j k1 k2 h1); try done.
  unfold all_held in Hnd. rewrite list_fmap_bind in Hnd. exact Hnd.
Qed.

(** What the invariant says about the mappings. *)
Lemma stacks_summary A0 w ks :
  stacks_inv A0 w ks ->
  (forall k va, k ∈ ks -> in_stack k va -> pm_kernel va /\ exists pa, managed s0 pa /\
    physical_of s0 (run_page (stack_pages k) ((va - stack_base k) / PAGE_SIZE)) = Some pa /\
    pm_space (w_mmu w) va = Some (Page4K, pa)) /\
  (forall k va, k ∈ ks -> stack_base k - PAGE_SIZE <= va < stack_base k ->
    pm_kernel va /\ pm_space (w_mmu w) va = None) /\
  (forall va, pm_kernel va -> ~ region_base <= va < region_base + KERNEL_STACK_REGION_SIZE ->
    pm_space (w_mmu w) va = A0 va).
Proof.
  intros Hinv. split_and!.
  - intros k va Hk Hin. destruct (live_slot A0 w ks k Hinv Hk) as (slot & _ & Hlive).
    split; [by eapply in_stack_kernel|]. destruct (sl_mapped _ _ _ Hlive va Hin) as (pa & Hpa & Hsp). exists pa.
    split_and!; [|done|done]. destruct (si_ok _ _ _ Hinv) as [rest Hok].
    destruct (stack_run_pages w _ (stack_pages k) ((va - stack_base k) / PAGE_SIZE) Hok)
      as (pa' & _ & Hpa' & Hman); [|apply Hlive| |congruence].
    + apply elem_of_app. left. apply list_elem_of_fmap. by exists k.
    + unfold in_stack in Hin. change KERNEL_STACK_SIZE with (2 * PAGE_SIZE) in Hin.
      change KERNEL_STACK_PAGES with 2. unfold PAGE_SIZE in *. divlia.
  - intros k va Hk Hva. destruct (live_slot A0 w ks k Hinv Hk) as (slot & _ & Hlive).
    destruct (guard_vacant _ k slot va Hlive Hva) as [Hreg Hout]. split; [by apply Hregion|].
    apply (region_vacant A0 w ks va Hinv Hreg). intros k2 Hk2.
    destruct (live_slot A0 w ks k2 Hinv Hk2) as (slot2 & _ & Hlive2). by eapply Hout.
  - intros va Hk Hout. apply (si_rest _ _ _ Hinv va Hk). intros k Hkin Hin. apply Hout.
    destruct (live_slot A0 w ks k Hinv Hkin) as (slot & _ & [Hs Hb _ _ _ _]).
    destruct (slot_base_start slot Hs) as (_ & Hlo & Hhi). unfold in_stack in Hin. rewrite Hb in Hin. lia.
Qed.
End Stacks.

(** ** Abstract address spaces *)

(** Calls on an address space and their results. *)
Inductive space_op :=
  | MapOp (va : VirtualAddress) (pa : PhysicalAddress) (p : MappingPermissions)
  | UnmapOp (va : VirtualAddress).
Inductive op_result :=
  | MapResult (r : Result unit MapError)
  | UnmapResult (r : Result PhysicalAddress UnmapError).

(** A run of a machine: a list of calls and their results. *)
Inductive run_of {St} (step : St -> space_op -> op_result -> St -> Prop) : St -> list (space_op * op_result) -> St -> Prop :=
  | run_nil s : run_of step s [] s
  | run_cons s op res s' tr s'' :
      step s op res s' -> run_of step s' tr s'' -> run_of step s ((op, res) :: tr) s''.

Section Space.
Context {V : Type}.

(** What every address is mapped with; address spaces are alike when they map
    every address alike. *)
Definition aspace : Type := VirtualAddress -> option V.
#[global] Instance aspace_equiv : Equiv aspace := fun A B => forall va, A va = B va.
#[global] Instance aspace_equivalence : Equivalence (≡@{aspace}).
Proof.
  split; [by intros A va|by intros A B HAB va|intros A B C HAB HBC va; by rewrite HAB].
Qed.

Context (map_spec : aspace -> VirtualAddress -> PhysicalAddress -> MappingPermissions -> Result unit MapError * aspace).
Context (unmap_spec : aspace -> VirtualAddress -> Result PhysicalAddress UnmapError * aspace).

(** One call on an abstract address space; a mapping that needs a new table may
    find no memory. *)
Inductive space_step_to : aspace -> space_op -> op_result -> aspace -> Prop :=
  | space_map A va pa p A' :
      A' ≡ (map_spec A va pa p).2 -> space_step_to A (MapOp va pa p) (MapResult (map_spec A va pa p).1) A'
  | space_map_no_memory A va pa p A' :
      (map_spec A va pa p).1 = Ok tt -> A' ≡ A ->
      space_step_to A (MapOp va pa p) (MapResult (Err MapError_OutOfMemory)) A'
  | space_unmap A va A' :
      A' ≡ (unmap_spec A va).2 -> space_step_to A (UnmapOp va) (UnmapResult (unmap_spec A va).1) A'.

(** An implementation on states [St] that keeps an invariant and does what the
    abstract call does refines the address space, and never gets stuck. *)
Lemma run_refines {St} (call : space_op -> M St op_result) (inv : St -> Prop) (view : St -> aspace) w0 tr w :
  (forall w op, inv w -> wp (call op) (fun res w' => inv w' /\ space_step_to (view w) op res (view w')) w) ->
  inv w0 -> run_of (fun w op res w' => call op w = Done (res, w')) w0 tr w ->
  run_of space_step_to (view w0) tr (view w) /\ inv w /\ forall op, exists res w', call op w = Done (res, w').
Proof.
  intros Hcall Hinv Hrun. induction Hrun as [w|w1 op res w2 tr w3 Hstep _ IH].
  - split_and!; [constructor|done|]. intros op.
    destruct (proj1 (wp_unfold _ _ _) (Hcall w op Hinv)) as (res & w' & Hr & _). by exists res, w'.
  - destruct (wp_Done _ _ _ _ _ (Hcall w1 op Hinv) Hstep) as [Hinv2 Hs].
    destruct (IH Hinv2) as [Hr Hrest]. split; [by econstructor|done].
Qed.
End Space.
