(* ===== verification/Kmalloc.v ===== *)
(** * The kernel heap

    Models [allocator/mod.rs]: slab pools of one object layout each, and the
    size-class allocator on five of them.  A slab is a page from the page
    allocator: an encoded back pointer in its first word, the slab header in
    slot 0, objects in the other slots.  The spin lock of the global allocator
    makes every call one step. *)

From S2P Require Import Prelude Address HwInfo Pmm.
From stdpp Require Import base tactics option list list_numbers numbers gmap strings.

#[local] Open Scope Z_scope.
#[local] Open Scope kernel_scope.

Definition CACHE_LINE_SIZE : Z := 64.
Definition BACK_POINTER_SIZE : Z := 8.
Definition MIN_SLABS : Z := 1.
Definition MAX_CLASS : Z := 1024.
Definition MAX_BITMAP_WORDS : Z := 1.
Definition POISON_FREE : Z := 0xdd.

Inductive AllocError := OutOfMemory | BadAlignment | TooLarge | AllocNotInitialized.
Inductive FreeError :=
  | MisalignedPointer | MetadataSlot | OutOfBounds | DoubleFree | InvalidSlab | FreeNotInitialized.
Inductive PoolInitError := PoolAlignment | PoolHeader | PoolObject.

#[global] Instance FreeError_eq_dec : EqDecision FreeError.
Proof. solve_decision. Defined.

(** [NonNull::new] of an address. *)
Definition NonNull_new (address : Z) : option Z := if address =? 0 then None else Some address.

(** [u64::trailing_zeros], 64 for zero. *)
Fixpoint trailing_zeros_from (fuel : nat) (i word : Z) : Z :=
  match fuel with
  | O => i
  | S fuel => if Z.testbit word i then i else trailing_zeros_from fuel (i + 1) word
  end.
Definition trailing_zeros (word : Z) : Z := trailing_zeros_from 64 0 word.

Definition is_power_of_two (a : Z) : bool := (0 <? a) && (2 ^ Z.log2 a =? a).

Definition align_up (value alignment : Z) : Z :=
  Z.land (value + alignment - 1) (not_uint 64 (alignment - 1)).

Definition mix64 (value : Z) : Z :=
  let z := wrapping_add 64 value 0x9e3779b97f4a7c15 in
  let z := wrapping_mul 64 (Z.lxor z (Z.shiftr z 30)) 0xbf58476d1ce4e5b9 in
  let z := wrapping_mul 64 (Z.lxor z (Z.shiftr z 27)) 0x94d049bb133111eb in
  Z.lxor z (Z.shiftr z 31).

(** ** Memory *)

(** Null pointers are 0. *)
Record SlabHeader := {
  page_addr : Z;
  header_cookie : Z;
  bitmap : list Z;
  free_count : Z;
  next : Z;
  prev : Z;
  in_partial_list : bool;
}.
Definition size_of_SlabHeader : Z := 56.
Definition align_of_SlabHeader : Z := 8.
Definition set_bits (b : list Z) (n : Z) (h : SlabHeader) : SlabHeader :=
  {| page_addr := page_addr h; header_cookie := header_cookie h; bitmap := b; free_count := n;
     next := next h; prev := prev h; in_partial_list := in_partial_list h |}.
Definition set_next (v : Z) (h : SlabHeader) : SlabHeader :=
  {| page_addr := page_addr h; header_cookie := header_cookie h; bitmap := bitmap h; free_count := free_count h;
     next := v; prev := prev h; in_partial_list := in_partial_list h |}.
Definition set_prev (v : Z) (h : SlabHeader) : SlabHeader :=
  {| page_addr := page_addr h; header_cookie := header_cookie h; bitmap := bitmap h; free_count := free_count h;
     next := next h; prev := v; in_partial_list := in_partial_list h |}.
Definition set_in_list (v : bool) (h : SlabHeader) : SlabHeader :=
  {| page_addr := page_addr h; header_cookie := header_cookie h; bitmap := bitmap h; free_count := free_count h;
     next := next h; prev := prev h; in_partial_list := v |}.

(** [MAPPERS] *)
Record Mappers := {
  map_physical_to_virtual : PhysicalAddress -> VirtualAddress;
  map_virtual_to_physical : VirtualAddress -> PhysicalAddress;
}.
Definition Mappers_identity : Mappers :=
  {| map_physical_to_virtual := fun a => a; map_virtual_to_physical := fun a => a |}.

(** What the heap reads and writes besides its pools: the page allocator, the
    back-pointer words and the slab headers by address, and the bytes of
    objects. *)
Record Memory := {
  m_pmm : Pmm;
  m_words : gmap Z Z;
  m_headers : gmap Z SlabHeader;
  m_bytes : Z -> Z;
  m_mappers : Mappers;
}.

(** The function pointers [alloc_page] and [free_page] of a pool: [no_page_alloc]
    and [no_page_free] of an empty pool, [pmm_alloc_page] and [pmm_free_page] of
    the heap's pools, or those that a test passes, which work on the memory. *)
Inductive PageFns :=
  | NoPages
  | PmmPages
  | OtherPages (alloc_page : M Memory (option Z)) (free_page : Z -> M Memory unit).

Record Pool := {
  page_fns : PageFns;
  pool_cookie : Z;
  current : Z;
  partial_head : Z;
  total_allocated : Z;
  slab_count : Z;
}.
Definition Pool_empty : Pool :=
  {| page_fns := NoPages; pool_cookie := 0; current := 0; partial_head := 0; total_allocated := 0; slab_count := 0 |}.

(** A pool and the memory it works on. *)
Record PoolState := { pool : Pool; mem : Memory }.

Definition on_mem (f : Memory -> Memory) (s : PoolState) : PoolState := {| pool := pool s; mem := f (mem s) |}.
Definition on_pool (f : Pool -> Pool) (s : PoolState) : PoolState := {| pool := f (pool s); mem := mem s |}.
Definition set_current (v : Z) : PoolState -> PoolState := on_pool (fun p =>
  {| page_fns := page_fns p; pool_cookie := pool_cookie p; current := v; partial_head := partial_head p;
     total_allocated := total_allocated p; slab_count := slab_count p |}).
Definition set_partial_head (v : Z) : PoolState -> PoolState := on_pool (fun p =>
  {| page_fns := page_fns p; pool_cookie := pool_cookie p; current := current p; partial_head := v;
     total_allocated := total_allocated p; slab_count := slab_count p |}).
Definition set_total (v : Z) : PoolState -> PoolState := on_pool (fun p =>
  {| page_fns := page_fns p; pool_cookie := pool_cookie p; current := current p; partial_head := partial_head p;
     total_allocated := v; slab_count := slab_count p |}).
Definition set_slab_count (v : Z) : PoolState -> PoolState := on_pool (fun p =>
  {| page_fns := page_fns p; pool_cookie := pool_cookie p; current := current p; partial_head := partial_head p;
     total_allocated := total_allocated p; slab_count := v |}).
Definition set_words (v : gmap Z Z) (m : Memory) : Memory :=
  {| m_pmm := m_pmm m; m_words := v; m_headers := m_headers m; m_bytes := m_bytes m; m_mappers := m_mappers m |}.
Definition set_headers (v : gmap Z SlabHeader) (m : Memory) : Memory :=
  {| m_pmm := m_pmm m; m_words := m_words m; m_headers := v; m_bytes := m_bytes m; m_mappers := m_mappers m |}.
Definition set_pmm (v : Pmm) (m : Memory) : Memory :=
  {| m_pmm := v; m_words := m_words m; m_headers := m_headers m; m_bytes := m_bytes m; m_mappers := m_mappers m |}.

(** Reading and writing memory; what was never written is [Undefined]. *)
Definition read_word (address : Z) : M PoolState Z :=
  let! w := gets (fun s => m_words (mem s) !! address) in
  match w with Some v => ret v | None => undefined end.
Definition write_word (address v : Z) : M PoolState unit :=
  modify (on_mem (fun m => set_words (<[address := v]> (m_words m)) m)).
Definition read_header (slab : Z) : M PoolState SlabHeader :=
  let! h := gets (fun s => m_headers (mem s) !! slab) in
  match h with Some h => ret h | None => undefined end.
Definition write_header (slab : Z) (h : SlabHeader) : M PoolState unit :=
  modify (on_mem (fun m => set_headers (<[slab := h]> (m_headers m)) m)).
Definition update_header (slab : Z) (f : SlabHeader -> SlabHeader) : M PoolState unit :=
  let! h := read_header slab in write_header slab (f h).

(** [write_bytes]: a word or a header that the bytes overlap is lost. *)
Definition apart (a n b m : Z) : bool := (a + n <=? b) || (b + m <=? a).
Definition write_bytes (address v n : Z) : M PoolState unit :=
  modify (on_mem (fun m => {|
    m_pmm := m_pmm m;
    m_words := filter (fun kv => apart address n kv.1 BACK_POINTER_SIZE = true) (m_words m);
    m_headers := filter (fun kv => apart address n kv.1 size_of_SlabHeader = true) (m_headers m);
    m_bytes := fun a => if (address <=? a) && (a <? address + n) then v else m_bytes m a;
    m_mappers := m_mappers m |})).

Definition lift_heap_pmm {A} (c : M Pmm A) : M PoolState A := fun s =>
  match c (m_pmm (mem s)) with
  | Done (a, p) => Done (a, on_mem (set_pmm p) s)
  | Panic msg => Panic msg
  | Undefined => Undefined
  | OutOfFuel => OutOfFuel
  end.

Definition lift_memory {A} (c : M Memory A) : M PoolState A := fun s =>
  match c (mem s) with
  | Done (a, m) => Done (a, on_mem (fun _ => m) s)
  | Panic msg => Panic msg
  | Undefined => Undefined
  | OutOfFuel => OutOfFuel
  end.

(** ** Object layouts *)

(** [size_of::<T>()] and [align_of::<T>()]. *)
Record Layout := { size_of : Z; align_of : Z }.

Definition object_align (t : Layout) : Z := Z.max (align_of t) CACHE_LINE_SIZE.
Definition object_size (t : Layout) : Z := align_up (Z.max (size_of t) 1) (object_align t).
Definition usable_start (t : Layout) : Z := align_up BACK_POINTER_SIZE (object_align t).

(** The loop of [objects_per_slab]. *)
Fixpoint shrink (usable_start object_size : Z) (objects : nat) : Z :=
  match objects with
  | O => 0
  | S n =>
      if PAGE_SIZE <? usable_start + Z.of_nat objects * object_size + MAX_BITMAP_WORDS * 8
      then shrink usable_start object_size n else Z.of_nat objects
  end.
Definition objects_per_slab (t : Layout) : Z :=
  if PAGE_SIZE <=? usable_start t then 0
  else shrink (usable_start t) (object_size t) (Z.to_nat ((PAGE_SIZE - usable_start t) / object_size t)).

Definition slab_cookie (p : Pool) (page_addr : Z) : Z := mix64 (Z.lxor (pool_cookie p) page_addr).
Definition encode_back_pointer (p : Pool) (page_addr slab : Z) : Z := Z.lxor slab (slab_cookie p page_addr).
Definition decode_back_pointer (p : Pool) (page_addr encoded : Z) : option Z :=
  let decoded := Z.lxor encoded (slab_cookie p page_addr) in
  if negb (decoded mod align_of_SlabHeader =? 0) then None else NonNull_new decoded.

Definition Pool_try_new (t : Layout) (fns : PageFns) (seed : Z) : Result Pool PoolInitError :=
  if PAGE_SIZE <? object_align t then Err PoolAlignment
  else if object_size t <? size_of_SlabHeader then Err PoolHeader
  else if objects_per_slab t <=? 1 then Err PoolObject
  else Ok {| page_fns := fns; pool_cookie := mix64 seed; current := 0; partial_head := 0;
             total_allocated := 0; slab_count := 0 |}.
Definition Pool_new {S} (t : Layout) (fns : PageFns) (seed : Z) : M S Pool :=
  match Pool_try_new t fns seed with
  | Ok p => ret p
  | Err _ => panic "slab: unsupported object layout"
  end.

(** ** Pools *)

Section Pools.
Context `{PageLayout}.

(** [pmm_alloc_page] and [pmm_free_page], and a pool's calls of its functions. *)
Definition pmm_alloc_page : M PoolState (option Z) :=
  let! page := lift_heap_pmm global_alloc_page in
  let? page := page in
  let! physical := lift_heap_pmm (leak_physical page) in
  let? physical := physical in
  let! mappers := gets (fun s => m_mappers (mem s)) in
  ret (NonNull_new (map_physical_to_virtual mappers physical)).
Definition pmm_free_page (page : Z) : M PoolState unit :=
  let! mappers := gets (fun s => m_mappers (mem s)) in
  lift_heap_pmm (free_physical_page (map_virtual_to_physical mappers page)).
Definition call_alloc_page : M PoolState (option Z) :=
  let! fns := gets (fun s => page_fns (pool s)) in
  match fns with NoPages => ret None | PmmPages => pmm_alloc_page | OtherPages alloc_page _ => lift_memory alloc_page end.
Definition call_free_page (page : Z) : M PoolState unit :=
  let! fns := gets (fun s => page_fns (pool s)) in
  match fns with NoPages => ret tt | PmmPages => pmm_free_page page | OtherPages _ free_page => lift_memory (free_page page) end.

Definition link_slab (slab : Z) : M PoolState unit :=
  let! head := gets (fun s => partial_head (pool s)) in
  update_header slab (set_next head) ;;;
  update_header slab (set_prev 0) ;;;
  (match NonNull_new head with
   | Some head => update_header head (set_prev slab)
   | None => ret tt
   end) ;;;
  modify (set_partial_head slab) ;;;
  update_header slab (set_in_list true).

Definition unlink_slab (slab : Z) : M PoolState unit :=
  let! h := read_header slab in
  if negb (in_partial_list h) then ret tt
  else
    (match NonNull_new (prev h) with
     | Some prev => update_header prev (set_next (next h))
     | None => modify (set_partial_head (next h))
     end) ;;;
    let! h := read_header slab in
    (match NonNull_new (next h) with
     | Some next => update_header next (set_prev (prev h))
     | None => ret tt
     end) ;;;
    update_header slab (set_prev 0) ;;;
    update_header slab (set_next 0) ;;;
    update_header slab (set_in_list false) ;;;
    let! p := gets pool in
    if current p =? slab then modify (set_current (partial_head p)) else ret tt.

(** The loop of [current_slab_with_space]. *)
Fixpoint find_space (fuel : nat) : M PoolState (option Z) :=
  match fuel with
  | O => out_of_fuel
  | S fuel =>
      let! cur := gets (fun s => current (pool s)) in
      match NonNull_new cur with
      | None => ret None
      | Some slab =>
          let! h := read_header slab in
          if 0 <? free_count h then ret (Some slab)
          else modify (set_current (next h)) ;;; find_space fuel
      end
  end.
(** The loop visits a header at most once, so the headers in memory bound it. *)
Definition current_slab_with_space : M PoolState (option Z) :=
  let! fuel := gets (fun s => S (size (m_headers (mem s)))) in
  let! cur := gets (fun s => current (pool s)) in
  match NonNull_new cur with
  | None => find_space fuel
  | Some slab =>
      let! h := read_header slab in
      if 0 <? free_count h then ret (Some slab)
      else
        let! head := gets (fun s => partial_head (pool s)) in
        modify (set_current head) ;;;
        find_space fuel
  end.

Section Layout.
Context (t : Layout).

(** One iteration of the loop over the bitmap's words of [alloc_from_slab]; its
    [break] leads to the final [None]. *)
Definition take_slot (slab word_index : Z) (b : unit) : M PoolState (ctl unit (option Z)) :=
  let! h := read_header slab in
  let! word := expect "index out of bounds" (bitmap h !! Z.to_nat word_index) in
  if word =? 0 then ret (Continue tt)
  else
    let bit_index := trailing_zeros word in
    let slot_index := word_index * 64 + bit_index in
    if objects_per_slab t <=? slot_index then ret (Return None)
    else
      let! n := sub_uint (free_count h) 1 in
      write_header slab
        (set_bits (<[Z.to_nat word_index := Z.land word (not_uint 64 (Z.shiftl 1 bit_index))]> (bitmap h)) n h) ;;;
      let! total := gets (fun s => total_allocated (pool s)) in
      let! total := add_uint 64 total 1 in
      modify (set_total total) ;;;
      (if n =? 0 then unlink_slab slab else ret tt) ;;;
      let! offset := mul_uint 64 slot_index (object_size t) in
      let! start := add_uint 64 (page_addr h) (usable_start t) in
      let! address := add_uint 64 start offset in
      ret (Return (NonNull_new address)).

Definition alloc_from_slab (slab : Z) : M PoolState (option Z) :=
  let! h := read_header slab in
  if free_count h =? 0 then ret None
  else
    let! r := for_loop (range 0 MAX_BITMAP_WORDS) tt (take_slot slab) in
    match r with Return address => ret address | Continue _ => ret None end.

(** The part of [alloc_new_slab] after the page was allocated. *)
Definition init_slab (page_addr : Z) : M PoolState (option Z) :=
  let? slab_addr := checked_add 64 page_addr (usable_start t) in
  let? slab := NonNull_new slab_addr in
  let objects := objects_per_slab t in
  let used_bits := objects mod 64 in
  let word := if negb (used_bits =? 0) then Z.shiftl 1 used_bits - 1 else u64_MAX in
  let! p := gets pool in
  let! max_free := sub_uint objects 1 in
  write_header slab {|
    page_addr := page_addr;
    header_cookie := slab_cookie p page_addr;
    bitmap := [Z.land word (not_uint 64 1)];
    free_count := max_free;
    next := 0; prev := 0; in_partial_list := false |} ;;;
  write_word page_addr (encode_back_pointer p page_addr slab) ;;;
  link_slab slab ;;;
  let! n := gets (fun s => slab_count (pool s)) in
  let! n := add_uint 64 n 1 in
  modify (set_slab_count n) ;;;
  ret (Some slab).
Definition alloc_new_slab : M PoolState (option Z) :=
  let! page := call_alloc_page in
  let? page_addr := page in
  init_slab page_addr.

Definition Pool_alloc : M PoolState (option Z) :=
  let! slab := current_slab_with_space in
  match slab with
  | Some slab => alloc_from_slab slab
  | None =>
      let! slab := alloc_new_slab in
      let? slab := slab in
      modify (set_current slab) ;;;
      alloc_from_slab slab
  end.

(** The checks of [free] on the pointer's slot. *)
Definition check_slot (page_base object_addr : Z) : Result Z FreeError :=
  match checked_add 64 page_base (usable_start t) with
  | None => Err OutOfBounds
  | Some storage_base =>
      if object_addr <? storage_base then Err OutOfBounds
      else
        let offset := object_addr - storage_base in
        if negb (offset mod object_size t =? 0) then Err MisalignedPointer
        else
          let slot_index := offset / object_size t in
          if slot_index =? 0 then Err MetadataSlot
          else if objects_per_slab t <=? slot_index then Err OutOfBounds
          else Ok slot_index
  end.

(** The slab of the pointer's page, when the page belongs to this pool. *)
Definition owning_slab (page_base : Z) : M PoolState (Result Z FreeError) :=
  let! encoded := read_word page_base in
  let! p := gets pool in
  let? slab := decode_back_pointer p page_base encoded ok_or InvalidSlab in
  let? expected_slab_addr := checked_add 64 page_base (usable_start t) ok_or InvalidSlab in
  if negb (slab =? expected_slab_addr) then ret (Err InvalidSlab)
  else
    let! h := read_header slab in
    if negb (page_addr h =? page_base) || negb (header_cookie h =? slab_cookie p page_base)
    then ret (Err InvalidSlab)
    else ret (Ok slab).

(** The end of [free]: the slot is cleared and the slab given back or linked. *)
Definition release_slot (slab object_addr slot_index : Z) : M PoolState (Result unit FreeError) :=
  let word_index := slot_index / 64 in
  let bit_mask := Z.shiftl 1 (slot_index mod 64) in
  let! h := read_header slab in
  let! word := expect "index out of bounds" (bitmap h !! Z.to_nat word_index) in
  if negb (Z.land word bit_mask =? 0) then ret (Err DoubleFree)
  else
    write_bytes object_addr POISON_FREE (object_size t) ;;;
    let! h := read_header slab in
    let was_full := free_count h =? 0 in
    let! n := add_uint 64 (free_count h) 1 in
    write_header slab (set_bits (<[Z.to_nat word_index := Z.lor word bit_mask]> (bitmap h)) n h) ;;;
    let! total := gets (fun s => total_allocated (pool s)) in
    let! total := sub_uint total 1 in
    modify (set_total total) ;;;
    let! max_free := sub_uint (objects_per_slab t) 1 in
    let! count := gets (fun s => slab_count (pool s)) in
    if (n =? max_free) && (MIN_SLABS <? count) then
      unlink_slab slab ;;;
      let! count := sub_uint count 1 in
      modify (set_slab_count count) ;;;
      write_word (page_addr h) usize_MAX ;;;
      let! page := expect "called `Option::unwrap()` on a `None` value" (NonNull_new (page_addr h)) in
      call_free_page page ;;;
      ret (Ok tt)
    else
      (if was_full then link_slab slab ;;; modify (set_current slab) else ret tt) ;;;
      ret (Ok tt).

Definition Pool_free (object_addr : Z) : M PoolState (Result unit FreeError) :=
  let page_base := Z.land object_addr (not_uint 64 (PAGE_SIZE - 1)) in
  try! slab := owning_slab page_base in
  match check_slot page_base object_addr with
  | Err e => ret (Err e)
  | Ok slot_index => release_slot slab object_addr slot_index
  end.
End Layout.
End Pools.

(** ** Size classes *)

Inductive SizeClass := Class64 | Class128 | Class256 | Class512 | Class1024.
#[global] Instance SizeClass_eq_dec : EqDecision SizeClass.
Proof. solve_decision. Defined.

Definition size_class (size : Z) : option SizeClass :=
  if size <=? 64 then Some Class64
  else if size <=? 128 then Some Class128
  else if size <=? 256 then Some Class256
  else if size <=? 512 then Some Class512
  else if size <=? 1024 then Some Class1024
  else None.

(** [Class<N>]: [N] bytes, aligned to 64. *)
Definition class_bytes (c : SizeClass) : Z :=
  match c with Class64 => 64 | Class128 => 128 | Class256 => 256 | Class512 => 512 | Class1024 => 1024 end.
Definition Class_layout (c : SizeClass) : Layout := {| size_of := class_bytes c; align_of := 64 |}.

Record Kmalloc := {
  pool_64 : Pool;
  pool_128 : Pool;
  pool_256 : Pool;
  pool_512 : Pool;
  pool_1024 : Pool;
  kmalloc_initialized : bool;
}.
Definition Kmalloc_empty : Kmalloc :=
  {| pool_64 := Pool_empty; pool_128 := Pool_empty; pool_256 := Pool_empty; pool_512 := Pool_empty;
     pool_1024 := Pool_empty; kmalloc_initialized := false |}.
Definition class_pool (c : SizeClass) (k : Kmalloc) : Pool :=
  match c with
  | Class64 => pool_64 k | Class128 => pool_128 k | Class256 => pool_256 k
  | Class512 => pool_512 k | Class1024 => pool_1024 k
  end.
Definition set_class_pool (c : SizeClass) (p : Pool) (k : Kmalloc) : Kmalloc :=
  {| pool_64 := if decide (c = Class64) then p else pool_64 k;
     pool_128 := if decide (c = Class128) then p else pool_128 k;
     pool_256 := if decide (c = Class256) then p else pool_256 k;
     pool_512 := if decide (c = Class512) then p else pool_512 k;
     pool_1024 := if decide (c = Class1024) then p else pool_1024 k;
     kmalloc_initialized := kmalloc_initialized k |}.

(** [KMALLOC] and the memory it works on. *)
Record Heap := { kmalloc : Kmalloc; heap_mem : Memory }.

Definition with_pool {A} (c : SizeClass) (op : M PoolState A) : M Heap A := fun h =>
  match op {| pool := class_pool c (kmalloc h); mem := heap_mem h |} with
  | Done (a, s) => Done (a, {| kmalloc := set_class_pool c (pool s) (kmalloc h); heap_mem := mem s |})
  | Panic msg => Panic msg
  | Undefined => Undefined
  | OutOfFuel => OutOfFuel
  end.

(** The addresses of [pmm_alloc_page] and [pmm_free_page], known at link time. *)
Class FunctionAddresses := {
  pmm_alloc_page_address : Z;
  pmm_free_page_address : Z;
  pmm_alloc_page_usize : is_usize pmm_alloc_page_address;
  pmm_free_page_usize : is_usize pmm_free_page_address;
}.

Definition seed_for `{FunctionAddresses} (size : Z) : Z :=
  mix64 (Z.lxor (Z.lxor size pmm_alloc_page_address) pmm_free_page_address).

Section Kmalloc.
Context `{PageLayout} `{FunctionAddresses}.

Definition set_mappers (p2v : PhysicalAddress -> VirtualAddress) (v2p : VirtualAddress -> PhysicalAddress) :
    M Heap unit :=
  modify (fun h => {| kmalloc := kmalloc h; heap_mem := {|
    m_pmm := m_pmm (heap_mem h); m_words := m_words (heap_mem h); m_headers := m_headers (heap_mem h);
    m_bytes := m_bytes (heap_mem h);
    m_mappers := {| map_physical_to_virtual := p2v; map_virtual_to_physical := v2p |} |} |}).

Definition init_pool (c : SizeClass) : M Heap unit :=
  let! p := Pool_new (Class_layout c) PmmPages (seed_for (class_bytes c)) in
  modify (fun h => {| kmalloc := set_class_pool c p (kmalloc h); heap_mem := heap_mem h |}).

Definition Kmalloc_init (p2v : PhysicalAddress -> VirtualAddress) (v2p : VirtualAddress -> PhysicalAddress) :
    M Heap unit :=
  let! k := gets kmalloc in
  if kmalloc_initialized k then panic "kmalloc: already initialized"
  else
    set_mappers p2v v2p ;;;
    init_pool Class64 ;;;
    init_pool Class128 ;;;
    init_pool Class256 ;;;
    init_pool Class512 ;;;
    init_pool Class1024 ;;;
    modify (fun h => {| kmalloc := {|
      pool_64 := pool_64 (kmalloc h); pool_128 := pool_128 (kmalloc h); pool_256 := pool_256 (kmalloc h);
      pool_512 := pool_512 (kmalloc h); pool_1024 := pool_1024 (kmalloc h); kmalloc_initialized := true |};
      heap_mem := heap_mem h |}).

Definition bad_alignment (alignment : option Z) : bool :=
  match alignment with
  | Some a => (a =? 0) || negb (is_power_of_two a) || (CACHE_LINE_SIZE <? a)
  | None => false
  end.

Definition Kmalloc_alloc (size : Z) (alignment : option Z) : M Heap (Result Z AllocError) :=
  let! k := gets kmalloc in
  if negb (kmalloc_initialized k) then ret (Err AllocNotInitialized)
  else if bad_alignment alignment then ret (Err BadAlignment)
  else if MAX_CLASS <? size then ret (Err TooLarge)
  else
    let want := Z.max size CACHE_LINE_SIZE in
    let? c := size_class want ok_or TooLarge in
    let! r := with_pool c (Pool_alloc (Class_layout c)) in
    ret (match r with Some ptr => Ok ptr | None => Err OutOfMemory end).

Definition try_free (c : SizeClass) (ptr : Z) : M Heap (Result bool FreeError) :=
  let! r := with_pool c (Pool_free (Class_layout c) ptr) in
  ret (match r with
       | Ok _ => Ok true
       | Err InvalidSlab => Ok false
       | Err e => Err e
       end).

Definition Kmalloc_free (ptr : Z) : M Heap (Result unit FreeError) :=
  let! k := gets kmalloc in
  if negb (kmalloc_initialized k) then ret (Err FreeNotInitialized)
  else
    try! freed := try_free Class64 ptr in
    if (freed : bool) then ret (Ok tt) else
    try! freed := try_free Class128 ptr in
    if (freed : bool) then ret (Ok tt) else
    try! freed := try_free Class256 ptr in
    if (freed : bool) then ret (Ok tt) else
    try! freed := try_free Class512 ptr in
    if (freed : bool) then ret (Ok tt) else
    try! freed := try_free Class1024 ptr in
    if (freed : bool) then ret (Ok tt) else
    ret (Err InvalidSlab).

(** ** The global allocator

    The bodies of [alloc], the drop of an allocation and [boot_probe], which run
    under [KMALLOC_LOCK]; [Locking.v] has the functions with the lock. *)

Record KernelAllocation := { allocation_ptr : Z; allocation_size : Z }.

Definition heap_alloc (size : Z) (alignment : option Z) : M Heap (Result KernelAllocation AllocError) :=
  try! ptr := Kmalloc_alloc size alignment in
  ret (Ok {| allocation_ptr := ptr; allocation_size := size |}).

(** [Drop for KernelAllocation]: the result of [free_raw] is ignored. *)
Definition KernelAllocation_drop (a : KernelAllocation) : M Heap unit :=
  let! _ := Kmalloc_free (allocation_ptr a) in ret tt.

Definition boot_probe : M Heap (Result unit AllocError) :=
  try! object := heap_alloc CACHE_LINE_SIZE None in
  KernelAllocation_drop object ;;;
  ret (Ok tt).
End Kmalloc.
