(* ===== verification/KmallocLemmas.v ===== *)
(** * Lemmas on the kernel heap's arithmetic and lists

    [mix64] is a bijection of 64-bit words, the layout of the size classes, the
    bitmap of a slab as a set of slots, and doubly linked lists of slab
    headers. *)

From S2P Require Import Prelude Address HwInfo Pmm Kmalloc.
From stdpp Require Import base tactics option list list_numbers numbers gmap strings.
From Stdlib Require Import Btauto.

#[local] Open Scope Z_scope.
#[local] Open Scope kernel_scope.

(** ** [mix64] *)

Lemma lxor_bound n a b : 0 <= n -> 0 <= a < 2 ^ n -> 0 <= b < 2 ^ n -> 0 <= Z.lxor a b < 2 ^ n.
Proof.
  intros Hn Ha Hb. assert (0 <= Z.lxor a b) as H0 by (apply Z.lxor_nonneg; lia). split; [done|].
  destruct (decide (Z.lxor a b = 0)) as [->|Hne]; [lia|].
  apply Z.log2_lt_pow2; [lia|]. eapply Z.le_lt_trans; [apply Z.log2_lxor; lia|].
  assert (forall x, 0 <= x < 2 ^ n -> x <> 0 -> Z.log2 x < n) as Hlog by (intros; apply Z.log2_lt_pow2; lia).
  destruct (decide (a = 0)) as [->|], (decide (b = 0)) as [->|]; cbn [Z.log2];
    [done|pose proof (Hlog b); pose proof (Z.log2_nonneg b)|pose proof (Hlog a); pose proof (Z.log2_nonneg a)|
     pose proof (Hlog a); pose proof (Hlog b)]; lia.
Qed.
Lemma shiftr_bound n a k : 0 <= n -> 0 <= k -> 0 <= a < 2 ^ n -> 0 <= Z.shiftr a k < 2 ^ n.
Proof.
  intros Hn Hk Ha. rewrite Z.shiftr_div_pow2 by done.
  split; [apply Z.div_pos; lia|]. apply Z.div_lt_upper_bound; [lia|]. pose proof (Z.pow_pos_nonneg 2 k). nia.
Qed.

Definition xorshift (k z : Z) : Z := Z.lxor z (Z.shiftr z k).
Definition unxorshift (k w : Z) : Z := Z.lxor (Z.lxor w (Z.shiftr w k)) (Z.shiftr w (2 * k)).
Lemma xorshift_bound k z : 0 <= k -> 0 <= z < 2 ^ 64 -> 0 <= xorshift k z < 2 ^ 64.
Proof. intros Hk Hz. unfold xorshift. apply lxor_bound; [done|done|]. by apply shiftr_bound. Qed.
Lemma unxorshift_xorshift k z : 0 <= z < 2 ^ 64 -> 64 <= 3 * k -> unxorshift k (xorshift k z) = z.
Proof.
  intros Hz Hk. unfold unxorshift, xorshift. rewrite !Z.shiftr_lxor, !Z.shiftr_shiftr by lia.
  replace (Z.shiftr z (k + 2 * k)) with 0.
  - apply Z.bits_inj'. intros n _. rewrite !Z.lxor_spec, Z.bits_0. replace (k + k) with (2 * k) by lia. btauto.
  - rewrite Z.shiftr_div_pow2 by lia. symmetry. apply Z.div_small. split; [lia|].
    eapply Z.lt_le_trans; [apply Hz|]. apply Z.pow_le_mono_r; lia.
Qed.

Lemma wrapping_mul_inverse c d z :
  0 <= z < 2 ^ 64 -> (c * d) mod 2 ^ 64 = 1 -> wrapping_mul 64 (wrapping_mul 64 z c) d = z.
Proof.
  intros Hz Hcd. unfold wrapping_mul. rewrite Zmult_mod_idemp_l.
  replace (z * c * d) with (z * (c * d)) by lia. rewrite <-Zmult_mod_idemp_r, Hcd, Z.mul_1_r.
  by apply Z.mod_small.
Qed.
Lemma wrapping_bound a : 0 <= a mod 2 ^ 64 < 2 ^ 64.
Proof. by apply Z.mod_pos_bound. Qed.

(** The inverse of [mix64]. *)
Definition unmix64 (w : Z) : Z :=
  let z := unxorshift 31 w in
  let z := unxorshift 27 (wrapping_mul 64 z 0x319642b2d24d8ec3) in
  let z := unxorshift 30 (wrapping_mul 64 z 0x96de1b173f119089) in
  wrapping_sub 64 z 0x9e3779b97f4a7c15.

Lemma mix64_unfold x :
  mix64 x = xorshift 31 (wrapping_mul 64 (xorshift 27 (wrapping_mul 64 (xorshift 30
    (wrapping_add 64 x 0x9e3779b97f4a7c15)) 0xbf58476d1ce4e5b9)) 0x94d049bb133111eb).
Proof. reflexivity. Qed.
Lemma mix64_bound x : 0 <= mix64 x < 2 ^ 64.
Proof. rewrite mix64_unfold. apply xorshift_bound; [done|apply wrapping_bound]. Qed.
Lemma unmix64_mix64 x : 0 <= x < 2 ^ 64 -> unmix64 (mix64 x) = x.
Proof.
  intros Hx. rewrite mix64_unfold. unfold unmix64.
  rewrite (unxorshift_xorshift 31) by (done || apply wrapping_bound).
  rewrite (wrapping_mul_inverse 0x94d049bb133111eb)
    by (reflexivity || (apply xorshift_bound; [done|apply wrapping_bound])).
  rewrite (unxorshift_xorshift 27) by (done || apply wrapping_bound).
  rewrite (wrapping_mul_inverse 0xbf58476d1ce4e5b9)
    by (reflexivity || (apply xorshift_bound; [done|apply wrapping_bound])).
  rewrite (unxorshift_xorshift 30) by (done || apply wrapping_bound).
  unfold wrapping_sub, wrapping_add. rewrite Zminus_mod_idemp_l.
  replace (x + 0x9e3779b97f4a7c15 - 0x9e3779b97f4a7c15) with x by lia. by apply Z.mod_small.
Qed.
Lemma mix64_inj x y : 0 <= x < 2 ^ 64 -> 0 <= y < 2 ^ 64 -> mix64 x = mix64 y -> x = y.
Proof. intros Hx Hy Heq. by rewrite <-(unmix64_mix64 x Hx), <-(unmix64_mix64 y Hy), Heq. Qed.

Lemma lxor_inj_l a b c : Z.lxor a c = Z.lxor b c -> a = b.
Proof.
  intros Heq. rewrite <-(Z.lxor_0_r a), <-(Z.lxor_0_r b), <-(Z.lxor_nilpotent c), <-!Z.lxor_assoc. by rewrite Heq.
Qed.

(** ** Layout of the size classes *)

Definition class_objects (c : SizeClass) : Z :=
  match c with Class64 => 62 | Class128 => 31 | Class256 => 15 | Class512 => 7 | Class1024 => 3 end.

Lemma class_layout c :
  object_size (Class_layout c) = class_bytes c /\ usable_start (Class_layout c) = 64 /\
  objects_per_slab (Class_layout c) = class_objects c.
Proof. by destruct c. Qed.
Lemma class_fits c :
  3 <= class_objects c <= 62 /\ 64 <= class_bytes c <= 1024 /\ class_bytes c mod 64 = 0 /\
  64 + class_objects c * class_bytes c <= PAGE_SIZE.
Proof. by destruct c. Qed.
Lemma size_class_fits size c :
  0 <= size -> size_class (Z.max size CACHE_LINE_SIZE) = Some c -> size <= class_bytes c.
Proof.
  unfold size_class, CACHE_LINE_SIZE. intros Hs. repeat case_match; intros [= <-]; cbn; lia.
Qed.
Lemma size_class_total size : size <= MAX_CLASS -> is_Some (size_class (Z.max size CACHE_LINE_SIZE)).
Proof.
  unfold size_class, CACHE_LINE_SIZE, MAX_CLASS. intros Hs. repeat case_match; try by eexists. exfalso. lia.
Qed.

(** ** The bitmap of a slab *)

(** Only slots 1 to [n - 1] can be free. *)
Definition bits_ok (n b : Z) : Prop := 0 <= b < 2 ^ 64 /\ forall i, 0 <= i -> Z.testbit b i = true -> 1 <= i < n.
Definition free_slots (n b : Z) : list Z := filter (fun i => Z.testbit b i = true) (range 1 n).
Definition popcount (n b : Z) : Z := Z.of_nat (length (free_slots n b)).

Section Filter.
Context (P Q : Z -> Prop) `{!forall x, Decision (P x)} `{!forall x, Decision (Q x)}.
Lemma filter_length_ext (l : list Z) : (forall y, y ∈ l -> P y <-> Q y) -> length (filter P l) = length (filter Q l).
Proof.
  induction l as [|y l IH]; [done|]. intros Hext. pose proof (Hext y ltac:(left)) as Hy.
  assert (length (filter P l) = length (filter Q l)) as Hl by (apply IH; intros; apply Hext; by right).
  destruct (decide (P y)).
  - rewrite !filter_cons_True by tauto. cbn. by rewrite Hl.
  - rewrite !filter_cons_False by tauto. done.
Qed.
Lemma filter_flip (l : list Z) x :
  NoDup l -> x ∈ l -> P x -> ~ Q x -> (forall y, y <> x -> P y <-> Q y) ->
  length (filter P l) = S (length (filter Q l)).
Proof.
  induction l as [|y l IH]; intros Hnd Hin HP HQ Hoth; [by apply elem_of_nil in Hin|].
  apply NoDup_cons in Hnd as [Hy Hnd]. destruct (decide (y = x)) as [->|Hne].
  - rewrite filter_cons_True, filter_cons_False by done. cbn. f_equal. apply filter_length_ext.
    intros z Hz. apply Hoth. by intros ->.
  - apply elem_of_cons in Hin as [->|Hin]; [done|]. specialize (IH Hnd Hin HP HQ Hoth).
    pose proof (Hoth y Hne). destruct (decide (P y)).
    + rewrite !filter_cons_True by tauto. cbn. by rewrite IH.
    + rewrite !filter_cons_False by tauto. done.
Qed.
Lemma filter_length_full (l : list Z) : length (filter P l) = length l -> Forall P l.
Proof.
  induction l as [|y l IH]; [done|]. destruct (decide (P y)).
  - rewrite filter_cons_True by done. cbn. intros [= Hl]. constructor; [done|by apply IH].
  - rewrite filter_cons_False by done. pose proof (length_filter P l). cbn. lia.
Qed.
End Filter.

Lemma popcount_bound n b : 1 <= n -> 0 <= popcount n b <= n - 1.
Proof.
  intros Hn. unfold popcount, free_slots. pose proof (length_filter (fun i => Z.testbit b i = true) (range 1 n)).
  pose proof (length_range 1 n). lia.
Qed.
Lemma popcount_zero n b : bits_ok n b -> popcount n b = 0 <-> b = 0.
Proof.
  intros [Hb Hbits]. unfold popcount, free_slots. split.
  - intros Hp. apply Z.bits_inj'. intros i Hi. rewrite Z.bits_0. destruct (Z.testbit b i) eqn:Ht; [exfalso|done].
    assert (i ∈ filter (fun i => Z.testbit b i = true) (range 1 n)) as Hin
      by (apply list_elem_of_filter; split; [done|]; apply elem_of_range; by apply Hbits).
    destruct (filter _ _); [by apply elem_of_nil in Hin|done].
  - intros ->. erewrite (filter_length_ext _ (fun _ => False)); [|by intros; rewrite Z.bits_0].
    by induction (range 1 n).
Qed.
Lemma popcount_full n b : 1 <= n -> popcount n b = n - 1 -> forall i, 1 <= i < n -> Z.testbit b i = true.
Proof.
  intros Hn Hp i Hi. unfold popcount, free_slots in Hp. pose proof (length_range 1 n).
  assert (Forall (fun i => Z.testbit b i = true) (range 1 n)) as Hall by (eapply filter_length_full; lia).
  apply (Forall_elem _ _ _ Hall), elem_of_range, Hi.
Qed.
Lemma popcount_full_2 n b : 1 <= n -> (forall i, 1 <= i < n -> Z.testbit b i = true) -> popcount n b = n - 1.
Proof.
  intros Hn Hall. unfold popcount, free_slots. erewrite (filter_length_ext _ (fun _ => True)).
  - replace (filter (fun _ => True) (range 1 n)) with (range 1 n).
    + pose proof (length_range 1 n). lia.
    + induction (range 1 n) as [|x l IH]; [done|]. by rewrite filter_cons_True, <-IH.
  - intros i Hi%elem_of_range. by rewrite Hall.
Qed.

Definition clear_bit (b i : Z) : Z := Z.land b (not_uint 64 (Z.shiftl 1 i)).
Definition set_bit (b i : Z) : Z := Z.lor b (Z.shiftl 1 i).
Lemma clear_bit_spec n b i j :
  bits_ok n b -> 0 <= i -> 0 <= j -> Z.testbit (clear_bit b i) j = if decide (j = i) then false else Z.testbit b j.
Proof.
  intros [Hb _] Hi Hj. unfold clear_bit. rewrite land_not_uint, Z.ldiff_spec, Z.shiftl_1_l, Z.pow2_bits_eqb by lia.
  case_decide; [subst; rewrite Z.eqb_refl; apply andb_false_r|]. rewrite (proj2 (Z.eqb_neq i j)) by lia. apply andb_true_r.
Qed.
Lemma set_bit_spec b i j : 0 <= i -> Z.testbit (set_bit b i) j = if decide (j = i) then true else Z.testbit b j.
Proof.
  intros Hi. unfold set_bit. rewrite Z.lor_spec, Z.shiftl_1_l, Z.pow2_bits_eqb by lia.
  case_decide; [subst; rewrite Z.eqb_refl; apply orb_true_r|]. rewrite (proj2 (Z.eqb_neq i j)) by lia. apply orb_false_r.
Qed.
(** A word is in range when its set bits are slots. *)
Lemma bits_ok_intro n b :
  n <= 64 -> (forall i, 0 <= i -> Z.testbit b i = true -> 1 <= i < n) -> bits_ok n b.
Proof.
  intros Hn Hbits. split; [|done]. replace b with (b mod 2 ^ 64); [by apply Z.mod_pos_bound|].
  apply Z.bits_inj'. intros i Hi. destruct (Z.ltb_spec i 64).
  - by rewrite Z.mod_pow2_bits_low.
  - rewrite Z.mod_pow2_bits_high by lia. destruct (Z.testbit b i) eqn:Ht; [|done].
    specialize (Hbits i Hi Ht). lia.
Qed.
Lemma clear_bit_ok n b i : n <= 64 -> bits_ok n b -> 0 <= i -> bits_ok n (clear_bit b i).
Proof.
  intros Hn Hb Hi. apply bits_ok_intro; [done|]. intros j Hj. rewrite (clear_bit_spec n) by done.
  case_decide; [done|]. by apply Hb.
Qed.
Lemma set_bit_ok n b i : n <= 64 -> bits_ok n b -> 1 <= i < n -> bits_ok n (set_bit b i).
Proof.
  intros Hn Hb Hi. apply bits_ok_intro; [done|]. intros j Hj. rewrite set_bit_spec by lia.
  case_decide; [by subst|]. by apply Hb.
Qed.
Lemma popcount_clear n b i :
  bits_ok n b -> 1 <= i < n -> Z.testbit b i = true -> popcount n (clear_bit b i) = popcount n b - 1.
Proof.
  intros Hb Hi Ht. unfold popcount, free_slots.
  rewrite (filter_flip (fun j => Z.testbit b j = true) (fun j => Z.testbit (clear_bit b i) j = true) (range 1 n) i);
    [lia|apply NoDup_range|by apply elem_of_range|done| |].
  - rewrite (clear_bit_spec n) by (done || lia). by rewrite decide_True.
  - intros j Hj. destruct (decide (0 <= j)) as [Hj0|Hj0].
    + rewrite (clear_bit_spec n) by (done || lia). by rewrite decide_False.
    + by rewrite !Z.testbit_neg_r by lia.
Qed.
Lemma popcount_set n b i :
  1 <= i < n -> Z.testbit b i = false -> popcount n (set_bit b i) = popcount n b + 1.
Proof.
  intros Hi Ht. unfold popcount, free_slots.
  rewrite (filter_flip (fun j => Z.testbit (set_bit b i) j = true) (fun j => Z.testbit b j = true) (range 1 n) i);
    [lia|apply NoDup_range|by apply elem_of_range| |congruence|].
  - rewrite set_bit_spec by lia. by rewrite decide_True.
  - intros j Hj. rewrite set_bit_spec by lia. by rewrite decide_False.
Qed.

(** The bitmap of a slab without objects. *)
Definition full_word (n : Z) : Z := Z.land (Z.shiftl 1 n - 1) (not_uint 64 1).
Lemma full_word_spec n :
  2 <= n <= 64 -> (forall j, 0 <= j -> Z.testbit (full_word n) j = bool_decide (1 <= j < n)) /\
  bits_ok n (full_word n) /\ full_word n <> 0 /\ popcount n (full_word n) = n - 1.
Proof.
  intros Hn. assert (forall j, 0 <= j -> Z.testbit (full_word n) j = bool_decide (1 <= j < n)) as Hbit.
  { intros j Hj. unfold full_word. rewrite Z.shiftl_1_l, Z.sub_1_r, <-Z.ones_equiv.
    rewrite land_not_uint by (rewrite ?Z.ones_equiv; pose proof (Z.pow_le_mono_r 2 n 64); pose proof (Z.pow_pos_nonneg 2 n); lia).
    rewrite Z.ldiff_spec. change 1 with (2 ^ 0) at 1. rewrite Z.pow2_bits_eqb by lia.
    rewrite (bool_decide_ext (1 <= j < n) (j < n /\ 0 <> j)) by lia. rewrite bool_decide_and, bool_decide_not.
    destruct (Z.ltb_spec j n).
    - rewrite Z.ones_spec_low by lia. rewrite (bool_decide_eq_true_2 (j < n)) by done.
      destruct (Z.eqb_spec 0 j); [by rewrite bool_decide_eq_true_2|by rewrite bool_decide_eq_false_2].
    - rewrite Z.ones_spec_high by lia. by rewrite (bool_decide_eq_false_2 (j < n)) by lia. }
  assert (bits_ok n (full_word n)) as Hok.
  { apply bits_ok_intro; [lia|]. intros j Hj. rewrite Hbit by done. by rewrite bool_decide_eq_true. }
  split; [done|]. split; [done|]. split.
  - intros Hz. pose proof (Hbit 1 ltac:(lia)) as H1. rewrite Hz, Z.bits_0, bool_decide_eq_true_2 in H1 by lia. done.
  - apply popcount_full_2; [lia|]. intros j Hj. rewrite Hbit by lia. by apply bool_decide_eq_true_2.
Qed.

(** The first free slot. *)
Lemma trailing_zeros_from_spec fuel i word :
  0 <= i -> (exists j, i <= j < i + Z.of_nat fuel /\ Z.testbit word j = true) ->
  i <= trailing_zeros_from fuel i word /\ Z.testbit word (trailing_zeros_from fuel i word) = true /\
  forall j, i <= j < trailing_zeros_from fuel i word -> Z.testbit word j = false.
Proof.
  revert i. induction fuel as [|fuel IH]; intros i Hi (j & Hj & Ht); [lia|]. cbn [trailing_zeros_from].
  destruct (Z.testbit word i) eqn:Hw; [split_and!; [lia|done|lia]|].
  destruct (IH (i + 1) ltac:(lia)) as (H1 & H2 & H3).
  { exists j. split; [|done]. destruct (decide (j = i)) as [->|]; [congruence|lia]. }
  split_and!; [lia|done|]. intros k Hk. destruct (decide (k = i)) as [->|]; [done|]. apply H3. lia.
Qed.
Lemma trailing_zeros_spec n b :
  n <= 64 -> bits_ok n b -> b <> 0 ->
  1 <= trailing_zeros b < n /\ Z.testbit b (trailing_zeros b) = true /\
  forall j, 0 <= j < trailing_zeros b -> Z.testbit b j = false.
Proof.
  intros Hn [Hr Hbits] Hne. assert (0 < b) as Hpos by lia.
  destruct (trailing_zeros_from_spec 64 0 b ltac:(lia)) as (H1 & H2 & H3).
  - exists (Z.log2 b). pose proof (Z.log2_nonneg b). pose proof (proj1 (Z.log2_lt_pow2 b 64 Hpos) (proj2 Hr)).
    split; [lia|]. by apply Z.bit_log2.
  - split; [exact (Hbits _ H1 H2)|by split].
Qed.

(** ** Doubly linked lists of slabs *)

Definition hcore (h : SlabHeader) : Z * Z * list Z * Z := (page_addr h, header_cookie h, bitmap h, free_count h).
Definition hlinks (h : SlabHeader) : Z * Z := (prev h, next h).

(** The slabs [l] are linked in order, [pr] before the first and [nx] after the
    last. *)
Fixpoint dll (g : gmap Z SlabHeader) (pr : Z) (l : list Z) (nx : Z) : Prop :=
  match l with
  | [] => True
  | a :: l => hlinks <$> g !! a = Some (pr, List.hd nx l) /\ dll g a l nx
  end.

Lemma dll_ext g g' pr l nx :
  (forall a, a ∈ l -> hlinks <$> g' !! a = hlinks <$> g !! a) -> dll g pr l nx -> dll g' pr l nx.
Proof.
  revert pr. induction l as [|a l IH]; intros pr Hext; [done|]. cbn. rewrite Hext by left.
  intros [Ha Hl]. split; [done|]. apply IH; [|done]. intros. apply Hext. by right.
Qed.
Lemma hd_app (d : Z) (l1 l2 : list Z) : List.hd d (l1 ++ l2) = List.hd (List.hd d l2) l1.
Proof. by destruct l1. Qed.
Lemma dll_app g pr l1 l2 nx :
  dll g pr (l1 ++ l2) nx <-> dll g pr l1 (List.hd nx l2) /\ dll g (List.last l1 pr) l2 nx.
Proof.
  revert pr. induction l1 as [|a l1 IH]; intros pr; [cbn; tauto|].
  replace (List.last (a :: l1) pr) with (List.last l1 a) by
    (destruct l1 as [|b l1]; [done|]; change (List.last (a :: b :: l1) pr) with (List.last (b :: l1) pr);
     clear; revert b; induction l1 as [|c l1 IH]; intros b; [done|apply (IH c)]).
  cbn. rewrite IH, hd_app. tauto.
Qed.

(** Redirecting the first backward and the last forward link. *)
Lemma dll_set_prev g g' pr pr' a l nx :
  NoDup (a :: l) -> hlinks <$> g' !! a = (fun h => (pr', next h)) <$> g !! a ->
  (forall x, x ∈ l -> hlinks <$> g' !! x = hlinks <$> g !! x) ->
  dll g pr (a :: l) nx -> dll g' pr' (a :: l) nx.
Proof.
  intros _ Ha Hext [Hh Hl]. split; [|by eapply dll_ext]. rewrite Ha. destruct (g !! a); [|done]. unfold hlinks in *. cbn in *. congruence.
Qed.
Lemma dll_set_next g g' pr a l nx nx' :
  NoDup (l ++ [a]) -> hlinks <$> g' !! a = (fun h => (prev h, nx')) <$> g !! a ->
  (forall x, x ∈ l -> hlinks <$> g' !! x = hlinks <$> g !! x) ->
  dll g pr (l ++ [a]) nx -> dll g' pr (l ++ [a]) nx'.
Proof.
  intros _ Ha Hext. rewrite !dll_app. intros [Hl [Hh _]]. split; [by eapply dll_ext|]. split; [|done].
  cbn in *. rewrite Ha. destruct (g !! a); [|done]. unfold hlinks in *. cbn in *. congruence.
Qed.
