(* ===== verification/KmallocPool.v ===== *)
(** * The invariant of a slab pool

    [pool_inv c p m slabs partial live]: the pool [p] of size class [c] on the
    memory [m] consists of the slabs [slabs] (the bitmap of each page), of which
    the list [partial] are linked because they have free slots, and has handed
    out exactly the objects [live]. *)

From S2P Require Import Prelude Address HwInfo Pmm PmmReserved PmmFreeList PmmAlloc PmmInit PmmClients Kmalloc KmallocLemmas.
From stdpp Require Import base tactics option list list_numbers numbers gmap strings.

#[local] Open Scope Z_scope.
#[local] Open Scope kernel_scope.

(** ** Reading and writing headers *)

Lemma wp_read_header slab h s (Q : SlabHeader -> PoolState -> Prop) :
  m_headers (mem s) !! slab = Some h -> Q h s -> wp (read_header slab) Q s.
Proof. intros Hh HQ. unfold read_header. apply wp_bind, wp_gets. rewrite Hh. by apply wp_ret. Qed.
Definition with_headers (v : gmap Z SlabHeader) (s : PoolState) : PoolState := on_mem (set_headers v) s.
Lemma wp_write_header slab h s (Q : unit -> PoolState -> Prop) :
  Q tt (with_headers (<[slab := h]> (m_headers (mem s))) s) -> wp (write_header slab h) Q s.
Proof. intros HQ. by apply wp_modify. Qed.
Lemma wp_update_header slab f h s (Q : unit -> PoolState -> Prop) :
  m_headers (mem s) !! slab = Some h -> Q tt (with_headers (<[slab := f h]> (m_headers (mem s))) s) ->
  wp (update_header slab f) Q s.
Proof. intros Hh HQ. apply wp_bind. eapply wp_read_header; [done|]. by apply wp_write_header. Qed.

Lemma NonNull_new_Some a : a <> 0 -> NonNull_new a = Some a.
Proof. intros Ha. unfold NonNull_new. by rewrite (proj2 (Z.eqb_neq a 0)). Qed.

(** ** Linking and unlinking *)

(** [H'] is [H] up to the list links of [touched] and the list flag of [slab],
    which is [v]. *)
Record relinked (H H' : gmap Z SlabHeader) (slab : Z) (v : bool) (touched : list Z) : Prop := {
  rl_core a : hcore <$> H' !! a = hcore <$> H !! a;
  rl_flag a : a <> slab -> in_partial_list <$> H' !! a = in_partial_list <$> H !! a;
  rl_slab : in_partial_list <$> H' !! slab = Some v;
  rl_other a : a ∉ touched -> H' !! a = H !! a;
}.

(** Case analysis on the addresses of the last writes. *)
Ltac lookups := repeat (rewrite lookup_insert; case_decide; try (subst; simplify_eq/=)).

Lemma link_slab_spec s slab h l :
  m_headers (mem s) !! slab = Some h -> slab <> 0 -> slab ∉ l -> 0 ∉ l -> NoDup l ->
  partial_head (pool s) = List.hd 0 l -> dll (m_headers (mem s)) 0 l 0 ->
  wp (link_slab slab) (fun _ s' => exists H',
    s' = with_headers H' (set_partial_head slab s) /\
    relinked (m_headers (mem s)) H' slab true (slab :: l) /\ dll H' 0 (slab :: l) 0) s.
Proof.
  intros Hh Hs0 Hnin Hl0 Hnd Hhd Hdll. unfold link_slab. apply wp_bind, wp_gets. rewrite Hhd.
  apply wp_bind. eapply wp_update_header; [done|]. apply wp_bind.
  eapply wp_update_header; [cbn; apply lookup_insert_eq|]. cbn. rewrite insert_insert_eq. apply wp_bind.
  destruct l as [|a l]; cbn [List.hd].
  - cbn. apply wp_ret, wp_bind, wp_modify. eapply wp_update_header; [cbn; apply lookup_insert_eq|].
    cbn. rewrite insert_insert_eq. eexists. split; [reflexivity|]. split; [split|split; [|done]].
    + intros b. lookups; [by rewrite Hh|done].
    + intros b Hb. by rewrite lookup_insert_ne by congruence.
    + by rewrite lookup_insert_eq.
    + intros b Hb. rewrite lookup_insert_ne; [done|]. set_solver.
    + cbn. by rewrite lookup_insert_eq.
  - apply not_elem_of_cons in Hnin as [Hsa Hnin], Hl0 as [Ha0 Hl0].
    assert (exists ha, m_headers (mem s) !! a = Some ha) as [ha Hha].
    { destruct Hdll as [Hda _]. destruct (m_headers (mem s) !! a); [by eexists|done]. }
    rewrite NonNull_new_Some by done.
    eapply wp_update_header; [cbn; by rewrite lookup_insert_ne|]. cbn. apply wp_bind, wp_modify.
    eapply wp_update_header; [cbn; rewrite lookup_insert_ne, lookup_insert_eq by done; reflexivity|]. cbn.
    eexists. split; [reflexivity|]. apply NoDup_cons in Hnd as Hnd'. destruct Hnd' as [Hal Hndl]. split; [split|].
    + intros b. lookups; [by rewrite Hh|by rewrite Hha|done].
    + intros b Hb. lookups; [by rewrite Hha|done].
    + by rewrite lookup_insert_eq.
    + intros b Hb. rewrite !lookup_insert_ne; [done|set_solver..].
    + split; [by rewrite lookup_insert_eq|]. eapply (dll_set_prev _ _ 0); [done| | |exact Hdll].
      * rewrite lookup_insert_ne, lookup_insert_eq by done. by rewrite Hha.
      * intros x Hx. rewrite !lookup_insert_ne; [done|set_solver..].
Qed.

(** [H'] is [H] up to the list links of [touched]. *)
Record links_only (H H' : gmap Z SlabHeader) (touched : list Z) : Prop := {
  lo_core a : hcore <$> H' !! a = hcore <$> H !! a;
  lo_flag a : in_partial_list <$> H' !! a = in_partial_list <$> H !! a;
  lo_other a : a ∉ touched -> H' !! a = H !! a;
}.
Lemma links_only_refl H l : links_only H H l.
Proof. by split. Qed.

Lemma with_headers_id s : with_headers (m_headers (mem s)) s = s.
Proof. by destruct s as [p [? ? ? ? ?]]. Qed.
Lemma set_partial_head_id s : set_partial_head (partial_head (pool s)) s = s.
Proof. by destruct s as [[] m]. Qed.

(** The link into an unlinked slab from the left. *)
Lemma unlink_left s pr v l1 nx :
  pr = List.last l1 0 -> 0 ∉ l1 -> NoDup l1 -> partial_head (pool s) = List.hd nx l1 -> dll (m_headers (mem s)) 0 l1 nx ->
  wp (match NonNull_new pr with
      | Some prev => update_header prev (set_next v)
      | None => modify (set_partial_head v)
      end) (fun _ s' => exists H', s' = with_headers H' (set_partial_head (List.hd v l1) s) /\
        links_only (m_headers (mem s)) H' l1 /\ dll H' 0 l1 v) s.
Proof.
  intros -> H0 Hnd Hhd Hdll. destruct l1 as [|a l1 _] using rev_ind.
  - apply wp_modify. exists (m_headers (mem s)).
    split; [by destruct s as [p [? ? ? ? ?]]|]. split; [apply links_only_refl|done].
  - rewrite last_last. assert (a <> 0) as Ha by set_solver. rewrite NonNull_new_Some by done.
    assert (exists ha, m_headers (mem s) !! a = Some ha) as [ha Hha].
    { apply dll_app in Hdll as [_ [Hda _]]. destruct (m_headers (mem s) !! a); [by eexists|done]. }
    eapply wp_update_header; [done|]. eexists. split; [|split; [split|]].
    + replace (List.hd v (l1 ++ [a])) with (partial_head (pool s)); [by rewrite set_partial_head_id|].
      rewrite Hhd. by destruct l1.
    + intros b. lookups; [by rewrite Hha|done].
    + intros b. lookups; [by rewrite Hha|done].
    + intros b Hb. rewrite lookup_insert_ne; [done|set_solver].
    + eapply dll_set_next; [done| | |exact Hdll].
      * rewrite lookup_insert_eq, Hha. done.
      * intros x Hx. apply NoDup_app in Hnd as (_ & Hnd & _). rewrite lookup_insert_ne; [done|set_solver].
Qed.

(** The link into an unlinked slab from the right. *)
Lemma unlink_right s pr pr0 nx l2 :
  nx = List.hd 0 l2 -> 0 ∉ l2 -> NoDup l2 -> dll (m_headers (mem s)) pr0 l2 0 ->
  wp (match NonNull_new nx with
      | Some next => update_header next (set_prev pr)
      | None => ret tt
      end) (fun _ s' => exists H', s' = with_headers H' s /\
        links_only (m_headers (mem s)) H' l2 /\ dll H' pr l2 0) s.
Proof.
  intros -> H0 Hnd Hdll. destruct l2 as [|b l2].
  - apply wp_ret. exists (m_headers (mem s)). rewrite with_headers_id.
    split; [done|]. split; [apply links_only_refl|done].
  - apply not_elem_of_cons in H0 as [Hb H0]. cbn [List.hd]. rewrite NonNull_new_Some by done.
    assert (exists hb, m_headers (mem s) !! b = Some hb) as [hb Hhb].
    { destruct Hdll as [Hdb _]. destruct (m_headers (mem s) !! b); [by eexists|done]. }
    eapply wp_update_header; [done|]. eexists. split; [reflexivity|]. split; [split|].
    + intros x. lookups; [by rewrite Hhb|done].
    + intros x. lookups; [by rewrite Hhb|done].
    + intros x Hx. rewrite lookup_insert_ne; [done|set_solver].
    + eapply dll_set_prev; [done| | |exact Hdll].
      * rewrite lookup_insert_eq, Hhb. done.
      * intros x Hx. apply NoDup_cons in Hnd as [Hnd _]. rewrite lookup_insert_ne; [done|set_solver].
Qed.

Lemma unlink_slab_spec s slab h l1 l2 :
  m_headers (mem s) !! slab = Some h -> in_partial_list h = true ->
  0 ∉ l1 ++ slab :: l2 -> NoDup (l1 ++ slab :: l2) ->
  partial_head (pool s) = List.hd 0 (l1 ++ slab :: l2) -> dll (m_headers (mem s)) 0 (l1 ++ slab :: l2) 0 ->
  wp (unlink_slab slab) (fun _ s' => exists H',
    s' = with_headers H' (set_current (if current (pool s) =? slab then List.hd 0 (l1 ++ l2) else current (pool s))
           (set_partial_head (List.hd 0 (l1 ++ l2)) s)) /\
    relinked (m_headers (mem s)) H' slab false (l1 ++ slab :: l2) /\ dll H' 0 (l1 ++ l2) 0) s.
Proof.
  intros Hh Hin H0 Hnd Hhd Hdll. pose proof Hdll as Hd. apply dll_app in Hd as [Hd1 [Hds Hd2]].
  rewrite Hh in Hds. cbn in Hds. injection Hds as Hpr Hnx.
  apply NoDup_app in Hnd as Hnd'. destruct Hnd' as (Hnd1 & Hdis & [Hs2 Hnd2]%NoDup_cons).
  assert (slab ∉ l1) as Hs1 by (intros ?; by apply (Hdis slab); [|left]).
  rewrite hd_app in Hhd. cbn [List.hd] in Hhd, Hd1.
  unfold unlink_slab. apply wp_bind. eapply wp_read_header; [done|]. rewrite Hin. cbn [negb].
  apply wp_bind. eapply wp_mono; [apply (unlink_left s _ (next h) l1 slab); try done; set_solver|].
  intros [] s1 (H1 & -> & Hl1 & Hd1'). cbn. apply wp_bind. eapply wp_read_header.
  { cbn. by rewrite (lo_other _ _ _ Hl1) by done. }
  apply wp_bind. set (s1 := with_headers H1 _).
  eapply wp_mono; [apply (unlink_right s1 (prev h) slab (next h) l2); try done; [set_solver|]|].
  { eapply dll_ext; [|exact Hd2]. intros x Hx. cbn. rewrite (lo_other _ _ _ Hl1); [done|].
    intros Hx1. apply (Hdis x Hx1). by right. }
  intros [] s2 (H2 & -> & Hl2 & Hd2'). unfold s1 in *. cbn in Hl2. clear s1.
  assert (H2 !! slab = Some h) as Hh2 by (by rewrite (lo_other _ _ _ Hl2), (lo_other _ _ _ Hl1)).
  apply wp_bind. eapply wp_update_header; [done|]. apply wp_bind.
  eapply wp_update_header; [cbn; apply lookup_insert_eq|]. cbn. rewrite insert_insert_eq. apply wp_bind.
  eapply wp_update_header; [cbn; apply lookup_insert_eq|]. cbn. rewrite insert_insert_eq.
  set (H' := <[slab := _]> H2). apply wp_bind, wp_gets.
  assert (relinked (m_headers (mem s)) H' slab false (l1 ++ slab :: l2) /\ dll H' 0 (l1 ++ l2) 0) as Hpost.
  { split; [split|].
    - intros a. unfold H'. lookups; [by rewrite Hh|]. by rewrite (lo_core _ _ _ Hl2), (lo_core _ _ _ Hl1).
    - intros a Ha. unfold H'. rewrite lookup_insert_ne by congruence. by rewrite (lo_flag _ _ _ Hl2), (lo_flag _ _ _ Hl1).
    - unfold H'. by rewrite lookup_insert_eq.
    - intros a Ha. unfold H'. rewrite lookup_insert_ne by set_solver.
      rewrite (lo_other _ _ _ Hl2), (lo_other _ _ _ Hl1); [done|set_solver..].
    - assert (forall x (l : list Z), x ∈ l -> slab ∉ l -> hlinks <$> H' !! x = hlinks <$> H2 !! x) as Hkeep.
      { intros x l Hx Hl. unfold H'. rewrite lookup_insert_ne; [done|]. by intros ->. }
      apply dll_app. rewrite <-Hpr, <-Hnx. split.
      + eapply dll_ext; [|exact Hd1']. intros x Hx. rewrite (Hkeep x l1 Hx Hs1), (lo_other _ _ _ Hl2); [done|].
        intros Hx2. apply (Hdis x Hx). by right.
      + eapply dll_ext; [|exact Hd2']. intros x Hx. by rewrite (Hkeep x l2 Hx Hs2). }
  assert (List.hd (next h) l1 = List.hd 0 (l1 ++ l2)) as Hhd' by (by rewrite hd_app, Hnx).
  cbn. destruct (Z.eqb_spec (current (pool s)) slab); [apply wp_modify|apply wp_ret];
    (exists H'; split; [|exact Hpost]); rewrite <-Hhd'; by destruct s as [[] [? ? ? ? ?]].
Qed.

(** ** The invariant *)

Section Pool.
Context (c : SizeClass).

Definition object_at (page i : Z) : Z := page + 64 + i * class_bytes c.
Definition page_ok (page : Z) : Prop := 0 < page /\ page mod PAGE_SIZE = 0 /\ page + PAGE_SIZE <= 2 ^ 64.

Record pool_inv (p : Pool) (m : Memory) (slabs : gmap Z Z) (partial : list Z) (live : gset Z) : Prop := {
  pv_fns : page_fns p = PmmPages;
  pv_slab page b : slabs !! page = Some b -> page_ok page /\ bits_ok (class_objects c) b;
  pv_core page b : slabs !! page = Some b ->
    hcore <$> m_headers m !! (page + 64) = Some (page, slab_cookie p page, [b], popcount (class_objects c) b);
  pv_flag page b : slabs !! page = Some b ->
    in_partial_list <$> m_headers m !! (page + 64) = Some (bool_decide (b <> 0));
  pv_word page b : slabs !! page = Some b ->
    m_words m !! page = Some (encode_back_pointer p page (page + 64));
  pv_partial a : a ∈ partial <-> exists page b, slabs !! page = Some b /\ b <> 0 /\ a = page + 64;
  pv_nodup : NoDup partial;
  pv_head : partial_head p = List.hd 0 partial;
  pv_links : dll (m_headers m) 0 partial 0;
  pv_current : current p = 0 /\ partial = [] \/ current p ∈ partial;
  pv_live a : a ∈ live <-> exists page b i, slabs !! page = Some b /\ 1 <= i < class_objects c /\
    Z.testbit b i = false /\ a = object_at page i;
  pv_total : total_allocated p = Z.of_nat (size live);
  pv_count : slab_count p = Z.of_nat (size slabs);
}.

(** A slab without objects, other than [page], is the only slab. *)
Definition spare_ok (slabs : gmap Z Z) (page : option Z) : Prop := forall page' b,
  slabs !! page' = Some b -> popcount (class_objects c) b = class_objects c - 1 ->
  page = Some page' \/ size slabs = 1%nat.

(** Memory outside the headers of a pool's slabs. *)
Definition same_outside (slabs : gmap Z Z) (H H' : gmap Z SlabHeader) : Prop :=
  forall a, (forall page, is_Some (slabs !! page) -> a <> page + 64) -> H' !! a = H !! a.

Lemma pool_inv_frame p m m' slabs partial live :
  pool_inv p m slabs partial live ->
  (forall page, is_Some (slabs !! page) ->
    m_headers m' !! (page + 64) = m_headers m !! (page + 64) /\ m_words m' !! page = m_words m !! page) ->
  pool_inv p m' slabs partial live.
Proof.
  intros Hinv Hsame. pose proof Hinv as [Hf Hs Hc Hfl Hw Hp Hn Hh Hl Hcu Hli Ht Hco].
  split; try done.
  - intros page b Hb. destruct (Hsame page ltac:(by eexists)) as [-> _]. by apply Hc.
  - intros page b Hb. destruct (Hsame page ltac:(by eexists)) as [-> _]. by apply Hfl.
  - intros page b Hb. destruct (Hsame page ltac:(by eexists)) as [_ ->]. exact (Hw page b Hb).
  - eapply dll_ext; [|exact Hl]. intros a (page & b & Hb & _ & ->)%Hp.
    by destruct (Hsame page ltac:(by eexists)) as [-> _].
Qed.

(** Objects and headers of pages do not collide. *)
Lemma object_at_inj page1 page2 i j :
  page1 mod PAGE_SIZE = 0 -> page2 mod PAGE_SIZE = 0 -> 1 <= i < class_objects c -> 1 <= j < class_objects c ->
  object_at page1 i = object_at page2 j -> page1 = page2 /\ i = j.
Proof.
  destruct (class_fits c) as (Hn & Hb & _ & Hfit). unfold object_at, PAGE_SIZE in *. intros H1 H2 Hi Hj Heq.
  assert (64 + i * class_bytes c < 4096) by nia. assert (64 + j * class_bytes c < 4096) by nia.
  assert (0 <= i * class_bytes c) by nia. assert (0 <= j * class_bytes c) by nia.
  assert (page1 = page2) as -> by divlia. split; [done|]. nia.
Qed.
Lemma object_bounds page i :
  page_ok page -> 1 <= i < class_objects c ->
  page + 64 + class_bytes c <= object_at page i /\ object_at page i + class_bytes c <= page + PAGE_SIZE /\
  object_at page i mod 64 = 0.
Proof.
  destruct (class_fits c) as (Hn & Hb & H64 & Hfit). unfold object_at, page_ok, PAGE_SIZE in *.
  intros (H0 & Hal & _) Hi. split; [nia|]. split; [nia|].
  assert (i * class_bytes c mod 64 = 0) as Hm by (rewrite Z.mul_mod, H64, Z.mul_0_r by lia; done). divlia.
Qed.

(** A pool has handed out all the objects of its slabs exactly when no slab has a
    free bit left. *)
Definition slab_objects (page : Z) : list Z := object_at page <$> range 1 (class_objects c).
Lemma slab_objects_length pages :
  Z.of_nat (length (pages ≫= slab_objects)) = Z.of_nat (length pages) * (class_objects c - 1).
Proof.
  destruct (class_fits c) as (Hn & _). induction pages as [|page l IH]; [done|]. rewrite bind_cons, length_app, Nat2Z.inj_add, IH.
  unfold slab_objects. rewrite length_fmap, length_range. cbn [length]. nia.
Qed.
Lemma pool_full p m slabs partial live :
  pool_inv p m slabs partial live ->
  total_allocated p = slab_count p * (class_objects c - 1) <-> forall page b, slabs !! page = Some b -> b = 0.
Proof.
  intros Hinv. destruct (class_fits c) as (Hn & _). rewrite (pv_total _ _ _ _ _ Hinv), (pv_count _ _ _ _ _ Hinv).
  set (objects := elements (dom slabs) ≫= slab_objects).
  assert (forall page, page ∈ elements (dom slabs) -> exists b, slabs !! page = Some b /\ page mod PAGE_SIZE = 0 /\
    bits_ok (class_objects c) b) as Hpages.
  { intros page [b Hb]%elem_of_elements%elem_of_dom. exists b. destruct (pv_slab _ _ _ _ _ Hinv page b Hb) as [(_ & ? & _) ?].
    by split_and!. }
  assert (forall a, a ∈ objects <-> exists page i, page ∈ elements (dom slabs) /\ 1 <= i < class_objects c /\ a = object_at page i) as Hin.
  { intros a. unfold objects, slab_objects. rewrite list_elem_of_bind. setoid_rewrite list_elem_of_fmap.
    setoid_rewrite elem_of_range. naive_solver. }
  assert (NoDup objects) as Hnd.
  { apply NoDup_bind; [| |apply NoDup_elements].
    - intros page1 page2 a H1 H2 (i & -> & Hi)%list_elem_of_fmap (j & Heq & Hj)%list_elem_of_fmap. apply elem_of_range in Hi, Hj.
      destruct (Hpages _ H1) as (_ & _ & Hal1 & _), (Hpages _ H2) as (_ & _ & Hal2 & _). by apply object_at_inj in Heq as [? _].
    - intros page Hp. apply NoDup_fmap_2_strong; [|apply NoDup_range]. intros i j Hi%elem_of_range Hj%elem_of_range Heq.
      destruct (Hpages _ Hp) as (_ & _ & Hal & _). by apply object_at_inj in Heq as [_ ?]. }
  assert (Z.of_nat (length objects) = Z.of_nat (size slabs) * (class_objects c - 1)) as Hlen.
  { rewrite <-size_dom. apply slab_objects_length. }
  assert (live ⊆ list_to_set objects) as Hsub.
  { intros a (page & b & i & Hb & Hi & _ & ->)%(pv_live _ _ _ _ _ Hinv). apply elem_of_list_to_set, Hin. exists page, i.
    split_and!; [by apply elem_of_elements, elem_of_dom|lia..|done]. }
  assert (size (list_to_set objects : gset Z) = length objects) as Hsize by (by apply size_list_to_set).
  rewrite <-Hlen, <-Hsize. split.
  - intros Heq page b Hb. destruct (pv_slab _ _ _ _ _ Hinv page b Hb) as [_ Hbok].
    apply Z.bits_inj'. intros i Hpos. rewrite Z.bits_0. destruct (Z.testbit b i) eqn:Ht; [exfalso|done].
    assert (1 <= i < class_objects c) as Hi by (apply Hbok; [lia|done]).
    assert (object_at page i ∈ live) as Hl.
    { rewrite (set_subseteq_size_eq live (list_to_set objects) Hsub) by lia. apply elem_of_list_to_set, Hin. exists page, i. split_and!; [by apply elem_of_elements, elem_of_dom|lia..|done]. }
    apply (pv_live _ _ _ _ _ Hinv) in Hl as (page' & b' & j & Hb' & Hj & Hf & Heq'). apply object_at_inj in Heq' as [-> ->]; try done.
    + congruence.
    + by apply (pv_slab _ _ _ _ _ Hinv page b).
    + by apply (pv_slab _ _ _ _ _ Hinv page' b').
  - intros Hall. f_equal. f_equal. apply leibniz_equiv. apply (anti_symm (⊆)); [done|]. intros a Ha.
    apply elem_of_list_to_set, Hin in Ha as (page & i & Hp & Hi & ->). destruct (Hpages page Hp) as (b & Hb & _).
    apply (pv_live _ _ _ _ _ Hinv). exists page, b, i. rewrite (Hall page b Hb). split_and!; [by rewrite Hb, (Hall page b Hb)|lia..|apply Z.testbit_0_l|done].
Qed.

Section Inv.
Context p m slabs partial live (Hinv : pool_inv p m slabs partial live).

Lemma slab_header page b :
  slabs !! page = Some b -> exists h, m_headers m !! (page + 64) = Some h /\ page_addr h = page /\
    header_cookie h = slab_cookie p page /\ bitmap h = [b] /\ free_count h = popcount (class_objects c) b /\
    in_partial_list h = bool_decide (b <> 0).
Proof.
  intros Hb. pose proof (pv_core _ _ _ _ _ Hinv page b Hb) as Hc. pose proof (pv_flag _ _ _ _ _ Hinv page b Hb) as Hf.
  destruct (m_headers m !! (page + 64)) as [h|]; [|done]. exists h. unfold hcore in Hc. cbn in *.
  injection Hc as ? ? ? ?. injection Hf as ?. by split_and!.
Qed.
Lemma partial_nonzero : 0 ∉ partial.
Proof.
  intros (page & b & Hb & _ & Heq)%(pv_partial _ _ _ _ _ Hinv). apply (pv_slab _ _ _ _ _ Hinv) in Hb as [(H0 & _) _]. lia.
Qed.
Lemma live_size : Z.of_nat (size live) < 2 ^ 64 - 1.
Proof.
  assert (live ⊆ list_to_set (seqZ 100 (2 ^ 64 - 150))) as Hsub.
  { intros a (page & b & i & Hb & Hi & _ & ->)%(pv_live _ _ _ _ _ Hinv). apply elem_of_list_to_set, elem_of_seqZ.
    apply (pv_slab _ _ _ _ _ Hinv) in Hb as [Hpg _]. destruct (object_bounds page i Hpg Hi) as (H1 & H2 & _).
    destruct (class_fits c) as (_ & Hc & _). unfold page_ok, PAGE_SIZE in *.
    assert (4096 <= page) by divlia. lia. }
  apply subseteq_size in Hsub. rewrite size_list_to_set in Hsub by apply NoDup_seqZ. rewrite length_seqZ in Hsub. lia.
Qed.
Lemma slabs_size : Z.of_nat (size slabs) < 2 ^ 64 - 1.
Proof.
  assert (dom slabs ⊆ list_to_set (seqZ 100 (2 ^ 64 - 150))) as Hsub.
  { intros page [b Hb]%elem_of_dom. apply elem_of_list_to_set, elem_of_seqZ.
    apply (pv_slab _ _ _ _ _ Hinv) in Hb as [(H0 & H1 & H2) _]. unfold PAGE_SIZE in *.
    assert (4096 <= page) by divlia. lia. }
  apply subseteq_size in Hsub. rewrite size_list_to_set in Hsub by apply NoDup_seqZ.
  rewrite length_seqZ, size_dom in Hsub. lia.
Qed.
End Inv.

(** ** One slot changes *)

(** Slot [i] of [page] changes to free ([v]) or in use. *)
Record slot_change (p : Pool) (m : Memory) (slabs : gmap Z Z) (partial : list Z) (live : gset Z)
    (page b i : Z) (v : bool) (b' : Z) (p' : Pool) (m' : Memory) (partial' : list Z) (live' : gset Z) : Prop := {
  sc_slab : slabs !! page = Some b;
  sc_slot : 1 <= i < class_objects c;
  sc_bit j : 0 <= j -> Z.testbit b' j = if decide (j = i) then v else Z.testbit b j;
  sc_pool : page_fns p' = page_fns p /\ pool_cookie p' = pool_cookie p /\ slab_count p' = slab_count p;
  sc_core a : a <> page + 64 -> hcore <$> m_headers m' !! a = hcore <$> m_headers m !! a;
  sc_flag a : a <> page + 64 -> in_partial_list <$> m_headers m' !! a = in_partial_list <$> m_headers m !! a;
  sc_core' : hcore <$> m_headers m' !! (page + 64) = Some (page, slab_cookie p page, [b'], popcount (class_objects c) b');
  sc_flag' : in_partial_list <$> m_headers m' !! (page + 64) = Some (bool_decide (b' <> 0));
  sc_words page' : is_Some (slabs !! page') -> m_words m' !! page' = m_words m !! page';
  sc_partial a : a ∈ partial' <-> (a <> page + 64 /\ a ∈ partial) \/ (a = page + 64 /\ b' <> 0);
  sc_nodup : NoDup partial';
  sc_head : partial_head p' = List.hd 0 partial';
  sc_links : dll (m_headers m') 0 partial' 0;
  sc_current : current p' = 0 /\ partial' = [] \/ current p' ∈ partial';
  sc_live a : a ∈ live' <-> if decide (a = object_at page i) then v = false else a ∈ live;
  sc_total : total_allocated p' = Z.of_nat (size live');
}.

Lemma slot_change_inv p m slabs partial live page b i v b' p' m' partial' live' :
  pool_inv p m slabs partial live ->
  slot_change p m slabs partial live page b i v b' p' m' partial' live' ->
  pool_inv p' m' (<[page := b']> slabs) partial' live'.
Proof.
  intros Hinv [Hb Hi Hbit (Hpf & Hpc & Hps) Hcore Hflag Hcore' Hflag' Hw Hpar Hnd Hhd Hl Hcur Hlive Htot].
  assert (forall page', slab_cookie p' page' = slab_cookie p page') as Hck by (intros; unfold slab_cookie; by rewrite Hpc).
  assert (class_objects c <= 64) as Hn64 by (destruct (class_fits c); lia).
  pose proof (pv_slab _ _ _ _ _ Hinv page b Hb) as [Hpg Hbok].
  assert (size (<[page := b']> slabs) = size slabs) as Hsize by (apply map_size_insert_Some; by eexists).
  assert (forall page' x, <[page := b']> slabs !! page' = Some x ->
    page' = page /\ x = b' \/ page' <> page /\ slabs !! page' = Some x) as Hcases.
  { intros page' x. rewrite lookup_insert. destruct (decide (page = page')) as [->|Hd]; intros Hx;
      [left|right]; split; congruence. }
  assert (forall page' x, page' <> page -> slabs !! page' = Some x -> page' + 64 <> page + 64) as Hne by (intros; lia).
  split; try done.
  - by rewrite Hpf, (pv_fns _ _ _ _ _ Hinv).
  - intros page' x [[-> ->]|[Hp Hx]]%Hcases; [|by apply (pv_slab _ _ _ _ _ Hinv)].
    split; [done|]. apply bits_ok_intro; [done|]. intros j Hj. rewrite Hbit by done.
    destruct (decide (j = i)); [by subst|]. by apply Hbok.
  - intros page' x [[-> ->]|[Hp Hx]]%Hcases; rewrite Hck; [done|]. rewrite Hcore by lia.
    by apply (pv_core _ _ _ _ _ Hinv).
  - intros page' x [[-> ->]|[Hp Hx]]%Hcases; [done|]. rewrite Hflag by lia. by apply (pv_flag _ _ _ _ _ Hinv).
  - intros page' x Hx%Hcases. unfold encode_back_pointer. rewrite Hck, Hw.
    + destruct Hx as [[-> _]|[_ Hx]]; by eapply (pv_word _ _ _ _ _ Hinv).
    + destruct Hx as [[-> _]|[_ Hx]]; by eexists.
  - intros a. rewrite Hpar, (pv_partial _ _ _ _ _ Hinv). split.
    + intros [(Ha & page' & x & Hx & Hx0 & ->)|[-> Hb0]].
      * exists page', x. rewrite lookup_insert_ne by (intros ->; done). done.
      * exists page, b'. by rewrite lookup_insert_eq.
    + intros (page' & x & [[-> ->]|[Hp Hx]]%Hcases & Hx0 & ->); [by right|]. left. split; [lia|]. eauto.
  - intros a. rewrite Hlive. destruct (decide (a = object_at page i)) as [Ha|Ha].
    + subst a. split.
      * intros ->. exists page, b', i. rewrite lookup_insert_eq. split_and!; try done; try lia.
        rewrite Hbit by lia. by rewrite decide_True.
      * intros (page' & x & j & [[-> ->]|[Hp Hx]]%Hcases & Hj & Ht & Heq).
        -- apply object_at_inj in Heq as [_ ->]; [|apply Hpg..|done|done]. rewrite Hbit, decide_True in Ht by (done || lia). done.
        -- apply (pv_slab _ _ _ _ _ Hinv) in Hx as [Hpg' _].
           apply object_at_inj in Heq as [-> _]; [done|apply Hpg|apply Hpg'|done|done].
    + rewrite (pv_live _ _ _ _ _ Hinv). split.
      * intros (page' & x & j & Hx & Hj & Ht & ->). destruct (decide (page' = page)) as [->|Hp].
        -- rewrite Hb in Hx. injection Hx as <-. exists page, b', j. rewrite lookup_insert_eq. split_and!; try done; try lia.
           rewrite Hbit by lia. rewrite decide_False; [done|]. by intros ->.
        -- exists page', x, j. by rewrite lookup_insert_ne.
      * intros (page' & x & j & [[-> ->]|[Hp Hx]]%Hcases & Hj & Ht & ->); [|by eauto 10].
        exists page, b, j. split_and!; try done; try lia. rewrite Hbit, decide_False in Ht by (lia || by intros ->). done.
  - rewrite Hps, (pv_count _ _ _ _ _ Hinv), Hsize. done.
Qed.

(** The last object of a slab is freed and the slab leaves the pool. *)
Lemma slab_removed_inv p m slabs partial live page b i p' m' partial' :
  pool_inv p m slabs partial live -> slabs !! page = Some b -> 1 <= i < class_objects c ->
  (forall j, 1 <= j < class_objects c -> Z.testbit b j = negb (bool_decide (j = i))) ->
  page_fns p' = page_fns p -> pool_cookie p' = pool_cookie p -> slab_count p' = slab_count p - 1 ->
  total_allocated p' = total_allocated p - 1 ->
  (forall a, a <> page + 64 -> hcore <$> m_headers m' !! a = hcore <$> m_headers m !! a) ->
  (forall a, a <> page + 64 -> in_partial_list <$> m_headers m' !! a = in_partial_list <$> m_headers m !! a) ->
  (forall page', page' <> page -> m_words m' !! page' = m_words m !! page') ->
  (forall x, x ∈ partial' <-> x ∈ partial /\ x <> page + 64) -> NoDup partial' ->
  partial_head p' = List.hd 0 partial' -> dll (m_headers m') 0 partial' 0 ->
  (current p' = 0 /\ partial' = [] \/ current p' ∈ partial') ->
  pool_inv p' m' (delete page slabs) partial' (live ∖ {[object_at page i]}).
Proof.
  intros Hinv Hb Hi Hbits Hpf Hpc Hps Hpt Hcore Hflag Hw Hpar Hnd Hhd Hl Hcur.
  assert (forall page', slab_cookie p' page' = slab_cookie p page') as Hck by (intros; unfold slab_cookie; by rewrite Hpc).
  pose proof (pv_slab _ _ _ _ _ Hinv page b Hb) as [Hpg Hbok].
  assert (forall page' x, delete page slabs !! page' = Some x -> page' <> page /\ slabs !! page' = Some x) as Hcases.
  { intros page' x [Hne Hx]%lookup_delete_Some. done. }
  assert (size slabs = S (size (delete page slabs))) as Hsize by (rewrite map_size_delete_Some by (by eexists);
    pose proof (map_size_ne_0_lookup_2 slabs page (mk_is_Some _ _ Hb)); lia).
  assert (object_at page i ∈ live) as Hin.
  { apply (pv_live _ _ _ _ _ Hinv). exists page, b, i. split_and!; try done; try lia.
    rewrite Hbits by done. by rewrite bool_decide_eq_true_2. }
  split; try done.
  - by rewrite Hpf, (pv_fns _ _ _ _ _ Hinv).
  - intros page' x [_ Hx]%Hcases. by apply (pv_slab _ _ _ _ _ Hinv).
  - intros page' x [Hp Hx]%Hcases. rewrite Hck, Hcore by lia. by apply (pv_core _ _ _ _ _ Hinv).
  - intros page' x [Hp Hx]%Hcases. rewrite Hflag by lia. by apply (pv_flag _ _ _ _ _ Hinv).
  - intros page' x [Hp Hx]%Hcases. unfold encode_back_pointer. rewrite Hck, Hw by done.
    by eapply (pv_word _ _ _ _ _ Hinv).
  - intros a. rewrite Hpar, (pv_partial _ _ _ _ _ Hinv). split.
    + intros [(page' & x & Hx & Hx0 & ->) Hne]. exists page', x. rewrite lookup_delete_ne by (intros ->; done). done.
    + intros (page' & x & [Hp Hx]%Hcases & Hx0 & ->). split; [by eauto|lia].
  - intros a. rewrite elem_of_difference, elem_of_singleton, (pv_live _ _ _ _ _ Hinv). split.
    + intros [(page' & x & j & Hx & Hj & Ht & ->) Hne]. exists page', x, j. split_and!; try done; try lia.
      rewrite lookup_delete_ne; [done|]. intros <-. rewrite Hb in Hx. injection Hx as <-.
      rewrite Hbits in Ht by done. destruct (bool_decide (j = i)) eqn:Hji; [|done].
      apply bool_decide_eq_true in Hji as ->. done.
    + intros (page' & x & j & [Hp Hx]%Hcases & Hj & Ht & ->). split; [by eauto 10|].
      destruct (pv_slab _ _ _ _ _ Hinv page' x Hx) as [Hpg' _].
      intros Heq. apply object_at_inj in Heq as [-> _]; [done|apply Hpg'|apply Hpg|done|done].
  - rewrite Hpt, (pv_total _ _ _ _ _ Hinv), size_difference by set_solver. rewrite size_singleton.
    assert (size ({[object_at page i]} : gset Z) <= size live)%nat as Hsz by (apply subseteq_size; set_solver).
    rewrite size_singleton in Hsz. lia.
  - rewrite Hps, (pv_count _ _ _ _ _ Hinv). lia.
Qed.

Lemma spare_change slabs page b' x :
  spare_ok slabs x -> x = None \/ x = Some page -> is_Some (slabs !! page) ->
  (popcount (class_objects c) b' = class_objects c - 1 -> size slabs = 1%nat) ->
  spare_ok (<[page := b']> slabs) None.
Proof.
  intros Hsp Hx Hb Hfull page' b Hb' Hp. right. rewrite map_size_insert_Some by done.
  rewrite lookup_insert in Hb'. destruct (decide (page = page')) as [<-|Hne].
  - injection Hb' as <-. by apply Hfull.
  - destruct (Hsp page' b Hb' Hp) as [->|?]; [|done]. destruct Hx; congruence.
Qed.
Lemma spare_removed slabs page : spare_ok slabs None -> spare_ok (delete page slabs) None.
Proof.
  intros Hsp page' b [Hne Hb]%lookup_delete_Some Hp. right. destruct (Hsp page' b Hb Hp) as [?|Hs]; [done|].
  destruct (slabs !! page) as [b0|] eqn:Hb0; [exfalso|by rewrite delete_id].
  assert (size (delete page slabs) = 0%nat) as Hd by (rewrite map_size_delete_Some, Hs; [done|by eexists]).
  apply map_size_empty_inv in Hd. assert (delete page slabs !! page' = Some b) as Hl by (by rewrite lookup_delete_ne).
  by rewrite Hd in Hl.
Qed.
Lemma spare_added slabs page b :
  (forall page' b', slabs !! page' = Some b' -> popcount (class_objects c) b' <> class_objects c - 1) ->
  spare_ok (<[page := b]> slabs) (Some page).
Proof.
  intros Hnone page' b' Hb' Hp. left. rewrite lookup_insert in Hb'.
  destruct (decide (page = page')) as [<-|Hne]; [done|]. by destruct (Hnone page' b' Hb').
Qed.

(** A slab without objects joins the pool and becomes the current one. *)
Lemma slab_added_inv p m slabs partial live page b p' m' :
  pool_inv p m slabs partial live -> slabs !! page = None -> page_ok page -> bits_ok (class_objects c) b -> b <> 0 ->
  (forall j, 1 <= j < class_objects c -> Z.testbit b j = true) ->
  page_fns p' = page_fns p -> pool_cookie p' = pool_cookie p -> slab_count p' = slab_count p + 1 ->
  total_allocated p' = total_allocated p -> current p' = page + 64 -> partial_head p' = page + 64 ->
  (forall a, a <> page + 64 -> hcore <$> m_headers m' !! a = hcore <$> m_headers m !! a) ->
  (forall a, a <> page + 64 -> in_partial_list <$> m_headers m' !! a = in_partial_list <$> m_headers m !! a) ->
  hcore <$> m_headers m' !! (page + 64) = Some (page, slab_cookie p page, [b], popcount (class_objects c) b) ->
  in_partial_list <$> m_headers m' !! (page + 64) = Some true ->
  m_words m' !! page = Some (encode_back_pointer p page (page + 64)) ->
  (forall page', page' <> page -> m_words m' !! page' = m_words m !! page') ->
  dll (m_headers m') 0 (page + 64 :: partial) 0 ->
  pool_inv p' m' (<[page := b]> slabs) (page + 64 :: partial) live.
Proof.
  intros Hinv Hnone Hpg Hbok Hb0 Hbits Hpf Hpc Hps Hpt Hcur Hhd Hcore Hflag Hcore' Hflag' Hw' Hw Hl.
  assert (forall page', slab_cookie p' page' = slab_cookie p page') as Hck by (intros; unfold slab_cookie; by rewrite Hpc).
  assert (forall page' x, <[page := b]> slabs !! page' = Some x ->
    page' = page /\ x = b \/ page' <> page /\ slabs !! page' = Some x) as Hcases.
  { intros page' x. rewrite lookup_insert. destruct (decide (page = page')) as [->|Hd]; intros Hx;
      [left|right]; split; congruence. }
  assert (page + 64 ∉ partial) as Hnin.
  { intros (page' & x & Hx & _ & Heq)%(pv_partial _ _ _ _ _ Hinv). assert (page' = page) as -> by lia. congruence. }
  split; try done.
  - by rewrite Hpf, (pv_fns _ _ _ _ _ Hinv).
  - intros page' x [[-> ->]|[Hp Hx]]%Hcases; [done|by apply (pv_slab _ _ _ _ _ Hinv)].
  - intros page' x [[-> ->]|[Hp Hx]]%Hcases; rewrite Hck; [done|]. rewrite Hcore by lia.
    by apply (pv_core _ _ _ _ _ Hinv).
  - intros page' x [[-> ->]|[Hp Hx]]%Hcases; [by rewrite bool_decide_eq_true_2|]. rewrite Hflag by lia.
    by apply (pv_flag _ _ _ _ _ Hinv).
  - intros page' x Hx%Hcases. unfold encode_back_pointer. rewrite Hck.
    destruct Hx as [[-> _]|[Hp Hx]]; [done|]. rewrite Hw by done. by eapply (pv_word _ _ _ _ _ Hinv).
  - intros a. rewrite elem_of_cons, (pv_partial _ _ _ _ _ Hinv). split.
    + intros [->|(page' & x & Hx & Hx0 & ->)]; [exists page, b; by rewrite lookup_insert_eq|].
      exists page', x. rewrite lookup_insert_ne by congruence. done.
    + intros (page' & x & [[-> ->]|[Hp Hx]]%Hcases & Hx0 & ->); [by left|]. right. eauto.
  - constructor; [done|apply Hinv].
  - rewrite Hcur. right. left.
  - intros a. rewrite (pv_live _ _ _ _ _ Hinv). split.
    + intros (page' & x & j & Hx & Hj & Ht & ->). exists page', x, j. rewrite lookup_insert_ne by congruence. done.
    + intros (page' & x & j & [[-> ->]|[Hp Hx]]%Hcases & Hj & Ht & ->); [|by eauto 10].
      rewrite Hbits in Ht by done. done.
  - by rewrite Hpt, (pv_total _ _ _ _ _ Hinv).
  - rewrite Hps, (pv_count _ _ _ _ _ Hinv), map_size_insert_None by done. lia.
Qed.
End Pool.
