(* ===== verification/KmallocOps.v ===== *)
(** * Allocation and release in a slab pool

    What [alloc_from_slab], [release_slot] and the search for a slab do to the
    pool invariant, on every branch. *)

From S2P Require Import Prelude Address HwInfo Pmm PmmReserved PmmFreeList PmmAlloc PmmInit PmmClients.
From S2P Require Import Kmalloc KmallocLemmas KmallocPool.
From stdpp Require Import base tactics option list list_numbers numbers gmap strings.

#[local] Open Scope Z_scope.
#[local] Open Scope kernel_scope.

Section Ops.
Context `{PageLayout} (c : SizeClass).
#[local] Abbreviation n := (class_objects c).

Lemma objects_small : 3 <= n <= 62.
Proof. apply class_fits. Qed.

(** The header of [page] after its bits were changed. *)
Lemma set_bits_header (Hs : gmap Z SlabHeader) (slab : Z) (h : SlabHeader) b k l pr nx :
  Hs !! slab = Some h ->
  let H1 := <[slab := set_bits b k h]> Hs in
  (forall a, a <> slab -> H1 !! a = Hs !! a) /\
  hcore <$> H1 !! slab = Some (page_addr h, header_cookie h, b, k) /\
  in_partial_list <$> H1 !! slab = Some (in_partial_list h) /\
  (dll Hs pr l nx -> dll H1 pr l nx).
Proof.
  intros Hh H1. unfold H1. split_and!.
  - intros a Ha. by rewrite lookup_insert_ne by congruence.
  - by rewrite lookup_insert_eq.
  - by rewrite lookup_insert_eq.
  - apply dll_ext. intros a _. rewrite lookup_insert. destruct (decide (slab = a)) as [<-|]; [by rewrite Hh|done].
Qed.

Lemma current_kept (cur slab : Z) l1 l2 :
  cur ∈ l1 ++ slab :: l2 ->
  let cur' := if cur =? slab then List.hd 0 (l1 ++ l2) else cur in
  cur' = 0 /\ l1 ++ l2 = [] \/ cur' ∈ l1 ++ l2.
Proof.
  intros Hin cur'. unfold cur'. destruct (Z.eqb_spec cur slab) as [->|Hne].
  - destruct (l1 ++ l2) as [|x l]; [by left|]. right. cbn. left.
  - right. set_solver.
Qed.

(** A slab leaves the list when it is full. *)
Lemma unlink_if_full (full : bool) s slab h l :
  m_headers (mem s) !! slab = Some h -> in_partial_list h = true -> slab ∈ l -> 0 ∉ l -> NoDup l ->
  partial_head (pool s) = List.hd 0 l -> dll (m_headers (mem s)) 0 l 0 -> current (pool s) ∈ l ->
  wp (if full then unlink_slab slab else ret tt) (fun _ s' => exists Hs' l' cur',
    s' = with_headers Hs' (set_current cur' (set_partial_head (List.hd 0 l') s)) /\
    relinked (m_headers (mem s)) Hs' slab (negb full) l /\ dll Hs' 0 l' 0 /\ NoDup l' /\
    (forall x, x ∈ l' <-> x ∈ l /\ (x = slab -> full = false)) /\
    (cur' = 0 /\ l' = [] \/ cur' ∈ l')) s.
Proof.
  intros Hh Hin Hs H0 Hnd Hhd Hdll Hcur. destruct full.
  - apply list_elem_of_split in Hs as (l1 & l2 & ->).
    eapply wp_mono; [by apply (unlink_slab_spec s slab h l1 l2)|].
    intros [] s' (Hs' & -> & Hrel & Hd). eexists Hs', (l1 ++ l2), _. split_and!; [reflexivity|done|done| | |by apply current_kept].
    + apply NoDup_app in Hnd as (N1 & Hdis & [_ N2]%NoDup_cons). apply NoDup_app. split_and!; [done| |done].
      intros x Hx Hx2. apply (Hdis x Hx). by right.
    + intros x. apply NoDup_app in Hnd as (_ & Hdis & [Hs2 _]%NoDup_cons). rewrite !elem_of_app, elem_of_cons. split.
      * intros Hx. split; [tauto|]. intros ->. destruct Hx as [Hx|Hx]; [|done]. exfalso. apply (Hdis slab Hx). by left.
      * intros [[?|[->|?]] Hne]; [by left| |by right]. by specialize (Hne eq_refl).
  - apply wp_ret. exists (m_headers (mem s)), l, (current (pool s)). rewrite <-Hhd.
    split_and!; [by destruct s as [[] [? ? ? ? ?]]|split|done|done| |by right]; try done.
    + rewrite Hh. cbn. by rewrite Hin.
    + intros x. tauto.
Qed.

(** A slab that was full enters the list and becomes the current one. *)
Lemma link_if_full (full : bool) s slab h l :
  m_headers (mem s) !! slab = Some h -> in_partial_list h = negb full -> slab <> 0 -> 0 ∉ l -> NoDup l ->
  (slab ∈ l <-> full = false) ->
  partial_head (pool s) = List.hd 0 l -> dll (m_headers (mem s)) 0 l 0 ->
  (current (pool s) = 0 /\ l = [] \/ current (pool s) ∈ l) ->
  wp (if full then link_slab slab ;;; modify (set_current slab) else ret tt) (fun _ s' => exists Hs' l' cur',
    s' = with_headers Hs' (set_current cur' (set_partial_head (List.hd 0 l') s)) /\
    relinked (m_headers (mem s)) Hs' slab true (slab :: l) /\ dll Hs' 0 l' 0 /\ NoDup l' /\
    (forall x, x ∈ l' <-> x = slab \/ x ∈ l) /\
    (cur' = 0 /\ l' = [] \/ cur' ∈ l')) s.
Proof.
  intros Hh Hin Hs0 H0 Hnd Hs Hhd Hdll Hcur. destruct full.
  - assert (slab ∉ l) as Hsl by (intros ?%Hs; done).
    apply wp_bind. eapply wp_mono; [by apply (link_slab_spec s slab h l)|].
    intros [] s' (Hs' & -> & Hrel & Hd). apply wp_modify. exists Hs', (slab :: l), slab.
    split_and!; [by destruct s as [[] [? ? ? ? ?]]|done|done|by constructor| |right; left].
    intros x. by rewrite elem_of_cons.
  - apply wp_ret. exists (m_headers (mem s)), l, (current (pool s)). rewrite <-Hhd.
    split_and!; [by destruct s as [[] [? ? ? ? ?]]|split|done|done| |done]; try done.
    + rewrite Hh. cbn. by rewrite Hin.
    + intros x. assert (slab ∈ l) by (by apply Hs). split; [tauto|]. by intros [->|?].
Qed.

(** ** Poisoning *)

Lemma filter_apart {A} (M0 : gmap Z A) a k w x :
  apart a k x w = true -> filter (fun kv => apart a k kv.1 w = true) M0 !! x = M0 !! x.
Proof.
  intros Hx. rewrite map_lookup_filter. destruct (M0 !! x) as [v|]; [|done]. cbn. by rewrite option_guard_True.
Qed.
Lemma slot_apart page i page' :
  page_ok page -> 1 <= i < n -> page' mod PAGE_SIZE = 0 ->
  apart (object_at c page i) (class_bytes c) page' BACK_POINTER_SIZE = true /\
  apart (object_at c page i) (class_bytes c) (page' + 64) size_of_SlabHeader = true.
Proof.
  intros Hpg Hi Hal. destruct (object_bounds c page i Hpg Hi) as (Hlo & Hhi & _). destruct (class_fits c) as (_ & Hb & _).
  unfold apart, BACK_POINTER_SIZE, size_of_SlabHeader, page_ok, PAGE_SIZE in *.
  assert (page' <= page \/ page + 4096 <= page') by divlia.
  split; apply orb_true_iff; rewrite !Z.leb_le; lia.
Qed.

(** The memory after an object was poisoned. *)
Definition poisoned (a k : Z) (m : Memory) : Memory := {|
  m_pmm := m_pmm m;
  m_words := filter (fun kv => apart a k kv.1 BACK_POINTER_SIZE = true) (m_words m);
  m_headers := filter (fun kv => apart a k kv.1 size_of_SlabHeader = true) (m_headers m);
  m_bytes := fun x => if (a <=? x) && (x <? a + k) then POISON_FREE else m_bytes m x;
  m_mappers := m_mappers m |}.

Lemma poisoned_keeps page i m page' :
  page_ok page -> 1 <= i < n -> page' mod PAGE_SIZE = 0 ->
  m_words (poisoned (object_at c page i) (class_bytes c) m) !! page' = m_words m !! page' /\
  m_headers (poisoned (object_at c page i) (class_bytes c) m) !! (page' + 64) = m_headers m !! (page' + 64).
Proof.
  intros Hpg Hi Hal. destruct (slot_apart page i page' Hpg Hi Hal) as [H1 H2]. cbn.
  by rewrite !filter_apart.
Qed.

Section Slab.
Context (s : PoolState) (slabs : gmap Z Z) (partial : list Z) (live : gset Z).
Hypothesis Hinv : pool_inv c (pool s) (mem s) slabs partial live.

Lemma partial_slab page b : slabs !! page = Some b -> b <> 0 -> page + 64 ∈ partial.
Proof. intros Hb Hb0. apply (pv_partial _ _ _ _ _ _ Hinv). eauto. Qed.
Lemma partial_page a : a ∈ partial -> exists page b, slabs !! page = Some b /\ b <> 0 /\ a = page + 64.
Proof. by intros ?%(pv_partial _ _ _ _ _ _ Hinv). Qed.
Lemma current_in page b : slabs !! page = Some b -> b <> 0 -> current (pool s) ∈ partial.
Proof.
  intros Hb Hb0. pose proof (partial_slab page b Hb Hb0) as Hin.
  destruct (pv_current _ _ _ _ _ _ Hinv) as [[_ ->]|]; [by apply elem_of_nil in Hin|done].
Qed.
(** A change of one slab's header and of the links leaves other headers alone. *)
Lemma outside_partial page Hs Hs' :
  is_Some (slabs !! page) -> (forall a, a ∉ page + 64 :: partial -> Hs' !! a = Hs !! a) -> same_outside slabs Hs Hs'.
Proof.
  intros Hp Hsame a Ha. apply Hsame. intros [->|(page' & b & Hb & _ & ->)%partial_page]%elem_of_cons; [by apply (Ha page)|].
  by apply (Ha page'); [eexists|].
Qed.
Lemma count_nonzero b : bits_ok n b -> negb (popcount n b =? 0) = bool_decide (b <> 0).
Proof.
  intros Hok. destruct (Z.eqb_spec (popcount n b) 0) as [Hz|Hz]; cbn; symmetry.
  - apply bool_decide_eq_false. intros Hne. by apply Hne, (popcount_zero n).
  - apply bool_decide_eq_true. intros Hz'. by apply Hz, (popcount_zero n).
Qed.
Lemma free_not_live page b i : slabs !! page = Some b -> 1 <= i < n -> Z.testbit b i = true -> object_at c page i ∉ live.
Proof.
  intros Hb Hi Hti (page2 & b2 & j & Hb2 & Hj & Ht & Heq)%(pv_live _ _ _ _ _ _ Hinv).
  destruct (pv_slab _ _ _ _ _ _ Hinv page b Hb) as [Hpg _]. destruct (pv_slab _ _ _ _ _ _ Hinv page2 b2 Hb2) as [Hpg2 _].
  apply object_at_inj in Heq as [<- <-]; [|apply Hpg|apply Hpg2|lia|lia]. congruence.
Qed.

(** The state after one slot was taken from a slab. *)
Definition taken (page b : Z) (r : option Z) (s' : PoolState) : Prop :=
  let a := object_at c page (trailing_zeros b) in
  r = Some a /\ (a ∉ live) /\ pool_cookie (pool s') = pool_cookie (pool s) /\ exists Hs' partial',
    mem s' = set_headers Hs' (mem s) /\ same_outside slabs (m_headers (mem s)) Hs' /\
    pool_inv c (pool s') (mem s') (<[page := clear_bit b (trailing_zeros b)]> slabs) partial' ({[a]} ∪ live).

(** The state after a slot was marked as taken, before a full slab leaves the
    list. *)
Definition slot_taken (page b : Z) (h : SlabHeader) : PoolState :=
  set_total (Z.of_nat (size live) + 1)
    (with_headers (<[page + 64 := set_bits [clear_bit b (trailing_zeros b)] (free_count h - 1) h]> (m_headers (mem s))) s).

Lemma slot_taken_inv page b h Hs' partial' cur' :
  slabs !! page = Some b -> b <> 0 -> m_headers (mem s) !! (page + 64) = Some h ->
  relinked (m_headers (mem (slot_taken page b h))) Hs' (page + 64) (negb (free_count h - 1 =? 0)) partial ->
  dll Hs' 0 partial' 0 -> NoDup partial' ->
  (forall x, x ∈ partial' <-> x ∈ partial /\ (x = page + 64 -> (free_count h - 1 =? 0) = false)) ->
  (cur' = 0 /\ partial' = [] \/ cur' ∈ partial') ->
  taken page b (Some (object_at c page (trailing_zeros b)))
    (with_headers Hs' (set_current cur' (set_partial_head (List.hd 0 partial') (slot_taken page b h)))).
Proof.
  intros Hb Hb0 Hh Hrel Hdll' Hnd' Hpar Hcur'. pose proof objects_small as Hn.
  destruct (pv_slab _ _ _ _ _ _ Hinv page b Hb) as [Hpg Hbok].
  destruct (slab_header _ _ _ _ _ _ Hinv page b Hb) as (h1 & Hh1 & Hpa & Hck & Hbm & Hfc & Hfl).
  rewrite Hh in Hh1. injection Hh1 as <-.
  destruct (trailing_zeros_spec n b ltac:(lia) Hbok Hb0) as (Hi & Hti & _).
  unfold taken. set (i := trailing_zeros b) in *. set (b' := clear_bit b i). set (a := object_at c page i).
  pose proof (popcount_clear n b i Hbok ltac:(lia) Hti) as Hpc. fold b' in Hpc.
  assert (bits_ok n b') as Hbok' by (apply clear_bit_ok; lia || done).
  pose proof (free_not_live page b i Hb ltac:(lia) Hti : a ∉ live) as Hal.
  assert (negb (free_count h - 1 =? 0) = bool_decide (b' <> 0)) as Hfull by (rewrite Hfc, <-Hpc; by apply count_nonzero).
  destruct (set_bits_header (m_headers (mem s)) (page + 64) h [b'] (free_count h - 1) partial 0 0 Hh) as (Hoth & Hcore & _).
  split; [done|]. split; [done|]. split; [done|]. exists Hs', partial'. split; [done|]. split.
  { apply (outside_partial page); [by eexists|]. intros x [Hx Hx2]%not_elem_of_cons.
    rewrite (rl_other _ _ _ _ _ Hrel) by done. by apply Hoth. }
  eapply (slot_change_inv c (pool s) (mem s) slabs partial live page b i false b'); [done|]. split; try done.
  - intros j Hj. unfold b'. rewrite (clear_bit_spec n) by (done || lia). done.
  - intros x Hx. etrans; [exact (rl_core _ _ _ _ _ Hrel x)|]. by rewrite <-(Hoth x Hx).
  - intros x Hx. etrans; [exact (rl_flag _ _ _ _ _ Hrel x Hx)|]. by rewrite <-(Hoth x Hx).
  - etrans; [exact (rl_core _ _ _ _ _ Hrel (page + 64))|]. etrans; [exact Hcore|]. by rewrite Hpa, Hck, Hfc, Hpc.
  - etrans; [exact (rl_slab _ _ _ _ _ Hrel)|]. by rewrite Hfull.
  - intros x. rewrite Hpar. destruct (decide (x = page + 64)) as [->|Hne]; [|naive_solver].
    rewrite <-(bool_decide_eq_true (b' <> 0)), <-Hfull, negb_true_iff. pose proof (partial_slab page b Hb Hb0). naive_solver.
  - intros x. rewrite elem_of_union, elem_of_singleton. fold a. destruct (decide (x = a)); naive_solver.
  - change (Z.of_nat (size live) + 1 = Z.of_nat (size ({[a]} ∪ live))). rewrite size_union, size_singleton by set_solver. lia.
Qed.

Lemma alloc_from_slab_spec page b :
  slabs !! page = Some b -> b <> 0 ->
  wp (alloc_from_slab (Class_layout c) (page + 64)) (taken page b) s.
Proof.
  intros Hb Hb0. pose proof objects_small as Hn. destruct (class_layout c) as (Hsz & Hus & Hobj).
  destruct (pv_slab _ _ _ _ _ _ Hinv page b Hb) as [Hpg Hbok].
  destruct (slab_header _ _ _ _ _ _ Hinv page b Hb) as (h & Hh & Hpa & Hck & Hbm & Hfc & Hfl).
  destruct (trailing_zeros_spec n b ltac:(lia) Hbok Hb0) as (Hi & Hti & _).
  assert (popcount n b <> 0) as Hp0 by (by rewrite popcount_zero).
  pose proof (popcount_bound n b ltac:(lia)) as Hpb.
  unfold alloc_from_slab. apply wp_bind. eapply wp_read_header; [done|].
  rewrite (proj2 (Z.eqb_neq _ _)) by (by rewrite Hfc). apply wp_bind.
  change (range 0 MAX_BITMAP_WORDS) with [0]. cbn [for_loop]. apply wp_bind. unfold take_slot.
  apply wp_bind. eapply wp_read_header; [done|]. rewrite Hbm. cbn [Z.to_nat lookup list_lookup]. apply wp_bind, wp_ret.
  rewrite (proj2 (Z.eqb_neq b 0)) by done. rewrite Z.add_0_l, Hobj, (proj2 (Z.leb_gt _ _)) by lia.
  apply wp_bind, wp_sub_uint; [lia|]. apply wp_bind, wp_write_header. fold (clear_bit b (trailing_zeros b)).
  cbn [list_insert insert]. apply wp_bind, wp_gets, wp_bind. cbn [pool with_headers on_mem].
  pose proof (live_size _ _ _ _ _ _ Hinv) as Hls. rewrite (pv_total _ _ _ _ _ _ Hinv). apply wp_add_uint; [lia|].
  apply wp_bind, wp_modify, wp_bind.
  match goal with |- wp _ _ ?x => change x with (slot_taken page b h) end.
  destruct (set_bits_header (m_headers (mem s)) (page + 64) h [clear_bit b (trailing_zeros b)] (free_count h - 1) partial 0 0 Hh)
    as (_ & _ & _ & Hdll). specialize (Hdll (pv_links _ _ _ _ _ _ Hinv)).
  eapply wp_mono; [apply (unlink_if_full _ (slot_taken page b h) (page + 64) _ partial (lookup_insert_eq _ _ _)); try done|].
  { cbn. rewrite Hfl. by apply bool_decide_eq_true. }
  { by apply (partial_slab page b). }
  { by eapply partial_nonzero. }
  { apply Hinv. }
  { apply Hinv. }
  { by apply (current_in page b). }
  intros [] s2 (Hs' & partial' & cur' & -> & Hrel & Hdll' & Hnd' & Hpar & Hcur').
  rewrite Hsz, Hus, Hpa. destruct (object_bounds c page (trailing_zeros b) Hpg ltac:(lia)) as (Hlo & Hhi & _).
  destruct (class_fits c) as (_ & Hcb & _). unfold page_ok, PAGE_SIZE, object_at in Hpg, Hlo, Hhi.
  apply wp_bind, wp_mul_uint; [nia|]. apply wp_bind, wp_add_uint; [lia|]. apply wp_bind, wp_add_uint; [lia|].
  apply wp_ret. cbv beta iota. apply wp_ret, wp_ret. fold (object_at c page (trailing_zeros b)).
  rewrite NonNull_new_Some by (unfold object_at; nia). by apply slot_taken_inv.
Qed.

Lemma poisoned_inv page i :
  page_ok page -> 1 <= i < n ->
  pool_inv c (pool s) (poisoned (object_at c page i) (class_bytes c) (mem s)) slabs partial live.
Proof.
  intros Hpg Hi. eapply pool_inv_frame; [exact Hinv|]. intros page' [b Hb].
  destruct (pv_slab _ _ _ _ _ _ Hinv page' b Hb) as [(_ & Hal & _) _].
  by destruct (poisoned_keeps page i (mem s) page' Hpg Hi Hal) as [-> ->].
Qed.

(** The search for a slab with a free slot looks at the current slab only. *)
Lemma current_slab_spec :
  wp current_slab_with_space (fun r s' => s' = s /\
    match r with
    | Some slab => exists page b, slabs !! page = Some b /\ b <> 0 /\ slab = page + 64
    | None => partial = []
    end) s.
Proof.
  unfold current_slab_with_space. apply wp_bind, wp_gets, wp_bind, wp_gets.
  destruct (pv_current _ _ _ _ _ _ Hinv) as [[Hcur Hnil]|Hcur].
  - rewrite Hcur. cbn [NonNull_new Z.eqb find_space]. apply wp_bind, wp_gets. rewrite Hcur. by apply wp_ret.
  - destruct (partial_page _ Hcur) as (page & b & Hb & Hb0 & Heq). rewrite Heq.
    destruct (slab_header _ _ _ _ _ _ Hinv page b Hb) as (h & Hh & _ & _ & _ & Hfc & _).
    destruct (pv_slab _ _ _ _ _ _ Hinv page b Hb) as [(H0 & _) Hbok].
    rewrite NonNull_new_Some by lia. apply wp_bind. eapply wp_read_header; [done|].
    pose proof (popcount_bound n b ltac:(pose proof objects_small; lia)).
    assert (popcount n b <> 0) by (by rewrite popcount_zero).
    rewrite (proj2 (Z.ltb_lt _ _)) by lia. apply wp_ret. split; [done|]. by exists page, b.
Qed.

(** ** Releasing a slot *)

Lemma slot_word i : 1 <= i < n -> i / 64 = 0 /\ Z.shiftl 1 (i mod 64) = 2 ^ i.
Proof.
  pose proof objects_small. intros Hi. rewrite Z.mod_small by lia. rewrite Z.shiftl_1_l. split; [divlia|done].
Qed.
Lemma bit_free b i : 0 <= i -> negb (Z.land b (2 ^ i) =? 0) = Z.testbit b i.
Proof.
  intros Hi. rewrite land_bit by done. destruct (Z.testbit b i); [|done].
  by rewrite (proj2 (Z.eqb_neq _ _)) by (pose proof (Z.pow_pos_nonneg 2 i); lia).
Qed.

Lemma release_double page b i a :
  slabs !! page = Some b -> 1 <= i < n -> Z.testbit b i = true ->
  wp (release_slot (Class_layout c) (page + 64) a i) (fun r s' => r = Err DoubleFree /\ s' = s) s.
Proof.
  intros Hb Hi Ht. destruct (slab_header _ _ _ _ _ _ Hinv page b Hb) as (h & Hh & _ & _ & Hbm & _).
  destruct (slot_word i Hi) as [Hw Hm]. unfold release_slot. apply wp_bind. eapply wp_read_header; [done|].
  rewrite Hw, Hm, Hbm. apply wp_bind, wp_ret. rewrite bit_free, Ht by lia. by apply wp_ret.
Qed.

Section Release.
Context (page b i : Z).
Hypothesis Hb : slabs !! page = Some b.
Hypothesis Hi : 1 <= i < n.
Hypothesis Ht : Z.testbit b i = false.
#[local] Abbreviation a := (object_at c page i).
#[local] Abbreviation m1 := (poisoned a (class_bytes c) (mem s)).

(** The slab stays in the pool. *)
Definition kept (s' : PoolState) : Prop :=
  (popcount n (set_bit b i) = n - 1 -> size slabs = 1%nat) /\
  pool_cookie (pool s') = pool_cookie (pool s) /\ exists Hs' partial',
  mem s' = set_headers Hs' m1 /\ same_outside slabs (m_headers m1) Hs' /\
  pool_inv c (pool s') (mem s') (<[page := set_bit b i]> slabs) partial' (live ∖ {[a]}).
(** The slab left the pool; its page is about to be given back. *)
Definition given_back (s' : PoolState) : Prop :=
  pool_cookie (pool s') = pool_cookie (pool s) /\ page_fns (pool s') = PmmPages /\
  exists Hs' partial', mem s' = set_words (<[page := usize_MAX]> (m_words m1)) (set_headers Hs' m1) /\
  same_outside slabs (m_headers m1) Hs' /\
  pool_inv c (pool s') (mem s') (delete page slabs) partial' (live ∖ {[a]}).

Lemma released_live : a ∈ live.
Proof. apply (pv_live _ _ _ _ _ _ Hinv). exists page, b, i. by split_and!; try lia. Qed.

(** Other slots of a slab that becomes empty are free already. *)
Lemma emptied_bits :
  popcount n (set_bit b i) = n - 1 -> forall j, 1 <= j < n -> Z.testbit b j = negb (bool_decide (j = i)).
Proof.
  intros Hp j Hj. pose proof objects_small as Hn. pose proof (popcount_full n _ ltac:(lia) Hp j Hj) as Hbit.
  rewrite set_bit_spec in Hbit by lia. destruct (decide (j = i)) as [->|Hne].
  - by rewrite Ht, bool_decide_eq_true_2.
  - by rewrite Hbit, bool_decide_eq_false_2.
Qed.

Context (h : SlabHeader).
Hypothesis Hh : m_headers (mem s) !! (page + 64) = Some h.
#[local] Abbreviation b' := (set_bit b i).

(** The state after the object was poisoned and its slot marked free. *)
Definition marked : PoolState := set_total (Z.of_nat (size live) - 1)
  (with_headers (<[page + 64 := set_bits [b'] (popcount n b + 1) h]> (m_headers m1))
    {| pool := pool s; mem := m1 |}).

Lemma set_bit_nonzero : b' <> 0.
Proof.
  intros Hz. apply (f_equal (fun x => Z.testbit x i)) in Hz. rewrite set_bit_spec in Hz by lia.
  by rewrite decide_True, Z.bits_0 in Hz.
Qed.
Lemma live_removed : Z.of_nat (size (live ∖ {[a]})) = Z.of_nat (size live) - 1 /\ (0 < size live)%nat.
Proof.
  pose proof released_live as Hal. assert (size ({[a]} : gset Z) <= size live)%nat as Hsz by (apply subseteq_size; set_solver).
  rewrite size_difference by set_solver. rewrite size_singleton in *. lia.
Qed.

(** The marked slab in memory. *)
Lemma marked_header :
  let Hs := m_headers (mem marked) in
  Hs !! (page + 64) = Some (set_bits [b'] (popcount n b + 1) h) /\
  (forall x, x <> page + 64 -> Hs !! x = m_headers m1 !! x) /\
  hcore <$> Hs !! (page + 64) = Some (page, slab_cookie (pool s) page, [b'], popcount n b') /\
  in_partial_list h = bool_decide (b <> 0) /\
  dll Hs 0 partial 0.
Proof.
  destruct (pv_slab _ _ _ _ _ _ Hinv page b Hb) as [Hpg Hbok].
  pose proof (poisoned_inv page i Hpg Hi) as Hinv1.
  destruct (slab_header _ _ _ _ _ _ Hinv1 page b Hb) as (h1 & Hh1 & Hpa & Hck & Hbm & Hfc & Hfl).
  destruct (poisoned_keeps page i (mem s) page Hpg Hi (proj1 (proj2 Hpg))) as [_ Hkeep].
  rewrite Hkeep, Hh in Hh1. injection Hh1 as <-.
  destruct (set_bits_header (m_headers m1) (page + 64) h [b'] (popcount n b + 1) partial 0 0)
    as (Hoth & Hcore & Hflag & Hdll); [by rewrite Hkeep|].
  split_and!; [apply lookup_insert_eq|exact Hoth| |done|apply Hdll, Hinv1].
  etrans; [exact Hcore|]. by rewrite Hpa, Hck, (popcount_set n b i Hi Ht).
Qed.

Lemma release_keep (Q : Result unit FreeError -> PoolState -> Prop) :
  (popcount n b' = n - 1 -> size slabs = 1%nat) -> (forall s', kept s' -> Q (Ok tt) s') ->
  wp ((if popcount n b =? 0 then link_slab (page + 64) ;;; modify (set_current (page + 64)) else ret tt) ;;;
      ret (Ok tt)) Q marked.
Proof.
  intros Hone HQ. destruct marked_header as (Hhm & Hoth & Hcore & Hfl & Hdll).
  destruct (pv_slab _ _ _ _ _ _ Hinv page b Hb) as [Hpg Hbok].
  pose proof (poisoned_inv page i Hpg Hi) as Hinv1. pose proof set_bit_nonzero as Hb0'.
  pose proof (count_nonzero b Hbok) as Hfull.
  assert (page + 64 ∈ partial <-> (popcount n b =? 0) = false) as Hin.
  { rewrite <-negb_true_iff, Hfull, bool_decide_eq_true, (pv_partial _ _ _ _ _ _ Hinv). split; [|by eauto].
    intros (page' & x & Hx & Hx0 & Heq). assert (page' = page) as -> by lia. congruence. }
  apply wp_bind. eapply wp_mono; [apply (link_if_full _ marked (page + 64) _ partial Hhm)|].
  { cbn. by rewrite Hfl, <-Hfull. }
  { unfold page_ok in Hpg. lia. }
  { by eapply partial_nonzero. }
  { apply Hinv. }
  { done. }
  { apply Hinv. }
  { done. }
  { apply Hinv. }
  intros [] s' (Hs' & partial' & cur' & -> & Hrel & Hdll' & Hnd' & Hpar & Hcur'). apply wp_ret, HQ.
  split; [done|]. split; [done|]. exists Hs', partial'. split; [done|]. split.
  { apply (outside_partial page); [by eexists|]. intros x Hx. rewrite (rl_other _ _ _ _ _ Hrel) by done. apply Hoth. set_solver. }
  eapply (slot_change_inv c (pool s) m1 slabs partial live page b i true b'); [done|]. split; try done.
  - intros j Hj. by rewrite set_bit_spec by lia.
  - intros x Hx. etrans; [exact (rl_core _ _ _ _ _ Hrel x)|]. by rewrite <-(Hoth x Hx).
  - intros x Hx. etrans; [exact (rl_flag _ _ _ _ _ Hrel x Hx)|]. by rewrite <-(Hoth x Hx).
  - etrans; [exact (rl_core _ _ _ _ _ Hrel (page + 64))|]. exact Hcore.
  - etrans; [exact (rl_slab _ _ _ _ _ Hrel)|]. by rewrite bool_decide_eq_true_2.
  - intros x. rewrite Hpar. destruct (decide (x = page + 64)); naive_solver.
  - intros x. rewrite elem_of_difference, elem_of_singleton. destruct (decide (x = a)); naive_solver.
  - cbn. symmetry. apply live_removed.
Qed.

Lemma release_back (Q : Result unit FreeError -> PoolState -> Prop) :
  popcount n b' = n - 1 -> (1 < size slabs)%nat ->
  (forall s', given_back s' -> wp (call_free_page page) (fun _ s2 => Q (Ok tt) s2) s') ->
  wp (unlink_slab (page + 64) ;;;
      let! count := sub_uint (slab_count (pool s)) 1 in
      modify (set_slab_count count) ;;;
      write_word page usize_MAX ;;;
      let! page := expect "called `Option::unwrap()` on a `None` value" (NonNull_new page) in
      call_free_page page ;;;
      ret (Ok tt)) Q marked.
Proof.
  intros Hempty Hmany HQ. pose proof objects_small as Hn.
  destruct marked_header as (Hhm & Hoth & Hcore & Hfl & Hdll).
  destruct (pv_slab _ _ _ _ _ _ Hinv page b Hb) as [Hpg Hbok].
  pose proof (poisoned_inv page i Hpg Hi) as Hinv1.
  rewrite (popcount_set n b i Hi Ht) in Hempty.
  assert (b <> 0) as Hb0 by (intros ->; rewrite (proj2 (popcount_zero n 0 Hbok) eq_refl) in Hempty; lia).
  apply wp_bind. eapply wp_mono; [apply (unlink_if_full true marked (page + 64) _ partial Hhm)|].
  { cbn. by rewrite Hfl, bool_decide_eq_true_2. }
  { by apply (partial_slab page b). }
  { by eapply partial_nonzero. }
  { apply Hinv. }
  { apply Hinv. }
  { done. }
  { by apply (current_in page b). }
  intros [] s' (Hs' & partial' & cur' & -> & Hrel & Hdll' & Hnd' & Hpar & Hcur').
  rewrite (pv_count _ _ _ _ _ _ Hinv). apply wp_bind, wp_sub_uint; [lia|].
  apply wp_bind, wp_modify, wp_bind, wp_modify. unfold page_ok in Hpg. rewrite NonNull_new_Some by lia.
  apply wp_bind, wp_ret, wp_bind. eapply wp_mono; [apply HQ|intros [] s2 Hs2; by apply wp_ret].
  split; [done|]. split; [exact (pv_fns _ _ _ _ _ _ Hinv)|].
  exists Hs', partial'. split; [done|]. split.
  { apply (outside_partial page); [by eexists|]. intros x [Hx Hx2]%not_elem_of_cons. rewrite (rl_other _ _ _ _ _ Hrel) by done. by apply Hoth. }
  eapply (slab_removed_inv c (pool s) m1 slabs partial live page b i); try done.
  - apply emptied_bits. by rewrite (popcount_set n b i Hi Ht).
  - cbn. by rewrite (pv_count _ _ _ _ _ _ Hinv).
  - cbn. by rewrite (pv_total _ _ _ _ _ _ Hinv).
  - intros x Hx. etrans; [exact (rl_core _ _ _ _ _ Hrel x)|]. by rewrite <-(Hoth x Hx).
  - intros x Hx. etrans; [exact (rl_flag _ _ _ _ _ Hrel x Hx)|]. by rewrite <-(Hoth x Hx).
  - intros page' Hne. cbn. by rewrite lookup_insert_ne by congruence.
  - intros x. rewrite Hpar. destruct (decide (x = page + 64)); naive_solver.
Qed.

Lemma release_slot_spec (Q : Result unit FreeError -> PoolState -> Prop) :
  (forall s', kept s' -> Q (Ok tt) s') ->
  (forall s', given_back s' -> wp (call_free_page page) (fun _ s2 => Q (Ok tt) s2) s') ->
  wp (release_slot (Class_layout c) (page + 64) a i) Q s.
Proof.
  intros Hkept Hback. pose proof objects_small as Hn. destruct (class_layout c) as (Hsz & Hus & Hobj).
  destruct (pv_slab _ _ _ _ _ _ Hinv page b Hb) as [Hpg Hbok].
  destruct (slab_header _ _ _ _ _ _ Hinv page b Hb) as (h1 & Hh1 & Hpa & _ & Hbm & Hfc & _).
  rewrite Hh in Hh1. injection Hh1 as <-. destruct (slot_word i Hi) as [Hw Hm].
  pose proof (popcount_bound n b ltac:(lia)) as Hpb. pose proof (popcount_set n b i Hi Ht) as Hpc.
  destruct live_removed as [_ Hpos].
  unfold release_slot. apply wp_bind. eapply wp_read_header; [done|].
  rewrite Hw, Hm, Hbm. apply wp_bind, wp_ret. rewrite bit_free, Ht by lia. rewrite Hsz.
  apply wp_bind. unfold write_bytes. apply wp_modify. apply wp_bind. eapply (wp_read_header _ h).
  { destruct (poisoned_keeps page i (mem s) page Hpg Hi (proj1 (proj2 Hpg))) as [_ Hk]. etrans; [exact Hk|done]. }
  rewrite Hbm, Hfc. apply wp_bind, wp_add_uint; [lia|]. cbn [list_insert insert Z.to_nat].
  apply wp_bind, wp_write_header. rewrite <-Z.shiftl_1_l. fold (set_bit b i). apply wp_bind, wp_gets, wp_bind.
  change (total_allocated (pool (with_headers _ _))) with (total_allocated (pool s)).
  rewrite (pv_total _ _ _ _ _ _ Hinv). apply wp_sub_uint; [lia|]. apply wp_bind, wp_modify.
  change (set_total _ _) with marked. rewrite Hobj. apply wp_bind, wp_sub_uint; [lia|]. apply wp_bind, wp_gets.
  change (slab_count (pool marked)) with (slab_count (pool s)). rewrite Hpa.
  pose proof (pv_count _ _ _ _ _ _ Hinv) as Hcount. unfold MIN_SLABS.
  destruct (Z.eqb_spec (popcount n b + 1) (n - 1)) as [Hz|Hz]; cbn [andb].
  - destruct (Z.ltb_spec 1 (slab_count (pool s))) as [Hlt|Hge].
    + apply release_back; [lia|lia|done].
    + apply release_keep; [|done]. intros _.
      assert (size slabs <> 0%nat) by (apply map_size_ne_0_lookup_2 with page; by eexists). lia.
  - apply release_keep; [|done]. intros Hz'. exfalso. lia.
Qed.
End Release.

(** ** A new slab *)

Lemma init_slab_spec page :
  page_ok page -> slabs !! page = None -> partial = [] ->
  wp (init_slab (Class_layout c) page) (fun r s' => r = Some (page + 64) /\
    pool_cookie (pool s') = pool_cookie (pool s) /\ exists Hs',
    mem s' = set_words (<[page := encode_back_pointer (pool s) page (page + 64)]> (m_words (mem s)))
      (set_headers Hs' (mem s)) /\
    (forall a, a <> page + 64 -> Hs' !! a = m_headers (mem s) !! a) /\
    pool_inv c (pool (set_current (page + 64) s')) (mem s') (<[page := full_word n]> slabs) [page + 64] live) s.
Proof.
  intros Hpg Hnone Hnil. pose proof objects_small as Hn. destruct (class_layout c) as (Hsz & Hus & Hobj).
  destruct (full_word_spec n ltac:(lia)) as (Hbit & Hbok & Hb0 & Hpc).
  pose proof Hpg as (H0 & _ & Hend). unfold PAGE_SIZE in Hend. unfold init_slab. rewrite Hus, Hobj.
  unfold checked_add. rewrite (proj2 (Z.ltb_lt _ _)) by lia. rewrite NonNull_new_Some by lia.
  rewrite (Z.mod_small n 64), (proj2 (Z.eqb_neq n 0)) by lia. cbn [negb]. fold (full_word n).
  apply wp_bind, wp_gets, wp_bind, wp_sub_uint; [lia|]. apply wp_bind, wp_write_header. apply wp_bind, wp_modify.
  set (h := {| page_addr := page |}). set (s1 := on_mem _ _). apply wp_bind.
  eapply wp_mono; [apply (link_slab_spec s1 (page + 64) h []); try done|].
  { apply lookup_insert_eq. }
  { lia. }
  { by intros ?%elem_of_nil. }
  { by intros ?%elem_of_nil. }
  { constructor. }
  { cbn. by rewrite (pv_head _ _ _ _ _ _ Hinv), Hnil. }
  intros [] s2 (Hs' & -> & Hrel & Hdll). apply wp_bind, wp_gets, wp_bind.
  change (slab_count (pool (with_headers Hs' _))) with (slab_count (pool s)). rewrite (pv_count _ _ _ _ _ _ Hinv).
  pose proof (slabs_size _ _ _ _ _ _ Hinv) as Hss. apply wp_add_uint; [lia|]. apply wp_bind, wp_modify, wp_ret.
  assert (forall x, x <> page + 64 -> Hs' !! x = m_headers (mem s) !! x) as Hoth.
  { intros x Hx. etrans; [apply (rl_other _ _ _ _ _ Hrel); set_solver|]. cbn. by rewrite lookup_insert_ne by congruence. }
  split; [done|]. split; [done|]. exists Hs'. split; [done|]. split; [done|]. rewrite Hnil in Hinv.
  eapply (slab_added_inv c (pool s) (mem s) slabs [] live page (full_word n)); try done.
  - intros x Hx. rewrite Hbit by lia. by apply bool_decide_eq_true_2.
  - cbn. by rewrite (pv_count _ _ _ _ _ _ Hinv).
  - intros x Hx. cbn. by rewrite Hoth.
  - intros x Hx. cbn. by rewrite Hoth.
  - etrans; [exact (rl_core _ _ _ _ _ Hrel (page + 64))|]. cbn. rewrite lookup_insert_eq. unfold h, hcore. cbn. by rewrite Hpc.
  - exact (rl_slab _ _ _ _ _ Hrel).
  - cbn. by rewrite lookup_insert_eq.
  - intros page' Hne. cbn. by rewrite lookup_insert_ne by congruence.
Qed.

(** ** Finding the slab of a pointer *)

Lemma page_decode page : page_ok page -> (page + 64) mod align_of_SlabHeader = 0 /\ page + 64 < 2 ^ 64.
Proof. unfold page_ok, PAGE_SIZE, align_of_SlabHeader. intros (H0 & Hal & Hend). split; [divlia|lia]. Qed.

Lemma owning_slab_own page b :
  slabs !! page = Some b ->
  wp (owning_slab (Class_layout c) page) (fun r s' => r = Ok (page + 64) /\ s' = s) s.
Proof.
  intros Hb. destruct (class_layout c) as (_ & Hus & _). destruct (pv_slab _ _ _ _ _ _ Hinv page b Hb) as [Hpg _].
  destruct (slab_header _ _ _ _ _ _ Hinv page b Hb) as (h & Hh & Hpa & Hck & _).
  destruct (page_decode page Hpg) as [Hmod Hlt]. pose proof Hpg as (H0 & _).
  unfold owning_slab. rewrite Hus. apply wp_bind. unfold read_word. apply wp_bind, wp_gets.
  rewrite (pv_word _ _ _ _ _ _ Hinv page b Hb). apply wp_ret, wp_bind, wp_gets.
  unfold decode_back_pointer, encode_back_pointer. rewrite Z.lxor_assoc, Z.lxor_nilpotent, Z.lxor_0_r.
  rewrite Hmod. cbn [Z.eqb negb]. rewrite NonNull_new_Some by lia.
  unfold checked_add. rewrite (proj2 (Z.ltb_lt _ _)) by lia. rewrite Z.eqb_refl. cbn [negb].
  apply wp_bind. eapply wp_read_header; [done|]. rewrite Hpa, Hck, !Z.eqb_refl. by apply wp_ret.
Qed.
End Slab.

(** A page of another pool is refused, because the pools' cookies differ. *)
Lemma owning_slab_other s p' page :
  m_words (mem s) !! page = Some (encode_back_pointer p' page (page + 64)) ->
  page_ok page -> slab_cookie p' page <> slab_cookie (pool s) page ->
  wp (owning_slab (Class_layout c) page) (fun r s' => r = Err InvalidSlab /\ s' = s) s.
Proof.
  intros Hw Hpg Hne. destruct (class_layout c) as (_ & Hus & _). destruct (page_decode page Hpg) as [_ Hlt].
  unfold owning_slab. rewrite Hus. apply wp_bind. unfold read_word. apply wp_bind, wp_gets.
  rewrite Hw. apply wp_ret, wp_bind, wp_gets. unfold decode_back_pointer, encode_back_pointer.
  set (d := Z.lxor _ _). assert (d <> page + 64) as Hd.
  { intros Hd. apply Hne. unfold d in Hd. rewrite Z.lxor_assoc in Hd. rewrite <-(Z.lxor_0_r (page + 64)) in Hd at 2.
    rewrite !(Z.lxor_comm (page + 64)) in Hd. apply lxor_inj_l in Hd. by apply Z.lxor_eq in Hd. }
  destruct (negb (d mod align_of_SlabHeader =? 0)); [by apply wp_ret|]. unfold NonNull_new.
  destruct (Z.eqb_spec d 0); [by apply wp_ret|]. unfold checked_add. rewrite (proj2 (Z.ltb_lt _ _)) by lia.
  rewrite (proj2 (Z.eqb_neq _ _)) by done. by apply wp_ret.
Qed.

(** The slot of an address of a slab page. *)
Lemma page_base_of page k :
  page_ok page -> 0 <= k < PAGE_SIZE -> Z.land (page + k) (not_uint 64 (PAGE_SIZE - 1)) = page.
Proof.
  unfold page_ok, PAGE_SIZE. intros (H0 & Hal & Hend) Hk. change (4096 - 1) with (2 ^ 12 - 1).
  rewrite land_not_mask by lia. divlia.
Qed.

Lemma check_slot_cases page k :
  page_ok page -> 0 <= k < PAGE_SIZE ->
  check_slot (Class_layout c) page (page + k) =
    if k <? 64 then Err OutOfBounds
    else if negb ((k - 64) mod class_bytes c =? 0) then Err MisalignedPointer
    else if k =? 64 then Err MetadataSlot
    else if n <=? (k - 64) / class_bytes c then Err OutOfBounds
    else Ok ((k - 64) / class_bytes c).
Proof.
  intros Hpg Hk. destruct (class_layout c) as (Hsz & Hus & Hobj). destruct (class_fits c) as (_ & Hcb & _).
  unfold check_slot, checked_add. rewrite Hsz, Hus, Hobj.
  unfold page_ok, PAGE_SIZE in *. rewrite (proj2 (Z.ltb_lt _ _)) by lia.
  replace (page + k <? page + 64) with (k <? 64) by (destruct (Z.ltb_spec k 64), (Z.ltb_spec (page + k) (page + 64)); lia).
  destruct (Z.ltb_spec k 64); [done|]. replace (page + k - (page + 64)) with (k - 64) by lia.
  destruct (Z.eqb_spec ((k - 64) mod class_bytes c) 0) as [Hm|Hm]; cbn [negb]; [|done].
  replace ((k - 64) / class_bytes c =? 0) with (k =? 64); [done|].
  destruct (Z.eqb_spec k 64) as [->|Hne]; [done|]. symmetry. apply Z.eqb_neq. intros Hz.
  pose proof (Z.div_mod (k - 64) (class_bytes c)). lia.
Qed.
Lemma check_slot_object page i :
  page_ok page -> 1 <= i < n -> check_slot (Class_layout c) page (object_at c page i) = Ok i.
Proof.
  intros Hpg Hi. destruct (object_bounds c page i Hpg Hi) as (Hlo & Hhi & _). destruct (class_fits c) as (_ & Hcb & _).
  replace (object_at c page i) with (page + (64 + i * class_bytes c)) in * by (unfold object_at; lia).
  rewrite check_slot_cases by (done || unfold PAGE_SIZE in *; lia).
  rewrite (proj2 (Z.ltb_ge _ _)) by lia. replace (64 + i * class_bytes c - 64) with (i * class_bytes c) by lia.
  rewrite Z.mod_mul, Z.div_mul by lia. cbn [Z.eqb negb]. rewrite (proj2 (Z.eqb_neq _ _)) by lia.
  by rewrite (proj2 (Z.leb_gt _ _)) by lia.
Qed.
End Ops.
