(* ===== verification/KmallocHeap.v ===== *)
(** * The kernel heap on the page allocator

    The invariant of the five size-class pools together: every slab page was
    leaked by the page allocator to exactly one pool, so no pool's memory
    belongs to another or to another client.  Allocation and release keep it. *)

From S2P Require Import Prelude Address HwInfo Pmm PmmReserved PmmFreeList PmmAlloc PmmInit PmmClients.
From S2P Require Import KernelStack PageMapper Kmalloc KmallocLemmas KmallocPool KmallocOps.
From stdpp Require Import base tactics option list list_numbers numbers gmap strings.

#[local] Open Scope Z_scope.
#[local] Open Scope kernel_scope.

Definition classes : list SizeClass := [Class64; Class128; Class256; Class512; Class1024].
Definition sum_classes (f : SizeClass -> nat) : nat := sum_list (f <$> classes).
Definition upd {A} (f : SizeClass -> A) (c : SizeClass) (v : A) : SizeClass -> A :=
  fun c' => if decide (c' = c) then v else f c'.

Lemma upd_eq {A} (f : SizeClass -> A) c v : upd f c v c = v.
Proof. unfold upd. by rewrite decide_True. Qed.
Lemma upd_ne {A} (f : SizeClass -> A) c v c' : c' <> c -> upd f c v c' = f c'.
Proof. intros Hne. unfold upd. by rewrite decide_False. Qed.
Lemma sum_classes_upd {A} (g : A -> nat) (f : SizeClass -> A) c v :
  (sum_classes (fun c' => g (upd f c v c')) + g (f c) = sum_classes (fun c' => g (f c')) + g v)%nat.
Proof. unfold sum_classes, classes. cbn. destruct c; rewrite upd_eq, !upd_ne by done; lia. Qed.
Lemma sum_classes_le f g : (forall c, f c <= g c)%nat -> (sum_classes f <= sum_classes g)%nat.
Proof.
  intros Hle. unfold sum_classes, classes. cbn.
  pose proof (Hle Class64). pose proof (Hle Class128). pose proof (Hle Class256).
  pose proof (Hle Class512). pose proof (Hle Class1024). lia.
Qed.

Lemma class_pool_set c p k : class_pool c (set_class_pool c p k) = p.
Proof. by destruct c. Qed.
Lemma class_pool_set_ne c c' p k : c' <> c -> class_pool c' (set_class_pool c p k) = class_pool c' k.
Proof. by destruct c, c'. Qed.
Lemma set_class_pool_id c k : set_class_pool c (class_pool c k) k = k.
Proof. by destruct c, k. Qed.

Lemma wp_with_pool {A} c (op : M PoolState A) (Q : A -> Heap -> Prop) h :
  wp op (fun r s => Q r {| kmalloc := set_class_pool c (pool s) (kmalloc h); heap_mem := mem s |})
    {| pool := class_pool c (kmalloc h); mem := heap_mem h |} ->
  wp (with_pool c op) Q h.
Proof. unfold wp, with_pool. by destruct (op _) as [[r s]| | |]. Qed.

Lemma lift_heap_pmm_wp {A} (m : M Pmm A) (Q : A -> PoolState -> Prop) s :
  wp m (fun r p => Q r (on_mem (set_pmm p) s)) (m_pmm (mem s)) -> wp (lift_heap_pmm m) Q s.
Proof. unfold wp, lift_heap_pmm. by destruct (m (m_pmm (mem s))) as [[a p]| | |]. Qed.

Lemma wp_and {S A} (m : M S A) (Q1 Q2 : A -> S -> Prop) s :
  wp m Q1 s -> wp m Q2 s -> wp m (fun a s' => Q1 a s' /\ Q2 a s') s.
Proof. unfold wp. by destruct (m s) as [[a s']| | |]. Qed.

Section Heap.
Context `{PageLayout} `{FunctionAddresses} (s0 : Pmm) (mp : Mappers) (os0 : list holding).

(** Pages that a client holds are the manager's. *)
Lemma held_managed s h phys os l : client_inv s0 s (HoldLeaked h phys :: os) l -> managed s0 phys.
Proof.
  intros Hci. exists h. destruct (held_first s0 _ _ _ _ h Hci) as [Hv _]; [simpl; set_solver|].
  pose proof (ci_wf _ _ _ _ Hci) as [Hph _]%Forall_cons. simpl in Hph. split.
  - by apply (frame_valid s0 s), Hv; apply Hci.
  - by rewrite <-(frame_physical_of s0 s) by apply Hci.
Qed.
Lemma leaked_managed s os l ph phys : client_inv s0 s os l -> HoldLeaked ph phys ∈ os -> managed s0 phys.
Proof.
  intros Hci (l1 & l2 & ->)%list_elem_of_split. eapply held_managed, client_inv_perm; [|exact Hci].
  symmetry. apply Permutation_middle.
Qed.

(** The mappers translate the pages of the allocator to distinct nonzero pages
    of the address space and back. *)
Definition mappers_ok : Prop := forall phys, managed s0 phys ->
  map_virtual_to_physical mp (map_physical_to_virtual mp phys) = phys /\ page_ok (map_physical_to_virtual mp phys).
Hypothesis Hmp : mappers_ok.
Abbreviation p2v := (map_physical_to_virtual mp).

(** ** Pages *)

Lemma alloc_none s os l :
  client_inv s0 s os l -> wp global_alloc_page (fun r s' =>
    match r with Some _ => l <> [] | None => l = [] /\ s' = s end) s.
Proof.
  intros Hci. apply wp_initialized; [apply Hci|]. destruct l as [|h l].
  - eapply wp_run; [by apply alloc_page_empty, Hci|]. done.
  - eapply wp_mono; [by apply (alloc_page_cons s h l), Hci|]. by intros r s' (-> & _).
Qed.


Lemma pmm_alloc_page_spec s os l :
  client_inv s0 (m_pmm (mem s)) os l -> m_mappers (mem s) = mp ->
  wp pmm_alloc_page (fun r s' =>
    match r with
    | Some page => exists h phys pm' l', s' = on_mem (set_pmm pm') s /\
        client_inv s0 pm' (HoldLeaked h phys :: os) l' /\ page = p2v phys /\ page_ok page /\ l <> []
    | None => s' = s /\ l = []
    end) s.
Proof.
  intros Hci Hm. unfold pmm_alloc_page. apply wp_bind, lift_heap_pmm_wp.
  eapply wp_mono; [exact (wp_and _ _ _ _ (alloc_step s0 _ _ _ Hci) (alloc_none _ _ _ Hci))|].
  intros [h|] s1 [[l1 Hc1] Hnone]; [|apply wp_ret; destruct Hnone as [-> ->];
    split; [by destruct s as [? [? ? ? ? ?]]|done]].
  apply wp_bind, lift_heap_pmm_wp. eapply wp_mono; [exact (leak_step s0 _ _ _ _ Hc1)|].
  intros r s2 (-> & phys & -> & Hc2). apply wp_bind, wp_gets. cbn [m_mappers mem on_mem set_pmm]. rewrite Hm.
  destruct (Hmp phys (held_managed _ _ _ _ _ Hc2)) as [_ Hpg]. pose proof Hpg as (H1 & _).
  apply wp_ret. rewrite NonNull_new_Some by lia. exists h, phys, s1, l1. by split_and!.
Qed.

Lemma pmm_free_page_spec s h phys os l :
  client_inv s0 (m_pmm (mem s)) (HoldLeaked h phys :: os) l -> m_mappers (mem s) = mp ->
  wp (pmm_free_page (p2v phys)) (fun _ s' => exists pm' l', s' = on_mem (set_pmm pm') s /\
    client_inv s0 pm' os l') s.
Proof.
  intros Hci Hm. unfold pmm_free_page. apply wp_bind, wp_gets. rewrite Hm.
  destruct (Hmp phys (held_managed _ _ _ _ _ Hci)) as [-> _]. apply lift_heap_pmm_wp.
  eapply wp_mono; [exact (free_physical_step s0 _ _ _ _ _ Hci)|]. intros [] s1 [l1 Hc1]. by exists s1, l1.
Qed.

(** ** The invariant *)

(** [S], [P] and [L] are each pool's slabs, partial list and live objects;
    [leaks] are the pages the heap holds. *)
Record heap_inv (h : Heap) (leaks : list holding) (l : list PageHandle) (S : SizeClass -> gmap Z Z)
    (P : SizeClass -> list Z) (L : SizeClass -> gset Z) : Prop := {
  hv_client : client_inv s0 (m_pmm (heap_mem h)) (leaks ++ os0) l;
  hv_mappers : m_mappers (heap_mem h) = mp;
  hv_init : kmalloc_initialized (kmalloc h) = true;
  hv_pool c : pool_inv c (class_pool c (kmalloc h)) (heap_mem h) (S c) (P c) (L c);
  hv_spare c : spare_ok c (S c) None;
  hv_cookie c : pool_cookie (class_pool c (kmalloc h)) = mix64 (seed_for (class_bytes c));
  hv_apart c1 c2 page : c1 <> c2 -> is_Some (S c1 !! page) -> S c2 !! page = None;
  hv_pages c page : is_Some (S c !! page) -> exists ph phys, HoldLeaked ph phys ∈ leaks /\ page = p2v phys;
  hv_count : length leaks = sum_classes (fun c => size (S c));
  hv_held : length (all_held leaks) = length leaks;
}.

(** One pool changes. *)
Lemma heap_inv_update h leaks l S P L c p' m' slabs' partial' live' leaks' l' :
  heap_inv h leaks l S P L ->
  client_inv s0 (m_pmm m') (leaks' ++ os0) l' -> m_mappers m' = mp ->
  pool_inv c p' m' slabs' partial' live' -> spare_ok c slabs' None ->
  pool_cookie p' = pool_cookie (class_pool c (kmalloc h)) ->
  (forall c' page, c' <> c -> is_Some (S c' !! page) ->
    m_headers m' !! (page + 64) = m_headers (heap_mem h) !! (page + 64) /\
    m_words m' !! page = m_words (heap_mem h) !! page) ->
  (forall page, is_Some (slabs' !! page) -> forall c', c' <> c -> S c' !! page = None) ->
  (forall page, is_Some (slabs' !! page) -> exists ph phys, HoldLeaked ph phys ∈ leaks' /\ page = p2v phys) ->
  (forall c' page, c' <> c -> is_Some (S c' !! page) -> exists ph phys, HoldLeaked ph phys ∈ leaks' /\ page = p2v phys) ->
  (length leaks' + size (S c) = length leaks + size slabs')%nat ->
  length (all_held leaks') = length leaks' ->
  heap_inv {| kmalloc := set_class_pool c p' (kmalloc h); heap_mem := m' |} leaks' l'
    (upd S c slabs') (upd P c partial') (upd L c live').
Proof.
  intros Hinv Hci Hm Hp Hsp Hck Hframe Hap Hpg Hpg' Hlen Hheld.
  pose proof Hinv as [_ _ Hinit Hpools Hspares Hcks Haps _ Hcount _].
  split; cbn [kmalloc heap_mem]; try done.
  - intros c'. destruct (decide (c' = c)) as [->|Hne].
    + by rewrite !upd_eq, class_pool_set.
    + rewrite !upd_ne, class_pool_set_ne by done. eapply pool_inv_frame; [apply Hpools|].
      intros page Hs. by apply (Hframe c' page).
  - intros c'. destruct (decide (c' = c)) as [->|Hne]; [by rewrite upd_eq|by rewrite upd_ne].
  - intros c'. destruct (decide (c' = c)) as [->|Hne].
    + rewrite class_pool_set, Hck. apply Hcks.
    + rewrite class_pool_set_ne by done. apply Hcks.
  - intros c1 c2 page Hne. destruct (decide (c1 = c)) as [->|H1]; destruct (decide (c2 = c)) as [->|H2]; try done.
    + rewrite upd_eq, upd_ne by done. intros Hs. by apply Hap.
    + rewrite upd_ne, upd_eq by done. intros Hs. destruct (slabs' !! page) as [x|] eqn:Hx; [exfalso|done].
      rewrite (Hap page ltac:(by eexists) c1 H1) in Hs. by destruct Hs.
    + rewrite !upd_ne by done. by apply Haps.
  - intros c' page. destruct (decide (c' = c)) as [->|Hne]; [rewrite upd_eq; apply Hpg|].
    rewrite upd_ne by done. by apply Hpg'.
  - pose proof (sum_classes_upd size S c slabs'). lia.
Qed.

(** ** Allocation *)

Lemma p2v_inj phys1 phys2 : managed s0 phys1 -> managed s0 phys2 -> p2v phys1 = p2v phys2 -> phys1 = phys2.
Proof. intros H1 H2 Heq. by rewrite <-(proj1 (Hmp _ H1)), <-(proj1 (Hmp _ H2)), Heq. Qed.

Section Step.
Context h leaks l S P L (Hinv : heap_inv h leaks l S P L).

Lemma fresh_page pm ph phys l' c :
  client_inv s0 pm (HoldLeaked ph phys :: leaks ++ os0) l' -> S c !! p2v phys = None.
Proof.
  intros Hci. destruct (S c !! p2v phys) as [b|] eqn:Hb; [exfalso|done].
  destruct (hv_pages _ _ _ _ _ _ Hinv c (p2v phys)) as (ph2 & phys2 & Hin & Heq); [by eexists|].
  assert (HoldLeaked ph2 phys2 ∈ leaks ++ os0) as Hin2 by (apply elem_of_app; by left).
  apply (leaked_distinct _ _ _ _ _ _ _ _ Hci Hin2). symmetry. apply p2v_inj; [by eapply held_managed| |done].
  eapply leaked_managed; [apply Hci|]. by right.
Qed.

(** The memory of the other pools. *)
Lemma others_kept c (Hs' : gmap Z SlabHeader) (Ws' slabs : gmap Z Z) :
  (forall page, is_Some (slabs !! page) -> forall c', c' <> c -> S c' !! page = None) ->
  same_outside slabs (m_headers (heap_mem h)) Hs' ->
  (forall page, slabs !! page = None -> Ws' !! page = m_words (heap_mem h) !! page) ->
  forall c' page, c' <> c -> is_Some (S c' !! page) ->
    Hs' !! (page + 64) = m_headers (heap_mem h) !! (page + 64) /\ Ws' !! page = m_words (heap_mem h) !! page.
Proof.
  intros Hap Hout Hw c' page Hne [b Hb]. split.
  - apply Hout. intros page' Hs Heq. assert (page' = page) as -> by lia. rewrite (Hap page Hs c' Hne) in Hb. done.
  - apply Hw. destruct (slabs !! page) as [x|] eqn:Hx; [|done]. rewrite (Hap page ltac:(by eexists) c' Hne) in Hb. done.
Qed.

Lemma own_pages_apart c page : is_Some (S c !! page) -> forall c', c' <> c -> S c' !! page = None.
Proof. intros Hs c' Hne. by apply (hv_apart _ _ _ _ _ _ Hinv c c' page). Qed.

(** There is no page to be had and no slot left in the slabs of the class. *)
Definition exhausted (c : SizeClass) : Prop := l = [] /\ forall page b, S c !! page = Some b -> b = 0.
Lemma exhausted_counts c :
  exhausted c <-> free_pages (m_pmm (heap_mem h)) = 0 /\
    total_allocated (class_pool c (kmalloc h)) = slab_count (class_pool c (kmalloc h)) * (class_objects c - 1).
Proof.
  unfold exhausted. rewrite (pool_full _ _ _ _ _ _ (hv_pool _ _ _ _ _ _ Hinv c)).
  rewrite (pi_count _ _ (ci_inv _ _ _ _ (hv_client _ _ _ _ _ _ Hinv))).
  split; intros [Hl Hall]; (split; [|exact Hall]); [by rewrite Hl|]. destruct l; [done|cbn in Hl; lia].
Qed.

Definition allocated (c : SizeClass) (r : option Z) (h' : Heap) : Prop :=
  match r with
  | Some a => ~ exhausted c /\ (a ∉ L c) /\ m_bytes (heap_mem h') = m_bytes (heap_mem h) /\ exists leaks' l' S' P',
      heap_inv h' leaks' l' S' P' (upd L c ({[a]} ∪ L c))
  | None => h' = h /\ exhausted c
  end.

(** A slot of a slab that the pool has. *)
Lemma alloc_current c page b :
  S c !! page = Some b -> b <> 0 ->
  wp (alloc_from_slab (Class_layout c) (page + 64)) (fun r s' =>
    allocated c r {| kmalloc := set_class_pool c (pool s') (kmalloc h); heap_mem := mem s' |})
    {| pool := class_pool c (kmalloc h); mem := heap_mem h |}.
Proof.
  intros Hb Hb0. set (s := {| pool := _; mem := _ |}). pose proof (hv_pool _ _ _ _ _ _ Hinv c) as Hp.
  eapply wp_mono; [exact (alloc_from_slab_spec c s (S c) (P c) (L c) Hp page b Hb Hb0)|].
  intros r s' (-> & Hnin & Hck & Hs' & partial' & Hm & Hout & Hp').
  split; [intros [_ Hall]; by apply Hb0, (Hall page)|]. split; [done|]. split; [by rewrite Hm|].
  destruct (pv_slab _ _ _ _ _ _ Hp page b Hb) as [_ Hbok]. pose proof (objects_small c) as Hn.
  destruct (trailing_zeros_spec (class_objects c) b ltac:(lia) Hbok Hb0) as (Hi & Hti & _).
  assert (forall page', is_Some (<[page := clear_bit b (trailing_zeros b)]> (S c) !! page') -> is_Some (S c !! page')) as Hdom.
  { intros page'. rewrite lookup_insert. destruct (decide (page = page')) as [<-|]; [intros _; by eexists|done]. }
  eexists leaks, l, _, _. eapply (heap_inv_update h leaks l S P L c); try done.
  - rewrite Hm. apply Hinv.
  - rewrite Hm. apply Hinv.
  - eapply spare_change; [apply Hinv|by left|by eexists|]. intros Hfull.
    rewrite (popcount_clear (class_objects c) b) in Hfull by (done || lia).
    pose proof (popcount_bound (class_objects c) b ltac:(lia)). lia.
  - rewrite Hm. apply (others_kept c Hs' _ (S c)); [apply own_pages_apart|exact Hout|done].
  - intros page' Hs%Hdom. by apply own_pages_apart.
  - intros page' Hs%Hdom. by apply (hv_pages _ _ _ _ _ _ Hinv c).
  - intros c' page' _. apply (hv_pages _ _ _ _ _ _ Hinv c').
  - rewrite map_size_insert_Some by (by eexists). done.
  - apply Hinv.
Qed.

(** A new slab on a page just leaked, and its first slot. *)
Lemma alloc_fresh c pm ph phys l' :
  P c = [] -> client_inv s0 pm (HoldLeaked ph phys :: leaks ++ os0) l' -> page_ok (p2v phys) -> l <> [] ->
  wp (let! slab := init_slab (Class_layout c) (p2v phys) in
      let? slab := slab in modify (set_current slab) ;;; alloc_from_slab (Class_layout c) slab) (fun r s' =>
    allocated c r {| kmalloc := set_class_pool c (pool s') (kmalloc h); heap_mem := mem s' |})
    {| pool := class_pool c (kmalloc h); mem := set_pmm pm (heap_mem h) |}.
Proof.
  intros Hnil Hci Hpg Hl. set (page := p2v phys) in *. set (s1 := {| pool := _; mem := _ |}).
  pose proof (hv_pool _ _ _ _ _ _ Hinv c) as Hp. pose proof (objects_small c) as Hn.
  assert (forall c', S c' !! page = None) as Hfresh by (intros c'; by eapply fresh_page).
  assert (pool_inv c (pool s1) (mem s1) (S c) (P c) (L c)) as Hp1 by (by eapply pool_inv_frame).
  apply wp_bind. eapply wp_mono; [exact (init_slab_spec c s1 (S c) (P c) (L c) Hp1 page Hpg (Hfresh c) Hnil)|].
  intros r s2 (-> & Hck2 & Hs2 & Hm2 & Hoth2 & Hp2). apply wp_bind, wp_modify.
  destruct (full_word_spec (class_objects c) ltac:(lia)) as (_ & Hbok & Hb0 & Hpc).
  set (b := full_word (class_objects c)) in *. set (slabs2 := <[page := b]> (S c)) in *.
  assert (slabs2 !! page = Some b) as Hb2 by apply lookup_insert_eq.
  eapply wp_mono; [exact (alloc_from_slab_spec c (set_current (page + 64) s2) slabs2 _ (L c) Hp2 page b Hb2 Hb0)|].
  intros r s' (-> & Hnin & Hck & Hs' & partial' & Hm & Hout & Hp'). change (mem (set_current _ s2)) with (mem s2) in Hm, Hout.
  split; [by intros [? _]|]. split; [done|]. split; [by rewrite Hm, Hm2|].
  destruct (trailing_zeros_spec (class_objects c) b ltac:(lia) Hbok Hb0) as (Hi & Hti & _).
  assert (forall page', is_Some (<[page := clear_bit b (trailing_zeros b)]> slabs2 !! page') ->
    page' = page \/ is_Some (S c !! page')) as Hdom.
  { intros page'. unfold slabs2. rewrite insert_insert_eq, lookup_insert. destruct (decide (page = page')); [by left|by right]. }
  eexists (HoldLeaked ph phys :: leaks), l', _, _. eapply (heap_inv_update h leaks l S P L c); try done.
  - rewrite Hm, Hm2. exact Hci.
  - rewrite Hm, Hm2. apply Hinv.
  - eapply (spare_change c slabs2 page _ (Some page)); [|by right|by eexists|].
    + apply spare_added. intros page' b' Hb'. destruct (decide (b' = 0)) as [->|Hne].
      * destruct (pv_slab _ _ _ _ _ _ Hp page' 0 Hb') as [_ Hbok0].
        rewrite (proj2 (popcount_zero _ 0 Hbok0) eq_refl). lia.
      * assert (page' + 64 ∈ P c) as Hin by (apply (pv_partial _ _ _ _ _ _ Hp); by eauto).
        rewrite Hnil in Hin. by apply elem_of_nil in Hin.
    + intros Hfull. rewrite (popcount_clear (class_objects c) b) in Hfull by (done || lia). lia.
  - rewrite Hck. exact Hck2.
  - rewrite Hm. apply (others_kept c Hs' _ slabs2).
    + intros page' Hs c' Hne. unfold slabs2 in Hs. rewrite lookup_insert in Hs.
      destruct (decide (page = page')) as [<-|]; [apply Hfresh|by apply (own_pages_apart c)].
    + intros x Hx. rewrite (Hout x Hx), Hm2. apply Hoth2. apply Hx. by eexists.
    + intros page' Hs. rewrite Hm2. cbn. unfold slabs2 in Hs. rewrite lookup_insert_None in Hs.
      by rewrite lookup_insert_ne by apply Hs.
  - intros page' [->|Hs]%Hdom c' Hne; [apply Hfresh|by apply (own_pages_apart c)].
  - intros page' [->|Hs]%Hdom; [exists ph, phys; split; [left|done]|].
    destruct (hv_pages _ _ _ _ _ _ Hinv c page' Hs) as (h2 & phys2 & Hin & ->). exists h2, phys2. split; [by right|done].
  - intros c' page' _ Hs. destruct (hv_pages _ _ _ _ _ _ Hinv c' page' Hs) as (h2 & phys2 & Hin & ->).
    exists h2, phys2. split; [by right|done].
  - unfold slabs2. rewrite insert_insert_eq, map_size_insert_None by apply Hfresh. cbn. lia.
  - pose proof (hv_held _ _ _ _ _ _ Hinv). change (Datatypes.S (length (all_held leaks)) = Datatypes.S (length leaks)). by f_equal.
Qed.

Lemma pool_alloc_heap c : wp (with_pool c (Pool_alloc (Class_layout c))) (allocated c) h.
Proof.
  apply wp_with_pool. set (s := {| pool := _; mem := _ |}). pose proof (hv_pool _ _ _ _ _ _ Hinv c) as Hp.
  unfold Pool_alloc. apply wp_bind. eapply wp_mono; [exact (current_slab_spec c s (S c) (P c) (L c) Hp)|].
  intros [slab|] s1 [-> Hr]; [destruct Hr as (page & b & Hb & Hb0 & ->); by apply (alloc_current c page b)|].
  assert (forall page b, S c !! page = Some b -> b = 0) as Hfull.
  { intros page b Hb. destruct (decide (b = 0)) as [|Hne]; [done|].
    assert (page + 64 ∈ P c) as Hin by (apply (pv_partial _ _ _ _ _ _ Hp); by eauto).
    rewrite Hr in Hin. by apply elem_of_nil in Hin. }
  unfold alloc_new_slab. apply wp_bind. apply wp_bind. unfold call_alloc_page. apply wp_bind, wp_gets.
  change (page_fns (pool s)) with (page_fns (class_pool c (kmalloc h))). rewrite (pv_fns _ _ _ _ _ _ Hp).
  eapply wp_mono; [exact (pmm_alloc_page_spec s _ l (hv_client _ _ _ _ _ _ Hinv) (hv_mappers _ _ _ _ _ _ Hinv))|].
  intros [page|] s2.
  - intros (ph & phys & pm & l' & -> & Hci & -> & Hpg & Hl).
    exact (proj1 (wp_bind _ _ _ _) (alloc_fresh c pm ph phys l' Hr Hci Hpg Hl)).
  - intros [-> Hl]. apply wp_ret, wp_ret. split; [|done]. cbn. rewrite set_class_pool_id. by destruct h.
Qed.

(** ** Release *)

Definition freed (c : SizeClass) (a : Z) (h' : Heap) : Prop :=
  (forall x, m_bytes (heap_mem h') x =
     if (a <=? x) && (x <? a + class_bytes c) then POISON_FREE else m_bytes (heap_mem h) x) /\
  exists leaks' l' S' P', heap_inv h' leaks' l' S' P' (upd L c (L c ∖ {[a]})).

(** What poisoning an object leaves of the other pages. *)
Lemma poison_others c page i (Hs' : gmap Z SlabHeader) (Ws' : gmap Z Z) :
  page_ok page -> 1 <= i < class_objects c ->
  same_outside (S c) (m_headers (poisoned (object_at c page i) (class_bytes c) (heap_mem h))) Hs' ->
  (forall page', page' mod PAGE_SIZE = 0 -> S c !! page' = None ->
    Ws' !! page' = m_words (poisoned (object_at c page i) (class_bytes c) (heap_mem h)) !! page') ->
  forall c' page', c' <> c -> is_Some (S c' !! page') ->
    Hs' !! (page' + 64) = m_headers (heap_mem h) !! (page' + 64) /\ Ws' !! page' = m_words (heap_mem h) !! page'.
Proof.
  intros Hpg Hi Hout Hw c' page' Hne [b' Hb'].
  destruct (pv_slab _ _ _ _ _ _ (hv_pool _ _ _ _ _ _ Hinv c') page' b' Hb') as [(_ & Hal & _) _].
  destruct (poisoned_keeps c page i (heap_mem h) page' Hpg Hi Hal) as [Hkw Hkh].
  assert (S c !! page' = None) as Hnone by (by apply (own_pages_apart c' page' ltac:(by eexists)); congruence).
  rewrite <-Hkw, <-Hkh. split; [|by apply Hw]. apply Hout.
  intros page2 [x Hx] Heq. assert (page2 = page') as -> by lia. congruence.
Qed.

Section Free.
Context c page b i (Hb : S c !! page = Some b) (Hi : 1 <= i < class_objects c) (Ht : Z.testbit b i = false).
#[local] Abbreviation a := (object_at c page i).
#[local] Abbreviation s := {| pool := class_pool c (kmalloc h); mem := heap_mem h |}.

Lemma kept_freed s' :
  kept c s (S c) (L c) page b i s' ->
  freed c a {| kmalloc := set_class_pool c (pool s') (kmalloc h); heap_mem := mem s' |}.
Proof.
  intros (Hone & Hck & Hs' & partial' & Hm & Hout & Hp').
  destruct (pv_slab _ _ _ _ _ _ (hv_pool _ _ _ _ _ _ Hinv c) page b Hb) as [Hpg _].
  split; [intros x; by rewrite Hm|]. eexists leaks, l, _, _.
  assert (forall page', is_Some (<[page := set_bit b i]> (S c) !! page') -> is_Some (S c !! page')) as Hdom.
  { intros page'. rewrite lookup_insert. destruct (decide (page = page')) as [<-|]; [intros _; by eexists|done]. }
  eapply (heap_inv_update h leaks l S P L c); try done.
  - rewrite Hm. apply Hinv.
  - rewrite Hm. apply Hinv.
  - eapply spare_change; [apply Hinv|by left|by eexists|done].
  - rewrite Hm. by apply (poison_others c page i Hs' _).
  - intros page' Hs%Hdom. by apply own_pages_apart.
  - intros page' Hs%Hdom. by apply (hv_pages _ _ _ _ _ _ Hinv c).
  - intros c' page' _. apply (hv_pages _ _ _ _ _ _ Hinv c').
  - rewrite map_size_insert_Some by (by eexists). done.
  - apply Hinv.
Qed.

Lemma given_back_freed s' :
  given_back c s (S c) (L c) page i s' ->
  wp (call_free_page page) (fun _ s2 =>
    freed c a {| kmalloc := set_class_pool c (pool s2) (kmalloc h); heap_mem := mem s2 |}) s'.
Proof.
  intros (Hck & Hfns & Hs' & partial' & Hm & Hout & Hp').
  destruct (pv_slab _ _ _ _ _ _ (hv_pool _ _ _ _ _ _ Hinv c) page b Hb) as [Hpg _].
  destruct (hv_pages _ _ _ _ _ _ Hinv c page) as (ph & phys & Hin & Hpage); [by eexists|].
  apply list_elem_of_split in Hin as (l1 & l2 & Hleaks).
  assert (client_inv s0 (m_pmm (mem s')) (HoldLeaked ph phys :: (l1 ++ l2) ++ os0) l) as Hci.
  { rewrite Hm. eapply client_inv_perm; [|exact (hv_client _ _ _ _ _ _ Hinv)]. rewrite Hleaks. solve_Permutation. }
  unfold call_free_page. apply wp_bind, wp_gets. rewrite Hfns, Hpage.
  eapply wp_mono; [apply (pmm_free_page_spec s' ph phys _ l Hci); rewrite Hm; apply Hinv|].
  intros [] s2 (pm' & l' & -> & Hci'). split; [intros x; cbn; rewrite Hm; by rewrite <-Hpage|].
  assert (forall c' page', is_Some (S c' !! page') -> page' <> page ->
    exists ph2 phys2, HoldLeaked ph2 phys2 ∈ l1 ++ l2 /\ page' = p2v phys2) as Hrest.
  { intros c' page' Hs Hne. destruct (hv_pages _ _ _ _ _ _ Hinv c' page' Hs) as (ph2 & phys2 & Hin & ->).
    exists ph2, phys2. split; [|done]. rewrite Hleaks in Hin. apply elem_of_app in Hin as [?|[Heq|?]%elem_of_cons];
      [apply elem_of_app; by left| |apply elem_of_app; by right]. injection Heq as -> ->. congruence. }
  eexists (l1 ++ l2), l', _, _. rewrite <-Hpage. eapply (heap_inv_update h leaks l S P L c); try done.
  - cbn. rewrite Hm. apply Hinv.
  - eapply pool_inv_frame; [exact Hp'|]. done.
  - apply spare_removed, Hinv.
  - cbn. rewrite Hm. apply (poison_others c page i Hs' _); [done|done|done|].
    intros page' Hal Hnone. cbn. rewrite lookup_insert_ne; [done|]. congruence.
  - intros page' [x [_ Hx]%lookup_delete_Some]. apply own_pages_apart. by eexists.
  - intros page' [x [Hne Hx]%lookup_delete_Some]. eapply Hrest; [by eexists|congruence].
  - intros c' page' Hne Hs. eapply Hrest; [done|]. intros ->.
    rewrite (own_pages_apart c page ltac:(by eexists) c' Hne) in Hs. by destruct Hs.
  - rewrite Hleaks, !length_app. cbn. rewrite map_size_delete_Some by (by eexists).
    assert (size (S c) <> 0%nat) by (apply map_size_ne_0_lookup_2 with page; by eexists). lia.
  - pose proof (hv_held _ _ _ _ _ _ Hinv) as Hh. rewrite Hleaks, all_held_app, !length_app in Hh.
    change (all_held (HoldLeaked ph phys :: l2)) with (ph :: all_held l2) in Hh. cbn [length] in Hh.
    rewrite all_held_app, !length_app. lia.
Qed.
End Free.

(** The slot that an object occupies. *)
Lemma live_slot_of c a :
  a ∈ L c -> exists page b i, S c !! page = Some b /\ 1 <= i < class_objects c /\ Z.testbit b i = false /\
    a = object_at c page i /\ page_ok page /\ Z.land a (not_uint 64 (PAGE_SIZE - 1)) = page.
Proof.
  intros (page & b & i & Hb & Hi & Ht & ->)%(pv_live _ _ _ _ _ _ (hv_pool _ _ _ _ _ _ Hinv c)).
  destruct (pv_slab _ _ _ _ _ _ (hv_pool _ _ _ _ _ _ Hinv c) page b Hb) as [Hpg _].
  exists page, b, i. split_and!; try done; try lia; [apply Hpg..|].
  destruct (object_bounds c page i Hpg Hi) as (Hlo & Hhi & _). destruct (class_fits c) as (_ & Hcb & _).
  replace (object_at c page i) with (page + (object_at c page i - page)) by lia.
  apply page_base_of; [done|]. unfold PAGE_SIZE in *. lia.
Qed.

Lemma pool_free_heap c a :
  a ∈ L c -> wp (with_pool c (Pool_free (Class_layout c) a)) (fun r h' => r = Ok tt /\ freed c a h') h.
Proof.
  intros (page & b & i & Hb & Hi & Ht & -> & Hpg & Hbase)%live_slot_of.
  pose proof (hv_pool _ _ _ _ _ _ Hinv c) as Hp. apply wp_with_pool. set (s := {| pool := _; mem := _ |}).
  unfold Pool_free. rewrite Hbase. apply wp_bind.
  eapply wp_mono; [exact (owning_slab_own c s (S c) (P c) (L c) Hp page b Hb)|]. intros r s1 [-> ->].
  rewrite (check_slot_object c page i Hpg Hi).
  destruct (slab_header _ _ _ _ _ _ Hp page b Hb) as (hd & Hhd & _).
  apply (release_slot_spec c s (S c) (P c) (L c) Hp page b i Hb Hi Ht hd Hhd).
  - intros s' Hk. split; [done|]. by apply (kept_freed c page b i Hb Hi).
  - intros s' Hk. eapply wp_mono; [by apply (given_back_freed c page b i Hb Hi)|]. done.
Qed.

(** ** Pools do not take each other's pointers *)

Lemma class_bytes_inj c c' : class_bytes c = class_bytes c' -> c = c'.
Proof. by destruct c, c'. Qed.
Lemma cookies_differ c c' page :
  c <> c' -> 0 <= page < 2 ^ 64 ->
  mix64 (Z.lxor (mix64 (seed_for (class_bytes c))) page) <> mix64 (Z.lxor (mix64 (seed_for (class_bytes c'))) page).
Proof.
  intros Hne Hpage Heq. apply Hne, class_bytes_inj. destruct (class_fits c) as (_ & Hb & _).
  destruct (class_fits c') as (_ & Hb' & _). pose proof pmm_alloc_page_usize as Ha. pose proof pmm_free_page_usize as Hf.
  unfold is_uint in *.
  assert (forall x, 0 <= x < 2 ^ 64 -> 0 <= Z.lxor (Z.lxor x pmm_alloc_page_address) pmm_free_page_address < 2 ^ 64) as Hx
    by (intros; repeat (apply lxor_bound; [done| |done]); done).
  apply mix64_inj in Heq; [|apply lxor_bound; [done|apply mix64_bound|done]..]. apply lxor_inj_l in Heq.
  apply mix64_inj in Heq; [|apply mix64_bound..]. apply mix64_inj in Heq; [|apply Hx; lia..].
  by do 2 apply lxor_inj_l in Heq.
Qed.

Lemma pool_free_other c c' page b ptr :
  S c !! page = Some b -> Z.land ptr (not_uint 64 (PAGE_SIZE - 1)) = page -> c' <> c ->
  wp (with_pool c' (Pool_free (Class_layout c') ptr)) (fun r h' => r = Err InvalidSlab /\ h' = h) h.
Proof.
  intros Hb Hbase Hne. destruct (pv_slab _ _ _ _ _ _ (hv_pool _ _ _ _ _ _ Hinv c) page b Hb) as [Hpg _].
  apply wp_with_pool. unfold Pool_free. rewrite Hbase. apply wp_bind.
  eapply wp_mono; [apply (owning_slab_other c' _ (class_pool c (kmalloc h)) page)|].
  - exact (pv_word _ _ _ _ _ _ (hv_pool _ _ _ _ _ _ Hinv c) page b Hb).
  - done.
  - unfold slab_cookie. cbn [pool]. rewrite !(hv_cookie _ _ _ _ _ _ Hinv). apply cookies_differ; [congruence|].
    unfold page_ok, PAGE_SIZE in Hpg. lia.
  - intros r s' [-> ->]. apply wp_ret. split; [done|]. cbn. rewrite set_class_pool_id. by destruct h.
Qed.

(** [Kmalloc::free] tries the pools in turn; the one that owns the page decides. *)
Lemma Kmalloc_free_page c page b ptr (Q : Result unit FreeError -> Heap -> Prop) :
  S c !! page = Some b -> Z.land ptr (not_uint 64 (PAGE_SIZE - 1)) = page ->
  wp (with_pool c (Pool_free (Class_layout c) ptr)) (fun r h' => r <> Err InvalidSlab /\ Q r h') h ->
  wp (Kmalloc_free ptr) Q h.
Proof.
  intros Hb Hbase Hown.
  assert (forall c' (k : M Heap (Result unit FreeError)), (c' <> c -> wp k Q h) ->
    wp (try! done := try_free c' ptr in if (done : bool) then ret (Ok tt) else k) Q h) as Hprobe.
  { intros c' k Hk. apply wp_bind. unfold try_free. apply wp_bind. destruct (decide (c' = c)) as [->|Hne].
    - eapply wp_mono; [exact Hown|]. intros [[]|e] h' [Hr HQ]; apply wp_ret; cbn; [by apply wp_ret|].
      destruct e; try done; by apply wp_ret.
    - eapply wp_mono; [by apply (pool_free_other c c' page b)|]. intros r h' [-> ->]. apply wp_ret. by apply Hk. }
  unfold Kmalloc_free. apply wp_bind, wp_gets. rewrite (hv_init _ _ _ _ _ _ Hinv). cbn [negb].
  do 5 (apply Hprobe; intros ?). by destruct c.
Qed.

Lemma Kmalloc_free_live c a :
  a ∈ L c -> wp (Kmalloc_free a) (fun r h' => r = Ok tt /\ freed c a h') h.
Proof.
  intros Ha. destruct (live_slot_of c a Ha) as (page & b & i & Hb & _ & _ & _ & _ & Hbase).
  apply (Kmalloc_free_page c page b a); [done..|]. eapply wp_mono; [by apply pool_free_heap|]. intros r h' [-> Hf]. done.
Qed.

(** What [free] reports for a pointer at offset [k] of a slab's page whose free
    slots are [b], when no object is there. *)
Definition wrong_slot (c : SizeClass) (b k : Z) : option FreeError :=
  if k <? 64 then Some OutOfBounds
  else if negb ((k - 64) mod class_bytes c =? 0) then Some MisalignedPointer
  else if k =? 64 then Some MetadataSlot
  else if class_objects c <=? (k - 64) / class_bytes c then Some OutOfBounds
  else if Z.testbit b ((k - 64) / class_bytes c) then Some DoubleFree
  else None.

Lemma Kmalloc_free_wrong c page b k e :
  S c !! page = Some b -> 0 <= k < PAGE_SIZE -> wrong_slot c b k = Some e ->
  wp (Kmalloc_free (page + k)) (fun r h' => r = Err e /\ h' = h) h.
Proof.
  intros Hb Hk He. pose proof (hv_pool _ _ _ _ _ _ Hinv c) as Hp.
  destruct (pv_slab _ _ _ _ _ _ Hp page b Hb) as [Hpg _]. pose proof (page_base_of page k Hpg Hk) as Hbase.
  destruct (class_fits c) as (_ & Hcb & _).
  apply (Kmalloc_free_page c page b); [done..|]. apply wp_with_pool. set (s := {| pool := _; mem := _ |}).
  unfold Pool_free. rewrite Hbase. apply wp_bind.
  eapply wp_mono; [exact (owning_slab_own c s (S c) (P c) (L c) Hp page b Hb)|]. intros r s1 [-> ->].
  rewrite (check_slot_cases c page k Hpg Hk). unfold wrong_slot in He.
  assert ({| kmalloc := set_class_pool c (pool s) (kmalloc h); heap_mem := mem s |} = h) as Hh
    by (cbn; rewrite set_class_pool_id; by destruct h).
  destruct (Z.ltb_spec k 64); [injection He as <-; by apply wp_ret|].
  destruct (Z.eqb_spec ((k - 64) mod class_bytes c) 0) as [Hm|]; cbn [negb] in *; [|injection He as <-; by apply wp_ret].
  destruct (Z.eqb_spec k 64); [injection He as <-; by apply wp_ret|].
  destruct (Z.leb_spec (class_objects c) ((k - 64) / class_bytes c)); [injection He as <-; by apply wp_ret|].
  destruct (Z.testbit b _) eqn:Ht; [injection He as <-|done].
  eapply wp_mono; [apply (release_double c s (S c) (P c) (L c) Hp page b ((k - 64) / class_bytes c)); [done| |done]|].
  - pose proof (Z.div_mod (k - 64) (class_bytes c)). nia.
  - intros r s' [-> ->]. done.
Qed.
End Step.
End Heap.
