(* ===== verification/KmallocUsers.v ===== *)
(** * Users of the kernel heap

    The calls of the global allocator, and its users beside the users of the
    page allocator as a state machine with its invariant: the allocations that
    users own are exactly the live objects of the pools. *)

From S2P Require Import Prelude Address HwInfo Pmm PmmReserved PmmFreeList PmmAlloc PmmInit PmmClients PmmTheorems.
From S2P Require Import KernelStack PageMapper Kmalloc KmallocLemmas KmallocPool KmallocOps KmallocHeap.
From stdpp Require Import base tactics option list list_numbers numbers gmap strings.

#[local] Open Scope Z_scope.
#[local] Open Scope kernel_scope.

(** ** How many slabs a pool keeps *)

Lemma slab_has_object c p m slabs partial live page b :
  pool_inv c p m slabs partial live -> slabs !! page = Some b ->
  popcount (class_objects c) b <> class_objects c - 1 ->
  exists a, a ∈ live /\ a - a mod PAGE_SIZE = page.
Proof.
  intros Hinv Hb Hp. pose proof (class_fits c) as (Hn & Hcb & _ & Hfit).
  destruct (decide (Forall (fun i => Z.testbit b i = true) (range 1 (class_objects c)))) as [Hall|Hex].
  - exfalso. apply Hp, popcount_full_2; [lia|]. intros i Hi. by apply (Forall_elem _ _ _ Hall), elem_of_range.
  - apply not_Forall_Exists, Exists_exists in Hex as (i & Hi%elem_of_range & Ht); [|apply _].
    apply not_true_iff_false in Ht. exists (object_at c page i).
    destruct (pv_slab _ _ _ _ _ _ Hinv page b Hb) as [(_ & Hal & _) _].
    split; [apply (pv_live _ _ _ _ _ _ Hinv); by eauto 10|]. unfold object_at, PAGE_SIZE in *.
    assert (64 + i * class_bytes c < 4096) by nia. assert (0 <= i * class_bytes c) by nia. divlia.
Qed.

Lemma slabs_bound c p m slabs partial live :
  pool_inv c p m slabs partial live -> spare_ok c slabs None -> (size slabs <= Nat.max 1 (size live))%nat.
Proof.
  intros Hinv Hsp. destruct (decide (size slabs <= 1)%nat) as [|Hmany]; [lia|].
  assert (elements (dom slabs) ⊆+ ((fun a => a - a mod PAGE_SIZE) <$> elements live)) as Hsub.
  { apply NoDup_submseteq; [apply NoDup_elements|]. intros page [b Hb]%elem_of_elements%elem_of_dom.
    destruct (slab_has_object c p m slabs partial live page b Hinv Hb) as (a & Ha & Heq).
    - intros Hfull. destruct (Hsp page b Hb Hfull); [done|lia].
    - apply list_elem_of_fmap. exists a. split; [done|]. by apply elem_of_elements. }
  apply submseteq_length in Hsub. rewrite length_fmap in Hsub.
  change (length (elements (dom slabs))) with (size (dom slabs)) in Hsub. rewrite size_dom in Hsub.
  change (length (elements live)) with (size live) in Hsub. lia.
Qed.

Section Clients.
Context `{PageLayout} `{FunctionAddresses} (s0 : Pmm) (mp : Mappers) (os0 : list holding).
Hypothesis Hmp : mappers_ok s0 mp.

(** ** The calls of the global allocator *)

Lemma Kmalloc_alloc_spec h leaks l S P L size alignment :
  heap_inv s0 mp os0 h leaks l S P L ->
  wp (Kmalloc_alloc size alignment) (fun r h' =>
    if bad_alignment alignment then r = Err BadAlignment /\ h' = h
    else if MAX_CLASS <? size then r = Err TooLarge /\ h' = h
    else exists c, size_class (Z.max size CACHE_LINE_SIZE) = Some c /\
      match r with
      | Ok a => allocated s0 mp os0 h l S L c (Some a) h'
      | Err e => e = OutOfMemory /\ allocated s0 mp os0 h l S L c None h'
      end) h.
Proof.
  intros Hinv. unfold Kmalloc_alloc. apply wp_bind, wp_gets. rewrite (hv_init _ _ _ _ _ _ _ _ _ Hinv). cbn [negb].
  destruct (bad_alignment alignment); [by apply wp_ret|]. destruct (Z.ltb_spec MAX_CLASS size); [by apply wp_ret|].
  destruct (size_class_total size) as [c Hc]; [lia|]. rewrite Hc. apply wp_bind.
  eapply wp_mono; [exact (pool_alloc_heap s0 mp os0 Hmp h leaks l S P L Hinv c)|].
  intros r h' Hr. apply wp_ret. exists c. split; [done|]. destruct r as [a|]; [done|by split].
Qed.

(** [init] leaves a heap without slabs. *)
Lemma Kmalloc_init_spec h l :
  kmalloc_initialized (kmalloc h) = false -> client_inv s0 (m_pmm (heap_mem h)) os0 l ->
  wp (Kmalloc_init (map_physical_to_virtual mp) (map_virtual_to_physical mp)) (fun _ h' =>
    heap_inv s0 mp os0 h' [] l (fun _ => ∅) (fun _ => []) (fun _ => ∅)) h.
Proof.
  intros Hnot Hci. unfold Kmalloc_init. apply wp_bind, wp_gets. rewrite Hnot. apply wp_bind, wp_modify.
  assert (forall c (Q : unit -> Heap -> Prop) h0,
    Q tt {| kmalloc := set_class_pool c {| page_fns := PmmPages; pool_cookie := mix64 (seed_for (class_bytes c));
       current := 0; partial_head := 0; total_allocated := 0; slab_count := 0 |} (kmalloc h0); heap_mem := heap_mem h0 |} ->
    wp (init_pool c) Q h0) as Hpool.
  { intros c Q h0 HQ. unfold init_pool, Pool_new. apply wp_bind.
    replace (Pool_try_new _ _ _) with (Ok {| page_fns := PmmPages; pool_cookie := mix64 (seed_for (class_bytes c));
       current := 0; partial_head := 0; total_allocated := 0; slab_count := 0 |} : Result Pool PoolInitError) by (by destruct c).
    apply wp_ret. by apply wp_modify. }
  do 5 (apply wp_bind, Hpool). apply wp_modify. split; cbn [kmalloc heap_mem m_pmm m_mappers]; try done.
  - by destruct mp.
  - intros c.
    replace (class_pool c _) with {| page_fns := PmmPages; pool_cookie := mix64 (seed_for (class_bytes c));
       current := 0; partial_head := 0; total_allocated := 0; slab_count := 0 |} by (by destruct c).
    split; try done; try set_solver; cbn.
    + constructor.
  - by intros [].
  - intros c page [b Hb]. by rewrite lookup_empty in Hb.
Qed.

(** An object belongs to one class. *)
Lemma live_class h leaks l S P L c c' x : heap_inv s0 mp os0 h leaks l S P L -> x ∈ L c -> x ∈ L c' -> c = c'.
Proof.
  intros Hinv Hx Hx'. destruct (decide (c = c')) as [|Hne]; [done|exfalso].
  destruct (live_slot_of s0 mp os0 h leaks l S P L Hinv c x Hx) as (page & b & i & Hb & _ & _ & _ & _ & Hbase).
  destruct (live_slot_of s0 mp os0 h leaks l S P L Hinv c' x Hx') as (page' & b' & i' & Hb' & _ & _ & _ & _ & Hbase').
  rewrite Hbase in Hbase'. subst page'.
  rewrite (hv_apart _ _ _ _ _ _ _ _ _ Hinv c c' page Hne ltac:(by eexists)) in Hb'. done.
Qed.

(** Objects do not overlap. *)
Lemma live_apart h leaks l S P L c c' x x' :
  heap_inv s0 mp os0 h leaks l S P L -> x ∈ L c -> x' ∈ L c' -> x <> x' ->
  x + class_bytes c <= x' \/ x' + class_bytes c' <= x.
Proof.
  intros Hinv Hx Hx' Hne.
  destruct (live_slot_of s0 mp os0 h leaks l S P L Hinv c x Hx) as (page & b & i & Hb & Hi & _ & -> & Hpg & _).
  destruct (live_slot_of s0 mp os0 h leaks l S P L Hinv c' x' Hx') as (page' & b' & i' & Hb' & Hi' & _ & -> & Hpg' & _).
  destruct (object_bounds c page i Hpg Hi) as (Hlo & Hhi & _).
  destruct (object_bounds c' page' i' Hpg' Hi') as (Hlo' & Hhi' & _).
  destruct (class_fits c) as (_ & Hcb & _). destruct (class_fits c') as (_ & Hcb' & _).
  destruct (decide (page = page')) as [<-|Hp].
  - assert (c = c') as <-.
    { destruct (decide (c = c')) as [|Hc]; [done|exfalso].
      rewrite (hv_apart _ _ _ _ _ _ _ _ _ Hinv c c' page Hc ltac:(by eexists)) in Hb'. done. }
    unfold object_at in *. assert (i <> i') by congruence.
    destruct (Z.lt_trichotomy i i') as [|[?|?]]; [left|lia|right]; nia.
  - destruct Hpg as (_ & Hal & _), Hpg' as (_ & Hal' & _). unfold PAGE_SIZE in *.
    assert (page + 4096 <= page' \/ page' + 4096 <= page) by divlia. lia.
Qed.
End Clients.

(** ** Users of the heap *)

Section Users.
Context `{PageLayout} `{FunctionAddresses}.

(** The heap, the allocations its users own, and what users of the page
    allocator hold. *)
Record Users := { u_heap : Heap; u_allocs : list KernelAllocation; u_pages : list holding }.

Definition on_pmm (s : Pmm) (h : Heap) : Heap := {|
  kmalloc := kmalloc h;
  heap_mem := {| m_pmm := s; m_words := m_words (heap_mem h); m_headers := m_headers (heap_mem h);
                 m_bytes := m_bytes (heap_mem h); m_mappers := m_mappers (heap_mem h) |} |}.

(** One call by a user of the heap or of the page allocator. *)
Inductive heap_step : Users -> Users -> Prop :=
  | heap_alloc_ok h allocs os size alignment a h' :
      0 <= size -> heap_alloc size alignment h = Done (Ok a, h') ->
      heap_step {| u_heap := h; u_allocs := allocs; u_pages := os |}
                {| u_heap := h'; u_allocs := a :: allocs; u_pages := os |}
  | heap_alloc_refused h allocs os size alignment e h' :
      0 <= size -> heap_alloc size alignment h = Done (Err e, h') ->
      heap_step {| u_heap := h; u_allocs := allocs; u_pages := os |}
                {| u_heap := h'; u_allocs := allocs; u_pages := os |}
  | heap_drop h allocs1 a allocs2 os h' :
      KernelAllocation_drop a h = Done (tt, h') ->
      heap_step {| u_heap := h; u_allocs := allocs1 ++ a :: allocs2; u_pages := os |}
                {| u_heap := h'; u_allocs := allocs1 ++ allocs2; u_pages := os |}
  | heap_page_client h allocs os s' os' :
      client_step (m_pmm (heap_mem h), os) (s', os') ->
      heap_step {| u_heap := h; u_allocs := allocs; u_pages := os |}
                {| u_heap := on_pmm s' h; u_allocs := allocs; u_pages := os' |}.

(** The class that serves an allocation, and its bytes. *)
Definition allocation_class (a : KernelAllocation) : option SizeClass :=
  size_class (Z.max (allocation_size a) CACHE_LINE_SIZE).
Definition block_size (a : KernelAllocation) : Z :=
  match allocation_class a with Some c => class_bytes c | None => 0 end.

(** The allocations users own are the live objects of the pools. *)
Record users_ok (allocs : list KernelAllocation) (L : SizeClass -> gset Z) : Prop := {
  uo_nodup : NoDup (allocation_ptr <$> allocs);
  uo_live c x : x ∈ L c <-> exists a, a ∈ allocs /\ allocation_ptr a = x /\ allocation_class a = Some c;
  uo_size a : a ∈ allocs -> 0 <= allocation_size a <= block_size a /\ is_Some (allocation_class a);
}.

Context (s0 : Pmm) (mp : Mappers) (Hmp : mappers_ok s0 mp).

Definition users_inv (u : Users) : Prop := exists leaks l S P L,
  heap_inv s0 mp (u_pages u) (u_heap u) leaks l S P L /\ users_ok (u_allocs u) L.

(** ** The calls keep the invariant *)

Lemma users_ok_add allocs L a c :
  users_ok allocs L -> 0 <= allocation_size a -> allocation_class a = Some c ->
  (forall c', allocation_ptr a ∉ L c') ->
  users_ok (a :: allocs) (upd L c ({[allocation_ptr a]} ∪ L c)).
Proof.
  intros [Hnd Hlive Hsz] Ha Hc Hnew. split.
  - cbn. apply NoDup_cons. split; [|done]. intros (b & Heq & Hb)%list_elem_of_fmap.
    destruct (Hsz b Hb) as [_ [c' Hc']]. apply (Hnew c'), Hlive. by exists b.
  - intros c' x. destruct (decide (c' = c)) as [->|Hne].
    + rewrite upd_eq, elem_of_union, elem_of_singleton, Hlive. split.
      * intros [->|(b & Hb & Hp & Hbc)]; [exists a; split; [left|done]|exists b; split; [by right|done]].
      * intros (b & [->|Hb]%elem_of_cons & Hp & Hbc); [by left|right; by exists b].
    + rewrite upd_ne, Hlive by done. split.
      * intros (b & Hb & Hp). exists b. split; [by right|done].
      * intros (b & [->|Hb]%elem_of_cons & Hp & Hbc); [congruence|by exists b].
  - intros b [->|Hb]%elem_of_cons; [|by apply Hsz]. split; [|by eexists].
    unfold block_size. rewrite Hc. split; [done|]. by apply size_class_fits.
Qed.

Lemma users_ok_remove allocs1 a allocs2 L c :
  users_ok (allocs1 ++ a :: allocs2) L -> allocation_class a = Some c ->
  users_ok (allocs1 ++ allocs2) (upd L c (L c ∖ {[allocation_ptr a]})).
Proof.
  intros [Hnd Hlive Hsz] Hc.
  assert (forall b, b ∈ allocs1 ++ a :: allocs2 <-> b = a \/ b ∈ allocs1 ++ allocs2) as Hmem by set_solver.
  rewrite fmap_app, fmap_cons in Hnd.
  assert (allocation_ptr a ∉ allocation_ptr <$> (allocs1 ++ allocs2)) as Hnot.
  { rewrite fmap_app. apply NoDup_app in Hnd as (_ & H1 & H2). apply NoDup_cons in H2 as [H2 _].
    rewrite elem_of_app. intros [Hin|Hin]; [|done]. apply (H1 _ Hin). by left. }
  assert (forall b, b ∈ allocs1 ++ allocs2 -> allocation_ptr b <> allocation_ptr a) as Hne.
  { intros b Hb Heq. apply Hnot. rewrite <-Heq. by apply list_elem_of_fmap_2. }
  split.
  - rewrite fmap_app. apply NoDup_app in Hnd as (N1 & H1 & H2). apply NoDup_cons in H2 as [_ H2].
    apply NoDup_app. split_and!; [done| |done]. intros x Hx Hx2. apply (H1 x Hx). by right.
  - intros c' x. destruct (decide (c' = c)) as [->|Hcc].
    + rewrite upd_eq, elem_of_difference, elem_of_singleton, Hlive. split.
      * intros [(b & [->|Hb]%Hmem & Hp & Hbc) Hx]; [done|by exists b].
      * intros (b & Hb & <- & Hbc). split; [exists b; split; [by apply Hmem; right|done]|by apply Hne].
    + rewrite upd_ne, Hlive by done. split.
      * intros (b & [->|Hb]%Hmem & Hp & Hbc); [congruence|by exists b].
      * intros (b & Hb & Hp). exists b. split; [by apply Hmem; right|done].
  - intros b Hb. apply Hsz, Hmem. by right.
Qed.

(** No page is free and the slabs of the class that serves [size] have handed out
    all their objects: [objects_per_slab], but for the slot that is never used. *)
Definition out_of_memory (size : Z) (h : Heap) : Prop :=
  free_pages (m_pmm (heap_mem h)) = 0 /\ exists c, size_class (Z.max size CACHE_LINE_SIZE) = Some c /\
  total_allocated (class_pool c (kmalloc h)) =
    slab_count (class_pool c (kmalloc h)) * (objects_per_slab (Class_layout c) - 1).

Lemma exhausted_class os h leaks l S P L size c :
  heap_inv s0 mp os h leaks l S P L -> size_class (Z.max size CACHE_LINE_SIZE) = Some c ->
  exhausted l S c <-> out_of_memory size h.
Proof.
  intros Hinv Hc. rewrite (exhausted_counts s0 mp os h leaks l S P L Hinv c). unfold out_of_memory.
  assert (objects_per_slab (Class_layout c) = class_objects c) as Ho by (apply class_layout).
  split; intros [Hf Hx]; (split; [done|]).
  - exists c. by rewrite Ho.
  - destruct Hx as (c' & Hc' & Hx). rewrite Hc in Hc'. injection Hc' as <-. by rewrite Ho in Hx.
Qed.

Lemma users_alloc h allocs os size alignment :
  users_inv {| u_heap := h; u_allocs := allocs; u_pages := os |} -> 0 <= size ->
  wp (heap_alloc size alignment) (fun r h' =>
    match r with
    | Ok a => bad_alignment alignment = false /\ size <= MAX_CLASS /\ allocation_size a = size /\ ~ out_of_memory size h /\
        m_bytes (heap_mem h') = m_bytes (heap_mem h) /\
        users_inv {| u_heap := h'; u_allocs := a :: allocs; u_pages := os |}
    | Err BadAlignment => bad_alignment alignment = true /\ h' = h
    | Err TooLarge => bad_alignment alignment = false /\ MAX_CLASS < size /\ h' = h
    | Err OutOfMemory => bad_alignment alignment = false /\ size <= MAX_CLASS /\ h' = h /\ out_of_memory size h
    | Err AllocNotInitialized => False
    end) h.
Proof.
  intros (leaks & l & S & P & L & Hinv & Hok) Hs. cbn in Hinv, Hok. unfold heap_alloc. apply wp_bind.
  eapply wp_mono; [exact (Kmalloc_alloc_spec s0 mp os Hmp h leaks l S P L size alignment Hinv)|].
  intros r h' Hr. destruct (bad_alignment alignment); [destruct Hr as [-> ->]; by apply wp_ret|].
  destruct (Z.ltb_spec MAX_CLASS size); [destruct Hr as [-> ->]; by apply wp_ret|].
  destruct Hr as (c & Hc & Hr). destruct r as [a|e].
  - apply wp_ret. destruct Hr as (Hroom & Hnin & Hby & leaks' & l' & S' & P' & Hinv').
    split_and!; [done|lia|done|by rewrite <-(exhausted_class os h leaks l S P L size c Hinv Hc)|done|]. eexists leaks', l', S', P', _. split; [exact Hinv'|].
    apply (users_ok_add allocs L {| allocation_ptr := a; allocation_size := size |}); [done..|].
    intros c' Hin. cbn in Hin. destruct (decide (c' = c)) as [->|Hne]; [done|]. apply Hne.
    eapply (live_class s0 mp os h' leaks' l' S' P'); [exact Hinv'| |].
    + rewrite upd_ne by done. exact Hin.
    + rewrite upd_eq. set_solver.
  - destruct Hr as (-> & -> & Hex). apply wp_ret. split_and!; [done|lia|done|].
    by apply (exhausted_class os h leaks l S P L size c Hinv Hc).
Qed.

Lemma users_free h allocs1 a allocs2 os :
  users_inv {| u_heap := h; u_allocs := allocs1 ++ a :: allocs2; u_pages := os |} ->
  wp (Kmalloc_free (allocation_ptr a)) (fun r h' => r = Ok tt /\
    (forall x, m_bytes (heap_mem h') x =
      if (allocation_ptr a <=? x) && (x <? allocation_ptr a + block_size a) then POISON_FREE else m_bytes (heap_mem h) x) /\
    users_inv {| u_heap := h'; u_allocs := allocs1 ++ allocs2; u_pages := os |}) h.
Proof.
  intros (leaks & l & S & P & L & Hinv & Hok). cbn in Hinv, Hok.
  destruct (uo_size _ _ Hok a) as [_ [c Hc]]; [set_solver|].
  assert (allocation_ptr a ∈ L c) as Ha by (apply (uo_live _ _ Hok); exists a; split; [set_solver|done]).
  eapply wp_mono; [exact (Kmalloc_free_live s0 mp os Hmp h leaks l S P L Hinv c _ Ha)|].
  intros r h' (-> & Hby & leaks' & l' & S' & P' & Hinv'). unfold block_size. rewrite Hc. split_and!; [done|exact Hby|].
  eexists leaks', l', S', P', _. split; [exact Hinv'|]. by apply users_ok_remove.
Qed.

Lemma users_page_client h allocs os s' os' :
  users_inv {| u_heap := h; u_allocs := allocs; u_pages := os |} ->
  client_step (m_pmm (heap_mem h), os) (s', os') ->
  users_inv {| u_heap := on_pmm s' h; u_allocs := allocs; u_pages := os' |}.
Proof.
  intros (leaks & l & S & P & L & Hinv & Hok) Hstep. cbn in Hinv, Hok.
  apply (client_step_frame _ _ leaks) in Hstep. cbn in Hstep.
  destruct (client_step_inv s0 _ _ Hstep) as [l' Hci].
  { exists l. eapply client_inv_perm; [|exact (hv_client _ _ _ _ _ _ _ _ _ Hinv)]. apply Permutation_app_comm. }
  exists leaks, l', S, P, L. split; [|done]. destruct Hinv as [_ Hm Hi Hp Hsp Hck Hap Hpg Hn Hh]. split; cbn; try done.
  - eapply client_inv_perm; [|exact Hci]. apply Permutation_app_comm.
  - intros c. eapply pool_inv_frame; [apply Hp|]. done.
Qed.

Lemma heap_step_inv u u' : heap_step u u' -> users_inv u -> users_inv u'.
Proof.
  destruct 1 as [h allocs os sz al a h' Hs Hrun|h allocs os sz al e h' Hs Hrun|h allocs1 a allocs2 os h' Hrun
    |h allocs os s' os' Hstep]; intros Hinv.
  - by destruct (wp_Done _ _ _ _ _ (users_alloc h allocs os sz al Hinv Hs) Hrun) as (_ & _ & _ & _ & _ & ?).
  - pose proof (wp_Done _ _ _ _ _ (users_alloc h allocs os sz al Hinv Hs) Hrun) as Hr.
    assert (h' = h) as -> by (destruct e; tauto). done.
  - apply bind_Done in Hrun as (r & h1 & Hrun & [= ->]).
    by destruct (wp_Done _ _ _ _ _ (users_free h allocs1 a allocs2 os Hinv) Hrun) as (_ & _ & ?).
  - by eapply users_page_client.
Qed.
Lemma heap_reachable u u' : users_inv u -> rtc heap_step u u' -> users_inv u'.
Proof. intros Hinv Hrtc. induction Hrtc as [|u1 u2 u3 Hstep _ IH]; [done|]. apply IH. by eapply heap_step_inv. Qed.
End Users.
