(* ===== verification/KmallocTheorems.v ===== *)
(** * Properties of the kernel heap

    What the users of a kernel whose heap came up can rely on: where their
    allocations lie, what each call returns, what a release does to memory and
    how many pages the heap keeps. *)

From S2P Require Import Prelude Address HwInfo Pmm PmmReserved PmmFreeList PmmAlloc PmmInit PmmClients PmmTheorems.
From S2P Require Import KernelStack PageMapper Kmalloc KmallocLemmas KmallocPool KmallocOps KmallocHeap KmallocUsers.
From stdpp Require Import base tactics option list list_numbers numbers gmap strings.

#[local] Open Scope Z_scope.
#[local] Open Scope kernel_scope.

(** ** Helpers *)

(** The allocations that a class serves. *)
Definition class_allocs (c : SizeClass) (allocs : list KernelAllocation) : list KernelAllocation :=
  filter (fun a => allocation_class a = Some c) allocs.

Lemma class_allocs_size allocs L c : users_ok allocs L -> size (L c) = length (class_allocs c allocs).
Proof.
  intros [Hnd Hlive _]. assert (L c = list_to_set (allocation_ptr <$> class_allocs c allocs)) as ->.
  { apply set_eq. intros x. rewrite Hlive, elem_of_list_to_set, list_elem_of_fmap. unfold class_allocs.
    setoid_rewrite list_elem_of_filter. naive_solver. }
  rewrite size_list_to_set, length_fmap; [done|]. eapply sublist_NoDup; [exact Hnd|].
  clear. unfold class_allocs. induction allocs as [|a allocs IH]; [constructor|]. rewrite filter_cons, fmap_cons.
  case_decide; [rewrite fmap_cons|]; by constructor.
Qed.

Lemma wrong_slot_cases c b k e :
  wrong_slot c b k = Some e ->
  match e with
  | OutOfBounds => k < 64 \/ class_objects c <= (k - 64) / class_bytes c
  | MisalignedPointer => 64 <= k /\ (k - 64) mod class_bytes c <> 0
  | MetadataSlot => k = 64
  | DoubleFree => k = 64 + (k - 64) / class_bytes c * class_bytes c /\ 1 <= (k - 64) / class_bytes c < class_objects c
  | InvalidSlab | FreeNotInitialized => False
  end.
Proof.
  destruct (class_fits c) as (_ & Hcb & _). unfold wrong_slot. pose proof (Z.div_mod (k - 64) (class_bytes c)).
  destruct (Z.ltb_spec k 64); [intros [= <-]; by left|].
  destruct (Z.eqb_spec ((k - 64) mod class_bytes c) 0); cbn [negb]; [|by intros [= <-]].
  destruct (Z.eqb_spec k 64); [by intros [= <-]|]. destruct (Z.leb_spec (class_objects c) ((k - 64) / class_bytes c)); [intros [= <-]; by right|].
  destruct (Z.testbit b _); [intros [= <-]|done]. split; [lia|nia].
Qed.
Lemma free_slot_live c b k :
  wrong_slot c b k = None -> 1 <= (k - 64) / class_bytes c < class_objects c /\
    Z.testbit b ((k - 64) / class_bytes c) = false /\ k = 64 + (k - 64) / class_bytes c * class_bytes c.
Proof.
  destruct (class_fits c) as (_ & Hcb & _). unfold wrong_slot. pose proof (Z.div_mod (k - 64) (class_bytes c)).
  destruct (Z.ltb_spec k 64); [done|]. destruct (Z.eqb_spec ((k - 64) mod class_bytes c) 0); cbn [negb]; [|done].
  destruct (Z.eqb_spec k 64); [done|]. destruct (Z.leb_spec (class_objects c) ((k - 64) / class_bytes c)); [done|].
  destruct (Z.testbit b _); [done|]. intros _. split_and!; [nia|lia|done|lia].
Qed.

Section Booted.
Context `{PageLayout} `{FunctionAddresses}.

(** A kernel whose heap came up: the page allocator was initialised on memory
    that the physmap at [base] maps, and then the heap with the physmap's
    mappers, as [startup/init.rs] does. *)
Record heap_booted (base : VirtualAddress) (info : HardwareInfo) (kernel_start kernel_end : Z) (h0 : Heap) : Prop := {
  hb_ok : boot_ok info kernel_start kernel_end;
  hb_base : 0 < base /\ base mod PAGE_SIZE = 0;
  hb_memory r : r ∈ memory_regions info -> base + region_base r + region_size r <= 2 ^ 64;
  hb_init : exists s h p2v v2p, (forall pa, p2v pa = wrapping_add 64 pa base) /\
    (forall va, v2p va = wrapping_sub 64 va base) /\
    init info kernel_start kernel_end p2v s = Done (Ok tt, m_pmm (heap_mem h)) /\
    kmalloc_initialized (kmalloc h) = false /\ Kmalloc_init p2v v2p h = Done (tt, h0);
}.

Abbreviation start h0 := {| u_heap := h0; u_allocs := []; u_pages := [] |}.

Lemma Kmalloc_init_pmm p2v v2p h h0 : Kmalloc_init p2v v2p h = Done (tt, h0) -> m_pmm (heap_mem h0) = m_pmm (heap_mem h).
Proof.
  unfold Kmalloc_init, init_pool, Pool_new, set_mappers, bind, gets, modify, ret.
  destruct (kmalloc_initialized (kmalloc h)); [done|]. cbn. by intros [= <-].
Qed.

Lemma linear_mappers_ok off base regs s l p2v v2p :
  ready off regs s l -> 0 < base /\ base mod PAGE_SIZE = 0 ->
  (forall r, r ∈ regs -> base + region_base r + region_size r <= 2 ^ 64) ->
  (forall pa, p2v pa = wrapping_add 64 pa base) -> (forall va, v2p va = wrapping_sub 64 va base) ->
  mappers_ok s {| map_physical_to_virtual := p2v; map_virtual_to_physical := v2p |}.
Proof.
  intros Hready [Hb0 Hbal] Hmem Hp2v Hv2p pa Hm. cbn. rewrite Hv2p, Hp2v.
  destruct (managed_in_region _ _ _ _ _ Hready Hm) as (r & Hr & Hal & Hpos & Hlo & Hhi). specialize (Hmem r Hr).
  unfold wrapping_add, wrapping_sub, page_ok, PAGE_SIZE in *. rewrite (Z.mod_small (pa + base)) by lia.
  replace (pa + base - base) with pa by lia. rewrite Z.mod_small by lia. split_and!; [done|lia|divlia|lia].
Qed.

(** A page that a client took as a physical address. *)
Lemma leaked_facts s0 s os l h phys :
  client_inv s0 s os l -> HoldLeaked h phys ∈ os ->
  state_at s h = Some Allocated /\ physical_of s h = Some phys /\ managed s0 phys.
Proof.
  intros Hci Hin. assert (h ∈ all_held os) as Hh by (apply list_elem_of_bind; exists (HoldLeaked h phys); split; [left|done]).
  split_and!.
  - apply (ci_state _ _ _ _ Hci); [|done]. apply (Forall_elem _ _ _ (ci_held _ _ _ _ Hci) Hh).
  - apply (Forall_elem _ _ _ (ci_wf _ _ _ _ Hci) Hin).
  - eapply leaked_managed; [exact Hci|exact Hin].
Qed.

Lemma heap_booted_inv base info ks ke h0 :
  heap_booted base info ks ke h0 -> exists l0 mp,
    ready base (memory_regions info) (m_pmm (heap_mem h0)) l0 /\ mappers_ok (m_pmm (heap_mem h0)) mp /\
    (forall pa, managed (m_pmm (heap_mem h0)) pa -> map_physical_to_virtual mp pa = pa + base) /\
    users_inv (m_pmm (heap_mem h0)) mp (start h0).
Proof.
  intros [Hok Hbase Hmem (s & h & p2v & v2p & Hp2v & Hv2p & Hinit & Hnot & Hrun)].
  rewrite (Kmalloc_init_pmm _ _ _ _ Hrun).
  pose proof (init_spec base info ks ke p2v s Hok) as Hwp.
  assert (forall r p, r ∈ memory_regions info -> region_base r <= p < region_base r + region_size r ->
    p2v p = p + base) as Hlin.
  { intros r p Hr Hp. specialize (Hmem r Hr). pose proof (Forall_elem _ _ _ (bo_memory _ _ _ Hok) Hr) as Hrok.
    unfold region_ok, is_uint in Hrok. rewrite Hp2v. unfold wrapping_add. apply Z.mod_small. lia. }
  destruct (wp_Done _ _ _ _ _ (Hwp Hlin) Hinit) as [[l0 Hready] _].
  pose proof (linear_mappers_ok base base _ _ _ p2v v2p Hready Hbase Hmem Hp2v Hv2p) as Hmp.
  exists l0, {| map_physical_to_virtual := p2v; map_virtual_to_physical := v2p |}. split_and!; [done..| |].
  { intros pa (r & Hr & _ & _ & Hlo & Hhi)%(managed_in_region _ _ _ _ _ Hready). apply (Hlin r); [done|].
    unfold PAGE_SIZE in *. lia. }
  pose proof (Kmalloc_init_spec (m_pmm (heap_mem h)) {| map_physical_to_virtual := p2v; map_virtual_to_physical := v2p |}
    [] Hmp h l0 Hnot (ready_client _ _ _ _ Hready)) as Hspec.
  pose proof (wp_Done _ _ _ _ _ Hspec Hrun) as Hinv. eexists [], l0, _, _, _. split; [exact Hinv|].
  split; [constructor|set_solver|set_solver].
Qed.

Section Reached.
Context base info ks ke h0 (Hboot : heap_booted base info ks ke h0) u (Hu : rtc heap_step (start h0) u).

Lemma reached_inv : exists l0 mp leaks l S P L,
  ready base (memory_regions info) (m_pmm (heap_mem h0)) l0 /\ mappers_ok (m_pmm (heap_mem h0)) mp /\
  (forall pa, managed (m_pmm (heap_mem h0)) pa -> map_physical_to_virtual mp pa = pa + base) /\
  heap_inv (m_pmm (heap_mem h0)) mp (u_pages u) (u_heap u) leaks l S P L /\ users_ok (u_allocs u) L.
Proof.
  destruct (heap_booted_inv base info ks ke h0 Hboot) as (l0 & mp & Hready & Hmp & Hlin & Hinv).
  destruct (heap_reachable _ mp Hmp _ _ Hinv Hu) as (leaks & l & S & P & L & Hh & Hok). by exists l0, mp, leaks, l, S, P, L.
Qed.

Lemma reached_users : exists mp, mappers_ok (m_pmm (heap_mem h0)) mp /\ users_inv (m_pmm (heap_mem h0)) mp u.
Proof. destruct reached_inv as (_ & mp & leaks & l & S & P & L & _ & Hmp & _ & Hinv). exists mp. split; [done|]. by exists leaks, l, S, P, L. Qed.

Lemma reached_apart i j a b :
  u_allocs u !! i = Some a -> u_allocs u !! j = Some b -> i <> j ->
  allocation_ptr a + block_size a <= allocation_ptr b \/ allocation_ptr b + block_size b <= allocation_ptr a.
Proof.
  destruct reached_inv as (l0 & mp & leaks & l & S & P & L & _ & Hmp & _ & Hinv & Hok).
  intros Hi Hj Hij. assert (a ∈ u_allocs u) as Ha by (by eapply list_elem_of_lookup_2).
  assert (b ∈ u_allocs u) as Hb by (by eapply list_elem_of_lookup_2).
  destruct (uo_size _ _ Hok a Ha) as [_ [c Hc]]. destruct (uo_size _ _ Hok b Hb) as [_ [c' Hc']].
  unfold block_size. rewrite Hc, Hc'. eapply live_apart; [exact Hinv|apply (uo_live _ _ Hok); by exists a|
    apply (uo_live _ _ Hok); by exists b|]. intros Heq. apply Hij.
  apply (NoDup_lookup _ i j (allocation_ptr a) (uo_nodup _ _ Hok)); [by rewrite list_lookup_fmap, Hi|].
  by rewrite list_lookup_fmap, Hj, Heq.
Qed.

(** (C13) Whatever users of the heap and of the page allocator do, every
    allocation starts on a cache line, all of its block lies in one page behind
    the page's first 128 bytes, where the slab's metadata is, and that page is
    one that the page allocator counts as allocated and no other client holds;
    the blocks of two allocations do not overlap. *)
Theorem heap_objects_disjoint :
  (forall a, a ∈ u_allocs u ->
     0 <= allocation_size a <= block_size a /\ allocation_ptr a mod CACHE_LINE_SIZE = 0 /\
     exists h phys, state_at (m_pmm (heap_mem (u_heap u))) h = Some Allocated /\ (h ∉ all_held (u_pages u)) /\
       physical_of (m_pmm (heap_mem (u_heap u))) h = Some phys /\
       phys + base + 128 <= allocation_ptr a /\
       allocation_ptr a + block_size a <= phys + base + PAGE_SIZE) /\
  (forall i j a b, u_allocs u !! i = Some a -> u_allocs u !! j = Some b -> i <> j ->
     allocation_ptr a + block_size a <= allocation_ptr b \/
     allocation_ptr b + block_size b <= allocation_ptr a).
Proof.
  destruct reached_inv as (l0 & mp & leaks & l & S & P & L & Hready & Hmp & Hlin & Hinv & Hok). split.
  - intros a Ha. destruct (uo_size _ _ Hok a Ha) as [Hsz [c Hc]]. split; [done|].
    assert (allocation_ptr a ∈ L c) as Hl by (apply (uo_live _ _ Hok); by exists a).
    destruct (live_slot_of _ _ _ _ _ _ _ _ _ Hinv c _ Hl) as (page & b & i & Hb & Hi & _ & Hpa & Hpg & _).
    destruct (object_bounds c page i Hpg Hi) as (Hlo & Hhi & Hal). rewrite <-Hpa in Hlo, Hhi, Hal. split; [exact Hal|].
    destruct (hv_pages _ _ _ _ _ _ _ _ _ Hinv c page) as (h & phys & Hin & Hpage); [by eexists|].
    pose proof (hv_client _ _ _ _ _ _ _ _ _ Hinv) as Hci.
    assert (HoldLeaked h phys ∈ leaks ++ u_pages u) as Hin2 by (apply elem_of_app; by left).
    destruct (leaked_facts _ _ _ _ h phys Hci Hin2) as (Hst & Hph & Hman). rewrite (Hlin phys Hman) in Hpage.
    exists h, phys. split_and!; [done| |done|..].
    + intros Hh. pose proof (ci_nodup _ _ _ _ Hci) as (_ & _ & Hnd)%NoDup_app. rewrite all_held_app in Hnd.
      apply NoDup_app in Hnd as (_ & Hd & _). apply (Hd h); [|done]. apply list_elem_of_bind. exists (HoldLeaked h phys). by split; [left|].
    + destruct (class_fits c) as (_ & Hcb & _). lia.
    + unfold block_size. rewrite Hc. lia.
  - exact reached_apart.
Qed.

(** (C14) No call of the heap panics, reads memory that is not there or loops.
    Allocation fails exactly for one of three reasons, names it, and then has
    changed nothing: an alignment that is not a power of two up to the cache
    line; a size above the largest class; or no memory, when the page allocator
    has no free page and every slab of the class that serves the size has handed
    out all its objects.  In every other state it succeeds.  Releasing any
    allocation succeeds. *)
Theorem heap_calls_return :
  (forall size alignment, 0 <= size -> exists r h',
     heap_alloc size alignment (u_heap u) = Done (r, h') /\
     match r with
     | Ok a => bad_alignment alignment = false /\ size <= MAX_CLASS /\ ~ out_of_memory size (u_heap u) /\
         allocation_size a = size
     | Err BadAlignment => bad_alignment alignment = true /\ h' = u_heap u
     | Err TooLarge => bad_alignment alignment = false /\ MAX_CLASS < size /\ h' = u_heap u
     | Err OutOfMemory => bad_alignment alignment = false /\ size <= MAX_CLASS /\ out_of_memory size (u_heap u) /\
         h' = u_heap u
     | Err AllocNotInitialized => False
     end) /\
  (forall a, a ∈ u_allocs u -> exists h', Kmalloc_free (allocation_ptr a) (u_heap u) = Done (Ok tt, h')).
Proof.
  destruct reached_users as (mp & Hmp & Hinv). destruct u as [h allocs os]. split.
  - intros size alignment Hs.
    destruct (proj1 (wp_unfold _ _ _) (users_alloc _ mp Hmp h allocs os size alignment Hinv Hs)) as (r & h' & Hrun & Hr).
    exists r, h'. split; [done|]. destruct r as [a|[]]; [tauto|tauto..].
  - intros a (l1 & l2 & Heq)%list_elem_of_split. cbn in Heq. subst allocs.
    destruct (proj1 (wp_unfold _ _ _) (users_free _ mp Hmp h l1 a l2 os Hinv)) as (r & h' & Hrun & -> & _). by exists h'.
Qed.

(** Dropping an allocation fills its block with the poison byte and changes
    no byte outside it, in particular none of another allocation's block;
    allocating changes no byte of an object. *)
Theorem heap_drop_poisons :
  (forall size alignment r h', 0 <= size -> heap_alloc size alignment (u_heap u) = Done (r, h') ->
     m_bytes (heap_mem h') = m_bytes (heap_mem (u_heap u))) /\
  (forall i a h', u_allocs u !! i = Some a -> KernelAllocation_drop a (u_heap u) = Done (tt, h') ->
     (forall x, allocation_ptr a <= x < allocation_ptr a + block_size a -> m_bytes (heap_mem h') x = POISON_FREE) /\
     (forall x, x < allocation_ptr a \/ allocation_ptr a + block_size a <= x ->
        m_bytes (heap_mem h') x = m_bytes (heap_mem (u_heap u)) x) /\
     (forall j b x, u_allocs u !! j = Some b -> j <> i ->
        allocation_ptr b <= x < allocation_ptr b + block_size b ->
        m_bytes (heap_mem h') x = m_bytes (heap_mem (u_heap u)) x)).
Proof.
  pose proof reached_apart as Hapart. destruct reached_users as (mp & Hmp & Hinv). destruct u as [h allocs os]. cbn [u_heap u_allocs] in *. split.
  - intros size alignment r h' Hs Hrun.
    pose proof (wp_Done _ _ _ _ _ (users_alloc _ mp Hmp h allocs os size alignment Hinv Hs) Hrun) as Hr.
    destruct r as [a|[]]; [tauto|..]; try done; destruct Hr as (_ & Hr); intuition congruence.
  - intros i a h' Hi Hrun. pose proof Hi as Hsplit%list_elem_of_lookup_2. apply list_elem_of_split in Hsplit as (l1 & l2 & Heq).
    rewrite Heq in Hinv. apply bind_Done in Hrun as (r & h1 & Hrun & [= ->]).
    destruct (wp_Done _ _ _ _ _ (users_free _ mp Hmp h l1 a l2 os Hinv) Hrun) as (_ & Hby & _).
    assert (forall x, x < allocation_ptr a \/ allocation_ptr a + block_size a <= x ->
      m_bytes (heap_mem h') x = m_bytes (heap_mem h) x) as Hout.
    { intros x Hx. rewrite Hby. destruct (Z.leb_spec (allocation_ptr a) x), (Z.ltb_spec x (allocation_ptr a + block_size a));
        cbn [andb]; (done || lia). }
    split_and!; [|done|].
    + intros x [Hlo Hhi]. by rewrite Hby, (proj2 (Z.leb_le _ _) Hlo), (proj2 (Z.ltb_lt _ _) Hhi).
    + intros j b x Hj Hij Hx. apply Hout. destruct (Hapart i j a b Hi Hj (not_eq_sym Hij)); lia.
Qed.


(** (C16) A pool's counters are right: [total_allocated] is the number of
    allocations of its class, and it keeps at most one page per allocation, or
    one spare page when there is none.  The pages of the heap are never lost:
    with the free pages and those of other clients they are the free pages at
    boot. *)
Theorem heap_page_bound :
  (forall c, total_allocated (class_pool c (kmalloc (u_heap u))) = Z.of_nat (length (class_allocs c (u_allocs u))) /\
     0 <= slab_count (class_pool c (kmalloc (u_heap u)))
       <= Z.max 1 (Z.of_nat (length (class_allocs c (u_allocs u))))) /\
  free_pages (m_pmm (heap_mem (u_heap u))) + Z.of_nat (length (all_held (u_pages u))) +
    foldr (fun c n => slab_count (class_pool c (kmalloc (u_heap u))) + n) 0 classes =
  free_pages (m_pmm (heap_mem h0)).
Proof.
  destruct reached_inv as (l0 & mp & leaks & l & S & P & L & Hready & Hmp & Hlin & Hinv & Hok). split.
  - intros c. pose proof (hv_pool _ _ _ _ _ _ _ _ _ Hinv c) as Hp. rewrite <-(class_allocs_size _ L c Hok).
    rewrite (pv_total _ _ _ _ _ _ Hp), (pv_count _ _ _ _ _ _ Hp).
    pose proof (slabs_bound _ _ _ _ _ _ Hp (hv_spare _ _ _ _ _ _ _ _ _ Hinv c)). lia.
  - pose proof (client_count _ _ _ _ _ _ _ Hready (hv_client _ _ _ _ _ _ _ _ _ Hinv)) as Hcount.
    rewrite all_held_app, length_app, (hv_held _ _ _ _ _ _ _ _ _ Hinv), (hv_count _ _ _ _ _ _ _ _ _ Hinv) in Hcount.
    rewrite <-Hcount. unfold sum_classes, classes. cbn [fmap list_fmap sum_list foldr].
    rewrite !(fun c => pv_count _ _ _ _ _ _ (hv_pool _ _ _ _ _ _ _ _ _ Hinv c)). unfold id. lia.
Qed.

(** (C15) Releasing a pointer into the page of a live allocation returns and
    succeeds exactly when an allocation starts there; otherwise the heap is
    unchanged and the error says what is wrong with the pointer: it lies before
    the slots or behind them, between two slots, at the slab's metadata, or at a
    slot that is free. *)
Theorem heap_free_cases a c k :
  a ∈ u_allocs u -> allocation_class a = Some c -> 0 <= k < PAGE_SIZE ->
  let page := allocation_ptr a - allocation_ptr a mod PAGE_SIZE in
  let slot := (k - usable_start (Class_layout c)) / class_bytes c in
  exists r h', Kmalloc_free (page + k) (u_heap u) = Done (r, h') /\
    match r with
    | Ok _ => exists b, b ∈ u_allocs u /\ allocation_ptr b = page + k
    | Err e => h' = u_heap u /\ (forall b, b ∈ u_allocs u -> allocation_ptr b <> page + k) /\
        match e with
        | OutOfBounds => k < usable_start (Class_layout c) \/ objects_per_slab (Class_layout c) <= slot
        | MisalignedPointer => usable_start (Class_layout c) <= k /\
            (k - usable_start (Class_layout c)) mod class_bytes c <> 0
        | MetadataSlot => k = usable_start (Class_layout c)
        | DoubleFree => k = usable_start (Class_layout c) + slot * class_bytes c /\
            1 <= slot < objects_per_slab (Class_layout c)
        | InvalidSlab | FreeNotInitialized => False
        end
    end.
Proof.
  intros Ha Hc Hk page slot. destruct reached_inv as (l0 & mp & leaks & l & S & P & L & _ & Hmp & _ & Hinv & Hok).
  assert (allocation_ptr a ∈ L c) as Hl by (apply (uo_live _ _ Hok); by exists a).
  destruct (live_slot_of _ _ _ _ _ _ _ _ _ Hinv c _ Hl) as (pg & b & i & Hb & Hi & _ & Hpa & Hpg & _).
  assert (page = pg) as ->.
  { subst page. rewrite Hpa. destruct (object_bounds c pg i Hpg Hi) as (Hlo & Hhi & _).
    destruct (class_fits c) as (_ & Hcb & _). destruct Hpg as (_ & Hal & _). unfold PAGE_SIZE in *. divlia. }
  destruct (class_layout c) as (_ & Hus & Hobj). subst slot. rewrite Hus, Hobj.
  assert (forall x, x ∈ L c -> exists r h', Kmalloc_free x (u_heap u) = Done (r, h') /\ r = Ok tt) as Hlive.
  { intros x Hx. destruct (proj1 (wp_unfold _ _ _) (Kmalloc_free_live _ _ _ Hmp _ _ _ _ _ _ Hinv c x Hx))
      as (r & h' & Hrun & -> & _). by exists (Ok tt), h'. }
  destruct (wrong_slot c b k) as [e|] eqn:He.
  - destruct (proj1 (wp_unfold _ _ _) (Kmalloc_free_wrong _ _ _ _ _ _ _ _ _ Hinv c pg b k e Hb Hk He))
      as (r & h' & Hrun & -> & ->). exists (Err e), (u_heap u). split_and!; [done|done| |].
    + intros b' Hb' Heq. destruct (uo_size _ _ Hok b' Hb') as [_ [c' Hc']].
      assert (pg + k ∈ L c') as Hl' by (apply (uo_live _ _ Hok); by exists b').
      destruct (proj1 (wp_unfold _ _ _) (Kmalloc_free_live _ _ _ Hmp _ _ _ _ _ _ Hinv c' _ Hl'))
        as (r & h' & Hrun' & -> & _). congruence.
    + by apply (wrong_slot_cases c b k e).
  - destruct (free_slot_live c b k He) as (Hslot & Ht & Hk').
    assert (pg + k ∈ L c) as Hx.
    { apply (pv_live _ _ _ _ _ _ (hv_pool _ _ _ _ _ _ _ _ _ Hinv c)). exists pg, b, ((k - 64) / class_bytes c).
      split_and!; [done|lia..|done|]. unfold object_at. lia. }
    destruct (Hlive _ Hx) as (r & h' & Hrun & ->). exists (Ok tt), h'. split; [done|].
    apply (uo_live _ _ Hok) in Hx as (b' & Hb' & Hp & _). by exists b'.
Qed.
End Reached.
End Booted.

(** ** A heap with two allocations *)

#[local] Existing Instance small_layout.
#[local] Program Instance demo_addresses : FunctionAddresses :=
  {| pmm_alloc_page_address := 0xffff800080201000; pmm_free_page_address := 0xffff800080201080 |}.
Next Obligation. by split. Qed.
Next Obligation. by split. Qed.

Definition demo_p2v (pa : PhysicalAddress) : VirtualAddress := wrapping_add 64 pa small_offset.
Definition demo_v2p (va : VirtualAddress) : PhysicalAddress := wrapping_sub 64 va small_offset.

Definition cold_heap : Heap := {|
  kmalloc := Kmalloc_empty;
  heap_mem := {| m_pmm := after (init small_info 0x1000 0x2000 demo_p2v) (Pmm_empty ∅);
                 m_words := ∅; m_headers := ∅; m_bytes := fun _ => 0; m_mappers := Mappers_identity |} |}.
Definition warm_heap : Heap := after (Kmalloc_init demo_p2v demo_v2p) cold_heap.
Definition demo_heap1 : Heap := after (heap_alloc 100 (Some 8)) warm_heap.
Definition demo_heap2 : Heap := after (heap_alloc 64 None) demo_heap1.
Definition demo_object1 : KernelAllocation := {| allocation_ptr := 0xffff8000800000c0; allocation_size := 100 |}.
Definition demo_object2 : KernelAllocation := {| allocation_ptr := 0xffff800080001080; allocation_size := 64 |}.
Definition demo_users : Users := {| u_heap := demo_heap2; u_allocs := [demo_object2; demo_object1]; u_pages := [] |}.

Lemma demo_booted : heap_booted small_offset small_info 0x1000 0x2000 warm_heap.
Proof.
  split.
  - exact small_boot_ok.
  - done.
  - intros r ->%list_elem_of_singleton. by vm_compute.
  - exists (Pmm_empty ∅), cold_heap, demo_p2v, demo_v2p. split_and!; [done|done| |done|].
    + vm_compute. reflexivity.
    + apply (result_after (Kmalloc_init demo_p2v demo_v2p) cold_heap tt). vm_compute. reflexivity.
Qed.
Lemma demo_reached : rtc heap_step {| u_heap := warm_heap; u_allocs := []; u_pages := [] |} demo_users.
Proof.
  eapply rtc_l; [apply (heap_alloc_ok warm_heap [] [] 100 (Some 8) demo_object1 demo_heap1); [done|]|].
  - unfold demo_heap1. apply (result_after (heap_alloc 100 (Some 8)) warm_heap (Ok demo_object1)). vm_compute. reflexivity.
  - apply rtc_once, (heap_alloc_ok demo_heap1 [demo_object1] [] 64 None demo_object2 demo_heap2); [done|].
    unfold demo_heap2. apply (result_after (heap_alloc 64 None) demo_heap1 (Ok demo_object2)). vm_compute. reflexivity.
Qed.

#[local] Opaque warm_heap demo_heap1 demo_heap2.

Lemma heap_objects_disjoint_witness :
  demo_object2 ∈ u_allocs demo_users /\ block_size demo_object2 = 64 /\
  allocation_ptr demo_object2 mod CACHE_LINE_SIZE = 0 /\
  (allocation_ptr demo_object2 + block_size demo_object2 <= allocation_ptr demo_object1 \/
   allocation_ptr demo_object1 + block_size demo_object1 <= allocation_ptr demo_object2).
Proof.
  pose proof (heap_objects_disjoint small_offset small_info 0x1000 0x2000 warm_heap demo_booted demo_users demo_reached)
    as [Hall Hpair].
  assert (demo_object2 ∈ u_allocs demo_users) as Hin by left. split_and!; [done|done| |].
  - exact (proj1 (proj2 (Hall demo_object2 Hin))).
  - exact (Hpair 0%nat 1%nat demo_object2 demo_object1 eq_refl eq_refl ltac:(done)).
Defined.

Lemma heap_calls_return_witness :
  (exists r h', heap_alloc 200 (Some 64) demo_heap2 = Done (r, h')) /\
  exists h', Kmalloc_free (allocation_ptr demo_object1) demo_heap2 = Done (Ok tt, h').
Proof.
  pose proof (heap_calls_return small_offset small_info 0x1000 0x2000 warm_heap demo_booted demo_users demo_reached)
    as [Halloc Hfree]. split.
  - destruct (Halloc 200 (Some 64) ltac:(lia)) as (r & h' & Hrun & _). exists r, h'. exact Hrun.
  - apply (Hfree demo_object1). right. left.
Defined.

Lemma heap_drop_poisons_witness :
  exists h', KernelAllocation_drop demo_object1 demo_heap2 = Done (tt, h') /\
    m_bytes (heap_mem h') (allocation_ptr demo_object1 + 127) = POISON_FREE /\
    m_bytes (heap_mem h') (allocation_ptr demo_object2) = m_bytes (heap_mem demo_heap2) (allocation_ptr demo_object2).
Proof.
  assert (KernelAllocation_drop demo_object1 demo_heap2 = Done (tt, after (KernelAllocation_drop demo_object1) demo_heap2)) as Hrun
    by (apply (result_after (KernelAllocation_drop demo_object1) demo_heap2 tt); vm_compute; reflexivity).
  eexists. split; [exact Hrun|].
  destruct (proj2 (heap_drop_poisons small_offset small_info 0x1000 0x2000 warm_heap demo_booted demo_users demo_reached)
    1%nat demo_object1 _ eq_refl Hrun) as (Hin & _ & Hother). split.
  - apply Hin. vm_compute. split; congruence.
  - apply (Hother 0%nat demo_object2); [reflexivity|discriminate|]. vm_compute. split; congruence.
Defined.

Lemma heap_page_bound_witness :
  total_allocated (class_pool Class128 (kmalloc demo_heap2)) = 1 /\
  slab_count (class_pool Class128 (kmalloc demo_heap2)) <= 1.
Proof.
  destruct (proj1 (heap_page_bound small_offset small_info 0x1000 0x2000 warm_heap demo_booted demo_users demo_reached)
    Class128) as [Htotal [_ Hslabs]]. split; [exact Htotal|exact Hslabs].
Defined.

Lemma heap_free_cases_witness :
  exists r h', Kmalloc_free (0xffff800080001000 + 192) demo_heap2 = Done (r, h') /\ r = Err DoubleFree.
Proof.
  destruct (heap_free_cases small_offset small_info 0x1000 0x2000 warm_heap demo_booted demo_users demo_reached
    demo_object2 Class64 192 ltac:(left) eq_refl ltac:(done)) as (r & h' & Hrun & _).
  exists r, h'. split; [exact Hrun|].
  assert (match Kmalloc_free (0xffff800080001000 + 192) demo_heap2 with Done (Err DoubleFree, _) => True | _ => False end) as Hd
    by (vm_compute; exact I).
  change (allocation_ptr demo_object2 - allocation_ptr demo_object2 mod PAGE_SIZE) with 0xffff800080001000 in Hrun.
  change (u_heap demo_users) with demo_heap2 in Hrun. rewrite Hrun in Hd.
  destruct r as [|[]]; first [reflexivity|destruct Hd].
Defined.
