(* ===== verification/Arm64Mmu.v ===== *)
(** * The ARM64 memory-management unit

    Models [arch/aarch64/mmu.rs] and [hal::mmu] of [hal/mod.rs]: translation
    descriptors, the two boot tables, the three-level walk, and mapping and
    unmapping of 4 KiB kernel pages with tables taken from the page allocator.
    A descriptor is its [u64].  The system registers and the TLB maintenance
    that the code performs are fields of the state. *)

From S2P Require Import Prelude Address HwInfo Pmm KernelStack.
From stdpp Require Import base tactics option list list_numbers numbers gmap strings.

#[local] Open Scope Z_scope.
#[local] Open Scope kernel_scope.

Definition KERNEL_VIRTUAL_BASE : Z := 0xffffff8000000000.
Definition KERNEL_PHYSICAL_LOAD : Z := 0x40080000.
Definition PAGE_SHIFT : Z := 12.
Definition BLOCK_1G : Z := Z.shiftl 1 30.
Definition BLOCK_1G_MASK : Z := BLOCK_1G - 1.
Definition BLOCK_2M : Z := Z.shiftl 1 21.
Definition BLOCK_2M_MASK : Z := BLOCK_2M - 1.
Definition MAX_PHYSMAP_ENTRIES : Z := ENTRIES_PER_PAGE_TABLE - 1.
Definition MAX_BOOT_BLOCKS : Z := ENTRIES_PER_PAGE_TABLE.
Definition KERNEL_STACK_REGION_OFFSET : Z := (ENTRIES_PER_PAGE_TABLE - 1) * BLOCK_1G.

Definition MAIR_VALUE : Z :=
  Z.lor (Z.lor (Z.lor (Z.shiftl 0x04 8) (Z.shiftl 0x44 16)) (Z.shiftl 0xff 24)) (Z.shiftl 0xf0 32).
Definition BOOT_KERNEL_PERMISSIONS : MappingPermissions :=
  {| writable := true; executable := true; user_accessible := false |}.

(** ** Descriptors *)

Definition VALID : Z := 2 ^ 0.
Definition TABLE_OR_PAGE : Z := 2 ^ 1.
Definition ATTRIBUTE_INDEX_SHIFT : Z := 2.
Definition USER_ACCESSIBLE : Z := 2 ^ 6.
Definition READ_ONLY : Z := 2 ^ 7.
Definition OUTER_SHAREABLE : Z := Z.shiftl 2 8.
Definition INNER_SHAREABLE : Z := Z.shiftl 3 8.
Definition ACCESSED : Z := 2 ^ 10.
Definition NON_GLOBAL : Z := 2 ^ 11.
Definition PRIVILEGED_EXECUTE_NEVER : Z := 2 ^ 53.
Definition USER_EXECUTE_NEVER : Z := 2 ^ 54.
Definition INVALID : Z := 0.
Definition OUTPUT_MASK : Z := 0x0000fffffffff000.

Definition is_valid (e : Z) : bool := negb (Z.land e VALID =? 0).
Definition is_table (e : Z) : bool := is_valid e && negb (Z.land e TABLE_OR_PAGE =? 0).
Definition is_block (e : Z) : bool := is_valid e && (Z.land e TABLE_OR_PAGE =? 0).
Definition output_address (e : Z) : option PhysicalAddress :=
  if is_valid e then Some (Z.land e OUTPUT_MASK) else None.

Definition aligned_output_address (address : PhysicalAddress) : option Z :=
  if PhysicalAddress_is_page_aligned address then Some (Z.land address OUTPUT_MASK) else None.

Definition table_entry (next_table : PhysicalAddress) : option Z :=
  match aligned_output_address next_table with
  | Some out => Some (Z.lor (Z.lor VALID TABLE_OR_PAGE) out)
  | None => None
  end.

Definition apply_permissions (value : Z) (p : MappingPermissions) : Z :=
  let value := if negb (writable p) then Z.lor value READ_ONLY else value in
  let value :=
    if user_accessible p then Z.lor value (Z.lor USER_ACCESSIBLE NON_GLOBAL)
    else Z.lor value USER_EXECUTE_NEVER in
  if negb (executable p) then Z.lor value (Z.lor PRIVILEGED_EXECUTE_NEVER USER_EXECUTE_NEVER) else value.

(** [PageTableEntry::mapping]; the [expect] is on the output address. *)
Definition mapping {S} (intent : MappingIntent) (table_or_page : bool) : M S Z :=
  let attribute := match memory intent with Device => 0 | Normal => 3 end in
  let shareability := match memory intent with Device => OUTER_SHAREABLE | Normal => INNER_SHAREABLE end in
  let! out := expect "validated mapping" (aligned_output_address (physical_address intent)) in
  let value := Z.lor (Z.lor (Z.lor (Z.lor VALID ACCESSED) shareability) out)
                 (Z.shiftl attribute ATTRIBUTE_INDEX_SHIFT) in
  let value := if table_or_page then Z.lor value TABLE_OR_PAGE else value in
  ret (apply_permissions value (permissions intent)).

Definition from_mapping {S} (intent : MappingIntent) : M S Z :=
  match Address.size intent with
  | Page4K => mapping intent true
  | Block2M | Block1G => mapping intent false
  end.

Definition kernel_block {S} (address : PhysicalAddress) (permissions : MappingPermissions) : M S Z :=
  let! intent := expect "boot block is aligned"
    (MappingIntent_new address Block1G Normal permissions) in
  from_mapping intent.
Definition device_block {S} (address : PhysicalAddress) : M S Z :=
  let! intent := expect "device block is aligned"
    (MappingIntent_new address Block1G Device KERNEL_READ_WRITE) in
  from_mapping intent.

(** ** State *)

Inductive TlbOp :=
  | FlushAll
  | FlushAddress (operand : Z)
  | FlushLocal.

(** The boot tables, the table pages by the address they are accessed at,
    [PHYSMAP_END_GB], the TLB maintenance so far (latest last), and the system
    registers. *)
Record Mmu := {
  low_table : list Z;
  high_table : list Z;
  tables : gmap Z (list Z);
  physmap_end_gb : Z;
  tlb : list TlbOp;
  mair_el1 : Z;
  tcr_el1 : Z;
  ttbr0_el1 : Z;
  ttbr1_el1 : Z;
  sctlr_el1 : Z;
}.

Definition set_low (v : list Z) (m : Mmu) : Mmu := {|
  low_table := v; high_table := high_table m; tables := tables m; physmap_end_gb := physmap_end_gb m;
  tlb := tlb m; mair_el1 := mair_el1 m; tcr_el1 := tcr_el1 m; ttbr0_el1 := ttbr0_el1 m;
  ttbr1_el1 := ttbr1_el1 m; sctlr_el1 := sctlr_el1 m |}.
Definition set_high (v : list Z) (m : Mmu) : Mmu := {|
  low_table := low_table m; high_table := v; tables := tables m; physmap_end_gb := physmap_end_gb m;
  tlb := tlb m; mair_el1 := mair_el1 m; tcr_el1 := tcr_el1 m; ttbr0_el1 := ttbr0_el1 m;
  ttbr1_el1 := ttbr1_el1 m; sctlr_el1 := sctlr_el1 m |}.
Definition set_tables (v : gmap Z (list Z)) (m : Mmu) : Mmu := {|
  low_table := low_table m; high_table := high_table m; tables := v; physmap_end_gb := physmap_end_gb m;
  tlb := tlb m; mair_el1 := mair_el1 m; tcr_el1 := tcr_el1 m; ttbr0_el1 := ttbr0_el1 m;
  ttbr1_el1 := ttbr1_el1 m; sctlr_el1 := sctlr_el1 m |}.
Definition set_physmap_end (v : Z) (m : Mmu) : Mmu := {|
  low_table := low_table m; high_table := high_table m; tables := tables m; physmap_end_gb := v;
  tlb := tlb m; mair_el1 := mair_el1 m; tcr_el1 := tcr_el1 m; ttbr0_el1 := ttbr0_el1 m;
  ttbr1_el1 := ttbr1_el1 m; sctlr_el1 := sctlr_el1 m |}.
Definition log_tlb (op : TlbOp) (m : Mmu) : Mmu := {|
  low_table := low_table m; high_table := high_table m; tables := tables m;
  physmap_end_gb := physmap_end_gb m; tlb := tlb m ++ [op]; mair_el1 := mair_el1 m;
  tcr_el1 := tcr_el1 m; ttbr0_el1 := ttbr0_el1 m; ttbr1_el1 := ttbr1_el1 m; sctlr_el1 := sctlr_el1 m |}.
Definition set_sysregs (mair tcr ttbr0 ttbr1 sctlr : Z) (m : Mmu) : Mmu := {|
  low_table := low_table m; high_table := high_table m; tables := tables m;
  physmap_end_gb := physmap_end_gb m; tlb := tlb m; mair_el1 := mair; tcr_el1 := tcr;
  ttbr0_el1 := ttbr0; ttbr1_el1 := ttbr1; sctlr_el1 := sctlr |}.

(** A table: a boot table, or a page accessed through the physmap. *)
Inductive TableRef :=
  | LowTable
  | HighTable
  | TableAt (address : VirtualAddress).

Definition entries (t : TableRef) (m : Mmu) : option (list Z) :=
  match t with
  | LowTable => Some (low_table m)
  | HighTable => Some (high_table m)
  | TableAt a => tables m !! a
  end.
Definition set_entries (t : TableRef) (l : list Z) (m : Mmu) : Mmu :=
  match t with
  | LowTable => set_low l m
  | HighTable => set_high l m
  | TableAt a => set_tables (<[a := l]> (tables m)) m
  end.

(** [table.entries[index]]: memory that holds no table is [Undefined]. *)
Definition get_entry (t : TableRef) (index : Z) : M Mmu Z :=
  let! l := gets (entries t) in
  match l with
  | None => undefined
  | Some l => expect "index out of bounds" (l !! Z.to_nat index)
  end.
Definition set_entry (t : TableRef) (index v : Z) : M Mmu unit :=
  let! l := gets (entries t) in
  match l with
  | None => undefined
  | Some l =>
      if index <? Z.of_nat (length l) then modify (set_entries t (<[Z.to_nat index := v]> l))
      else panic "index out of bounds"
  end.

(** ** Addresses *)

Definition physical_to_virtual (address : PhysicalAddress) : VirtualAddress :=
  wrapping_add 64 address KERNEL_VIRTUAL_BASE.
Definition virtual_to_physical (address : VirtualAddress) : PhysicalAddress :=
  wrapping_sub 64 address KERNEL_VIRTUAL_BASE.
Definition kernel_stack_region_base : VirtualAddress := KERNEL_VIRTUAL_BASE + KERNEL_STACK_REGION_OFFSET.
Definition is_canonical (address : VirtualAddress) : bool :=
  (address <? Z.shiftl 1 39) || (KERNEL_VIRTUAL_BASE <=? address).
Definition table_from_physical (address : PhysicalAddress) : TableRef :=
  TableAt (physical_to_virtual address).
Definition static_physical_address (raw : Z) : PhysicalAddress :=
  if KERNEL_VIRTUAL_BASE <=? raw then virtual_to_physical raw else raw.

Definition l1_index (address : VirtualAddress) : Z := Z.land (Z.shiftr address 30) 0x1ff.
Definition l2_index (address : VirtualAddress) : Z := Z.land (Z.shiftr address 21) 0x1ff.
Definition l3_index (address : VirtualAddress) : Z := Z.land (Z.shiftr address 12) 0x1ff.

Definition flush_address_operand (address : VirtualAddress) : Z :=
  Z.land (Z.shiftr address PAGE_SHIFT) 0x000fffffffff.
Definition flush_address (address : VirtualAddress) : M Mmu unit :=
  modify (log_tlb (FlushAddress (flush_address_operand address))).
Definition flush_local : M Mmu unit := modify (log_tlb FlushLocal).
Definition flush_all : M Mmu unit := modify (log_tlb FlushAll).

(** ** Boot *)

Definition default_tcr : Z :=
  Z.lor (Z.lor (Z.lor (Z.lor (Z.lor (Z.lor (Z.lor (Z.lor (Z.lor
    25 (Z.shiftl 1 8)) (Z.shiftl 1 10)) (Z.shiftl 2 12)) (Z.shiftl 25 16)) (Z.shiftl 1 24))
    (Z.shiftl 1 26)) (Z.shiftl 2 28)) (Z.shiftl 2 30)) (Z.shiftl 2 32).

Definition validate_boot_range (start_gb end_gb : Z) : M Mmu unit :=
  if (end_gb <? start_gb) || (MAX_BOOT_BLOCKS <? end_gb)
  then panic "mmu: boot physical range exceeds ARM64 boot page table" else ret tt.

(** One iteration of the block loop of [init]. *)
Definition boot_block (gb : Z) : M Mmu unit :=
  if gb =? 0 then ret tt
  else
    let! address := mul_uint 64 gb BLOCK_1G in
    let! e := kernel_block address BOOT_KERNEL_PERMISSIONS in
    set_entry LowTable gb e ;;;
    let! e := kernel_block address BOOT_KERNEL_PERMISSIONS in
    set_entry HighTable gb e.

(** The part of [init] before the tables are written: the block range. *)
Definition boot_range (kernel_load dtb : Z) : Z * Z :=
  let map_start := if dtb =? 0 then kernel_load else Z.min kernel_load dtb in
  let dtb_end := if dtb =? 0 then kernel_load else saturating_add 64 dtb DEVICE_TREE_BLOB_MAX_SIZE in
  let map_end := Z.max (saturating_add 64 kernel_load MINIMUM_PHYSMAP_SIZE) dtb_end in
  (map_start / BLOCK_1G, div_ceil map_end BLOCK_1G).

(** [mmu::init]; [low_ptr] and [high_ptr] are the addresses of the statics. *)
Definition mmu_init (low_ptr high_ptr : Z) (kernel_load dtb : Z) : M Mmu unit :=
  modify (fun m => set_sysregs MAIR_VALUE (tcr_el1 m) (ttbr0_el1 m) (ttbr1_el1 m) (sctlr_el1 m) m) ;;;
  modify (fun m => set_sysregs (mair_el1 m) default_tcr (ttbr0_el1 m) (ttbr1_el1 m) (sctlr_el1 m) m) ;;;
  let '(start_gb, end_gb) := boot_range kernel_load dtb in
  validate_boot_range start_gb end_gb ;;;
  modify (fun m => set_low (replicate (length (low_table m)) INVALID) m) ;;;
  modify (fun m => set_high (replicate (length (high_table m)) INVALID) m) ;;;
  let! e := device_block PhysicalAddress_ZERO in
  set_entry LowTable 0 e ;;;
  let! e := device_block PhysicalAddress_ZERO in
  set_entry HighTable 0 e ;;;
  for_each (range start_gb end_gb) boot_block ;;;
  modify (set_physmap_end end_gb) ;;;
  modify (fun m => set_sysregs (mair_el1 m) (tcr_el1 m) (static_physical_address low_ptr)
                     (static_physical_address high_ptr) (sctlr_el1 m) m) ;;;
  flush_local ;;;
  modify (fun m => set_sysregs (mair_el1 m) (tcr_el1 m) (ttbr0_el1 m) (ttbr1_el1 m)
                     (Z.lor (sctlr_el1 m) 1) m).

Definition expand_block (gb : Z) : M Mmu unit :=
  if gb =? 0 then ret tt
  else
    let! address := mul_uint 64 gb BLOCK_1G in
    let! e := kernel_block address BOOT_KERNEL_PERMISSIONS in
    set_entry HighTable gb e.

Definition expand_physmap (max_end : PhysicalAddress) : M Mmu unit :=
  let new_end := Z.min (div_ceil max_end BLOCK_1G) MAX_PHYSMAP_ENTRIES in
  let! current := gets physmap_end_gb in
  for_each (range current new_end) expand_block ;;;
  if current <? new_end then modify (set_physmap_end new_end) ;;; flush_local else ret tt.

Definition remove_identity_mapping : M Mmu unit :=
  modify (fun m => set_low (replicate (length (low_table m)) INVALID) m) ;;;
  flush_local.

(** ** Walks *)

(** [e.output_address()?.checked_add(offset)] *)
Definition output_plus (e offset : Z) : option PhysicalAddress :=
  match output_address e with
  | Some out => PhysicalAddress_checked_add out offset
  | None => None
  end.

Definition translate (root : TableRef) (address : VirtualAddress) : M Mmu (option PhysicalAddress) :=
  if negb (is_canonical address) then ret None
  else
    let! entry := get_entry root (l1_index address) in
    if negb (is_valid entry) then ret None
    else if is_block entry then ret (output_plus entry (Z.land address BLOCK_1G_MASK))
    else
      let? out := output_address entry in
      let! entry := get_entry (table_from_physical out) (l2_index address) in
      if negb (is_valid entry) then ret None
      else if is_block entry then ret (output_plus entry (Z.land address BLOCK_2M_MASK))
      else
        let? out := output_address entry in
        let! entry := get_entry (table_from_physical out) (l3_index address) in
        ret (if is_valid entry then output_plus entry (VirtualAddress_page_offset address) else None).

(** The descriptor of a table: its address, or the error of a missing or a
    block descriptor. *)
Definition next_table {S E} (entry : Z) (conflict missing : E) : M S (Result TableRef E) :=
  if negb (is_table entry) then ret (Err (if is_valid entry then conflict else missing))
  else
    let! out := expect "called `Option::unwrap()` on a `None` value" (output_address entry) in
    ret (Ok (table_from_physical out)).

(** The end of both mapping functions: the leaf is written and flushed. *)
Definition install_page (table : TableRef) (virtual_address : VirtualAddress)
    (physical_address : PhysicalAddress) (permissions : MappingPermissions) : M Mmu (Result unit MapError) :=
  let! slot := get_entry table (l3_index virtual_address) in
  if is_valid slot then ret (Err MapError_AlreadyMapped)
  else
    let? intent := MappingIntent_new physical_address Page4K Normal permissions ok_or MapError_NotAligned in
    let! e := from_mapping intent in
    set_entry table (l3_index virtual_address) e ;;;
    flush_address virtual_address ;;;
    ret (Ok tt).

Definition map_page (root : TableRef) (virtual_address : VirtualAddress)
    (physical_address : PhysicalAddress) (permissions : MappingPermissions) : M Mmu (Result unit MapError) :=
  if negb (VirtualAddress_is_page_aligned virtual_address) ||
     negb (PhysicalAddress_is_page_aligned physical_address)
  then ret (Err MapError_NotAligned)
  else if negb (is_canonical virtual_address) then ret (Err MapError_NotCanonical)
  else
    let! entry := get_entry root (l1_index virtual_address) in
    try! l2_table := next_table entry MapError_SuperpageConflict MapError_TableNotPresent in
    let! entry := get_entry l2_table (l2_index virtual_address) in
    try! l3_table := next_table entry MapError_SuperpageConflict MapError_TableNotPresent in
    install_page l3_table virtual_address physical_address permissions.

Definition unmap_page (root : TableRef) (virtual_address : VirtualAddress) :
    M Mmu (Result PhysicalAddress UnmapError) :=
  if negb (is_canonical virtual_address) then ret (Err UnmapError_NotCanonical)
  else
    let! entry := get_entry root (l1_index virtual_address) in
    try! l2_table := next_table entry UnmapError_SuperpageConflict UnmapError_NotMapped in
    let! entry := get_entry l2_table (l2_index virtual_address) in
    try! l3_table := next_table entry UnmapError_SuperpageConflict UnmapError_NotMapped in
    let! slot := get_entry l3_table (l3_index virtual_address) in
    if negb (is_valid slot) then ret (Err UnmapError_NotMapped)
    else
      let? physical := output_address slot ok_or UnmapError_NotMapped in
      set_entry l3_table (l3_index virtual_address) INVALID ;;;
      flush_address virtual_address ;;;
      ret (Ok physical).

(** ** Mapping with table allocation *)

Section Alloc.
Context `{PageLayout}.

(** [hal::mmu::allocate_page_table]: the page is zeroed through the physmap. *)
Definition allocate_page_table : M (World Mmu) (option VirtualAddress) :=
  let! page := lift_pmm global_alloc_page in
  let? page := page in
  let! physical := lift_pmm (leak_physical page) in
  let? physical := physical in
  let virtual_address := physical_to_virtual physical in
  lift_mmu (modify (fun m => set_tables (<[virtual_address := replicate 512 0]> (tables m)) m)) ;;;
  ret (Some virtual_address).

Variable allocate_table : M (World Mmu) (option VirtualAddress).

(** The entry at [index] of [table], made to point to a new table when it is
    invalid; the table it points to. *)
Definition ensure_table (table : TableRef) (index : Z) : M (World Mmu) (Result TableRef MapError) :=
  let! entry := lift_mmu (get_entry table index) in
  let! r :=
    if negb (is_valid entry) then
      let! next := allocate_table in
      let? next := next ok_or MapError_OutOfMemory in
      let? e := table_entry (virtual_to_physical next) ok_or MapError_NotAligned in
      lift_mmu (set_entry table index e) ;;;
      ret (Ok tt)
    else if negb (is_table entry) then ret (Err MapError_SuperpageConflict)
    else ret (Ok tt) in
  match r with
  | Err e => ret (Err e)
  | Ok _ =>
      let! entry := lift_mmu (get_entry table index) in
      let! out := expect "called `Option::unwrap()` on a `None` value" (output_address entry) in
      ret (Ok (table_from_physical out))
  end.

Definition map_page_with_alloc (root : TableRef) (virtual_address : VirtualAddress)
    (physical_address : PhysicalAddress) (permissions : MappingPermissions) :
    M (World Mmu) (Result unit MapError) :=
  if negb (VirtualAddress_is_page_aligned virtual_address) ||
     negb (PhysicalAddress_is_page_aligned physical_address)
  then ret (Err MapError_NotAligned)
  else if negb (is_canonical virtual_address) then ret (Err MapError_NotCanonical)
  else
    try! l2_table := ensure_table root (l1_index virtual_address) in
    try! l3_table := ensure_table l2_table (l2_index virtual_address) in
    lift_mmu (install_page l3_table virtual_address physical_address permissions).

Definition map_kernel_page_with_alloc (virtual_address : VirtualAddress)
    (physical_address : PhysicalAddress) (permissions : MappingPermissions) :
    M (World Mmu) (Result unit MapError) :=
  map_page_with_alloc HighTable virtual_address physical_address permissions.

Definition unmap_kernel_page (virtual_address : VirtualAddress) :
    M (World Mmu) (Result PhysicalAddress UnmapError) :=
  lift_mmu (unmap_page HighTable virtual_address).
End Alloc.

(** [hal::mmu::map_kernel_stack_page] and [unmap_kernel_stack_page]. *)
Definition map_kernel_stack_page `{PageLayout} (virtual_address : VirtualAddress)
    (physical_address : PhysicalAddress) : M (World Mmu) (Result unit MapError) :=
  map_kernel_page_with_alloc allocate_page_table virtual_address physical_address KERNEL_READ_WRITE.
Definition unmap_kernel_stack_page `{PageLayout} (virtual_address : VirtualAddress) :
    M (World Mmu) (Result PhysicalAddress UnmapError) :=
  unmap_kernel_page virtual_address.
