(* ===== verification/Gic.v ===== *)
(** * Interrupt controllers and interrupt dispatch

    Models [arch/aarch64/interrupt.rs] (the GICv2 and GICv3 driver), the
    interrupt part of both architectures' timer code, [arch/riscv64/interrupt.rs]
    and [runtime/trap.rs].  The hardware is an argument: a read returns what the
    device answers after the accesses made so far, which the state records in
    order. *)

From S2P Require Import Prelude Address HwInfo Trap Arm64Mmu.
From stdpp Require Import base tactics option list list_numbers numbers gmap strings.

#[local] Open Scope Z_scope.
#[local] Open Scope kernel_scope.

Definition TIMER_PPI : Z := 30.
Definition GIC_SPECIAL_INTERRUPT_START : Z := 1020.
Definition GIC_SPECIAL_INTERRUPT_END : Z := 1023.

(** ** Accesses *)

Inductive GicRegister := ICC_SRE_EL1 | ICC_PMR_EL1 | ICC_IGRPEN1_EL1 | ICC_IAR1_EL1 | ICC_EOIR1_EL1.

(** What the code does to the hardware, and the call of the clock's handler. *)
Inductive DeviceOp :=
  | Read32 (address : VirtualAddress) (value : Z)
  | Write32 (address : VirtualAddress) (value : Z)
  | Write8 (address : VirtualAddress) (value : Z)
  | ReadRegister (r : GicRegister) (value : Z)
  | WriteRegister (r : GicRegister) (value : Z)
  | Isb
  | DsbSystem
  | EnableLocalTimer
  | EnableInterrupts
  | TimerHandled.

Record GicV2 := { v2_distributor : VirtualAddress; v2_cpu_interface : VirtualAddress }.
Record GicV3 := { v3_distributor : VirtualAddress; v3_redistributor : VirtualAddress }.
Inductive Gic := V2 (gic : GicV2) | V3 (gic : GicV3).

(** [GIC_READY], [GIC_SLOT], the accesses so far, latest first, and the rest of
    the kernel. *)
Record Irq (K : Type) := {
  gic_ready : bool;
  gic_slot : option Gic;
  gic_ops : list DeviceOp;
  irq_kernel : K;
}.
Arguments gic_ready {K}.
Arguments gic_slot {K}.
Arguments gic_ops {K}.
Arguments irq_kernel {K}.

Definition is_gic_special_interrupt (intid : Z) : bool :=
  (GIC_SPECIAL_INTERRUPT_START <=? intid) && (intid <=? GIC_SPECIAL_INTERRUPT_END).

Section Driver.
Context {K : Type}.
(** What a 32-bit device register or an interrupt system register answers. *)
Variable device : list DeviceOp -> VirtualAddress -> Z.
Variable system_register : list DeviceOp -> GicRegister -> Z.
(** [crate::runtime::clock::handle_timer_irq]. *)
Variable handle_timer_irq : M K unit.

Definition log (op : DeviceOp) : M (Irq K) unit := modify (fun s => {|
  gic_ready := gic_ready s; gic_slot := gic_slot s; gic_ops := op :: gic_ops s; irq_kernel := irq_kernel s |}).
Definition read32 (address : VirtualAddress) : M (Irq K) Z :=
  let! ops := gets gic_ops in
  let value := device ops address mod 2 ^ 32 in
  log (Read32 address value) ;;; ret value.
Definition read_register (width : Z) (r : GicRegister) : M (Irq K) Z :=
  let! ops := gets gic_ops in
  let value := system_register ops r mod 2 ^ width in
  log (ReadRegister r value) ;;; ret value.
(** [address.checked_add(offset).unwrap()] *)
Definition register_at {S} (base : VirtualAddress) (offset : Z) : M S VirtualAddress :=
  expect "called `Option::unwrap()` on a `None` value" (VirtualAddress_checked_add base offset).
Definition write32_at (base : VirtualAddress) (offset value : Z) : M (Irq K) unit :=
  let! address := register_at base offset in log (Write32 address value).
Definition write8_at (base : VirtualAddress) (offset value : Z) : M (Irq K) unit :=
  let! address := register_at base offset in log (Write8 address value).
Definition read32_at (base : VirtualAddress) (offset : Z) : M (Irq K) Z :=
  let! address := register_at base offset in read32 address.

(** ** GICv2 *)

Definition GICC_CONTROL : Z := 0x000.
Definition GICC_PRIORITY_MASK : Z := 0x004.
Definition GICC_INTERRUPT_ACKNOWLEDGE : Z := 0x00c.
Definition GICC_END_OF_INTERRUPT : Z := 0x010.
Definition V2_GICD_CONTROL : Z := 0x000.
Definition GICD_INTERRUPT_SET_ENABLE : Z := 0x100.
Definition GICD_INTERRUPT_PRIORITY : Z := 0x400.

Definition GicV2_new (distributor cpu_interface : PhysicalAddress) : GicV2 := {|
  v2_distributor := physical_to_virtual distributor; v2_cpu_interface := physical_to_virtual cpu_interface |}.

Definition GicV2_init (g : GicV2) : M (Irq K) unit :=
  write32_at (v2_distributor g) V2_GICD_CONTROL 0 ;;;
  write32_at (v2_distributor g) V2_GICD_CONTROL 1 ;;;
  write32_at (v2_cpu_interface g) GICC_PRIORITY_MASK 0xff ;;;
  write32_at (v2_cpu_interface g) GICC_CONTROL 1.

Definition GicV2_enable_timer_interrupt (g : GicV2) : M (Irq K) unit :=
  write8_at (v2_distributor g) (GICD_INTERRUPT_PRIORITY + TIMER_PPI) 0x80 ;;;
  write32_at (v2_distributor g) GICD_INTERRUPT_SET_ENABLE (Z.shiftl 1 TIMER_PPI).

Definition GicV2_acknowledge (g : GicV2) : M (Irq K) Z :=
  let! value := read32_at (v2_cpu_interface g) GICC_INTERRUPT_ACKNOWLEDGE in
  ret (Z.land value 0x3ff).

Definition GicV2_end_of_interrupt (g : GicV2) (intid : Z) : M (Irq K) unit :=
  write32_at (v2_cpu_interface g) GICC_END_OF_INTERRUPT intid ;;; log Isb.

(** ** GICv3 *)

Definition V3_GICD_CONTROL : Z := 0x0000.
Definition GICD_CONTROL_ARE_NS : Z := Z.shiftl 1 4.
Definition GICD_CONTROL_ENABLE_G1NS : Z := Z.shiftl 1 1.
Definition GICR_SGI_BASE : Z := 0x10000.
Definition GICR_WAKER : Z := 0x0014.
Definition GICR_IGROUPR0 : Z := 0x0080.
Definition GICR_INTERRUPT_PRIORITY : Z := 0x0400.
Definition GICR_INTERRUPT_SET_ENABLE : Z := 0x0100.
Definition GICR_WAKER_CHILDREN_ASLEEP : Z := Z.shiftl 1 2.
Definition GICR_WAKER_PROCESSOR_SLEEP : Z := Z.shiftl 1 1.
Definition ICC_SRE_ENABLE_SYSTEM_REGISTERS : Z := Z.shiftl 1 0.
Definition WAKE_RETRY_BUDGET : Z := 1000000.

Definition GicV3_new (distributor redistributor : PhysicalAddress) : GicV3 := {|
  v3_distributor := physical_to_virtual distributor; v3_redistributor := physical_to_virtual redistributor |}.

Definition enable_gic_system_register_interface : M (Irq K) unit :=
  let! sre := read_register 64 ICC_SRE_EL1 in
  log (WriteRegister ICC_SRE_EL1 (Z.lor sre ICC_SRE_ENABLE_SYSTEM_REGISTERS)) ;;;
  log Isb.

(** The [for _ in 0..WAKE_RETRY_BUDGET] loop; [true] is [awake]. *)
Fixpoint wait_awake (g : GicV3) (budget : nat) : M (Irq K) bool :=
  match budget with
  | O => ret false
  | S budget =>
      let! waker := read32_at (v3_redistributor g) GICR_WAKER in
      if Z.land waker GICR_WAKER_CHILDREN_ASLEEP =? 0 then ret true else wait_awake g budget
  end.

Definition GicV3_init (g : GicV3) : M (Irq K) unit :=
  enable_gic_system_register_interface ;;;
  let! control := read32_at (v3_distributor g) V3_GICD_CONTROL in
  write32_at (v3_distributor g) V3_GICD_CONTROL
    (Z.lor (Z.lor control GICD_CONTROL_ARE_NS) GICD_CONTROL_ENABLE_G1NS) ;;;
  log DsbSystem ;;;
  log Isb ;;;
  let! waker := read32_at (v3_redistributor g) GICR_WAKER in
  write32_at (v3_redistributor g) GICR_WAKER (Z.land waker (not_uint 32 GICR_WAKER_PROCESSOR_SLEEP)) ;;;
  let! awake := wait_awake g (Z.to_nat WAKE_RETRY_BUDGET) in
  if negb awake then panic "gicv3: redistributor wake timeout"
  else
    log (WriteRegister ICC_PMR_EL1 0xff) ;;;
    log (WriteRegister ICC_IGRPEN1_EL1 1) ;;;
    log Isb ;;;
    log DsbSystem.

Definition GicV3_enable_timer_interrupt (g : GicV3) : M (Irq K) unit :=
  let! sgi := register_at (v3_redistributor g) GICR_SGI_BASE in
  let! group := read32_at sgi GICR_IGROUPR0 in
  write32_at sgi GICR_IGROUPR0 (Z.lor group (Z.shiftl 1 TIMER_PPI)) ;;;
  write8_at sgi (GICR_INTERRUPT_PRIORITY + TIMER_PPI) 0x80 ;;;
  write32_at sgi GICR_INTERRUPT_SET_ENABLE (Z.shiftl 1 TIMER_PPI) ;;;
  log Isb.

Definition GicV3_acknowledge (g : GicV3) : M (Irq K) Z := read_register 32 ICC_IAR1_EL1.
Definition GicV3_end_of_interrupt (g : GicV3) (intid : Z) : M (Irq K) unit :=
  log (WriteRegister ICC_EOIR1_EL1 intid) ;;; log Isb.

(** ** The active controller *)

Definition Gic_init (g : Gic) : M (Irq K) unit := match g with V2 g => GicV2_init g | V3 g => GicV3_init g end.
Definition Gic_enable_timer_interrupt (g : Gic) : M (Irq K) unit :=
  match g with V2 g => GicV2_enable_timer_interrupt g | V3 g => GicV3_enable_timer_interrupt g end.
Definition Gic_acknowledge (g : Gic) : M (Irq K) Z :=
  match g with V2 g => GicV2_acknowledge g | V3 g => GicV3_acknowledge g end.
Definition Gic_end_of_interrupt (g : Gic) (intid : Z) : M (Irq K) unit :=
  match g with V2 g => GicV2_end_of_interrupt g intid | V3 g => GicV3_end_of_interrupt g intid end.

Definition with_gic {A} (f : Gic -> M (Irq K) A) : M (Irq K) (option A) :=
  let! ready := gets gic_ready in
  if negb ready then ret None
  else
    let! slot := gets gic_slot in
    match slot with
    | Some g => let! a := f g in ret (Some a)
    | None => ret None
    end.

Definition gic_of (info : HardwareInfo) : M (Irq K) Gic :=
  match interrupt_controller (features info) with
  | None => panic "gic: missing interrupt controller"
  | Some (InfoGicV2 distributor_base cpu_interface_base) =>
      let! cpu_interface := expect "gicv2: missing cpu interface" cpu_interface_base in
      ret (V2 (GicV2_new distributor_base cpu_interface))
  | Some (InfoGicV3 distributor_base redistributor_base) =>
      let! redistributor := expect "gicv3: missing redistributor" redistributor_base in
      ret (V3 (GicV3_new distributor_base redistributor))
  end.
Definition gic_init (info : HardwareInfo) : M (Irq K) unit :=
  let! g := gic_of info in
  Gic_init g ;;;
  modify (fun s => {| gic_ready := true; gic_slot := Some g; gic_ops := gic_ops s; irq_kernel := irq_kernel s |}).

Definition enable_timer_interrupt : M (Irq K) unit := let! _ := with_gic Gic_enable_timer_interrupt in ret tt.
Definition acknowledge : M (Irq K) (option Z) := with_gic Gic_acknowledge.
Definition end_of_interrupt (intid : Z) : M (Irq K) unit :=
  let! _ := with_gic (fun g => Gic_end_of_interrupt g intid) in ret tt.

(** [timer::enable] on ARM64. *)
Definition arm64_timer_enable : M (Irq K) unit :=
  enable_timer_interrupt ;;; log EnableLocalTimer ;;; log EnableInterrupts.

Definition run_timer_irq : M (Irq K) unit := fun s =>
  match handle_timer_irq (irq_kernel s) with
  | Done (_, k) => Done (tt, {| gic_ready := gic_ready s; gic_slot := gic_slot s;
                                gic_ops := TimerHandled :: gic_ops s; irq_kernel := k |})
  | Panic msg => Panic msg
  | Undefined => Undefined
  | OutOfFuel => OutOfFuel
  end.

Definition arm64_handle_timer_interrupt (cause : option TrapCause) : M (Irq K) bool :=
  let! intid := acknowledge in
  match intid with
  | None => ret false
  | Some intid =>
      if is_gic_special_interrupt intid then ret false
      else if intid =? TIMER_PPI then
        run_timer_irq ;;;
        end_of_interrupt intid ;;;
        ret true
      else
        end_of_interrupt intid ;;;
        ret false
  end.

(** [interrupt.rs] of RISC-V. *)
Definition riscv_handle_timer_interrupt (cause : option TrapCause) : M (Irq K) bool :=
  let timer :=
    match cause with
    | None => true
    | Some cause => match interrupt_kind cause with Some SupervisorTimer => true | _ => false end
    end in
  if timer then run_timer_irq ;;; ret true else ret false.

(** ** Dispatch *)

Variable handle_timer_interrupt : option TrapCause -> M (Irq K) bool.
(** [kernel::task::preempt_from_trap(switch_context)]; its result is ignored. *)
Variable preempt_from_trap : M K unit.

Definition run_preempt : M (Irq K) unit := fun s =>
  match preempt_from_trap (irq_kernel s) with
  | Done (_, k) => Done (tt, {| gic_ready := gic_ready s; gic_slot := gic_slot s;
                                gic_ops := gic_ops s; irq_kernel := k |})
  | Panic msg => Panic msg
  | Undefined => Undefined
  | OutOfFuel => OutOfFuel
  end.

(** Printing a report and [halt]: the CPU stops. *)
Definition panic_trap {A} (report : TrapReport) : M (Irq K) A := panic "[TRAP]".

Definition handle_kernel_trap `{TrapFrameSnapshot Frame} (frame : Frame) : M (Irq K) unit :=
  match dispatch_kernel_trap frame with
  | TrapReturn => ret tt
  | TrapPanic report => panic_trap report
  end.
Definition handle_kernel_interrupt `{TrapFrameSnapshot Frame} (frame : Frame) : M (Irq K) unit :=
  let! handled := handle_timer_interrupt (Some (frame_cause frame)) in
  if (handled : bool) then run_preempt else panic_trap (TrapReport_from_frame frame).
Definition handle_fast_interrupt : M (Irq K) unit :=
  let! handled := handle_timer_interrupt None in
  if negb handled then panic "[TRAP] unhandled interrupt" else run_preempt.

(** The handler that the RISC-V trap entry calls. *)
Definition riscv_handle_kernel_trap (frame : Riscv64TrapFrame) : M (Irq K) unit :=
  if is_interrupt (frame_cause frame) then handle_kernel_interrupt frame else handle_kernel_trap frame.
End Driver.

(** ** Rules *)

(** The registers that the driver uses lie below the end of the address space. *)
Definition gic_fits (g : Gic) : Prop :=
  match g with
  | V2 g => 0 <= v2_distributor g /\ v2_distributor g + 0x1000 <= 2 ^ 64 /\
      0 <= v2_cpu_interface g /\ v2_cpu_interface g + 0x1000 <= 2 ^ 64
  | V3 g => 0 <= v3_distributor g /\ v3_distributor g + 0x10000 <= 2 ^ 64 /\
      0 <= v3_redistributor g /\ v3_redistributor g + 0x20000 <= 2 ^ 64
  end.

Lemma register_at_run {S} base offset (s : S) :
  base + offset < 2 ^ 64 -> register_at base offset s = Done (base + offset, s).
Proof.
  intros Hf. unfold register_at, VirtualAddress_checked_add, checked_add.
  by rewrite (proj2 (Z.ltb_lt _ _) Hf).
Qed.

Section Rules.
Context {K : Type} (device : list DeviceOp -> VirtualAddress -> Z) (system_register : list DeviceOp -> GicRegister -> Z).
Context (handle_timer_irq : M K unit).
Implicit Types s : Irq K.

Definition with_ops (ops : list DeviceOp) s : Irq K := {|
  gic_ready := gic_ready s; gic_slot := gic_slot s; gic_ops := ops; irq_kernel := irq_kernel s |}.

Lemma write32_at_run base offset v s :
  base + offset < 2 ^ 64 -> write32_at base offset v s = Done (tt, with_ops (Write32 (base + offset) v :: gic_ops s) s).
Proof. intros Hf. unfold write32_at, bind. by rewrite register_at_run. Qed.
Lemma write8_at_run base offset v s :
  base + offset < 2 ^ 64 -> write8_at base offset v s = Done (tt, with_ops (Write8 (base + offset) v :: gic_ops s) s).
Proof. intros Hf. unfold write8_at, bind. by rewrite register_at_run. Qed.
Lemma read32_at_run base offset s :
  base + offset < 2 ^ 64 -> let v := device (gic_ops s) (base + offset) mod 2 ^ 32 in
  read32_at device base offset s = Done (v, with_ops (Read32 (base + offset) v :: gic_ops s) s).
Proof. intros Hf. unfold read32_at, bind. by rewrite register_at_run. Qed.

(** ** One interrupt *)

(** The read that acknowledges an interrupt, and the interrupt it names. *)
Definition acknowledge_op (g : Gic) (ops : list DeviceOp) : DeviceOp * Z :=
  match g with
  | V2 g => let v := device ops (v2_cpu_interface g + GICC_INTERRUPT_ACKNOWLEDGE) mod 2 ^ 32 in
            (Read32 (v2_cpu_interface g + GICC_INTERRUPT_ACKNOWLEDGE) v, Z.land v 0x3ff)
  | V3 g => let v := system_register ops ICC_IAR1_EL1 mod 2 ^ 32 in (ReadRegister ICC_IAR1_EL1 v, v)
  end.
(** The write that completes it. *)
Definition completion_op (g : Gic) (intid : Z) : DeviceOp :=
  match g with
  | V2 g => Write32 (v2_cpu_interface g + GICC_END_OF_INTERRUPT) intid
  | V3 _ => WriteRegister ICC_EOIR1_EL1 intid
  end.

Lemma acknowledge_run g s :
  gic_ready s = true -> gic_slot s = Some g -> gic_fits g ->
  acknowledge device system_register s =
    Done (Some (acknowledge_op g (gic_ops s)).2, with_ops ((acknowledge_op g (gic_ops s)).1 :: gic_ops s) s).
Proof.
  intros Hr Hs Hf. destruct s as [rd sl ops k]. cbn in Hr, Hs. subst rd sl.
  unfold acknowledge, with_gic, bind, gets. cbn [negb gic_ready gic_slot].
  destruct g as [g|g]; [|done]. destruct Hf as (_ & _ & H0 & Hf). cbn [Gic_acknowledge].
  unfold GicV2_acknowledge, bind. rewrite read32_at_run by (unfold GICC_INTERRUPT_ACKNOWLEDGE; lia). done.
Qed.
Lemma end_of_interrupt_run g s intid :
  gic_ready s = true -> gic_slot s = Some g -> gic_fits g ->
  end_of_interrupt intid s = Done (tt, with_ops (Isb :: completion_op g intid :: gic_ops s) s).
Proof.
  intros Hr Hs Hf. destruct s as [rd sl ops k]. cbn in Hr, Hs. subst rd sl.
  unfold end_of_interrupt, with_gic, bind, gets. cbn [negb gic_ready gic_slot].
  destruct g as [g|g]; [|done]. destruct Hf as (_ & _ & H0 & Hf). cbn [Gic_end_of_interrupt].
  unfold GicV2_end_of_interrupt, bind. rewrite write32_at_run by (unfold GICC_END_OF_INTERRUPT; lia). done.
Qed.

(** What one interrupt adds to the accesses. *)
Definition interrupt_log (g : Gic) (ack : DeviceOp) (intid : Z) : list DeviceOp :=
  if is_gic_special_interrupt intid then [ack]
  else if intid =? TIMER_PPI then [Isb; completion_op g intid; TimerHandled; ack]
  else [Isb; completion_op g intid; ack].

Lemma interrupt_run cause g s :
  gic_ready s = true -> gic_slot s = Some g -> gic_fits g ->
  let '(ack, intid) := acknowledge_op g (gic_ops s) in
  arm64_handle_timer_interrupt device system_register handle_timer_irq cause s =
    if intid =? TIMER_PPI then
      match handle_timer_irq (irq_kernel s) with
      | Done (_, k) => Done (true, {| gic_ready := true; gic_slot := Some g;
                                      gic_ops := interrupt_log g ack intid ++ gic_ops s; irq_kernel := k |})
      | Panic msg => Panic msg
      | Undefined => Undefined
      | OutOfFuel => OutOfFuel
      end
    else Done (false, with_ops (interrupt_log g ack intid ++ gic_ops s) s).
Proof.
  intros Hr Hs Hf. pose proof (acknowledge_run g s Hr Hs Hf) as Hack.
  destruct (acknowledge_op g (gic_ops s)) as [ack intid]. cbn [fst snd] in Hack.
  unfold arm64_handle_timer_interrupt. unfold bind at 1. rewrite Hack. clear Hack. unfold interrupt_log.
  destruct s as [rd sl ops k]. cbn [gic_ready gic_slot gic_ops irq_kernel with_ops] in *. subst rd sl.
  destruct (Z.eqb_spec intid TIMER_PPI) as [->|Hne].
  - change (is_gic_special_interrupt TIMER_PPI) with false. cbn [andb orb]. unfold bind, run_timer_irq. cbn -[end_of_interrupt].
    destruct (handle_timer_irq k) as [[[] k']| | |]; [|done..].
    by rewrite (end_of_interrupt_run g).
  - destruct (is_gic_special_interrupt intid); [done|]. unfold bind. by rewrite (end_of_interrupt_run g).
Qed.

(** ** Any number of interrupts *)

Definition interrupt_step (s s' : Irq K) : Prop :=
  exists cause handled, arm64_handle_timer_interrupt device system_register handle_timer_irq cause s = Done (handled, s').

(** The accesses that serving [intids], latest first, adds to [ops]. *)
Inductive served (g : Gic) (ops : list DeviceOp) : list Z -> list DeviceOp -> Prop :=
  | served_none : served g ops [] ops
  | served_one intids ops' ack intid :
      served g ops intids ops' -> acknowledge_op g ops' = (ack, intid) ->
      served g ops (intid :: intids) (interrupt_log g ack intid ++ ops').

(** (C35) Once the controller is ready, with register addresses that fit, and
    whatever interrupts it raises whose handlers return, each is
    acknowledged by one read; if the number read is not one of the special ones
    it is completed by one write of the same number before the next interrupt is
    acknowledged, and the special ones never are; the clock's handler runs
    exactly once for each timer interrupt, between its acknowledgement and its
    completion, and nothing else touches the rest of the kernel. *)
Theorem gic_completes_interrupts g s s' :
  gic_ready s = true -> gic_slot s = Some g -> gic_fits g -> rtc interrupt_step s s' ->
  gic_ready s' = true /\ gic_slot s' = Some g /\
  exists intids, served g (gic_ops s) intids (gic_ops s') /\
    nsteps (fun k k' => handle_timer_irq k = Done (tt, k')) (length (filter (.= TIMER_PPI) intids))
      (irq_kernel s) (irq_kernel s').
Proof.
  intros Hr Hs Hf Hrtc. revert s' Hrtc. apply rtc_ind_r.
  - split_and!; [done..|]. exists []. split; constructor.
  - intros s1 s2 _ (cause & handled & Hrun) (Hr1 & Hs1 & intids & Hserved & Hk).
    pose proof (interrupt_run cause g s1 Hr1 Hs1 Hf) as Hspec.
    destruct (acknowledge_op g (gic_ops s1)) as [ack intid] eqn:Hack. rewrite Hspec in Hrun. clear Hspec.
    destruct (Z.eqb_spec intid TIMER_PPI) as [Heq|Hne].
    + rewrite Heq in Hack, Hrun. destruct (handle_timer_irq (irq_kernel s1)) as [[[] k]| | |] eqn:Hh; [|done..]. injection Hrun as <- <-.
      split_and!; [done..|]. exists (TIMER_PPI :: intids). cbn [gic_ops irq_kernel]. split; [exact (served_one _ _ _ _ _ _ Hserved Hack)|].
      rewrite filter_cons_True by done. cbn [length]. by eapply nsteps_r.
    + injection Hrun as <- <-. split_and!; [done..|]. exists (intid :: intids). cbn [gic_ops irq_kernel with_ops].
      split; [exact (served_one _ _ _ _ _ _ Hserved Hack)|]. by rewrite filter_cons_False by done.
Qed.

(** Before [init] the controller is not touched. *)
Lemma gic_not_ready cause s :
  gic_ready s = false ->
  arm64_handle_timer_interrupt device system_register handle_timer_irq cause s = Done (false, s).
Proof.
  intros Hr. unfold arm64_handle_timer_interrupt, acknowledge, with_gic, bind, gets. rewrite Hr. done.
Qed.

(** ** Dispatch *)

Section Dispatch.
Context (preempt_from_trap : M K unit).

(** (C36) The fast interrupt path on ARM64: a timer interrupt runs the clock's
    handler, completes the interrupt and then preempts; every other interrupt,
    a spurious one (special number) included, stops the CPU. *)
Theorem arm64_fast_interrupt g s :
  gic_ready s = true -> gic_slot s = Some g -> gic_fits g ->
  let '(ack, intid) := acknowledge_op g (gic_ops s) in
  let run := handle_fast_interrupt (arm64_handle_timer_interrupt device system_register handle_timer_irq)
               preempt_from_trap s in
  (intid <> TIMER_PPI -> run = Panic "[TRAP] unhandled interrupt") /\
  (intid = TIMER_PPI -> forall k k',
     handle_timer_irq (irq_kernel s) = Done (tt, k) -> preempt_from_trap k = Done (tt, k') ->
     run = Done (tt, {| gic_ready := true; gic_slot := Some g;
                        gic_ops := [Isb; completion_op g TIMER_PPI; TimerHandled; ack] ++ gic_ops s; irq_kernel := k' |})).
Proof.
  intros Hr Hs Hf. pose proof (interrupt_run None g s Hr Hs Hf) as Hrun.
  destruct (acknowledge_op g (gic_ops s)) as [ack intid]. unfold handle_fast_interrupt, bind. cbn zeta. split.
  - intros Hne. rewrite Hrun, (proj2 (Z.eqb_neq _ _) Hne). done.
  - intros -> k k' Hk Hk'. rewrite Hrun, Z.eqb_refl, Hk. cbn [negb]. unfold run_preempt. cbn [irq_kernel]. by rewrite Hk'.
Qed.

(** The kernel's part of a RISC-V timer interrupt. *)
Definition timer_round_kernel (k k' : K) : Prop :=
  exists k1, handle_timer_irq k = Done (tt, k1) /\ preempt_from_trap k1 = Done (tt, k').

(** The trap handler on RISC-V, for every value of [scause]: the supervisor
    timer interrupt runs the clock's handler and then preempts; every other
    interrupt and every exception stops the CPU. *)
Theorem riscv_trap_dispatch s frame :
  is_uint 64 (riscv64_scause frame) ->
  let run := riscv_handle_kernel_trap (riscv_handle_timer_interrupt handle_timer_irq) preempt_from_trap frame s in
  (riscv64_scause frame <> 2 ^ 63 + 5 -> run = Panic "[TRAP]") /\
  (riscv64_scause frame = 2 ^ 63 + 5 -> forall k', timer_round_kernel (irq_kernel s) k' ->
     run = Done (tt, {| gic_ready := gic_ready s; gic_slot := gic_slot s;
                        gic_ops := TimerHandled :: gic_ops s; irq_kernel := k' |})).
Proof.
  intros Hu run. unfold run, riscv_handle_kernel_trap, handle_kernel_interrupt, bind. cbn [frame_cause Riscv64TrapFrame_snapshot].
  destruct (decode_supervisor_cause_exact _ Hu) as (_ & Hint & Htimer & _).
  unfold riscv64_cause in *. set (cause := decode_supervisor_cause (riscv64_scause frame)) in *. split.
  - intros Hne. destruct (is_interrupt cause); [|done]. unfold riscv_handle_timer_interrupt.
    destruct (interrupt_kind cause) as [[]|] eqn:Hkind; try done. exfalso. by apply Hne, Htimer.
  - intros Heq k' (k1 & Hk & Hk'). rewrite (proj2 Hint) by lia. unfold riscv_handle_timer_interrupt.
    rewrite (proj2 Htimer Heq). unfold run_timer_irq, bind. rewrite Hk. unfold ret, run_preempt. cbn [irq_kernel]. by rewrite Hk'.
Qed.
End Dispatch.

(** ** Bringing the controller up *)

(** The values [reads], latest first, are what the register at [w] answered. *)
Fixpoint answers (w : VirtualAddress) (ops : list DeviceOp) (reads : list Z) : Prop :=
  match reads with
  | [] => True
  | v :: rest => v = device (map (Read32 w) rest ++ ops) w mod 2 ^ 32 /\ answers w ops rest
  end.
Definition asleep (waker : Z) : Prop := Z.land waker GICR_WAKER_CHILDREN_ASLEEP <> 0.

Lemma answers_snoc w ops reads v :
  v = device ops w mod 2 ^ 32 -> answers w (Read32 w v :: ops) reads -> answers w ops (reads ++ [v]).
Proof.
  intros Hv. induction reads as [|x reads IH]; [done|]. intros [Hx Ha]. split; [|by apply IH].
  by rewrite map_app, <-(assoc_L (++)).
Qed.

Lemma wait_awake_run g budget s :
  v3_redistributor g + GICR_WAKER < 2 ^ 64 -> let w := v3_redistributor g + GICR_WAKER in
  exists reads, answers w (gic_ops s) reads /\
    ((length reads = budget /\ Forall asleep reads /\
      wait_awake device g budget s = Done (false, with_ops (map (Read32 w) reads ++ gic_ops s) s)) \/
     (exists v rest, reads = v :: rest /\ (length reads <= budget)%nat /\ ~ asleep v /\ Forall asleep rest /\
      wait_awake device g budget s = Done (true, with_ops (map (Read32 w) reads ++ gic_ops s) s))).
Proof.
  intros Hf w. revert s. induction budget as [|budget IH]; intros s.
  - exists []. split; [done|]. left. split_and!; [done|constructor|by destruct s].
  - cbn [wait_awake]. unfold bind. rewrite (read32_at_run _ _ s Hf). fold w. set (v := device (gic_ops s) w mod 2 ^ 32).
    set (s1 := with_ops (Read32 w v :: gic_ops s) s).
    destruct (Z.eqb_spec (Z.land v GICR_WAKER_CHILDREN_ASLEEP) 0) as [Hz|Hz].
    + exists [v]. split; [by split|]. right. exists v, []. split_and!; [done|cbn; lia|by intros ?|constructor|done].
    + destruct (IH s1) as (reads & Ha & Hcases). exists (reads ++ [v]). split; [by apply answers_snoc|].
      rewrite map_app, <-(assoc_L (++)), length_app. cbn [map app length].
      destruct Hcases as [(Hlen & Hall & ->)|(x & rest & -> & Hlen & Hx & Hall & ->)].
      * left. split_and!; [lia|apply Forall_app; by split; [|constructor]|done].
      * right. exists x, (rest ++ [v]). split_and!; [done|cbn in *; lia|done|apply Forall_app; by split; [|constructor]|done].
Qed.

(** The accesses of [GicV3::init] before it waits. *)
Definition v3_request (g : GicV3) (ops : list DeviceOp) : list DeviceOp :=
  let sre := system_register ops ICC_SRE_EL1 mod 2 ^ 64 in
  let ops := [Isb; WriteRegister ICC_SRE_EL1 (Z.lor sre 1); ReadRegister ICC_SRE_EL1 sre] ++ ops in
  let d := v3_distributor g + V3_GICD_CONTROL in
  let control := device ops d mod 2 ^ 32 in
  let ops := [Isb; DsbSystem; Write32 d (Z.lor (Z.lor control 16) 2); Read32 d control] ++ ops in
  let w := v3_redistributor g + GICR_WAKER in
  let waker := device ops w mod 2 ^ 32 in
  [Write32 w (Z.land waker (not_uint 32 2)); Read32 w waker] ++ ops.

Lemma v3_init_run g s :
  gic_fits (V3 g) -> let w := v3_redistributor g + GICR_WAKER in
  GicV3_init device system_register g s =
    match wait_awake device g (Z.to_nat WAKE_RETRY_BUDGET) (with_ops (v3_request g (gic_ops s)) s) with
    | Done (true, s') => Done (tt, with_ops ([DsbSystem; Isb; WriteRegister ICC_IGRPEN1_EL1 1; WriteRegister ICC_PMR_EL1 0xff] ++ gic_ops s') s')
    | Done (false, _) => Panic "gicv3: redistributor wake timeout"
    | Panic msg => Panic msg
    | Undefined => Undefined
    | OutOfFuel => OutOfFuel
    end.
Proof.
  intros (H1 & H2 & H3 & H4) w. unfold GicV3_init, enable_gic_system_register_interface, read_register, log, modify.
  unfold bind, gets, ret. cbn [with_ops gic_ops gic_ready gic_slot irq_kernel].
  rewrite read32_at_run by (unfold V3_GICD_CONTROL; lia). cbn [with_ops gic_ops].
  rewrite write32_at_run by (unfold V3_GICD_CONTROL; lia). cbn [with_ops gic_ops gic_ready gic_slot irq_kernel].
  rewrite read32_at_run by (unfold GICR_WAKER; lia). cbn [with_ops gic_ops gic_ready gic_slot irq_kernel].
  rewrite write32_at_run by (unfold GICR_WAKER; lia).
  match goal with |- context [wait_awake device g _ ?x] => change x with (with_ops (v3_request g (gic_ops s)) s) end.
  destruct (wait_awake device g _ _) as [[[] s']| | |]; done.
Qed.

(** [init] panics exactly when the hardware description has no interrupt
    controller, when the second register block of the controller is missing, or
    when a GICv3 redistributor still sleeps after a million reads.  Otherwise it
    returns with the controller published; a GICv2 got exactly four writes in
    order, a GICv3 the system-register interface, the distributor and the
    redistributor's wake-up, and its CPU interface is enabled only after the
    redistributor answered that it is awake. *)
Lemma gic_init_run info s :
  match interrupt_controller (features info) with
  | None => gic_init device system_register info s = Panic "gic: missing interrupt controller"
  | Some (InfoGicV2 _ None) => gic_init device system_register info s = Panic "gicv2: missing cpu interface"
  | Some (InfoGicV3 _ None) => gic_init device system_register info s = Panic "gicv3: missing redistributor"
  | Some (InfoGicV2 d (Some c)) =>
      let g := GicV2_new d c in gic_fits (V2 g) ->
      gic_init device system_register info s = Done (tt, {|
        gic_ready := true; gic_slot := Some (V2 g);
        gic_ops := [Write32 (v2_cpu_interface g) 1; Write32 (v2_cpu_interface g + 4) 0xff;
                    Write32 (v2_distributor g) 1; Write32 (v2_distributor g) 0] ++ gic_ops s;
        irq_kernel := irq_kernel s |})
  | Some (InfoGicV3 d (Some r)) =>
      let g := GicV3_new d r in let w := v3_redistributor g + GICR_WAKER in
      gic_fits (V3 g) -> exists reads, answers w (v3_request g (gic_ops s)) reads /\
      ((length reads = Z.to_nat WAKE_RETRY_BUDGET /\ Forall asleep reads /\
        gic_init device system_register info s = Panic "gicv3: redistributor wake timeout") \/
       (exists v rest, reads = v :: rest /\ (length reads <= Z.to_nat WAKE_RETRY_BUDGET)%nat /\ ~ asleep v /\ Forall asleep rest /\
        gic_init device system_register info s = Done (tt, {|
          gic_ready := true; gic_slot := Some (V3 g);
          gic_ops := [DsbSystem; Isb; WriteRegister ICC_IGRPEN1_EL1 1; WriteRegister ICC_PMR_EL1 0xff] ++
                     map (Read32 w) reads ++ v3_request g (gic_ops s);
          irq_kernel := irq_kernel s |})))
  end.
Proof.
  destruct (interrupt_controller (features info)) as [[d [c|]|d [r|]]|] eqn:Hc;
    unfold gic_init, gic_of; rewrite Hc; try done.
  - set (g := GicV2_new d c). intros (H1 & H2 & H3 & H4). unfold bind, expect, ret. cbn [Gic_init]. fold g. unfold GicV2_init, bind.
    rewrite !write32_at_run by (unfold V2_GICD_CONTROL, GICC_PRIORITY_MASK, GICC_CONTROL; lia).
    unfold V2_GICD_CONTROL, GICC_PRIORITY_MASK, GICC_CONTROL, modify. rewrite !Z.add_0_r. done.
  - set (g := GicV3_new d r). set (w := v3_redistributor g + GICR_WAKER). intros Hf. pose proof Hf as (_ & _ & H3 & H4).
    destruct (wait_awake_run g (Z.to_nat WAKE_RETRY_BUDGET) (with_ops (v3_request g (gic_ops s)) s)) as (reads & Ha & Hcases);
      [unfold GICR_WAKER; lia|]. exists reads. split; [exact Ha|].
    unfold bind, expect, ret. cbn [Gic_init]. fold g. rewrite (v3_init_run g s Hf).
    destruct Hcases as [(Hlen & Hall & ->)|(v & rest & Heq & Hlen & Hv & Hall & ->)]; [by left|right].
    exists v, rest. by split_and!.
Qed.

End Rules.

(** ** A machine whose timer fires *)

(** The device acknowledges with the number in [n]; the kernel counts ticks. *)
Definition demo_device (n : Z) (ops : list DeviceOp) (address : VirtualAddress) : Z := n.
Definition demo_register (n : Z) (ops : list DeviceOp) (r : GicRegister) : Z := n.
Definition demo_tick : M Z unit := modify (fun ticks => ticks + 1).
Definition demo_gic : GicV2 := GicV2_new 0x8000000 0x8010000.
Definition demo_up : Irq Z := {| gic_ready := true; gic_slot := Some (V2 demo_gic); gic_ops := []; irq_kernel := 0 |}.
Definition demo_served : Irq Z := {|
  gic_ready := true; gic_slot := Some (V2 demo_gic); irq_kernel := 1;
  gic_ops := [Isb; Write32 (v2_cpu_interface demo_gic + 16) 30; TimerHandled; Read32 (v2_cpu_interface demo_gic + 12) 30] |}.
Lemma demo_fits : gic_fits (V2 demo_gic).
Proof. vm_compute. repeat split; discriminate. Qed.

Lemma gic_completes_interrupts_witness :
  exists intids, served (demo_device 30) (demo_register 30) (V2 demo_gic) [] intids (gic_ops demo_served) /\
    nsteps (fun k k' => demo_tick k = Done (tt, k')) (length (filter (.= TIMER_PPI) intids)) 0 1.
Proof.
  assert (interrupt_step (demo_device 30) (demo_register 30) demo_tick demo_up demo_served) as Hstep
    by (exists None, true; vm_compute; reflexivity).
  exact (proj2 (proj2 (gic_completes_interrupts (demo_device 30) (demo_register 30) demo_tick (V2 demo_gic)
    demo_up demo_served eq_refl eq_refl demo_fits (rtc_once _ _ Hstep)))).
Defined.

(** A spurious interrupt stops the CPU. *)
Lemma arm64_fast_interrupt_witness :
  handle_fast_interrupt (arm64_handle_timer_interrupt (demo_device 1023) (demo_register 1023) demo_tick) demo_tick demo_up
    = Panic "[TRAP] unhandled interrupt".
Proof.
  exact (proj1 (arm64_fast_interrupt (demo_device 1023) (demo_register 1023) demo_tick demo_tick (V2 demo_gic)
    demo_up eq_refl eq_refl demo_fits) ltac:(discriminate)).
Defined.

Definition demo_timer_frame : Riscv64TrapFrame := {|
  riscv64_regs := []; riscv64_sp_saved := 0; riscv64_sepc := 0; riscv64_sstatus := 0;
  riscv64_scause := 2 ^ 63 + 5; riscv64_stval := 0 |}.
Lemma riscv_trap_dispatch_witness :
  exists s, riscv_handle_kernel_trap (riscv_handle_timer_interrupt demo_tick) demo_tick demo_timer_frame demo_up
    = Done (tt, s) /\ irq_kernel s = 2.
Proof.
  pose proof (proj2 (riscv_trap_dispatch demo_tick demo_tick demo_up demo_timer_frame
    ltac:(split; vm_compute; congruence)) eq_refl 2) as Hrun.
  eexists. split; [apply Hrun; by exists 1|reflexivity].
Defined.
