(* ===== verification/Console.v ===== *)
(** * Console output and the boot log

    Models [console/mod.rs], the two console devices
    ([arch/aarch64/console.rs], [arch/riscv64/console.rs]), [startup/log.rs] and
    the report that [runtime/trap.rs] prints before it halts.  A device is an
    instance of [ConsoleDevice]; [ConsoleLaws] is what the portable code relies
    on, and both devices satisfy it. *)

From S2P Require Import Prelude Address HwInfo Trap Arm64Mmu.
From stdpp Require Import base tactics option list list_numbers numbers gmap strings.
From Stdlib Require String Ascii.

#[local] Open Scope Z_scope.
#[local] Open Scope kernel_scope.

(** [text.bytes()] *)
Definition str_bytes (text : string) : list Z := map (fun c => Z.of_nat (Ascii.nat_of_ascii c)) (String.list_ascii_of_string text).

Class ConsoleDevice (S : Type) := { device_put_byte : Z -> M S unit }.

Section Console.
Context {S : Type} `{ConsoleDevice S}.

Definition put_byte (byte : Z) : M S unit :=
  (if byte =? 10 then device_put_byte 13 else ret tt) ;;;
  device_put_byte byte.
Definition print (text : string) : M S unit := for_each (str_bytes text) put_byte.

Definition lift_outcome {A} (o : outcome A) : M S A := fun s =>
  match o with
  | Done a => Done (a, s)
  | Panic msg => Panic msg
  | Undefined => Undefined
  | OutOfFuel => OutOfFuel
  end.
Definition print_hex_usize (value : Z) : M S unit :=
  print "0x" ;;;
  let! digits := lift_outcome (format_hex_usize value) in
  for_each digits put_byte.
Definition print_dec_usize (value : Z) : M S unit :=
  let! decimal := lift_outcome (format_decimal value) in
  for_each (as_bytes decimal) put_byte.
(** [fmt::Write for Console]; its result is always [Ok]. *)
Definition write_str (text : string) : M S (Result unit unit) := print text ;;; ret (Ok tt).

(** ** [startup/log.rs] *)

Definition STAGES : Z := 10.
Definition MEGABYTE : Z := 1024 * 1024.
Definition STAGE_NAME_WIDTH : nat := 9.

Definition print_two_digits (value : Z) : M S unit :=
  (if value <? 10 then print "0" else ret tt) ;;;
  print_dec_usize value.
(** [for _ in text.len()..width] *)
Definition print_padded (text : string) (width : nat) : M S unit :=
  print text ;;;
  for_each (seq (String.length text) (width - String.length text)) (fun _ => print " ").
Definition stage_prefix (number : Z) (name : string) : M S unit :=
  print "[" ;;;
  print_two_digits number ;;;
  print "/" ;;;
  print_two_digits STAGES ;;;
  print "] " ;;;
  print_padded name STAGE_NAME_WIDTH ;;;
  print " ".
(** The texts end in a newline character. *)
Definition newline : string := String (Ascii.ascii_of_nat 10) EmptyString.
Definition stage (number : Z) (name message : string) : M S unit :=
  stage_prefix number name ;;;
  print message ;;;
  print newline.

Definition log_header : M S unit := print ("[BOOT:STARTED]" ++ newline).
Definition log_uart : M S unit := stage 1 "boot" "console ready".
Definition log_trap : M S unit := stage 2 "trap" "exception handlers set".
Definition log_mmu : M S unit := stage 3 "mmu" "virtual memory enabled".
Definition log_virt : M S unit := stage 4 "mmu" "low addresses unmapped".
Definition log_dtb (info : HardwareInfo) : M S unit :=
  stage_prefix 5 "hwinfo" ;;;
  print_dec_usize (cpu_count_found info) ;;;
  print " cpus, " ;;;
  print_dec_usize (total_memory info / MEGABYTE) ;;;
  print (" MB" ++ newline) ;;;
  (if 0 <? dropped_memory_regions info then
     stage_prefix 5 "hwinfo" ;;;
     print "warning: dropped " ;;;
     print_dec_usize (dropped_memory_regions info) ;;;
     print (" memory region(s) (limit reached)" ++ newline)
   else ret tt) ;;;
  (if 0 <? dropped_reserved_regions info then
     stage_prefix 5 "hwinfo" ;;;
     print "warning: dropped " ;;;
     print_dec_usize (dropped_reserved_regions info) ;;;
     print (" reserved region(s) (limit reached)" ++ newline)
   else ret tt).
(** [arena_count] and [total_pages] are the answers of the page allocator. *)
Definition log_pmm (arena_count total_pages : Z) : M S unit :=
  stage_prefix 6 "pmm" ;;;
  print_dec_usize arena_count ;;;
  print " arenas, " ;;;
  print_dec_usize total_pages ;;;
  print (" pages" ++ newline).
Definition log_trace : M S unit := stage 7 "trace" "ring ready".
Definition log_clock : M S unit := stage 8 "clock" "timer ready".
Definition log_task : M S unit := stage 9 "task" "scheduler ready".
Definition log_idle : M S unit := stage 10 "task" "entering idle thread".

(** ** The report of a fatal trap *)

Definition print_trap_report (report : TrapReport) : M S unit :=
  print (newline ++ "[TRAP:") ;;;
  print (report_architecture_name report) ;;;
  print ("]" ++ newline) ;;;
  print "pc = " ;;;
  print_hex_usize (report_program_counter report) ;;;
  print newline ;;;
  print "cause = " ;;;
  print (cause_name (report_cause report)) ;;;
  print " (" ;;;
  print_hex_usize (cause_raw (report_cause report)) ;;;
  print ")" ;;;
  print newline ;;;
  print "fault = " ;;;
  print_hex_usize (report_fault_address report) ;;;
  print newline ;;;
  print "origin = " ;;;
  print (if report_from_user report then "user" else "kernel") ;;;
  print newline.
End Console.

(** ** The PL011 of ARM64 *)

Definition UART0_PHYSICAL_BASE : Z := 0x09000000.
Definition UART_FR_TXFF : Z := Z.shiftl 1 5.

Inductive UartOp :=
  | UartRead (address value : Z)
  | UartWrite (address byte : Z).
(** [UART_BASE] and the accesses so far, latest first. *)
Record Uart := { uart_base : Z; uart_ops : list UartOp }.

Section Pl011.
(** What the flag register answers after the accesses made so far. *)
Variable device : list UartOp -> Z -> Z.

Definition uart_log (op : UartOp) (s : Uart) : Uart := {| uart_base := uart_base s; uart_ops := op :: uart_ops s |}.
Definition uart_tx_full : M Uart bool :=
  let! base := gets uart_base in
  let! flags := add_uint 64 base 0x18 in
  let! ops := gets uart_ops in
  let value := device ops flags mod 2 ^ 32 in
  modify (uart_log (UartRead flags value)) ;;;
  ret (negb (Z.land value UART_FR_TXFF =? 0)).
(** The [while uart_tx_full()] loop. *)
Fixpoint wait_tx (fuel : nat) : M Uart unit :=
  match fuel with
  | O => out_of_fuel
  | S fuel => let! full := uart_tx_full in if (full : bool) then wait_tx fuel else ret tt
  end.
Definition pl011_put_byte (patience : nat) (byte : Z) : M Uart unit :=
  wait_tx patience ;;;
  let! data := gets uart_base in
  modify (uart_log (UartWrite data byte)).
Definition arm64_console_post_mmu_init : M Uart unit :=
  modify (fun s => {| uart_base := physical_to_virtual UART0_PHYSICAL_BASE; uart_ops := uart_ops s |}).
End Pl011.

(** ** The SBI console of RISC-V *)

(** The registers of an [ecall]. *)
Record Ecall := { ecall_a0 : Z; ecall_a6 : Z; ecall_a7 : Z }.
Definition sbi_putchar (byte : Z) : M (list Ecall) unit :=
  modify (cons {| ecall_a0 := byte; ecall_a6 := 0; ecall_a7 := 1 |}).
Definition riscv_console_post_mmu_init : M (list Ecall) unit := ret tt.

(** ** What the portable code relies on *)

Class ConsoleLaws (S : Type) `{ConsoleDevice S} := {
  console_ready : S -> Prop;
  (** The bytes that left, in order. *)
  console_sent : S -> list Z;
  device_put_byte_sent b s : console_ready s ->
    wp (device_put_byte b) (fun _ s' => console_ready s' /\ console_sent s' = console_sent s ++ [b]) s;
}.

(** The bytes of a text on the wire: a carriage return before each newline. *)
Definition wire_byte (b : Z) : list Z := if b =? 10 then [13; 10] else [b].
Definition on_wire (text : list Z) : list Z := text ≫= wire_byte.

(** The decimal and hexadecimal digits of a number. *)
Definition dec_text (v : Z) : list Z := match format_decimal v with Done d => as_bytes d | _ => [] end.
Definition hex_text (v : Z) : list Z := str_bytes "0x" ++ match format_hex_usize v with Done b => b | _ => [] end.

Definition two_digit_text (v : Z) : list Z := (if v <? 10 then str_bytes "0" else []) ++ dec_text v.
Definition prefix_text (number : Z) (name : string) : list Z :=
  str_bytes "[" ++ two_digit_text number ++ str_bytes "/10] " ++ str_bytes name ++
  replicate (STAGE_NAME_WIDTH - String.length name) 32 ++ str_bytes " ".
Definition stage_text (number : Z) (name message : string) : list Z :=
  prefix_text number name ++ str_bytes message ++ [10].
Definition warning_text (dropped : Z) (what : string) : list Z :=
  if 0 <? dropped then
    prefix_text 5 "hwinfo" ++ str_bytes "warning: dropped " ++ dec_text dropped ++
    str_bytes what ++ str_bytes " region(s) (limit reached)" ++ [10]
  else [].
Definition dtb_text (info : HardwareInfo) : list Z :=
  prefix_text 5 "hwinfo" ++ dec_text (cpu_count_found info) ++ str_bytes " cpus, " ++
  dec_text (total_memory info / MEGABYTE) ++ str_bytes " MB" ++ [10] ++
  warning_text (dropped_memory_regions info) " memory" ++ warning_text (dropped_reserved_regions info) " reserved".
Definition pmm_text (arenas pages : Z) : list Z :=
  prefix_text 6 "pmm" ++ dec_text arenas ++ str_bytes " arenas, " ++ dec_text pages ++ str_bytes " pages" ++ [10].
Definition report_text (r : TrapReport) : list Z :=
  [10] ++ str_bytes "[TRAP:" ++ str_bytes (report_architecture_name r) ++ str_bytes "]" ++ [10] ++
  str_bytes "pc = " ++ hex_text (report_program_counter r) ++ [10] ++
  str_bytes "cause = " ++ str_bytes (cause_name (report_cause r)) ++ str_bytes " (" ++
  hex_text (cause_raw (report_cause r)) ++ str_bytes ")" ++ [10] ++
  str_bytes "fault = " ++ hex_text (report_fault_address r) ++ [10] ++
  str_bytes "origin = " ++ str_bytes (if report_from_user r then "user" else "kernel") ++ [10].

Lemma on_wire_app t1 t2 : on_wire (t1 ++ t2) = on_wire t1 ++ on_wire t2.
Proof. apply bind_app. Qed.

Create HintDb console discriminated.

Section Laws.
Context {S : Type} `{ConsoleLaws S}.

(** [m] puts [text] on the wire. *)
Definition sends (m : M S unit) (text : list Z) : Prop := forall s, console_ready s ->
  wp m (fun _ s' => console_ready s' /\ console_sent s' = console_sent s ++ on_wire text) s.

Lemma sends_ret : sends (ret tt) [].
Proof. intros s Hs. apply wp_ret. by rewrite app_nil_r. Qed.
Lemma sends_seq m1 m2 t1 t2 : sends m1 t1 -> sends m2 t2 -> sends (m1 ;;; m2) (t1 ++ t2).
Proof.
  intros H1 H2 s Hs. apply wp_bind. eapply wp_mono; [exact (H1 s Hs)|]. intros _ s1 [Hs1 E1].
  eapply wp_mono; [exact (H2 s1 Hs1)|]. intros _ s2 [Hs2 E2]. split; [done|].
  by rewrite E2, E1, on_wire_app, (assoc_L (++)).
Qed.
Lemma sends_if (b : bool) m t : sends m t -> sends (if b then m else ret tt) (if b then t else []).
Proof. destruct b; [done|intros _; exact sends_ret]. Qed.
Lemma sends_byte b : sends (put_byte b) [b].
Proof.
  intros s Hs. unfold put_byte, on_wire, wire_byte. cbn [mbind list_bind app]. rewrite app_nil_r. apply wp_bind.
  destruct (Z.eqb_spec b 10) as [->|_].
  - eapply wp_mono; [by apply device_put_byte_sent|]. intros _ s1 [Hs1 E1].
    eapply wp_mono; [by apply device_put_byte_sent|]. intros _ s2 [Hs2 E2]. split; [done|].
    by rewrite E2, E1, <-(assoc_L (++)).
  - apply wp_ret. eapply wp_mono; [by apply device_put_byte_sent|]. done.
Qed.
Lemma sends_bytes l : sends (for_each l put_byte) l.
Proof. induction l as [|b l IH]; [exact sends_ret|]. exact (sends_seq _ _ [b] l (sends_byte b) IH). Qed.
Lemma sends_print text : sends (print text) (str_bytes text).
Proof. apply sends_bytes. Qed.
Lemma sends_outcome {A} (o : outcome A) a (f : A -> M S unit) t :
  o = Done a -> sends (f a) t -> sends (let! x := lift_outcome o in f x) t.
Proof. intros -> Hf s Hs. by apply Hf. Qed.
Lemma sends_dec v : is_uint 64 v -> sends (print_dec_usize v) (dec_text v).
Proof.
  intros Hv. destruct (format_decimal_round_trip v Hv) as (d & Hd & _). unfold print_dec_usize, dec_text. rewrite Hd.
  eapply sends_outcome; [reflexivity|apply sends_bytes].
Qed.
Lemma sends_hex v : is_uint 64 v -> sends (print_hex_usize v) (hex_text v).
Proof.
  intros Hv. destruct (format_hex_round_trip v Hv) as (b & _ & Hb & _). unfold print_hex_usize, hex_text. rewrite Hb.
  apply sends_seq; [apply sends_print|]. eapply sends_outcome; [reflexivity|apply sends_bytes].
Qed.
Lemma sends_two v : is_uint 64 v -> sends (print_two_digits v) (two_digit_text v).
Proof. intros Hv. apply sends_seq; [apply sends_if, sends_print|by apply sends_dec]. Qed.
Lemma sends_padded text w : sends (print_padded text w) (str_bytes text ++ replicate (w - String.length text) 32).
Proof.
  apply sends_seq; [apply sends_print|]. generalize (w - String.length text)%nat as n.
  generalize (String.length text) as i. intros i n. revert i. induction n as [|n IH]; intros i; [exact sends_ret|]. exact (sends_seq _ _ [32] _ (sends_print " ") (IH _)).
Qed.
Lemma sends_eq m t t' : sends m t -> t = t' -> sends m t'.
Proof. by intros ? <-. Qed.
End Laws.
#[export] Hint Resolve sends_ret sends_seq sends_print sends_bytes sends_dec sends_hex sends_two sends_padded : console.

Lemma uint_ten : is_uint 64 STAGES.
Proof. by split. Qed.
#[export] Hint Resolve uint_ten : console.

(** Runs down a sequence of calls and compares the texts. *)
Ltac sends_walk :=
  lazymatch goal with
  | |- sends (bind _ _) _ => apply sends_seq; sends_walk
  | |- _ => solve [eauto with console]
  end.
Ltac sends_tac := eapply sends_eq; [sends_walk|].

Section Log.
Context {S : Type} `{ConsoleLaws S}.

Lemma str_bytes_app s t : str_bytes (s ++ t) = str_bytes s ++ str_bytes t.
Proof.
  assert (String.list_ascii_of_string (s ++ t) = String.list_ascii_of_string s ++ String.list_ascii_of_string t) as Happ
    by (induction s as [|c s IH]; [done|exact (f_equal (cons c) IH)]).
  unfold str_bytes. by rewrite Happ, map_app.
Qed.

Lemma sends_prefix number name : is_uint 64 number -> sends (stage_prefix number name) (prefix_text number name).
Proof.
  intros Hn. unfold stage_prefix, prefix_text. sends_tac. by rewrite <-!(assoc_L (++)).
Qed.
Lemma sends_stage number name message :
  is_uint 64 number -> sends (stage number name message) (stage_text number name message).
Proof. intros Hn. apply sends_seq; [by apply sends_prefix|]. sends_tac. done. Qed.

Lemma sends_warning dropped what :
  is_uint 64 dropped ->
  sends (if 0 <? dropped then
           stage_prefix 5 "hwinfo" ;;; print "warning: dropped " ;;; print_dec_usize dropped ;;;
           print (what ++ " region(s) (limit reached)" ++ newline)
         else ret tt) (warning_text dropped what).
Proof.
  intros Hd. apply sends_if. apply sends_seq; [by apply sends_prefix|]. sends_tac. by rewrite !str_bytes_app.
Qed.

(** The numbers of a hardware description that the log prints. *)
Record log_typed (info : HardwareInfo) : Prop := {
  lt_cpus : is_uint 64 (cpu_count_found info);
  lt_total : is_uint 64 (total_memory info);
  lt_memory : is_uint 64 (dropped_memory_regions info);
  lt_reserved : is_uint 64 (dropped_reserved_regions info);
}.
Lemma sends_dtb info : log_typed info -> sends (log_dtb info) (dtb_text info).
Proof.
  intros [Hc Ht Hm Hr]. unfold log_dtb, dtb_text. apply sends_seq; [by apply sends_prefix|].
  apply sends_seq; [by apply sends_dec|]. apply sends_seq; [apply sends_print|].
  apply sends_seq; [apply sends_dec; unfold is_uint, MEGABYTE in *; divlia|].
  eapply sends_eq; [apply sends_seq; [apply sends_print|]; apply sends_seq|].
  - exact (sends_warning _ " memory" Hm).
  - exact (sends_warning _ " reserved" Hr).
  - by rewrite str_bytes_app, <-(assoc_L (++)).
Qed.
Lemma sends_pmm arenas pages :
  is_uint 64 arenas -> is_uint 64 pages -> sends (log_pmm arenas pages) (pmm_text arenas pages).
Proof.
  intros Ha Hp. unfold log_pmm, pmm_text. apply sends_seq; [by apply sends_prefix|]. sends_tac. by rewrite str_bytes_app.
Qed.

(** A report is typed when its numbers are machine words. *)
Definition report_typed (r : TrapReport) : Prop :=
  is_uint 64 (report_program_counter r) /\ is_uint 64 (cause_raw (report_cause r)) /\ is_uint 64 (report_fault_address r).
Lemma sends_report r : report_typed r -> sends (print_trap_report r) (report_text r).
Proof.
  intros (Hp & Hc & Hf). unfold print_trap_report, report_text. sends_tac. by rewrite !str_bytes_app, <-!(assoc_L (++)).
Qed.
End Log.
#[export] Hint Resolve sends_stage sends_dtb sends_pmm sends_report : console.

(** ** The devices keep the promise *)

(** Every byte was written to the data register right after a read of the flag
    register that said the FIFO has room; [UART_BASE] is the physical base or
    its physmap alias. *)
Definition uart_bases : list Z := [UART0_PHYSICAL_BASE; physical_to_virtual UART0_PHYSICAL_BASE].
Fixpoint disciplined (ops : list UartOp) : Prop :=
  match ops with
  | [] => True
  | UartWrite a _ :: rest =>
      a ∈ uart_bases /\ disciplined rest /\
      match rest with UartRead f v :: _ => f = a + 0x18 /\ Z.land v UART_FR_TXFF = 0 | _ => False end
  | UartRead f _ :: rest => (exists a, a ∈ uart_bases /\ f = a + 0x18) /\ disciplined rest
  end.
Definition uart_sent (ops : list UartOp) : list Z :=
  reverse (omap (fun op => match op with UartWrite _ b => Some b | UartRead _ _ => None end) ops).
Definition uart_ready (s : Uart) : Prop := uart_base s ∈ uart_bases /\ disciplined (uart_ops s).

Section Pl011Laws.
Context (device : list UartOp -> Z -> Z) (patience : nat).

(** The accesses after [k] more reads of the flag register at [flags]. *)
Fixpoint polled (flags : Z) (k : nat) (ops : list UartOp) : list UartOp :=
  match k with
  | O => ops
  | S k => polled flags k (UartRead flags (device ops flags mod 2 ^ 32) :: ops)
  end.
(** The FIFO drains: among any [patience] polls one finds room. *)
Definition drains : Prop := forall ops flags, exists k, (k < patience)%nat /\
  Z.land (device (polled flags k ops) flags mod 2 ^ 32) UART_FR_TXFF = 0.

Lemma uart_base_fits a : a ∈ uart_bases -> a + 0x18 < 2 ^ 64.
Proof. intros [->|[->|[]%elem_of_nil]%elem_of_cons]%elem_of_cons; vm_compute; reflexivity. Qed.

Lemma wait_tx_spec n k s :
  (k < n)%nat -> uart_ready s -> let flags := uart_base s + 0x18 in
  Z.land (device (polled flags k (uart_ops s)) flags mod 2 ^ 32) UART_FR_TXFF = 0 ->
  wp (wait_tx device n) (fun _ s' => uart_ready s' /\ uart_base s' = uart_base s /\
    uart_sent (uart_ops s') = uart_sent (uart_ops s) /\
    exists v rest, uart_ops s' = UartRead flags v :: rest /\ Z.land v UART_FR_TXFF = 0) s.
Proof.
  revert k s. induction n as [|n IH]; intros k s Hk [Hbase Hdis] flags Hroom; [lia|]. cbn [wait_tx].
  apply wp_bind. unfold uart_tx_full. apply wp_bind, wp_gets, wp_bind, wp_add_uint; [by apply uart_base_fits|].
  apply wp_bind, wp_gets, wp_bind, wp_modify, wp_ret. fold flags. set (v := device (uart_ops s) flags mod 2 ^ 32).
  set (s1 := uart_log (UartRead flags v) s).
  assert (uart_ready s1) as Hs1 by (split; [done|]; cbn; eauto).
  destruct (Z.eqb_spec (Z.land v UART_FR_TXFF) 0) as [Hv|Hv]; cbn [negb].
  - apply wp_ret. split_and!; [done|done|done|]. by exists v, (uart_ops s).
  - destruct k as [|k]; [done|]. exact (IH k s1 ltac:(lia) Hs1 Hroom).
Qed.

#[export] Instance pl011_device : ConsoleDevice Uart := {| device_put_byte := pl011_put_byte device patience |}.

Lemma pl011_sent (Hd : drains) b s :
  uart_ready s ->
  wp (device_put_byte b) (fun _ s' => uart_ready s' /\ uart_sent (uart_ops s') = uart_sent (uart_ops s) ++ [b]) s.
Proof.
  intros Hs. destruct (Hd (uart_ops s) (uart_base s + 0x18)) as (k & Hk & Hroom). cbn. unfold pl011_put_byte.
  apply wp_bind. eapply wp_mono; [exact (wait_tx_spec patience k s Hk Hs Hroom)|].
  intros _ s' ([Hb' Hdis'] & Hbase & Hsent & v & rest & Hops & Hv). apply wp_bind, wp_gets, wp_modify.
  unfold uart_ready, uart_sent in *. cbn [uart_base uart_ops uart_log omap list_omap]. rewrite reverse_cons, Hsent.
  split; [|done]. split; [done|]. cbn [disciplined]. split_and!; [done|done|]. rewrite Hops, Hbase. done.
Qed.
End Pl011Laws.

(** The console of ARM64 under the assumption that its FIFO drains. *)
Definition pl011_laws device patience (Hd : drains device patience) :
    @ConsoleLaws Uart (pl011_device device patience) :=
  {| console_ready := uart_ready; console_sent s := uart_sent (uart_ops s);
     device_put_byte_sent := pl011_sent device patience Hd |}.

(** The console of RISC-V: every call is the legacy console call. *)
#[export] Instance sbi_device : ConsoleDevice (list Ecall) := {| device_put_byte := sbi_putchar |}.
#[export] Program Instance sbi_laws : ConsoleLaws (list Ecall) := {|
  console_ready calls := Forall (fun c => ecall_a7 c = 1 /\ ecall_a6 c = 0) calls;
  console_sent calls := reverse (map ecall_a0 calls);
|}.
Next Obligation.
  intros b calls Hc. apply wp_modify. split; [by constructor|]. cbn [map ecall_a0]. by rewrite reverse_cons.
Qed.

(** [post_mmu_init] keeps the console usable and moves it to the physmap. *)
Lemma arm64_post_mmu_init_ready s :
  uart_ready s -> wp arm64_console_post_mmu_init (fun _ s' => uart_ready s' /\
    uart_base s' = physical_to_virtual UART0_PHYSICAL_BASE /\ uart_sent (uart_ops s') = uart_sent (uart_ops s)) s.
Proof. intros [_ Hd]. apply wp_modify. split_and!; [split; [right; left|done]|done|done]. Qed.
