(* ===== verification/Xtask.v ===== *)
(** * The developer's tool

    Models [tools/xtask/src/main.rs]: building the kernel, running it in QEMU,
    the smoke test and the other commands.  The host (processes, files, the
    environment) is the class [HostSystem]; every effect is recorded in a list of
    events, newest first, and the host's answers may depend on it. *)

From S2P Require Import Prelude Trap Console.
From stdpp Require Import base tactics option list list_numbers numbers pretty strings.

#[local] Open Scope Z_scope.
#[local] Open Scope kernel_scope.

(** ** Text *)

(** Output text as its UTF-8 bytes; the patterns that are searched are ASCII. *)
Fixpoint str_find (pattern text : list Z) : option nat :=
  if bool_decide (pattern `prefix_of` text) then Some 0%nat
  else match text with [] => None | _ :: text => S <$> str_find pattern text end.
Definition contains (text pattern : list Z) : bool := bool_decide (is_Some (str_find pattern text)).
(** [str_rfind] of one byte. *)
Fixpoint str_rfind (b : Z) (text : list Z) : option nat :=
  match text with
  | [] => None
  | x :: text => match str_rfind b text with Some i => Some (S i) | None => if x =? b then Some 0%nat else None end
  end.
Definition ends_with (text : list Z) (b : Z) : bool := bool_decide (last text = Some b).

(** [String::from_utf8_lossy]: every maximal invalid part becomes U+FFFD. *)
Definition REPLACEMENT : list Z := [0xef; 0xbf; 0xbd].
Definition continues (lo hi : Z) (bytes : list Z) : bool :=
  match bytes with b :: _ => (lo <=? b) && (b <=? hi) | [] => false end.
(** The bytes that may follow a first byte: the range of the second, and how many
    further ones. *)
Definition sequence_of (b : Z) : option (Z * Z * nat) :=
  if (0xc2 <=? b) && (b <=? 0xdf) then Some (0x80, 0xbf, 0%nat)
  else if b =? 0xe0 then Some (0xa0, 0xbf, 1%nat)
  else if b =? 0xed then Some (0x80, 0x9f, 1%nat)
  else if (0xe1 <=? b) && (b <=? 0xef) then Some (0x80, 0xbf, 1%nat)
  else if b =? 0xf0 then Some (0x90, 0xbf, 2%nat)
  else if (0xf1 <=? b) && (b <=? 0xf3) then Some (0x80, 0xbf, 2%nat)
  else if b =? 0xf4 then Some (0x80, 0x8f, 2%nat)
  else None.
(** How many of the bytes after the first belong to the sequence, and whether it
    is complete. *)
Fixpoint take_sequence (lo hi : Z) (more : nat) (bytes : list Z) : nat * bool :=
  if continues lo hi bytes then
    match more, bytes with
    | S more, _ :: bytes => let '(n, ok) := take_sequence 0x80 0xbf more bytes in (S n, ok)
    | _, _ => (1%nat, true)
    end
  else (0%nat, false).
Fixpoint lossy (fuel : nat) (bytes : list Z) : list Z :=
  match fuel, bytes with
  | S fuel, b :: rest =>
      if b <? 0x80 then b :: lossy fuel rest
      else
        match sequence_of b with
        | None => REPLACEMENT ++ lossy fuel rest
        | Some (lo, hi, more) =>
            let '(n, ok) := take_sequence lo hi more rest in
            (if ok : bool then b :: take n rest else REPLACEMENT) ++ lossy fuel (drop n rest)
        end
  | _, _ => []
  end.
Definition from_utf8_lossy (bytes : list Z) : list Z := lossy (length bytes) bytes.

(** ** The host *)

Record Command := { cmd_program : string; cmd_args : list string; cmd_dir : option string }.
Definition Command_new (program : string) : Command := {| cmd_program := program; cmd_args := []; cmd_dir := None |}.
Definition cmd_append (c : Command) (args : list string) : Command :=
  {| cmd_program := cmd_program c; cmd_args := cmd_args c ++ args; cmd_dir := cmd_dir c |}.

Record ExitStatus := { success : bool; status_text : string }.
Inductive Stream := Stdout | Stderr.
(** A spawned process: whether the [n]-th poll finds it ended, the milliseconds
    that passed when its time is checked after that poll, and the bytes of its
    streams, if they are pipes ([None] inside: the reader thread panicked). *)
Record Child := {
  child_ended : nat -> Result bool string;
  child_elapsed : nat -> Z;
  child_pipe : Stream -> option (option (Result (list Z) string));
}.

Inductive HostEvent :=
  | Ran (c : Command)
  | Spawned (c : Command)
  | Slept (ms : Z)
  | Killed
  | Waited
  | CreatedDir (path : string)
  | Copied (source target : string)
  | WroteFile (path : string) (content : list Z)
  | RemovedDir (path : string)
  | Printed (text : list Z)
  | Warned (text : string).

Class HostSystem := {
  host_arch : string;
  host_os : string;
  repo_root : string;
  env_var : string -> option string;
  command_status : list HostEvent -> Command -> Result ExitStatus string;
  command_output : list HostEvent -> Command -> Result (ExitStatus * list Z) string;
  command_spawn : list HostEvent -> Command -> Result Child string;
  fs_create_dir_all : list HostEvent -> string -> option string;
  fs_copy : list HostEvent -> string -> string -> option string;
  fs_write : list HostEvent -> string -> list Z -> option string;
  fs_exists : list HostEvent -> string -> bool;
  fs_remove_dir_all : list HostEvent -> string -> option string;
  (** The text of [{:?}] of a command. *)
  command_debug : Command -> string;
}.

Section Tool.
Context `{HostSystem}.
Abbreviation Tool A := (M (list HostEvent) A).

Definition record (e : HostEvent) : Tool unit := modify (cons e).
Definition println (text : string) : Tool unit := record (Printed (str_bytes (text ++ newline))).
Definition eprintln (text : string) : Tool unit := record (Warned (text ++ newline)).
Definition status (c : Command) : Tool (Result ExitStatus string) :=
  let! history := gets (fun h => h) in record (Ran c) ;;; ret (command_status history c).
(** An effect on files that fails with a text, made into an error by [wrap]. *)
Definition fs_effect (failure : list HostEvent -> option string) (e : HostEvent) (wrap : string -> string) :
    Tool (Result unit string) :=
  let! history := gets (fun h => h) in
  match failure history with
  | Some error => ret (Err (wrap error))
  | None => record e ;;; ret (Ok tt)
  end.
Definition path_join (path name : string) : string := (path ++ "/" ++ name)%string.

(** ** Targets *)

Inductive Arch := Arm64 | Riscv64.
Inductive Mode := Debug | Release.
#[global] Instance Arch_eq_dec : EqDecision Arch.
Proof. solve_decision. Defined.
#[global] Instance Mode_eq_dec : EqDecision Mode.
Proof. solve_decision. Defined.

Definition Arch_all : list Arch := [Arm64; Riscv64].
Definition arch_name (a : Arch) : string := match a with Arm64 => "arm64" | Riscv64 => "riscv64" end.
Definition rust_target (a : Arch) : string :=
  match a with Arm64 => "aarch64-unknown-none-softfloat" | Riscv64 => "riscv64gc-unknown-none-elf" end.
Definition mode_name (m : Mode) : string := match m with Debug => "debug" | Release => "release" end.
Definition profile (m : Mode) : string := match m with Debug => "debug" | Release => "release" end.

Inductive BootImage := Elf | Bin.
#[global] Instance BootImage_eq_dec : EqDecision BootImage.
Proof. solve_decision. Defined.
Definition boot_image_name (b : BootImage) : string := match b with Elf => "elf" | Bin => "raw binary" end.

Record Board := {
  board_system : string; board_machine : string; board_cpu : option string; board_args : list string;
  board_boot_image : BootImage }.
Definition board_for (a : Arch) : Board :=
  match a with
  | Arm64 => {| board_system := "qemu-system-aarch64"; board_machine := "virt,gic-version=3";
                board_cpu := Some "cortex-a76"; board_args := ["-smp"; "2"; "-m"; "2G"]; board_boot_image := Bin |}
  | Riscv64 => {| board_system := "qemu-system-riscv64"; board_machine := "virt"; board_cpu := Some "rv64";
                  board_args := ["-smp"; "2"; "-m"; "2G"; "-bios"; "default"]; board_boot_image := Elf |}
  end.

(** ** Tools that must be there *)

Definition objcopy_program : string := default "llvm-objcopy" (env_var "OBJCOPY").
Definition objdump_program : string := default "llvm-objdump" (env_var "OBJDUMP").
Definition cargo_command : Command := {| cmd_program := "cargo"; cmd_args := []; cmd_dir := Some repo_root |}.

Definition run_status (c : Command) (label : string) : Tool (Result unit string) :=
  let! r := status c in
  match r with
  | Err error => ret (Err ("failed to start " ++ cmd_program c ++ " for " ++ label ++ ": " ++ error)%string)
  | Ok s => ret (if success s then Ok tt else Err (label ++ " exited with " ++ status_text s)%string)
  end.

Definition ensure_tool (program label : string) : Tool (Result unit string) :=
  let! r := status (cmd_append (Command_new program) ["--version"]) in
  match r with
  | Err error => ret (Err ("missing required tool " ++ label ++ ": " ++ error)%string)
  | Ok s => ret (if success s then Ok tt else Err ("required tool " ++ label ++ " exited with " ++ status_text s)%string)
  end.

(** [str::lines] and [trim] as far as they matter for a target's name: a line
    matches when it is the name within white space. *)
Definition is_space (b : Z) : bool := (b =? 32) || ((9 <=? b) && (b <=? 13)).
Fixpoint trim_start (l : list Z) : list Z := match l with b :: l' => if is_space b then trim_start l' else l | [] => [] end.
Definition trim (l : list Z) : list Z := reverse (trim_start (reverse (trim_start l))).
Fixpoint lines (current : list Z) (text : list Z) : list (list Z) :=
  match text with
  | [] => match current with [] => [] | _ => [reverse current] end
  | b :: text => if b =? 10 then reverse current :: lines [] text else lines (b :: current) text
  end.
Definition ensure_rust_target_installed (a : Arch) : Tool (Result unit string) :=
  let c := cmd_append (Command_new "rustup") ["target"; "list"; "--installed"] in
  let! history := gets (fun h => h) in
  record (Ran c) ;;;
  match command_output history c with
  | Err error => ret (Err ("failed to run rustup target list --installed: " ++ error ++
      ". Install Rust through rustup so rust-toolchain.toml can provision kernel targets.")%string)
  | Ok (s, stdout) =>
      if negb (success s) then ret (Err ("rustup target list --installed exited with " ++ status_text s)%string)
      else if existsb (fun line => bool_decide (trim line = str_bytes (rust_target a))) (lines [] (from_utf8_lossy stdout))
      then ret (Ok tt)
      else ret (Err ("Rust target " ++ rust_target a ++ " is not installed. Run `rustup target add " ++ rust_target a ++ "`.")%string)
  end.

Definition ensure_raw_binary_host (a : Arch) : Result unit string :=
  if bool_decide (a = Arm64) && negb (String.eqb host_arch "aarch64") then
    Err (arch_name a ++ " smoke needs a host that can produce its raw boot image; detected " ++ host_arch ++ "-" ++ host_os ++
         ". Run it on MacBook M1/M2/M3/M4 or ubuntu-24.04-arm.")%string
  else Ok tt.
Definition ensure_build_support (a : Arch) : Tool (Result unit string) :=
  try! _ := ensure_tool "cargo" "cargo" in
  try! _ := ensure_rust_target_installed a in
  if bool_decide (board_boot_image (board_for a) = Bin) then
    try! _ := ensure_tool objcopy_program "llvm-objcopy" in
    ret (ensure_raw_binary_host a)
  else ret (Ok tt).
Definition ensure_smoke_support (a : Arch) : Tool (Result unit string) :=
  try! _ := ensure_build_support a in
  ensure_tool (board_system (board_for a)) (board_system (board_for a)).
Definition smoke_support_message (a : Arch) : string :=
  if bool_decide (a = Arm64) && negb (String.eqb host_arch "aarch64") then "unsupported on this host"
  else "supported if Rust target and QEMU are installed".

(** ** Building *)

Record KernelArtifact := { artifact_elf : string; artifact_bin : option string }.

Definition build_kernel (a : Arch) (m : Mode) : Tool (Result KernelArtifact string) :=
  try! _ := ensure_build_support a in
  let c := cmd_append cargo_command
    ["build"; "-p"; "bullfinch-kernel"; "--quiet"; "--bin"; "kernel"; "--target"; rust_target a] in
  let c := if bool_decide (m = Release) then cmd_append c ["--release"] else c in
  try! _ := run_status c ("build " ++ arch_name a ++ " " ++ mode_name m) in
  let source := path_join (path_join (path_join (path_join repo_root "target") (rust_target a)) (profile m)) "kernel" in
  let out_dir := path_join repo_root "target/bullfinch/kernel" in
  try! _ := fs_effect (fun h => fs_create_dir_all h out_dir) (CreatedDir out_dir)
    (fun error => "failed to create " ++ out_dir ++ ": " ++ error)%string in
  let base := (arch_name a ++ "-qemu_virt-" ++ mode_name m)%string in
  let elf := path_join out_dir (base ++ ".elf") in
  try! _ := fs_effect (fun h => fs_copy h source elf) (Copied source elf)
    (fun error => "failed to copy " ++ source ++ " to " ++ elf ++ ": " ++ error)%string in
  if bool_decide (board_boot_image (board_for a) = Bin) then
    let bin := path_join out_dir (base ++ ".bin") in
    try! _ := run_status (cmd_append (Command_new objcopy_program) ["-O"; "binary"; source; bin]) "llvm-objcopy" in
    ret (Ok {| artifact_elf := elf; artifact_bin := Some bin |})
  else ret (Ok {| artifact_elf := elf; artifact_bin := None |}).

Definition qemu_command_for (board : Board) (artifact : KernelArtifact) : Result Command string :=
  let c := cmd_append (Command_new (board_system board)) ["-machine"; board_machine board] in
  let c := match board_cpu board with Some cpu => cmd_append c ["-cpu"; cpu] | None => c end in
  let c := cmd_append (cmd_append c (board_args board)) ["-nographic"; "-kernel"] in
  match board_boot_image board with
  | Elf => Ok (cmd_append c [artifact_elf artifact])
  | Bin =>
      match artifact_bin artifact with
      | Some bin => Ok (cmd_append c [bin])
      | None => Err "board requires a raw binary image"%string
      end
  end.

(** ** Running with a time limit *)

Definition take_reader (child : Child) (stream : Stream) : Result (option (Result (list Z) string)) string :=
  match child_pipe child stream with
  | Some reader => Ok reader
  | None => Err (match stream with Stdout => "child stdout was not piped" | Stderr => "child stderr was not piped" end)%string
  end.
(** Joining a reader thread, which runs [read_to_string]. *)
Definition join_reader (panicked : string) (reader : option (Result (list Z) string)) : Result (list Z) string :=
  match reader with
  | None => Err panicked
  | Some (Err error) => Err ("failed to read child output: " ++ error)%string
  | Some (Ok bytes) => Ok (from_utf8_lossy bytes)
  end.

(** The polling loop from its [n]-th poll on. *)
Fixpoint poll_child (fuel n : nat) (child : Child) (timeout : Z) : Tool (Result unit string) :=
  match fuel with
  | O => out_of_fuel
  | S fuel =>
      match child_ended child n with
      | Err error => ret (Err ("failed to poll child: " ++ error)%string)
      | Ok true => ret (Ok tt)
      | Ok false =>
          if timeout <=? child_elapsed child n then record Killed ;;; record Waited ;;; ret (Ok tt)
          else record (Slept 10) ;;; poll_child fuel (S n) child timeout
      end
  end.
(** The sleeps of ten milliseconds that fit the time limit, and one poll more. *)
Definition poll_budget (timeout : Z) : nat := S (Z.to_nat (timeout / 10 + 1)).

Definition run_with_timeout (c : Command) (timeout : Z) : Tool (Result (list Z) string) :=
  let! history := gets (fun h => h) in
  record (Spawned c) ;;;
  match command_spawn history c with
  | Err error => ret (Err ("failed to start " ++ cmd_program c ++ ": " ++ error)%string)
  | Ok child =>
      match take_reader child Stdout with
      | Err error => ret (Err error)
      | Ok stdout =>
          match take_reader child Stderr with
          | Err error => ret (Err error)
          | Ok stderr =>
              try! _ := poll_child (poll_budget timeout) 0 child timeout in
              match join_reader "stdout reader thread panicked" stdout with
              | Err error => ret (Err error)
              | Ok output =>
                  match join_reader "stderr reader thread panicked" stderr with
                  | Err error => ret (Err error)
                  | Ok stderr => ret (Ok (output ++ stderr))
                  end
              end
          end
      end
  end.

(** ** The smoke test *)

Definition BOOT_OK : list Z := str_bytes "[BOOT:OK]".
Definition SMOKE_TIMEOUT : Z := 15000.
Definition PEEK_TIMEOUT : Z := 4000.

Definition or_else {A} (a b : option A) : option A := match a with Some x => Some x | None => b end.
Definition filter_output (output : list Z) : list Z :=
  match or_else (or_else (str_find (str_bytes "[BOOT:STARTED]") output) (str_find (str_bytes "[01/10]") output)) (str_find BOOT_OK output) with
  | Some index =>
      let start := match str_rfind 10 (take index output) with Some line => S line | None => index end in
      drop start output
  | None => output
  end.
Definition normalize_output (output : list Z) : list Z := filter (fun b => b <> 13) output.

Definition print_block (name block_status : string) (output : list Z) : Tool unit :=
  println (newline ++ "---- " ++ name ++ ": " ++ block_status ++ " ----") ;;;
  record (Printed output) ;;;
  (if negb (ends_with output 10) then println "" else ret tt) ;;;
  println "---- end ----".

Definition smoke_variants (arch : option Arch) (mode : option Mode) (peek : bool) : Result (list (Arch * Mode)) string :=
  match arch, mode with
  | None, None => Ok [(Arm64, Debug); (Arm64, Release); (Riscv64, Debug); (Riscv64, Release)]
  | Some arch, None => Ok [(arch, Debug); (arch, Release)]
  | Some arch, Some mode => Ok [(arch, mode)]
  | None, Some _ => Err "mode requires an architecture"%string
  end.

Definition run_smoke_variant (a : Arch) (m : Mode) (peek verbose : bool) : Tool (Result bool string) :=
  try! _ := ensure_smoke_support a in
  try! artifact := build_kernel a m in
  let name := (arch_name a ++ "-qemu_virt-" ++ mode_name m)%string in
  match qemu_command_for (board_for a) artifact with
  | Err error => ret (Err error)
  | Ok c =>
      (if verbose then eprintln (name ++ ": running " ++ command_debug c) else ret tt) ;;;
      try! output := run_with_timeout c (if peek then PEEK_TIMEOUT else SMOKE_TIMEOUT) in
      let filtered := normalize_output (filter_output output) in
      let log_dir := path_join repo_root "target/bullfinch/tests" in
      try! _ := fs_effect (fun h => fs_create_dir_all h log_dir) (CreatedDir log_dir)
        (fun error => "failed to create " ++ log_dir ++ ": " ++ error)%string in
      let log_file := path_join log_dir (name ++ ".log") in
      try! _ := fs_effect (fun h => fs_write h log_file filtered) (WroteFile log_file filtered)
        (fun error => "failed to write smoke log: " ++ error)%string in
      if peek then print_block name "peek" filtered ;;; ret (Ok true)
      else if contains filtered BOOT_OK then println (name ++ ": PASS") ;;; ret (Ok true)
      else print_block name "timeout" filtered ;;; ret (Ok false)
  end.

Record SmokeArgs := { smoke_peek : bool; smoke_verbose : bool; smoke_arch : option Arch; smoke_mode : option Mode }.

(** The [for] loop: how many variants failed. *)
Fixpoint smoke_loop (variants : list (Arch * Mode)) (peek verbose : bool) (failed : Z) : Tool (Result Z string) :=
  match variants with
  | [] => ret (Ok failed)
  | (a, m) :: variants =>
      try! passed := run_smoke_variant a m peek verbose in
      let! failed := (if passed : bool then ret failed else add_uint 64 failed 1) in
      smoke_loop variants peek verbose failed
  end.
Definition smoke_command (args : SmokeArgs) : Tool (Result unit string) :=
  match smoke_variants (smoke_arch args) (smoke_mode args) (smoke_peek args) with
  | Err error => ret (Err error)
  | Ok variants =>
      try! failed := smoke_loop variants (smoke_peek args) (smoke_verbose args) 0 in
      ret (if failed =? 0 then Ok tt else Err (pretty failed ++ " smoke variant(s) failed")%string)
  end.

(** ** The other commands *)

Definition qemu_command (a : Arch) (m : Mode) : Tool (Result unit string) :=
  try! _ := ensure_smoke_support a in
  try! artifact := build_kernel a m in
  match qemu_command_for (board_for a) artifact with
  | Err error => ret (Err error)
  | Ok c =>
      let! r := status c in
      match r with
      | Err error => ret (Err ("failed to start " ++ cmd_program c ++ ": " ++ error)%string)
      | Ok s => ret (if success s then Ok tt else Err ("qemu exited with " ++ status_text s)%string)
      end
  end.

Definition disasm_command (a : Arch) (m : Mode) : Tool (Result unit string) :=
  try! _ := ensure_tool objdump_program "llvm-objdump" in
  try! artifact := build_kernel a m in
  let c := cmd_append (Command_new objdump_program) ["-d"] in
  let c := if bool_decide (a = Riscv64) then cmd_append c ["-M"; "no-aliases"] else cmd_append c ["--mattr=+all"] in
  run_status (cmd_append c [artifact_elf artifact]) "llvm-objdump".

Definition remove_dir_if_exists (path : string) : Tool (Result unit string) :=
  let! history := gets (fun h => h) in
  if negb (fs_exists history path) then ret (Ok tt)
  else fs_effect (fun h => fs_remove_dir_all h path) (RemovedDir path)
    (fun error => "failed to remove " ++ path ++ ": " ++ error)%string.
Definition clean_command : Tool (Result unit string) := remove_dir_if_exists (path_join repo_root "target").

Definition host_command : Tool (Result unit string) :=
  println ("host: " ++ host_arch ++ "-" ++ host_os) ;;;
  for_each Arch_all (fun a =>
    let board := board_for a in
    println (arch_name a ++ ":") ;;;
    println ("  rust target: " ++ rust_target a) ;;;
    println ("  qemu: " ++ board_system board) ;;;
    println ("  boot image: " ++ boot_image_name (board_boot_image board)) ;;;
    println ("  smoke: " ++ smoke_support_message a)) ;;;
  ret (Ok tt).

Inductive Commands :=
  | BuildCmd (a : Arch) (m : Mode)
  | QemuCmd (a : Arch) (m : Mode)
  | SmokeCmd (args : SmokeArgs)
  | PeekCmd (verbose : bool) (a : option Arch) (m : option Mode)
  | DisasmCmd (a : Arch) (m : Mode)
  | HostCmd
  | CleanCmd.
(** [run] after the command line is parsed. *)
Definition run (command : Commands) : Tool (Result unit string) :=
  match command with
  | BuildCmd a m => try! _ := build_kernel a m in ret (Ok tt)
  | QemuCmd a m => qemu_command a m
  | SmokeCmd args => smoke_command args
  | PeekCmd verbose a m => smoke_command {| smoke_peek := true; smoke_verbose := verbose; smoke_arch := a; smoke_mode := m |}
  | DisasmCmd a m => disasm_command a m
  | HostCmd => host_command
  | CleanCmd => clean_command
  end.
(** [main]: the exit code. *)
Definition main (command : Commands) : Tool Z :=
  let! r := run command in
  match r with
  | Ok _ => ret 0
  | Err error => eprintln ("tools: " ++ error) ;;; ret 1
  end.
End Tool.
