(* ===== verification/XtaskTheorems.v ===== *)
(** * What the smoke test tells

    The tool's commands return, a passed smoke test means that QEMU ran every
    variant's kernel and printed the boot message, and which logs pass. *)

From S2P Require Import Prelude Trap Console Xtask.
From stdpp Require Import base tactics option list list_numbers numbers pretty strings.

#[local] Open Scope Z_scope.
#[local] Open Scope kernel_scope.

(** ** Searching *)

Lemma find_prefix pattern text i : str_find pattern text = Some i -> pattern `prefix_of` drop i text.
Proof.
  revert i. induction text as [|b text IH]; intros i; cbn [str_find]; case_bool_decide as Hp.
  - by intros [= <-].
  - done.
  - by intros [= <-].
  - intros (j & Hj & ->)%fmap_Some. cbn. by apply IH.
Qed.
Lemma find_first a pattern b : exists i, str_find pattern (a ++ pattern ++ b) = Some i /\ (i <= length a)%nat.
Proof.
  induction a as [|x a (i & Hi & Hle)]; cbn [app].
  - exists 0%nat. split; [|lia]. destruct (pattern ++ b) eqn:E; cbn [str_find]; rewrite bool_decide_true; try done.
    + rewrite <-E. by apply prefix_app_r.
    + rewrite <-E. by apply prefix_app_r.
  - cbn [str_find]. case_bool_decide; [exists 0%nat; cbn; split; [done|lia]|]. exists (S i). rewrite Hi. cbn. split; [done|lia].
Qed.
Lemma contains_infix text pattern : contains text pattern = true <-> exists a b, text = a ++ pattern ++ b.
Proof.
  unfold contains. rewrite bool_decide_eq_true. split.
  - intros [i [b Hb]%find_prefix]. exists (take i text), b. by rewrite <-Hb, take_drop.
  - intros (a & b & ->). destruct (find_first a pattern b) as (i & -> & _). done.
Qed.
Lemma rfind_bound b text i : str_rfind b text = Some i -> (i < length text)%nat.
Proof.
  revert i. induction text as [|x text IH]; intros i; cbn [str_rfind]; [done|].
  destruct (str_rfind b text) as [j|]; [intros [= <-]; cbn; specialize (IH j eq_refl); lia|].
  case_match; [intros [= <-]; cbn; lia|done].
Qed.

(** What [filter_output] cuts off ends before the first mark. *)
Lemma filter_output_drops output : exists n, filter_output output = drop n output.
Proof. unfold filter_output. case_match; [by eexists|]. by exists 0%nat. Qed.
Lemma filter_output_keeps a b : exists n, (n <= length a)%nat /\
  filter_output (a ++ str_bytes "[BOOT:STARTED]" ++ b) = drop n (a ++ str_bytes "[BOOT:STARTED]" ++ b).
Proof.
  destruct (find_first a (str_bytes "[BOOT:STARTED]") b) as (i & Hi & Hle). unfold filter_output. rewrite Hi. cbn [or_else].
  destruct (str_rfind 10 (take i _)) as [line|] eqn:Hr; eexists; (split; [|reflexivity]); [|done].
  apply rfind_bound in Hr. rewrite length_take in Hr. lia.
Qed.

(** ** Decoding *)

Definition ascii (b : Z) : Prop := 0 <= b < 128.

Lemma lossy_ascii fuel bytes : Forall ascii bytes -> (length bytes <= fuel)%nat -> lossy fuel bytes = bytes.
Proof.
  revert fuel. induction bytes as [|b bytes IH]; intros [|fuel] Ha Hl; cbn in *; try done; [lia|].
  apply Forall_cons in Ha as [Hb Ha]. unfold ascii in Hb. rewrite (proj2 (Z.ltb_lt _ _)) by lia. by rewrite IH by (done || lia).
Qed.
Lemma from_utf8_ascii bytes : Forall ascii bytes -> from_utf8_lossy bytes = bytes.
Proof. intros Ha. by apply lossy_ascii. Qed.

Lemma normalize_app a b : normalize_output (a ++ b) = normalize_output a ++ normalize_output b.
Proof. apply filter_app. Qed.
Lemma normalize_wire t : 13 ∉ t -> normalize_output (on_wire t) = t.
Proof.
  induction t as [|b t IH]; intros Ht; [done|]. apply not_elem_of_cons in Ht as [Hb Ht].
  change (on_wire (b :: t)) with (wire_byte b ++ on_wire t). rewrite normalize_app, IH by done. unfold wire_byte.
  destruct (Z.eqb_spec b 10) as [->|]; [done|]. unfold normalize_output. rewrite filter_cons_True by done. done.
Qed.

(** ** The verdict on a kernel's output *)

(** A run's text passes. *)
Definition passes (output : list Z) : Prop := contains (normalize_output (filter_output output)) BOOT_OK = true.

(** A kernel that logged from the start mark to the end mark passes, whatever
    surrounds its text. *)
Lemma complete_log_passes before log after :
  13 ∉ log -> passes (before ++ on_wire (str_bytes "[BOOT:STARTED]" ++ log ++ BOOT_OK) ++ after).
Proof.
  intros Hlog. unfold passes. apply contains_infix.
  assert (13 ∉ log ++ BOOT_OK) as H13.
  { rewrite elem_of_app. intros [?|Hin]; [done|]. exact (bool_decide_eq_false_1 (13 ∈ BOOT_OK) eq_refl Hin). }
  rewrite on_wire_app. change (on_wire (str_bytes "[BOOT:STARTED]")) with (str_bytes "[BOOT:STARTED]"). rewrite <-(assoc_L (++)).
  destruct (filter_output_keeps before (on_wire (log ++ BOOT_OK) ++ after)) as (n & Hn & ->).
  rewrite drop_app_le by done. rewrite !normalize_app, normalize_wire by done.
  eexists (normalize_output (drop n before) ++ normalize_output (str_bytes "[BOOT:STARTED]") ++ log), (normalize_output after).
  by rewrite <-!(assoc_L (++)).
Qed.

(** A text whose bytes from [p] on are those of a pattern contains it. *)
Lemma infix_at (text pattern : list Z) p :
  (forall j, (j < length pattern)%nat -> text !! (p + j)%nat = pattern !! j) -> exists a b, text = a ++ pattern ++ b.
Proof.
  intros Hat. exists (take p text), (drop (length pattern) (drop p text)).
  assert (take (length pattern) (drop p text) = pattern) as Heq.
  { apply list_eq. intros j. destruct (decide (j < length pattern)%nat) as [Hj|Hj].
    - rewrite lookup_take_lt by lia. by rewrite lookup_drop, Hat.
    - rewrite lookup_take_ge by lia. symmetry. apply lookup_ge_None. lia. }
  rewrite <-Heq at 1. by rewrite !take_drop.
Qed.

(** All of the end mark but its last bracket. *)
Definition BOOT_OK_START : list Z := str_bytes "[BOOT:OK".

(** The end mark does not lie across the end of a line of text without a [K], nor
    does it begin in the text before, unless that text has all but the bracket. *)
Lemma mark_apart f l r u v :
  contains f BOOT_OK_START = false -> 75 ∉ l -> contains r BOOT_OK_START = false -> u ++ BOOT_OK ++ v <> f ++ (l ++ [10]) ++ r.
Proof.
  intros Hf Hl Hr Heq.
  assert (forall j, (j < 9)%nat -> (f ++ (l ++ [10]) ++ r) !! (length u + j)%nat = BOOT_OK !! j) as Hat.
  { intros j Hj. rewrite <-Heq, lookup_app_r by lia. replace (length u + j - length u)%nat with j by lia.
    rewrite lookup_app_l; [done|]. change (length BOOT_OK) with 9%nat. done. }
  assert (forall j, (j < 8)%nat -> BOOT_OK_START !! j = BOOT_OK !! j) as Hstart
    by (intros j Hj; do 8 (destruct j as [|j]; [done|]); lia).
  pose proof (Hat 7%nat ltac:(lia)) as H7. cbn in H7. set (p := length u) in *.
  destruct (decide (p + 7 < length f)%nat) as [Hin|Hge].
  { apply not_true_iff_false in Hf. apply Hf, contains_infix, (infix_at _ _ p). change (length BOOT_OK_START) with 8%nat.
    intros j Hj. rewrite Hstart, <-Hat by lia. by rewrite lookup_app_l by lia. }
  rewrite lookup_app_r in H7 by lia. destruct (decide (p + 7 < length f + length l)%nat) as [Hin|Hge2].
  { rewrite !lookup_app_l in H7 by (rewrite ?length_app; cbn; lia). by apply list_elem_of_lookup_2 in H7. }
  destruct (decide (p <= length f + length l)%nat) as [Hle|Hgt].
  - set (j := (length f + length l - p)%nat). specialize (Hat j ltac:(lia)).
    replace (p + j)%nat with (length f + length l)%nat in Hat by lia.
    rewrite lookup_app_r in Hat by lia. rewrite lookup_app_l in Hat by (rewrite length_app; cbn; lia).
    rewrite lookup_app_r in Hat by lia. replace (length f + length l - length f - length l)%nat with 0%nat in Hat by lia.
    cbn in Hat. assert (j < 9)%nat as Hj by lia. clearbody j. clear -Hat Hj.
    do 9 (destruct j as [|j]; [vm_compute in Hat; discriminate|]). lia.
  - apply not_true_iff_false in Hr. apply Hr, contains_infix, (infix_at _ _ (p - length f - length (l ++ [10]))).
    change (length BOOT_OK_START) with 8%nat. rewrite length_app. cbn [length].
    intros j Hj. rewrite Hstart, <-Hat by lia. rewrite !lookup_app_r by (rewrite ?length_app; cbn; lia). rewrite length_app. cbn [length].
    f_equal. lia.
Qed.

(** A kernel that printed no [K] and ended its last line does not pass, when the
    text around it does not have the mark. *)
Lemma quiet_log_fails before log after :
  contains (normalize_output before) BOOT_OK_START = false -> contains (normalize_output after) BOOT_OK_START = false ->
  75 ∉ log -> ~ passes (before ++ on_wire (log ++ [10]) ++ after).
Proof.
  intros Hb Ha Hl (x & y & Heq)%contains_infix.
  destruct (filter_output_drops (before ++ on_wire (log ++ [10]) ++ after)) as [n Hn]. rewrite Hn in Heq. clear Hn.
  set (text := normalize_output (before ++ on_wire (log ++ [10]) ++ after)).
  assert (exists u, u ++ x ++ BOOT_OK ++ y = text) as [u Hu].
  { exists (normalize_output (take n (before ++ on_wire (log ++ [10]) ++ after))). rewrite <-Heq, <-normalize_app, take_drop. done. }
  subst text. rewrite on_wire_app, !normalize_app in Hu. change (normalize_output (on_wire [10])) with [10] in Hu.
  rewrite (assoc_L (++)) in Hu. revert Hu.
  assert (forall t b, b ∈ normalize_output t -> b ∈ t) as Hin by (intros t b [_ ?]%list_elem_of_filter; done).
  assert (75 ∉ normalize_output (on_wire log)) as Hl'.
  { intros (b & Hbw & Hbl)%Hin%list_elem_of_bind. unfold wire_byte in Hbw.
    destruct (Z.eqb_spec b 10); [exact (bool_decide_eq_false_1 (75 ∈ [13; 10]) eq_refl Hbw)|].
    apply list_elem_of_singleton in Hbw as <-. done. }
  generalize (normalize_output before) (normalize_output after) (normalize_output (on_wire log)) Hb Ha Hl'.
  intros f r l Hf Hr Hl2 Hu. exact (mark_apart f l r (u ++ x) y Hf Hl2 Hr Hu).
Qed.

(** ** The commands return *)

Section Tool.
Context `{HostSystem}.
Abbreviation Tool A := (M (list HostEvent) A).

(** A sleep lasts ten milliseconds at least, and time does not run backwards. *)
Definition timed : Prop := forall history c child, command_spawn history c = Ok child ->
  forall n, 10 * Z.of_nat n <= child_elapsed child n.
Hypothesis Htimed : timed.

(** [m] returns, adds to the history only, and [P] holds of its result. *)
Definition runs {A} (m : Tool A) (P : list HostEvent -> A -> list HostEvent -> Prop) : Prop :=
  forall h, wp m (fun a h' => h `suffix_of` h' /\ P h a h') h.
Abbreviation always := (fun _ _ _ => True).

Lemma runs_ret {A} (a : A) (P : list HostEvent -> A -> list HostEvent -> Prop) : (forall h, P h a h) -> runs (ret a) P.
Proof. intros HP h. apply wp_ret. split; [reflexivity|apply HP]. Qed.
Lemma runs_mono {A} (m : Tool A) (P Q : list HostEvent -> A -> list HostEvent -> Prop) :
  runs m P -> (forall h a h', P h a h' -> Q h a h') -> runs m Q.
Proof. intros Hm HPQ h. eapply wp_mono; [apply Hm|]. intros a h' [Hs HP]. split; [done|by apply HPQ]. Qed.
Lemma runs_bind {A B} (m : Tool A) (f : A -> Tool B) P Q R :
  runs m P -> (forall a, runs (f a) (Q a)) ->
  (forall h1 a h2 b h3, P h1 a h2 -> h2 `suffix_of` h3 -> Q a h2 b h3 -> R h1 b h3) -> runs (bind m f) R.
Proof.
  intros Hm Hf HR h. apply wp_bind. eapply wp_mono; [apply Hm|]. intros a h1 [Hs1 HP]. eapply wp_mono; [apply Hf|].
  intros b h2 [Hs2 HQ]. split; [by etrans|]. by eapply HR.
Qed.
(** Sequences whose results do not matter. *)
Lemma runs_seq {A B} (m : Tool A) (f : A -> Tool B) : runs m always -> (forall a, runs (f a) always) -> runs (bind m f) always.
Proof. intros Hm Hf. by apply (runs_bind m f always (fun _ => always) always). Qed.
Lemma runs_gets {A B} (f : list HostEvent -> A) (g : A -> Tool B) P :
  (forall h, wp (g (f h)) (fun b h' => h `suffix_of` h' /\ P h b h') h) -> runs (bind (gets f) g) P.
Proof. intros Hg h. by apply wp_bind, wp_gets. Qed.

Lemma suffix_one (e : HostEvent) h : h `suffix_of` e :: h.
Proof. by exists [e]. Qed.
Lemma runs_record e : runs (record e) (fun h _ h' => h' = e :: h).
Proof. intros h. apply wp_modify. split; [apply suffix_one|done]. Qed.
Lemma runs_status c : runs (status c) always.
Proof. apply runs_gets. intros h. apply wp_bind, wp_modify, wp_ret. split; [apply suffix_one|done]. Qed.
Lemma runs_fs failure e wrap : runs (fs_effect failure e wrap) always.
Proof.
  apply runs_gets. intros h. destruct (failure h); [apply wp_ret; split; [reflexivity|done]|]. apply wp_bind, wp_modify, wp_ret.
  split; [apply suffix_one|done].
Qed.
Lemma runs_any {A} (m : Tool A) P : runs m P -> runs m always.
Proof. intros Hm. by eapply runs_mono. Qed.

Ltac runs_step :=
  lazymatch goal with
  | |- runs (bind (status _) _) always => apply runs_seq; [apply runs_status|intros ?]
  | |- runs (bind (fs_effect _ _ _) _) always => apply runs_seq; [apply runs_fs|intros ?]
  | |- runs (bind (record _) _) always => apply runs_seq; [eapply runs_any, runs_record|intros ?]
  | |- runs (bind _ _) always => apply runs_seq; [|intros ?]
  | |- runs (ret _) always => by apply runs_ret
  | |- runs (match ?x with _ => _ end) always => destruct x
  | |- runs (fs_effect _ _ _) always => apply runs_fs
  | |- runs (record _) always => eapply runs_any, runs_record
  end.
Ltac runs_tac := repeat (cbv beta zeta; runs_step).

Lemma runs_run_status c label : runs (run_status c label) always.
Proof. unfold run_status. runs_tac. Qed.
Lemma runs_ensure_tool program label : runs (ensure_tool program label) always.
Proof. unfold ensure_tool. runs_tac. Qed.
Lemma runs_target a : runs (ensure_rust_target_installed a) always.
Proof.
  apply runs_gets. intros h. apply wp_bind, wp_modify.
  assert (forall r : Result unit string, wp (ret r) (fun _ h' => h `suffix_of` h' /\ True)
    (Ran (cmd_append (Command_new "rustup") ["target"; "list"; "--installed"]) :: h)) as Hret.
  { intros r. apply wp_ret. split; [apply suffix_one|done]. }
  destruct (command_output _ _) as [[s out]|e]; [|apply Hret]. destruct (negb _); [apply Hret|].
  destruct (existsb _ _); apply Hret.
Qed.
Lemma runs_build_support a : runs (ensure_build_support a) always.
Proof. unfold ensure_build_support. runs_tac; solve [apply runs_ensure_tool | apply runs_target]. Qed.
Lemma runs_smoke_support a : runs (ensure_smoke_support a) always.
Proof. unfold ensure_smoke_support. runs_tac; solve [apply runs_build_support | apply runs_ensure_tool]. Qed.

(** Where the build leaves its files. *)
Definition artifact_of (a : Arch) (m : Mode) : KernelArtifact :=
  let out_dir := path_join repo_root "target/bullfinch/kernel" in
  let base := (arch_name a ++ "-qemu_virt-" ++ mode_name m)%string in
  {| artifact_elf := path_join out_dir (base ++ ".elf")%string;
     artifact_bin := match a with Arm64 => Some (path_join out_dir (base ++ ".bin")%string) | Riscv64 => None end |}.

Lemma runs_try {A B E} (m : Tool (Result A E)) (f : A -> Tool (Result B E)) P Q (R : list HostEvent -> Result B E -> list HostEvent -> Prop) :
  runs m P -> (forall a, runs (f a) (Q a)) -> (forall h e h', R h (Err e) h') ->
  (forall h1 a h2 b h3, P h1 (Ok a) h2 -> h2 `suffix_of` h3 -> Q a h2 b h3 -> R h1 b h3) -> runs (try! a := m in f a) R.
Proof.
  intros Hm Hf He HR. eapply (runs_bind m _ P (fun r => match r with Ok a => Q a | Err e => fun _ b _ => b = Err e end)); [done| |].
  - intros [a|e]; [apply Hf|by apply runs_ret].
  - intros h1 [a|e] h2 b h3 HP Hs; [by eapply HR|intros ->; apply He].
Qed.
(** A step whose result is not used. *)
Lemma runs_then {A B E} (m : Tool (Result A E)) (f : Tool (Result B E)) (R : list HostEvent -> Result B E -> list HostEvent -> Prop) P :
  runs m P -> runs f R -> (forall h e h', R h (Err e) h') -> (forall h1 h2 b h3, h1 `suffix_of` h2 -> R h2 b h3 -> R h1 b h3) ->
  runs (try! _ := m in f) R.
Proof.
  intros Hm Hf He HR h. apply wp_bind. eapply wp_mono; [apply Hm|]. intros [a|e] h1 [Hs HP]; [|by apply wp_ret].
  eapply wp_mono; [apply Hf|]. intros b h2 [Hs2 Hb]. split; [by etrans|by eapply HR].
Qed.

Lemma runs_after {A B} (m : Tool A) (f : Tool B) (R : list HostEvent -> B -> list HostEvent -> Prop) P :
  runs m P -> runs f R -> (forall h1 h2 b h3, h1 `suffix_of` h2 -> R h2 b h3 -> R h1 b h3) -> runs (m ;;; f) R.
Proof.
  intros Hm Hf HR h. apply wp_bind. eapply wp_mono; [apply Hm|]. intros a h1 [Hs HP].
  eapply wp_mono; [apply Hf|]. intros b h2 [Hs2 Hb]. split; [by etrans|by eapply HR].
Qed.

Lemma runs_build a m : runs (build_kernel a m) (fun _ r _ => forall x, r = Ok x -> x = artifact_of a m).
Proof.
  unfold build_kernel. cbv zeta. eapply runs_then; [apply runs_build_support| |done..].
  eapply runs_then; [apply runs_run_status| |done..]. do 2 (eapply runs_then; [apply runs_fs| |done..]). case_bool_decide as Hb.
  - eapply runs_then; [apply runs_run_status| |done..]. apply runs_ret. intros _ x [= <-]. by destruct a.
  - apply runs_ret. intros _ x [= <-]. by destruct a.
Qed.

(** ** The child process *)

(** Polling ends within its budget: the child ended or was killed. *)
Lemma runs_poll child timeout :
  (forall n, 10 * Z.of_nat n <= child_elapsed child n) ->
  forall fuel n, 0 < timeout -> (poll_budget timeout <= fuel + n)%nat -> (n < poll_budget timeout)%nat ->
  runs (poll_child fuel n child timeout) (fun _ r h' => r = Ok tt -> Killed ∈ h' \/ exists i, child_ended child i = Ok true).
Proof.
  intros Hel. induction fuel as [|fuel IH]; intros n H0 Hf Hn; [lia|]. cbn [poll_child].
  destruct (child_ended child n) as [[]|e] eqn:He.
  - apply runs_ret. intros h _. right. by exists n.
  - destruct (Z.leb_spec timeout (child_elapsed child n)) as [Hle|Hlt].
    + intros h. apply wp_bind, wp_modify, wp_bind, wp_modify, wp_ret. split; [by exists [Waited; Killed]|].
      intros _. left. right. left.
    + intros h. apply wp_bind, wp_modify. eapply wp_mono; [apply IH; [done|lia|]|intros r h' [Hs Hr]; split; [by etrans; [apply suffix_one|]|done]].
      specialize (Hel n). unfold poll_budget in *. assert (Z.of_nat n < timeout / 10 + 1); [|lia].
      assert (Z.of_nat n <= timeout / 10) by (apply Z.div_le_lower_bound; lia). lia.
  - by apply runs_ret.
Qed.

(** What a run of a command returned. *)
Definition output_of (h : list HostEvent) (c : Command) (output : list Z) : Prop :=
  exists child out err, command_spawn h c = Ok child /\
    child_pipe child Stdout = Some (Some (Ok out)) /\ child_pipe child Stderr = Some (Some (Ok err)) /\
    output = from_utf8_lossy out ++ from_utf8_lossy err.

Lemma runs_with_timeout c timeout :
  0 < timeout ->
  runs (run_with_timeout c timeout) (fun h r h' => (Spawned c :: h) `suffix_of` h' /\ forall output, r = Ok output -> output_of h c output).
Proof.
  intros H0 h. unfold run_with_timeout. apply wp_bind, wp_gets, wp_bind, wp_modify.
  assert (forall r : Result (list Z) string, (forall output, r = Ok output -> output_of h c output) ->
    forall h', (Spawned c :: h) `suffix_of` h' ->
    wp (ret r) (fun r h' => h `suffix_of` h' /\ (Spawned c :: h) `suffix_of` h' /\ forall output, r = Ok output -> output_of h c output) h') as Hret.
  { intros r Hr h' Hs. apply wp_ret. split; [|done]. etrans; [apply suffix_one|exact Hs]. }
  destruct (command_spawn h c) as [child|e] eqn:Hc; [|by apply Hret]. unfold take_reader.
  destruct (child_pipe child Stdout) as [so|] eqn:Hso; [|by apply Hret].
  destruct (child_pipe child Stderr) as [se|] eqn:Hse; [|by apply Hret]. apply wp_bind.
  eapply wp_mono; [apply (runs_poll child timeout (Htimed _ _ _ Hc)); unfold poll_budget; lia|]. intros [[]|e] h1 [Hs _]; [|by apply Hret].
  destruct so as [[out|e]|]; cbn [join_reader]; [|by apply Hret..].
  destruct se as [[err|e]|]; cbn [join_reader]; [|by apply Hret..].
  apply Hret; [|done]. intros output [= <-]. by exists child, out, err.
Qed.

(** ** The smoke test *)

(** The kernel of a variant ran in QEMU, and its output passed or not. *)
Definition variant_ran (v : Arch * Mode) (verdict : bool) (h : list HostEvent) : Prop :=
  exists c before output, qemu_command_for (board_for v.1) (artifact_of v.1 v.2) = Ok c /\
    (Spawned c :: before) `suffix_of` h /\ output_of before c output /\ (verdict = true <-> passes output).

Lemma variant_ran_later v b h h' : h `suffix_of` h' -> variant_ran v b h -> variant_ran v b h'.
Proof. intros Hs (c & before & output & Hc & Hsp & Hrest). exists c, before, output. split_and!; [done|by etrans|apply Hrest..]. Qed.

(** Logging and the verdict change neither. *)
Lemma runs_print_block name text output : runs (print_block name text output) always.
Proof. unfold print_block, println. runs_tac. Qed.
Lemma runs_variant a m peek verbose :
  runs (run_smoke_variant a m peek verbose) (fun _ r h' => forall b, r = Ok b -> peek = false -> variant_ran (a, m) b h').
Proof.
  unfold run_smoke_variant. cbv zeta. eapply runs_then; [apply runs_smoke_support| |done..].
  eapply (runs_try _ _ _ (fun x _ r h' => x = artifact_of a m -> forall b, r = Ok b -> peek = false -> variant_ran (a, m) b h'));
    [apply runs_build| |done|]; [|by intros h1 x h2 r h3 Hx _ Hr b; apply Hr, Hx].
  intros x. destruct (qemu_command_for (board_for a) x) as [c|e] eqn:Hc; [|by apply runs_ret].
  eapply (runs_after _ _ _ always); [destruct verbose; unfold eprintln; [eapply runs_any, runs_record|by apply runs_ret]| |done].
  eapply (runs_try _ _ _ (fun output _ r _ => forall b, r = Ok b -> peek = false -> b = true <-> passes output));
    [apply runs_with_timeout; by destruct peek| |done|].
  - intros output. do 2 (eapply runs_then; [apply runs_fs| |done..]). destruct peek.
    { eapply runs_after; [apply runs_print_block|by apply runs_ret|done]. }
    unfold passes. destruct (contains _ _) eqn:Hp.
    + eapply runs_after; [apply runs_record|apply runs_ret|done]. by intros _ b [= <-].
    + eapply runs_after; [apply runs_print_block|apply runs_ret|done]. by intros _ b [= <-].
  - intros h1 output h2 r h3 [Hs Ho] Hs2 Hr -> b Hb Hpeek. exists c, h1, output. split_and!; [done|by etrans|by apply Ho|by apply Hr].
Qed.

(** The loop counts the variants that failed, and cannot overflow. *)
Lemma runs_loop variants peek verbose failed :
  0 <= failed -> failed + Z.of_nat (length variants) < 2 ^ 64 ->
  runs (smoke_loop variants peek verbose failed) (fun _ r h' => forall n, r = Ok n -> failed <= n /\
    (n = failed -> peek = false -> Forall (fun v => variant_ran v true h') variants)).
Proof.
  revert failed. induction variants as [|[a m] variants IH]; intros failed H0 Hl; cbn [smoke_loop length] in *.
  - apply runs_ret. intros h n [= <-]. split; [lia|]. intros _ _. constructor.
  - eapply (runs_try _ _ _ (fun b _ r h' => forall n, r = Ok n -> failed <= n /\
      (n = failed -> b = true /\ (peek = false -> Forall (fun v => variant_ran v true h') variants))));
      [apply runs_variant| |done|].
    + intros [] h; apply wp_bind.
      * apply wp_ret. eapply wp_mono; [apply (IH failed); lia|]. intros r h' [Hs Hr]. split; [done|]. intros n Hn.
        destruct (Hr n Hn) as [Hge Hall]. split; [done|]. intros Heq. split; [done|]. by apply Hall.
      * apply wp_add_uint; [lia|]. eapply wp_mono; [apply (IH (failed + 1)); lia|]. intros r h' [Hs Hr]. split; [done|].
        intros n Hn. destruct (Hr n Hn) as [Hge _]. split; [lia|]. intros Heq. lia.
    + intros h1 b h2 r h3 Hran Hs Hr n Hn. destruct (Hr n Hn) as [Hge Hall]. split; [done|]. intros Heq Hpeek.
      destruct (Hall Heq) as [-> Hf]. constructor; [|by apply Hf]. eapply variant_ran_later; [exact Hs|]. by apply Hran.
Qed.

Lemma variants_few arch mode peek variants : smoke_variants arch mode peek = Ok variants -> (length variants <= 4)%nat.
Proof. destruct arch, mode; cbn; (done || (intros [= <-]; cbn; lia)). Qed.
Lemma runs_smoke args :
  runs (smoke_command args) (fun _ r h' => r = Ok tt -> smoke_peek args = false -> exists variants,
    smoke_variants (smoke_arch args) (smoke_mode args) false = Ok variants /\ Forall (fun v => variant_ran v true h') variants).
Proof.
  unfold smoke_command. change (smoke_variants (smoke_arch args) (smoke_mode args) (smoke_peek args))
    with (smoke_variants (smoke_arch args) (smoke_mode args) false).
  destruct (smoke_variants _ _ _) as [variants|e] eqn:Hv; [|by apply runs_ret]. apply variants_few in Hv.
  eapply (runs_try _ _ _ (fun n h r h' => h' = h /\ (r = Ok tt -> n = 0))); [apply runs_loop; lia| |done|].
  - intros n. apply runs_ret. intros h. split; [done|]. by destruct (Z.eqb_spec n 0).
  - intros h1 n h2 r h3 Hn _ [-> Hr] Hok Hpeek. exists variants. split; [done|]. destruct (Hn n eq_refl) as [_ Hall].
    by apply Hall; [apply Hr|].
Qed.
Lemma runs_host : runs host_command always.
Proof. unfold host_command, Arch_all, println. cbn [for_each]. runs_tac. Qed.
Lemma runs_run command : runs (run command) always.
Proof.
  destruct command as [a m|a m|args|verbose a m|a m| |]; cbn [run].
  - runs_tac. eapply runs_any, runs_build.
  - unfold qemu_command. runs_tac; solve [apply runs_smoke_support | eapply runs_any, runs_build].
  - eapply runs_any, runs_smoke.
  - eapply runs_any, runs_smoke.
  - unfold disasm_command. runs_tac; solve [apply runs_ensure_tool | eapply runs_any, runs_build | apply runs_run_status].
  - apply runs_host.
  - unfold clean_command, remove_dir_if_exists. apply runs_gets. intros h. destruct (negb _); [by apply wp_ret|apply runs_fs].
Qed.

(** Every command of the tool returns, with exit code 0 or 1; on code 1 the last
    thing printed is the reason. *)
Lemma tool_returns command h : exists code h', main command h = Done (code, h') /\ h `suffix_of` h' /\
  (code = 0 \/ code = 1 /\ exists error, head h' = Some (Warned (("tools: " ++ error) ++ newline))).
Proof.
  enough (wp (main command) (fun code h' => h `suffix_of` h' /\
    (code = 0 \/ code = 1 /\ exists error, head h' = Some (Warned (("tools: " ++ error) ++ newline)))) h) as Hwp.
  { apply wp_unfold in Hwp as (code & h' & Hrun & Hr). by exists code, h'. }
  unfold main. apply wp_bind. eapply wp_mono; [apply runs_run|]. intros [[]|error] h' [Hs _]; [apply wp_ret; by split; [|left]|].
  apply wp_bind, wp_modify, wp_ret. split; [etrans; [exact Hs|apply suffix_one]|]. right. split; [done|]. by exists error.
Qed.
Lemma smoke_exit_zero args h h' :
  smoke_peek args = false -> main (SmokeCmd args) h = Done (0, h') -> exists variants,
    smoke_variants (smoke_arch args) (smoke_mode args) false = Ok variants /\ Forall (fun v => variant_ran v true h') variants.
Proof.
  intros Hpeek Hrun. unfold main in Hrun. apply bind_Done in Hrun as (r & h1 & Hrun & Hmain).
  destruct (wp_Done _ _ _ _ _ (runs_smoke args h) Hrun) as [_ Hr]. destruct r as [[]|e].
  - injection Hmain as <-. by apply Hr.
  - apply bind_Done in Hmain as ([] & h2 & _ & [=]).
Qed.

(** (C38) The smoke test without [--peek] returns whatever the host's processes and
    files answer, when the host's clock goes on while the tool polls ([timed]):
    the processes it polls are killed at the time limit, and counting failures
    does not overflow.  It exits with code 0 only if, for every architecture and
    mode asked for, QEMU was started on the image that the build left for it and
    what it printed, with carriage returns dropped and from the line of the first
    mark on, contains [BOOT:OK]; asking for a mode without an architecture fails.
    Otherwise the exit code is 1 and the last thing printed is the reason. *)
Theorem smoke_test_sound args h :
  smoke_peek args = false -> exists code h', main (SmokeCmd args) h = Done (code, h') /\
  ((code = 0 /\ exists variants, smoke_variants (smoke_arch args) (smoke_mode args) false = Ok variants /\
      (smoke_arch args = None -> smoke_mode args = None) /\ Forall (fun v => variant_ran v true h') variants) \/
   (code = 1 /\ exists error, head h' = Some (Warned (("tools: " ++ error) ++ newline)))).
Proof.
  intros Hpeek. destruct (tool_returns (SmokeCmd args) h) as (code & h' & Hrun & _ & Hc). exists code, h'. split; [done|].
  destruct Hc as [->|Hc]; [left|by right]. destruct (smoke_exit_zero args h h' Hpeek Hrun) as (variants & Hv & Hall). split; [done|].
  exists variants. split_and!; [done| |done]. intros Ha. rewrite Ha in Hv. by destruct (smoke_mode args).
Qed.
End Tool.

(** ** A host whose QEMU prints a text and idles *)

Definition targets_text : list Z :=
  str_bytes ("aarch64-unknown-none-softfloat" ++ newline ++ "riscv64gc-unknown-none-elf" ++ newline).
Definition demo_child (out : list Z) : Child := {|
  child_ended _ := Ok false;
  child_elapsed n := 10 * Z.of_nat n;
  child_pipe stream := Some (Some (Ok (match stream with Stdout => out | Stderr => [] end)));
|}.
Definition demo_host (out : list Z) : HostSystem := {|
  host_arch := "aarch64"; host_os := "linux"; repo_root := "/repo"; env_var _ := None;
  command_status _ _ := Ok {| success := true; status_text := "exit status: 0" |};
  command_output _ _ := Ok ({| success := true; status_text := "exit status: 0" |}, targets_text);
  command_spawn _ _ := Ok (demo_child out);
  fs_create_dir_all _ _ := None; fs_copy _ _ _ := None; fs_write _ _ _ := None; fs_exists _ _ := true;
  fs_remove_dir_all _ _ := None; command_debug := cmd_program;
|}.
Lemma demo_timed out : @timed (demo_host out).
Proof. intros history c child [= <-] n. cbn. lia. Qed.

Definition demo_smoke : SmokeArgs :=
  {| smoke_peek := false; smoke_verbose := false; smoke_arch := Some Riscv64; smoke_mode := None |}.
Definition passing_text : list Z := str_bytes ("[BOOT:STARTED]" ++ newline ++ "[BOOT:OK]" ++ newline).
#[local] Instance passing_host : HostSystem := demo_host passing_text.
Lemma demo_smoke_passes : result (main (SmokeCmd demo_smoke)) [] = Some 0.
Proof. vm_compute. reflexivity. Qed.

Lemma smoke_test_sound_witness : exists h' variants, main (SmokeCmd demo_smoke) [] = Done (0, h') /\
  smoke_variants (Some Riscv64) None false = Ok variants /\ Forall (fun v => variant_ran v true h') variants.
Proof.
  destruct (smoke_test_sound (H:=passing_host) (demo_timed passing_text) demo_smoke [] eq_refl) as (code & h' & Hrun & Hc).
  assert (code = 0) as ->.
  { pose proof demo_smoke_passes as Hres. unfold result in Hres. rewrite Hrun in Hres. congruence. }
  destruct Hc as [(_ & variants & Hv & _ & Hall)|[[=] _]]. by exists h', variants.
Defined.
