(* ===== verification/Arm64MmuLemmas.v ===== *)
(** * Page tables of the ARM64 MMU

    Bit facts about descriptors, the tree that the walks traverse, and what
    installing and removing a leaf does to every translation. *)

From Stdlib Require Import Btauto.
From S2P Require Import Prelude Address HwInfo Pmm KernelStack Arm64Mmu.
From stdpp Require Import base tactics option list list_numbers numbers gmap strings.

#[local] Open Scope Z_scope.
#[local] Open Scope kernel_scope.

(** ** Descriptors *)

(** Equal disjunctions of the same words. *)
Ltac lor_eq := apply Z.bits_inj'; intros ? _; rewrite !Z.lor_spec; btauto.

Lemma output_mask_bit i : Z.testbit OUTPUT_MASK i = (12 <=? i) && (i <? 48).
Proof.
  change OUTPUT_MASK with (Z.shiftl (Z.ones 36) 12).
  destruct (Z.leb_spec 12 i) as [Hi|Hi]; simpl.
  - rewrite Z.shiftl_spec, Z.testbit_ones by lia. rewrite (proj2 (Z.leb_le 0 (i - 12))) by lia. simpl.
    destruct (Z.ltb_spec i 48); [apply Z.ltb_lt; lia|apply Z.ltb_ge; lia].
  - destruct (Z.leb_spec 0 i); [by apply Z.shiftl_spec_low|by apply Z.testbit_neg_r].
Qed.

Lemma output_mask_mod a : Z.land a OUTPUT_MASK = a mod 2 ^ 48 - a mod 2 ^ 12.
Proof.
  replace (Z.land a OUTPUT_MASK) with (Z.ldiff (Z.land a (Z.ones 48)) (Z.ones 12)).
  - rewrite Z.land_ones, Z.ldiff_ones_r, Z.shiftl_mul_pow2, Z.shiftr_div_pow2 by lia.
    replace (a mod 2 ^ 12) with ((a mod 2 ^ 48) mod 2 ^ 12).
    + pose proof (Z.div_mod (a mod 2 ^ 48) (2 ^ 12)). lia.
    + change (2 ^ 48) with (2 ^ 12 * 2 ^ 36). rewrite Z.rem_mul_r by lia.
      rewrite (Z.mul_comm (2 ^ 12)), Z.mod_add, Z.mod_mod by lia. done.
  - apply Z.bits_inj'. intros i Hi. rewrite Z.ldiff_spec, !Z.land_spec, output_mask_bit, !Z.testbit_ones by lia.
    rewrite (proj2 (Z.leb_le 0 i)) by lia. simpl.
    destruct (Z.ltb_spec i 48), (Z.ltb_spec i 12), (Z.leb_spec 12 i); simpl; rewrite ?andb_true_r, ?andb_false_r;
      simpl; try done; lia.
Qed.

(** An output address that fits the descriptor is kept. *)
Lemma output_mask_id a : a mod PAGE_SIZE = 0 -> 0 <= a < 2 ^ 48 -> Z.land a OUTPUT_MASK = a.
Proof.
  intros Ha Hb. rewrite output_mask_mod, (Z.mod_small a (2 ^ 48)) by lia.
  change (2 ^ 12) with PAGE_SIZE. lia.
Qed.

Lemma output_mask_idemp a : Z.land (Z.land a OUTPUT_MASK) OUTPUT_MASK = Z.land a OUTPUT_MASK.
Proof. by rewrite <-Z.land_assoc, Z.land_diag. Qed.

(** Masking a word of flag bits and an output address. *)
Lemma land_flags a flags mask : Z.land flags mask = 0 -> Z.land (Z.lor flags a) mask = Z.land a mask.
Proof. intros Hf. by rewrite Z.land_lor_distr_l, Hf. Qed.

(** The flag bits that [mapping] and [apply_permissions] set. *)
Definition leaf_flags (mem : MemoryKind) (page : bool) (p : MappingPermissions) : Z :=
  apply_permissions
    (Z.lor (match mem with Device => 0x601 | Normal => 0x70d end) (if page then TABLE_OR_PAGE else 0)) p.
Definition is_page_size (s : MappingSize) : bool := match s with Page4K => true | _ => false end.

Lemma apply_permissions_lor a b p : apply_permissions (Z.lor a b) p = Z.lor (apply_permissions a p) b.
Proof.
  unfold apply_permissions. destruct p as [[] [] []]; simpl; lor_eq.
Qed.

Lemma from_mapping_spec {S} (intent : MappingIntent) (s : S) :
  physical_address intent mod PAGE_SIZE = 0 ->
  from_mapping intent s = Done
    (Z.lor (leaf_flags (memory intent) (is_page_size (Address.size intent)) (permissions intent))
       (Z.land (physical_address intent) OUTPUT_MASK), s).
Proof.
  intros Hpa. assert (forall page, mapping intent page s = Done
    (Z.lor (leaf_flags (memory intent) page (permissions intent))
       (Z.land (physical_address intent) OUTPUT_MASK), s)) as Hm.
  { intros page. unfold mapping, aligned_output_address.
    rewrite (proj2 (is_page_aligned_spec _) Hpa). unfold bind, expect, ret. do 2 f_equal.
    set (o := Z.land _ _). unfold leaf_flags. rewrite <-apply_permissions_lor. f_equal.
    change 0x601 with (Z.lor (Z.lor (Z.lor VALID ACCESSED) OUTER_SHAREABLE) (Z.shiftl 0 2)).
    change 0x70d with (Z.lor (Z.lor (Z.lor VALID ACCESSED) INNER_SHAREABLE) (Z.shiftl 3 2)).
    unfold ATTRIBUTE_INDEX_SHIFT. destruct (memory intent), page; rewrite ?Z.lor_0_r; lor_eq. }
  unfold from_mapping. destruct (Address.size intent); apply Hm.
Qed.

Lemma land_out flags pa c : Z.land OUTPUT_MASK c = 0 ->
  Z.land (Z.lor flags (Z.land pa OUTPUT_MASK)) c = Z.land flags c.
Proof. intros Hc. by rewrite Z.land_lor_distr_l, <-Z.land_assoc, Hc, Z.land_0_r, Z.lor_0_r. Qed.

(** A word of flags and an output address: which descriptor it is. *)
Lemma descriptor_spec flags pa :
  Z.land flags OUTPUT_MASK = 0 -> Z.land flags VALID = VALID ->
  let e := Z.lor flags (Z.land pa OUTPUT_MASK) in
  is_valid e = true /\ is_table e = negb (Z.land flags TABLE_OR_PAGE =? 0) /\
  Z.land e OUTPUT_MASK = Z.land pa OUTPUT_MASK.
Proof.
  intros Hf Hv e. assert (is_valid e = true) as Hve.
  { unfold is_valid, e. rewrite land_out by done. by rewrite Hv. }
  split; [done|]. split.
  - unfold is_table. rewrite Hve. simpl. unfold e. by rewrite land_out by done.
  - unfold e. rewrite land_flags by done. apply output_mask_idemp.
Qed.

Lemma leaf_flags_spec mem page p :
  Z.land (leaf_flags mem page p) OUTPUT_MASK = 0 /\ Z.land (leaf_flags mem page p) VALID = VALID /\
  negb (Z.land (leaf_flags mem page p) TABLE_OR_PAGE =? 0) = page.
Proof. by destruct mem, page, p as [[] [] []]. Qed.

(** The descriptors the code writes. *)
Definition leaf_entry (pa : PhysicalAddress) (p : MappingPermissions) : Z :=
  Z.lor (leaf_flags Normal true p) (Z.land pa OUTPUT_MASK).
Definition link_entry (pa : PhysicalAddress) : Z := Z.lor 3 (Z.land pa OUTPUT_MASK).

Lemma leaf_entry_spec pa p :
  is_valid (leaf_entry pa p) = true /\ output_address (leaf_entry pa p) = Some (Z.land pa OUTPUT_MASK).
Proof.
  destruct (leaf_flags_spec Normal true p) as (H1 & H2 & _).
  destruct (descriptor_spec _ pa H1 H2) as (Hv & _ & Ho). split; [done|].
  unfold output_address, leaf_entry. by rewrite Hv, Ho.
Qed.

Lemma link_entry_spec pa :
  is_valid (link_entry pa) = true /\ is_table (link_entry pa) = true /\
  Z.land (link_entry pa) OUTPUT_MASK = Z.land pa OUTPUT_MASK.
Proof. by apply (descriptor_spec 3). Qed.

Lemma table_entry_spec pa : pa mod PAGE_SIZE = 0 -> table_entry pa = Some (link_entry pa).
Proof.
  intros Hpa. unfold table_entry, aligned_output_address. by rewrite (proj2 (is_page_aligned_spec _) Hpa).
Qed.

Lemma is_table_valid e : is_table e = true -> is_valid e = true /\ is_block e = false.
Proof. unfold is_table, is_block. intros [Hv Ht]%andb_true_iff. rewrite Hv. by apply negb_true_iff in Ht. Qed.
Lemma not_table_block e : is_valid e = true -> is_table e = false -> is_block e = true.
Proof. unfold is_table, is_block. intros -> Ht. simpl in *. by apply negb_false_iff in Ht. Qed.

(** ** The tree *)

(** Where a table descriptor leads. *)
Definition link_of (e : Z) : option Z :=
  if is_table e then Some (physical_to_virtual (Z.land e OUTPUT_MASK)) else None.
Definition child (l : list Z) (i : Z) : option Z :=
  match l !! Z.to_nat i with Some e => link_of e | None => None end.
(** The tables below an index of the kernel root, and below two indices. *)
Definition l2_ptr (m : Mmu) (i : Z) : option Z := child (high_table m) i.
Definition l3_ptr (m : Mmu) (i j : Z) : option Z :=
  match l2_ptr m i with
  | Some p => match tables m !! p with Some l => child l j | None => None end
  | None => None
  end.

Definition index (i : Z) : Prop := 0 <= i < 512.

Record tree_wf (m : Mmu) : Prop := {
  tw_high : length (high_table m) = 512%nat;
  tw_tables p l : tables m !! p = Some l -> length l = 512%nat;
  tw_l2 i p : index i -> l2_ptr m i = Some p -> is_Some (tables m !! p);
  tw_l3 i j p : index i -> index j -> l3_ptr m i j = Some p -> is_Some (tables m !! p);
  tw_l2_inj i i' p : index i -> index i' -> l2_ptr m i = Some p -> l2_ptr m i' = Some p -> i = i';
  tw_l3_inj i j i' j' p : index i -> index j -> index i' -> index j' ->
    l3_ptr m i j = Some p -> l3_ptr m i' j' = Some p -> i = i' /\ j = j';
  tw_apart i i' j p : index i -> index i' -> index j -> l2_ptr m i = Some p -> l3_ptr m i' j <> Some p;
}.

(** The walk as a function of the three indices: the descriptor that maps an
    address and the size of what it maps. *)
Definition walk_leaf (l : list Z) (va : VirtualAddress) : option (MappingSize * Z) :=
  match l !! Z.to_nat (l3_index va) with
  | Some e => if is_valid e then Some (Page4K, e) else None
  | None => None
  end.
Definition walk (m : Mmu) (va : VirtualAddress) : option (MappingSize * Z) :=
  match high_table m !! Z.to_nat (l1_index va) with
  | None => None
  | Some e1 =>
      if is_block e1 then Some (Block1G, e1)
      else match l2_ptr m (l1_index va) with
      | None => None
      | Some p =>
          match tables m !! p with
          | None => None
          | Some l =>
              match l !! Z.to_nat (l2_index va) with
              | None => None
              | Some e2 =>
                  if is_block e2 then Some (Block2M, e2)
                  else match l3_ptr m (l1_index va) (l2_index va) with
                  | None => None
                  | Some q => match tables m !! q with Some l => walk_leaf l va | None => None end
                  end
              end
          end
      end
  end.

(** The physical address an address translates to. *)
Definition size_mask (sz : MappingSize) : Z :=
  match sz with Page4K => PAGE_SIZE - 1 | Block2M => BLOCK_2M_MASK | Block1G => BLOCK_1G_MASK end.
Definition resolve (va : VirtualAddress) (r : option (MappingSize * Z)) : option PhysicalAddress :=
  match r with
  | Some (sz, e) => output_plus e (Z.land va (size_mask sz))
  | None => None
  end.

Lemma index_bound a k : index (Z.land (Z.shiftr a k) 0x1ff).
Proof. unfold index. change 0x1ff with (2 ^ 9 - 1). rewrite land_mask by lia. apply Z.mod_pos_bound. lia. Qed.

Lemma lookup_index (l : list Z) i : length l = 512%nat -> index i -> exists e, l !! Z.to_nat i = Some e.
Proof. intros Hl Hi. apply lookup_lt_is_Some_2. unfold index in Hi. lia. Qed.

Lemma get_entry_run t m l i e :
  entries t m = Some l -> l !! Z.to_nat i = Some e -> get_entry t i m = Done (e, m).
Proof. intros Hl He. unfold get_entry, bind, gets. rewrite Hl. unfold expect. by rewrite He. Qed.

Lemma invalid_no_link e : is_valid e = false -> is_block e = false /\ link_of e = None.
Proof. intros Hv. unfold is_block, link_of, is_table. by rewrite Hv. Qed.

Lemma link_of_out e : is_valid e = true -> is_block e = false ->
  output_address e = Some (Z.land e OUTPUT_MASK) /\
  link_of e = Some (physical_to_virtual (Z.land e OUTPUT_MASK)).
Proof.
  intros Hv Hb. unfold output_address, link_of. destruct (is_table e) eqn:Ht; [by rewrite Hv|].
  by rewrite (not_table_block e Hv Ht) in Hb.
Qed.

Lemma link_none_block e : is_valid e = true -> link_of e = None -> is_block e = true.
Proof. intros Hv. unfold link_of. destruct (is_table e) eqn:Ht; [done|]. intros _. by apply not_table_block. Qed.

Lemma link_of_Some e p : link_of e = Some p ->
  is_block e = false /\ is_valid e = true /\ is_table e = true /\
  p = physical_to_virtual (Z.land e OUTPUT_MASK).
Proof.
  unfold link_of. destruct (is_table e) eqn:Ht; [|done]. intros [= <-].
  by destruct (is_table_valid e Ht) as [-> ->].
Qed.

Lemma translate_walk m va :
  tree_wf m -> is_canonical va = true -> translate HighTable va m = Done (resolve va (walk m va), m).
Proof.
  intros Hwf Hc. unfold translate, walk. rewrite Hc. cbn [negb].
  destruct (lookup_index (high_table m) (l1_index va)) as [e1 He1]; [apply Hwf|apply index_bound|].
  unfold bind at 1. rewrite (get_entry_run HighTable m (high_table m) _ e1) by done. rewrite He1.
  destruct (is_valid e1) eqn:Hv1; cbn [negb].
  2:{ destruct (invalid_no_link e1 Hv1) as [-> Hlk]. unfold l2_ptr, child. by rewrite He1, Hlk. }
  destruct (is_block e1) eqn:Hb1; [done|]. destruct (link_of_out e1 Hv1 Hb1) as [-> Hlk].
  assert (l2_ptr m (l1_index va) = Some (physical_to_virtual (Z.land e1 OUTPUT_MASK))) as Hp1
    by (unfold l2_ptr, child; by rewrite He1).
  rewrite Hp1. destruct (tw_l2 m Hwf _ _ (index_bound _ _) Hp1) as [l Hl]. rewrite Hl.
  destruct (lookup_index l (l2_index va)) as [e2 He2]; [by eapply Hwf|apply index_bound|].
  unfold bind at 1. rewrite (get_entry_run (table_from_physical _) m l _ e2) by done. rewrite He2.
  destruct (is_valid e2) eqn:Hv2; cbn [negb].
  2:{ destruct (invalid_no_link e2 Hv2) as [-> Hlk2]. unfold l3_ptr. rewrite Hp1, Hl. unfold child.
      by rewrite He2, Hlk2. }
  destruct (is_block e2) eqn:Hb2; [done|]. destruct (link_of_out e2 Hv2 Hb2) as [-> Hlk2].
  assert (l3_ptr m (l1_index va) (l2_index va) = Some (physical_to_virtual (Z.land e2 OUTPUT_MASK))) as Hp2
    by (unfold l3_ptr; rewrite Hp1, Hl; unfold child; by rewrite He2).
  rewrite Hp2. destruct (tw_l3 m Hwf _ _ _ (index_bound _ _) (index_bound _ _) Hp2) as [l3 Hl3]. rewrite Hl3.
  destruct (lookup_index l3 (l3_index va)) as [e3 He3]; [by eapply Hwf|apply index_bound|].
  unfold bind at 1. rewrite (get_entry_run (table_from_physical _) m l3 _ e3) by done.
  unfold walk_leaf. rewrite He3. by destruct (is_valid e3).
Qed.

(** ** Changing the tree *)

(** Equal pointers make an equally well-formed tree. *)
Lemma tree_wf_same m m' :
  tree_wf m -> length (high_table m') = 512%nat ->
  (forall p l, tables m' !! p = Some l -> length l = 512%nat) ->
  (forall p, is_Some (tables m !! p) -> is_Some (tables m' !! p)) ->
  (forall i, index i -> l2_ptr m' i = l2_ptr m i) ->
  (forall i j, index i -> index j -> l3_ptr m' i j = l3_ptr m i j) ->
  tree_wf m'.
Proof.
  intros [] Hh Ht Hp H2 H3. split; [done|done|..]; intros.
  - rewrite H2 in *; eauto.
  - rewrite H3 in *; eauto.
  - rewrite H2 in *; eauto.
  - rewrite !H3 in *; eauto.
  - rewrite H2 in *; [|done]. rewrite H3; eauto.
Qed.

(** Writing entry [k] of the leaf table below [i] and [j]. *)
Lemma leaf_tree m m' i j q l k v :
  tree_wf m -> index i -> index j -> l3_ptr m i j = Some q -> tables m !! q = Some l ->
  high_table m' = high_table m -> tables m' = <[q := <[k := v]> l]> (tables m) ->
  tree_wf m' /\
  forall va, walk m' va =
    if decide (l1_index va = i /\ l2_index va = j) then walk_leaf (<[k := v]> l) va else walk m va.
Proof.
  intros Hwf Hi Hj Hq Hl Hh Ht.
  assert (forall i', l2_ptr m' i' = l2_ptr m i') as H2 by (intros; unfold l2_ptr; by rewrite Hh).
  assert (forall i' p, index i' -> l2_ptr m i' = Some p -> tables m' !! p = tables m !! p) as Hkeep.
  { intros i' p Hi' Hp. rewrite Ht, lookup_insert_ne; [done|]. intros <-.
    by apply (tw_apart m Hwf i' i j q) in Hp. }
  assert (forall i' j', index i' -> l3_ptr m' i' j' = l3_ptr m i' j') as H3.
  { intros i' j' Hi'. unfold l3_ptr. rewrite H2. destruct (l2_ptr m i') as [p|] eqn:Hp; [|done].
    by rewrite (Hkeep i' p). }
  split.
  - apply (tree_wf_same m); try done; try by (intros; auto).
    + rewrite Hh. apply Hwf.
    + intros p l'. rewrite Ht. destruct (decide (p = q)) as [->|Hne].
      * rewrite lookup_insert_eq. intros [= <-]. rewrite length_insert. by eapply Hwf.
      * rewrite lookup_insert_ne by done. apply Hwf.
    + intros p Hp. rewrite Ht, lookup_insert. case_decide; [by eexists|done].
  - intros va. pose proof (index_bound va 30 : index (l1_index va)) as B1.
    pose proof (index_bound va 21 : index (l2_index va)) as B2.
    unfold walk. rewrite Hh, H2, H3 by done.
    destruct (decide _) as [[E1 E2]|Hne].
    + rewrite E1, E2, Hq. unfold l3_ptr, child in Hq. unfold l2_ptr, child in *.
      destruct (high_table m !! Z.to_nat i) as [e1|] eqn:He1; [|done].
      destruct (link_of e1) as [p|] eqn:Hlk; [|done].
      assert (is_block e1 = false) as -> by (by eapply link_of_Some).
      destruct (tables m !! p) as [l2|] eqn:Hl2; [|done].
      rewrite (Hkeep i p Hi) by (unfold l2_ptr, child; by rewrite He1). rewrite Hl2.
      destruct (l2 !! Z.to_nat j) as [e2|]; [|done].
      assert (is_block e2 = false) as -> by (by eapply link_of_Some).
      by rewrite Ht, lookup_insert_eq.
    + destruct (high_table m !! Z.to_nat (l1_index va)); [|done]. destruct (is_block z); [done|].
      destruct (l2_ptr m (l1_index va)) as [p|] eqn:Hp; [|done]. rewrite (Hkeep _ p B1 Hp).
      destruct (tables m !! p) as [l2|]; [|done]. destruct (l2 !! Z.to_nat (l2_index va)) as [e2|]; [|done].
      destruct (is_block e2); [done|]. destruct (l3_ptr m (l1_index va) (l2_index va)) as [q'|] eqn:Hq'; [|done].
      rewrite Ht, lookup_insert_ne; [done|]. intros ->. apply Hne.
      exact (tw_l3_inj m Hwf _ _ _ _ _ B1 B2 Hi Hj Hq' Hq).
Qed.

(** A page that is no table becomes a zeroed one. *)
Lemma fresh_tree m m' p :
  tree_wf m -> tables m !! p = None ->
  high_table m' = high_table m -> tables m' = <[p := replicate 512 0]> (tables m) ->
  tree_wf m' /\ (forall va, walk m' va = walk m va) /\
  (forall i, index i -> l2_ptr m' i = l2_ptr m i /\ l2_ptr m i <> Some p) /\
  (forall i j, index i -> index j -> l3_ptr m' i j = l3_ptr m i j /\ l3_ptr m i j <> Some p).
Proof.
  intros Hwf Hp Hh Ht.
  assert (forall i', l2_ptr m' i' = l2_ptr m i') as H2 by (intros; unfold l2_ptr; by rewrite Hh).
  assert (forall i', index i' -> l2_ptr m i' <> Some p) as N2.
  { intros i' Hi' Hq. destruct (tw_l2 m Hwf i' p Hi' Hq). congruence. }
  assert (forall i' q, index i' -> l2_ptr m i' = Some q -> tables m' !! q = tables m !! q) as Hkeep.
  { intros i' q Hi' Hq. rewrite Ht, lookup_insert_ne; [done|]. intros <-. by apply (N2 i'). }
  assert (forall i' j', index i' -> l3_ptr m' i' j' = l3_ptr m i' j') as H3.
  { intros i' j' Hi'. unfold l3_ptr. rewrite H2. destruct (l2_ptr m i') as [q|] eqn:Hq; [|done].
    by rewrite (Hkeep i' q). }
  assert (forall i' j', index i' -> index j' -> l3_ptr m i' j' <> Some p) as N3.
  { intros i' j' Hi' Hj' Hq. destruct (tw_l3 m Hwf i' j' p Hi' Hj' Hq). congruence. }
  split_and!; [|..|by intros; auto|by intros; auto].
  - apply (tree_wf_same m); try done; try by (intros; auto).
    + rewrite Hh. apply Hwf.
    + intros q l'. rewrite Ht, lookup_insert. case_decide; [by intros [= <-]|apply Hwf].
    + intros q Hq. rewrite Ht, lookup_insert. case_decide; [by eexists|done].
  - intros va. pose proof (index_bound va 30 : index (l1_index va)) as B1.
    pose proof (index_bound va 21 : index (l2_index va)) as B2.
    unfold walk. rewrite Hh, H2, H3 by done.
    destruct (high_table m !! Z.to_nat (l1_index va)); [|done]. destruct (is_block z); [done|].
    destruct (l2_ptr m (l1_index va)) as [q|] eqn:Hq; [|done]. rewrite (Hkeep _ q B1 Hq).
    destruct (tables m !! q) as [l2|]; [|done]. destruct (l2 !! Z.to_nat (l2_index va)) as [e2|]; [|done].
    destruct (is_block e2); [done|]. destruct (l3_ptr m (l1_index va) (l2_index va)) as [q'|] eqn:Hq'; [|done].
    rewrite Ht, lookup_insert_ne; [done|]. intros <-. by apply (N3 _ _ B1 B2) in Hq'.
Qed.

Lemma child_zero j : child (replicate 512 0) j = None.
Proof.
  unfold child. destruct (replicate 512 0 !! Z.to_nat j) as [e|] eqn:He; [|done].
  by apply lookup_replicate in He as [-> _].
Qed.
Lemma walk_leaf_zero va : walk_leaf (replicate 512 0) va = None.
Proof.
  unfold walk_leaf. destruct (replicate 512 0 !! Z.to_nat (l3_index va)) as [e|] eqn:He; [|done].
  by apply lookup_replicate in He as [-> _].
Qed.

Lemma child_insert (l : list Z) i e i' :
  length l = 512%nat -> index i -> index i' ->
  child (<[Z.to_nat i := e]> l) i' = if decide (i' = i) then link_of e else child l i'.
Proof.
  intros Hl Hi Hi'. unfold child, index in *. case_decide as Heq.
  - subst. by rewrite list_lookup_insert_eq by lia.
  - rewrite list_lookup_insert_ne by lia. done.
Qed.

(** Linking an unused zeroed table into the root. *)
Lemma l1_link_tree m m' i e0 e p :
  tree_wf m -> index i -> high_table m !! Z.to_nat i = Some e0 -> is_valid e0 = false ->
  tables m !! p = Some (replicate 512 0) ->
  (forall i', index i' -> l2_ptr m i' <> Some p) ->
  (forall i' j', index i' -> index j' -> l3_ptr m i' j' <> Some p) ->
  link_of e = Some p ->
  high_table m' = <[Z.to_nat i := e]> (high_table m) -> tables m' = tables m ->
  tree_wf m' /\ (forall va, walk m' va = walk m va) /\ l2_ptr m' i = Some p.
Proof.
  intros Hwf Hi He0 Hv0 Hp N2 N3 He Hh Ht. pose proof (tw_high m Hwf) as Hlen.
  assert (forall i', index i' -> l2_ptr m' i' = if decide (i' = i) then Some p else l2_ptr m i') as H2.
  { intros i' Hi'. unfold l2_ptr. rewrite Hh, child_insert by done. by rewrite He. }
  assert (l2_ptr m i = None) as Hnone.
  { unfold l2_ptr, child. rewrite He0. by apply invalid_no_link. }
  assert (forall i' j', index i' -> index j' -> l3_ptr m' i' j' = l3_ptr m i' j') as H3.
  { intros i' j' Hi' Hj'. unfold l3_ptr. rewrite H2, Ht by done. case_decide as Heq; [|done].
    subst i'. by rewrite Hp, child_zero, Hnone. }
  split; [|split].
  - split.
    + by rewrite Hh, length_insert.
    + rewrite Ht. apply Hwf.
    + intros i' q Hi' Hq. rewrite Ht. rewrite H2 in Hq by done. case_decide; [|exact (tw_l2 m Hwf i' q Hi' Hq)].
      injection Hq as <-. by eexists.
    + intros i' j' q Hi' Hj' Hq. rewrite Ht. rewrite H3 in Hq by done. exact (tw_l3 m Hwf i' j' q Hi' Hj' Hq).
    + intros i1 i2 q B1 B2 Q1 Q2. rewrite H2 in Q1, Q2 by done.
      destruct (decide (i1 = i)) as [->|], (decide (i2 = i)) as [->|]; try done.
      * injection Q1 as <-. by destruct (N2 i2).
      * injection Q2 as <-. by destruct (N2 i1).
      * exact (tw_l2_inj m Hwf i1 i2 q B1 B2 Q1 Q2).
    + intros i1 j1 i2 j2 q Bi1 Bj1 Bi2 Bj2 Q1 Q2. rewrite H3 in Q1, Q2 by done.
      exact (tw_l3_inj m Hwf _ _ _ _ q Bi1 Bj1 Bi2 Bj2 Q1 Q2).
    + intros i1 i2 j q B1 B2 Bj Q1. rewrite H2 in Q1 by done. rewrite H3 by done.
      case_decide; [|exact (tw_apart m Hwf i1 i2 j q B1 B2 Bj Q1)]. injection Q1 as <-. by apply N3.
  - intros va. pose proof (index_bound va 30 : index (l1_index va)) as B1.
    pose proof (index_bound va 21 : index (l2_index va)) as B2.
    unfold walk. rewrite Hh, H2, H3, Ht by done. destruct (decide (l1_index va = i)) as [->|Hne].
    + rewrite list_lookup_insert_eq, He0, Hp by (unfold index in Hi; lia).
      destruct (link_of_Some e p He) as (-> & _). destruct (invalid_no_link e0 Hv0) as [-> _].
      rewrite Hnone. destruct (replicate 512 0 !! Z.to_nat (l2_index va)) as [e2|] eqn:He2; [|done].
      apply lookup_replicate in He2 as [-> _]. cbn. unfold l3_ptr. by rewrite Hnone.
    + rewrite list_lookup_insert_ne by (unfold index in *; lia). done.
  - rewrite H2 by done. by rewrite decide_True.
Qed.

(** Linking an unused zeroed table below index [i]. *)
Section L2Link.
Context (m m' : Mmu) (i j p : Z) (l : list Z) (e0 e q : Z).
Hypothesis Hwf : tree_wf m.
Hypotheses (Hi : index i) (Hj : index j).
Hypothesis Hp : l2_ptr m i = Some p.
Hypothesis Hl : tables m !! p = Some l.
Hypothesis He0 : l !! Z.to_nat j = Some e0.
Hypothesis Hv0 : is_valid e0 = false.
Hypothesis Hq : tables m !! q = Some (replicate 512 0).
Hypothesis N2 : forall i', index i' -> l2_ptr m i' <> Some q.
Hypothesis N3 : forall i' j', index i' -> index j' -> l3_ptr m i' j' <> Some q.
Hypothesis He : link_of e = Some q.
Hypothesis Hh : high_table m' = high_table m.
Hypothesis Ht : tables m' = <[p := <[Z.to_nat j := e]> l]> (tables m).

Lemma l2_link_l2 i' : l2_ptr m' i' = l2_ptr m i'.
Proof. unfold l2_ptr. by rewrite Hh. Qed.
Lemma l2_link_none : l3_ptr m i j = None.
Proof. unfold l3_ptr. rewrite Hp, Hl. unfold child. rewrite He0. by apply invalid_no_link. Qed.
Lemma l2_link_keep i' p' : index i' -> i' <> i -> l2_ptr m i' = Some p' -> tables m' !! p' = tables m !! p'.
Proof.
  intros Hi' Hne Hp'. rewrite Ht, lookup_insert_ne; [done|]. intros <-. by apply Hne, (tw_l2_inj m Hwf _ _ p).
Qed.
Lemma l2_link_l3 i' j' : index i' -> index j' ->
  l3_ptr m' i' j' = if decide (i' = i /\ j' = j) then Some q else l3_ptr m i' j'.
Proof.
  intros Hi' Hj'. pose proof (tw_tables m Hwf p l Hl) as Hlen. unfold l3_ptr. rewrite l2_link_l2. destruct (decide (i' = i)) as [->|Hne].
  - rewrite Hp, Hl, Ht, lookup_insert_eq, child_insert, He by done.
    destruct (decide (j' = j)); [rewrite decide_True by done|rewrite decide_False by tauto]; done.
  - rewrite decide_False by tauto. destruct (l2_ptr m i') as [p'|] eqn:Hp'; [|done]. by rewrite (l2_link_keep i' p').
Qed.

Lemma l2_link_wf : tree_wf m'.
Proof.
  pose proof (tw_tables m Hwf p l Hl) as Hlen. split.
  - rewrite Hh. apply Hwf.
  - intros p' l'. rewrite Ht, lookup_insert. case_decide; [|apply Hwf]. intros [= <-]. by rewrite length_insert.
  - intros i' p' Hi'. rewrite l2_link_l2, Ht, lookup_insert. intros Hp'. case_decide; [by eexists|exact (tw_l2 m Hwf i' p' Hi' Hp')].
  - intros i' j' p' Hi' Hj'. rewrite l2_link_l3, Ht, lookup_insert by done. intros Hp'.
    destruct (decide (p = p')) as [|Hpp]; [by eexists|].
    destruct (decide (i' = i /\ j' = j)); [injection Hp' as <-; by eexists|exact (tw_l3 m Hwf i' j' p' Hi' Hj' Hp')].
  - intros i1 i2 p' B1 B2. rewrite !l2_link_l2. by apply (tw_l2_inj m Hwf).
  - intros i1 j1 i2 j2 p' Bi1 Bj1 Bi2 Bj2. rewrite !l2_link_l3 by done. intros Q1 Q2.
    destruct (decide (i1 = i /\ j1 = j)) as [[-> ->]|]; destruct (decide (i2 = i /\ j2 = j)) as [[-> ->]|]; try done.
    + injection Q1 as <-. by destruct (N3 i2 j2).
    + injection Q2 as <-. by destruct (N3 i1 j1).
    + exact (tw_l3_inj m Hwf _ _ _ _ p' Bi1 Bj1 Bi2 Bj2 Q1 Q2).
  - intros i1 i2 j2 p' B1 B2 Bj. rewrite l2_link_l2, l2_link_l3 by done. intros Q1.
    case_decide; [|exact (tw_apart m Hwf i1 i2 j2 p' B1 B2 Bj Q1)]. intros [= ->]. by apply (N2 i1).
Qed.

Lemma l2_link_walk va : walk m' va = walk m va.
Proof.
  pose proof (tw_tables m Hwf p l Hl) as Hlen. pose proof (index_bound va 30 : index (l1_index va)) as B1.
  pose proof (index_bound va 21 : index (l2_index va)) as B2.
  unfold walk. rewrite Hh, l2_link_l2, l2_link_l3 by done.
  destruct (high_table m !! Z.to_nat (l1_index va)); [|done]. destruct (is_block z); [done|].
  destruct (decide (l1_index va = i)) as [->|Hne].
  - rewrite Hp, Hl, Ht, lookup_insert_eq. destruct (decide (l2_index va = j)) as [->|Hnj].
    + rewrite decide_True by done. rewrite list_lookup_insert_eq by (unfold index in Hj; lia). rewrite He0.
      destruct (link_of_Some e q He) as (-> & _). destruct (invalid_no_link e0 Hv0) as [-> _].
      rewrite l2_link_none. rewrite lookup_insert_ne by (intros ->; by apply (N2 i)). by rewrite Hq, walk_leaf_zero.
    + rewrite decide_False by tauto. rewrite list_lookup_insert_ne by (unfold index in *; lia).
      destruct (l !! Z.to_nat (l2_index va)) as [e2|]; [|done]. destruct (is_block e2); [done|].
      destruct (l3_ptr m i (l2_index va)) as [q'|] eqn:Hq'; [|done].
      rewrite lookup_insert_ne; [done|]. intros <-. by apply (tw_apart m Hwf i i (l2_index va) p Hi Hi B2 Hp).
  - rewrite decide_False by tauto. destruct (l2_ptr m (l1_index va)) as [p'|] eqn:Hp'; [|done].
    rewrite (l2_link_keep _ p' B1 Hne Hp'). destruct (tables m !! p') as [l2|]; [|done].
    destruct (l2 !! Z.to_nat (l2_index va)) as [e2|]; [|done]. destruct (is_block e2); [done|].
    destruct (l3_ptr m (l1_index va) (l2_index va)) as [q'|] eqn:Hq'; [|done].
    rewrite Ht, lookup_insert_ne; [done|]. intros <-. by apply (tw_apart m Hwf i _ (l2_index va) p Hi B1 B2 Hp).
Qed.

Lemma l2_link_tree : tree_wf m' /\ (forall va, walk m' va = walk m va) /\ l3_ptr m' i j = Some q.
Proof. split; [exact l2_link_wf|]. split; [exact l2_link_walk|]. by rewrite l2_link_l3, decide_True. Qed.
End L2Link.

(** ** The operations *)

Lemma next_table_run {S E} (e : Z) (conflict missing : E) (s : S) :
  next_table e conflict missing s = Done (match link_of e with
    | Some p => Ok (TableAt p)
    | None => Err (if is_valid e then conflict else missing)
    end, s).
Proof.
  unfold next_table, link_of. destruct (is_table e) eqn:Ht; [|done]. cbn [negb].
  unfold output_address. by destruct (is_table_valid e Ht) as [-> _].
Qed.

(** Two addresses with the same three indices. *)
Definition same_page (va va' : VirtualAddress) : Prop :=
  l1_index va = l1_index va' /\ l2_index va = l2_index va' /\ l3_index va = l3_index va'.
#[global] Instance same_page_dec va va' : Decision (same_page va va').
Proof. unfold same_page. apply _. Defined.

(** The leaf slot of an address: the table it is in and its entry. *)
Record leaf_slot (m : Mmu) (va : VirtualAddress) (q : Z) (l : list Z) (e : Z) : Prop := {
  ls_ptr : l3_ptr m (l1_index va) (l2_index va) = Some q;
  ls_table : tables m !! q = Some l;
  ls_entry : l !! Z.to_nat (l3_index va) = Some e;
}.

Lemma leaf_slot_walk m va q l e : leaf_slot m va q l e ->
  walk m va = if is_valid e then Some (Page4K, e) else None.
Proof.
  intros [Hq Hl He]. unfold walk. unfold l3_ptr, l2_ptr, child in *.
  destruct (high_table m !! Z.to_nat (l1_index va)) as [e1|]; [|done].
  destruct (link_of e1) as [p|] eqn:Hlk; [|done]. destruct (link_of_Some e1 p Hlk) as (-> & _).
  destruct (tables m !! p) as [l2|]; [|done]. destruct (l2 !! Z.to_nat (l2_index va)) as [e2|]; [|done].
  destruct (link_of_Some e2 q Hq) as (-> & _). rewrite Hq, Hl. unfold walk_leaf. by rewrite He.
Qed.

Lemma walk_valid m va sz e : walk m va = Some (sz, e) -> is_valid e = true.
Proof.
  assert (forall e, is_block e = true -> is_valid e = true) as Hb by (intros ? [? _]%andb_true_iff; done).
  unfold walk, walk_leaf. intros Hw. repeat case_match; simplify_eq; auto.
Qed.

(** Why an address has no leaf slot: no table on its path, or a block. *)
Inductive no_leaf (m : Mmu) (va : VirtualAddress) : bool -> Prop :=
  | no_leaf_l1 e :
      high_table m !! Z.to_nat (l1_index va) = Some e -> link_of e = None -> no_leaf m va (is_valid e)
  | no_leaf_l2 p l e :
      l2_ptr m (l1_index va) = Some p -> tables m !! p = Some l ->
      l !! Z.to_nat (l2_index va) = Some e -> link_of e = None -> no_leaf m va (is_valid e).

Lemma no_leaf_walk m va : no_leaf m va false -> walk m va = None.
Proof.
  intros Hn. inversion Hn as [e He Hlk Hv|p l e Hp Hl He Hlk Hv]; unfold walk.
  - rewrite He. destruct (invalid_no_link e Hv) as [-> _]. unfold l2_ptr, child. by rewrite He, Hlk.
  - unfold l2_ptr, child in Hp. destruct (high_table m !! Z.to_nat (l1_index va)) as [e1|] eqn:He1; [|done].
    destruct (link_of_Some e1 p Hp) as (-> & _). unfold l3_ptr, l2_ptr, child. rewrite He1, Hp, Hl, He.
    destruct (invalid_no_link e Hv) as [-> ->]. done.
Qed.

Lemma no_leaf_block m va : no_leaf m va true -> exists sz e, sz <> Page4K /\ walk m va = Some (sz, e).
Proof.
  intros Hn. inversion Hn as [e He Hlk Hv|p l e Hp Hl He Hlk Hv]; unfold walk.
  - rewrite He, (link_none_block e Hv Hlk). by exists Block1G, e.
  - unfold l2_ptr, child in *. destruct (high_table m !! Z.to_nat (l1_index va)) as [e1|] eqn:He1; [|done].
    destruct (link_of_Some e1 p Hp) as (-> & _). rewrite Hp, Hl, He, (link_none_block e Hv Hlk).
    by exists Block2M, e.
Qed.

(** The walk of [map_page] and [unmap_page] to the leaf table. *)
Definition find_leaf {E} (va : VirtualAddress) (conflict missing : E) : M Mmu (Result TableRef E) :=
  let! entry := get_entry HighTable (l1_index va) in
  try! l2_table := next_table entry conflict missing in
  let! entry := get_entry l2_table (l2_index va) in
  next_table entry conflict missing.

Lemma find_leaf_spec {E} m va (conflict missing : E) :
  tree_wf m ->
  wp (find_leaf va conflict missing) (fun r m' => m' = m /\
    match r with
    | Ok t => exists q l e, t = TableAt q /\ leaf_slot m va q l e
    | Err e => exists b, no_leaf m va b /\ e = if b then conflict else missing
    end) m.
Proof.
  intros Hwf. unfold find_leaf. apply wp_bind.
  destruct (lookup_index (high_table m) (l1_index va)) as [e1 He1]; [apply Hwf|apply index_bound|].
  eapply wp_run; [by apply get_entry_run with (l := high_table m)|]. apply wp_bind.
  eapply wp_run; [apply next_table_run|]. destruct (link_of e1) as [p|] eqn:Hlk1.
  2:{ apply wp_ret. split; [done|]. exists (is_valid e1). split; [by eapply no_leaf_l1|done]. }
  assert (l2_ptr m (l1_index va) = Some p) as Hp by (unfold l2_ptr, child; by rewrite He1).
  destruct (tw_l2 m Hwf _ _ (index_bound _ _) Hp) as [l Hl]. apply wp_bind.
  destruct (lookup_index l (l2_index va)) as [e2 He2]; [by eapply Hwf|apply index_bound|].
  eapply wp_run; [by apply get_entry_run with (l := l)|].
  eapply wp_run; [apply next_table_run|]. split; [done|]. destruct (link_of e2) as [q|] eqn:Hlk2.
  2:{ exists (is_valid e2). split; [by eapply no_leaf_l2|done]. }
  assert (l3_ptr m (l1_index va) (l2_index va) = Some q) as Hq
    by (unfold l3_ptr; rewrite Hp, Hl; unfold child; by rewrite He2).
  destruct (tw_l3 m Hwf _ _ _ (index_bound _ _) (index_bound _ _) Hq) as [l3 Hl3].
  destruct (lookup_index l3 (l3_index va)) as [e3 He3]; [by eapply Hwf|apply index_bound|].
  by exists q, l3, e3.
Qed.

(** The state after writing a leaf and flushing its address. *)
Record leaf_written (m : Mmu) (va : VirtualAddress) (v : Z) (m' : Mmu) : Prop := {
  lw_wf : tree_wf m';
  lw_walk va' : walk m' va' =
    if decide (same_page va va') then
      (if is_valid v then Some (Page4K, v) else None)
    else walk m va';
  lw_slot : exists q l, leaf_slot m' va q l v;
  lw_tlb : tlb m' = tlb m ++ [FlushAddress (flush_address_operand va)];
  lw_low : low_table m' = low_table m;
  lw_high : high_table m' = high_table m;
  lw_dom p : is_Some (tables m' !! p) <-> is_Some (tables m !! p);
}.

Lemma write_leaf m va q l e v :
  tree_wf m -> leaf_slot m va q l e ->
  wp (set_entry (TableAt q) (l3_index va) v ;;; flush_address va) (fun _ m' => leaf_written m va v m') m.
Proof.
  intros Hwf Hs. pose proof Hs as [Hq Hl He]. pose proof (tw_tables m Hwf q l Hl) as Hlen.
  pose proof (index_bound va 12 : index (l3_index va)) as B3. unfold index in B3.
  unfold set_entry. apply wp_bind, wp_bind, wp_gets. cbn [entries]. rewrite Hl.
  rewrite (proj2 (Z.ltb_lt _ _)) by lia. apply wp_modify. unfold flush_address. apply wp_modify.
  set (m1 := log_tlb _ _).
  destruct (leaf_tree m m1 _ _ q l (Z.to_nat (l3_index va)) v Hwf (index_bound _ _) (index_bound _ _) Hq Hl)
    as [Hwf1 Hwalk]; [done|done|].
  assert (tables m1 = <[q := <[Z.to_nat (l3_index va) := v]> l]> (tables m)) as Ht by done.
  assert (leaf_slot m1 va q (<[Z.to_nat (l3_index va) := v]> l) v) as Hslot.
  { split.
    - unfold l3_ptr, l2_ptr in *. change (high_table m1) with (high_table m).
      destruct (child (high_table m) (l1_index va)) as [p|] eqn:Hp; [|done].
      rewrite Ht, lookup_insert_ne; [done|]. intros ->.
      apply (tw_apart m Hwf (l1_index va) (l1_index va) (l2_index va) p);
        [apply index_bound..|exact Hp|exact (ls_ptr _ _ _ _ _ Hs)].
    - by rewrite Ht, lookup_insert_eq.
    - by rewrite list_lookup_insert_eq by lia. }
  split; try done.
  - intros va'. rewrite Hwalk. destruct (decide (same_page va va')) as [(E1 & E2 & E3)|Hne].
    + rewrite decide_True by done. unfold walk_leaf. rewrite E3, list_lookup_insert_eq; [done|].
      rewrite <-E3. lia.
    + destruct (decide _) as [[E1 E2]|]; [|done].
      assert (l3_index va' <> l3_index va) as E3 by (intros E3; by apply Hne).
      pose proof (index_bound va' 12 : index (l3_index va')) as B3'. unfold index in B3'.
      unfold walk_leaf. rewrite list_lookup_insert_ne by lia.
      destruct (lookup_index l (l3_index va')) as [e' He']; [done|done|].
      rewrite He'. symmetry. apply (leaf_slot_walk m va' q l e'). split; [by rewrite E1, E2|done|done].
  - by eexists _, _.
  - intros p. rewrite Ht, lookup_insert. case_decide; [|done]. subst. rewrite Hl. split; by eexists.
Qed.

Lemma find_leaf_bind {A E} va (conflict missing : E) (k : TableRef -> M Mmu (Result A E)) :
  meq (let! entry := get_entry HighTable (l1_index va) in
       try! l2_table := next_table entry conflict missing in
       let! entry := get_entry l2_table (l2_index va) in
       try! l3_table := next_table entry conflict missing in
       k l3_table)
      (try! l3_table := find_leaf va conflict missing in k l3_table).
Proof.
  intros m. unfold find_leaf, bind. destruct (get_entry HighTable (l1_index va) m) as [[e1 m1]| | |]; [|done..].
  destruct (next_table e1 conflict missing m1) as [[[t|e] m2]| | |]; [|done..].
  by destruct (get_entry t (l2_index va) m2) as [[e2 m3]| | |].
Qed.

Lemma get_leaf_run m va q l e : leaf_slot m va q l e -> get_entry (TableAt q) (l3_index va) m = Done (e, m).
Proof. intros [_ Hl He]. by apply get_entry_run with (l := l). Qed.

(** What [unmap_page] does. *)
Lemma unmap_page_spec m va :
  tree_wf m ->
  wp (unmap_page HighTable va) (fun r m' =>
    match r with
    | Ok pa => is_canonical va = true /\ (exists q l e, leaf_slot m va q l e /\ is_valid e = true /\
        pa = Z.land e OUTPUT_MASK) /\ leaf_written m va INVALID m'
    | Err UnmapError_NotCanonical => m' = m /\ is_canonical va = false
    | Err UnmapError_NotMapped => m' = m /\ is_canonical va = true /\ walk m va = None
    | Err UnmapError_SuperpageConflict => m' = m /\ is_canonical va = true /\ no_leaf m va true
    end) m.
Proof.
  intros Hwf. unfold unmap_page. destruct (is_canonical va) eqn:Hc; cbn [negb]; [|by apply wp_ret].
  eapply wp_meq; [apply find_leaf_bind|]. apply wp_bind.
  eapply wp_mono; [by apply find_leaf_spec|]. intros [t|err] m' [-> Hr].
  2:{ apply wp_ret. destruct Hr as (b & Hb & ->). destruct b; [done|]. split_and!; [done|done|].
      by apply no_leaf_walk. }
  destruct Hr as (q & l & e & -> & Hs). apply wp_bind. eapply wp_run; [by eapply get_leaf_run|].
  destruct (is_valid e) eqn:Hv; cbn [negb].
  2:{ apply wp_ret. split_and!; [done|done|]. rewrite (leaf_slot_walk m va q l e Hs). by rewrite Hv. }
  unfold output_address. rewrite Hv. pose proof (write_leaf m va q l e INVALID Hwf Hs) as Hw.
  apply (proj1 (wp_bind _ _ _ _)) in Hw. apply wp_bind. eapply wp_mono; [exact Hw|]. intros [] m1 Hw1.
  apply wp_bind. eapply wp_mono; [exact Hw1|]. intros [] m2 Hlw. apply wp_ret.
  split_and!; [done| |done]. by exists q, l, e.
Qed.

Lemma install_page_spec m va q l e pa p :
  tree_wf m -> leaf_slot m va q l e -> pa mod PAGE_SIZE = 0 ->
  wp (install_page (TableAt q) va pa p) (fun r m' =>
    match r with
    | Ok _ => is_valid e = false /\ leaf_written m va (leaf_entry pa p) m'
    | Err err => m' = m /\ is_valid e = true /\ err = MapError_AlreadyMapped
    end) m.
Proof.
  intros Hwf Hs Hpa. unfold install_page. apply wp_bind. eapply wp_run; [by eapply get_leaf_run|].
  destruct (is_valid e) eqn:Hv; [by apply wp_ret|]. rewrite MappingIntent_new_page by done.
  apply wp_bind. eapply wp_run; [by apply from_mapping_spec|].
  pose proof (write_leaf m va q l e (leaf_entry pa p) Hwf Hs) as Hw.
  apply (proj1 (wp_bind _ _ _ _)) in Hw. apply wp_bind. eapply wp_mono; [exact Hw|]. intros [] m1 Hw1.
  apply wp_bind. eapply wp_mono; [exact Hw1|]. intros [] m2 Hlw. by apply wp_ret.
Qed.

Lemma map_page_spec m va pa p :
  tree_wf m ->
  wp (map_page HighTable va pa p) (fun r m' =>
    match r with
    | Ok _ => is_canonical va = true /\ va mod PAGE_SIZE = 0 /\ pa mod PAGE_SIZE = 0 /\
        walk m va = None /\ leaf_written m va (leaf_entry pa p) m'
    | Err MapError_NotAligned => m' = m /\ (va mod PAGE_SIZE <> 0 \/ pa mod PAGE_SIZE <> 0)
    | Err MapError_NotCanonical => m' = m /\ is_canonical va = false
    | Err MapError_TableNotPresent => m' = m /\ no_leaf m va false
    | Err MapError_SuperpageConflict => m' = m /\ no_leaf m va true
    | Err MapError_AlreadyMapped => m' = m /\ exists q l e, leaf_slot m va q l e /\ is_valid e = true
    | Err MapError_OutOfMemory => False
    end) m.
Proof.
  intros Hwf. unfold map_page.
  destruct (VirtualAddress_is_page_aligned va) eqn:Hva; cbn [negb orb].
  2:{ apply wp_ret. split; [done|]. left. rewrite <-virtual_is_page_aligned_spec. congruence. }
  destruct (PhysicalAddress_is_page_aligned pa) eqn:Hpa; cbn [negb].
  2:{ apply wp_ret. split; [done|]. right. rewrite <-is_page_aligned_spec. congruence. }
  apply virtual_is_page_aligned_spec in Hva. apply is_page_aligned_spec in Hpa.
  destruct (is_canonical va) eqn:Hc; cbn [negb]; [|by apply wp_ret].
  eapply wp_meq; [apply find_leaf_bind|]. apply wp_bind.
  eapply wp_mono; [by apply find_leaf_spec|]. intros [t|err] m' [-> Hr].
  2:{ apply wp_ret. by destruct Hr as ([] & Hb & ->). }
  destruct Hr as (q & l & e & -> & Hs). eapply wp_mono; [by eapply install_page_spec|].
  intros [[]|err] m'; [|intros (-> & Hv & ->); split; [done|by exists q, l, e]].
  intros (Hv & Hlw). split_and!; try done. rewrite (leaf_slot_walk m va q l e Hs). by rewrite Hv.
Qed.
