(* ===== verification/Arm64MmuWorld.v ===== *)
(** * Kernel page mappings on the page allocator

    The ARM64 page tables together with the page allocator that their tables
    come from: the invariant that every table page is a page the MMU leaked, and
    what mapping with table allocation does to every translation and to every
    other owner of memory. *)

From S2P Require Import Prelude Address HwInfo Pmm PmmReserved PmmFreeList PmmAlloc PmmInit PmmClients.
From S2P Require Import KernelStack PageMapper Arm64Mmu Arm64MmuLemmas.
From stdpp Require Import base tactics option list list_numbers numbers gmap strings.

#[local] Open Scope Z_scope.
#[local] Open Scope kernel_scope.

Section World.
Context `{PageLayout}.
(** The page allocator as [pmm::init] left it; descriptors hold 48-bit output
    addresses, and all its memory has such addresses. *)
Variable s0 : Pmm.
Definition small_memory : Prop := forall pa, managed s0 pa -> 0 <= pa < 2 ^ 48.
Hypothesis Hsmall : small_memory.

(** ** The physmap *)

Lemma physmap_round_trip phys : 0 <= phys < 2 ^ 64 -> virtual_to_physical (physical_to_virtual phys) = phys.
Proof.
  intros Hp. unfold virtual_to_physical, physical_to_virtual, wrapping_sub, wrapping_add, KERNEL_VIRTUAL_BASE.
  divlia.
Qed.
Lemma physmap_inj p1 p2 :
  0 <= p1 < 2 ^ 64 -> 0 <= p2 < 2 ^ 64 -> physical_to_virtual p1 = physical_to_virtual p2 -> p1 = p2.
Proof. intros H1 H2 Heq. by rewrite <-(physmap_round_trip p1), <-(physmap_round_trip p2), Heq. Qed.

(** ** The invariant *)

Record world_ok (w : World Mmu) (os : list holding) (l : list PageHandle) : Prop := {
  wo_client : client_inv s0 (w_pmm w) os l;
  wo_tree : tree_wf (w_mmu w);
  wo_tables p : is_Some (tables (w_mmu w) !! p) ->
    exists h phys, HoldLeaked h phys ∈ os /\ p = physical_to_virtual phys;
}.


(** A page just leaked is no table yet. *)
Lemma leaked_fresh w os s l h phys :
  world_ok w os l -> forall l', client_inv s0 s (HoldLeaked h phys :: os) l' ->
  0 <= phys < 2 ^ 48 /\ phys mod PAGE_SIZE = 0 /\ tables (w_mmu w) !! physical_to_virtual phys = None.
Proof.
  intros [Hcl Htree Htab] l' Hc'. pose proof (ci_wf _ _ _ _ Hc') as Hwf'.
  apply Forall_cons in Hwf' as [Hph Hos]. simpl in Hph.
  pose proof (pi_core _ _ (ci_inv _ _ _ _ Hc')) as Hcore. pose proof (pi_layout _ _ Hcore) as Hlw.
  pose proof (ci_held _ _ _ _ Hc') as Hheld. unfold all_held in Hheld. simpl in Hheld.
  apply Forall_cons in Hheld as [Hv Hheld].
  assert (forall h phys, valid s h -> physical_of s h = Some phys -> 0 <= phys < 2 ^ 48) as Hbound.
  { intros h' phys' Hv' Hp'. apply Hsmall. exists h'. rewrite <-(frame_physical_of s0 s) by apply Hc'.
    by rewrite <-(frame_valid s0 s) by apply Hc'. }
  pose proof (Hbound h phys Hv Hph) as Hb.
  split; [done|]. split; [by apply (physical_of_aligned s h)|].
  destruct (tables (w_mmu w) !! physical_to_virtual phys) as [t|] eqn:Ht; [exfalso|done].
  destruct (Htab (physical_to_virtual phys) ltac:(by eexists)) as (h2 & phys2 & Hin & Heq).
  pose proof (Forall_elem _ _ _ Hos Hin) as Hph2. simpl in Hph2.
  assert (h2 ∈ all_held os) as Hh2.
  { unfold all_held. apply list_elem_of_bind. exists (HoldLeaked h2 phys2). split; [by left|done]. }
  assert (valid s h2) as Hv2 by (by apply (Forall_elem _ _ _ Hheld)).
  pose proof (Hbound h2 phys2 Hv2 Hph2) as Hb2.
  apply physmap_inj in Heq; [|lia..]. subst phys2.
  assert (h = h2) as <- by (by apply (physical_of_inj s h h2 phys)).
  pose proof (ci_nodup _ _ _ _ Hc') as Hnd. apply NoDup_app in Hnd as (_ & _ & Hnd).
  unfold all_held in Hnd. simpl in Hnd. by apply NoDup_cons in Hnd as [Hn _].
Qed.

(** ** Allocating tables *)

(** [w'] differs from [w] only in leaked pages and tables that no translation
    uses. *)
Record extends (w : World Mmu) (os : list holding) (w' : World Mmu) (os' : list holding) : Prop := {
  ex_ok : exists l', world_ok w' os' l';
  ex_leaked : leaked_more os os';
  ex_walk va : walk (w_mmu w') va = walk (w_mmu w) va;
  ex_slot : w_next_slot w' = w_next_slot w;
  ex_tlb : tlb (w_mmu w') = tlb (w_mmu w);
  ex_low : low_table (w_mmu w') = low_table (w_mmu w);
}.

Lemma extends_refl w os l : world_ok w os l -> extends w os w os.
Proof. intros Hok. split; try done. by exists l. Qed.
Lemma extends_trans w1 os1 w2 os2 w3 os3 :
  extends w1 os1 w2 os2 -> extends w2 os2 w3 os3 -> extends w1 os1 w3 os3.
Proof.
  intros [_ L1 W1 S1 T1 B1] [O2 L2 W2 S2 T2 B2].
  split; [done|by eapply leaked_trans|intros va; by rewrite W2|congruence..].
Qed.

(** The page tables with a zeroed table at [p] that nothing points to. *)
Record spare (m : Mmu) (p : Z) (phys : PhysicalAddress) : Prop := {
  sp_ptr : p = physical_to_virtual phys;
  sp_phys : 0 <= phys < 2 ^ 48;
  sp_aligned : phys mod PAGE_SIZE = 0;
  sp_table : tables m !! p = Some (replicate 512 0);
  sp_l2 i : index i -> l2_ptr m i <> Some p;
  sp_l3 i j : index i -> index j -> l3_ptr m i j <> Some p;
}.

Lemma allocate_page_table_spec w os l :
  world_ok w os l ->
  wp allocate_page_table (fun r w' => exists os', extends w os w' os' /\
    high_table (w_mmu w') = high_table (w_mmu w) /\
    (forall i, index i -> l2_ptr (w_mmu w') i = l2_ptr (w_mmu w) i) /\
    (forall i j, index i -> index j -> l3_ptr (w_mmu w') i j = l3_ptr (w_mmu w) i j) /\
    (forall q t, tables (w_mmu w) !! q = Some t -> tables (w_mmu w') !! q = Some t) /\
    match r with
    | Some p => exists phys, spare (w_mmu w') p phys
    | None => True
    end) w.
Proof.
  intros Hok. pose proof Hok as [Hcl Htree Htab]. unfold allocate_page_table.
  apply wp_bind, lift_pmm_wp. eapply wp_mono; [exact (alloc_step s0 _ _ _ Hcl)|].
  intros [h|] s1 [l1 Hc1].
  2:{ apply wp_ret. exists os. split; [|done]. split; try done. exists l1; by split. }
  apply wp_bind, lift_pmm_wp. eapply wp_mono; [exact (leak_step s0 _ _ _ _ Hc1)|].
  intros r s2 (-> & phys & -> & Hc2). cbn [w_mmu w_pmm w_next_slot].
  destruct (leaked_fresh w os s1 l h phys Hok l1 Hc2) as (Hb & Hal & Hfresh).
  apply wp_bind, lift_mmu_wp, wp_modify, wp_ret. cbn [w_mmu w_pmm w_next_slot].
  set (p := physical_to_virtual phys) in *. set (m1 := set_tables _ _).
  destruct (fresh_tree (w_mmu w) m1 p Htree Hfresh eq_refl eq_refl) as (Hwf1 & Hwalk & H2 & H3).
  exists (HoldLeaked h phys :: os). split_and!; try done.
  - split; try done.
    + exists l1. split; [done|done|]. intros q Hq.
      change (tables m1) with (<[p := replicate 512 0]> (tables (w_mmu w))) in Hq. cbn in Hq.
      destruct (decide (q = p)) as [->|Hne].
      * exists h, phys. split; [by left|done].
      * rewrite lookup_insert_ne in Hq by done. destruct (Htab q Hq) as (h' & ph' & Hin & ->).
        exists h', ph'. split; [by right|done].
    + exists [HoldLeaked h phys]. split; [done|]. constructor; [by eexists _, _|constructor].
  - intros i j Hi Hj. by apply H3.
  - intros q t Hq. cbn. rewrite lookup_insert_ne; [done|]. intros <-. congruence.
  - exists phys. split; try done.
    + cbn. by rewrite lookup_insert_eq.
    + intros i Hi. destruct (H2 i Hi) as [E N]. cbn in *. by rewrite E.
    + intros i j Hi Hj. destruct (H3 i j Hi Hj) as [E N]. cbn in *. by rewrite E.
Qed.

Lemma spare_link m p phys : spare m p phys -> link_of (link_entry phys) = Some p /\
  table_entry (virtual_to_physical p) = Some (link_entry phys).
Proof.
  intros [-> Hb Hal _ _ _]. destruct (link_entry_spec phys) as (_ & Ht & Ho).
  split.
  - unfold link_of. by rewrite Ht, Ho, output_mask_id.
  - rewrite physmap_round_trip by lia. by apply table_entry_spec.
Qed.

(** The end of [ensure_table]: the linked table is found again. *)
Lemma reread_link w t l i e p :
  entries t (w_mmu w) = Some l -> l !! Z.to_nat i = Some e -> link_of e = Some p ->
  (let! entry := lift_mmu (get_entry t i) in
   let! out := expect "called `Option::unwrap()` on a `None` value" (output_address entry) in
   ret (Ok (table_from_physical out) : Result TableRef MapError)) w = Done (Ok (TableAt p), w).
Proof.
  intros Hl He Hlk. destruct (link_of_Some e p Hlk) as (_ & Hv & _ & ->).
  unfold bind, lift_mmu. rewrite (get_entry_run t (w_mmu w) l i e Hl He).
  unfold output_address. rewrite Hv. cbn. by destruct w.
Qed.

(** What the caller of [ensure_table] learns. *)
Definition ensured (w : World Mmu) (os : list holding) (ptr : Mmu -> option Z) (e0 : Z)
    (r : Result TableRef MapError) (w' : World Mmu) : Prop :=
  exists os', extends w os w' os' /\
  match r with
  | Ok t => exists p, t = TableAt p /\ ptr (w_mmu w') = Some p
  | Err MapError_SuperpageConflict => w' = w /\ is_valid e0 = true /\ link_of e0 = None
  | Err MapError_OutOfMemory => is_valid e0 = false
  | Err _ => False
  end.

(** Both levels differ in where the new link is written and what it changes. *)
Lemma ensure_table_spec w os l t i tbl e0 (ptr : Mmu -> option Z) :
  world_ok w os l -> index i -> t <> LowTable ->
  entries t (w_mmu w) = Some tbl -> length tbl = 512%nat -> tbl !! Z.to_nat i = Some e0 ->
  (forall p, link_of e0 = Some p -> ptr (w_mmu w) = Some p) ->
  (is_valid e0 = false -> forall w1 os1 p phys,
    extends w os w1 os1 -> high_table (w_mmu w1) = high_table (w_mmu w) ->
    (forall i, index i -> l2_ptr (w_mmu w1) i = l2_ptr (w_mmu w) i) ->
    (forall q t, tables (w_mmu w) !! q = Some t -> tables (w_mmu w1) !! q = Some t) ->
    spare (w_mmu w1) p phys ->
    entries t (w_mmu w1) = Some tbl /\
    let m2 := set_entries t (<[Z.to_nat i := link_entry phys]> tbl) (w_mmu w1) in
    tree_wf m2 /\ (forall va, walk m2 va = walk (w_mmu w1) va) /\ ptr m2 = Some p /\
    (forall q, is_Some (tables m2 !! q) -> is_Some (tables (w_mmu w1) !! q))) ->
  wp (ensure_table allocate_page_table t i) (ensured w os ptr e0) w.
Proof.
  intros Hok Hi Hlow Htbl Hlen He0 Hptr Hnew. unfold ensure_table. apply wp_bind, lift_mmu_wp.
  eapply wp_run; [by apply (get_entry_run t _ tbl i e0)|]. cbn.
  replace {| w_pmm := w_pmm w; w_next_slot := w_next_slot w; w_mmu := w_mmu w |} with w by (by destruct w).
  pose proof (extends_refl w os l Hok) as Hrefl. apply wp_bind.
  destruct (is_valid e0) eqn:Hv0; cbn [negb].
  - destruct (is_table e0) eqn:Ht0; cbn [negb]; apply wp_ret.
    + assert (link_of e0 = Some (physical_to_virtual (Z.land e0 OUTPUT_MASK))) as Hlk
        by (unfold link_of; by rewrite Ht0).
      eapply wp_run; [by eapply reread_link|]. exists os. split; [done|]. eexists. split; [done|by apply Hptr].
    + apply wp_ret. exists os. split; [done|]. split_and!; [done|done|]. unfold link_of. by rewrite Ht0.
  - specialize (Hnew eq_refl). apply wp_bind.
    eapply wp_mono; [by apply (allocate_page_table_spec w os l)|].
    intros [p|] w1 (os1 & Hex & Hh & H2 & _ & Ht & Hr); [|apply wp_ret, wp_ret; by exists os1].
    destruct Hr as [phys Hsp]. destruct (spare_link _ _ _ Hsp) as [Hlk ->].
    destruct (Hnew w1 os1 p phys Hex Hh H2 Ht Hsp) as (Htbl1 & Hwf2 & Hwalk2 & Hptr2 & Hdom2).
    apply wp_bind, lift_mmu_wp. unfold set_entry. apply wp_bind, wp_gets. rewrite Htbl1.
    unfold index in Hi. rewrite (proj2 (Z.ltb_lt _ _)) by lia. apply wp_modify, wp_ret.
    set (m2 := set_entries t _ _) in *.
    eapply wp_run; [eapply (reread_link _ t (<[Z.to_nat i := link_entry phys]> tbl) i (link_entry phys) p)|].
    + unfold m2. cbn [w_mmu]. by destruct t; cbn; rewrite ?lookup_insert_eq.
    + by rewrite list_lookup_insert_eq by lia.
    + done.
    + exists os1. split; [|by exists p]. destruct Hex as [[l1 [Hc1 _ Hd1]] L W S T B].
      split; cbn; try done.
      * exists l1. split; [done|done|]. intros q Hq. by apply Hd1, Hdom2.
      * intros va. by rewrite Hwalk2.
      * rewrite <-T. by destruct t.
      * rewrite <-B. destruct t; try done.
Qed.

Lemma ensure_l2_table w os l va :
  world_ok w os l -> exists e0, high_table (w_mmu w) !! Z.to_nat (l1_index va) = Some e0 /\
  wp (ensure_table allocate_page_table HighTable (l1_index va))
    (ensured w os (fun m => l2_ptr m (l1_index va)) e0) w.
Proof.
  intros Hok. pose proof (wo_tree _ _ _ Hok) as Hwf. pose proof (index_bound va 30 : index (l1_index va)) as B1.
  destruct (lookup_index (high_table (w_mmu w)) (l1_index va)) as [e0 He0]; [apply Hwf|done|].
  exists e0. split; [done|].
  apply (ensure_table_spec w os l HighTable _ (high_table (w_mmu w)) e0); try done; [apply Hwf|..].
  - intros p Hp. unfold l2_ptr, child. by rewrite He0.
  - intros Hv w1 os1 p phys Hex Hh H2 Ht Hsp. cbn [entries]. split; [by rewrite Hh|].
    destruct (ex_ok _ _ _ _ Hex) as [l1 Hok1]. pose proof (spare_link _ _ _ Hsp) as [Hlk _]. destruct Hsp.
    destruct (l1_link_tree (w_mmu w1) (set_high (<[Z.to_nat (l1_index va) := link_entry phys]> (high_table (w_mmu w)))
      (w_mmu w1)) (l1_index va) e0 (link_entry phys) p) as (Hwf2 & Hwalk & Hptr); try done.
    + apply Hok1.
    + by rewrite Hh.
    + cbn. by rewrite Hh.
Qed.

Lemma ensure_l3_table w os l va p :
  world_ok w os l -> l2_ptr (w_mmu w) (l1_index va) = Some p ->
  exists t e0, tables (w_mmu w) !! p = Some t /\ t !! Z.to_nat (l2_index va) = Some e0 /\
  wp (ensure_table allocate_page_table (TableAt p) (l2_index va))
    (ensured w os (fun m => l3_ptr m (l1_index va) (l2_index va)) e0) w.
Proof.
  intros Hok Hp. pose proof (wo_tree _ _ _ Hok) as Hwf. pose proof (index_bound va 30 : index (l1_index va)) as B1.
  pose proof (index_bound va 21 : index (l2_index va)) as B2.
  destruct (tw_l2 _ Hwf _ _ B1 Hp) as [t Ht]. pose proof (tw_tables _ Hwf _ _ Ht) as Hlen.
  destruct (lookup_index t (l2_index va) Hlen B2) as [e0 He0]. exists t, e0. split_and!; [done|done|].
  apply (ensure_table_spec w os l (TableAt p) _ t e0); try done.
  - intros q Hq. unfold l3_ptr. rewrite Hp, Ht. unfold child. by rewrite He0.
  - intros Hv w1 os1 q phys Hex Hh H2 Htt Hsp. cbn [entries]. split; [by apply Htt|].
    destruct (ex_ok _ _ _ _ Hex) as [l1 Hok1]. pose proof (spare_link _ _ _ Hsp) as [Hlk _]. destruct Hsp.
    destruct (l2_link_tree (w_mmu w1) (set_tables (<[p := <[Z.to_nat (l2_index va) := link_entry phys]> t]>
      (tables (w_mmu w1))) (w_mmu w1)) (l1_index va) (l2_index va) p t e0 (link_entry phys) q)
      as (Hwf2 & Hwalk & Hptr); try done.
    + apply Hok1.
    + by rewrite H2.
    + by apply Htt.
    + split_and!; try done. intros q' Hq'. cbn in Hq'. rewrite lookup_insert in Hq'. case_decide as Heq; [|done].
      subst. rewrite (Htt _ _ Ht). by eexists.
Qed.

(** ** Kernel mappings as an abstract address space *)

(** The descriptor and the size that every address is mapped with. *)
Definition space : Type := VirtualAddress -> option (MappingSize * Z).
Definition space_update (A : space) (va : VirtualAddress) (v : option (MappingSize * Z)) : space :=
  fun va' => if decide (same_page va va') then v else A va'.

Definition map_spec (A : space) (va : VirtualAddress) (pa : PhysicalAddress) (p : MappingPermissions) :
    Result unit MapError * space :=
  if decide (va mod PAGE_SIZE <> 0 \/ pa mod PAGE_SIZE <> 0) then (Err MapError_NotAligned, A)
  else if negb (is_canonical va) then (Err MapError_NotCanonical, A)
  else match A va with
  | Some (Page4K, _) => (Err MapError_AlreadyMapped, A)
  | Some (_, _) => (Err MapError_SuperpageConflict, A)
  | None => (Ok tt, space_update A va (Some (Page4K, leaf_entry pa p)))
  end.

Definition unmap_spec (A : space) (va : VirtualAddress) : Result PhysicalAddress UnmapError * space :=
  if negb (is_canonical va) then (Err UnmapError_NotCanonical, A)
  else match A va with
  | Some (Page4K, e) => (Ok (Z.land e OUTPUT_MASK), space_update A va None)
  | Some (_, _) => (Err UnmapError_SuperpageConflict, A)
  | None => (Err UnmapError_NotMapped, A)
  end.

(** Success flushes the address; refusals flush nothing. *)
Definition flush_of {A E} (r : Result A E) (va : VirtualAddress) : list TlbOp :=
  match r with Ok _ => [FlushAddress (flush_address_operand va)] | Err _ => [] end.

(** A step of the world that keeps the invariant, leaks pages at most, and
    turns the address space [A] into [A']. *)
Record space_step (w : World Mmu) (os : list holding) (A' : space) (flushes : list TlbOp)
    (w' : World Mmu) (os' : list holding) : Prop := {
  ss_ok : exists l', world_ok w' os' l';
  ss_leaked : leaked_more os os';
  ss_space va : walk (w_mmu w') va = A' va;
  ss_slot : w_next_slot w' = w_next_slot w;
  ss_tlb : tlb (w_mmu w') = tlb (w_mmu w) ++ flushes;
}.

Lemma extends_step w os w' os' : extends w os w' os' -> space_step w os (walk (w_mmu w)) [] w' os'.
Proof. intros [O L W S T B]. split; try done. by rewrite app_nil_r. Qed.

(** What mapping a kernel page with allocation does: the abstract operation, or
    nothing when a table is needed and there is no memory for it. *)
Definition mapped_page (w : World Mmu) (os : list holding) (va : VirtualAddress) (pa : PhysicalAddress)
    (p : MappingPermissions) (r : Result unit MapError) (w' : World Mmu) : Prop :=
  exists os' A',
    space_step w os A' (flush_of r va) w' os' /\
    ((r, A') = map_spec (walk (w_mmu w)) va pa p \/
     r = Err MapError_OutOfMemory /\ A' = walk (w_mmu w) /\
       map_spec (walk (w_mmu w)) va pa p = (Ok tt, space_update A' va (Some (Page4K, leaf_entry pa p)))).

Lemma map_refused w os w' os' va pa p e :
  extends w os w' os' -> map_spec (walk (w_mmu w)) va pa p = (Err e, walk (w_mmu w)) ->
  mapped_page w os va pa p (Err e) w'.
Proof. intros Hex Hs. exists os', (walk (w_mmu w)). split; [by apply extends_step|by left]. Qed.

Lemma map_spec_checked A va pa p :
  VirtualAddress_is_page_aligned va = true -> PhysicalAddress_is_page_aligned pa = true ->
  is_canonical va = true ->
  map_spec A va pa p = match A va with
    | Some (Page4K, _) => (Err MapError_AlreadyMapped, A)
    | Some (_, _) => (Err MapError_SuperpageConflict, A)
    | None => (Ok tt, space_update A va (Some (Page4K, leaf_entry pa p)))
    end.
Proof.
  intros Hva%virtual_is_page_aligned_spec Hpa%is_page_aligned_spec Hc. unfold map_spec.
  rewrite decide_False by tauto. by rewrite Hc.
Qed.

(** The error of [ensure_table] on the way to the leaf table. *)
Lemma ensure_refused w os w1 os1 w2 va pa p e ptr err :
  VirtualAddress_is_page_aligned va = true -> PhysicalAddress_is_page_aligned pa = true ->
  is_canonical va = true ->
  extends w os w1 os1 -> ensured w1 os1 ptr e (Err err) w2 ->
  (is_valid e = false -> walk (w_mmu w1) va = None) ->
  (is_valid e = true -> link_of e = None -> no_leaf (w_mmu w1) va true) ->
  mapped_page w os va pa p (Err err) w2.
Proof.
  intros Hva Hpa Hc Hex1 (os2 & Hex2 & Herr) Hinv Hblk.
  pose proof (extends_trans _ _ _ _ _ _ Hex1 Hex2) as Hex.
  pose proof (map_spec_checked (walk (w_mmu w)) va pa p Hva Hpa Hc) as Hs.
  rewrite <-(ex_walk _ _ _ _ Hex1) in Hs. destruct err; try done.
  - destruct Herr as (_ & Hv & Hlk). apply (map_refused _ _ _ os2); [done|]. rewrite Hs.
    by destruct (no_leaf_block _ _ (Hblk Hv Hlk)) as ([] & e' & Hsz & ->).
  - rewrite (Hinv Herr) in Hs. exists os2, (walk (w_mmu w)). split; [by apply extends_step|]. by right.
Qed.

Lemma map_kernel_page_spec w os l va pa p :
  world_ok w os l ->
  wp (map_kernel_page_with_alloc allocate_page_table va pa p) (mapped_page w os va pa p) w.
Proof.
  intros Hok. pose proof (extends_refl w os l Hok) as Hrefl.
  unfold map_kernel_page_with_alloc, map_page_with_alloc.
  destruct (VirtualAddress_is_page_aligned va) eqn:Hva; cbn [negb orb].
  2:{ apply wp_ret, (map_refused _ _ _ os); [done|]. unfold map_spec. rewrite decide_True; [done|].
      left. rewrite <-virtual_is_page_aligned_spec. congruence. }
  destruct (PhysicalAddress_is_page_aligned pa) eqn:Hpa; cbn [negb].
  2:{ apply wp_ret, (map_refused _ _ _ os); [done|]. unfold map_spec. rewrite decide_True; [done|].
      right. rewrite <-is_page_aligned_spec. congruence. }
  destruct (is_canonical va) eqn:Hc; cbn [negb].
  2:{ apply wp_ret, (map_refused _ _ _ os); [done|]. unfold map_spec.
      rewrite virtual_is_page_aligned_spec in Hva. rewrite is_page_aligned_spec in Hpa.
      rewrite decide_False by tauto. by rewrite Hc. }
  destruct (ensure_l2_table w os l va Hok) as (e1 & He1 & Hw1). apply wp_bind.
  eapply wp_mono; [exact Hw1|]. intros [t|err] w1 Hr1.
  2:{ apply wp_ret. eapply (ensure_refused w os w os); try done.
      - intros Hv. apply no_leaf_walk. rewrite <-Hv. by eapply no_leaf_l1; [|apply invalid_no_link].
      - intros Hv Hlk. rewrite <-Hv. by apply no_leaf_l1. }
  destruct Hr1 as (os1 & Hex1 & q1 & -> & Hq1). destruct (ex_ok _ _ _ _ Hex1) as [l1 Hok1].
  destruct (ensure_l3_table w1 os1 l1 va q1 Hok1 Hq1) as (t1 & e2 & Ht1 & He2 & Hw2). apply wp_bind.
  eapply wp_mono; [exact Hw2|]. intros [t|err] w2 Hr2.
  2:{ apply wp_ret. eapply (ensure_refused w os w1 os1); try done.
      - intros Hv. apply no_leaf_walk. rewrite <-Hv. by eapply no_leaf_l2; [..|apply invalid_no_link].
      - intros Hv Hlk. rewrite <-Hv. by eapply no_leaf_l2. }
  destruct Hr2 as (os2 & Hex2 & q & -> & Hq). destruct (ex_ok _ _ _ _ Hex2) as [l2 Hok2].
  pose proof (extends_trans _ _ _ _ _ _ Hex1 Hex2) as Hex. pose proof (wo_tree _ _ _ Hok2) as Hwf2.
  pose proof (index_bound va 30 : index (l1_index va)) as B1.
  pose proof (index_bound va 21 : index (l2_index va)) as B2.
  destruct (tw_l3 _ Hwf2 _ _ _ B1 B2 Hq) as [t3 Ht3]. pose proof (tw_tables _ Hwf2 _ _ Ht3) as Hlen3.
  destruct (lookup_index t3 (l3_index va) Hlen3 (index_bound va 12)) as [e3 He3].
  assert (leaf_slot (w_mmu w2) va q t3 e3) as Hs by done.
  pose proof (map_spec_checked (walk (w_mmu w)) va pa p Hva Hpa Hc) as Hspec.
  rewrite <-(ex_walk _ _ _ _ Hex), (leaf_slot_walk _ _ _ _ _ Hs) in Hspec.
  apply is_page_aligned_spec in Hpa. apply lift_mmu_wp.
  eapply wp_mono; [exact (install_page_spec _ va q t3 e3 pa p Hwf2 Hs Hpa)|]. intros [[]|err] m3.
  2:{ intros (-> & Hv3 & ->). rewrite Hv3 in Hspec. apply (map_refused w os _ os2); [by destruct w2|done]. }
  intros [Hv3 [Lwf Lwalk _ Ltlb Llow Lhigh Ldom]]. rewrite Hv3 in Hspec.
  exists os2, (space_update (walk (w_mmu w)) va (Some (Page4K, leaf_entry pa p))).
  split; [|by left]. destruct Hex as [_ L W S T B]. split; try done.
  - exists l2. destruct Hok2 as [Hc2 _ Hd2]. split; [done|done|]. intros q' Hq'. apply Hd2, Ldom, Hq'.
  - intros va'. cbn [w_mmu]. rewrite Lwalk, W. by destruct (leaf_entry_spec pa p) as [-> _].
  - cbn [w_mmu]. by rewrite Ltlb, T.
Qed.

(** What unmapping does: exactly the abstract operation. *)
Definition unmapped_page (w : World Mmu) (os : list holding) (va : VirtualAddress)
    (r : Result PhysicalAddress UnmapError) (w' : World Mmu) : Prop :=
  space_step w os (unmap_spec (walk (w_mmu w)) va).2
    (flush_of r va) w' os /\
  r = (unmap_spec (walk (w_mmu w)) va).1.

Lemma unmap_kernel_page_spec w os l va :
  world_ok w os l -> wp (unmap_kernel_page va) (unmapped_page w os va) w.
Proof.
  intros Hok. pose proof (extends_step _ _ _ _ (extends_refl w os l Hok)) as Hrefl.
  unfold unmap_kernel_page. apply lift_mmu_wp. eapply wp_mono; [apply unmap_page_spec, Hok|].
  assert (forall e, unmap_spec (walk (w_mmu w)) va = (Err e, walk (w_mmu w)) ->
    unmapped_page w os va (Err e) {| w_pmm := w_pmm w; w_next_slot := w_next_slot w; w_mmu := w_mmu w |}) as Hrefuse.
  { intros e Hs. unfold unmapped_page. rewrite Hs. split; [by destruct w|done]. }
  intros [pa|[]] m'; unfold unmap_spec in Hrefuse.
  - intros (Hc & (q & t & e & Hs & Hv & ->) & [Lwf Lwalk _ Ltlb Llow Lhigh Ldom]).
    unfold unmapped_page, unmap_spec. rewrite Hc. cbn [negb].
    rewrite (leaf_slot_walk _ _ _ _ _ Hs), Hv. split; [|done]. split; try done.
    + exists l. destruct Hok as [Hc2 _ Hd2]. split; [done|done|]. intros q' Hq'. apply Hd2, Ldom, Hq'.
  - intros (-> & Hc). apply Hrefuse. by rewrite Hc.
  - intros (-> & Hc & Hw). apply Hrefuse. by rewrite Hc, Hw.
  - intros (-> & Hc & Hn). apply Hrefuse. rewrite Hc.
    by destruct (no_leaf_block _ _ Hn) as ([] & e & Hsz & ->).
Qed.
End World.
