(* ===== verification/Arm64MmuBoot.v ===== *)
(** * The boot mappings of ARM64

    What [mmu::init], [expand_physmap] and [remove_identity_mapping] of
    [arch/aarch64/mmu.rs] leave in the two boot tables. *)

From S2P Require Import Prelude Address HwInfo Pmm KernelStack PageMapper Arm64Mmu Arm64MmuLemmas.
From stdpp Require Import base tactics option list list_numbers numbers gmap strings.

#[local] Open Scope Z_scope.
#[local] Open Scope kernel_scope.

(** ** Block descriptors *)

Definition block_entry (mem : MemoryKind) (p : MappingPermissions) (gb : Z) : Z :=
  Z.lor (leaf_flags mem false p) (Z.land (gb * BLOCK_1G) OUTPUT_MASK).
(** The entry of gigabyte [gb] of a boot table: devices at 0, memory above. *)
Definition boot_entry (mapped : Z -> bool) (gb : Z) : Z :=
  if gb =? 0 then block_entry Device KERNEL_READ_WRITE 0
  else if mapped gb then block_entry Normal BOOT_KERNEL_PERMISSIONS gb else INVALID.

Lemma block_entry_spec mem p gb :
  0 <= gb < 512 ->
  is_valid (block_entry mem p gb) = true /\ is_block (block_entry mem p gb) = true /\
  output_address (block_entry mem p gb) = Some (gb * BLOCK_1G).
Proof.
  intros Hgb. destruct (leaf_flags_spec mem false p) as (H1 & H2 & H3).
  destruct (descriptor_spec _ (gb * BLOCK_1G) H1 H2) as (Hv & Ht & Ho). split_and!; [done| |].
  - apply not_table_block; [done|]. unfold block_entry. by rewrite Ht.
  - unfold output_address, block_entry. rewrite Hv, Ho. f_equal. apply output_mask_id.
    + unfold PAGE_SIZE. change BLOCK_1G with 1073741824. divlia.
    + change BLOCK_1G with 1073741824. lia.
Qed.

Lemma block_run {S} gb mem p msg (s : S) :
  0 <= gb < 512 ->
  (let! intent := expect msg (MappingIntent_new (gb * BLOCK_1G) Block1G mem p) in from_mapping intent) s =
  Done (block_entry mem p gb, s).
Proof.
  intros Hgb. assert (gb * BLOCK_1G mod PAGE_SIZE = 0) as Hal
    by (unfold PAGE_SIZE; change BLOCK_1G with 1073741824; divlia).
  unfold MappingIntent_new, PageAligned_new_physical, MappingSize_is_aligned.
  rewrite (proj2 (is_page_aligned_spec _) Hal).
  replace (Z.land (gb * BLOCK_1G) (MappingSize_bytes Block1G - 1)) with (gb * BLOCK_1G mod 2 ^ 30)
    by (symmetry; by apply (land_mask 30)).
  replace (gb * BLOCK_1G mod 2 ^ 30) with 0 by (change BLOCK_1G with 1073741824; divlia).
  cbn [Z.eqb]. unfold bind, expect, ret. by rewrite from_mapping_spec.
Qed.

(** ** Boot tables *)

Definition boot_table (mapped : Z -> bool) (t : list Z) : Prop :=
  length t = 512%nat /\ forall i, index i -> t !! Z.to_nat i = Some (boot_entry mapped i).

Lemma boot_table_ext f g t : (forall i, index i -> 0 < i -> f i = g i) -> boot_table f t -> boot_table g t.
Proof.
  intros Heq [Hl Ht]. split; [done|]. intros i Hi. rewrite Ht by done. unfold boot_entry.
  destruct (Z.eqb_spec i 0); [done|]. unfold index in Hi. rewrite Heq; [done..|lia].
Qed.

Lemma set_entry_wp t i v m l (Q : unit -> Mmu -> Prop) :
  entries t m = Some l -> 0 <= i < Z.of_nat (length l) ->
  Q tt (set_entries t (<[Z.to_nat i := v]> l) m) -> wp (set_entry t i v) Q m.
Proof.
  intros Hl Hi HQ. unfold set_entry. apply wp_bind, wp_gets. rewrite Hl.
  rewrite (proj2 (Z.ltb_lt _ _)) by lia. by apply wp_modify.
Qed.

Lemma boot_table_insert f g t gb :
  boot_table f t -> 0 < gb < 512 -> g gb = true -> (forall i, index i -> i <> gb -> g i = f i) ->
  boot_table g (<[Z.to_nat gb := block_entry Normal BOOT_KERNEL_PERMISSIONS gb]> t).
Proof.
  intros [Hl Ht] Hgb Hg Hf. split; [by rewrite length_insert|]. intros i Hi. unfold index in Hi.
  destruct (decide (i = gb)) as [->|Hne].
  - rewrite list_lookup_insert_eq by lia. unfold boot_entry. rewrite Hg. by destruct (Z.eqb_spec gb 0); [lia|].
  - rewrite list_lookup_insert_ne by lia. rewrite Ht by done. unfold boot_entry. by rewrite Hf.
Qed.

(** The gigabytes of a loop's iterations. *)
Definition among (l : list Z) (i : Z) : bool := bool_decide (i ∈ l).

Lemma among_snoc f a x i :
  (i =? x) || (among (range a x) i || f i) = among (range a x ++ [x]) i || f i.
Proof.
  unfold among. rewrite (bool_decide_ext (i ∈ _ ++ [x]) (i ∈ range a x \/ i = x)) by set_solver.
  rewrite bool_decide_or. destruct (Z.eqb_spec i x) as [->|Hne].
  - rewrite (bool_decide_eq_true_2 (x = x)) by done. by rewrite orb_true_r.
  - rewrite (bool_decide_eq_false_2 (i = x)) by done. by rewrite orb_false_r.
Qed.

Lemma boot_block_wp f gb m :
  boot_table f (low_table m) -> boot_table f (high_table m) -> 0 <= gb < 512 ->
  wp (boot_block gb) (fun _ m' =>
    boot_table (fun i => (i =? gb) || f i) (low_table m') /\
    boot_table (fun i => (i =? gb) || f i) (high_table m') /\
    m' = set_high (high_table m') (set_low (low_table m') m)) m.
Proof.
  intros Hlo Hhi Hgb. unfold boot_block. destruct (Z.eqb_spec gb 0) as [->|Hne].
  { apply wp_ret. split_and!; [..|by destruct m];
      (eapply boot_table_ext; [|done]); intros i _ Hi; by rewrite (proj2 (Z.eqb_neq i 0)) by lia. }
  apply wp_bind. unfold mul_uint, checked_mul.
  rewrite (proj2 (Z.ltb_lt _ _)) by (change BLOCK_1G with 1073741824; lia). apply wp_ret.
  apply wp_bind. eapply wp_run; [by apply block_run|].
  pose proof Hlo as [Ll _]. pose proof Hhi as [Lh _].
  apply wp_bind. eapply set_entry_wp; [done|lia|].
  apply wp_bind. eapply wp_run; [by apply block_run|].
  eapply set_entry_wp; [done|cbn; lia|]. cbn.
  split_and!; [..|done]; (apply (boot_table_insert f); [done|lia|by rewrite Z.eqb_refl|]);
    intros i _ Hi; by rewrite (proj2 (Z.eqb_neq i gb)).
Qed.

(** A loop of block writes maps the gigabytes it ran over, besides [f]'s. *)
Lemma boot_blocks_wp f a b m :
  boot_table f (low_table m) -> boot_table f (high_table m) -> 0 <= a -> b <= 512 ->
  wp (for_each (range a b) boot_block) (fun _ m' =>
    boot_table (fun i => among (range a b) i || f i) (low_table m') /\
    boot_table (fun i => among (range a b) i || f i) (high_table m') /\
    m' = set_high (high_table m') (set_low (low_table m') m)) m.
Proof.
  intros Hlo Hhi Ha Hb.
  apply (wp_for_each (fun pre m' => boot_table (fun i => among pre i || f i) (low_table m') /\
    boot_table (fun i => among pre i || f i) (high_table m') /\
    m' = set_high (high_table m') (set_low (low_table m') m))).
  - split_and!; [..|by destruct m]; (eapply boot_table_ext; [|done]); done.
  - intros pre x post m' Hsplit (Hlo' & Hhi' & Hm'). apply range_split in Hsplit as [-> Hx].
    eapply wp_mono; [apply (boot_block_wp _ x m' Hlo' Hhi'); lia|]. intros [] m2 (Hlo2 & Hhi2 & Hm2).
    split_and!; [by eapply boot_table_ext; [intros; apply among_snoc|].. |]. rewrite Hm2, Hm'. done.
Qed.

Lemma boot_range_order kernel_load dtb start_gb end_gb :
  is_usize kernel_load -> is_usize dtb -> boot_range kernel_load dtb = (start_gb, end_gb) ->
  0 <= start_gb <= end_gb.
Proof.
  unfold is_uint, boot_range. intros Hk Hd [= <- <-]. unfold div_ceil, saturating_add.
  unfold MINIMUM_PHYSMAP_SIZE, DEVICE_TREE_BLOB_MAX_SIZE. change BLOCK_1G with 1073741824.
  destruct (dtb =? 0); divlia.
Qed.

(** The state [mmu::init] leaves. *)
Record boot_state (mapped : Z -> bool) (end_gb : Z) (m : Mmu) : Prop := {
  bs_high : boot_table mapped (high_table m);
  bs_end : physmap_end_gb m = end_gb;
  bs_mair : mair_el1 m = MAIR_VALUE;
  bs_tcr : tcr_el1 m = default_tcr;
}.

Lemma mmu_init_wp m low_ptr high_ptr kernel_load dtb start_gb end_gb :
  length (low_table m) = 512%nat -> length (high_table m) = 512%nat ->
  is_usize kernel_load -> is_usize dtb ->
  boot_range kernel_load dtb = (start_gb, end_gb) -> end_gb <= MAX_BOOT_BLOCKS ->
  wp (mmu_init low_ptr high_ptr kernel_load dtb) (fun _ m' =>
    boot_state (among (range start_gb end_gb)) end_gb m' /\
    boot_table (among (range start_gb end_gb)) (low_table m') /\
    tables m' = tables m /\ tlb m' = tlb m ++ [FlushLocal] /\
    ttbr0_el1 m' = static_physical_address low_ptr /\ ttbr1_el1 m' = static_physical_address high_ptr /\
    sctlr_el1 m' = Z.lor (sctlr_el1 m) 1) m.
Proof.
  intros Hll Hlh Hk Hd Hrange Hend. pose proof (boot_range_order _ _ _ _ Hk Hd Hrange) as Hord.
  change MAX_BOOT_BLOCKS with 512 in Hend. unfold mmu_init. rewrite Hrange.
  do 2 (apply wp_bind, wp_modify). apply wp_bind. unfold validate_boot_range.
  rewrite (proj2 (Z.ltb_ge _ _)), (proj2 (Z.ltb_ge MAX_BOOT_BLOCKS _)) by (change MAX_BOOT_BLOCKS with 512; lia).
  cbn [orb]. apply wp_ret. do 2 (apply wp_bind, wp_modify). cbn.
  apply wp_bind. eapply wp_run; [by apply (block_run 0)|].
  apply wp_bind. eapply set_entry_wp; [done|cbn; rewrite length_replicate; lia|].
  apply wp_bind. eapply wp_run; [by apply (block_run 0)|].
  apply wp_bind. eapply set_entry_wp; [done|cbn; rewrite length_replicate; lia|].
  assert (forall n, n = 512%nat ->
    boot_table (fun _ => false) (<[Z.to_nat 0 := block_entry Device KERNEL_READ_WRITE 0]> (replicate n INVALID))) as Ht.
  { intros n ->. split; [done|]. intros i Hi. unfold index in Hi. destruct (decide (i = 0)) as [->|Hne]; [done|].
    rewrite list_lookup_insert_ne by lia. unfold boot_entry. rewrite (proj2 (Z.eqb_neq i 0)) by done.
    apply lookup_replicate. split; [done|lia]. }
  apply wp_bind. eapply wp_mono; [apply (boot_blocks_wp (fun _ => false)); [by apply Ht..|lia|done]|].
  intros [] m1 (Hlo & Hhi & Hm1). unfold flush_local. repeat (apply wp_bind, wp_modify). apply wp_modify.
  rewrite Hm1. cbn. assert (forall t, boot_table (fun i => among (range start_gb end_gb) i || false) t ->
    boot_table (among (range start_gb end_gb)) t) as Hext.
  { intros t. apply boot_table_ext. intros. by rewrite orb_false_r. }
  split_and!; try done; [split; try done; by apply Hext|by apply Hext].
Qed.

Lemma expand_block_wp f gb m :
  boot_table f (high_table m) -> 0 <= gb < 512 ->
  wp (expand_block gb) (fun _ m' => boot_table (fun i => (i =? gb) || f i) (high_table m') /\
    m' = set_high (high_table m') m) m.
Proof.
  intros Hhi Hgb. unfold expand_block. destruct (Z.eqb_spec gb 0) as [->|Hne].
  { apply wp_ret. split; [|by destruct m]. eapply boot_table_ext; [|done].
    intros i _ Hi. by rewrite (proj2 (Z.eqb_neq i 0)) by lia. }
  apply wp_bind. unfold mul_uint, checked_mul.
  rewrite (proj2 (Z.ltb_lt _ _)) by (change BLOCK_1G with 1073741824; lia). apply wp_ret.
  apply wp_bind. eapply wp_run; [by apply block_run|]. pose proof Hhi as [Lh _].
  eapply set_entry_wp; [done|lia|]. cbn. split; [|done].
  apply (boot_table_insert f); [done|lia|by rewrite Z.eqb_refl|].
  intros i _ Hi. by rewrite (proj2 (Z.eqb_neq i gb)).
Qed.

(** The end of the physmap that [expand_physmap] asks for. *)
Definition physmap_target (max_end : PhysicalAddress) : Z :=
  Z.min (div_ceil max_end BLOCK_1G) MAX_PHYSMAP_ENTRIES.

Lemma expand_physmap_wp f cur max_end m :
  boot_state f cur m -> 0 <= cur ->
  wp (expand_physmap max_end) (fun _ m' =>
    boot_state (fun i => among (range cur (physmap_target max_end)) i || f i)
      (Z.max cur (physmap_target max_end)) m' /\
    low_table m' = low_table m /\ tables m' = tables m /\
    tlb m' = tlb m ++ (if cur <? physmap_target max_end then [FlushLocal] else [])) m.
Proof.
  intros [Hhi Hend Hmair Htcr] Hcur. unfold expand_physmap. fold (physmap_target max_end).
  set (new_end := physmap_target max_end).
  assert (new_end <= 511) as Hnew by (unfold new_end, physmap_target; change MAX_PHYSMAP_ENTRIES with 511; lia).
  apply wp_bind, wp_gets. rewrite Hend. apply wp_bind.
  apply (wp_mono _ (fun _ m' => boot_table (fun i => among (range cur new_end) i || f i) (high_table m') /\
    m' = set_high (high_table m') m)).
  { apply (wp_for_each (fun pre m' => boot_table (fun i => among pre i || f i) (high_table m') /\
      m' = set_high (high_table m') m)).
    - split; [|by destruct m]. by eapply boot_table_ext; [|done].
    - intros pre x post m' Hsplit (Hhi' & Hm'). apply range_split in Hsplit as [-> Hx].
      eapply wp_mono; [apply (expand_block_wp _ x m' Hhi'); lia|]. intros [] m2 (Hhi2 & Hm2).
      split; [eapply boot_table_ext; [|done]; intros; apply among_snoc|]. by rewrite Hm2, Hm'. }
  intros [] m1 (Hhi1 & Hm1). rewrite Hm1. destruct (Z.ltb_spec cur new_end).
  - apply wp_bind, wp_modify, wp_modify. cbn. split_and!; try done. split; cbn; try done. lia.
  - apply wp_ret. cbn. rewrite app_nil_r. split_and!; try done. split; cbn; try done. lia.
Qed.

(** ** Translations through a boot table *)

Lemma translate_boot root t f m va :
  entries root m = Some t -> boot_table f t -> is_canonical va = true ->
  translate root va m = Done (
    if (l1_index va =? 0) || f (l1_index va)
    then Some (l1_index va * BLOCK_1G + Z.land va BLOCK_1G_MASK) else None, m).
Proof.
  intros Ht [Hl Hb] Hc. pose proof (index_bound va 30 : index (l1_index va)) as Hi.
  unfold translate. rewrite Hc. cbn [negb]. unfold bind at 1.
  rewrite (get_entry_run root m t _ (boot_entry f (l1_index va))) by (done || by apply Hb).
  assert (forall mem p, is_valid (block_entry mem p (l1_index va)) = true /\
    is_block (block_entry mem p (l1_index va)) = true /\
    output_plus (block_entry mem p (l1_index va)) (Z.land va BLOCK_1G_MASK) =
      Some (l1_index va * BLOCK_1G + Z.land va BLOCK_1G_MASK)) as Hblk.
  { intros mem p. destruct (block_entry_spec mem p (l1_index va) Hi) as (Hv & Hbk & Ho). split_and!; [done..|].
    unfold output_plus. rewrite Ho. unfold PhysicalAddress_checked_add, checked_add.
    rewrite (proj2 (Z.ltb_lt _ _)); [done|]. change (BLOCK_1G_MASK) with (2 ^ 30 - 1).
    rewrite land_mask by lia. change BLOCK_1G with (2 ^ 30). unfold index in Hi.
    pose proof (Z.mod_pos_bound va (2 ^ 30)). lia. }
  unfold boot_entry. destruct (Z.eqb_spec (l1_index va) 0) as [Hz|Hz]; cbn [orb].
  - destruct (Hblk Device KERNEL_READ_WRITE) as (Hv & Hbk & Ho). rewrite Hz in Hv, Hbk, Ho.
    rewrite Hv, Hbk. cbn [negb]. by rewrite Ho, Hz.
  - destruct (f (l1_index va)); [|done].
    destruct (Hblk Normal BOOT_KERNEL_PERMISSIONS) as (-> & -> & ->). done.
Qed.
