(* ===== verification/Arm64MmuTheorems.v ===== *)
(** * Properties of the ARM64 memory-management unit

    The page-mapper instance, the boot mappings, and the claims about
    descriptors, kernel mappings and kernel stacks on ARM64. *)

From S2P Require Import Prelude Address HwInfo Pmm PmmReserved PmmFreeList PmmAlloc PmmInit PmmClients PmmTheorems.
From S2P Require Import KernelStack PageMapper Arm64Mmu Arm64MmuLemmas Arm64MmuWorld Arm64MmuBoot.
From stdpp Require Import base tactics option list list_numbers numbers gmap strings.

#[local] Open Scope Z_scope.
#[local] Open Scope kernel_scope.

(** ** Kernel addresses *)

Definition kernel_address (va : VirtualAddress) : Prop := KERNEL_VIRTUAL_BASE <= va < 2 ^ 64.

Lemma kernel_canonical va : kernel_address va -> is_canonical va = true.
Proof.
  intros [Hlo _]. unfold is_canonical. rewrite (proj2 (Z.leb_le _ _) Hlo). apply orb_true_r.
Qed.

Lemma same_page_kernel va va' :
  kernel_address va -> kernel_address va' -> same_page va va' <-> page_of va' = page_of va.
Proof.
  unfold kernel_address, KERNEL_VIRTUAL_BASE. intros H1 H2. unfold same_page, l1_index, l2_index, l3_index.
  rewrite !index_mod by lia. unfold page_of, PAGE_SIZE. split; intros; divlia.
Qed.

Lemma walk_page m va va' : page_of va = page_of va' -> walk m va = walk m va'.
Proof.
  intros Hp. assert (same_page va va') as (E1 & E2 & E3).
  { unfold same_page, l1_index, l2_index, l3_index. rewrite !index_mod by lia. unfold page_of, PAGE_SIZE in Hp.
    split_and!; divlia. }
  unfold walk, walk_leaf. by rewrite E1, E2, E3.
Qed.

(** ** The page-mapper instance *)

Definition arm64_space (m : Mmu) : kspace := fun va =>
  match walk m va with Some (sz, e) => Some (sz, Z.land e OUTPUT_MASK) | None => None end.

Section Mapper.
Context `{PageLayout} (s0 : Pmm) (Hsmall : small_memory s0).

Lemma managed_output w os l pa :
  world_ok s0 w os l -> managed s0 pa -> Z.land pa OUTPUT_MASK = pa /\ pa mod PAGE_SIZE = 0 /\ 0 <= pa < 2 ^ 48.
Proof.
  intros Hok Hman. pose proof (Hsmall pa Hman) as Hb. destruct Hman as (h & Hv & Hp).
  pose proof (wo_client _ _ _ _ Hok) as Hci.
  assert (pa mod PAGE_SIZE = 0) as Hal; [|by split; [apply output_mask_id|]].
  apply (physical_of_aligned (w_pmm w) h); [apply Hci|by apply (frame_valid s0); [apply Hci|]|].
  by rewrite (frame_physical_of s0) by apply Hci.
Qed.

Lemma space_update_kernel (A : space) va va' v :
  kernel_address va -> kernel_address va' ->
  space_update A va v va' = if decide (page_of va' = page_of va) then v else A va'.
Proof.
  intros Hk Hk'. unfold space_update. pose proof (same_page_kernel va va' Hk Hk') as Hs.
  destruct (decide (same_page va va')); destruct (decide (page_of va' = page_of va)); tauto.
Qed.

Lemma arm64_map_law w os l va pa :
  world_ok s0 w os l -> kernel_address va -> va mod PAGE_SIZE = 0 -> managed s0 pa ->
  wp (map_kernel_stack_page va pa) (fun r w' => exists os', (exists l', world_ok s0 w' os' l') /\
    leaked_more os os' /\ w_next_slot w' = w_next_slot w /\
    match r with
    | Ok _ => arm64_space (w_mmu w) va = None /\
        (forall va', kernel_address va' -> arm64_space (w_mmu w') va' =
          if decide (page_of va' = page_of va) then Some (Page4K, pa) else arm64_space (w_mmu w) va')
    | Err e => (forall va', kernel_address va' -> arm64_space (w_mmu w') va' = arm64_space (w_mmu w) va') /\
        match e with
        | MapError_OutOfMemory => True
        | MapError_AlreadyMapped | MapError_SuperpageConflict => arm64_space (w_mmu w) va <> None
        | _ => False
        end
    end) w.
Proof.
  intros Hok Hk Hal Hman. destruct (managed_output w os l pa Hok Hman) as (Ho & Hpa & _).
  eapply wp_mono; [exact (map_kernel_page_spec s0 Hsmall w os l va pa KERNEL_READ_WRITE Hok)|].
  intros r w' (os' & A' & [Hok' Hl Hsp Hsl _] & Hspec). exists os'. split_and!; [done..|].
  rewrite map_spec_checked in Hspec; [|by apply virtual_is_page_aligned_spec|by apply is_page_aligned_spec|
    by apply kernel_canonical].
  unfold arm64_space. destruct (walk (w_mmu w) va) as [[sz e]|] eqn:Hw.
  - destruct Hspec as [Hspec|(-> & -> & Hspec)]; [|by destruct sz].
    destruct sz; injection Hspec as -> ->; (split; [intros; by rewrite Hsp|done]).
  - destruct Hspec as [Hspec|(-> & -> & _)]; [|split; [intros; by rewrite Hsp|done]].
    injection Hspec as -> ->. split; [done|]. intros va' Hk'. rewrite Hsp, space_update_kernel by done.
    case_decide; [|done]. destruct (leaf_entry_spec pa KERNEL_READ_WRITE) as [Hv Hout].
    unfold output_address in Hout. rewrite Hv in Hout. injection Hout as ->. by rewrite Ho.
Qed.

Lemma arm64_unmap_law w os l va :
  world_ok s0 w os l -> kernel_address va ->
  wp (unmap_kernel_stack_page va) (fun r w' => (exists l', world_ok s0 w' os l') /\
    w_next_slot w' = w_next_slot w /\
    match arm64_space (w_mmu w) va with
    | Some (Page4K, pa) => r = Ok pa /\
        (forall va', kernel_address va' -> arm64_space (w_mmu w') va' =
          if decide (page_of va' = page_of va) then None else arm64_space (w_mmu w) va')
    | _ => (exists e, r = Err e) /\
        (forall va', kernel_address va' -> arm64_space (w_mmu w') va' = arm64_space (w_mmu w) va')
    end) w.
Proof.
  intros Hok Hk. eapply wp_mono; [exact (unmap_kernel_page_spec s0 w os l va Hok)|].
  intros r w' ([Hok' _ Hsp Hsl _] & ->). split_and!; [done..|]. unfold unmap_spec in *.
  rewrite (kernel_canonical va Hk) in *. cbn [negb] in *. unfold arm64_space.
  destruct (walk (w_mmu w) va) as [[[] e]|] eqn:Hw; cbn [fst snd] in *;
    (split; [by eauto|]); intros va' Hk'; rewrite Hsp; try done.
  rewrite space_update_kernel by done. by case_decide.
Qed.

#[refine] Instance arm64_mapper : PageMapper s0 map_kernel_stack_page unmap_kernel_stack_page := {|
  pm_kernel := kernel_address;
  pm_ok w os := exists l, world_ok s0 w os l;
  pm_space := arm64_space;
|}.
Proof.
  - intros w os [l Hok]. exists l. apply Hok.
  - intros w os s os' l n [l' [_ Htree Htab]] Hci Hkeep. exists l. split; [done|done|].
    intros p Hp. destruct (Htab p Hp) as (h & phys & Hin & ->). exists h, phys. split; [by apply Hkeep|done].
  - intros m va va' Hp. unfold arm64_space. by rewrite (walk_page m va va' Hp).
  - intros w os va pa [l Hok] Hk Hal Hman. by apply (arm64_map_law w os l).
  - intros w os va [l Hok] Hk _. by apply (arm64_unmap_law w os l).
Defined.
End Mapper.

(** ** Boot and kernel stacks *)

(** The boot sequence of [startup/init.rs] as far as the page tables go:
    [hal::mmu::init], [expand_physmap] and [remove_identity_mapping]. *)
Definition boot_mmu (low_ptr high_ptr dtb : Z) (info : HardwareInfo) : M Mmu unit :=
  mmu_init low_ptr high_ptr KERNEL_PHYSICAL_LOAD dtb ;;;
  expand_physmap (max_memory_end info) ;;;
  remove_identity_mapping.

(** The gigabytes that the physmap covers after boot. *)
Definition physmap_gb (dtb : Z) (info : HardwareInfo) : Z :=
  Z.max (boot_range KERNEL_PHYSICAL_LOAD dtb).2 (physmap_target (max_memory_end info)).

Lemma boot_range_arm64 dtb :
  0 <= dtb -> dtb + DEVICE_TREE_BLOB_MAX_SIZE <= 2 ^ 39 ->
  exists start_gb end_gb, boot_range KERNEL_PHYSICAL_LOAD dtb = (start_gb, end_gb) /\
    0 <= start_gb <= 1 /\ 2 <= end_gb <= 512 /\
    KERNEL_PHYSICAL_LOAD + MINIMUM_PHYSMAP_SIZE <= end_gb * BLOCK_1G /\
    (dtb <> 0 -> dtb + DEVICE_TREE_BLOB_MAX_SIZE <= end_gb * BLOCK_1G) /\
    (dtb + DEVICE_TREE_BLOB_MAX_SIZE <= 511 * BLOCK_1G -> end_gb <= 511).
Proof.
  intros H0 Hd. unfold boot_range. eexists _, _. split; [reflexivity|].
  unfold div_ceil, saturating_add, KERNEL_PHYSICAL_LOAD, MINIMUM_PHYSMAP_SIZE, DEVICE_TREE_BLOB_MAX_SIZE in *.
  change BLOCK_1G with 1073741824 in *. destruct (Z.eqb_spec dtb 0); split_and!; divlia.
Qed.

(** What the boot sequence leaves: the physmap, and no identity mapping. *)
Lemma boot_mmu_wp m low_ptr high_ptr dtb info :
  length (low_table m) = 512%nat -> length (high_table m) = 512%nat ->
  0 <= dtb -> dtb + DEVICE_TREE_BLOB_MAX_SIZE <= 2 ^ 39 ->
  wp (boot_mmu low_ptr high_ptr dtb info) (fun _ m' =>
    boot_table (fun i => i <? physmap_gb dtb info) (high_table m') /\
    low_table m' = replicate 512 INVALID /\ tables m' = tables m) m.
Proof.
  intros Hl Hh H0 Hd. destruct (boot_range_arm64 dtb H0 Hd) as (st & en & Hr & Hst & Hen & _).
  unfold physmap_gb, boot_mmu. rewrite Hr. cbn [snd]. apply wp_bind.
  eapply wp_mono; [apply (mmu_init_wp m low_ptr high_ptr KERNEL_PHYSICAL_LOAD dtb st en); try done|].
  { unfold is_uint, DEVICE_TREE_BLOB_MAX_SIZE in *. lia. }
  { change MAX_BOOT_BLOCKS with 512. lia. }
  intros [] m1 (Hbs & [Hl1 _] & Ht1 & _). apply wp_bind.
  eapply wp_mono; [apply (expand_physmap_wp _ _ (max_memory_end info) m1 Hbs); lia|].
  intros [] m2 ([Hhi _ _ _] & Hl2 & Ht2 & _). unfold remove_identity_mapping, flush_local.
  apply wp_bind, wp_modify, wp_modify. cbn. split_and!; [|by rewrite Hl2, Hl1|congruence].
  eapply boot_table_ext; [|exact Hhi]. intros i Hi Hpos. unfold among. cbn beta.
  set (t := physmap_target (max_memory_end info)).
  rewrite (bool_decide_ext _ _ (elem_of_range _ _ _)), (bool_decide_ext _ _ (elem_of_range _ _ _)).
  destruct (Z.ltb_spec i (Z.max en t)).
  - apply orb_true_iff. rewrite !bool_decide_eq_true. lia.
  - apply orb_false_iff. rewrite !bool_decide_eq_false. lia.
Qed.

Lemma l1_index_physmap pa :
  0 <= pa < 2 ^ 39 -> l1_index (KERNEL_VIRTUAL_BASE + pa) = pa / 2 ^ 30 /\
  Z.land (KERNEL_VIRTUAL_BASE + pa) BLOCK_1G_MASK = pa mod 2 ^ 30 /\ kernel_address (KERNEL_VIRTUAL_BASE + pa).
Proof.
  intros Hpa. unfold l1_index, kernel_address. rewrite index_mod by lia.
  change BLOCK_1G_MASK with (2 ^ 30 - 1). rewrite land_mask by lia. unfold KERNEL_VIRTUAL_BASE.
  split_and!; [divlia|divlia|lia|lia].
Qed.

Lemma translate_physmap G m pa :
  boot_table (fun i => i <? G) (high_table m) -> 1 <= G -> 0 <= pa < 2 ^ 39 ->
  translate HighTable (physical_to_virtual pa) m = Done (if pa <? G * BLOCK_1G then Some pa else None, m).
Proof.
  intros Hhi HG Hpa. destruct (l1_index_physmap pa Hpa) as (Hi & Hoff & Hka).
  replace (physical_to_virtual pa) with (KERNEL_VIRTUAL_BASE + pa)
    by (unfold physical_to_virtual, wrapping_add, KERNEL_VIRTUAL_BASE in *; rewrite Z.mod_small by lia; lia).
  rewrite (translate_boot HighTable (high_table m) _ m _ eq_refl Hhi (kernel_canonical _ Hka)).
  rewrite Hi, Hoff. do 2 f_equal. change BLOCK_1G with (2 ^ 30).
  destruct (Z.ltb_spec (pa / 2 ^ 30) G); destruct (Z.ltb_spec pa (G * 2 ^ 30)); try (exfalso; divlia).
  - rewrite orb_true_r. f_equal. divlia.
  - destruct (Z.eqb_spec (pa / 2 ^ 30) 0); [exfalso; divlia|done].
Qed.

(** [mmu::init] turns translation on and maps the megabyte from the device tree
    on. *)
Lemma arm64_init_maps_dtb m low_ptr high_ptr dtb :
  length (low_table m) = 512%nat -> length (high_table m) = 512%nat ->
  0 <= dtb -> dtb + DEVICE_TREE_BLOB_MAX_SIZE <= 2 ^ 39 ->
  wp (mmu_init low_ptr high_ptr KERNEL_PHYSICAL_LOAD dtb) (fun _ m1 =>
    Z.testbit (sctlr_el1 m1) 0 = true /\ ttbr1_el1 m1 = static_physical_address high_ptr /\
    (dtb <> 0 -> forall pa, dtb <= pa < dtb + DEVICE_TREE_BLOB_MAX_SIZE ->
      translate HighTable (physical_to_virtual pa) m1 = Done (Some pa, m1))) m.
Proof.
  intros Hl Hh H0 Hd. destruct (boot_range_arm64 dtb H0 Hd) as (st & en & Hr & Hst & Hen & _ & Hdtb & _).
  eapply wp_mono; [apply (mmu_init_wp m low_ptr high_ptr KERNEL_PHYSICAL_LOAD dtb st en); try done|].
  { unfold is_uint, DEVICE_TREE_BLOB_MAX_SIZE in *. lia. }
  { change MAX_BOOT_BLOCKS with 512. lia. }
  intros [] m1 ([Hhi _ _ _] & _ & _ & _ & _ & Ht1 & Hctl). split_and!; [|done|].
  { rewrite Hctl, Z.lor_spec. apply orb_true_r. }
  intros Hnz pa Hpa. specialize (Hdtb Hnz).
  rewrite (translate_physmap en m1 pa); [|eapply boot_table_ext; [|exact Hhi]|lia|lia].
  - rewrite (proj2 (Z.ltb_lt _ _)); [done|lia].
  - intros i Hi Hpos. unfold among. rewrite (bool_decide_ext _ _ (elem_of_range _ _ _)).
    destruct (Z.ltb_spec i en); [apply bool_decide_eq_true|apply bool_decide_eq_false]; lia.
Qed.

(** (C19) After the boot sequence with the device tree inside the 512 GiB that the
    boot table covers, every physical address below the physmap's end
    translates at its physmap address, no other kernel address and no low
    address translates; the physmap covers a gigabyte from the kernel image,
    the device tree, and, up to 511 GiB, all memory. *)
Theorem arm64_boot_physmap m low_ptr high_ptr dtb info :
  length (low_table m) = 512%nat -> length (high_table m) = 512%nat ->
  0 <= dtb -> dtb + DEVICE_TREE_BLOB_MAX_SIZE <= 2 ^ 39 ->
  let physmap_end := physmap_gb dtb info * BLOCK_1G in
  KERNEL_PHYSICAL_LOAD + MINIMUM_PHYSMAP_SIZE <= physmap_end /\
  (dtb <> 0 -> dtb + DEVICE_TREE_BLOB_MAX_SIZE <= physmap_end) /\
  (max_memory_end info <= 511 * BLOCK_1G -> max_memory_end info <= physmap_end) /\
  exists m', boot_mmu low_ptr high_ptr dtb info m = Done (tt, m') /\
    forall pa, 0 <= pa < 2 ^ 39 ->
      translate HighTable (physical_to_virtual pa) m' =
        Done (if pa <? physmap_end then Some pa else None, m') /\
      translate LowTable pa m' = Done (None, m').
Proof.
  intros Hl Hh H0 Hd physmap_end.
  destruct (boot_range_arm64 dtb H0 Hd) as (st & en & Hr & Hst & Hen & Hk & Hdtb & _).
  assert (en <= physmap_gb dtb info) as Hge by (unfold physmap_gb; rewrite Hr; cbn; lia).
  unfold physmap_end. change BLOCK_1G with 1073741824 in *.
  split_and!; [lia|intros Hnz; specialize (Hdtb Hnz); lia| |].
  { intros Hm. unfold physmap_gb, physmap_target, div_ceil. change MAX_PHYSMAP_ENTRIES with 511.
    change BLOCK_1G with 1073741824 in *. divlia. }
  destruct (proj1 (wp_unfold _ _ _) (boot_mmu_wp m low_ptr high_ptr dtb info Hl Hh H0 Hd))
    as ([] & m' & Hrun & Hhi & Hlo & _).
  exists m'. split; [done|]. intros pa Hpa. split; [apply translate_physmap; [done|lia|done]|].
  unfold translate. assert (is_canonical pa = true) as -> by (unfold is_canonical; rewrite (proj2 (Z.ltb_lt _ _)); [done|apply Hpa]).
  cbn [negb]. unfold bind. rewrite (get_entry_run LowTable m' (low_table m') _ 0); [done|done|].
  rewrite Hlo. apply lookup_replicate. split; [done|]. pose proof (index_bound pa 30 : index (l1_index pa)) as B.
  unfold index in B. lia.
Qed.

Lemma boot_entry_no_link f i : index i -> link_of (boot_entry f i) = None.
Proof.
  intros Hi. unfold boot_entry. unfold index in Hi.
  destruct (i =? 0); [reflexivity|]. destruct (f i); [|reflexivity].
  destruct (block_entry_spec Normal BOOT_KERNEL_PERMISSIONS i Hi) as (Hv & Hb & _).
  unfold link_of, is_table, is_block in *. destruct (is_valid _); [|done]. cbn in *. by rewrite Hb.
Qed.

Lemma boot_table_tree f m : boot_table f (high_table m) -> tables m = ∅ -> tree_wf m.
Proof.
  intros [Hl Ht] He.
  assert (forall i, index i -> l2_ptr m i = None) as H2.
  { intros i Hi. unfold l2_ptr, child. rewrite Ht by done. by apply boot_entry_no_link. }
  assert (forall i j, index i -> l3_ptr m i j = None) as H3 by (intros; unfold l3_ptr; by rewrite H2).
  split; [done|rewrite He; done|..]; intros; (rewrite H2 in * || rewrite H3 in *); done.
Qed.

Lemma stack_region_index va :
  kernel_stack_region_base <= va < kernel_stack_region_base + KERNEL_STACK_REGION_SIZE ->
  kernel_address va /\ l1_index va = 511.
Proof.
  unfold kernel_stack_region_base, kernel_address, KERNEL_VIRTUAL_BASE, KERNEL_STACK_REGION_OFFSET, l1_index.
  change ((ENTRIES_PER_PAGE_TABLE - 1) * BLOCK_1G) with 548682072064.
  change KERNEL_STACK_REGION_SIZE with 1073741824. intros Hva. rewrite index_mod by lia. split; [lia|divlia].
Qed.

Section Boot.
Context `{PageLayout}.

(** A kernel that booted on ARM64: the page allocator came up on memory that
    lies in the physmap below the stack region. *)
Record arm64_booted (info : HardwareInfo) (kernel_start kernel_end dtb : Z) (w : World Mmu) : Prop := {
  ab_ok : boot_ok info kernel_start kernel_end;
  ab_memory r : r ∈ memory_regions info -> region_base r + region_size r <= 511 * BLOCK_1G;
  ab_dtb : 0 <= dtb /\ dtb + DEVICE_TREE_BLOB_MAX_SIZE <= 511 * BLOCK_1G;
  ab_mmu : exists low_ptr high_ptr m0, length (low_table m0) = 512%nat /\
    length (high_table m0) = 512%nat /\ tables m0 = ∅ /\
    boot_mmu low_ptr high_ptr dtb info m0 = Done (tt, w_mmu w);
  ab_pmm : exists s, init info kernel_start kernel_end physical_to_virtual s = Done (Ok tt, w_pmm w);
  ab_slot : w_next_slot w = 0;
}.

Lemma booted_table info ks ke dtb w :
  arm64_booted info ks ke dtb w ->
  boot_table (fun i => i <? physmap_gb dtb info) (high_table (w_mmu w)) /\ tables (w_mmu w) = ∅ /\
  physmap_gb dtb info <= 511.
Proof.
  intros [_ _ [H0 Hd] (lp & hp & m0 & Hl & Hh & Ht & Hrun) _ _].
  change BLOCK_1G with 1073741824 in Hd.
  pose proof (boot_mmu_wp m0 lp hp dtb info Hl Hh H0 ltac:(lia)) as Hwp.
  destruct (wp_Done _ _ _ _ _ Hwp Hrun) as (Hhi & _ & Ht').
  split_and!; [done|congruence|]. unfold physmap_gb.
  destruct (boot_range_arm64 dtb H0 ltac:(lia)) as (st & en & Hr & _ & _ & _ & _ & Hen).
  rewrite Hr. cbn [snd]. change BLOCK_1G with 1073741824 in Hen. specialize (Hen Hd).
  unfold physmap_target. change MAX_PHYSMAP_ENTRIES with 511. lia.
Qed.

Lemma physmap_gb_pos dtb info :
  0 <= dtb /\ dtb + DEVICE_TREE_BLOB_MAX_SIZE <= 511 * BLOCK_1G -> 1 <= physmap_gb dtb info.
Proof.
  intros [H0 Hd]. change BLOCK_1G with 1073741824 in Hd.
  destruct (boot_range_arm64 dtb H0 ltac:(lia)) as (st & en & Hr & _ & Hen & _).
  unfold physmap_gb. rewrite Hr. cbn [snd]. lia.
Qed.

Lemma booted_small info ks ke dtb w :
  arm64_booted info ks ke dtb w -> small_memory (w_pmm w) /\ exists l, world_ok (w_pmm w) w [] l.
Proof.
  intros Hb. destruct (booted_table info ks ke dtb w Hb) as (Htab & Hemp & _).
  destruct Hb as [Hok Hmem _ _ [s Hinit] _]. change BLOCK_1G with 1073741824 in Hmem.
  assert (forall r p, r ∈ memory_regions info -> region_base r <= p < region_base r + region_size r ->
    physical_to_virtual p = p + KERNEL_VIRTUAL_BASE) as Hlin.
  { intros r p Hr Hp. specialize (Hmem r Hr). pose proof (Forall_elem _ _ _ (bo_memory _ _ _ Hok) Hr) as Hrok.
    unfold region_ok, is_uint in Hrok. unfold physical_to_virtual, wrapping_add, KERNEL_VIRTUAL_BASE.
    apply Z.mod_small. lia. }
  pose proof (init_spec KERNEL_VIRTUAL_BASE info ks ke physical_to_virtual s Hok Hlin) as Hwp.
  destruct (wp_Done _ _ _ _ _ Hwp Hinit) as [[l Hready] _].
  split; [|exists l; split; [by eapply ready_client|by eapply boot_table_tree|]].
  - intros pa Hm. destruct (managed_in_region _ _ _ _ _ Hready Hm) as (r & Hr & _ & H0 & _ & Hhi).
    specialize (Hmem r Hr). unfold PAGE_SIZE in *. lia.
  - intros p [t Hp]. by rewrite Hemp in Hp.
Qed.

Lemma arm64_region_vacant info ks ke dtb w0 va :
  arm64_booted info ks ke dtb w0 ->
  kernel_stack_region_base <= va < kernel_stack_region_base + KERNEL_STACK_REGION_SIZE ->
  arm64_space (w_mmu w0) va = None.
Proof.
  intros Hboot Hva. destruct (booted_table info ks ke dtb w0 Hboot) as ([Hl Ht] & Hemp & Hgb).
  destruct (stack_region_index va Hva) as [_ Hi]. unfold arm64_space, walk.
  rewrite Hi, Ht by done. unfold boot_entry. rewrite (proj2 (Z.ltb_ge _ _)) by lia. cbn.
  unfold l2_ptr, child. rewrite Ht by done. by rewrite boot_entry_no_link.
Qed.

(** The physical address that the mapper's view of an address gives. *)
Definition space_resolve (va : VirtualAddress) (r : option (MappingSize * PhysicalAddress)) : option PhysicalAddress :=
  match r with Some (sz, pa) => PhysicalAddress_checked_add pa (Z.land va (size_mask sz)) | None => None end.

Lemma translate_space m va :
  tree_wf m -> is_canonical va = true ->
  translate HighTable va m = Done (space_resolve va (arm64_space m va), m).
Proof.
  intros Hwf Hc. rewrite translate_walk by done. do 2 f_equal. unfold arm64_space.
  destruct (walk m va) as [[sz e]|] eqn:Hw; [|done]. cbn. unfold output_plus, output_address.
  by rewrite (walk_valid m va sz e Hw).
Qed.

(** The world in which stacks are created and dropped. *)
Abbreviation arm64_stack_step :=
  (stack_step map_kernel_stack_page unmap_kernel_stack_page kernel_stack_region_base).

Section Reach.
Context info ks ke dtb w0 (Hboot : arm64_booted info ks ke dtb w0).
Let s0 := w_pmm w0.
Let Hsmall : small_memory s0 := proj1 (booted_small info ks ke dtb w0 Hboot).
#[local] Existing Instance arm64_mapper.

Lemma arm64_stack_region : @stack_region _ s0 _ _ _ (arm64_mapper s0 Hsmall) kernel_stack_region_base.
Proof.
  split_and!; [vm_compute; discriminate|reflexivity|vm_compute; discriminate|].
  intros va Hva. by apply stack_region_index.
Qed.

Lemma arm64_stacks_inv w stacks :
  rtc arm64_stack_step (w0, []) (w, stacks) ->
  @stacks_inv _ s0 _ _ _ (arm64_mapper s0 Hsmall) kernel_stack_region_base (arm64_space (w_mmu w0)) w stacks.
Proof.
  intros Hrtc. pose proof (proj2 (booted_small info ks ke dtb w0 Hboot)) as Hok.
  apply (stacks_reachable s0 _ _ kernel_stack_region_base arm64_stack_region _ (w0, []) (w, stacks)); [|done].
  cbn [fst snd]. apply (@stacks_init _ s0 _ _ _ (arm64_mapper s0 Hsmall) kernel_stack_region_base w0 []); [done|by rewrite (ab_slot _ _ _ _ _ Hboot)|].
  intros va _ Hva. exact (arm64_region_vacant info ks ke dtb w0 va Hboot Hva).
Qed.

Section State.
Context w stacks (Hrtc : rtc arm64_stack_step (w0, []) (w, stacks)).

Lemma reached_tree : tree_wf (w_mmu w).
Proof.
  destruct (si_ok _ _ _ _ _ _ _ (arm64_stacks_inv w stacks Hrtc)) as [rest [l Hok]]. apply Hok.
Qed.

Lemma live_page k va :
  k ∈ stacks -> in_stack k va -> exists pa,
    physical_of s0 (run_page (stack_pages k) ((va - stack_base k) / PAGE_SIZE)) = Some pa /\
    pa mod PAGE_SIZE = 0 /\ arm64_space (w_mmu w) va = Some (Page4K, pa) /\
    translate HighTable va (w_mmu w) = Done (Some (pa + va mod PAGE_SIZE), w_mmu w).
Proof.
  intros Hk Hin. pose proof (arm64_stacks_inv w stacks Hrtc) as Hinv.
  destruct (si_ok _ _ _ _ _ _ _ Hinv) as [rest Hok].
  destruct (live_slot _ _ _ _ _ _ _ k Hinv Hk) as (slot & _ & Hlive).
  destruct (sl_mapped _ _ _ _ _ Hlive va Hin) as (pa & Hpa & Hsp). exists pa.
  assert (0 <= (va - stack_base k) / PAGE_SIZE < KERNEL_STACK_PAGES) as Hi.
  { unfold in_stack in Hin. change KERNEL_STACK_SIZE with (2 * PAGE_SIZE) in Hin.
    change KERNEL_STACK_PAGES with 2. unfold PAGE_SIZE in *. divlia. }
  destruct (stack_run_pages s0 _ _ w _ (stack_pages k) _ Hok ltac:(apply elem_of_app; left;
    apply list_elem_of_fmap; by exists k) (sl_count _ _ _ _ _ Hlive) Hi) as (pa' & _ & Hpa' & Hman).
  rewrite Hpa in Hpa'. injection Hpa' as <-. destruct Hok as [l Hok].
  destruct (managed_output s0 Hsmall w _ l pa Hok Hman) as (_ & Hal & Hb).
  split_and!; [done|done|exact Hsp|].
  rewrite translate_space; [|apply reached_tree|].
  - cbn in Hsp. rewrite Hsp. cbn [space_resolve size_mask]. change (PAGE_SIZE - 1) with (2 ^ 12 - 1).
    rewrite land_mask by lia. change (2 ^ 12) with PAGE_SIZE. unfold PhysicalAddress_checked_add, checked_add.
    rewrite (proj2 (Z.ltb_lt _ _)); [done|]. pose proof (Z.mod_pos_bound va PAGE_SIZE eq_refl).
    unfold PAGE_SIZE in *. lia.
  - apply kernel_canonical. exact (in_stack_kernel s0 _ _ _ arm64_stack_region _ k slot va Hlive Hin).
Qed.

Lemma vacant_page va :
  kernel_stack_region_base <= va < kernel_stack_region_base + KERNEL_STACK_REGION_SIZE ->
  (forall k, k ∈ stacks -> ~ in_stack k va) -> translate HighTable va (w_mmu w) = Done (None, w_mmu w).
Proof.
  intros Hva Hout. rewrite translate_space; [|apply reached_tree|by apply kernel_canonical, stack_region_index].
  pose proof (region_vacant s0 _ _ _ arm64_stack_region _ w stacks va (arm64_stacks_inv w stacks Hrtc) Hva Hout) as Hv.
  cbn in Hv. by rewrite Hv.
Qed.
End State.
End Reach.

(** (C18) In every state that creating and dropping kernel stacks reaches on a
    booted ARM64 kernel, each live stack translates to the physical pages of
    its run, the guard page below it to nothing, no two live stacks share a
    physical address, and the physmap is as boot left it. *)
Theorem arm64_stacks_mapped info ks ke dtb w0 w stacks :
  arm64_booted info ks ke dtb w0 -> rtc arm64_stack_step (w0, []) (w, stacks) ->
  (forall k va, k ∈ stacks -> in_stack k va -> exists pa,
    physical_of (w_pmm w0) (run_page (stack_pages k) ((va - stack_base k) / PAGE_SIZE)) = Some pa /\
    translate HighTable va (w_mmu w) = Done (Some (pa + va mod PAGE_SIZE), w_mmu w)) /\
  (forall k va, k ∈ stacks -> stack_base k - PAGE_SIZE <= va < stack_base k ->
    translate HighTable va (w_mmu w) = Done (None, w_mmu w)) /\
  (forall i j k1 k2 va1 va2 pa1 pa2, stacks !! i = Some k1 -> stacks !! j = Some k2 -> i <> j ->
    in_stack k1 va1 -> in_stack k2 va2 ->
    translate HighTable va1 (w_mmu w) = Done (Some pa1, w_mmu w) ->
    translate HighTable va2 (w_mmu w) = Done (Some pa2, w_mmu w) -> pa1 <> pa2) /\
  (forall pa, 0 <= pa < 511 * BLOCK_1G ->
    translate HighTable (physical_to_virtual pa) (w_mmu w) =
      Done (if pa <? physmap_gb dtb info * BLOCK_1G then Some pa else None, w_mmu w)).
Proof.
  intros Hboot Hrtc. pose proof (arm64_stacks_inv info ks ke dtb w0 Hboot w stacks Hrtc) as Hinv. split_and!.
  - intros k va Hk Hin. destruct (live_page info ks ke dtb w0 Hboot w stacks Hrtc k va Hk Hin) as (pa & Hp & _ & _ & Ht).
    by exists pa.
  - intros k va Hk Hva. destruct (live_slot _ _ _ _ _ _ _ k Hinv Hk) as (slot & _ & Hlive).
    destruct (guard_vacant _ _ _ _ (arm64_stack_region info ks ke dtb w0 Hboot) _ k slot va Hlive Hva) as [Hreg Hin].
    apply (vacant_page info ks ke dtb w0 Hboot w stacks Hrtc va Hreg).
    intros k2 Hk2. destruct (live_slot _ _ _ _ _ _ _ k2 Hinv Hk2) as (slot2 & _ & Hlive2). by eapply Hin.
  - intros i j k1 k2 va1 va2 pa1 pa2 Hi Hj Hne H1 H2 T1 T2.
    destruct (live_page info ks ke dtb w0 Hboot w stacks Hrtc k1 va1 (list_elem_of_lookup_2 _ _ _ Hi) H1)
      as (p1 & _ & A1 & S1 & E1).
    destruct (live_page info ks ke dtb w0 Hboot w stacks Hrtc k2 va2 (list_elem_of_lookup_2 _ _ _ Hj) H2)
      as (p2 & _ & A2 & S2 & E2).
    rewrite E1 in T1. rewrite E2 in T2. injection T1 as <-. injection T2 as <-.
    pose proof (stacks_apart _ _ _ _ _ w stacks i j k1 k2 va1 va2 p1 p2 Hinv Hi Hj Hne H1 H2 S1 S2) as Hap.
    unfold PAGE_SIZE in *. divlia.
  - intros pa Hpa. destruct (booted_table info ks ke dtb w0 Hboot) as (Htab & Hemp & Hgb).
    change BLOCK_1G with 1073741824 in Hpa. destruct (l1_index_physmap pa ltac:(lia)) as (_ & _ & Hka).
    assert (physical_to_virtual pa = KERNEL_VIRTUAL_BASE + pa) as Hva
      by (unfold physical_to_virtual, wrapping_add, KERNEL_VIRTUAL_BASE in *; rewrite Z.mod_small by lia; lia).
    rewrite translate_space; [|by apply (reached_tree info ks ke dtb w0 Hboot w stacks)|
      rewrite Hva; by apply kernel_canonical].
    rewrite (si_rest _ _ _ _ _ _ _ Hinv); [|rewrite Hva; exact Hka|].
    + pose proof (translate_physmap _ (w_mmu w0) pa Htab ltac:(apply physmap_gb_pos, Hboot) ltac:(lia)) as Ht.
      rewrite translate_space in Ht; [|by eapply boot_table_tree|rewrite Hva; by apply kernel_canonical].
      injection Ht as ->. done.
    + intros k Hk Hin. destruct (live_slot _ _ _ _ _ _ _ k Hinv Hk) as (slot & _ & [Hs Hb _ _ _ _]).
      unfold in_stack in Hin. rewrite Hva, Hb in Hin. revert Hin.
      destruct (slot_base_start _ _ _ _ (arm64_stack_region info ks ke dtb w0 Hboot) slot Hs) as (_ & Hlo & _).
      assert (kernel_stack_region_base = KERNEL_VIRTUAL_BASE + 511 * 1073741824) as Hbase by reflexivity. lia.
Qed.

(** In every such state creating a stack returns: it is refused with
    [RegionExhausted] exactly when the slots are used up and otherwise only for
    lack of memory; and dropping any live stack returns. *)
Theorem arm64_stack_calls info ks ke dtb w0 w stacks :
  arm64_booted info ks ke dtb w0 -> rtc arm64_stack_step (w0, []) (w, stacks) ->
  (exists r w', create_mapped kernel_stack_region_base map_kernel_stack_page unmap_kernel_stack_page w = Done (r, w') /\
    (MAX_KERNEL_STACK_SLOTS <= w_next_slot w <-> r = Err RegionExhausted) /\
    forall e, r = Err e -> e = RegionExhausted \/ e = StackOutOfMemory \/ e = StackMap MapError_OutOfMemory) /\
  (forall k, k ∈ stacks -> exists w', KernelStack_drop unmap_kernel_stack_page k w = Done (tt, w')).
Proof.
  intros Hboot Hrtc. pose proof (arm64_stacks_inv info ks ke dtb w0 Hboot w stacks Hrtc) as Hinv.
  pose proof (arm64_stack_region info ks ke dtb w0 Hboot) as Hreg. split.
  - pose proof (create_refusals _ _ _ _ Hreg _ w stacks Hinv) as Href.
    pose proof (si_ok _ _ _ _ _ _ _ Hinv) as [rest Hok].
    pose proof (create_mapped_spec _ _ _ _ Hreg w _ Hok (si_next _ _ _ _ _ _ _ Hinv)) as Hcr.
    apply wp_unfold in Href as (r & w' & Hrun & Href). exists r, w'. split; [done|].
    pose proof (wp_Done _ _ _ _ _ Hcr Hrun) as (os' & _ & _ & Hr). split.
    + split.
      * intros Hfull. destruct r as [k|e]; [exfalso; lia|]. specialize (Href e eq_refl).
        rewrite decide_False in Href by lia. by rewrite Href.
      * intros ->. specialize (Href _ eq_refl). case_decide; [by destruct Href|lia].
    + intros e ->. specialize (Href e eq_refl). case_decide; [by right|by left].
  - intros k (ks1 & ks2 & Heq)%list_elem_of_split. rewrite Heq in Hinv.
    destruct (proj1 (wp_unfold _ _ _) (drop_wp _ _ _ _ Hreg _ w ks1 k ks2 Hinv)) as ([] & w' & Hrun & _).
    by exists w'.
Qed.
End Boot.

(** ** Refinement of an abstract address space *)

Section Refinement.
Context `{PageLayout}.

(** The kernel's operation. *)
Definition do_op (op : space_op) : M (World Mmu) op_result :=
  match op with
  | MapOp va pa p =>
      let! r := map_kernel_page_with_alloc allocate_page_table va pa p in ret (MapResult r)
  | UnmapOp va => let! r := unmap_kernel_page va in ret (UnmapResult r)
  end.
Definition kernel_step (w : World Mmu) (op : space_op) (res : op_result) (w' : World Mmu) : Prop :=
  do_op op w = Done (res, w').
Abbreviation arm64_space_step := (space_step_to map_spec unmap_spec).

Lemma do_op_wp s0 (Hsmall : small_memory s0) w os l op :
  world_ok s0 w os l ->
  wp (do_op op) (fun res w' => (exists os' l', world_ok s0 w' os' l') /\
    arm64_space_step (walk (w_mmu w)) op res (walk (w_mmu w'))) w.
Proof.
  intros Hok. destruct op as [va pa p|va]; cbn [do_op]; apply wp_bind.
  - eapply wp_mono; [exact (map_kernel_page_spec s0 Hsmall w os l va pa p Hok)|].
    intros r w' (os' & A' & [[l' Hok'] _ Hsp _ _] & Hspec). apply wp_ret. split; [by eauto|].
    destruct Hspec as [Hspec|(-> & -> & Hspec)].
    + replace r with (map_spec (walk (w_mmu w)) va pa p).1 by (by rewrite <-Hspec).
      apply space_map. rewrite <-Hspec. exact Hsp.
    + apply space_map_no_memory; [by rewrite Hspec|exact Hsp].
  - eapply wp_mono; [exact (unmap_kernel_page_spec s0 w os l va Hok)|].
    intros r w' ([[l' Hok'] _ Hsp _ _] & ->). apply wp_ret. split; [by eauto|]. by apply space_unmap.
Qed.

(** (C17) Mapping and unmapping kernel pages on a booted ARM64 kernel refines an
    abstract address space: the results of any sequence of calls and the
    resulting translations are those of the abstract operations, except that a
    mapping may be refused for lack of memory without effect; and in every
    state that is reached every call returns. *)
Theorem arm64_mapping_refines info ks ke dtb w0 tr w :
  arm64_booted info ks ke dtb w0 -> run_of kernel_step w0 tr w ->
  run_of arm64_space_step (walk (w_mmu w0)) tr (walk (w_mmu w)) /\
  (forall op, exists res w', kernel_step w op res w') /\
  (forall va, is_canonical va = true ->
    translate HighTable va (w_mmu w) = Done (resolve va (walk (w_mmu w) va), w_mmu w)).
Proof.
  intros Hboot Hrun. destruct (booted_small info ks ke dtb w0 Hboot) as [Hsmall Hok].
  destruct (run_refines map_spec unmap_spec do_op (fun w => exists os l, world_ok (w_pmm w0) w os l)
    (fun w => walk (w_mmu w)) w0 tr w) as (Hr & (os & l & Hok') & Hcalls); [|by eauto|exact Hrun|].
  - intros w1 op (os & l & Hok1). by apply (do_op_wp _ Hsmall w1 os l).
  - split_and!; [done|done|]. intros va Hc. by apply translate_walk; [apply Hok'|].
Qed.
End Refinement.

(** ** Descriptors *)

Lemma flag_bit flags pa i : (i < 12 \/ 48 <= i) -> 0 <= i ->
  Z.testbit (Z.lor flags (Z.land pa OUTPUT_MASK)) i = Z.testbit flags i.
Proof.
  intros Hi H0. rewrite Z.lor_spec, Z.land_spec, output_mask_bit.
  destruct (Z.leb_spec 12 i), (Z.ltb_spec i 48); try lia; cbn; by rewrite andb_false_r, orb_false_r.
Qed.

(** The descriptor of a mapping below 2^48 holds what was asked for: its
    output address reads back, it is a block exactly for the block sizes, the
    memory attribute is entry 3 (normal) or 0 (device) of the MAIR, the page is
    read-only exactly when not writable, user-accessible and non-global exactly
    when the mapping is, and execution is denied to the kernel exactly when it
    is not executable and to user code unless it is both. *)
Theorem arm64_descriptor_round_trip {S} pa sz mem p intent (s : S) :
  MappingIntent_new pa sz mem p = Some intent -> 0 <= pa < 2 ^ 48 ->
  exists e, from_mapping intent s = Done (e, s) /\
    output_address e = Some pa /\ is_block e = negb (is_page_size sz) /\ is_table e = is_page_size sz /\
    Z.land (Z.shiftr e 2) 7 = (match mem with Normal => 3 | Device => 0 end) /\
    Z.testbit e 7 = negb (writable p) /\
    Z.testbit e 6 = user_accessible p /\ Z.testbit e 11 = user_accessible p /\
    Z.testbit e 53 = negb (executable p) /\
    Z.testbit e 54 = negb (user_accessible p && executable p).
Proof.
  intros Hnew Hpa. destruct (MappingIntent_new_Some _ _ _ _ _ Hnew) as (Hi1 & Hi2 & Hi3 & Hi4 & Hal).
  assert (pa mod PAGE_SIZE = 0) as Hpg by (destruct sz; cbn in Hal; unfold PAGE_SIZE in *; divlia).
  eexists. split; [apply from_mapping_spec; by rewrite Hi1|]. rewrite Hi1, Hi2, Hi3, Hi4.
  set (page := is_page_size sz). destruct (leaf_flags_spec mem page p) as (H1 & H2 & H3).
  destruct (descriptor_spec _ pa H1 H2) as (Hv & Ht & Ho). rewrite H3 in Ht.
  split; [unfold output_address; rewrite Hv, Ho; f_equal; by apply output_mask_id|].
  split; [|split; [exact Ht|split]].
  - unfold is_block. unfold is_table in Ht. rewrite Hv, andb_true_l in *. apply (f_equal negb) in Ht. by rewrite negb_involutive in Ht.
  - replace (Z.land (Z.shiftr _ 2) 7) with
      (Z.shiftr (Z.land (Z.lor (leaf_flags mem page p) (Z.land pa OUTPUT_MASK)) 28) 2).
    + rewrite land_out by done. by destruct mem, page, p as [[] [] []].
    + rewrite Z.shiftr_land. done.
  - rewrite !flag_bit by lia. by destruct mem, page, p as [[] [] []].
Qed.

(** ** TLB maintenance *)

(** The operand that [flush_address] gives to [tlbi vale1is] keeps 36 bits of
    the page number where the instruction takes VA[55:12]: for every kernel
    address it lacks the bits that select the kernel half, and is the operand
    of the address with those bits clear. *)
Theorem arm64_flush_operand va :
  kernel_address va ->
  let va_55_12 (a : VirtualAddress) := Z.land (Z.shiftr a PAGE_SHIFT) (Z.ones 44) in
  flush_address_operand va <> va_55_12 va /\
  flush_address_operand va = va_55_12 (va - 0xffff000000000000) /\
  Z.testbit (va_55_12 va) (55 - 12) = true /\ Z.testbit (flush_address_operand va) (55 - 12) = false.
Proof.
  intros Hk va_55_12. unfold kernel_address, KERNEL_VIRTUAL_BASE in Hk. unfold va_55_12, flush_address_operand.
  change 0x000fffffffff with (Z.ones 36). change PAGE_SHIFT with 12.
  rewrite !Z.land_ones, !Z.shiftr_div_pow2 by lia. split_and!.
  - divlia.
  - divlia.
  - rewrite Z.mod_pow2_bits_low, Z.div_pow2_bits by lia.
    rewrite <-(Z.mod_pow2_bits_low va 64) by lia.
    apply Z.testbit_true; [lia|]. divlia.
  - apply Z.mod_pow2_bits_high. lia.
Qed.

(** ** Witnesses: a machine with sixteen pages *)

#[local] Existing Instance small_layout.

Definition reset_mmu : Mmu := {|
  low_table := replicate 512 0; high_table := replicate 512 0; tables := ∅; physmap_end_gb := 0; tlb := [];
  mair_el1 := 0; tcr_el1 := 0; ttbr0_el1 := 0; ttbr1_el1 := 0; sctlr_el1 := 0 |}.
Definition small_arm64_mmu : Mmu :=
  match boot_mmu 0x40100000 0x40101000 0x48000000 small_info reset_mmu with Done (_, m) => m | _ => reset_mmu end.
Definition small_arm64_pmm : Pmm :=
  match init small_info 0x1000 0x2000 physical_to_virtual (Pmm_empty ∅) with
  | Done (_, s) => s
  | _ => Pmm_empty ∅
  end.
Definition small_arm64_world : World Mmu :=
  {| w_pmm := small_arm64_pmm; w_next_slot := 0; w_mmu := small_arm64_mmu |}.

Lemma small_arm64_booted : arm64_booted small_info 0x1000 0x2000 0x48000000 small_arm64_world.
Proof.
  split.
  - exact small_boot_ok.
  - intros r Hr. vm_compute in Hr. apply list_elem_of_singleton in Hr as ->. vm_compute. discriminate.
  - split; vm_compute; discriminate.
  - exists 0x40100000, 0x40101000, reset_mmu. split; [reflexivity|]. split; [reflexivity|].
    split; [reflexivity|]. vm_compute. reflexivity.
  - exists (Pmm_empty ∅). vm_compute. reflexivity.
  - reflexivity.
Qed.

Definition small_stack_run := create_mapped kernel_stack_region_base map_kernel_stack_page unmap_kernel_stack_page small_arm64_world.
Definition small_stack_world : World Mmu :=
  match small_stack_run with Done (_, w) => w | _ => small_arm64_world end.
Definition small_stack : KernelStack :=
  match small_stack_run with
  | Done (Ok k, _) => k
  | _ => {| stack_pages := {| run_head := PageHandle_new 0 0; run_count := 0 |}; stack_base := 0;
            stack_size := 0; stack_unmap := false |}
  end.

Lemma small_stack_run_ok :
  create_mapped kernel_stack_region_base map_kernel_stack_page unmap_kernel_stack_page small_arm64_world =
  Done (Ok small_stack, small_stack_world).
Proof. vm_compute. reflexivity. Qed.

Lemma small_stack_reached :
  rtc (stack_step map_kernel_stack_page unmap_kernel_stack_page kernel_stack_region_base)
    (small_arm64_world, []) (small_stack_world, [small_stack]).
Proof.
  apply rtc_once, stack_step_create; [vm_compute; reflexivity|exact small_stack_run_ok].
Qed.

Lemma arm64_stacks_mapped_witness :
  exists pa,
    physical_of (w_pmm small_arm64_world) (run_page (stack_pages small_stack)
      ((stack_base small_stack + 4100 - stack_base small_stack) / PAGE_SIZE)) = Some pa /\
    translate HighTable (stack_base small_stack + 4100) (w_mmu small_stack_world) =
      Done (Some (pa + (stack_base small_stack + 4100) mod PAGE_SIZE), w_mmu small_stack_world).
Proof.
  exact (proj1 (arm64_stacks_mapped small_info 0x1000 0x2000 0x48000000 small_arm64_world small_stack_world
    [small_stack] small_arm64_booted small_stack_reached) small_stack (stack_base small_stack + 4100)
    ltac:(left) ltac:(split; vm_compute; [discriminate|reflexivity])).
Defined.

Lemma arm64_stack_calls_witness :
  exists w', KernelStack_drop unmap_kernel_stack_page small_stack small_stack_world = Done (tt, w').
Proof.
  exact (proj2 (arm64_stack_calls small_info 0x1000 0x2000 0x48000000 small_arm64_world small_stack_world
    [small_stack] small_arm64_booted small_stack_reached) small_stack ltac:(left)).
Defined.

Lemma arm64_boot_physmap_witness :
  exists m', boot_mmu 0x40100000 0x40101000 0x48000000 small_info reset_mmu = Done (tt, m') /\
    translate HighTable (physical_to_virtual 0x80001234) m' = Done (Some 0x80001234, m').
Proof.
  destruct (proj2 (proj2 (proj2 (arm64_boot_physmap reset_mmu 0x40100000 0x40101000 0x48000000 small_info
    eq_refl eq_refl ltac:(discriminate) ltac:(vm_compute; discriminate))))) as (m' & Hrun & Ht).
  exists m'. split; [exact Hrun|]. exact (proj1 (Ht 0x80001234 ltac:(split; [discriminate|reflexivity]))).
Defined.

Lemma arm64_mapping_refines_witness :
  exists res w', do_op (MapOp 0xffffffc000000000 0x80003000 KERNEL_READ_WRITE) small_arm64_world = Done (res, w').
Proof.
  exact (proj1 (proj2 (arm64_mapping_refines small_info 0x1000 0x2000 0x48000000 small_arm64_world []
    small_arm64_world small_arm64_booted (run_nil _ _))) _).
Defined.

Lemma arm64_descriptor_round_trip_witness :
  exists e, from_mapping {| physical_address := 0x80003000; Address.size := Page4K; memory := Normal;
                            permissions := KERNEL_READ_WRITE |} tt = Done (e, tt) /\
    output_address e = Some 0x80003000.
Proof.
  destruct (arm64_descriptor_round_trip 0x80003000 Page4K Normal KERNEL_READ_WRITE _ tt
    (MappingIntent_new_page 0x80003000 Normal KERNEL_READ_WRITE eq_refl)
    ltac:(split; [discriminate|reflexivity])) as (e & Hrun & Ho & _).
  exists e. split; [exact Hrun|exact Ho].
Defined.

Lemma arm64_flush_operand_witness :
  flush_address_operand kernel_stack_region_base <> Z.land (Z.shiftr kernel_stack_region_base 12) (Z.ones 44).
Proof.
  exact (proj1 (arm64_flush_operand kernel_stack_region_base ltac:(split; [discriminate|reflexivity]))).
Defined.
