(* ===== verification/TableTree.v ===== *)
(** * Trees of page tables

    Page-table memory as a map from table addresses to lists of 512 entries, of
    any depth and entry format: the pointer that a path of indices leads to,
    the walk of an address's indices, and what writing one entry does to every
    walk.  A format says which entries are valid, which of those end a walk,
    and where the others lead. *)

From S2P Require Import Prelude.
From stdpp Require Import base tactics option list list_numbers numbers gmap.

#[local] Open Scope Z_scope.

Definition TABLE_LEN : nat := 512.
Definition in_table (i : Z) : Prop := 0 <= i < 512.

Lemma lookup_in_table (l : list Z) i : length l = TABLE_LEN -> in_table i -> exists e, l !! Z.to_nat i = Some e.
Proof. unfold TABLE_LEN, in_table. intros Hl Hi. apply lookup_lt_is_Some_2. lia. Qed.

(** The format of entries. *)
Class EntryFormat := {
  e_valid : Z -> bool;
  e_leaf : Z -> bool;
  e_target : Z -> Z;
  e_zero : e_valid 0 = false;
}.

Section Tree.
Context `{EntryFormat}.
Implicit Types (T : gmap Z (list Z)) (p q root : Z) (path idx : list Z).

(** Where a branch entry leads. *)
Definition e_link (e : Z) : option Z := if e_valid e && negb (e_leaf e) then Some (e_target e) else None.

Definition entry_at T p (i : Z) : option Z :=
  match T !! p with Some l => l !! Z.to_nat i | None => None end.
Definition next_ptr T p (i : Z) : option Z :=
  match entry_at T p i with Some e => e_link e | None => None end.

(** The table that a path of indices leads to from [p]. *)
Fixpoint ptr T p path : option Z :=
  match path with
  | [] => Some p
  | i :: path => match next_ptr T p i with Some q => ptr T q path | None => None end
  end.

(** The walk: the entry that maps the indices and the levels below it. *)
Fixpoint walk T p idx : option (nat * Z) :=
  match idx with
  | [] => None
  | i :: idx =>
      match entry_at T p i with
      | None => None
      | Some e =>
          if negb (e_valid e) then None
          else match idx with
          | [] => Some (0%nat, e)
          | _ :: _ => if e_leaf e then Some (length idx, e) else walk T (e_target e) idx
          end
      end
  end.

Lemma walk_cons T p i k idx :
  walk T p (i :: k :: idx) =
  match entry_at T p i with
  | None => None
  | Some e =>
      if negb (e_valid e) then None
      else if e_leaf e then Some (length (k :: idx), e) else walk T (e_target e) (k :: idx)
  end.
Proof. reflexivity. Qed.

Lemma ptr_app T p path1 path2 :
  ptr T p (path1 ++ path2) = match ptr T p path1 with Some q => ptr T q path2 | None => None end.
Proof.
  revert p. induction path1 as [|i path1 IH]; intros p; [done|]. cbn. destruct (next_ptr T p i); [apply IH|done].
Qed.
Lemma ptr_snoc T p path i q : ptr T p path = Some q -> ptr T p (path ++ [i]) = next_ptr T q i.
Proof. intros Hq. rewrite ptr_app, Hq. cbn. by destruct (next_ptr T q i). Qed.

Lemma e_link_Some e q : e_link e = Some q -> e_valid e = true /\ e_leaf e = false /\ q = e_target e.
Proof. unfold e_link. destruct (e_valid e), (e_leaf e); cbn; naive_solver. Qed.
Lemma e_link_valid e : e_valid e = true -> e_leaf e = false -> e_link e = Some (e_target e).
Proof. unfold e_link. by intros -> ->. Qed.
Lemma e_link_invalid e : e_valid e = false -> e_link e = None.
Proof. unfold e_link. by intros ->. Qed.

(** A tree of [depth] levels under [root]: tables are reached on one path only. *)
Record tree_ok T root (depth : nat) : Prop := {
  tk_len p l : T !! p = Some l -> length l = TABLE_LEN;
  tk_table path p : Forall in_table path -> (length path < depth)%nat ->
    ptr T root path = Some p -> is_Some (T !! p);
  tk_inj path1 path2 p : Forall in_table path1 -> Forall in_table path2 ->
    (length path1 < depth)%nat -> (length path2 < depth)%nat ->
    ptr T root path1 = Some p -> ptr T root path2 = Some p -> path1 = path2;
}.

(** Indices of a tree's walk. *)
Definition indices (depth : nat) idx : Prop := length idx = depth /\ Forall in_table idx.

Lemma entry_present T root depth path p i :
  tree_ok T root depth -> Forall in_table path -> (length path < depth)%nat ->
  ptr T root path = Some p -> in_table i -> exists l e, T !! p = Some l /\ l !! Z.to_nat i = Some e.
Proof.
  intros Hok Hp Hl Hptr Hi. destruct (tk_table _ _ _ Hok path p Hp Hl Hptr) as [l Ht].
  destruct (lookup_in_table l i (tk_len _ _ _ Hok p l Ht) Hi) as [e He]. by exists l, e.
Qed.

(** The walk past a path. *)
Lemma walk_at T root path0 p i rest :
  ptr T root path0 = Some p ->
  walk T root (path0 ++ i :: rest) = walk T p (i :: rest).
Proof.
  revert root. induction path0 as [|j path0 IH]; intros root; [by intros [= ->]|].
  cbn [ptr]. unfold next_ptr. destruct (entry_at T root j) as [e|] eqn:He; [|done].
  destruct (e_link e) as [q|] eqn:Hlk; [|done]. intros Hp. destruct (e_link_Some e q Hlk) as (Hv & Hl & ->).
  rewrite <-(IH _ Hp). cbn [app walk]. rewrite He, Hv. cbn [negb].
  destruct (path0 ++ i :: rest) as [|k l] eqn:Happ; [by destruct path0|]. by rewrite Hl.
Qed.

(** ** Writing one entry *)

Definition write T p (i : Z) (v : Z) : gmap Z (list Z) :=
  match T !! p with Some l => <[p := <[Z.to_nat i := v]> l]> T | None => T end.

Lemma entry_write_other T p i v q j : q <> p -> entry_at (write T p i v) q j = entry_at T q j.
Proof.
  intros Hne. unfold entry_at, write. destruct (T !! p); [|done]. by rewrite lookup_insert_ne.
Qed.
Lemma entry_write T p l i v j :
  T !! p = Some l -> length l = TABLE_LEN -> in_table i -> in_table j ->
  entry_at (write T p i v) p j = if decide (j = i) then Some v else entry_at T p j.
Proof.
  intros Ht Hl Hi Hj. unfold entry_at, write, TABLE_LEN, in_table in *. rewrite Ht, lookup_insert_eq.
  case_decide as Heq.
  - subst. by rewrite list_lookup_insert_eq by lia.
  - by rewrite list_lookup_insert_ne by lia.
Qed.
Lemma write_len T p i v q l :
  (forall q l, T !! q = Some l -> length l = TABLE_LEN) -> write T p i v !! q = Some l -> length l = TABLE_LEN.
Proof.
  intros Hlen. unfold write. destruct (T !! p) as [l'|] eqn:Ht; [|by apply Hlen].
  rewrite lookup_insert. case_decide; [|by apply Hlen]. intros [= <-]. rewrite length_insert. by eapply Hlen.
Qed.
Lemma write_dom T p i v q : is_Some (write T p i v !! q) <-> is_Some (T !! q).
Proof.
  unfold write. destruct (T !! p) as [l|] eqn:Ht; [|done]. rewrite lookup_insert. case_decide; [|done].
  subst. rewrite Ht. split; by eexists.
Qed.

(** Pointers that do not pass through the written entry stay. *)
Lemma ptr_write T root depth path0 p i v path :
  tree_ok T root depth -> Forall in_table path0 -> (length path0 < depth)%nat -> ptr T root path0 = Some p ->
  in_table i -> Forall in_table path -> (length path <= depth)%nat ->
  (forall rest, path <> path0 ++ i :: rest) ->
  ptr (write T p i v) root path = ptr T root path.
Proof.
  intros Hok Hp0 Hl0 Hptr Hi Hp Hl Hne. induction path as [|j path IH] using rev_ind; [done|].
  apply Forall_app in Hp as [Hp [Hj _]%Forall_cons]. rewrite length_app in Hl. cbn in Hl.
  rewrite !ptr_app, IH; [|done|lia|]; [|intros rest ->; by apply (Hne (rest ++ [j])); rewrite <-app_assoc].
  destruct (ptr T root path) as [q|] eqn:Hq; [|done]. cbn. unfold next_ptr.
  destruct (decide (q = p)) as [->|Hqp]; [|by rewrite entry_write_other].
  assert (path = path0) as -> by (apply (tk_inj _ _ _ Hok path path0 p); try done; lia).
  destruct (tk_table _ _ _ Hok path0 p Hp0 Hl0 Hptr) as [l Ht].
  rewrite (entry_write T p l) by (done || by eapply tk_len). rewrite decide_False; [done|].
  intros ->. by apply (Hne []).
Qed.

(** On the path to a table every entry is a branch. *)
Lemma ptr_branch T root pre j rest p q :
  ptr T root pre = Some q -> ptr T root (pre ++ j :: rest) = Some p ->
  exists e, entry_at T q j = Some e /\ e_valid e = true /\ e_leaf e = false.
Proof.
  intros Hq. rewrite ptr_app, Hq. cbn. unfold next_ptr. destruct (entry_at T q j) as [e|] eqn:He; [|done].
  destruct (e_link e) as [q'|] eqn:Hlk; [|done]. intros _. exists e.
  by destruct (e_link_Some e q' Hlk) as (? & ? & _).
Qed.

(** Writing a leaf. *)
Lemma walk_write_from T root depth path0 p i v idx pre q :
  tree_ok T root depth -> Forall in_table path0 -> S (length path0) = depth -> ptr T root path0 = Some p ->
  in_table i -> Forall in_table pre -> Forall in_table idx -> (length pre + length idx)%nat = depth ->
  idx <> [] -> ptr T root pre = Some q ->
  walk (write T p i v) q idx =
    if decide (pre ++ idx = path0 ++ [i]) then (if e_valid v then Some (0%nat, v) else None) else walk T q idx.
Proof.
  intros Hok Hp0 Hl0 Hptr Hi. revert pre q.
  induction idx as [|j idx IH]; intros pre q Hpre Hidx Hlen Hne Hq; [done|]. apply Forall_cons in Hidx as [Hj Hidx].
  assert (q = p -> pre = path0) as Hinj.
  { intros ->. apply (tk_inj _ _ _ Hok pre path0 p); try done; cbn in Hlen; lia. }
  destruct (tk_table _ _ _ Hok path0 p Hp0 ltac:(lia) Hptr) as [l Ht].
  pose proof (tk_len _ _ _ Hok p l Ht) as Hl. destruct idx as [|k idx].
  - cbn [walk]. destruct (decide (q = p)) as [->|Hqp].
    + rewrite (Hinj eq_refl). rewrite (entry_write T p l) by done.
      destruct (decide (j = i)) as [->|Hji]; [rewrite decide_True by done; by destruct (e_valid v)|].
      rewrite decide_False; [done|]. intros Heq. apply app_inv_head in Heq. congruence.
    + rewrite entry_write_other by done. rewrite decide_False; [done|]. intros Heq.
      apply app_inj_2 in Heq as [-> _]; [|done]. congruence.
  - assert (q <> p) as Hqp. { intros ->. rewrite (Hinj eq_refl) in Hlen. cbn in Hlen. lia. }
    rewrite !walk_cons, entry_write_other by done.
    assert (pre ++ j :: k :: idx = path0 ++ [i] -> exists e, entry_at T q j = Some e /\ e_valid e = true /\ e_leaf e = false) as Hbr.
    { intros Heq. destruct (exists_last (l := k :: idx)) as (m & x & Hm); [done|]. rewrite Hm in Heq.
      rewrite app_comm_cons, app_assoc in Heq. apply app_inj_tail in Heq as [Heq _].
      apply (ptr_branch T root pre j m p q Hq). by rewrite Heq. }
    destruct (entry_at T q j) as [e|] eqn:He; [|by rewrite decide_False by (intros Heq; destruct (Hbr Heq) as (? & ? & _); done)].
    destruct (e_valid e) eqn:Hv; cbn [negb];
      [|by rewrite decide_False by (intros Heq; destruct (Hbr Heq) as (? & ? & ? & _); congruence)].
    destruct (e_leaf e) eqn:Hlf;
      [by rewrite decide_False by (intros Heq; destruct (Hbr Heq) as (? & ? & _ & ?); congruence)|].
    assert (ptr T root (pre ++ [j]) = Some (e_target e)) as Hq'.
    { rewrite (ptr_snoc T root pre j q Hq). unfold next_ptr. rewrite He. by apply e_link_valid. }
    rewrite (IH (pre ++ [j]) (e_target e)); [by rewrite <-app_assoc| |done| |done|done].
    + apply Forall_app. by split; [|constructor].
    + rewrite length_app. cbn in *. lia.
Qed.

Lemma write_leaf_tree T root depth path0 p i v :
  tree_ok T root depth -> Forall in_table path0 -> S (length path0) = depth -> ptr T root path0 = Some p ->
  in_table i ->
  tree_ok (write T p i v) root depth /\
  (forall path, Forall in_table path -> (length path < depth)%nat ->
    ptr (write T p i v) root path = ptr T root path) /\
  forall idx, indices depth idx -> walk (write T p i v) root idx =
    if decide (idx = path0 ++ [i]) then (if e_valid v then Some (0%nat, v) else None) else walk T root idx.
Proof.
  intros Hok Hp0 Hl0 Hptr Hi.
  assert (forall path, Forall in_table path -> (length path < depth)%nat ->
    ptr (write T p i v) root path = ptr T root path) as Hsame.
  { intros path Hp Hl. apply (ptr_write T root depth path0); try done; [lia..|].
    intros rest ->. rewrite length_app in Hl. cbn in Hl. lia. }
  split_and!; [|done|].
  - split.
    + intros q l. apply write_len, Hok.
    + intros path q Hp Hl. rewrite Hsame, write_dom by done. by apply Hok.
    + intros path1 path2 q H1 H2 L1 L2. rewrite !Hsame by done. by apply Hok.
  - intros idx [Hl Hf]. apply (walk_write_from T root depth path0 p i v idx []); try done.
    intros ->. cbn in Hl. lia.
Qed.

(** ** Linking a zeroed table *)

Definition zeros : list Z := replicate TABLE_LEN 0.
(** A zeroed table that no path reaches. *)
Record spare_table T root (depth : nat) q : Prop := {
  sp_zero : T !! q = Some zeros;
  sp_unused path : Forall in_table path -> (length path < depth)%nat -> ptr T root path <> Some q;
}.

Lemma entry_zeros T q i e : T !! q = Some zeros -> entry_at T q i = Some e -> e = 0.
Proof. intros Hq. unfold entry_at. rewrite Hq. by intros [-> _]%lookup_replicate. Qed.
Lemma next_zeros T q i : T !! q = Some zeros -> next_ptr T q i = None.
Proof.
  intros Hq. unfold next_ptr. destruct (entry_at T q i) as [e|] eqn:He; [|done].
  rewrite (entry_zeros T q i e Hq He). apply e_link_invalid, e_zero.
Qed.
Lemma walk_zeros T q idx : T !! q = Some zeros -> walk T q idx = None.
Proof.
  intros Hq. destruct idx as [|i idx]; [done|]. cbn [walk].
  destruct (entry_at T q i) as [e|] eqn:He; [|done]. by rewrite (entry_zeros T q i e Hq He), e_zero.
Qed.

Section Link.
Context T root (depth : nat) path0 p (i e0 v q : Z).
Hypothesis Hok : tree_ok T root depth.
Hypothesis Hp0 : Forall in_table path0.
Hypothesis Hl0 : (S (length path0) < depth)%nat.
Hypothesis Hptr : ptr T root path0 = Some p.
Hypothesis Hi : in_table i.
Hypothesis He0 : entry_at T p i = Some e0.
Hypothesis Hv0 : e_valid e0 = false.
Hypothesis Hlk : e_link v = Some q.
Hypothesis Hspare : spare_table T root depth q.

Let T' := write T p i v.

Lemma link_ne : q <> p.
Proof. intros Heq. apply (sp_unused _ _ _ _ Hspare path0); [done|lia|congruence]. Qed.

Lemma link_zero : T' !! q = Some zeros.
Proof.
  pose proof link_ne as Hne. unfold T', write. destruct (T !! p) as [l|]; [|apply Hspare].
  rewrite lookup_insert_ne; [apply Hspare|congruence].
Qed.

Lemma link_entry_new j : in_table j -> entry_at T' p j = if decide (j = i) then Some v else entry_at T p j.
Proof.
  intros Hj. destruct (tk_table _ _ _ Hok path0 p Hp0 ltac:(lia) Hptr) as [l Ht].
  apply (entry_write T p l); try done. by eapply tk_len.
Qed.

(** Old paths stay; the written entry leads to [q]. *)
Lemma link_ptr_old path r :
  Forall in_table path -> (length path < depth)%nat -> ptr T root path = Some r -> ptr T' root path = Some r.
Proof.
  intros Hp Hl Hr. rewrite <-Hr. apply (ptr_write T root depth path0); try done; [lia..|].
  intros rest ->. rewrite ptr_app, Hptr in Hr. cbn in Hr. unfold next_ptr in Hr. rewrite He0 in Hr.
  by rewrite (e_link_invalid e0 Hv0) in Hr.
Qed.
Lemma link_ptr_new : ptr T' root (path0 ++ [i]) = Some q.
Proof.
  rewrite (ptr_snoc T' root path0 i p); [|apply link_ptr_old; [done|lia|done]].
  unfold next_ptr. by rewrite link_entry_new, decide_True.
Qed.
Lemma link_ptr_inv path r :
  Forall in_table path -> (length path < depth)%nat -> ptr T' root path = Some r ->
  ptr T root path = Some r \/ path = path0 ++ [i] /\ r = q.
Proof.
  intros Hp Hl Hr. destruct (decide (path0 ++ [i] `prefix_of` path)) as [[rest ->]|Hne].
  - right. rewrite ptr_app, link_ptr_new in Hr.
    destruct rest as [|j rest]; [cbn in Hr; rewrite app_nil_r; split; congruence|]. cbn in Hr. by rewrite next_zeros in Hr by apply link_zero.
  - left. rewrite <-Hr. symmetry. apply (ptr_write T root depth path0); try done; [lia..|].
    intros rest ->. apply Hne. exists rest. by rewrite <-app_assoc.
Qed.

Lemma link_walk_from idx pre r :
  Forall in_table pre -> Forall in_table idx -> (length pre + length idx)%nat = depth -> idx <> [] ->
  ptr T root pre = Some r -> walk T' r idx = walk T r idx.
Proof.
  revert pre r. induction idx as [|j idx IH]; intros pre r Hpre Hidx Hlen Hne Hr; [done|].
  apply Forall_cons in Hidx as [Hj Hidx].
  assert (r = p -> pre = path0) as Hinj.
  { intros ->. apply (tk_inj _ _ _ Hok pre path0 p); try done; cbn in Hlen; lia. }
  destruct idx as [|k idx].
  - assert (r <> p). { intros ->. rewrite (Hinj eq_refl) in Hlen. cbn in Hlen. lia. }
    cbn [walk]. unfold T'. by rewrite entry_write_other.
  - rewrite !walk_cons. destruct (decide (r = p /\ j = i)) as [[-> ->]|Hrj].
    + rewrite link_entry_new, decide_True, He0, Hv0 by done. cbn [negb].
      destruct (e_link_Some v q Hlk) as (-> & -> & <-). cbn [negb]. apply walk_zeros, link_zero.
    + assert (entry_at T' r j = entry_at T r j) as ->.
      { destruct (decide (r = p)) as [->|]; [|by apply entry_write_other].
        rewrite link_entry_new by done. rewrite decide_False by (intros ->; by apply Hrj). done. }
      destruct (entry_at T r j) as [e|] eqn:He; [|done]. destruct (e_valid e) eqn:Hv; [|done]. cbn [negb].
      destruct (e_leaf e) eqn:Hlf; [done|]. apply (IH (pre ++ [j])); [|done| |done|].
      * apply Forall_app. by split; [|constructor].
      * rewrite length_app. cbn in *. lia.
      * rewrite (ptr_snoc T root pre j r Hr). unfold next_ptr. rewrite He. by apply e_link_valid.
Qed.

Lemma link_tree :
  tree_ok T' root depth /\ ptr T' root (path0 ++ [i]) = Some q /\
  (forall idx, indices depth idx -> walk T' root idx = walk T root idx).
Proof.
  split_and!; [|exact link_ptr_new|].
  - split.
    + intros r l. apply write_len, Hok.
    + intros path r Hp Hl Hr. unfold T'. rewrite write_dom.
      destruct (link_ptr_inv path r Hp Hl Hr) as [Hr'|[_ ->]]; [by apply (tk_table _ _ _ Hok path)|].
      rewrite (sp_zero _ _ _ _ Hspare). by eexists.
    + intros path1 path2 r H1 H2 L1 L2 R1 R2.
      destruct (link_ptr_inv path1 r H1 L1 R1) as [R1'|[-> Q1]];
        destruct (link_ptr_inv path2 r H2 L2 R2) as [R2'|[-> Q2]]; [by eapply tk_inj| | |done].
      * rewrite Q2 in R1'. by apply (sp_unused _ _ _ _ Hspare) in R1'.
      * rewrite Q1 in R2'. by apply (sp_unused _ _ _ _ Hspare) in R2'.
  - intros idx [Hl Hf]. apply (link_walk_from idx []); try done. intros ->. cbn in Hl. lia.
Qed.
End Link.

(** Memory that held no table becomes a zeroed one. *)
Lemma fresh_table_tree T root depth q :
  tree_ok T root depth -> T !! q = None ->
  tree_ok (<[q := zeros]> T) root depth /\ spare_table (<[q := zeros]> T) root depth q /\
  (forall path, Forall in_table path -> (length path < depth)%nat ->
    ptr (<[q := zeros]> T) root path = ptr T root path) /\
  (forall idx, indices depth idx -> walk (<[q := zeros]> T) root idx = walk T root idx).
Proof.
  intros Hok Hq. assert (forall r j, r <> q -> entry_at (<[q := zeros]> T) r j = entry_at T r j) as Hent.
  { intros r j Hne. unfold entry_at. by rewrite lookup_insert_ne. }
  assert (forall path r, Forall in_table path -> (length path < depth)%nat -> ptr T root path = Some r -> r <> q) as Hnot.
  { intros path r Hp Hl Hr ->. destruct (tk_table _ _ _ Hok path q Hp Hl Hr). congruence. }
  assert (forall path, Forall in_table path -> (length path < depth)%nat ->
    ptr (<[q := zeros]> T) root path = ptr T root path) as Hsame.
  { intros path Hp Hl. induction path as [|j path IH] using rev_ind; [done|].
    apply Forall_app in Hp as [Hp [Hj _]%Forall_cons]. rewrite length_app in Hl. cbn in Hl.
    rewrite !ptr_app, IH by (done || lia). destruct (ptr T root path) as [r|] eqn:Hr; [|done]. cbn. unfold next_ptr.
    rewrite Hent; [done|]. apply (Hnot path); [done|lia|done]. }
  split_and!; [|split|done|].
  - split.
    + intros r l. rewrite lookup_insert. case_decide; [by intros [= <-]|apply Hok].
    + intros path r Hp Hl. rewrite Hsame by done. intros Hr. rewrite lookup_insert.
      case_decide; [by eexists|by apply (tk_table _ _ _ Hok path)].
    + intros path1 path2 r H1 H2 L1 L2. rewrite !Hsame by done. by apply Hok.
  - by rewrite lookup_insert_eq.
  - intros path Hp Hl. rewrite Hsame by done. intros Hr. by apply (Hnot path) in Hr.
  - assert (forall idx pre r, Forall in_table pre -> Forall in_table idx -> (length pre + length idx)%nat = depth ->
      idx <> [] -> ptr T root pre = Some r -> walk (<[q := zeros]> T) r idx = walk T r idx) as Hwalk.
    { induction idx as [|j idx IH]; intros pre r Hpre Hidx Hlen Hne Hr; [done|].
      apply Forall_cons in Hidx as [Hj Hidx]. pose proof (Hnot pre r Hpre ltac:(cbn in Hlen; lia) Hr) as Hrq.
      destruct idx as [|k idx]; [cbn [walk]; by rewrite Hent|]. rewrite !walk_cons, Hent by done.
      destruct (entry_at T r j) as [e|] eqn:He; [|done]. destruct (e_valid e) eqn:Hv; [|done]. cbn [negb].
      destruct (e_leaf e) eqn:Hlf; [done|]. apply (IH (pre ++ [j])); [|done| |done|].
      - apply Forall_app. by split; [|constructor].
      - rewrite length_app. cbn in *. lia.
      - rewrite (ptr_snoc T root pre j r Hr). unfold next_ptr. rewrite He. by apply e_link_valid. }
    intros idx [Hl Hf]. destruct idx as [|j idx]; [done|]. by apply (Hwalk (j :: idx) []).
Qed.
End Tree.
