(* ===== verification/RiscvMmu.v ===== *)
(** * The RISC-V memory-management unit

    Models [arch/riscv64/mmu.rs] and [hal::mmu] of [hal/mod.rs] on it: Sv48 page
    table entries, the three static boot tables, the four-level walk, and
    mapping and unmapping of 4 KiB kernel pages.  An entry is its [u64].  A
    table is known by its address in the physmap; the code reaches the static
    tables by other addresses too, which name the same memory.  The [fence]
    instructions order memory accesses and have no effect on the state. *)

From S2P Require Import Prelude Address HwInfo Pmm KernelStack.
From stdpp Require Import base tactics option list list_numbers numbers gmap strings.

#[local] Open Scope Z_scope.
#[local] Open Scope kernel_scope.

Definition KERNEL_VIRTUAL_BASE : Z := 0xffff800000000000.
Definition KERNEL_PHYSICAL_LOAD : Z := 0x80200000.
Definition PAGE_SHIFT : Z := 12.
Definition GIGAPAGE : Z := Z.shiftl 1 30.
Definition GIGAPAGE_MASK : Z := GIGAPAGE - 1.
Definition MEGAPAGE : Z := Z.shiftl 1 21.
Definition MEGAPAGE_MASK : Z := MEGAPAGE - 1.
Definition LOWER_CANONICAL_LIMIT : Z := Z.shiftl 1 47.
Definition KERNEL_VPN3 : Z := Z.land (Z.shiftr KERNEL_VIRTUAL_BASE 39) 0x1ff.
Definition MAX_PHYSMAP_ENTRIES : Z := ENTRIES_PER_PAGE_TABLE - 1.
Definition MAX_BOOT_GIGAPAGES : Z := ENTRIES_PER_PAGE_TABLE.
Definition KERNEL_STACK_REGION_OFFSET : Z := (ENTRIES_PER_PAGE_TABLE - 1) * GIGAPAGE.

(** ** Entries *)

Definition VALID : Z := Z.shiftl 1 0.
Definition READABLE : Z := Z.shiftl 1 1.
Definition WRITABLE : Z := Z.shiftl 1 2.
Definition EXECUTABLE : Z := Z.shiftl 1 3.
Definition USER : Z := Z.shiftl 1 4.
Definition GLOBAL : Z := Z.shiftl 1 5.
Definition ACCESSED : Z := Z.shiftl 1 6.
Definition DIRTY : Z := Z.shiftl 1 7.
Definition PHYSICAL_PAGE_NUMBER_SHIFT : Z := 10.
Definition INVALID : Z := 0.

Definition is_valid (e : Z) : bool := negb (Z.land e VALID =? 0).
Definition is_leaf (e : Z) : bool := negb (Z.land e (Z.lor (Z.lor READABLE WRITABLE) EXECUTABLE) =? 0).
Definition is_branch (e : Z) : bool := is_valid e && negb (is_leaf e).

(** The shift to the left drops the bits above 63. *)
Definition output_address (e : Z) : option PhysicalAddress :=
  if is_valid e
  then Some (cast_uint 64 (Z.shiftl (Z.shiftr e PHYSICAL_PAGE_NUMBER_SHIFT) PAGE_SHIFT)) else None.

Definition physical_page_number (address : PhysicalAddress) : option Z :=
  if PhysicalAddress_is_page_aligned address
  then Some (Z.shiftl (Z.shiftr address PAGE_SHIFT) PHYSICAL_PAGE_NUMBER_SHIFT) else None.

Definition branch (table : PhysicalAddress) : option Z :=
  match physical_page_number table with
  | Some ppn => Some (Z.lor VALID ppn)
  | None => None
  end.

Definition apply_permissions (value : Z) (p : MappingPermissions) : Z :=
  let value := if writable p then Z.lor value (Z.lor WRITABLE DIRTY) else value in
  let value := if executable p then Z.lor value EXECUTABLE else value in
  if user_accessible p then Z.lor value USER else Z.lor value GLOBAL.

Definition from_mapping {S} (intent : MappingIntent) : M S Z :=
  let! ppn := expect "validated mapping" (physical_page_number (physical_address intent)) in
  let value := Z.lor (Z.lor (Z.lor VALID READABLE) ACCESSED) ppn in
  ret (apply_permissions value (permissions intent)).

Definition kernel_leaf {S} (address : PhysicalAddress) (executable : bool) : M S Z :=
  let! intent := expect "boot gigapage is aligned"
    (MappingIntent_new address Block1G Normal
       {| writable := true; executable := executable; user_accessible := false |}) in
  from_mapping intent.

(** ** State *)

Inductive TlbOp :=
  | FlushAll
  | FlushAddress (address : VirtualAddress).

(** Page-table memory by physmap address, [PHYSMAP_END_GB], the TLB maintenance
    so far (latest last), and the [satp] register. *)
Record Mmu := {
  tables : gmap VirtualAddress (list Z);
  physmap_end_gb : Z;
  tlb : list TlbOp;
  satp : Z;
}.
Definition set_tables (v : gmap Z (list Z)) (m : Mmu) : Mmu :=
  {| tables := v; physmap_end_gb := physmap_end_gb m; tlb := tlb m; satp := satp m |}.
Definition set_physmap_end (v : Z) (m : Mmu) : Mmu :=
  {| tables := tables m; physmap_end_gb := v; tlb := tlb m; satp := satp m |}.
Definition log_tlb (op : TlbOp) (m : Mmu) : Mmu :=
  {| tables := tables m; physmap_end_gb := physmap_end_gb m; tlb := tlb m ++ [op]; satp := satp m |}.
Definition set_satp (v : Z) (m : Mmu) : Mmu :=
  {| tables := tables m; physmap_end_gb := physmap_end_gb m; tlb := tlb m; satp := v |}.

(** [table.entries[index]]: memory that holds no table is [Undefined]. *)
Definition get_entry (table : VirtualAddress) (index : Z) : M Mmu Z :=
  let! m := gets tables in
  match m !! table with
  | None => undefined
  | Some l => expect "index out of bounds" (l !! Z.to_nat index)
  end.
Definition set_entry (table : VirtualAddress) (index v : Z) : M Mmu unit :=
  let! m := gets tables in
  match m !! table with
  | None => undefined
  | Some l =>
      if index <? Z.of_nat (length l) then modify (set_tables (<[table := <[Z.to_nat index := v]> l]> m))
      else panic "index out of bounds"
  end.
(** [table.entries.fill(INVALID)] *)
Definition fill_invalid (table : VirtualAddress) : M Mmu unit :=
  let! m := gets tables in
  match m !! table with
  | None => undefined
  | Some l => modify (set_tables (<[table := replicate (length l) INVALID]> m))
  end.

(** ** Addresses *)

Definition physical_to_virtual (address : PhysicalAddress) : VirtualAddress :=
  wrapping_add 64 address KERNEL_VIRTUAL_BASE.
Definition virtual_to_physical (address : VirtualAddress) : PhysicalAddress :=
  wrapping_sub 64 address KERNEL_VIRTUAL_BASE.
Definition kernel_stack_region_base : VirtualAddress := KERNEL_VIRTUAL_BASE + KERNEL_STACK_REGION_OFFSET.
Definition is_canonical (address : VirtualAddress) : bool :=
  (address <? LOWER_CANONICAL_LIMIT) || (KERNEL_VIRTUAL_BASE <=? address).
Definition table_from_physical (address : PhysicalAddress) : VirtualAddress := physical_to_virtual address.
Definition static_physical_address (raw : Z) : PhysicalAddress :=
  if KERNEL_VIRTUAL_BASE <=? raw then virtual_to_physical raw else raw.

Definition vpn3 (address : VirtualAddress) : Z := Z.land (Z.shiftr address 39) 0x1ff.
Definition vpn2 (address : VirtualAddress) : Z := Z.land (Z.shiftr address 30) 0x1ff.
Definition vpn1 (address : VirtualAddress) : Z := Z.land (Z.shiftr address 21) 0x1ff.
Definition vpn0 (address : VirtualAddress) : Z := Z.land (Z.shiftr address 12) 0x1ff.

Definition flush_all : M Mmu unit := modify (log_tlb FlushAll).
Definition flush_address (address : VirtualAddress) : M Mmu unit := modify (log_tlb (FlushAddress address)).

Definition MODE_SV48 : Z := 9.
Definition sv48 (root : PhysicalAddress) (asid : Z) : Z :=
  Z.lor (Z.lor (Z.shiftl MODE_SV48 60) (Z.shiftl asid 44)) (Z.shiftr root PAGE_SHIFT).

(** ** Boot *)

(** The addresses of the static tables. *)
Record Statics := {
  ROOT_TABLE : Z;
  IDENTITY_L2_TABLE : Z;
  PHYSMAP_L2_TABLE : Z;
}.
(** The physmap address of a static. *)
Definition static_table (raw : Z) : VirtualAddress := table_from_physical (static_physical_address raw).

Definition validate_boot_range (start_gb end_gb : Z) : M Mmu unit :=
  if (end_gb <? start_gb) || (MAX_BOOT_GIGAPAGES <? end_gb)
  then panic "mmu: boot physical range exceeds RISC-V boot page table" else ret tt.

(** The part of [init] before the tables are written: the gigapage range. *)
Definition boot_range (kernel_load dtb : Z) : Z * Z :=
  let map_start := if dtb =? 0 then kernel_load else Z.min kernel_load dtb in
  let dtb_end := if dtb =? 0 then kernel_load else saturating_add 64 dtb DEVICE_TREE_BLOB_MAX_SIZE in
  let map_end := Z.max (saturating_add 64 kernel_load MINIMUM_PHYSMAP_SIZE) dtb_end in
  (map_start / GIGAPAGE, div_ceil map_end GIGAPAGE).

(** One iteration of the gigapage loop of [init]. *)
Definition boot_gigapage (identity physmap : VirtualAddress) (gb : Z) : M Mmu unit :=
  if gb =? 0 then ret tt
  else
    let! address := mul_uint 64 gb GIGAPAGE in
    let! e := kernel_leaf address true in
    set_entry identity gb e ;;;
    let! e := kernel_leaf address true in
    set_entry physmap gb e.

Definition mmu_init (st : Statics) (kernel_load dtb : Z) : M Mmu unit :=
  let '(start_gb, end_gb) := boot_range kernel_load dtb in
  validate_boot_range start_gb end_gb ;;;
  let root := static_table (ROOT_TABLE st) in
  let identity := static_table (IDENTITY_L2_TABLE st) in
  let physmap := static_table (PHYSMAP_L2_TABLE st) in
  fill_invalid root ;;;
  fill_invalid identity ;;;
  fill_invalid physmap ;;;
  let! e := kernel_leaf PhysicalAddress_ZERO false in
  set_entry identity 0 e ;;;
  let! e := kernel_leaf PhysicalAddress_ZERO false in
  set_entry physmap 0 e ;;;
  for_each (range start_gb end_gb) (boot_gigapage identity physmap) ;;;
  let! e := expect "identity table is page aligned"
    (branch (static_physical_address (IDENTITY_L2_TABLE st))) in
  set_entry root 0 e ;;;
  let! e := expect "physmap table is page aligned"
    (branch (static_physical_address (PHYSMAP_L2_TABLE st))) in
  set_entry root KERNEL_VPN3 e ;;;
  modify (set_physmap_end end_gb) ;;;
  modify (set_satp (sv48 (static_physical_address (ROOT_TABLE st)) 0)) ;;;
  flush_all.

Definition expand_gigapage (physmap : VirtualAddress) (gb : Z) : M Mmu unit :=
  if gb =? 0 then ret tt
  else
    let! address := mul_uint 64 gb GIGAPAGE in
    let! e := kernel_leaf address true in
    set_entry physmap gb e.

Definition expand_physmap (st : Statics) (max_end : PhysicalAddress) : M Mmu unit :=
  let new_end := Z.min (div_ceil max_end GIGAPAGE) MAX_PHYSMAP_ENTRIES in
  let! current := gets physmap_end_gb in
  for_each (range current new_end) (expand_gigapage (static_table (PHYSMAP_L2_TABLE st))) ;;;
  if current <? new_end then modify (set_physmap_end new_end) ;;; flush_all else ret tt.

Definition remove_identity_mapping (st : Statics) : M Mmu unit :=
  set_entry (static_table (ROOT_TABLE st)) 0 INVALID ;;;
  flush_all.

(** ** Walks *)

(** [e.output_address()?.checked_add(offset)] *)
Definition output_plus (e offset : Z) : option PhysicalAddress :=
  match output_address e with
  | Some out => PhysicalAddress_checked_add out offset
  | None => None
  end.

Definition translate (root : VirtualAddress) (address : VirtualAddress) : M Mmu (option PhysicalAddress) :=
  if negb (is_canonical address) then ret None
  else
    let! entry := get_entry root (vpn3 address) in
    if negb (is_valid entry) then ret None
    else if is_leaf entry then ret (output_plus entry (Z.land address (Z.shiftl 1 39 - 1)))
    else
      let? out := output_address entry in
      let! entry := get_entry (table_from_physical out) (vpn2 address) in
      if negb (is_valid entry) then ret None
      else if is_leaf entry then ret (output_plus entry (Z.land address GIGAPAGE_MASK))
      else
        let? out := output_address entry in
        let! entry := get_entry (table_from_physical out) (vpn1 address) in
        if negb (is_valid entry) then ret None
        else if is_leaf entry then ret (output_plus entry (Z.land address MEGAPAGE_MASK))
        else
          let? out := output_address entry in
          let! entry := get_entry (table_from_physical out) (vpn0 address) in
          ret (if is_valid entry then output_plus entry (VirtualAddress_page_offset address) else None).

(** The table a branch entry points to, or the error of a missing or a leaf
    entry. *)
Definition next_table {S E} (entry : Z) (conflict missing : E) : M S (Result VirtualAddress E) :=
  if negb (is_branch entry) then ret (Err (if is_valid entry then conflict else missing))
  else
    let! out := expect "called `Option::unwrap()` on a `None` value" (output_address entry) in
    ret (Ok (table_from_physical out)).

(** The end of both mapping functions: the leaf is written and flushed. *)
Definition install_page (table : VirtualAddress) (virtual_address : VirtualAddress)
    (physical_address : PhysicalAddress) (permissions : MappingPermissions) : M Mmu (Result unit MapError) :=
  let! slot := get_entry table (vpn0 virtual_address) in
  if is_valid slot then ret (Err MapError_AlreadyMapped)
  else
    let? intent := MappingIntent_new physical_address Page4K Normal permissions ok_or MapError_NotAligned in
    let! e := from_mapping intent in
    set_entry table (vpn0 virtual_address) e ;;;
    flush_address virtual_address ;;;
    ret (Ok tt).

Definition map_page (root : VirtualAddress) (virtual_address : VirtualAddress)
    (physical_address : PhysicalAddress) (permissions : MappingPermissions) : M Mmu (Result unit MapError) :=
  if negb (VirtualAddress_is_page_aligned virtual_address) ||
     negb (PhysicalAddress_is_page_aligned physical_address)
  then ret (Err MapError_NotAligned)
  else if negb (is_canonical virtual_address) then ret (Err MapError_NotCanonical)
  else
    let! l3 := get_entry root (vpn3 virtual_address) in
    try! l2_table := next_table l3 MapError_SuperpageConflict MapError_TableNotPresent in
    let! l2 := get_entry l2_table (vpn2 virtual_address) in
    try! l1_table := next_table l2 MapError_SuperpageConflict MapError_TableNotPresent in
    let! l1 := get_entry l1_table (vpn1 virtual_address) in
    try! l0_table := next_table l1 MapError_SuperpageConflict MapError_TableNotPresent in
    install_page l0_table virtual_address physical_address permissions.

Definition unmap_page (root : VirtualAddress) (virtual_address : VirtualAddress) :
    M Mmu (Result PhysicalAddress UnmapError) :=
  if negb (is_canonical virtual_address) then ret (Err UnmapError_NotCanonical)
  else
    let! l3 := get_entry root (vpn3 virtual_address) in
    try! l2_table := next_table l3 UnmapError_SuperpageConflict UnmapError_NotMapped in
    let! l2 := get_entry l2_table (vpn2 virtual_address) in
    try! l1_table := next_table l2 UnmapError_SuperpageConflict UnmapError_NotMapped in
    let! l1 := get_entry l1_table (vpn1 virtual_address) in
    try! l0_table := next_table l1 UnmapError_SuperpageConflict UnmapError_NotMapped in
    let! slot := get_entry l0_table (vpn0 virtual_address) in
    if negb (is_valid slot) then ret (Err UnmapError_NotMapped)
    else
      let? physical := output_address slot ok_or UnmapError_NotMapped in
      set_entry l0_table (vpn0 virtual_address) INVALID ;;;
      flush_address virtual_address ;;;
      ret (Ok physical).

(** ** Mapping with table allocation *)

Section Alloc.
Context `{PageLayout}.

(** [hal::mmu::allocate_page_table]: the page is zeroed through the physmap. *)
Definition allocate_page_table : M (World Mmu) (option VirtualAddress) :=
  let! page := lift_pmm global_alloc_page in
  let? page := page in
  let! physical := lift_pmm (leak_physical page) in
  let? physical := physical in
  let virtual_address := physical_to_virtual physical in
  lift_mmu (modify (fun m => set_tables (<[virtual_address := replicate 512 0]> (tables m)) m)) ;;;
  ret (Some virtual_address).

Variable allocate_table : M (World Mmu) (option VirtualAddress).

(** The entry at [index] of [table], made a branch to a new table when it is
    invalid; the table it points to. *)
Definition ensure_table (table : VirtualAddress) (index : Z) : M (World Mmu) (Result VirtualAddress MapError) :=
  let! entry := lift_mmu (get_entry table index) in
  let! r :=
    if negb (is_valid entry) then
      let! next := allocate_table in
      let? next := next ok_or MapError_OutOfMemory in
      let? e := branch (virtual_to_physical next) ok_or MapError_NotAligned in
      lift_mmu (set_entry table index e) ;;;
      ret (Ok tt)
    else if negb (is_branch entry) then ret (Err MapError_SuperpageConflict)
    else ret (Ok tt) in
  match r with
  | Err e => ret (Err e)
  | Ok _ =>
      let! entry := lift_mmu (get_entry table index) in
      let! out := expect "called `Option::unwrap()` on a `None` value" (output_address entry) in
      ret (Ok (table_from_physical out))
  end.

Definition map_page_with_alloc (root : VirtualAddress) (virtual_address : VirtualAddress)
    (physical_address : PhysicalAddress) (permissions : MappingPermissions) :
    M (World Mmu) (Result unit MapError) :=
  if negb (VirtualAddress_is_page_aligned virtual_address) ||
     negb (PhysicalAddress_is_page_aligned physical_address)
  then ret (Err MapError_NotAligned)
  else if negb (is_canonical virtual_address) then ret (Err MapError_NotCanonical)
  else
    try! l2_table := ensure_table root (vpn3 virtual_address) in
    try! l1_table := ensure_table l2_table (vpn2 virtual_address) in
    try! l0_table := ensure_table l1_table (vpn1 virtual_address) in
    lift_mmu (install_page l0_table virtual_address physical_address permissions).

Definition map_kernel_page_with_alloc (st : Statics) (virtual_address : VirtualAddress)
    (physical_address : PhysicalAddress) (permissions : MappingPermissions) :
    M (World Mmu) (Result unit MapError) :=
  map_page_with_alloc (static_table (ROOT_TABLE st)) virtual_address physical_address permissions.

Definition unmap_kernel_page (st : Statics) (virtual_address : VirtualAddress) :
    M (World Mmu) (Result PhysicalAddress UnmapError) :=
  lift_mmu (unmap_page (static_table (ROOT_TABLE st)) virtual_address).
End Alloc.

(** [hal::mmu::map_kernel_stack_page] and [unmap_kernel_stack_page]. *)
Definition map_kernel_stack_page `{PageLayout} (st : Statics) (virtual_address : VirtualAddress)
    (physical_address : PhysicalAddress) : M (World Mmu) (Result unit MapError) :=
  map_kernel_page_with_alloc allocate_page_table st virtual_address physical_address KERNEL_READ_WRITE.
Definition unmap_kernel_stack_page `{PageLayout} (st : Statics) (virtual_address : VirtualAddress) :
    M (World Mmu) (Result PhysicalAddress UnmapError) :=
  unmap_kernel_page st virtual_address.
