(* ===== verification/RiscvMmuLemmas.v ===== *)
(** * Page tables of the RISC-V MMU

    Bit facts about Sv48 entries, and the walks of [translate], [map_page] and
    [unmap_page] on the tree of tables. *)

From Stdlib Require Import Btauto.
From S2P Require Import Prelude Address HwInfo Pmm KernelStack PageMapper TableTree RiscvMmu.
From stdpp Require Import base tactics option list list_numbers numbers gmap strings.

#[local] Open Scope Z_scope.
#[local] Open Scope kernel_scope.

(** ** Entries *)

(** An entry: flag bits below the page number of [pa]. *)
Definition pack (flags : Z) (pa : PhysicalAddress) : Z := Z.lor flags (Z.shiftl (Z.shiftr pa 12) 10).
(** The physical address an entry holds. *)
Definition out (e : Z) : PhysicalAddress := cast_uint 64 (Z.shiftl (Z.shiftr e 10) 12).

Lemma land_pack flags pa c : 0 <= c < 2 ^ 10 -> Z.land (pack flags pa) c = Z.land flags c.
Proof.
  intros Hc. unfold pack. rewrite Z.land_lor_distr_l.
  replace (Z.land (Z.shiftl (Z.shiftr pa 12) 10) c) with 0; [apply Z.lor_0_r|].
  symmetry. apply Z.bits_inj_0. intros n. rewrite Z.land_spec. destruct (Z.ltb_spec n 10).
  - rewrite Z.shiftl_spec_low by done. done.
  - replace (Z.testbit c n) with false; [apply andb_false_r|]. symmetry.
    rewrite <-(Z.mod_small c (2 ^ 10)) by lia. apply Z.mod_pow2_bits_high. lia.
Qed.

Lemma out_pack flags pa :
  0 <= flags < 2 ^ 10 -> 0 <= pa < 2 ^ 64 -> pa mod PAGE_SIZE = 0 -> out (pack flags pa) = pa.
Proof.
  intros Hf Hpa Hal. unfold out, pack, cast_uint.
  replace (Z.shiftr (Z.lor flags (Z.shiftl (Z.shiftr pa 12) 10)) 10) with (Z.shiftr pa 12).
  - rewrite Z.shiftl_mul_pow2, Z.shiftr_div_pow2 by lia. unfold PAGE_SIZE in Hal.
    change (2 ^ 12) with 4096. rewrite Z.mod_small; divlia.
  - rewrite Z.shiftr_lor, Z.shiftr_shiftl_l by lia. replace (Z.shiftr flags 10) with 0.
    + rewrite Z.shiftl_0_r. done.
    + rewrite Z.shiftr_div_pow2 by lia. symmetry. by apply Z.div_small.
Qed.

Definition leaf_flags (p : MappingPermissions) : Z := apply_permissions 0x43 p.
Definition leaf_entry (pa : PhysicalAddress) (p : MappingPermissions) : Z := pack (leaf_flags p) pa.
Definition branch_entry (pa : PhysicalAddress) : Z := pack 1 pa.

Lemma rv_leaf_flags_spec p :
  0 <= leaf_flags p < 2 ^ 10 /\ Z.land (leaf_flags p) VALID = VALID /\
  negb (Z.land (leaf_flags p) (Z.lor (Z.lor READABLE WRITABLE) EXECUTABLE) =? 0) = true.
Proof. by destruct p as [[] [] []]. Qed.

Lemma rv_leaf_entry_spec pa p :
  is_valid (leaf_entry pa p) = true /\ is_leaf (leaf_entry pa p) = true /\
  (0 <= pa < 2 ^ 64 -> pa mod PAGE_SIZE = 0 -> out (leaf_entry pa p) = pa).
Proof.
  destruct (rv_leaf_flags_spec p) as (Hf & Hv & Hl). unfold is_valid, is_leaf, leaf_entry.
  rewrite !land_pack by (vm_compute; split; [discriminate|reflexivity]). rewrite Hv.
  split_and!; [done|done|]. intros. by apply out_pack.
Qed.

Lemma branch_entry_spec pa :
  is_valid (branch_entry pa) = true /\ is_leaf (branch_entry pa) = false /\
  (0 <= pa < 2 ^ 64 -> pa mod PAGE_SIZE = 0 -> out (branch_entry pa) = pa).
Proof.
  unfold is_valid, is_leaf, branch_entry.
  rewrite !land_pack by (vm_compute; split; [discriminate|reflexivity]).
  split_and!; [done|done|]. intros. by apply out_pack.
Qed.

Lemma branch_spec pa : pa mod PAGE_SIZE = 0 -> branch pa = Some (branch_entry pa).
Proof.
  intros Hpa. unfold branch, physical_page_number. by rewrite (proj2 (is_page_aligned_spec _) Hpa).
Qed.

Lemma rv_apply_permissions_lor a b p : apply_permissions (Z.lor a b) p = Z.lor (apply_permissions a p) b.
Proof.
  unfold apply_permissions. destruct p as [[] [] []]; cbn -[Z.lor];
    apply Z.bits_inj'; intros n _; rewrite !Z.lor_spec; btauto.
Qed.

Lemma rv_from_mapping_spec {S} (intent : MappingIntent) (s : S) :
  physical_address intent mod PAGE_SIZE = 0 ->
  from_mapping intent s = Done (leaf_entry (physical_address intent) (permissions intent), s).
Proof.
  intros Hpa. unfold from_mapping, physical_page_number. rewrite (proj2 (is_page_aligned_spec _) Hpa).
  unfold bind, expect, ret. do 2 f_equal. unfold leaf_entry, pack, leaf_flags. by rewrite rv_apply_permissions_lor.
Qed.

(** ** The tree *)

#[global] Instance sv48_format : EntryFormat := {|
  e_valid := is_valid;
  e_leaf := is_leaf;
  e_target e := physical_to_virtual (out e);
  e_zero := eq_refl;
|}.

Definition vpns (va : VirtualAddress) : list Z := [vpn3 va; vpn2 va; vpn1 va; vpn0 va].

Lemma vpn_bound a k : in_table (Z.land (Z.shiftr a k) 0x1ff).
Proof. unfold in_table. change 0x1ff with (2 ^ 9 - 1). rewrite land_mask by lia. apply Z.mod_pos_bound. lia. Qed.
(** Paths of page numbers. *)
Ltac vpn_path := repeat (apply List.Forall_cons; [apply vpn_bound|]); apply List.Forall_nil.
Lemma vpns_indices va : indices 4 (vpns va).
Proof. split; [done|]. unfold vpns. vpn_path. Qed.

(** The physical address that a walk's result gives. *)
Definition level_mask (level : nat) : Z :=
  match level with
  | 0%nat => PAGE_SIZE - 1
  | 1%nat => MEGAPAGE_MASK
  | 2%nat => GIGAPAGE_MASK
  | _ => Z.shiftl 1 39 - 1
  end.
Definition resolve (va : VirtualAddress) (r : option (nat * Z)) : option PhysicalAddress :=
  match r with
  | Some (level, e) => output_plus e (Z.land va (level_mask level))
  | None => None
  end.

Lemma get_entry_at m p i e : entry_at (tables m) p i = Some e -> get_entry p i m = Done (e, m).
Proof.
  unfold entry_at, get_entry, bind, gets. destruct (tables m !! p) as [l|]; [|done]. intros He.
  unfold expect. by rewrite He.
Qed.

Lemma entry_of_path m root path p i :
  tree_ok (tables m) root 4 -> Forall in_table path -> (length path < 4)%nat ->
  ptr (tables m) root path = Some p -> in_table i -> exists e, entry_at (tables m) p i = Some e.
Proof.
  intros Hok Hp Hl Hptr Hi. destruct (entry_present _ _ _ _ _ i Hok Hp Hl Hptr Hi) as (l & e & Ht & He).
  exists e. unfold entry_at. by rewrite Ht.
Qed.

Lemma output_valid e : is_valid e = true -> output_address e = Some (out e).
Proof. unfold output_address. by intros ->. Qed.

(** One level of [translate]. *)
Lemma translate_level m root path p i k (rest : list Z) offset (cont : Z -> M Mmu (option PhysicalAddress)) res :
  tree_ok (tables m) root 4 -> Forall in_table path -> (length path < 4)%nat ->
  ptr (tables m) root path = Some p -> in_table i ->
  (forall e, entry_at (tables m) p i = Some e -> is_valid e = true -> is_leaf e = true ->
    res (Some (length (k :: rest), e)) = output_plus e offset) ->
  res None = None ->
  (forall e, entry_at (tables m) p i = Some e -> is_valid e = true -> is_leaf e = false ->
    cont (out e) m = Done (res (walk (tables m) (physical_to_virtual (out e)) (k :: rest)), m)) ->
  (let! entry := get_entry p i in
   if negb (is_valid entry) then ret None
   else if is_leaf entry then ret (output_plus entry offset)
   else let? o := output_address entry in cont o) m =
  Done (res (walk (tables m) p (i :: k :: rest)), m).
Proof.
  intros Hok Hp Hl Hptr Hi Hleaf Hnone Hcont.
  destruct (entry_of_path m root path p i Hok Hp Hl Hptr Hi) as [e He]. unfold bind at 1.
  rewrite (get_entry_at m p i e He), walk_cons, He. cbn [e_valid e_leaf e_target sv48_format].
  destruct (is_valid e) eqn:Hv; cbn [negb]; [|by rewrite Hnone].
  destruct (is_leaf e) eqn:Hlf; [by rewrite (Hleaf e)|]. rewrite (output_valid e Hv). by apply Hcont.
Qed.

Lemma rv_translate_walk m root va :
  tree_ok (tables m) root 4 -> is_canonical va = true ->
  translate root va m = Done (resolve va (walk (tables m) root (vpns va)), m).
Proof.
  intros Hok Hc. unfold translate. rewrite Hc. cbn [negb].
  assert (forall path p i e, ptr (tables m) root path = Some p -> entry_at (tables m) p i = Some e ->
    is_valid e = true -> is_leaf e = false -> ptr (tables m) root (path ++ [i]) = Some (physical_to_virtual (out e))) as Hnext.
  { intros path p i e Hp He Hv Hl. rewrite (ptr_snoc _ _ _ _ _ Hp). unfold next_ptr. rewrite He.
    exact (@e_link_valid sv48_format e Hv Hl). }
  pose proof (vpn_bound va 39 : in_table (vpn3 va)). pose proof (vpn_bound va 30 : in_table (vpn2 va)).
  pose proof (vpn_bound va 21 : in_table (vpn1 va)). pose proof (vpn_bound va 12 : in_table (vpn0 va)).
  apply (translate_level m root []); try done; [cbn; lia|]. intros e3 He3 Hv3 Hl3.
  pose proof (Hnext [] root (vpn3 va) e3 eq_refl He3 Hv3 Hl3) as P3.
  apply (translate_level m root [vpn3 va]); try done; [vpn_path|cbn; lia|]. intros e2 He2 Hv2 Hl2.
  pose proof (Hnext _ _ (vpn2 va) e2 P3 He2 Hv2 Hl2) as P2.
  apply (translate_level m root [vpn3 va; vpn2 va]); try done; [vpn_path|cbn; lia|].
  intros e1 He1 Hv1 Hl1. pose proof (Hnext _ _ (vpn1 va) e1 P2 He1 Hv1 Hl1) as P1.
  destruct (entry_of_path m root [vpn3 va; vpn2 va; vpn1 va] (physical_to_virtual (out e1)) (vpn0 va) Hok) as [e0 He0];
    [vpn_path|cbn; lia|exact P1|done|].
  unfold bind. unfold table_from_physical. rewrite (get_entry_at m _ _ e0 He0). cbn [walk]. rewrite He0.
  cbn [e_valid sv48_format]. by destruct (is_valid e0).
Qed.

(** ** Operations on a page's slot *)

(** One level of [map_page] and [unmap_page]. *)
Lemma next_level {A E} m root path p i (conflict missing : E) (cont : VirtualAddress -> M Mmu (Result A E)) Q :
  tree_ok (tables m) root 4 -> Forall in_table path -> (length path < 3)%nat ->
  ptr (tables m) root path = Some p -> in_table i ->
  (forall q, ptr (tables m) root (path ++ [i]) = Some q -> wp (cont q) Q m) ->
  (forall e, entry_at (tables m) p i = Some e -> e_link e = None ->
    Q (Err (if is_valid e then conflict else missing)) m) ->
  wp (let! e := get_entry p i in try! t := next_table e conflict missing in cont t) Q m.
Proof.
  intros Hok Hp Hl Hptr Hi Hgo Hstop.
  destruct (entry_of_path m root path p i Hok Hp ltac:(lia) Hptr Hi) as [e He].
  apply wp_bind. eapply wp_run; [by apply get_entry_at|]. apply wp_bind. unfold next_table.
  destruct (is_branch e) eqn:Hb; cbn [negb].
  - unfold is_branch in Hb. apply andb_true_iff in Hb as [Hv Hlf]. apply wp_bind. rewrite (output_valid e Hv).
    apply wp_ret, wp_ret, Hgo. rewrite (ptr_snoc _ _ _ _ _ Hptr). unfold next_ptr. rewrite He.
    unfold table_from_physical. apply (@e_link_valid sv48_format e Hv). by apply negb_true_iff in Hlf.
  - apply wp_ret, wp_ret, (Hstop e He). unfold e_link. cbn. unfold is_branch in Hb. by rewrite Hb.
Qed.

(** A walk that stops above the last level. *)
Lemma walk_stops T root path p i k rest e :
  ptr T root path = Some p -> entry_at T p i = Some e -> e_link e = None ->
  walk T root (path ++ i :: k :: rest) = if is_valid e then Some (S (length rest), e) else None.
Proof.
  intros Hp He Hlk. rewrite (walk_at T root path p i (k :: rest) Hp), walk_cons, He.
  unfold e_link in Hlk. cbn in *. destruct (is_valid e); [|done]. cbn in *. by destruct (is_leaf e).
Qed.
Lemma walk_last T root path p i e :
  ptr T root path = Some p -> entry_at T p i = Some e ->
  walk T root (path ++ [i]) = if is_valid e then Some (0%nat, e) else None.
Proof.
  intros Hp He. rewrite (walk_at T root path p i [] Hp). cbn [walk]. rewrite He. cbn. by destruct (is_valid e).
Qed.

Definition path_of (va : VirtualAddress) : list Z := [vpn3 va; vpn2 va; vpn1 va].

(** The state after writing the slot of [va] and flushing its address. *)
Record leaf_written (root : Z) (m : Mmu) (va : VirtualAddress) (v : Z) (m' : Mmu) : Prop := {
  lw_tree : tree_ok (tables m') root 4;
  lw_walk va' : walk (tables m') root (vpns va') =
    if decide (vpns va' = vpns va) then (if is_valid v then Some (0%nat, v) else None)
    else walk (tables m) root (vpns va');
  lw_tlb : tlb m' = tlb m ++ [FlushAddress va];
  lw_dom p : is_Some (tables m' !! p) <-> is_Some (tables m !! p);
}.

Lemma set_entry_write m p i v l (Q : unit -> Mmu -> Prop) :
  tables m !! p = Some l -> length l = TABLE_LEN -> in_table i ->
  Q tt (set_tables (write (tables m) p i v) m) -> wp (set_entry p i v) Q m.
Proof.
  intros Ht Hl Hi HQ. unfold set_entry. apply wp_bind, wp_gets. rewrite Ht.
  unfold TABLE_LEN, in_table in *. rewrite (proj2 (Z.ltb_lt _ _)) by lia. apply wp_modify.
  unfold write in HQ. by rewrite Ht in HQ.
Qed.

Lemma write_slot {A} root m va p v (k : M Mmu A) (Q : A -> Mmu -> Prop) :
  tree_ok (tables m) root 4 -> ptr (tables m) root (path_of va) = Some p ->
  (forall m', leaf_written root m va v m' -> wp k Q m') ->
  wp (set_entry p (vpn0 va) v ;;; flush_address va ;;; k) Q m.
Proof.
  intros Hok Hp HQ. assert (Forall in_table (path_of va)) as Hpath by (unfold path_of; vpn_path).
  destruct (tk_table _ _ _ Hok (path_of va) p Hpath ltac:(cbn; lia) Hp) as [l Ht].
  apply wp_bind. eapply set_entry_write; [done|by eapply tk_len|apply vpn_bound|].
  unfold flush_address. apply wp_bind, wp_modify, HQ.
  destruct (write_leaf_tree (tables m) root 4 (path_of va) p (vpn0 va) v Hok Hpath eq_refl Hp (vpn_bound _ _))
    as (Hok' & _ & Hwalk).
  split; cbn [tables set_tables log_tlb tlb]; [done| |done|intros q; apply write_dom].
  intros va'. by rewrite Hwalk by apply vpns_indices.
Qed.

Lemma rv_unmap_page_spec root m va :
  tree_ok (tables m) root 4 ->
  wp (unmap_page root va) (fun r m' =>
    match r with
    | Ok pa => is_canonical va = true /\ (exists e, walk (tables m) root (vpns va) = Some (0%nat, e) /\ pa = out e) /\
        leaf_written root m va INVALID m'
    | Err UnmapError_NotCanonical => m' = m /\ is_canonical va = false
    | Err UnmapError_NotMapped => m' = m /\ is_canonical va = true /\ walk (tables m) root (vpns va) = None
    | Err UnmapError_SuperpageConflict => m' = m /\ is_canonical va = true /\
        exists n e, walk (tables m) root (vpns va) = Some (S n, e)
    end) m.
Proof.
  intros Hok. unfold unmap_page. destruct (is_canonical va) eqn:Hc; cbn [negb]; [|by apply wp_ret].
  assert (forall e path p i k rest, ptr (tables m) root path = Some p -> entry_at (tables m) p i = Some e ->
    e_link e = None -> vpns va = path ++ i :: k :: rest ->
    match (if is_valid e then UnmapError_SuperpageConflict else UnmapError_NotMapped) with
    | UnmapError_NotCanonical => m = m /\ true = false
    | UnmapError_NotMapped => m = m /\ true = true /\ walk (tables m) root (vpns va) = None
    | UnmapError_SuperpageConflict => m = m /\ true = true /\ exists n e, walk (tables m) root (vpns va) = Some (S n, e)
    end) as Hstop.
  { intros e path p i k rest Hp He Hlk Heq. pose proof (walk_stops _ _ _ _ _ k rest _ Hp He Hlk) as Hw.
    rewrite <-Heq in Hw. destruct (is_valid e); [|done]. split_and!; [done|done|by eauto]. }
  apply (next_level m root []); try done; [cbn; lia|apply vpn_bound| |by intros e He Hlk; eapply (Hstop e [])].
  intros q3 P3. apply (next_level m root [vpn3 va]); try done; [vpn_path|cbn; lia|apply vpn_bound| |
    by intros e He Hlk; eapply (Hstop e [vpn3 va])].
  intros q2 P2. apply (next_level m root [vpn3 va; vpn2 va]); try done; [vpn_path|cbn; lia|apply vpn_bound| |
    by intros e He Hlk; eapply (Hstop e [vpn3 va; vpn2 va])].
  intros q1 P1. destruct (entry_of_path m root (path_of va) q1 (vpn0 va) Hok) as [e He];
    [unfold path_of; vpn_path|cbn; lia|exact P1|apply vpn_bound|].
  pose proof (walk_last _ _ (path_of va) _ _ _ P1 He) as Hw. change (path_of va ++ [vpn0 va]) with (vpns va) in Hw.
  apply wp_bind. eapply wp_run; [by apply get_entry_at|]. destruct (is_valid e) eqn:Hv; cbn [negb];
    [|apply wp_ret; by rewrite Hw].
  rewrite (output_valid e Hv). apply (write_slot root m va q1); [done|exact P1|].
  intros m' Hm'. apply wp_ret. split_and!; [done| |done]. by exists e.
Qed.

Lemma rv_install_page_spec root m va p e pa perm :
  tree_ok (tables m) root 4 -> ptr (tables m) root (path_of va) = Some p ->
  entry_at (tables m) p (vpn0 va) = Some e -> pa mod PAGE_SIZE = 0 ->
  wp (install_page p va pa perm) (fun r m' =>
    match r with
    | Ok _ => is_valid e = false /\ leaf_written root m va (leaf_entry pa perm) m'
    | Err err => m' = m /\ is_valid e = true /\ err = MapError_AlreadyMapped
    end) m.
Proof.
  intros Hok Hp He Hpa. unfold install_page. apply wp_bind. eapply wp_run; [by apply get_entry_at|].
  destruct (is_valid e) eqn:Hv; [by apply wp_ret|]. rewrite MappingIntent_new_page by done.
  apply wp_bind. eapply wp_run; [by apply rv_from_mapping_spec|].
  apply (write_slot root m va p); [done|done|]. intros m' Hm'. by apply wp_ret.
Qed.
