(* ===== verification/RiscvMmuWorld.v ===== *)
(** * Kernel page mappings on the page allocator, RISC-V

    The Sv48 page tables together with the page allocator that their tables
    come from: every table is a static of the kernel image, which the allocator
    reserves, or a page the MMU leaked; mapping and unmapping against an
    abstract address space. *)

From S2P Require Import Prelude Address HwInfo Pmm PmmReserved PmmFreeList PmmAlloc PmmInit PmmClients.
From S2P Require Import KernelStack PageMapper TableTree RiscvMmu RiscvMmuLemmas.
From stdpp Require Import base tactics option list list_numbers numbers gmap strings.

#[local] Open Scope Z_scope.
#[local] Open Scope kernel_scope.

Lemma rv_physmap_round_trip phys : 0 <= phys < 2 ^ 64 -> virtual_to_physical (physical_to_virtual phys) = phys.
Proof.
  intros Hp. unfold virtual_to_physical, physical_to_virtual, wrapping_sub, wrapping_add, KERNEL_VIRTUAL_BASE.
  divlia.
Qed.
Lemma rv_physmap_inj p1 p2 :
  0 <= p1 < 2 ^ 64 -> 0 <= p2 < 2 ^ 64 -> physical_to_virtual p1 = physical_to_virtual p2 -> p1 = p2.
Proof. intros H1 H2 Heq. by rewrite <-(rv_physmap_round_trip p1), <-(rv_physmap_round_trip p2), Heq. Qed.

Section World.
Context `{PageLayout} (s0 : Pmm) (st : Statics).

(** The physical addresses of the static tables. *)
Definition statics : list PhysicalAddress :=
  static_physical_address <$> [ROOT_TABLE st; IDENTITY_L2_TABLE st; PHYSMAP_L2_TABLE st].
Definition root : VirtualAddress := static_table (ROOT_TABLE st).
(** The allocator reserves the statics. *)
Definition statics_reserved : Prop :=
  Forall (fun p => 0 <= p < 2 ^ 64 /\ covered (active_ranges s0) p) statics.
Hypothesis Hstatics : statics_reserved.

Definition rv_walk (m : Mmu) (va : VirtualAddress) : option (nat * Z) := walk (tables m) root (vpns va).

Record rv_ok (w : World Mmu) (os : list holding) (l : list PageHandle) : Prop := {
  ro_client : client_inv s0 (w_pmm w) os l;
  ro_tree : tree_ok (tables (w_mmu w)) root 4;
  ro_tables p : is_Some (tables (w_mmu w) !! p) ->
    (exists h phys, HoldLeaked h phys ∈ os /\ p = physical_to_virtual phys) \/
    (exists phys, phys ∈ statics /\ p = physical_to_virtual phys);
  ro_levels va level e : rv_walk (w_mmu w) va = Some (level, e) -> (level <= 2)%nat;
}.

(** A page just leaked is no table yet. *)
Lemma rv_leaked_fresh w os s l h phys l' :
  rv_ok w os l -> client_inv s0 s (HoldLeaked h phys :: os) l' ->
  0 <= phys < 2 ^ 64 /\ phys mod PAGE_SIZE = 0 /\ tables (w_mmu w) !! physical_to_virtual phys = None.
Proof.
  intros [Hcl Htree Htab _] Hc'. pose proof (ci_wf _ _ _ _ Hc') as [Hph Hos]%Forall_cons. simpl in Hph.
  pose proof (pi_layout _ _ (pi_core _ _ (ci_inv _ _ _ _ Hc'))) as Hlw.
  pose proof (ci_held _ _ _ _ Hc') as Hheld.
  assert (h ∈ all_held (HoldLeaked h phys :: os)) as Hin0 by (unfold all_held; cbn; set_solver).
  pose proof (Forall_elem _ _ _ Hheld Hin0) as Hv.
  pose proof (fun h phys => physical_of_bound s h phys Hlw) as Hbound.
  pose proof (Hbound h phys Hv Hph) as Hb. split; [done|]. split; [by apply (physical_of_aligned s h)|].
  destruct (tables (w_mmu w) !! physical_to_virtual phys) as [t|] eqn:Ht; [exfalso|done].
  destruct (Htab (physical_to_virtual phys) ltac:(by eexists)) as [(h2 & phys2 & Hin & Heq)|(phys2 & Hin & Heq)].
  - pose proof (Forall_elem _ _ _ Hos Hin) as Hph2. simpl in Hph2.
    assert (h2 ∈ all_held os) as Hh2.
    { unfold all_held. apply list_elem_of_bind. exists (HoldLeaked h2 phys2). split; [by left|done]. }
    assert (valid s h2) as Hv2.
    { apply (Forall_elem _ _ _ Hheld). unfold all_held in *. cbn. set_solver. }
    apply rv_physmap_inj in Heq; [|done|by apply (Hbound h2)]. by apply (leaked_distinct _ _ _ _ _ _ _ _ Hc' Hin).
  - pose proof (Forall_elem _ _ _ Hstatics Hin) as [Hb2 Hcov]. apply rv_physmap_inj in Heq; [|done..]. subst phys2.
    assert (untouched s h) as Hun by (apply (ci_all _ _ _ _ Hc'); [done|]; set_solver).
    apply (Hun phys).
    + destruct (physical_of_valid s h Hlw Hv) as (a & Ha & Hpa). rewrite Hph in Hpa. injection Hpa as Hpa.
      exists a. split; [done|]. unfold PAGE_SIZE in *. lia.
    + unfold active_ranges in *. by rewrite (fr_ranges _ _ (ci_frame _ _ _ _ Hc')), (fr_rcount _ _ (ci_frame _ _ _ _ Hc')).
Qed.

(** ** Allocating tables *)

(** [w'] differs from [w] only in leaked pages and tables that no translation
    uses. *)
Record rv_extends (w : World Mmu) (os : list holding) (w' : World Mmu) (os' : list holding) : Prop := {
  rx_ok : exists l', rv_ok w' os' l';
  rx_leaked : leaked_more os os';
  rx_walk va : rv_walk (w_mmu w') va = rv_walk (w_mmu w) va;
  rx_slot : w_next_slot w' = w_next_slot w;
  rx_tlb : tlb (w_mmu w') = tlb (w_mmu w);
}.

Lemma rv_extends_refl w os l : rv_ok w os l -> rv_extends w os w os.
Proof. intros Hok. split; try done. by exists l. Qed.
Lemma rv_extends_trans w1 os1 w2 os2 w3 os3 :
  rv_extends w1 os1 w2 os2 -> rv_extends w2 os2 w3 os3 -> rv_extends w1 os1 w3 os3.
Proof.
  intros [_ L1 W1 S1 T1] [O2 L2 W2 S2 T2].
  split; [done|by etrans|intros va; by rewrite W2|congruence..].
Qed.

Lemma rv_allocate_spec w os l :
  rv_ok w os l ->
  wp allocate_page_table (fun r w' => exists os', rv_extends w os w' os' /\
    (forall path, Forall in_table path -> (length path < 4)%nat ->
      ptr (tables (w_mmu w')) root path = ptr (tables (w_mmu w)) root path) /\
    (forall q t, tables (w_mmu w) !! q = Some t -> tables (w_mmu w') !! q = Some t) /\
    match r with
    | Some p => spare_table (tables (w_mmu w')) root 4 p /\
        exists phys, p = physical_to_virtual phys /\ 0 <= phys < 2 ^ 64 /\ phys mod PAGE_SIZE = 0
    | None => True
    end) w.
Proof.
  intros Hok. pose proof Hok as [Hcl Htree Htab Hlev]. unfold allocate_page_table.
  apply wp_bind, lift_pmm_wp. eapply wp_mono; [exact (alloc_step s0 _ _ _ Hcl)|].
  intros [h|] s1 [l1 Hc1].
  2:{ apply wp_ret. exists os. split; [|done]. split; try done. exists l1. by split. }
  apply wp_bind, lift_pmm_wp. eapply wp_mono; [exact (leak_step s0 _ _ _ _ Hc1)|].
  intros r s2 (-> & phys & -> & Hc2). cbn [w_mmu w_pmm w_next_slot].
  destruct (rv_leaked_fresh w os s1 l h phys l1 Hok Hc2) as (Hb & Hal & Hfresh).
  apply wp_bind, lift_mmu_wp, wp_modify, wp_ret. cbn [w_mmu w_pmm w_next_slot].
  set (p := physical_to_virtual phys) in *. change (replicate 512 0) with zeros.
  destruct (fresh_table_tree (tables (w_mmu w)) root 4 p Htree Hfresh) as (Hok1 & Hsp & Hptr & Hwalk).
  exists (HoldLeaked h phys :: os). cbn [tables set_tables].
  split_and!; [|done| |done|by exists phys].
  - split; try done.
    + exists l1. split; [done|done| |intros va level e; unfold rv_walk; cbn [w_mmu tables set_tables]; rewrite Hwalk by apply vpns_indices;
        apply Hlev]. intros q Hq. cbn in Hq.
      destruct (decide (q = p)) as [->|Hne].
      * left. exists h, phys. split; [by left|done].
      * rewrite lookup_insert_ne in Hq by done. destruct (Htab q Hq) as [(h' & ph' & Hin & ->)|?]; [left|by right].
        exists h', ph'. split; [by right|done].
    + exists [HoldLeaked h phys]. split; [done|]. constructor; [by eexists _, _|constructor].
    + intros va. apply Hwalk, vpns_indices.
  - intros q t Hq. rewrite lookup_insert_ne; [done|]. intros <-. congruence.
Qed.

(** What the caller of [ensure_table] learns. *)
Definition rv_ensured (w : World Mmu) (os : list holding) (path : list Z) (i e0 : Z)
    (r : Result VirtualAddress MapError) (w' : World Mmu) : Prop :=
  exists os', rv_extends w os w' os' /\
  match r with
  | Ok q => ptr (tables (w_mmu w')) root (path ++ [i]) = Some q
  | Err MapError_SuperpageConflict => is_valid e0 = true /\ e_link e0 = None
  | Err MapError_OutOfMemory => is_valid e0 = false
  | Err _ => False
  end.

(** The end of [ensure_table]: the linked table is found again. *)
Lemma rv_reread w p i e :
  entry_at (tables (w_mmu w)) p i = Some e -> is_valid e = true ->
  (let! entry := lift_mmu (get_entry p i) in
   let! o := expect "called `Option::unwrap()` on a `None` value" (output_address entry) in
   ret (Ok (table_from_physical o) : Result VirtualAddress MapError)) w =
  Done (Ok (physical_to_virtual (out e)), w).
Proof.
  intros He Hv. unfold bind, lift_mmu. rewrite (get_entry_at _ _ _ _ He), (output_valid e Hv). cbn. by destruct w.
Qed.

Lemma rv_ensure_spec w os l path p i :
  rv_ok w os l -> Forall in_table path -> (length path < 3)%nat ->
  ptr (tables (w_mmu w)) root path = Some p -> in_table i ->
  exists e0, entry_at (tables (w_mmu w)) p i = Some e0 /\
  wp (ensure_table allocate_page_table p i) (rv_ensured w os path i e0) w.
Proof.
  intros Hok Hpath Hlen Hp Hi. pose proof (ro_tree _ _ _ Hok) as Htree.
  destruct (entry_of_path (w_mmu w) root path p i Htree Hpath ltac:(lia) Hp Hi) as [e0 He0].
  exists e0. split; [done|]. unfold ensure_table. apply wp_bind, lift_mmu_wp.
  eapply wp_run; [by apply get_entry_at|].
  replace {| w_pmm := w_pmm w; w_next_slot := w_next_slot w; w_mmu := w_mmu w |} with w by (by destruct w).
  pose proof (rv_extends_refl w os l Hok) as Hrefl. apply wp_bind.
  destruct (is_valid e0) eqn:Hv0; cbn [negb].
  - unfold is_branch. rewrite Hv0. cbn [andb]. destruct (is_leaf e0) eqn:Hl0; cbn [negb]; apply wp_ret.
    + apply wp_ret. exists os. split; [done|]. split; [done|]. unfold e_link. cbn. by rewrite Hv0, Hl0.
    + eapply wp_run; [by apply rv_reread|]. exists os. split; [done|].
      rewrite (ptr_snoc _ _ _ _ _ Hp). unfold next_ptr. rewrite He0. exact (@e_link_valid sv48_format e0 Hv0 Hl0).
  - apply wp_bind. eapply wp_mono; [by apply (rv_allocate_spec w os l)|].
    intros [q|] w1 (os1 & Hex & Hptr & Htabs & Hr); [|apply wp_ret, wp_ret; by exists os1].
    destruct Hr as [Hsp (phys & -> & Hb & Hal)]. rewrite rv_physmap_round_trip by done.
    rewrite (branch_spec phys Hal). destruct (branch_entry_spec phys) as (Hbv & Hbl & Hbo). specialize (Hbo Hb Hal).
    destruct (rx_ok _ _ _ _ Hex) as [l1 Hok1]. pose proof (ro_tree _ _ _ Hok1) as Htree1.
    assert (ptr (tables (w_mmu w1)) root path = Some p) as Hp1 by (rewrite Hptr; [done|done|lia]).
    destruct (tk_table _ _ _ Htree path p Hpath ltac:(lia) Hp) as [t Ht].
    assert (entry_at (tables (w_mmu w1)) p i = Some e0) as He1.
    { unfold entry_at in *. rewrite Ht in He0. by rewrite (Htabs p t Ht). }
    apply wp_bind, lift_mmu_wp.
    eapply set_entry_write; [by apply Htabs|by eapply (tk_len _ _ _ Htree)|done|]. apply wp_ret.
    destruct (link_tree (tables (w_mmu w1)) root 4 path p i e0 (branch_entry phys) (physical_to_virtual phys))
      as (Htree2 & Hlink & Hwalk2); try done; [lia| |].
    { unfold e_link. cbn [e_valid e_leaf e_target sv48_format]. by rewrite Hbv, Hbl, Hbo. }
    set (w2 := {| w_pmm := _; w_next_slot := _; w_mmu := _ |}).
    eapply wp_run; [apply (rv_reread w2 p i (branch_entry phys)); [|done]|].
    + unfold w2. cbn [w_mmu tables set_tables].
      rewrite (entry_write _ p t); [by rewrite decide_True|by apply Htabs|by eapply (tk_len _ _ _ Htree)|done|done].
    + rewrite Hbo. exists os1. split; [|exact Hlink]. destruct Hex as [_ L W S T]. destruct Hok1 as [Hc1 _ Hd1 Hv1].
      split; try done.
      * exists l1. split; [done|done|intros r Hr; apply Hd1; by apply write_dom in Hr|].
        intros va level e. unfold rv_walk. cbn [w_mmu tables set_tables]. rewrite Hwalk2 by apply vpns_indices. apply Hv1.
      * intros va. rewrite <-W. apply Hwalk2, vpns_indices.
Qed.

(** ** Kernel mappings as an abstract address space *)

(** The entry and the level that every address is mapped with. *)
Definition rv_space : Type := VirtualAddress -> option (nat * Z).
Definition rv_update (A : rv_space) (va : VirtualAddress) (v : option (nat * Z)) : rv_space :=
  fun va' => if decide (vpns va' = vpns va) then v else A va'.

Definition rv_map_spec (A : rv_space) (va : VirtualAddress) (pa : PhysicalAddress) (p : MappingPermissions) :
    Result unit MapError * rv_space :=
  if decide (va mod PAGE_SIZE <> 0 \/ pa mod PAGE_SIZE <> 0) then (Err MapError_NotAligned, A)
  else if negb (is_canonical va) then (Err MapError_NotCanonical, A)
  else match A va with
  | Some (0%nat, _) => (Err MapError_AlreadyMapped, A)
  | Some (_, _) => (Err MapError_SuperpageConflict, A)
  | None => (Ok tt, rv_update A va (Some (0%nat, leaf_entry pa p)))
  end.

Definition rv_unmap_spec (A : rv_space) (va : VirtualAddress) : Result PhysicalAddress UnmapError * rv_space :=
  if negb (is_canonical va) then (Err UnmapError_NotCanonical, A)
  else match A va with
  | Some (0%nat, e) => (Ok (out e), rv_update A va None)
  | Some (_, _) => (Err UnmapError_SuperpageConflict, A)
  | None => (Err UnmapError_NotMapped, A)
  end.

Definition rv_flush_of {A E} (r : Result A E) (va : VirtualAddress) : list TlbOp :=
  match r with Ok _ => [FlushAddress va] | Err _ => [] end.

Record rv_step (w : World Mmu) (os : list holding) (A' : rv_space) (flushes : list TlbOp)
    (w' : World Mmu) (os' : list holding) : Prop := {
  rs_ok : exists l', rv_ok w' os' l';
  rs_leaked : leaked_more os os';
  rs_space va : rv_walk (w_mmu w') va = A' va;
  rs_slot : w_next_slot w' = w_next_slot w;
  rs_tlb : tlb (w_mmu w') = tlb (w_mmu w) ++ flushes;
}.
Lemma rv_extends_step w os w' os' : rv_extends w os w' os' -> rv_step w os (rv_walk (w_mmu w)) [] w' os'.
Proof. intros [O L W S T]. split; try done. by rewrite app_nil_r. Qed.

(** The abstract operation, or nothing when a table is needed and there is no
    memory for it. *)
Definition rv_mapped (w : World Mmu) (os : list holding) (va : VirtualAddress) (pa : PhysicalAddress)
    (p : MappingPermissions) (r : Result unit MapError) (w' : World Mmu) : Prop :=
  exists os' A', rv_step w os A' (rv_flush_of r va) w' os' /\
    ((r, A') = rv_map_spec (rv_walk (w_mmu w)) va pa p \/
     r = Err MapError_OutOfMemory /\ A' = rv_walk (w_mmu w) /\ (rv_map_spec (rv_walk (w_mmu w)) va pa p).1 = Ok tt).

Lemma rv_map_refused w os w' os' va pa p e :
  rv_extends w os w' os' -> rv_map_spec (rv_walk (w_mmu w)) va pa p = (Err e, rv_walk (w_mmu w)) ->
  rv_mapped w os va pa p (Err e) w'.
Proof. intros Hex Hs. exists os', (rv_walk (w_mmu w)). split; [by apply rv_extends_step|by left]. Qed.

Lemma rv_map_checked A va pa p :
  VirtualAddress_is_page_aligned va = true -> PhysicalAddress_is_page_aligned pa = true ->
  is_canonical va = true ->
  rv_map_spec A va pa p = match A va with
    | Some (0%nat, _) => (Err MapError_AlreadyMapped, A)
    | Some (_, _) => (Err MapError_SuperpageConflict, A)
    | None => (Ok tt, rv_update A va (Some (0%nat, leaf_entry pa p)))
    end.
Proof.
  intros Hva%virtual_is_page_aligned_spec Hpa%is_page_aligned_spec Hc. unfold rv_map_spec.
  rewrite decide_False by tauto. by rewrite Hc.
Qed.

(** One [ensure_table] on the way to the last table of [va]. *)
Lemma rv_ensure_level w os w1 os1 path p i k rest va pa perm (cont : VirtualAddress -> M (World Mmu) (Result unit MapError)) :
  VirtualAddress_is_page_aligned va = true -> PhysicalAddress_is_page_aligned pa = true -> is_canonical va = true ->
  rv_extends w os w1 os1 -> Forall in_table path -> (length path < 3)%nat -> in_table i ->
  ptr (tables (w_mmu w1)) root path = Some p -> vpns va = path ++ i :: k :: rest ->
  (forall q w2 os2, rv_extends w os w2 os2 -> ptr (tables (w_mmu w2)) root (path ++ [i]) = Some q ->
    wp (cont q) (rv_mapped w os va pa perm) w2) ->
  wp (try! t := ensure_table allocate_page_table p i in cont t) (rv_mapped w os va pa perm) w1.
Proof.
  intros Hva Hpa Hc Hex Hpath Hlen Hi Hp Hidx Hgo. destruct (rx_ok _ _ _ _ Hex) as [l1 Hok1].
  destruct (rv_ensure_spec w1 os1 l1 path p i Hok1 Hpath Hlen Hp Hi) as (e0 & He0 & Hwp).
  apply wp_bind. eapply wp_mono; [exact Hwp|]. intros r w2 (os2 & Hex2 & Hr).
  pose proof (rv_extends_trans _ _ _ _ _ _ Hex Hex2) as Hex'.
  destruct r as [q|err]; [by eapply Hgo|]. apply wp_ret.
  pose proof (rv_map_checked (rv_walk (w_mmu w)) va pa perm Hva Hpa Hc) as Hs.
  rewrite <-(rx_walk _ _ _ _ Hex) in Hs. unfold rv_walk at 2 in Hs. rewrite Hidx in Hs.
  destruct err; try done.
  - destruct Hr as [Hv Hlk]. apply (rv_map_refused _ _ _ os2); [done|]. rewrite Hs.
    by rewrite (walk_stops _ _ _ _ _ k rest _ Hp He0 Hlk), Hv.
  - rewrite (walk_stops _ _ _ _ _ k rest _ Hp He0), Hr in Hs by (by apply (@e_link_invalid sv48_format)).
    exists os2, (rv_walk (w_mmu w)). split; [by apply rv_extends_step|]. right. by rewrite Hs.
Qed.

Lemma rv_map_page_spec w os l va pa p :
  rv_ok w os l ->
  wp (map_kernel_page_with_alloc allocate_page_table st va pa p) (rv_mapped w os va pa p) w.
Proof.
  intros Hok. pose proof (rv_extends_refl w os l Hok) as Hrefl.
  unfold map_kernel_page_with_alloc, map_page_with_alloc. fold root.
  destruct (VirtualAddress_is_page_aligned va) eqn:Hva; cbn [negb orb].
  2:{ apply wp_ret, (rv_map_refused _ _ _ os); [done|]. unfold rv_map_spec. rewrite decide_True; [done|].
      left. rewrite <-virtual_is_page_aligned_spec. congruence. }
  destruct (PhysicalAddress_is_page_aligned pa) eqn:Hpa; cbn [negb].
  2:{ apply wp_ret, (rv_map_refused _ _ _ os); [done|]. unfold rv_map_spec. rewrite decide_True; [done|].
      right. rewrite <-is_page_aligned_spec. congruence. }
  destruct (is_canonical va) eqn:Hc; cbn [negb].
  2:{ apply wp_ret, (rv_map_refused _ _ _ os); [done|]. unfold rv_map_spec.
      rewrite virtual_is_page_aligned_spec in Hva. rewrite is_page_aligned_spec in Hpa.
      rewrite decide_False by tauto. by rewrite Hc. }
  eapply (rv_ensure_level w os w os []); try done; [cbn; lia|apply vpn_bound|]. intros q3 w1 os1 Hex1 P3.
  eapply (rv_ensure_level w os w1 os1 [vpn3 va]); try done; [vpn_path|cbn; lia|apply vpn_bound|].
  intros q2 w2 os2 Hex2 P2.
  eapply (rv_ensure_level w os w2 os2 [vpn3 va; vpn2 va]); try done; [vpn_path|cbn; lia|apply vpn_bound|].
  intros q1 w3 os3 Hex P1. change ([vpn3 va; vpn2 va] ++ [vpn1 va]) with (path_of va) in P1.
  destruct (rx_ok _ _ _ _ Hex) as [l3 Hok3]. pose proof (ro_tree _ _ _ Hok3) as Htree.
  destruct (entry_of_path (w_mmu w3) root (path_of va) q1 (vpn0 va) Htree) as [e He];
    [unfold path_of; vpn_path|cbn; lia|done|apply vpn_bound|].
  pose proof (rv_map_checked (rv_walk (w_mmu w)) va pa p Hva Hpa Hc) as Hspec.
  rewrite <-(rx_walk _ _ _ _ Hex) in Hspec. unfold rv_walk at 2 in Hspec.
  change (vpns va) with (path_of va ++ [vpn0 va]) in Hspec. rewrite (walk_last _ _ _ _ _ _ P1 He) in Hspec.
  apply is_page_aligned_spec in Hpa. apply lift_mmu_wp.
  eapply wp_mono; [exact (rv_install_page_spec root _ va q1 e pa p Htree P1 He Hpa)|]. intros [[]|err] m'.
  2:{ intros (-> & Hv & ->). rewrite Hv in Hspec. apply (rv_map_refused w os _ os3); [by destruct w3|done]. }
  intros [Hv [Ltree Lwalk Ltlb Ldom]]. rewrite Hv in Hspec.
  exists os3, (rv_update (rv_walk (w_mmu w)) va (Some (0%nat, leaf_entry pa p))). split; [|by left].
  destruct Hex as [_ L W S T]. split; try done.
  - exists l3. destruct Hok3 as [Hc3 _ Hd3 Hv3]. split; [done|done|intros r Hr; by apply Hd3, Ldom|].
    intros va' level e'. unfold rv_walk. cbn [w_mmu]. rewrite Lwalk. destruct (rv_leaf_entry_spec pa p) as [-> _].
    case_decide; [intros [= <- _]; lia|apply Hv3].
  - intros va'. cbn [w_mmu]. unfold rv_walk at 1. rewrite Lwalk. destruct (rv_leaf_entry_spec pa p) as [-> _].
    unfold rv_update. rewrite <-W. done.
  - cbn [w_mmu]. by rewrite Ltlb, T.
Qed.

Definition rv_unmapped (w : World Mmu) (os : list holding) (va : VirtualAddress)
    (r : Result PhysicalAddress UnmapError) (w' : World Mmu) : Prop :=
  rv_step w os (rv_unmap_spec (rv_walk (w_mmu w)) va).2 (rv_flush_of r va) w' os /\
  r = (rv_unmap_spec (rv_walk (w_mmu w)) va).1.

Lemma rv_unmap_kernel_spec w os l va :
  rv_ok w os l -> wp (unmap_kernel_page st va) (rv_unmapped w os va) w.
Proof.
  intros Hok. pose proof (rv_extends_step _ _ _ _ (rv_extends_refl w os l Hok)) as Hrefl.
  unfold unmap_kernel_page. fold root. apply lift_mmu_wp. eapply wp_mono; [apply rv_unmap_page_spec, Hok|].
  assert (forall e, rv_unmap_spec (rv_walk (w_mmu w)) va = (Err e, rv_walk (w_mmu w)) ->
    rv_unmapped w os va (Err e) {| w_pmm := w_pmm w; w_next_slot := w_next_slot w; w_mmu := w_mmu w |}) as Hrefuse.
  { intros e Hs. unfold rv_unmapped. rewrite Hs. split; [by destruct w|done]. }
  intros [pa|[]] m'; unfold rv_unmap_spec in Hrefuse.
  - intros (Hc & (e & Hw & ->) & [Ltree Lwalk Ltlb Ldom]). fold (rv_walk (w_mmu w) va) in Hw.
    unfold rv_unmapped, rv_unmap_spec. rewrite Hc, Hw. cbn [negb fst snd]. split; [|done]. split; try done.
    exists l. destruct Hok as [Hc2 _ Hd2 Hv2]. split; [done|done|intros q Hq; by apply Hd2, Ldom|].
    intros va' level e'. unfold rv_walk. cbn [w_mmu]. rewrite Lwalk. case_decide; [done|apply Hv2].
  - intros (-> & Hc). apply Hrefuse. by rewrite Hc.
  - intros (-> & Hc & Hw). apply Hrefuse. fold (rv_walk (w_mmu w) va) in Hw. by rewrite Hc, Hw.
  - intros (-> & Hc & n & e & Hw). apply Hrefuse. fold (rv_walk (w_mmu w) va) in Hw. by rewrite Hc, Hw.
Qed.
End World.
