(* ===== verification/RiscvMmuBoot.v ===== *)
(** * The boot mappings of RISC-V

    What [mmu::init], [expand_physmap] and [remove_identity_mapping] of
    [arch/riscv64/mmu.rs] leave in the static tables, and the tree they form. *)

From S2P Require Import Prelude Address HwInfo Pmm KernelStack TableTree RiscvMmu RiscvMmuLemmas RiscvMmuWorld.
From stdpp Require Import base tactics option list list_numbers numbers gmap strings.

#[local] Open Scope Z_scope.
#[local] Open Scope kernel_scope.

(** ** Gigapages *)

Definition gigapage_entry (x : bool) (gb : Z) : Z :=
  leaf_entry (gb * GIGAPAGE) {| writable := true; executable := x; user_accessible := false |}.
Definition giga_entry (mapped : Z -> bool) (gb : Z) : Z :=
  if gb =? 0 then gigapage_entry false 0 else if mapped gb then gigapage_entry true gb else INVALID.

Lemma kernel_leaf_run {S} gb x (s : S) :
  0 <= gb < 512 -> kernel_leaf (gb * GIGAPAGE) x s = Done (gigapage_entry x gb, s).
Proof.
  intros Hgb. assert (gb * GIGAPAGE mod PAGE_SIZE = 0) as Hal
    by (unfold PAGE_SIZE; change GIGAPAGE with 1073741824; divlia).
  unfold kernel_leaf, MappingIntent_new, PageAligned_new_physical, MappingSize_is_aligned.
  rewrite (proj2 (is_page_aligned_spec _) Hal).
  replace (Z.land (gb * GIGAPAGE) (MappingSize_bytes Block1G - 1)) with (gb * GIGAPAGE mod 2 ^ 30)
    by (symmetry; by apply (land_mask 30)).
  replace (gb * GIGAPAGE mod 2 ^ 30) with 0 by (change GIGAPAGE with 1073741824; divlia).
  cbn [Z.eqb]. unfold bind, expect, ret. by rewrite rv_from_mapping_spec.
Qed.

Lemma gigapage_entry_spec x gb :
  0 <= gb < 512 ->
  is_valid (gigapage_entry x gb) = true /\ is_leaf (gigapage_entry x gb) = true /\
  out (gigapage_entry x gb) = gb * GIGAPAGE.
Proof.
  intros Hgb. destruct (rv_leaf_entry_spec (gb * GIGAPAGE)
    {| writable := true; executable := x; user_accessible := false |}) as (Hv & Hl & Ho).
  split_and!; [done|done|]. apply Ho; change GIGAPAGE with 1073741824; unfold PAGE_SIZE; [lia|divlia].
Qed.

(** A table of gigapages. *)
Definition giga_table (mapped : Z -> bool) (t : list Z) : Prop :=
  length t = TABLE_LEN /\ forall i, in_table i -> t !! Z.to_nat i = Some (giga_entry mapped i).

Lemma giga_table_ext f g t : (forall i, in_table i -> 0 < i -> f i = g i) -> giga_table f t -> giga_table g t.
Proof.
  intros Heq [Hl Ht]. split; [done|]. intros i Hi. rewrite Ht by done. unfold giga_entry.
  destruct (Z.eqb_spec i 0); [done|]. unfold in_table in Hi. rewrite Heq; [done..|lia].
Qed.
Lemma giga_table_insert f g t gb :
  giga_table f t -> 0 < gb < 512 -> g gb = true -> (forall i, in_table i -> i <> gb -> g i = f i) ->
  giga_table g (<[Z.to_nat gb := gigapage_entry true gb]> t).
Proof.
  intros [Hl Ht] Hgb Hg Hf. split; [by rewrite length_insert|]. intros i Hi. unfold in_table, TABLE_LEN in *.
  destruct (decide (i = gb)) as [->|Hne].
  - rewrite list_lookup_insert_eq by lia. unfold giga_entry. rewrite Hg. by destruct (Z.eqb_spec gb 0); [lia|].
  - rewrite list_lookup_insert_ne by lia. rewrite Ht by done. unfold giga_entry. by rewrite Hf.
Qed.
Lemma giga_table_empty : giga_table (fun _ => false) (<[0%nat := gigapage_entry false 0]> (replicate TABLE_LEN INVALID)).
Proof.
  split; [done|]. intros i Hi. unfold in_table in Hi. destruct (decide (i = 0)) as [->|Hne]; [done|].
  rewrite list_lookup_insert_ne by lia. unfold giga_entry. rewrite (proj2 (Z.eqb_neq i 0)) by done.
  apply lookup_replicate. unfold TABLE_LEN. split; [done|lia].
Qed.

(** ** Writes to the static tables *)

Definition with_table (m : Mmu) (p : VirtualAddress) (P : list Z -> Prop) : Prop :=
  exists t, tables m !! p = Some t /\ length t = TABLE_LEN /\ P t.
(** [m'] is [m] up to table [p]. *)
Record table_written (m : Mmu) (p : VirtualAddress) (m' : Mmu) : Prop := {
  tw_others q : q <> p -> tables m' !! q = tables m !! q;
  tw_dom q : is_Some (tables m' !! q) <-> is_Some (tables m !! q);
  tw_end : physmap_end_gb m' = physmap_end_gb m;
  tw_tlb : tlb m' = tlb m;
  tw_satp : satp m' = satp m;
}.

Lemma table_insert_written m p t t' :
  tables m !! p = Some t -> table_written m p (set_tables (<[p := t']> (tables m)) m).
Proof.
  intros Ht. split; try done; cbn; intros q.
  - intros Hne. by rewrite lookup_insert_ne.
  - rewrite lookup_insert. case_decide; [|done]. subst. rewrite Ht. split; by eexists.
Qed.

Lemma with_table_other m p m' q P : table_written m p m' -> q <> p -> with_table m q P -> with_table m' q P.
Proof. intros Hw Hne (t & Ht & Hl & HP). exists t. by rewrite (tw_others _ _ _ Hw). Qed.

Lemma set_entry_table m p i v P (P' : list Z -> Prop) Q :
  with_table m p P -> in_table i -> (forall t, length t = TABLE_LEN -> P t -> P' (<[Z.to_nat i := v]> t)) ->
  (forall m', with_table m' p P' -> table_written m p m' -> Q tt m') -> wp (set_entry p i v) Q m.
Proof.
  intros (t & Ht & Hl & HP) Hi HP' HQ. unfold set_entry. apply wp_bind, wp_gets. rewrite Ht.
  unfold in_table, TABLE_LEN in *. rewrite (proj2 (Z.ltb_lt _ _)) by lia. apply wp_modify, HQ.
  - eexists. cbn. rewrite lookup_insert_eq. split; [done|]. rewrite length_insert. split; [done|by apply HP'].
  - by eapply table_insert_written.
Qed.
Lemma fill_table m p P Q :
  with_table m p P ->
  (forall m', with_table m' p (fun t => t = replicate TABLE_LEN INVALID) -> table_written m p m' -> Q tt m') ->
  wp (fill_invalid p) Q m.
Proof.
  intros (t & Ht & Hl & HP) HQ. unfold fill_invalid. apply wp_bind, wp_gets. rewrite Ht. apply wp_modify, HQ.
  - eexists. cbn. rewrite lookup_insert_eq. split; [done|]. rewrite length_replicate. split; [done|by rewrite Hl].
  - by eapply table_insert_written.
Qed.

Definition among (l : list Z) (i : Z) : bool := bool_decide (i ∈ l).
Lemma rv_among_snoc f a x i :
  (i =? x) || (among (range a x) i || f i) = among (range a x ++ [x]) i || f i.
Proof.
  unfold among. rewrite (bool_decide_ext (i ∈ _ ++ [x]) (i ∈ range a x \/ i = x)) by set_solver.
  rewrite bool_decide_or. destruct (Z.eqb_spec i x) as [->|Hne].
  - rewrite (bool_decide_eq_true_2 (x = x)) by done. by rewrite orb_true_r.
  - rewrite (bool_decide_eq_false_2 (i = x)) by done. by rewrite orb_false_r.
Qed.

(** One gigapage in one table. *)
Lemma gigapage_wp {A} f p gb m (k : M Mmu A) Q :
  with_table m p (giga_table f) -> 0 < gb < 512 ->
  (forall m', with_table m' p (giga_table (fun i => (i =? gb) || f i)) -> table_written m p m' -> wp k Q m') ->
  wp (let! e := kernel_leaf (gb * GIGAPAGE) true in set_entry p gb e ;;; k) Q m.
Proof.
  intros Hp Hgb HQ. apply wp_bind. eapply wp_run; [apply kernel_leaf_run; lia|]. apply wp_bind.
  eapply set_entry_table; [exact Hp|unfold in_table; lia| |exact HQ].
  intros t Hl Ht. apply (giga_table_insert f); [done|done|by rewrite Z.eqb_refl|].
  intros i _ Hi. by rewrite (proj2 (Z.eqb_neq i gb)).
Qed.
Lemma gigapage_last f p gb m Q :
  with_table m p (giga_table f) -> 0 < gb < 512 ->
  (forall m', with_table m' p (giga_table (fun i => (i =? gb) || f i)) -> table_written m p m' -> Q tt m') ->
  wp (let! e := kernel_leaf (gb * GIGAPAGE) true in set_entry p gb e) Q m.
Proof.
  intros Hp Hgb HQ. eapply wp_meq; [|apply (gigapage_wp f p gb m (ret tt) Q Hp Hgb)].
  - intros s. unfold bind. destruct (kernel_leaf _ true s) as [[e s1]| | |]; [|done..].
    by destruct (set_entry p gb e s1) as [[[] s2]| | |].
  - intros m' H1 H2. apply wp_ret. by apply HQ.
Qed.

Section Statics.
Context (root identity physmap : VirtualAddress).
Hypothesis Hdistinct : root <> identity /\ root <> physmap /\ identity <> physmap.

(** [m'] is [m] up to the two gigapage tables. *)
Record gigas_written (m m' : Mmu) : Prop := {
  gw_others q : q <> identity -> q <> physmap -> tables m' !! q = tables m !! q;
  gw_dom q : is_Some (tables m' !! q) <-> is_Some (tables m !! q);
  gw_end : physmap_end_gb m' = physmap_end_gb m;
  gw_tlb : tlb m' = tlb m;
  gw_satp : satp m' = satp m;
}.
Lemma gigas_refl m : gigas_written m m.
Proof. by split. Qed.
Lemma gigas_trans m1 m2 m3 : gigas_written m1 m2 -> gigas_written m2 m3 -> gigas_written m1 m3.
Proof.
  intros [O1 D1 E1 T1 S1] [O2 D2 E2 T2 S2]. split; [intros q N1 N2; by rewrite O2, O1|intros q; by rewrite D2|congruence..].
Qed.
Lemma gigas_table p m m' : p = identity \/ p = physmap -> table_written m p m' -> gigas_written m m'.
Proof. intros Hp [O D E T S]. split; try done. intros q N1 N2. apply O. by destruct Hp; subst. Qed.

Lemma boot_gigapage_wp f gb m :
  with_table m identity (giga_table f) -> with_table m physmap (giga_table f) -> 0 <= gb < 512 ->
  wp (boot_gigapage identity physmap gb) (fun _ m' =>
    with_table m' identity (giga_table (fun i => (i =? gb) || f i)) /\
    with_table m' physmap (giga_table (fun i => (i =? gb) || f i)) /\ gigas_written m m') m.
Proof.
  intros Hid Hph Hgb. unfold boot_gigapage. destruct (Z.eqb_spec gb 0) as [->|Hne].
  { apply wp_ret. split_and!; [..|apply gigas_refl];
      [destruct Hid as (t & Ht & Hl & HP)|destruct Hph as (t & Ht & Hl & HP)]; exists t;
      (split_and!; [done|done|]; eapply giga_table_ext; [|done]); intros i _ Hi;
      by rewrite (proj2 (Z.eqb_neq i 0)) by lia. }
  apply wp_bind. unfold mul_uint, checked_mul.
  rewrite (proj2 (Z.ltb_lt _ _)) by (change GIGAPAGE with 1073741824; lia). apply wp_ret.
  apply (gigapage_wp f); [done|lia|]. intros m1 Hid1 W1.
  apply (gigapage_last f); [eapply with_table_other; [exact W1| |done]; naive_solver|lia|]. intros m2 Hph2 W2.
  split_and!; [eapply with_table_other; [exact W2|naive_solver|done]|done|].
  eapply gigas_trans; eapply gigas_table; [by left|done|by right|done].
Qed.

Lemma boot_gigapages_wp f a b m :
  with_table m identity (giga_table f) -> with_table m physmap (giga_table f) -> 0 <= a -> b <= 512 ->
  wp (for_each (range a b) (boot_gigapage identity physmap)) (fun _ m' =>
    with_table m' identity (giga_table (fun i => among (range a b) i || f i)) /\
    with_table m' physmap (giga_table (fun i => among (range a b) i || f i)) /\ gigas_written m m') m.
Proof.
  intros Hid Hph Ha Hb. apply (wp_for_each (fun pre m' =>
    with_table m' identity (giga_table (fun i => among pre i || f i)) /\
    with_table m' physmap (giga_table (fun i => among pre i || f i)) /\ gigas_written m m')).
  - split_and!; [done|done|apply gigas_refl].
  - intros pre x post m' Hsplit (Hid' & Hph' & Hw). apply range_split in Hsplit as [-> Hx].
    eapply wp_mono; [apply (boot_gigapage_wp _ x m' Hid' Hph'); lia|]. intros [] m2 (Hid2 & Hph2 & Hw2).
    split_and!; [..|by eapply gigas_trans];
      [destruct Hid2 as (t & Ht & Hl & HP)|destruct Hph2 as (t & Ht & Hl & HP)]; exists t;
      (split_and!; [done|done|]; eapply giga_table_ext; [|done]); intros; apply rv_among_snoc.
Qed.

End Statics.

(** The root table after boot. *)
Definition root_entry (id ph : option Z) (i : Z) : Z :=
  if i =? 0 then match id with Some p => branch_entry p | None => INVALID end
  else if i =? KERNEL_VPN3 then match ph with Some p => branch_entry p | None => INVALID end
  else INVALID.
Definition root_table (id ph : option Z) (t : list Z) : Prop :=
  forall i, in_table i -> t !! Z.to_nat i = Some (root_entry id ph i).
Lemma root_table_insert_id id id' ph t :
  length t = TABLE_LEN -> root_table id ph t ->
  root_table id' ph (<[Z.to_nat 0 := root_entry id' ph 0]> t).
Proof.
  intros Hl Ht i Hi. unfold in_table, TABLE_LEN in *. destruct (decide (i = 0)) as [->|Hne].
  - by rewrite list_lookup_insert_eq by lia.
  - rewrite list_lookup_insert_ne by lia. rewrite Ht by done. unfold root_entry.
    by rewrite (proj2 (Z.eqb_neq i 0)).
Qed.
Lemma root_table_insert_ph id ph' ph t :
  length t = TABLE_LEN -> root_table id ph t ->
  root_table id ph' (<[Z.to_nat KERNEL_VPN3 := root_entry id ph' KERNEL_VPN3]> t).
Proof.
  intros Hl Ht i Hi. unfold in_table, TABLE_LEN in *. change KERNEL_VPN3 with 256 in *.
  destruct (decide (i = 256)) as [->|Hne].
  - by rewrite list_lookup_insert_eq by lia.
  - rewrite list_lookup_insert_ne by lia. rewrite Ht by done. unfold root_entry. change KERNEL_VPN3 with 256.
    by rewrite (proj2 (Z.eqb_neq i 256)).
Qed.

(** ** The boot sequence *)

(** The static tables are three pages of memory. *)
Record statics_ok (st : Statics) : Prop := {
  so_nodup : NoDup (statics st);
  so_page : Forall (fun p => 0 <= p < 2 ^ 64 /\ p mod PAGE_SIZE = 0) (statics st);
}.
Definition statics_present (st : Statics) (m : Mmu) : Prop :=
  Forall (fun p => with_table m (physical_to_virtual p) (fun _ => True)) (statics st).

Section Boot.
Context (st : Statics).
Hypothesis Hst : statics_ok st.

#[local] Abbreviation root_t := (static_table (ROOT_TABLE st)).
#[local] Abbreviation identity_t := (static_table (IDENTITY_L2_TABLE st)).
#[local] Abbreviation physmap_t := (static_table (PHYSMAP_L2_TABLE st)).

Lemma statics_apart : root_t <> identity_t /\ root_t <> physmap_t /\ identity_t <> physmap_t.
Proof.
  destruct Hst as [Hnd Hp]. unfold statics in *. cbn in Hnd, Hp.
  rewrite !Forall_cons in Hp. destruct Hp as ([B1 _] & [B2 _] & [B3 _] & _).
  rewrite !NoDup_cons in Hnd. destruct Hnd as (N1 & N2 & _).
  unfold static_table, table_from_physical.
  split_and!; intros Heq; apply rv_physmap_inj in Heq; try done; rewrite Heq in *; set_solver.
Qed.

(** What the static tables hold: the root's identity entry, the gigapages of
    the two tables below it, and the end of the physmap. *)
Record rv_boot_state (id : option Z) (low high : Z -> bool) (end_gb : Z) (m : Mmu) : Prop := {
  bs_root : with_table m root_t (root_table id (Some (static_physical_address (PHYSMAP_L2_TABLE st))));
  bs_identity : with_table m identity_t (giga_table low);
  bs_physmap : with_table m physmap_t (giga_table high);
  bs_end : physmap_end_gb m = end_gb;
}.

Definition same_tables (m m' : Mmu) : Prop :=
  (forall q, is_Some (tables m' !! q) <-> is_Some (tables m !! q)) /\
  (forall q, q <> root_t -> q <> identity_t -> q <> physmap_t -> tables m' !! q = tables m !! q).

Lemma same_tables_trans m1 m2 m3 : same_tables m1 m2 -> same_tables m2 m3 -> same_tables m1 m3.
Proof. intros [D1 O1] [D2 O2]. split; [intros q; by rewrite D2|intros q N1 N2 N3; by rewrite O2, O1]. Qed.
Lemma table_written_same m p m' :
  p = root_t \/ p = identity_t \/ p = physmap_t -> table_written m p m' -> same_tables m m'.
Proof. intros Hp [O D _ _ _]. split; [done|]. intros q N1 N2 N3. apply O. destruct Hp as [->|[->| ->]]; done. Qed.
Lemma gigas_same m m' : gigas_written identity_t physmap_t m m' -> same_tables m m'.
Proof. intros [O D _ _ _]. split; [done|]. intros q _ N2 N3. by apply O. Qed.

Lemma rv_boot_range_order kernel_load dtb start_gb end_gb :
  is_usize kernel_load -> is_usize dtb -> boot_range kernel_load dtb = (start_gb, end_gb) ->
  0 <= start_gb <= end_gb.
Proof.
  unfold is_uint, boot_range. intros Hk Hd [= <- <-]. unfold div_ceil, saturating_add.
  unfold MINIMUM_PHYSMAP_SIZE, DEVICE_TREE_BLOB_MAX_SIZE. change GIGAPAGE with 1073741824.
  destruct (dtb =? 0); divlia.
Qed.

(** A root table with no entries. *)
Lemma root_table_empty : root_table None None (replicate TABLE_LEN INVALID).
Proof.
  intros i Hi. unfold in_table in Hi. unfold root_entry.
  replace (if i =? 0 then INVALID else _) with INVALID by (by destruct (i =? 0), (i =? KERNEL_VPN3)).
  apply lookup_replicate. unfold TABLE_LEN. split; [done|lia].
Qed.

(** The tables are emptied, and gigabyte zero mapped. *)
Lemma boot_fill_wp {A} m (k : M Mmu A) Q :
  statics_present st m ->
  (forall m', with_table m' root_t (root_table None None) -> with_table m' identity_t (giga_table (fun _ => false)) ->
    with_table m' physmap_t (giga_table (fun _ => false)) -> same_tables m m' -> tlb m' = tlb m -> wp k Q m') ->
  wp (fill_invalid root_t ;;; fill_invalid identity_t ;;; fill_invalid physmap_t ;;;
      let! e := kernel_leaf PhysicalAddress_ZERO false in
      set_entry identity_t 0 e ;;;
      let! e := kernel_leaf PhysicalAddress_ZERO false in
      set_entry physmap_t 0 e ;;; k) Q m.
Proof.
  intros Hp HQ. unfold statics_present, statics in Hp. cbn in Hp. rewrite !Forall_cons in Hp.
  destruct Hp as (Hr & Hi & Hh & _). destruct statics_apart as (N1 & N2 & N3).
  apply wp_bind. eapply fill_table; [exact Hr|]. intros m1 Hr1 W1.
  apply wp_bind. eapply fill_table; [eapply with_table_other; [exact W1|congruence|exact Hi]|]. intros m2 Hi2 W2.
  apply wp_bind. eapply fill_table; [eapply with_table_other; [exact W2|congruence|]; eapply with_table_other;
    [exact W1|congruence|exact Hh]|]. intros m3 Hh3 W3.
  apply wp_bind. eapply wp_run; [by apply (kernel_leaf_run 0)|]. apply wp_bind.
  eapply set_entry_table with (P' := giga_table (fun _ => false));
    [eapply with_table_other; [exact W3|congruence|exact Hi2]|done|intros t _ ->; apply giga_table_empty|].
  intros m4 Hi4 W4. apply wp_bind. eapply wp_run; [by apply (kernel_leaf_run 0)|]. apply wp_bind.
  eapply set_entry_table with (P' := giga_table (fun _ => false));
    [eapply with_table_other; [exact W4|congruence|exact Hh3]|done|intros t _ ->; apply giga_table_empty|].
  intros m5 Hh5 W5. apply HQ; [|by eapply with_table_other; [exact W5|congruence|]|done| |].
  - do 4 (eapply with_table_other; [eassumption|congruence|]). destruct Hr1 as (t & Ht & Hl & ->).
    exists (replicate TABLE_LEN INVALID). split_and!; [done|done|apply root_table_empty].
  - do 4 (eapply same_tables_trans; [eapply table_written_same; [|eassumption]; tauto|]).
    eapply table_written_same; [|exact W5]. tauto.
  - by rewrite (tw_tlb _ _ _ W5), (tw_tlb _ _ _ W4), (tw_tlb _ _ _ W3), (tw_tlb _ _ _ W2), (tw_tlb _ _ _ W1).
Qed.

Lemma rv_mmu_init_wp m kernel_load dtb start_gb end_gb :
  statics_present st m -> is_usize kernel_load -> is_usize dtb ->
  boot_range kernel_load dtb = (start_gb, end_gb) -> end_gb <= MAX_BOOT_GIGAPAGES ->
  wp (mmu_init st kernel_load dtb) (fun _ m' =>
    rv_boot_state (Some (static_physical_address (IDENTITY_L2_TABLE st)))
      (among (range start_gb end_gb)) (among (range start_gb end_gb)) end_gb m' /\
    same_tables m m' /\ tlb m' = tlb m ++ [FlushAll] /\
    satp m' = sv48 (static_physical_address (ROOT_TABLE st)) 0) m.
Proof.
  intros Hp Hk Hd Hrange Hend. pose proof (rv_boot_range_order _ _ _ _ Hk Hd Hrange) as Hord.
  change MAX_BOOT_GIGAPAGES with 512 in Hend. destruct statics_apart as (N1 & N2 & N3).
  pose proof (so_page _ Hst) as Hpage. unfold statics in Hpage. cbn in Hpage. rewrite !Forall_cons in Hpage.
  destruct Hpage as (_ & [_ Aid] & [_ Aph] & _). unfold mmu_init. rewrite Hrange.
  apply wp_bind. unfold validate_boot_range.
  rewrite (proj2 (Z.ltb_ge _ _)), (proj2 (Z.ltb_ge MAX_BOOT_GIGAPAGES _)) by (change MAX_BOOT_GIGAPAGES with 512; lia).
  cbn [orb]. apply wp_ret. apply (boot_fill_wp m); [done|]. intros m1 Hr1 Hi1 Hh1 S1 T1.
  apply wp_bind. eapply wp_mono; [apply (boot_gigapages_wp root_t identity_t physmap_t); [by split_and!|done|done|lia|done]|].
  intros [] m2 (Hi2 & Hh2 & W2).
  assert (with_table m2 root_t (root_table None None)) as Hr2.
  { destruct Hr1 as (t & Ht & HP). exists t. by rewrite (gw_others _ _ _ _ W2). }
  rewrite (branch_spec _ Aid), (branch_spec _ Aph). apply wp_bind, wp_ret, wp_bind.
  eapply set_entry_table with (P' := root_table (Some _) None); [exact Hr2|done|
    intros t Hl Ht; exact (root_table_insert_id None (Some _) None t Hl Ht)|].
  intros m3 Hr3 W3. apply wp_bind, wp_ret, wp_bind.
  eapply set_entry_table with (P' := root_table (Some _) (Some _)); [exact Hr3|done|
    intros t Hl Ht; exact (root_table_insert_ph (Some _) (Some _) None t Hl Ht)|].
  intros m4 Hr4 W4. unfold flush_all. do 2 (apply wp_bind, wp_modify). apply wp_modify.
  assert (forall q f, q <> root_t -> with_table m2 q (giga_table (fun i => f i || false)) -> with_table m4 q (giga_table f)) as Hkeep.
  { intros q f Hq (t & Ht & Hl & HP). exists t. rewrite (tw_others _ _ _ W4), (tw_others _ _ _ W3) by done.
    split_and!; [done|done|]. apply (giga_table_ext (fun i => f i || false)); [|done]. intros. by rewrite orb_false_r. }
  split_and!.
  - split; cbn; [exact Hr4|apply (Hkeep identity_t); [congruence|done]|apply (Hkeep physmap_t); [congruence|done]|done].
  - destruct (same_tables_trans _ _ _ S1 (same_tables_trans _ _ _ (gigas_same _ _ W2)
      (same_tables_trans _ _ _ (table_written_same _ _ _ (or_introl eq_refl) W3)
        (table_written_same _ _ _ (or_introl eq_refl) W4)))) as [D O]. by split.
  - cbn. by rewrite (tw_tlb _ _ _ W4), (tw_tlb _ _ _ W3), (gw_tlb _ _ _ _ W2), T1.
  - done.
Qed.

(** The end of the physmap that [expand_physmap] asks for. *)
Definition rv_physmap_target (max_end : PhysicalAddress) : Z :=
  Z.min (div_ceil max_end GIGAPAGE) MAX_PHYSMAP_ENTRIES.

Lemma expand_gigapage_wp f gb m :
  with_table m physmap_t (giga_table f) -> 0 <= gb < 512 ->
  wp (expand_gigapage physmap_t gb) (fun _ m' =>
    with_table m' physmap_t (giga_table (fun i => (i =? gb) || f i)) /\ table_written m physmap_t m') m.
Proof.
  intros Hph Hgb. unfold expand_gigapage. destruct (Z.eqb_spec gb 0) as [->|Hne].
  { apply wp_ret. split; [|by split]. destruct Hph as (t & Ht & Hl & HP). exists t. split_and!; [done|done|].
    apply (giga_table_ext f); [|done]. intros i _ Hi. by rewrite (proj2 (Z.eqb_neq i 0)) by lia. }
  apply wp_bind. unfold mul_uint, checked_mul.
  rewrite (proj2 (Z.ltb_lt _ _)) by (change GIGAPAGE with 1073741824; lia). apply wp_ret.
  apply (gigapage_last f); [done|lia|]. by intros m1 Hph1 W1.
Qed.

Lemma table_written_trans m1 m2 m3 p : table_written m1 p m2 -> table_written m2 p m3 -> table_written m1 p m3.
Proof.
  intros [O1 D1 E1 T1 S1] [O2 D2 E2 T2 S2].
  split; [intros q N; by rewrite O2, O1|intros q; by rewrite D2|congruence..].
Qed.

Lemma rv_expand_physmap_wp id low f cur max_end m :
  rv_boot_state id low f cur m -> 0 <= cur ->
  wp (expand_physmap st max_end) (fun _ m' =>
    rv_boot_state id low (fun i => among (range cur (rv_physmap_target max_end)) i || f i)
      (Z.max cur (rv_physmap_target max_end)) m' /\
    same_tables m m' /\ satp m' = satp m /\
    tlb m' = tlb m ++ (if cur <? rv_physmap_target max_end then [FlushAll] else [])) m.
Proof.
  intros [Hr Hi Hh He] Hcur. destruct statics_apart as (N1 & N2 & N3).
  unfold expand_physmap. fold (rv_physmap_target max_end).
  set (new_end := rv_physmap_target max_end).
  assert (new_end <= 511) as Hnew by (unfold new_end, rv_physmap_target; change MAX_PHYSMAP_ENTRIES with 511; lia).
  apply wp_bind, wp_gets. rewrite He. apply wp_bind.
  apply (wp_mono _ (fun _ m' => with_table m' physmap_t (giga_table (fun i => among (range cur new_end) i || f i)) /\
    table_written m physmap_t m')).
  { apply (wp_for_each (fun pre m' => with_table m' physmap_t (giga_table (fun i => among pre i || f i)) /\
      table_written m physmap_t m')); [by split; [|split]|].
    intros pre x post m' Hsplit (Hh' & W'). apply range_split in Hsplit as [-> Hx].
    eapply wp_mono; [apply (expand_gigapage_wp _ x m' Hh'); lia|]. intros [] m2 (Hh2 & W2).
    split; [|by eapply table_written_trans]. destruct Hh2 as (t & Ht & Hl & HP). exists t. split_and!; [done|done|].
    eapply giga_table_ext; [|exact HP]. intros; apply rv_among_snoc. }
  intros [] m1 (Hh1 & W1). pose proof (table_written_same m _ m1 (or_intror (or_intror eq_refl)) W1) as [D O].
  pose proof (with_table_other _ _ _ _ _ W1 N2 Hr) as Hr1. pose proof (with_table_other _ _ _ _ _ W1 N3 Hi) as Hi1.
  destruct (Z.ltb_spec cur new_end).
  - apply wp_bind, wp_modify, wp_modify. split_and!; [split; cbn; try done; lia|by split|apply W1|].
    cbn. by rewrite (tw_tlb _ _ _ W1).
  - apply wp_ret. rewrite app_nil_r. split_and!; [|by split|apply W1..].
    split; try done. rewrite (tw_end _ _ _ W1), He. lia.
Qed.

Lemma rv_remove_identity_wp id low f e m :
  rv_boot_state id low f e m ->
  wp (remove_identity_mapping st) (fun _ m' => rv_boot_state None low f e m' /\
    same_tables m m' /\ satp m' = satp m /\ tlb m' = tlb m ++ [FlushAll]) m.
Proof.
  intros [Hr Hi Hh He]. destruct statics_apart as (N1 & N2 & N3). unfold remove_identity_mapping, flush_all.
  apply wp_bind. eapply set_entry_table with (P' := root_table None (Some _)); [exact Hr|done|
    intros t Hl Ht; exact (root_table_insert_id id None _ t Hl Ht)|].
  intros m1 Hr1 W1. apply wp_modify. destruct (table_written_same m _ m1 (or_introl eq_refl) W1) as [D O].
  split_and!; [|by split|apply W1|cbn; by rewrite (tw_tlb _ _ _ W1)].
  split; [exact Hr1|exact (with_table_other _ _ _ _ _ W1 (not_eq_sym N1) Hi)|exact (with_table_other _ _ _ _ _ W1 (not_eq_sym N2) Hh)|].
  cbn. by rewrite (tw_end _ _ _ W1).
Qed.

(** ** The tree after boot *)

Lemma giga_entry_no_link f i : in_table i -> e_link (giga_entry f i) = None.
Proof.
  intros Hi. unfold in_table in Hi. unfold giga_entry, e_link. cbn [e_valid e_leaf sv48_format].
  destruct (Z.eqb_spec i 0) as [->|Hne]; [done|]. destruct (f i); [|done].
  destruct (gigapage_entry_spec true i Hi) as (_ & -> & _). by rewrite andb_false_r.
Qed.

(** A physmap address translates while the boot tables are in place, with the
    identity mapping or without. *)
Lemma rv_boot_translate id low f e m va :
  rv_boot_state id low f e m -> is_canonical va = true -> vpn3 va = KERNEL_VPN3 ->
  translate root_t va m = Done (
    if (vpn2 va =? 0) || f (vpn2 va)
    then output_plus (gigapage_entry (negb (vpn2 va =? 0)) (vpn2 va)) (Z.land va GIGAPAGE_MASK) else None, m).
Proof.
  intros [(t1 & T1 & _ & R) _ (t2 & T2 & _ & [_ G]) _] Hc Hv3. unfold translate. rewrite Hc, Hv3. cbn [negb].
  pose proof (so_page _ Hst) as Hp. unfold statics in Hp. cbn in Hp. rewrite !Forall_cons in Hp. destruct Hp as (_ & _ & [Hb Hal] & _).
  destruct (branch_entry_spec (static_physical_address (PHYSMAP_L2_TABLE st))) as (Hv & Hl & Ho). specialize (Ho Hb Hal).
  pose proof (vpn_bound va 30 : in_table (vpn2 va)) as Hi.
  assert (forall q i t x, tables m !! q = Some t -> t !! Z.to_nat i = Some x -> get_entry q i m = Done (x, m)) as Hget
    by (intros q i t x Hq Hx; unfold get_entry, bind, gets; by rewrite Hq, Hx).
  unfold bind at 1. rewrite (Hget _ _ _ _ T1 (R KERNEL_VPN3 ltac:(by split))).
  change (root_entry id (Some (static_physical_address (PHYSMAP_L2_TABLE st))) KERNEL_VPN3)
    with (branch_entry (static_physical_address (PHYSMAP_L2_TABLE st))). rewrite Hv, Hl. cbn [negb].
  rewrite (output_valid _ Hv), Ho. unfold bind at 1.
  change (table_from_physical (static_physical_address (PHYSMAP_L2_TABLE st))) with physmap_t.
  rewrite (Hget _ _ _ _ T2 (G _ Hi)).
  unfold giga_entry. unfold in_table in Hi. destruct (Z.eqb_spec (vpn2 va) 0) as [Hz|Hz]; cbn [orb negb].
  - rewrite Hz. destruct (gigapage_entry_spec false 0 ltac:(lia)) as (-> & -> & _). done.
  - destruct (f (vpn2 va)); [|done]. destruct (gigapage_entry_spec true (vpn2 va) Hi) as (-> & -> & _). done.
Qed.

Section Tree.
Context (low f : Z -> bool) (e : Z) (m : Mmu).
Hypothesis Hbs : rv_boot_state None low f e m.

Lemma root_entry_at i :
  in_table i -> entry_at (tables m) root_t i =
    Some (if i =? KERNEL_VPN3 then branch_entry (static_physical_address (PHYSMAP_L2_TABLE st)) else INVALID).
Proof.
  intros Hi. destruct (bs_root _ _ _ _ _ Hbs) as (t & Ht & Hl & HP). unfold entry_at. rewrite Ht, HP by done.
  unfold root_entry. destruct (Z.eqb_spec i 0) as [->|Hne]; done.
Qed.
Lemma physmap_entry_at i : in_table i -> entry_at (tables m) physmap_t i = Some (giga_entry f i).
Proof.
  intros Hi. destruct (bs_physmap _ _ _ _ _ Hbs) as (t & Ht & Hl & [_ HP]). unfold entry_at. by rewrite Ht, HP.
Qed.
Lemma physmap_target_ptr :
  e_target (branch_entry (static_physical_address (PHYSMAP_L2_TABLE st))) = physmap_t.
Proof.
  pose proof (so_page _ Hst) as Hp. unfold statics in Hp. cbn in Hp. rewrite !Forall_cons in Hp.
  destruct Hp as (_ & _ & [Hb Hal] & _). cbn.
  destruct (branch_entry_spec (static_physical_address (PHYSMAP_L2_TABLE st))) as (_ & _ & Ho). by rewrite Ho.
Qed.

Lemma boot_ptr path p :
  Forall in_table path -> ptr (tables m) root_t path = Some p ->
  path = [] /\ p = root_t \/ path = [KERNEL_VPN3] /\ p = physmap_t.
Proof.
  destruct path as [|i path]; [intros _ [= ->]; by left|]. intros [Hi Hf]%Forall_cons. cbn [ptr].
  unfold next_ptr at 1. rewrite root_entry_at by done. destruct (Z.eqb_spec i KERNEL_VPN3) as [->|Hne]; [|done].
  destruct (branch_entry_spec (static_physical_address (PHYSMAP_L2_TABLE st))) as (Hv & Hl & _).
  rewrite (@e_link_valid sv48_format _ Hv Hl), physmap_target_ptr.
  destruct path as [|j path]; [intros [= ->]; by right|]. apply Forall_cons in Hf as [Hj _]. cbn [ptr].
  unfold next_ptr. by rewrite physmap_entry_at, giga_entry_no_link.
Qed.

Lemma rv_boot_tree :
  (forall q t, tables m !! q = Some t -> length t = TABLE_LEN) -> tree_ok (tables m) root_t 4.
Proof.
  intros Hlen. split; [done| |].
  - intros path p Hp _ [[-> ->]|[-> ->]]%boot_ptr; [..|done];
      [destruct (bs_root _ _ _ _ _ Hbs) as (t & -> & _)|destruct (bs_physmap _ _ _ _ _ Hbs) as (t & -> & _)]; by eexists.
  - intros path1 path2 p H1 H2 _ _ P1%boot_ptr P2%boot_ptr; [|done..]. destruct statics_apart as (_ & N & _).
    destruct P1 as [[-> ->]|[-> ->]], P2 as [[-> ?]|[-> ?]]; congruence.
Qed.

Lemma rv_boot_walk va :
  walk (tables m) root_t (vpns va) =
    if (vpn3 va =? KERNEL_VPN3) && ((vpn2 va =? 0) || f (vpn2 va))
    then Some (2%nat, gigapage_entry (negb (vpn2 va =? 0)) (vpn2 va)) else None.
Proof.
  unfold vpns. rewrite walk_cons, root_entry_at by apply vpn_bound.
  destruct (Z.eqb_spec (vpn3 va) KERNEL_VPN3) as [Heq|Hne]; cbn [andb]; [|done].
  destruct (branch_entry_spec (static_physical_address (PHYSMAP_L2_TABLE st))) as (Hv & Hl & _).
  cbn [e_valid e_leaf sv48_format] in *. rewrite Hv, Hl. cbn [negb].
  rewrite physmap_target_ptr, walk_cons, physmap_entry_at by apply vpn_bound.
  pose proof (vpn_bound va 30 : in_table (vpn2 va)) as Hi. unfold in_table in Hi. unfold giga_entry.
  destruct (Z.eqb_spec (vpn2 va) 0) as [Hz|Hz]; cbn [orb negb].
  - rewrite Hz. done.
  - destruct (f (vpn2 va)); [|done]. destruct (gigapage_entry_spec true (vpn2 va) Hi) as (Hv2 & Hl2 & _).
    cbn [e_valid e_leaf sv48_format] in *. by rewrite Hv2, Hl2.
Qed.
End Tree.
End Boot.
