(* ===== verification/RiscvMmuTheorems.v ===== *)
(** * Properties of the RISC-V memory-management unit

    The page-mapper instance on Sv48 tables, the boot mappings, and the claims
    about entries, kernel mappings and kernel stacks on RISC-V. *)

From S2P Require Import Prelude Address HwInfo Pmm PmmReserved PmmFreeList PmmAlloc PmmInit PmmClients PmmTheorems.
From S2P Require Import KernelStack PageMapper TableTree RiscvMmu RiscvMmuLemmas RiscvMmuWorld RiscvMmuBoot.
From stdpp Require Import base tactics option list list_numbers numbers gmap strings.

#[local] Open Scope Z_scope.
#[local] Open Scope kernel_scope.

(** ** Kernel addresses *)

Definition rv_kernel_address (va : VirtualAddress) : Prop := KERNEL_VIRTUAL_BASE <= va < 2 ^ 64.

Lemma rv_kernel_canonical va : rv_kernel_address va -> is_canonical va = true.
Proof. intros [Hlo _]. unfold is_canonical. rewrite (proj2 (Z.leb_le _ _) Hlo). apply orb_true_r. Qed.

Lemma vpns_mod va :
  vpns va = [va / 2 ^ 39 mod 512; va / 2 ^ 30 mod 512; va / 2 ^ 21 mod 512; va / 2 ^ 12 mod 512].
Proof. unfold vpns, vpn3, vpn2, vpn1, vpn0. by rewrite !index_mod by lia. Qed.
Lemma vpns_same_page va va' : page_of va = page_of va' -> vpns va = vpns va'.
Proof. rewrite !vpns_mod. unfold page_of, PAGE_SIZE. intros Hp. do 4 (apply (f_equal2 cons); [divlia|]). done. Qed.
Lemma vpns_kernel va va' :
  rv_kernel_address va -> rv_kernel_address va' -> vpns va' = vpns va <-> page_of va' = page_of va.
Proof.
  unfold rv_kernel_address, KERNEL_VIRTUAL_BASE. intros H1 H2. split; [|by intros; apply vpns_same_page].
  rewrite !vpns_mod. unfold page_of, PAGE_SIZE. intros [= E3 E2 E1 E0]. divlia.
Qed.

(** ** The page-mapper instance *)

Definition level_size (level : nat) : MappingSize :=
  match level with 0%nat => Page4K | 1%nat => Block2M | _ => Block1G end.
Definition riscv_space (st : Statics) (m : Mmu) : kspace := fun va =>
  match rv_walk st m va with Some (level, e) => Some (level_size level, out e) | None => None end.

Section Mapper.
Context `{PageLayout} (s0 : Pmm) (st : Statics) (Hstatics : statics_reserved s0 st).

Lemma rv_managed w os l pa :
  rv_ok s0 st w os l -> managed s0 pa -> pa mod PAGE_SIZE = 0 /\ 0 <= pa < 2 ^ 64.
Proof.
  intros Hok (h & Hv & Hp). pose proof (ro_client _ _ _ _ _ Hok) as Hci.
  pose proof (pi_layout _ _ (pi_core _ _ (ci_inv _ _ _ _ Hci))) as Hwf.
  rewrite <-(frame_physical_of s0 (w_pmm w)) in Hp by apply Hci. apply (frame_valid s0 (w_pmm w)) in Hv; [|apply Hci].
  split; [by apply (physical_of_aligned (w_pmm w) h)|by apply (physical_of_bound (w_pmm w) h)].
Qed.

Lemma rv_update_kernel (A : rv_space) va va' v :
  rv_kernel_address va -> rv_kernel_address va' ->
  rv_update A va v va' = if decide (page_of va' = page_of va) then v else A va'.
Proof.
  intros Hk Hk'. unfold rv_update. pose proof (vpns_kernel va va' Hk Hk') as Hs.
  destruct (decide (vpns va' = vpns va)); destruct (decide (page_of va' = page_of va)); tauto.
Qed.

Lemma riscv_map_law w os l va pa :
  rv_ok s0 st w os l -> rv_kernel_address va -> va mod PAGE_SIZE = 0 -> managed s0 pa ->
  wp (map_kernel_stack_page st va pa) (fun r w' => exists os', (exists l', rv_ok s0 st w' os' l') /\
    leaked_more os os' /\ w_next_slot w' = w_next_slot w /\
    match r with
    | Ok _ => riscv_space st (w_mmu w) va = None /\
        (forall va', rv_kernel_address va' -> riscv_space st (w_mmu w') va' =
          if decide (page_of va' = page_of va) then Some (Page4K, pa) else riscv_space st (w_mmu w) va')
    | Err e => (forall va', rv_kernel_address va' -> riscv_space st (w_mmu w') va' = riscv_space st (w_mmu w) va') /\
        match e with
        | MapError_OutOfMemory => True
        | MapError_AlreadyMapped | MapError_SuperpageConflict => riscv_space st (w_mmu w) va <> None
        | _ => False
        end
    end) w.
Proof.
  intros Hok Hk Hal Hman. destruct (rv_managed w os l pa Hok Hman) as (Hpa & Hb).
  eapply wp_mono; [exact (rv_map_page_spec s0 st Hstatics w os l va pa KERNEL_READ_WRITE Hok)|].
  intros r w' (os' & A' & [Hok' Hl Hsp Hsl _] & Hspec). exists os'. split_and!; [done..|].
  rewrite rv_map_checked in Hspec; [|by apply virtual_is_page_aligned_spec|by apply is_page_aligned_spec|
    by apply rv_kernel_canonical].
  unfold riscv_space. destruct (rv_walk st (w_mmu w) va) as [[level e]|] eqn:Hw.
  - destruct Hspec as [Hspec|(-> & -> & Hspec)]; [|by destruct level].
    destruct level; injection Hspec as -> ->; (split; [intros; by rewrite Hsp|done]).
  - destruct Hspec as [Hspec|(-> & -> & _)]; [|split; [intros; by rewrite Hsp|done]].
    injection Hspec as -> ->. split; [done|]. intros va' Hk'. rewrite Hsp, rv_update_kernel by done.
    case_decide; [|done]. destruct (rv_leaf_entry_spec pa KERNEL_READ_WRITE) as (_ & _ & Hout). cbn. by rewrite Hout.
Qed.

Lemma riscv_unmap_law w os l va :
  rv_ok s0 st w os l -> rv_kernel_address va ->
  wp (unmap_kernel_stack_page st va) (fun r w' => (exists l', rv_ok s0 st w' os l') /\
    w_next_slot w' = w_next_slot w /\
    match riscv_space st (w_mmu w) va with
    | Some (Page4K, pa) => r = Ok pa /\
        (forall va', rv_kernel_address va' -> riscv_space st (w_mmu w') va' =
          if decide (page_of va' = page_of va) then None else riscv_space st (w_mmu w) va')
    | _ => (exists e, r = Err e) /\
        (forall va', rv_kernel_address va' -> riscv_space st (w_mmu w') va' = riscv_space st (w_mmu w) va')
    end) w.
Proof.
  intros Hok Hk. eapply wp_mono; [exact (rv_unmap_kernel_spec s0 st w os l va Hok)|].
  intros r w' ([Hok' _ Hsp Hsl _] & ->). split_and!; [done..|]. unfold rv_unmap_spec in *.
  rewrite (rv_kernel_canonical va Hk) in *. cbn [negb] in *. unfold riscv_space.
  destruct (rv_walk st (w_mmu w) va) as [[[|[|level]] e]|] eqn:Hw; cbn [fst snd level_size] in *;
    (split; [by eauto|]); intros va' Hk'; rewrite Hsp; try done.
  rewrite rv_update_kernel by done. by case_decide.
Qed.

#[refine] Instance riscv_mapper : PageMapper s0 (map_kernel_stack_page st) (unmap_kernel_stack_page st) := {|
  pm_kernel := rv_kernel_address;
  pm_ok w os := exists l, rv_ok s0 st w os l;
  pm_space := riscv_space st;
|}.
Proof.
  - intros w os [l Hok]. exists l. apply Hok.
  - intros w os s os' l n [l' [_ Htree Htab Hlev]] Hci Hkeep. exists l. split; [done|done| |done].
    intros p Hp. destruct (Htab p Hp) as [(h & phys & Hin & ->)|?]; [left|by right].
    exists h, phys. split; [by apply Hkeep|done].
  - intros m va va' Hp. unfold riscv_space, rv_walk. by rewrite (vpns_same_page va va' Hp).
  - intros w os va pa [l Hok] Hk Hal Hman. by apply (riscv_map_law w os l).
  - intros w os va [l Hok] Hk _. by apply (riscv_unmap_law w os l).
Defined.
End Mapper.

(** ** Boot *)

(** The boot sequence of [startup/init.rs] as far as the page tables go. *)
Definition riscv_boot_mmu (st : Statics) (dtb : Z) (info : HardwareInfo) : M Mmu unit :=
  mmu_init st KERNEL_PHYSICAL_LOAD dtb ;;;
  expand_physmap st (max_memory_end info) ;;;
  remove_identity_mapping st.

(** The gigabytes that the physmap covers after boot, besides the first. *)
Definition riscv_physmap_start (dtb : Z) : Z := (boot_range KERNEL_PHYSICAL_LOAD dtb).1.
Definition riscv_physmap_gb (dtb : Z) (info : HardwareInfo) : Z :=
  Z.max (boot_range KERNEL_PHYSICAL_LOAD dtb).2 (rv_physmap_target (max_memory_end info)).
Definition in_physmap (dtb : Z) (info : HardwareInfo) (pa : PhysicalAddress) : bool :=
  (pa <? GIGAPAGE) ||
  (riscv_physmap_start dtb * GIGAPAGE <=? pa) && (pa <? riscv_physmap_gb dtb info * GIGAPAGE).
Definition physmap_map (dtb : Z) (info : HardwareInfo) (i : Z) : bool :=
  (riscv_physmap_start dtb <=? i) && (i <? riscv_physmap_gb dtb info).

Lemma boot_range_riscv dtb :
  0 <= dtb -> dtb + DEVICE_TREE_BLOB_MAX_SIZE <= 2 ^ 39 ->
  exists start_gb end_gb, boot_range KERNEL_PHYSICAL_LOAD dtb = (start_gb, end_gb) /\
    0 <= start_gb <= 2 /\ 4 <= end_gb <= 512 /\
    KERNEL_PHYSICAL_LOAD + MINIMUM_PHYSMAP_SIZE <= end_gb * GIGAPAGE /\
    (dtb <> 0 -> start_gb * GIGAPAGE <= dtb /\ dtb + DEVICE_TREE_BLOB_MAX_SIZE <= end_gb * GIGAPAGE) /\
    (dtb + DEVICE_TREE_BLOB_MAX_SIZE <= 511 * GIGAPAGE -> end_gb <= 511).
Proof.
  intros H0 Hd. unfold boot_range. eexists _, _. split; [reflexivity|].
  unfold div_ceil, saturating_add, KERNEL_PHYSICAL_LOAD, MINIMUM_PHYSMAP_SIZE, DEVICE_TREE_BLOB_MAX_SIZE in *.
  change GIGAPAGE with 1073741824 in *. destruct (Z.eqb_spec dtb 0); split_and!; divlia.
Qed.

(** The static tables are the only tables there are. *)
Definition statics_only (st : Statics) (m : Mmu) : Prop :=
  statics_present st m /\ forall q, is_Some (tables m !! q) -> exists p, p ∈ statics st /\ q = physical_to_virtual p.

Lemma riscv_boot_mmu_wp st m dtb info :
  statics_ok st -> statics_present st m -> 0 <= dtb -> dtb + DEVICE_TREE_BLOB_MAX_SIZE <= 2 ^ 39 ->
  wp (riscv_boot_mmu st dtb info) (fun _ m' => exists low,
    rv_boot_state st None low (physmap_map dtb info) (riscv_physmap_gb dtb info) m' /\
    same_tables st m m' /\ satp m' = sv48 (static_physical_address (ROOT_TABLE st)) 0) m.
Proof.
  intros Hst Hp H0 Hd. destruct (boot_range_riscv dtb H0 Hd) as (a & b & Hr & Ha & Hb & _).
  unfold physmap_map, riscv_physmap_start, riscv_physmap_gb, riscv_boot_mmu. rewrite Hr. cbn [fst snd]. apply wp_bind.
  eapply wp_mono; [apply (rv_mmu_init_wp st Hst m KERNEL_PHYSICAL_LOAD dtb a b); try done|].
  { unfold is_uint, DEVICE_TREE_BLOB_MAX_SIZE in *. lia. }
  { change MAX_BOOT_GIGAPAGES with 512. lia. }
  intros [] m1 (Hbs & S1 & _ & Hsatp). apply wp_bind.
  eapply wp_mono; [apply (rv_expand_physmap_wp st Hst _ _ _ _ (max_memory_end info) m1 Hbs); lia|].
  intros [] m2 (Hbs2 & S2 & Hsatp2 & _).
  eapply wp_mono; [exact (rv_remove_identity_wp st Hst _ _ _ _ m2 Hbs2)|].
  intros [] m3 ([Rr Ri Rp Re] & S3 & Hsatp3 & _). eexists. split_and!; [|by do 2 eapply same_tables_trans|congruence].
  split; [done|done| |done]. destruct Rp as (t & Ht & Hl & HP). exists t. split_and!; [done|done|].
  eapply giga_table_ext; [|exact HP]. intros i Hi Hpos. unfold among. cbn beta.
  set (e := rv_physmap_target (max_memory_end info)).
  rewrite (bool_decide_ext _ _ (elem_of_range _ _ _)), (bool_decide_ext _ _ (elem_of_range _ _ _)).
  destruct (Z.leb_spec a i), (Z.ltb_spec i (Z.max b e)); cbn [andb];
    [apply orb_true_iff; rewrite !bool_decide_eq_true; lia|
     apply orb_false_iff; rewrite !bool_decide_eq_false; lia..].
Qed.

Lemma boot_tables st low f e m0 m :
  rv_boot_state st None low f e m -> statics_only st m0 -> same_tables st m0 m ->
  forall q t, tables m !! q = Some t -> length t = TABLE_LEN /\ exists p, p ∈ statics st /\ q = physical_to_virtual p.
Proof.
  intros [(t1 & T1 & L1 & _) (t2 & T2 & L2 & _) (t3 & T3 & L3 & _) _] [_ Honly] [Hdom _] q t Hq.
  destruct (Honly q) as (p & Hin & ->); [apply Hdom; by eexists|]. split; [|by exists p].
  unfold statics in Hin. cbn in Hin. unfold static_table, table_from_physical in *. set_solver.
Qed.

(** Translations of the kernel's half after boot. *)
Lemma vpn_physmap va :
  rv_kernel_address va ->
  (vpn3 va =? KERNEL_VPN3) = (va - KERNEL_VIRTUAL_BASE <? 2 ^ 39) /\
  (va - KERNEL_VIRTUAL_BASE < 2 ^ 39 -> vpn2 va = (va - KERNEL_VIRTUAL_BASE) / GIGAPAGE) /\
  Z.land va GIGAPAGE_MASK = (va - KERNEL_VIRTUAL_BASE) mod GIGAPAGE.
Proof.
  unfold rv_kernel_address, KERNEL_VIRTUAL_BASE, vpn3, vpn2. intros Hva. rewrite !index_mod by lia.
  change KERNEL_VPN3 with 256. change GIGAPAGE_MASK with (2 ^ 30 - 1). rewrite land_mask by lia.
  change GIGAPAGE with 1073741824. split_and!; [|intros; divlia|divlia].
  destruct (Z.ltb_spec (va - 18446603336221196288) (2 ^ 39)); [apply Z.eqb_eq|apply Z.eqb_neq]; divlia.
Qed.

Lemma boot_walk_physmap st low dtb info e m va :
  statics_ok st -> rv_boot_state st None low (physmap_map dtb info) e m ->
  rv_kernel_address va -> riscv_physmap_gb dtb info <= 512 -> 4 <= riscv_physmap_gb dtb info ->
  rv_walk st m va =
    if in_physmap dtb info (va - KERNEL_VIRTUAL_BASE)
    then Some (2%nat, gigapage_entry (negb (vpn2 va =? 0)) (vpn2 va)) else None.
Proof.
  intros Hst Hbs Hva Hgb Hgb4. unfold rv_walk. rewrite (rv_boot_walk st Hst low _ e m Hbs).
  destruct (vpn_physmap va Hva) as (-> & H2 & _). set (pa := va - KERNEL_VIRTUAL_BASE) in *.
  assert (0 <= pa) as Hpa by (unfold pa, rv_kernel_address in *; lia).
  unfold in_physmap, physmap_map. change GIGAPAGE with 1073741824 in *.
  set (a := riscv_physmap_start dtb) in *. set (b := riscv_physmap_gb dtb info) in *.
  destruct (Z.ltb_spec pa (2 ^ 39)) as [Hlt|Hge]; cbn [andb].
  - rewrite (H2 Hlt).
    replace (pa / 1073741824 =? 0) with (pa <? 1073741824); [
      replace (a <=? pa / 1073741824) with (a * 1073741824 <=? pa); [
      replace (pa / 1073741824 <? b) with (pa <? b * 1073741824); [done|]|]|].
    + destruct (Z.ltb_spec pa (b * 1073741824)); symmetry; [apply Z.ltb_lt|apply Z.ltb_ge]; divlia.
    + destruct (Z.leb_spec (a * 1073741824) pa); symmetry; [apply Z.leb_le|apply Z.leb_gt]; divlia.
    + destruct (Z.ltb_spec pa 1073741824); symmetry; [apply Z.eqb_eq|apply Z.eqb_neq]; divlia.
  - rewrite (proj2 (Z.ltb_ge pa 1073741824)), (proj2 (Z.ltb_ge pa (b * 1073741824))) by lia.
    by rewrite andb_false_r.
Qed.

Lemma resolve_gigapage va x :
  rv_kernel_address va -> va - KERNEL_VIRTUAL_BASE < 2 ^ 39 ->
  resolve va (Some (2%nat, gigapage_entry x (vpn2 va))) = Some (va - KERNEL_VIRTUAL_BASE).
Proof.
  intros Hva Hlt. destruct (vpn_physmap va Hva) as (_ & H2 & Hoff). specialize (H2 Hlt).
  destruct (gigapage_entry_spec x (vpn2 va) (vpn_bound va 30)) as (Hv & _ & Ho).
  unfold resolve, output_plus. rewrite (output_valid _ Hv), Ho. cbn [level_mask]. rewrite Hoff, H2.
  unfold PhysicalAddress_checked_add, checked_add. unfold rv_kernel_address in Hva.
  change GIGAPAGE with 1073741824. rewrite (proj2 (Z.ltb_lt _ _)) by divlia. f_equal. divlia.
Qed.

(** [mmu::init] maps the megabyte from the device tree on. *)
Lemma riscv_init_maps_dtb st m dtb :
  statics_ok st -> statics_present st m -> 0 <= dtb -> dtb + DEVICE_TREE_BLOB_MAX_SIZE <= 2 ^ 39 ->
  wp (mmu_init st KERNEL_PHYSICAL_LOAD dtb) (fun _ m1 =>
    satp m1 = sv48 (static_physical_address (ROOT_TABLE st)) 0 /\
    (dtb <> 0 -> forall pa, dtb <= pa < dtb + DEVICE_TREE_BLOB_MAX_SIZE ->
      translate (static_table (ROOT_TABLE st)) (physical_to_virtual pa) m1 = Done (Some pa, m1))) m.
Proof.
  intros Hst Hp H0 Hd. destruct (boot_range_riscv dtb H0 Hd) as (a & b & Hr & Ha & Hb & _ & Hdtb & _).
  eapply wp_mono; [apply (rv_mmu_init_wp st Hst m KERNEL_PHYSICAL_LOAD dtb a b); try done|].
  { unfold is_uint, DEVICE_TREE_BLOB_MAX_SIZE in *. lia. }
  { change MAX_BOOT_GIGAPAGES with 512. lia. }
  intros [] m1 (Hbs & _ & _ & Hsatp). split; [done|]. intros Hnz pa Hpa. destruct (Hdtb Hnz) as [Hs He].
  assert (0 <= pa < 2 ^ 39) as Hpa39 by lia.
  assert (physical_to_virtual pa = KERNEL_VIRTUAL_BASE + pa) as Hva
    by (unfold physical_to_virtual, wrapping_add, KERNEL_VIRTUAL_BASE in *; rewrite Z.mod_small by lia; lia).
  assert (rv_kernel_address (KERNEL_VIRTUAL_BASE + pa)) as Hka by (unfold rv_kernel_address, KERNEL_VIRTUAL_BASE; lia).
  rewrite Hva. destruct (vpn_physmap _ Hka) as (H3 & H2 & _).
  replace (KERNEL_VIRTUAL_BASE + pa - KERNEL_VIRTUAL_BASE) with pa in * by lia.
  rewrite (proj2 (Z.ltb_lt pa _)) in H3 by lia. apply Z.eqb_eq in H3. specialize (H2 ltac:(lia)).
  rewrite (rv_boot_translate st Hst _ _ _ _ m1 _ Hbs) by (done || unfold is_canonical; rewrite (proj2 (Z.leb_le _ _)) by lia; apply orb_true_r).
  pose proof (resolve_gigapage (KERNEL_VIRTUAL_BASE + pa) (negb (vpn2 (KERNEL_VIRTUAL_BASE + pa) =? 0)) Hka ltac:(lia)) as Hres.
  unfold resolve in Hres. cbn [level_mask] in Hres. rewrite Hres.
  replace (KERNEL_VIRTUAL_BASE + pa - KERNEL_VIRTUAL_BASE) with pa by lia.
  destruct ((vpn2 (KERNEL_VIRTUAL_BASE + pa) =? 0) || among (range a b) (vpn2 (KERNEL_VIRTUAL_BASE + pa))) eqn:Hm; [done|].
  apply orb_false_iff in Hm as [_ Hm]. unfold among in Hm. rewrite bool_decide_eq_false, elem_of_range, H2 in Hm.
  change GIGAPAGE with 1073741824 in *. divlia.
Qed.

Lemma physmap_gb_bound dtb info :
  0 <= dtb -> dtb + DEVICE_TREE_BLOB_MAX_SIZE <= 2 ^ 39 ->
  4 <= riscv_physmap_gb dtb info <= 512 /\
  (dtb + DEVICE_TREE_BLOB_MAX_SIZE <= 511 * GIGAPAGE -> riscv_physmap_gb dtb info <= 511).
Proof.
  intros H0 Hd. destruct (boot_range_riscv dtb H0 Hd) as (a & b & Hr & _ & Hb & _ & _ & H511).
  unfold riscv_physmap_gb, rv_physmap_target. rewrite Hr. cbn [snd]. change MAX_PHYSMAP_ENTRIES with 511. lia.
Qed.
Lemma in_physmap_bound dtb info pa :
  riscv_physmap_gb dtb info <= 512 -> in_physmap dtb info pa = true -> pa < 2 ^ 39.
Proof.
  unfold in_physmap. change GIGAPAGE with 1073741824. intros Hgb.
  rewrite orb_true_iff, andb_true_iff, !Z.ltb_lt. lia.
Qed.

(** (C22) The boot sequence on RISC-V, with the device tree inside the 512 GiB that
    the boot table covers, succeeds and leaves [satp] on the root table.  A
    canonical address translates exactly when it is the physmap address of the
    first gigabyte or of an address between the start and the end of the
    physmap; the identity mapping is gone.  The physmap covers a gigabyte from
    the kernel image, the device tree, and, up to 511 GiB, all memory from its
    start on. *)
Theorem riscv_boot_physmap st m dtb info :
  statics_ok st -> statics_only st m -> 0 <= dtb -> dtb + DEVICE_TREE_BLOB_MAX_SIZE <= 2 ^ 39 ->
  (forall pa, KERNEL_PHYSICAL_LOAD <= pa < KERNEL_PHYSICAL_LOAD + MINIMUM_PHYSMAP_SIZE \/
     dtb <> 0 /\ dtb <= pa < dtb + DEVICE_TREE_BLOB_MAX_SIZE \/
     riscv_physmap_start dtb * GIGAPAGE <= pa < Z.min (max_memory_end info) (511 * GIGAPAGE) ->
     in_physmap dtb info pa = true) /\
  exists m', riscv_boot_mmu st dtb info m = Done (tt, m') /\
    satp m' = sv48 (static_physical_address (ROOT_TABLE st)) 0 /\
    forall va, 0 <= va < 2 ^ 64 -> is_canonical va = true ->
      translate (static_table (ROOT_TABLE st)) va m' =
        Done (if (KERNEL_VIRTUAL_BASE <=? va) && in_physmap dtb info (va - KERNEL_VIRTUAL_BASE)
              then Some (va - KERNEL_VIRTUAL_BASE) else None, m').
Proof.
  intros Hst Honly H0 Hd. destruct (physmap_gb_bound dtb info H0 Hd) as [[Hgb4 Hgb] _].
  destruct (boot_range_riscv dtb H0 Hd) as (a & b & Hr & Ha & Hb & Hk & Hdtb & _). split.
  { intros pa Hpa. unfold in_physmap, riscv_physmap_start, riscv_physmap_gb, rv_physmap_target, div_ceil in *.
    rewrite Hr in *. cbn [fst snd] in *. change GIGAPAGE with 1073741824 in *. change MAX_PHYSMAP_ENTRIES with 511 in *.
    rewrite orb_true_iff, andb_true_iff, !Z.ltb_lt, Z.leb_le. right.
    unfold KERNEL_PHYSICAL_LOAD, MINIMUM_PHYSMAP_SIZE, DEVICE_TREE_BLOB_MAX_SIZE in *. divlia. }
  destruct (proj1 (wp_unfold _ _ _) (riscv_boot_mmu_wp st m dtb info Hst (proj1 Honly) H0 Hd))
    as ([] & m' & Hrun & low & Hbs & Hsame & Hsatp).
  exists m'. split_and!; [done|done|]. intros va Hva Hc.
  rewrite rv_translate_walk; [|apply (rv_boot_tree st Hst low _ _ m' Hbs); intros q t Hq;
    by apply (boot_tables st low _ _ m m' Hbs Honly Hsame q t)|done].
  do 2 f_equal. destruct (Z.leb_spec KERNEL_VIRTUAL_BASE va) as [Hk1|Hk1]; cbn [andb].
  - assert (rv_kernel_address va) as Hka by (unfold rv_kernel_address; lia).
    fold (root st). fold (rv_walk st m' va). rewrite (boot_walk_physmap st low dtb info _ m' va Hst Hbs Hka Hgb Hgb4).
    destruct (in_physmap dtb info (va - KERNEL_VIRTUAL_BASE)) eqn:Hin; [|done].
    apply resolve_gigapage; [done|]. by apply (in_physmap_bound dtb info).
  - rewrite (rv_boot_walk st Hst low _ _ m' Hbs). rewrite (proj2 (Z.eqb_neq _ _)); [done|].
    unfold is_canonical in Hc. change LOWER_CANONICAL_LIMIT with (2 ^ 47) in Hc.
    rewrite (proj2 (Z.leb_gt KERNEL_VIRTUAL_BASE va) Hk1), orb_false_r in Hc. apply Z.ltb_lt in Hc.
    change KERNEL_VPN3 with 256. unfold vpn3. rewrite index_mod by lia. divlia.
Qed.

(** ** A booted kernel *)

Section Boot.
Context `{PageLayout}.

(** A kernel that booted on RISC-V: the static tables are pages of the kernel
    image, and the page allocator came up on memory below the stack region. *)
Record riscv_booted (st : Statics) (info : HardwareInfo) (kernel_start kernel_end dtb : Z) (w : World Mmu) : Prop := {
  rb_ok : boot_ok info kernel_start kernel_end;
  rb_memory r : r ∈ memory_regions info -> region_base r + region_size r <= 511 * GIGAPAGE;
  rb_dtb : 0 <= dtb /\ dtb + DEVICE_TREE_BLOB_MAX_SIZE <= 511 * GIGAPAGE;
  rb_statics : statics_ok st /\ Forall (fun p => kernel_start <= p < kernel_end) (statics st);
  rb_mmu : exists m0, statics_only st m0 /\ riscv_boot_mmu st dtb info m0 = Done (tt, w_mmu w);
  rb_pmm : exists s, init info kernel_start kernel_end physical_to_virtual s = Done (Ok tt, w_pmm w);
  rb_slot : w_next_slot w = 0;
}.

Section Booted.
Context st info ks ke dtb w (Hboot : riscv_booted st info ks ke dtb w).

Lemma riscv_booted_state : exists low,
  rv_boot_state st None low (physmap_map dtb info) (riscv_physmap_gb dtb info) (w_mmu w) /\
  forall q t, tables (w_mmu w) !! q = Some t ->
    length t = TABLE_LEN /\ exists p, p ∈ statics st /\ q = physical_to_virtual p.
Proof.
  destruct Hboot as [_ _ [H0 Hd] [Hst _] (m0 & Honly & Hrun) _ _]. change GIGAPAGE with 1073741824 in Hd.
  pose proof (riscv_boot_mmu_wp st m0 dtb info Hst (proj1 Honly) H0 ltac:(lia)) as Hwp.
  destruct (wp_Done _ _ _ _ _ Hwp Hrun) as (low & Hbs & Hsame & _). exists low. split; [done|].
  exact (boot_tables st low _ _ m0 _ Hbs Honly Hsame).
Qed.

Lemma riscv_booted_walk va :
  rv_kernel_address va -> rv_walk st (w_mmu w) va =
    if in_physmap dtb info (va - KERNEL_VIRTUAL_BASE)
    then Some (2%nat, gigapage_entry (negb (vpn2 va =? 0)) (vpn2 va)) else None.
Proof.
  intros Hva. destruct riscv_booted_state as (low & Hbs & _).
  destruct (rb_dtb _ _ _ _ _ _ Hboot) as [H0 Hd]. change GIGAPAGE with 1073741824 in Hd.
  destruct (physmap_gb_bound dtb info H0 ltac:(lia)) as [[H4 H5] _].
  eapply boot_walk_physmap; [apply Hboot|exact Hbs|done..].
Qed.

Lemma riscv_booted_ok : statics_reserved (w_pmm w) st /\ exists l, rv_ok (w_pmm w) st w [] l.
Proof.
  destruct riscv_booted_state as (low & Hbs & Htabs).
  destruct Hboot as [Hok Hmem Hdtb [Hst Hin] _ [s Hinit] _]. change GIGAPAGE with 1073741824 in *.
  assert (forall r p, r ∈ memory_regions info -> region_base r <= p < region_base r + region_size r ->
    physical_to_virtual p = p + KERNEL_VIRTUAL_BASE) as Hlin.
  { intros r p Hr Hp. specialize (Hmem r Hr). pose proof (Forall_elem _ _ _ (bo_memory _ _ _ Hok) Hr) as Hrok.
    unfold region_ok, is_uint in Hrok. unfold physical_to_virtual, wrapping_add, KERNEL_VIRTUAL_BASE.
    apply Z.mod_small. lia. }
  pose proof (init_spec KERNEL_VIRTUAL_BASE info ks ke physical_to_virtual s Hok Hlin) as Hwp.
  destruct (wp_Done _ _ _ _ _ Hwp Hinit) as [[l Hready] Hcov]. split.
  - apply Forall_forall. intros p Hp. pose proof (Forall_elem _ _ _ Hin Hp : _ <= _ < _) as Hk.
    split; [apply (Forall_elem _ _ _ (so_page _ Hst) Hp)|]. apply Hcov. left. lia.
  - exists l. split; [by eapply ready_client| | |].
    + apply (rv_boot_tree st Hst low _ _ _ Hbs). intros q t Hq. by apply (Htabs q t).
    + intros q [t Hq]. right. by apply (Htabs q t).
    + intros va level e. unfold rv_walk. rewrite (rv_boot_walk st Hst low _ _ _ Hbs).
      case_match; [|done]. intros Hw. assert (level = 2%nat) as -> by congruence. done.
Qed.
End Booted.

(** ** Kernel stacks *)

(** The world in which stacks are created and dropped. *)
Abbreviation riscv_stack_step st :=
  (stack_step (map_kernel_stack_page st) (unmap_kernel_stack_page st) kernel_stack_region_base).

Lemma rv_stack_region_kernel va :
  kernel_stack_region_base <= va < kernel_stack_region_base + KERNEL_STACK_REGION_SIZE ->
  rv_kernel_address va /\ va - KERNEL_VIRTUAL_BASE >= 511 * GIGAPAGE.
Proof.
  unfold kernel_stack_region_base, rv_kernel_address, KERNEL_STACK_REGION_OFFSET.
  change (ENTRIES_PER_PAGE_TABLE - 1) with 511. change KERNEL_STACK_REGION_SIZE with 1073741824.
  change GIGAPAGE with 1073741824. unfold KERNEL_VIRTUAL_BASE. lia.
Qed.

(** A walk seen through the page-mapper interface. *)
Definition rv_space_resolve (va : VirtualAddress) (r : option (MappingSize * PhysicalAddress)) : option PhysicalAddress :=
  match r with
  | Some (sz, pa) => PhysicalAddress_checked_add pa (Z.land va (MappingSize_bytes sz - 1))
  | None => None
  end.

Lemma walk_is_valid T p idx level e : walk T p idx = Some (level, e) -> is_valid e = true.
Proof.
  revert p. induction idx as [|i idx IH]; intros p; [done|]. cbn [walk].
  destruct (entry_at T p i) as [e'|]; [|done]. cbn [e_valid e_leaf sv48_format].
  destruct (is_valid e') eqn:Hv; [cbn [negb]|done]. destruct idx as [|k idx]; [by intros [= _ <-]|].
  destruct (is_leaf e'); [by intros [= _ <-]|apply IH].
Qed.

Lemma rv_resolve_space s0 st w os l va :
  rv_ok s0 st w os l -> rv_space_resolve va (riscv_space st (w_mmu w) va) = resolve va (rv_walk st (w_mmu w) va).
Proof.
  intros Hok. unfold riscv_space, rv_walk.
  destruct (walk (tables (w_mmu w)) (root st) (vpns va)) as [[level e]|] eqn:Hw; [|done].
  pose proof (ro_levels _ _ _ _ _ Hok va level e Hw) as Hle. cbn. unfold output_plus.
  rewrite (output_valid e (walk_is_valid _ _ _ _ _ Hw)). by destruct level as [|[|[|level]]]; [..|lia].
Qed.
Lemma rv_translate_space s0 st w os l va :
  rv_ok s0 st w os l -> is_canonical va = true ->
  translate (root st) va (w_mmu w) = Done (rv_space_resolve va (riscv_space st (w_mmu w) va), w_mmu w).
Proof.
  intros Hok Hc. rewrite (rv_resolve_space s0 st w os l va Hok). by rewrite rv_translate_walk by (done || apply Hok).
Qed.

Lemma above_physmap dtb info pa :
  0 <= dtb /\ dtb + DEVICE_TREE_BLOB_MAX_SIZE <= 511 * GIGAPAGE -> pa >= 511 * GIGAPAGE ->
  in_physmap dtb info pa = false.
Proof.
  intros [H0 Hd] Hpa. destruct (physmap_gb_bound dtb info H0 ltac:(change GIGAPAGE with 1073741824 in Hd; lia)) as [_ Hgb].
  specialize (Hgb Hd). unfold in_physmap. change GIGAPAGE with 1073741824 in *.
  rewrite (proj2 (Z.ltb_ge pa 1073741824)), (proj2 (Z.ltb_ge pa (_ * _))) by lia. apply andb_false_r.
Qed.
Lemma riscv_region_vacant st info ks ke dtb w0 va :
  riscv_booted st info ks ke dtb w0 ->
  kernel_stack_region_base <= va < kernel_stack_region_base + KERNEL_STACK_REGION_SIZE ->
  riscv_space st (w_mmu w0) va = None.
Proof.
  intros Hboot Hva. destruct (rv_stack_region_kernel va Hva) as [Hka Hhi]. unfold riscv_space.
  rewrite (riscv_booted_walk st info ks ke dtb w0 Hboot va Hka).
  by rewrite (above_physmap dtb info _ (rb_dtb _ _ _ _ _ _ Hboot) Hhi).
Qed.

Section Reach.
Context st info ks ke dtb w0 (Hboot : riscv_booted st info ks ke dtb w0).
Let s0 := w_pmm w0.
Let Hres : statics_reserved s0 st := proj1 (riscv_booted_ok st info ks ke dtb w0 Hboot).

Lemma riscv_stack_region :
  @stack_region _ s0 _ _ _ (riscv_mapper s0 st Hres) kernel_stack_region_base.
Proof.
  split_and!; [vm_compute; discriminate|reflexivity|vm_compute; discriminate|].
  intros va Hva. by apply rv_stack_region_kernel.
Qed.

Lemma riscv_stacks_inv w stacks :
  rtc (riscv_stack_step st) (w0, []) (w, stacks) ->
  @stacks_inv _ s0 _ _ _ (riscv_mapper s0 st Hres) kernel_stack_region_base (riscv_space st (w_mmu w0)) w stacks.
Proof.
  intros Hrtc. pose proof (proj2 (riscv_booted_ok st info ks ke dtb w0 Hboot)) as Hok.
  apply (stacks_reachable s0 _ _ kernel_stack_region_base riscv_stack_region _ (w0, []) (w, stacks)); [|done].
  cbn [fst snd]. apply (@stacks_init _ s0 _ _ _ (riscv_mapper s0 st Hres) kernel_stack_region_base w0 []);
    [done|by rewrite (rb_slot _ _ _ _ _ _ Hboot)|].
  intros va _ Hva. exact (riscv_region_vacant st info ks ke dtb w0 va Hboot Hva).
Qed.

Lemma riscv_reached_ok w stacks :
  rtc (riscv_stack_step st) (w0, []) (w, stacks) -> exists os l, rv_ok s0 st w os l.
Proof.
  intros Hrtc. destruct (si_ok _ _ _ _ _ _ _ (riscv_stacks_inv w stacks Hrtc)) as [rest [l Hok]]. eauto.
Qed.

(** A page of the allocator mapped as a kernel page translates. *)
Lemma rv_translate_page w os l va pa :
  rv_ok s0 st w os l -> rv_kernel_address va -> managed s0 pa ->
  riscv_space st (w_mmu w) va = Some (Page4K, pa) ->
  pa mod PAGE_SIZE = 0 /\
  translate (root st) va (w_mmu w) = Done (Some (pa + va mod PAGE_SIZE), w_mmu w).
Proof.
  intros Hok Hka Hman Hsp. destruct (rv_managed s0 st w os l pa Hok Hman) as [Hal Hb]. split; [done|].
  rewrite (rv_translate_space s0 st w os l) by (done || by apply rv_kernel_canonical). rewrite Hsp.
  cbn [rv_space_resolve]. change (MappingSize_bytes Page4K - 1) with (2 ^ 12 - 1).
  rewrite land_mask by lia. change (2 ^ 12) with PAGE_SIZE. unfold PhysicalAddress_checked_add, checked_add.
  rewrite (proj2 (Z.ltb_lt _ _)); [done|]. pose proof (Z.mod_pos_bound va PAGE_SIZE eq_refl).
  unfold PAGE_SIZE in *. divlia.
Qed.
End Reach.

(** (C21) In every state that creating and dropping kernel stacks reaches on a
    booted RISC-V kernel, each live stack translates to the physical pages of
    its run, the guard page below it to nothing, no two live stacks share a
    physical address, and the physmap is as boot left it. *)
Theorem riscv_stacks_mapped st info ks ke dtb w0 w stacks :
  riscv_booted st info ks ke dtb w0 -> rtc (riscv_stack_step st) (w0, []) (w, stacks) ->
  (forall k va, k ∈ stacks -> in_stack k va -> exists pa,
    physical_of (w_pmm w0) (run_page (stack_pages k) ((va - stack_base k) / PAGE_SIZE)) = Some pa /\
    translate (root st) va (w_mmu w) = Done (Some (pa + va mod PAGE_SIZE), w_mmu w)) /\
  (forall k va, k ∈ stacks -> stack_base k - PAGE_SIZE <= va < stack_base k ->
    translate (root st) va (w_mmu w) = Done (None, w_mmu w)) /\
  (forall i j k1 k2 va1 va2 pa1 pa2, stacks !! i = Some k1 -> stacks !! j = Some k2 -> i <> j ->
    in_stack k1 va1 -> in_stack k2 va2 ->
    translate (root st) va1 (w_mmu w) = Done (Some pa1, w_mmu w) ->
    translate (root st) va2 (w_mmu w) = Done (Some pa2, w_mmu w) -> pa1 <> pa2) /\
  (forall pa, 0 <= pa < 511 * GIGAPAGE ->
    translate (root st) (physical_to_virtual pa) (w_mmu w) =
      Done (if in_physmap dtb info pa then Some pa else None, w_mmu w)).
Proof.
  intros Hboot Hrtc. pose proof (riscv_stacks_inv st info ks ke dtb w0 Hboot w stacks Hrtc) as Hinv.
  destruct (riscv_reached_ok st info ks ke dtb w0 Hboot w stacks Hrtc) as (os & l & Hok).
  destruct (stacks_summary _ _ _ _ (riscv_stack_region st info ks ke dtb w0 Hboot) _ w stacks Hinv) as (Hlive & Hguard & Hrest).
  assert (forall k va, k ∈ stacks -> in_stack k va -> exists pa,
    physical_of (w_pmm w0) (run_page (stack_pages k) ((va - stack_base k) / PAGE_SIZE)) = Some pa /\
    pa mod PAGE_SIZE = 0 /\ riscv_space st (w_mmu w) va = Some (Page4K, pa) /\
    translate (root st) va (w_mmu w) = Done (Some (pa + va mod PAGE_SIZE), w_mmu w)) as Hpage.
  { intros k va Hk Hin. destruct (Hlive k va Hk Hin) as (Hka & pa & Hman & Hp & Hsp). exists pa.
    destruct (rv_translate_page st w0 w os l va pa Hok Hka Hman Hsp) as [Hal Ht]. by split_and!. }
  split_and!.
  - intros k va Hk Hin. destruct (Hpage k va Hk Hin) as (pa & Hp & _ & _ & Ht). by exists pa.
  - intros k va Hk Hva. destruct (Hguard k va Hk Hva) as [Hka Hsp]. cbn in Hsp.
    rewrite (rv_translate_space _ st w os l va Hok) by (by apply rv_kernel_canonical). by rewrite Hsp.
  - intros i j k1 k2 va1 va2 pa1 pa2 Hi Hj Hne H1 H2 T1 T2.
    destruct (Hpage k1 va1 (list_elem_of_lookup_2 _ _ _ Hi) H1) as (p1 & _ & A1 & S1 & E1).
    destruct (Hpage k2 va2 (list_elem_of_lookup_2 _ _ _ Hj) H2) as (p2 & _ & A2 & S2 & E2).
    rewrite E1 in T1. rewrite E2 in T2. injection T1 as <-. injection T2 as <-.
    pose proof (stacks_apart _ _ _ _ _ w stacks i j k1 k2 va1 va2 p1 p2 Hinv Hi Hj Hne H1 H2 S1 S2) as Hap.
    unfold PAGE_SIZE in *. divlia.
  - intros pa Hpa. change GIGAPAGE with 1073741824 in Hpa.
    assert (physical_to_virtual pa = KERNEL_VIRTUAL_BASE + pa) as Hva
      by (unfold physical_to_virtual, wrapping_add, KERNEL_VIRTUAL_BASE in *; rewrite Z.mod_small by lia; lia).
    assert (rv_kernel_address (physical_to_virtual pa)) as Hka
      by (rewrite Hva; unfold rv_kernel_address, KERNEL_VIRTUAL_BASE; lia).
    assert (~ kernel_stack_region_base <= physical_to_virtual pa < kernel_stack_region_base + KERNEL_STACK_REGION_SIZE) as Hout.
    { intros Hreg. apply rv_stack_region_kernel in Hreg as [_ Hge]. rewrite Hva in Hge.
      change GIGAPAGE with 1073741824 in Hge. lia. }
    specialize (Hrest _ Hka Hout). cbn in Hrest. pose proof (proj2 (riscv_booted_ok st info ks ke dtb w0 Hboot)) as [l0 Hok0].
    rewrite (rv_translate_space _ st w os l _ Hok) by (by apply rv_kernel_canonical). rewrite Hrest.
    rewrite (rv_resolve_space _ st w0 [] l0 _ Hok0), (riscv_booted_walk st info ks ke dtb w0 Hboot _ Hka).
    replace (physical_to_virtual pa - KERNEL_VIRTUAL_BASE) with pa by lia.
    destruct (in_physmap dtb info pa); [|done]. rewrite resolve_gigapage by (done || lia). do 3 f_equal. lia.
Qed.
End Boot.

(** ** Refinement of an abstract address space *)

Section Refinement.
Context `{PageLayout} (st : Statics).

(** The kernel's call. *)
Definition rv_do_op (op : space_op) : M (World Mmu) op_result :=
  match op with
  | MapOp va pa p =>
      let! r := map_kernel_page_with_alloc allocate_page_table st va pa p in ret (MapResult r)
  | UnmapOp va => let! r := unmap_kernel_page st va in ret (UnmapResult r)
  end.
Definition rv_kernel_step (w : World Mmu) (op : space_op) (res : op_result) (w' : World Mmu) : Prop :=
  rv_do_op op w = Done (res, w').
Abbreviation riscv_space_step := (space_step_to rv_map_spec rv_unmap_spec).

Lemma rv_do_op_wp s0 (Hres : statics_reserved s0 st) w os l op :
  rv_ok s0 st w os l ->
  wp (rv_do_op op) (fun res w' => (exists os' l', rv_ok s0 st w' os' l') /\
    riscv_space_step (rv_walk st (w_mmu w)) op res (rv_walk st (w_mmu w'))) w.
Proof.
  intros Hok. destruct op as [va pa p|va]; cbn [rv_do_op]; apply wp_bind.
  - eapply wp_mono; [exact (rv_map_page_spec s0 st Hres w os l va pa p Hok)|].
    intros r w' (os' & A' & [[l' Hok'] _ Hsp _ _] & Hspec). apply wp_ret. split; [by eauto|].
    destruct Hspec as [Hspec|(-> & -> & Hspec)].
    + replace r with (rv_map_spec (rv_walk st (w_mmu w)) va pa p).1 by (by rewrite <-Hspec).
      apply space_map. rewrite <-Hspec. exact Hsp.
    + apply space_map_no_memory; [exact Hspec|exact Hsp].
  - eapply wp_mono; [exact (rv_unmap_kernel_spec s0 st w os l va Hok)|].
    intros r w' ([[l' Hok'] _ Hsp _ _] & ->). apply wp_ret. split; [by eauto|]. by apply space_unmap.
Qed.

(** (C20) Mapping and unmapping kernel pages on a booted RISC-V kernel refines an
    abstract address space: the results of any sequence of calls and the
    resulting translations are those of the abstract operations, except that a
    mapping may be refused for lack of memory without effect; in every state
    that is reached every call returns; and a table is never a page that the
    allocator could hand out again: it is a static or a leaked page. *)
Theorem riscv_mapping_refines info ks ke dtb w0 tr w :
  riscv_booted st info ks ke dtb w0 -> run_of rv_kernel_step w0 tr w ->
  run_of riscv_space_step (rv_walk st (w_mmu w0)) tr (rv_walk st (w_mmu w)) /\
  (forall op, exists res w', rv_kernel_step w op res w') /\
  (forall va, is_canonical va = true ->
    translate (root st) va (w_mmu w) = Done (resolve va (rv_walk st (w_mmu w) va), w_mmu w)) /\
  exists os l, client_inv (w_pmm w0) (w_pmm w) os l /\
    forall p, is_Some (tables (w_mmu w) !! p) ->
      (exists h phys, HoldLeaked h phys ∈ os /\ p = physical_to_virtual phys) \/
      (exists phys, phys ∈ statics st /\ p = physical_to_virtual phys).
Proof.
  intros Hboot Hrun. destruct (riscv_booted_ok st info ks ke dtb w0 Hboot) as [Hres Hok].
  destruct (run_refines rv_map_spec rv_unmap_spec rv_do_op (fun w => exists os l, rv_ok (w_pmm w0) st w os l)
    (fun w => rv_walk st (w_mmu w)) w0 tr w) as (Hr & (os & l & Hok') & Hcalls); [|by eauto|exact Hrun|].
  - intros w1 op (os & l & Hok1). by apply (rv_do_op_wp _ Hres w1 os l).
  - split_and!; [done|done| |].
    + intros va Hc. by apply rv_translate_walk; [apply Hok'|].
    + exists os, l. split; apply Hok'.
Qed.
End Refinement.

(** ** Entries *)

Lemma pack_bit flags pa i : 0 <= i < 10 -> Z.testbit (pack flags pa) i = Z.testbit flags i.
Proof.
  intros Hi. unfold pack. rewrite Z.lor_spec, Z.shiftl_spec_low by lia. apply orb_false_r.
Qed.

(** The Sv48 entry of a mapping holds what was asked for: it is a valid
    readable leaf with the accessed bit, its output address reads back for every
    64-bit address, it is writable and dirty exactly when the mapping is
    writable, executable when it is, and either a user or a global page.  The
    entry of a table at that address is a branch that reads back. *)
Theorem riscv_entry_round_trip {S} pa sz mem p intent (s : S) :
  MappingIntent_new pa sz mem p = Some intent -> 0 <= pa < 2 ^ 64 ->
  (exists e, from_mapping intent s = Done (e, s) /\
    output_address e = Some pa /\ is_leaf e = true /\ is_branch e = false /\
    Z.testbit e 1 = true /\ Z.testbit e 2 = writable p /\ Z.testbit e 3 = executable p /\
    Z.testbit e 4 = user_accessible p /\ Z.testbit e 5 = negb (user_accessible p) /\
    Z.testbit e 6 = true /\ Z.testbit e 7 = writable p) /\
  exists b, branch pa = Some b /\ output_address b = Some pa /\ is_branch b = true /\ is_leaf b = false.
Proof.
  intros Hnew Hpa. destruct (MappingIntent_new_Some _ _ _ _ _ Hnew) as (Hi1 & Hi2 & Hi3 & Hi4 & Hal).
  assert (pa mod PAGE_SIZE = 0) as Hpg by (destruct sz; cbn in Hal; unfold PAGE_SIZE in *; divlia). split.
  - eexists. split; [apply rv_from_mapping_spec; by rewrite Hi1|]. rewrite Hi1, Hi4.
    destruct (rv_leaf_entry_spec pa p) as (Hv & Hl & Ho). unfold is_branch. rewrite (output_valid _ Hv), Ho, Hv, Hl by done.
    split_and!; try done; unfold leaf_entry; rewrite pack_bit by lia; by destruct p as [[] [] []].
  - exists (branch_entry pa). destruct (branch_entry_spec pa) as (Hv & Hl & Ho). unfold is_branch.
    rewrite (output_valid _ Hv), Ho, Hv, Hl by done. split_and!; try done. by apply branch_spec.
Qed.

(** ** Witnesses: a machine with sixteen pages *)

#[local] Existing Instance small_layout.

Definition small_statics : Statics := {|
  ROOT_TABLE := 0x80201000; IDENTITY_L2_TABLE := 0x80202000; PHYSMAP_L2_TABLE := 0x80203000 |}.
Definition riscv_reset_mmu : Mmu := {|
  tables := list_to_map ((fun p => (physical_to_virtual p, replicate 512 0)) <$> statics small_statics);
  physmap_end_gb := 0; tlb := []; satp := 0 |}.
Definition small_riscv_mmu : Mmu :=
  match riscv_boot_mmu small_statics 0x88000000 small_info riscv_reset_mmu with
  | Done (_, m) => m
  | _ => riscv_reset_mmu
  end.
Definition small_riscv_pmm : Pmm :=
  match init small_info 0x80200000 0x80210000 physical_to_virtual (Pmm_empty ∅) with
  | Done (_, s) => s
  | _ => Pmm_empty ∅
  end.
Definition small_riscv_world : World Mmu :=
  {| w_pmm := small_riscv_pmm; w_next_slot := 0; w_mmu := small_riscv_mmu |}.

Lemma small_statics_ok : statics_ok small_statics.
Proof.
  split.
  - apply (bool_decide_unpack _). vm_compute. exact I.
  - repeat constructor; vm_compute; (discriminate || reflexivity).
Qed.
Lemma small_statics_only : statics_only small_statics riscv_reset_mmu.
Proof.
  split.
  - repeat constructor; (eexists; split; [vm_compute; reflexivity|done]).
  - intros q [t Hq]. unfold riscv_reset_mmu in Hq. cbn [tables] in Hq.
    apply elem_of_list_to_map_2, list_elem_of_fmap in Hq as (p & [= -> ->] & Hp). by exists p.
Qed.

Lemma small_riscv_booted : riscv_booted small_statics small_info 0x80200000 0x80210000 0x88000000 small_riscv_world.
Proof.
  split.
  - split; vm_compute; repeat constructor; done.
  - intros r Hr. vm_compute in Hr. apply list_elem_of_singleton in Hr as ->. vm_compute. discriminate.
  - split; vm_compute; discriminate.
  - split; [exact small_statics_ok|]. repeat constructor; vm_compute; (discriminate || reflexivity).
  - exists riscv_reset_mmu. split; [exact small_statics_only|]. vm_compute. reflexivity.
  - exists (Pmm_empty ∅). vm_compute. reflexivity.
  - reflexivity.
Qed.

Definition small_riscv_stack_run :=
  create_mapped kernel_stack_region_base (map_kernel_stack_page small_statics)
    (unmap_kernel_stack_page small_statics) small_riscv_world.
Definition small_riscv_stack_world : World Mmu :=
  match small_riscv_stack_run with Done (_, w) => w | _ => small_riscv_world end.
Definition small_riscv_stack : KernelStack :=
  match small_riscv_stack_run with
  | Done (Ok k, _) => k
  | _ => {| stack_pages := {| run_head := PageHandle_new 0 0; run_count := 0 |}; stack_base := 0;
            stack_size := 0; stack_unmap := false |}
  end.

Lemma small_riscv_stack_run_ok :
  create_mapped kernel_stack_region_base (map_kernel_stack_page small_statics)
    (unmap_kernel_stack_page small_statics) small_riscv_world =
  Done (Ok small_riscv_stack, small_riscv_stack_world).
Proof. vm_compute. reflexivity. Qed.

Lemma small_riscv_stack_reached :
  rtc (stack_step (map_kernel_stack_page small_statics) (unmap_kernel_stack_page small_statics)
         kernel_stack_region_base)
    (small_riscv_world, []) (small_riscv_stack_world, [small_riscv_stack]).
Proof. apply rtc_once, stack_step_create; [vm_compute; reflexivity|exact small_riscv_stack_run_ok]. Qed.

Lemma riscv_stacks_mapped_witness :
  exists pa,
    physical_of (w_pmm small_riscv_world) (run_page (stack_pages small_riscv_stack)
      ((stack_base small_riscv_stack + 4100 - stack_base small_riscv_stack) / PAGE_SIZE)) = Some pa /\
    translate (root small_statics) (stack_base small_riscv_stack + 4100) (w_mmu small_riscv_stack_world) =
      Done (Some (pa + (stack_base small_riscv_stack + 4100) mod PAGE_SIZE), w_mmu small_riscv_stack_world).
Proof.
  exact (proj1 (riscv_stacks_mapped small_statics small_info 0x80200000 0x80210000 0x88000000 small_riscv_world
    small_riscv_stack_world [small_riscv_stack] small_riscv_booted small_riscv_stack_reached) small_riscv_stack
    (stack_base small_riscv_stack + 4100) ltac:(left) ltac:(split; vm_compute; [discriminate|reflexivity])).
Defined.

Lemma riscv_boot_physmap_witness :
  exists m', riscv_boot_mmu small_statics 0x88000000 small_info riscv_reset_mmu = Done (tt, m') /\
    translate (static_table (ROOT_TABLE small_statics)) (physical_to_virtual 0x80001234) m' = Done (Some 0x80001234, m') /\
    translate (static_table (ROOT_TABLE small_statics)) 0x80001234 m' = Done (None, m').
Proof.
  destruct (proj2 (riscv_boot_physmap small_statics riscv_reset_mmu 0x88000000 small_info small_statics_ok
    small_statics_only ltac:(discriminate) ltac:(vm_compute; discriminate))) as (m' & Hrun & _ & Ht).
  exists m'. split; [exact Hrun|]. split.
  - exact (Ht (physical_to_virtual 0x80001234) ltac:(split; [discriminate|reflexivity]) eq_refl).
  - exact (Ht 0x80001234 ltac:(split; [discriminate|reflexivity]) eq_refl).
Defined.

Lemma riscv_mapping_refines_witness :
  exists res w', rv_do_op small_statics (MapOp 0xffffffc000000000 0x80003000 KERNEL_READ_WRITE) small_riscv_world =
    Done (res, w').
Proof.
  exact (proj1 (proj2 (riscv_mapping_refines small_statics small_info 0x80200000 0x80210000 0x88000000
    small_riscv_world [] small_riscv_world small_riscv_booted (run_nil _ _))) _).
Defined.

Lemma riscv_entry_round_trip_witness :
  exists e, from_mapping {| physical_address := 0x80003000; Address.size := Page4K; memory := Normal;
                            permissions := KERNEL_READ_WRITE |} tt = Done (e, tt) /\
    output_address e = Some 0x80003000.
Proof.
  destruct (proj1 (riscv_entry_round_trip 0x80003000 Page4K Normal KERNEL_READ_WRITE _ tt
    (MappingIntent_new_page 0x80003000 Normal KERNEL_READ_WRITE eq_refl)
    ltac:(split; [discriminate|reflexivity]))) as (e & Hrun & Ho & _).
  exists e. split; [exact Hrun|exact Ho].
Defined.
