(* ===== verification/Entry.v ===== *)
(** * The boot stubs

    Models [_start] of [arch/aarch64/boot.rs] and [arch/riscv64/boot.rs] with
    [BOOT_HART_CLAIM] of [main.rs]: the programs that every hart runs from reset,
    instruction by instruction, on a machine whose harts interleave in any order
    and share their memory; and the interrupt masks of [arch/*/cpu.rs]. *)

From S2P Require Import Prelude Address Sync.
From S2P Require Arm64Mmu RiscvMmu.
From stdpp Require Import base tactics option list list_numbers numbers strings.

#[local] Open Scope Z_scope.
#[local] Open Scope kernel_scope.

(** ** The machine *)

(** The instructions of the two stubs.  [adrp]/[add :lo12:] and [la] are
    [Address]: they give the address of a symbol relative to the program counter,
    so its load address; [str xzr, [r], #8] is [StoreZeroNext]. *)
Inductive boot_instr (R : Type) :=
  | Address (rd : R) (symbol : Z)
  | Constant (rd : R) (v : Z)
  | Insert16 (rd : R) (v shift : Z)
  | Copy (rd rs : R)
  | AndImm (rd rs : R) (v : Z)
  | AddImm (rd rs : R) (v : Z)
  | AddReg (rd r1 r2 : R)
  | ReadId (rd : R)
  | FetchAdd (rd rs base : R)
  | Compare (r1 r2 : R)
  | BranchAbove (label : nat)
  | BranchAboveEqual (r1 r2 : R) (label : nat)
  | BranchNonZero (r : R) (label : nat)
  | StoreZero (base : R)
  | StoreZeroNext (base : R)
  | WriteControl (r : R)
  | ClearStatus (r : R)
  | Barrier
  | CallInit
  | JumpTo (label : nat)
  | LeaveTo (r : R)
  | WaitInterrupt.
Arguments Address {R}. Arguments Constant {R}. Arguments Insert16 {R}. Arguments Copy {R}. Arguments AndImm {R}.
Arguments AddImm {R}. Arguments AddReg {R}. Arguments ReadId {R}. Arguments FetchAdd {R}. Arguments Compare {R}.
Arguments BranchAbove {R}. Arguments BranchAboveEqual {R}. Arguments BranchNonZero {R}. Arguments StoreZero {R}.
Arguments StoreZeroNext {R}. Arguments WriteControl {R}. Arguments ClearStatus {R}. Arguments Barrier {R}.
Arguments CallInit {R}. Arguments JumpTo {R}. Arguments LeaveTo {R}. Arguments WaitInterrupt {R}.

(** Where a hart is: in the stub, or gone to an address. *)
Inductive place := At (pc : nat) | Gone (address : Z).
Record Hart (R : Type) := {
  h_id : Z;                 (* [mpidr_el1] *)
  h_regs : R -> Z;          (* the registers that the stub names *)
  h_carry : bool;           (* the carry flag of [cmp] *)
  h_status : Z;             (* [cpacr_el1] or [sstatus] *)
  h_place : place;
}.
Arguments h_id {R}. Arguments h_regs {R}. Arguments h_carry {R}. Arguments h_status {R}. Arguments h_place {R}.

(** A call of [rust_*_phys_init], as it found the machine. *)
Record InitCall := { i_hart : nat; i_dtb : Z; i_sp : Z; i_memory : Z -> Z }.
(** The harts, the words of memory by address, and the calls so far. *)
Record Machine (R : Type) := { m_harts : list (Hart R); m_memory : Z -> Z; m_inits : list InitCall }.
Arguments m_harts {R}. Arguments m_memory {R}. Arguments m_inits {R}.

Section Machine.
Context {R : Type} `{EqDecision R}.
(** The registers of the calling convention, and what the compiled [phys_init]
    does to registers and memory. *)
Context (argument stack : R) (init : (R -> Z) -> (Z -> Z) -> (R -> Z) * (Z -> Z)).
Context (program : list (boot_instr R)).

Definition put_reg (r : R) (v : Z) (h : Hart R) : Hart R := {|
  h_id := h_id h; h_regs := fun r' => if decide (r' = r) then v else h_regs h r';
  h_carry := h_carry h; h_status := h_status h; h_place := h_place h |}.
Definition put_carry (b : bool) (h : Hart R) : Hart R := {|
  h_id := h_id h; h_regs := h_regs h; h_carry := b; h_status := h_status h; h_place := h_place h |}.
Definition put_status (v : Z) (h : Hart R) : Hart R := {|
  h_id := h_id h; h_regs := h_regs h; h_carry := h_carry h; h_status := v; h_place := h_place h |}.
Definition put_place (p : place) (h : Hart R) : Hart R := {|
  h_id := h_id h; h_regs := h_regs h; h_carry := h_carry h; h_status := h_status h; h_place := p |}.
Definition put_regs (regs : R -> Z) (h : Hart R) : Hart R := {|
  h_id := h_id h; h_regs := regs; h_carry := h_carry h; h_status := h_status h; h_place := h_place h |}.
Definition put_word (a v : Z) (memory : Z -> Z) : Z -> Z := fun b => if b =? a then v else memory b.

(** The instruction at [pc] on hart [j]: the hart, the memory and the calls after
    it. *)
Definition exec_boot (j : nat) (i : boot_instr R) (pc : nat) (h : Hart R) (memory : Z -> Z) : Hart R * (Z -> Z) * list InitCall :=
  let reg := h_regs h in
  let next h := (put_place (At (S pc)) h, memory, []) in
  match i with
  | Address rd symbol => next (put_reg rd symbol h)
  | Constant rd v => next (put_reg rd v h)
  | Insert16 rd v shift =>
      next (put_reg rd (Z.lor (Z.ldiff (reg rd) (Z.shiftl 0xffff shift)) (Z.shiftl v shift)) h)
  | Copy rd rs => next (put_reg rd (reg rs) h)
  | AndImm rd rs v => next (put_reg rd (Z.land (reg rs) v) h)
  | AddImm rd rs v => next (put_reg rd (wrapping_add 64 (reg rs) v) h)
  | AddReg rd r1 r2 => next (put_reg rd (wrapping_add 64 (reg r1) (reg r2)) h)
  | ReadId rd => next (put_reg rd (h_id h) h)
  | FetchAdd rd rs base =>
      (put_place (At (S pc)) (put_reg rd (memory (reg base)) h),
       put_word (reg base) (wrapping_add 64 (memory (reg base)) (reg rs)) memory, [])
  | Compare r1 r2 => next (put_carry (reg r2 <=? reg r1) h)
  | BranchAbove label => (put_place (At (if h_carry h then label else S pc)) h, memory, [])
  | BranchAboveEqual r1 r2 label => (put_place (At (if reg r2 <=? reg r1 then label else S pc)) h, memory, [])
  | BranchNonZero r label => (put_place (At (if reg r =? 0 then S pc else label)) h, memory, [])
  | StoreZero base => (put_place (At (S pc)) h, put_word (reg base) 0 memory, [])
  | StoreZeroNext base =>
      (put_place (At (S pc)) (put_reg base (wrapping_add 64 (reg base) 8) h), put_word (reg base) 0 memory, [])
  | WriteControl r => next (put_status (reg r) h)
  | ClearStatus r => next (put_status (Z.ldiff (h_status h) (reg r)) h)
  | Barrier => next h
  | CallInit =>
      let '(regs, memory') := init reg memory in
      (put_place (At (S pc)) (put_regs regs h), memory',
       [{| i_hart := j; i_dtb := reg argument; i_sp := reg stack; i_memory := memory |}])
  | JumpTo label => (put_place (At label) h, memory, [])
  | LeaveTo r => (put_place (Gone (reg r)) h, memory, [])
  | WaitInterrupt => next h
  end.

(** Hart [j] executes its next instruction; a hart that left the stub is no
    longer its business. *)
Definition boot_step (j : nat) (m : Machine R) : Machine R :=
  match m_harts m !! j with
  | None => m
  | Some h =>
      match h_place h with
      | Gone _ => m
      | At pc =>
          match program !! pc with
          | None => m
          | Some i =>
              let '(h', memory, calls) := exec_boot j i pc h (m_memory m) in
              {| m_harts := <[j := h']> (m_harts m); m_memory := memory; m_inits := calls ++ m_inits m |}
          end
      end
  end.
(** The harts take steps in the order of a schedule. *)
Definition run_schedule (schedule : list nat) (m : Machine R) : Machine R := foldl (fun m j => boot_step j m) m schedule.
End Machine.

(** ** ARM64 *)

Module Arm64Entry.
Inductive Reg := X0 | X1 | X16 | X19 | Sp.
#[global] Instance Reg_eq_dec : EqDecision Reg.
Proof. solve_decision. Defined.

(** The symbols' load addresses. *)
Definition arm64_start (stack_top bss_start bss_end rust_arm64_main : Z) : list (boot_instr Reg) :=
  [ Copy X19 X0; ReadId X1; AndImm X1 X1 0xff; BranchNonZero X1 26;
    Address X0 stack_top; Copy Sp X0;
    Constant X0 0; WriteControl X0; Barrier;
    Address X0 bss_start; Address X1 bss_end;
    (* 1: *) Compare X0 X1; BranchAbove 15; StoreZeroNext X0; JumpTo 11;
    (* 3: *) Copy X0 X19; CallInit;
    Address X0 stack_top; Constant X1 0; Insert16 X1 0xff80 32; Insert16 X1 0xffff 48; AddReg Sp X0 X1;
    Address X16 rust_arm64_main; AddReg X16 X16 X1; Copy X0 X19; LeaveTo X16;
    (* 2: *) WaitInterrupt; JumpTo 26 ].
End Arm64Entry.

(** ** RISC-V *)

Module Riscv64Entry.
Inductive Reg := Gp | Rsp | A0 | A1 | S0 | S1 | T0 | T1 | T2.
#[global] Instance Reg_eq_dec : EqDecision Reg.
Proof. solve_decision. Defined.

Definition riscv64_start (global_pointer boot_hart_claim stack_top bss_start bss_end rust_riscv64_main : Z) : list (boot_instr Reg) :=
  [ Address Gp global_pointer; Copy S0 A0; Copy S1 A1;
    Address T0 boot_hart_claim; Constant T1 1; FetchAdd T2 T1 T0; BranchNonZero T2 26;
    Address Rsp stack_top; Constant T0 (Z.shiftl 3 13); ClearStatus T0;
    Address T0 bss_start; Address T1 bss_end;
    (* 1: *) BranchAboveEqual T0 T1 16; StoreZero T0; AddImm T0 T0 8; JumpTo 12;
    (* 3: *) Copy A0 S1; CallInit;
    Constant T0 0xffff800000000000; Address Rsp stack_top; AddReg Rsp Rsp T0;
    Address T1 rust_riscv64_main; AddReg T1 T1 T0; Copy A0 S0; Copy A1 S1; LeaveTo T1;
    (* 2: *) WaitInterrupt; JumpTo 26 ].
End Riscv64Entry.

(** ** Interrupt masks *)

(** [arch/aarch64/cpu.rs] on the register DAIF: [daifset] and [daifclr] shift
    their mask to bit 6. *)
Definition DAIF_IRQ_MASK : Z := 2.
Definition arm64_enable_interrupts : M Z unit := modify (fun daif => Z.ldiff daif (Z.shiftl DAIF_IRQ_MASK 6)).
Definition arm64_disable_interrupts : M Z bool :=
  let! daif := gets (fun daif => daif) in
  modify (fun daif => Z.lor daif (Z.shiftl DAIF_IRQ_MASK 6)) ;;;
  ret (Z.land daif (Z.shiftl 1 7) =? 0).
Definition arm64_restore_interrupts (was_enabled : bool) : M Z unit := if was_enabled then arm64_enable_interrupts else ret tt.

(** [arch/riscv64/cpu.rs] on the register sstatus. *)
Definition SUPERVISOR_INTERRUPT_ENABLE : Z := 2.
Definition riscv_enable_interrupts : M Z unit := modify (fun sstatus => Z.lor sstatus SUPERVISOR_INTERRUPT_ENABLE).
Definition riscv_disable_interrupts : M Z bool :=
  let! sstatus := gets (fun sstatus => sstatus) in
  modify (fun sstatus => Z.ldiff sstatus SUPERVISOR_INTERRUPT_ENABLE) ;;;
  ret (negb (Z.land sstatus SUPERVISOR_INTERRUPT_ENABLE =? 0)).
Definition riscv_restore_interrupts (was_enabled : bool) : M Z unit := if was_enabled then riscv_enable_interrupts else ret tt.
