(* ===== verification/EntryTheorems.v ===== *)
(** * One hart boots

    However the harts interleave, exactly one of them leaves the boot stub for
    the kernel, with the bss cleared and on the boot stack in the higher half;
    every other hart waits forever. *)

From S2P Require Import Prelude Address Sync Entry.
From S2P Require Arm64Mmu RiscvMmu.
From stdpp Require Import base tactics option list list_numbers numbers strings.

#[local] Open Scope Z_scope.
#[local] Open Scope kernel_scope.

(** ** Harts of which one owns the machine *)

Section Owner.
Context {R : Type} `{EqDecision R} (argument stack : R) (init : (R -> Z) -> (Z -> Z) -> (R -> Z) * (Z -> Z)).
Context (program : list (boot_instr R)) (bss_start bss_end dtb stack_top : Z).
(** What holds of a hart, given the memory; whether it may write to memory and
    call [phys_init]; whether it did; the steps it still takes in the stub. *)
Context (annot : Hart R -> (Z -> Z) -> Prop) (owner called : Hart R -> Prop) (remaining : Hart R -> nat).
Abbreviation exec := (exec_boot argument stack init).
Abbreviation boot_step := (boot_step argument stack init program).
Abbreviation run_schedule := (run_schedule argument stack init program).
Implicit Types (h : Hart R) (m : Machine R) (memory : Z -> Z).

Definition bss_zero memory : Prop := forall a, bss_start <= a < bss_end -> (a - bss_start) mod 8 = 0 -> memory a = 0.
Definition good_call (j : nat) (c : InitCall) : Prop :=
  i_hart c = j /\ i_dtb c = dtb /\ i_sp c = stack_top /\ bss_zero (i_memory c).
Definition same_bss memory memory' : Prop := forall a, bss_start <= a < bss_end -> memory' a = memory a.

(** The step of a hart leaves the other harts' business alone. *)
Record local_step (j : nat) h memory h' memory' (calls : list InitCall) : Prop := {
  ls_annot : annot h' memory';
  ls_remaining : (remaining h' <= pred (remaining h))%nat;
  ls_memory : ~ owner h -> same_bss memory memory';
  ls_calls : (calls = [] /\ (called h' <-> called h)) \/
    (exists c, calls = [c] /\ good_call j c /\ ~ called h /\ called h' /\ owner h);
}.
Hypothesis local : forall j h pc i memory, annot h memory -> h_place h = At pc -> program !! pc = Some i ->
  let '(h', memory', calls) := exec j i pc h memory in local_step j h memory h' memory' calls.
Hypothesis annot_bss : forall h memory memory', annot h memory -> same_bss memory memory' -> annot h memory'.
Hypothesis annot_other : forall h memory memory', annot h memory -> ~ owner h -> annot h memory'.
Hypothesis called_owner : forall h, called h -> owner h.
Hypothesis owner_dec : forall h, owner h \/ ~ owner h.

Definition one_owner (harts : list (Hart R)) : Prop := forall j1 h1 j2 h2,
  harts !! j1 = Some h1 -> harts !! j2 = Some h2 -> owner h1 -> owner h2 -> j1 = j2.
Record machine_inv m : Prop := {
  mi_annot j h : m_harts m !! j = Some h -> annot h (m_memory m);
  mi_called j h : m_harts m !! j = Some h -> called h -> exists c, m_inits m = [c] /\ good_call j c;
  mi_uncalled : m_inits m = [] \/ exists j h, m_harts m !! j = Some h /\ called h;
}.

Lemma step_cases j m :
  (boot_step j m = m /\ forall h pc i, m_harts m !! j = Some h -> h_place h = At pc -> program !! pc = Some i -> False) \/
  exists h pc i, m_harts m !! j = Some h /\ h_place h = At pc /\ program !! pc = Some i.
Proof.
  unfold Entry.boot_step. destruct (m_harts m !! j) as [h|] eqn:Hj; [|by left].
  destruct (h_place h) as [pc|] eqn:Hp; [|left; split; [done|]; intros; congruence].
  destruct (program !! pc) as [i|] eqn:Hi; [|left; split; [done|]; intros; congruence]. right. by exists h, pc, i.
Qed.
Lemma step_run j m h pc i h' memory' calls :
  m_harts m !! j = Some h -> h_place h = At pc -> program !! pc = Some i -> exec j i pc h (m_memory m) = (h', memory', calls) ->
  boot_step j m = {| m_harts := <[j := h']> (m_harts m); m_memory := memory'; m_inits := calls ++ m_inits m |}.
Proof. intros Hj Hp Hi He. unfold Entry.boot_step. by rewrite Hj, Hp, Hi, He. Qed.

(** Looking at a hart after the step of one. *)
Lemma lookup_after (harts : list (Hart R)) j h h' k x :
  harts !! j = Some h -> <[j := h']> harts !! k = Some x -> (k = j /\ x = h') \/ (k <> j /\ harts !! k = Some x).
Proof.
  intros Hj Hk. destruct (decide (k = j)) as [->|Hne].
  - rewrite list_lookup_insert_eq in Hk by (by eapply lookup_lt_Some). left. split; [done|congruence].
  - rewrite list_lookup_insert_ne in Hk by done. by right.
Qed.

(** A hart keeps its identity. *)
Lemma exec_id j (i : boot_instr R) pc h memory : h_id (exec j i pc h memory).1.1 = h_id h.
Proof. destruct i; cbn; try done. by destruct (init (h_regs h) memory). Qed.
Lemma step_id j m k h' : m_harts (boot_step j m) !! k = Some h' -> exists h, m_harts m !! k = Some h /\ h_id h' = h_id h.
Proof.
  destruct (step_cases j m) as [[-> _]|(h & pc & i & Hj & Hp & Hi)]; [by exists h'|].
  pose proof (exec_id j i pc h (m_memory m)) as Hid. destruct (exec j i pc h (m_memory m)) as [[h1 memory'] calls] eqn:He.
  rewrite (step_run j m h pc i h1 memory' calls Hj Hp Hi He). cbn [m_harts].
  intros [[-> ->]|[_ Hk]]%(lookup_after _ _ _ _ _ _ Hj); [by exists h|by exists h'].
Qed.

Lemma schedule_id schedule m k h' :
  m_harts (run_schedule schedule m) !! k = Some h' -> exists h, m_harts m !! k = Some h /\ h_id h' = h_id h.
Proof.
  unfold Entry.run_schedule. revert m. induction schedule as [|j schedule IH]; intros m; cbn [foldl]; [by exists h'|].
  intros (h1 & Hk1 & ->)%IH. by apply step_id in Hk1.
Qed.

Lemma owner_step_inv j m : machine_inv m -> one_owner (m_harts m) -> machine_inv (boot_step j m).
Proof.
  intros [Ha Hc Hu] Hone. destruct (step_cases j m) as [[-> _]|(h & pc & i & Hj & Hp & Hi)]; [done|].
  pose proof (local j h pc i (m_memory m) (Ha _ _ Hj) Hp Hi) as Hl.
  destruct (exec j i pc h (m_memory m)) as [[h' memory'] calls] eqn:He. rewrite (step_run j m h pc i h' memory' calls Hj Hp Hi He).
  destruct Hl as [Hla _ Hlm Hlc].
  assert (forall k x, k <> j -> m_harts m !! k = Some x -> annot x memory') as Hothers.
  { intros k x Hne Hk. destruct (owner_dec h) as [Ho|Ho].
    - apply (annot_other x (m_memory m)); [by eapply Ha|]. intros Hx. by destruct (Hne (Hone _ _ _ _ Hk Hj Hx Ho)).
    - apply (annot_bss x (m_memory m)); [by eapply Ha|by apply Hlm]. }
  split; cbn [m_harts m_memory m_inits].
  - intros k x Hk. destruct (lookup_after _ _ _ _ _ _ Hj Hk) as [[-> ->]|[Hne Hk']]; [done|by eapply Hothers].
  - intros k x Hk Hx. destruct (lookup_after _ _ _ _ _ _ Hj Hk) as [[-> ->]|[Hne Hk']];
      destruct Hlc as [[-> Hiff]|(c & -> & Hgood & Hno & Hyes & Hown)]; cbn [app].
    + by apply (Hc j h); [|apply Hiff].
    + exists c. split; [|done]. destruct Hu as [->|(k2 & x2 & Hk2 & Hx2)]; [done|].
      assert (k2 = j) as -> by (eapply Hone; [exact Hk2|exact Hj|by apply called_owner|done]). congruence.
    + by apply (Hc k x).
    + destruct Hne. by eapply Hone; [exact Hk'|exact Hj|apply called_owner|].
  - assert (<[j := h']> (m_harts m) !! j = Some h') as Hj' by (apply list_lookup_insert_eq; by eapply lookup_lt_Some).
    destruct Hlc as [[-> Hiff]|(c & -> & Hgood & Hno & Hyes & Hown)]; [|right; by exists j, h'].
    destruct Hu as [->|(k & x & Hk & Hx)]; [by left|]. right. destruct (decide (k = j)) as [->|Hne].
    + exists j, h'. split; [done|]. apply Hiff. congruence.
    + exists k, x. by rewrite list_lookup_insert_ne.
Qed.

Hypothesis stuck : forall h memory, annot h memory ->
  (forall pc i, h_place h = At pc -> program !! pc = Some i -> False) -> remaining h = 0%nat.

(** The steps that a hart still takes: one less after its step, as many after
    another's. *)
Lemma step_remaining j m k h : machine_inv m -> m_harts m !! k = Some h -> exists h', m_harts (boot_step j m) !! k = Some h' /\
  (remaining h' <= remaining h - (if decide (j = k) then 1 else 0))%nat.
Proof.
  intros [Ha _ _] Hk. destruct (step_cases j m) as [[-> Hno]|(h0 & pc & i & Hj & Hp & Hi)].
  - exists h. split; [done|]. destruct (decide (j = k)) as [->|]; [|lia].
    rewrite (stuck h (m_memory m)); [lia|by eapply Ha|]. intros pc i. by apply Hno.
  - pose proof (local j h0 pc i (m_memory m) (Ha _ _ Hj) Hp Hi) as Hl.
    destruct (exec j i pc h0 (m_memory m)) as [[h' memory'] calls] eqn:He. rewrite (step_run j m h0 pc i h' memory' calls Hj Hp Hi He).
    cbn [m_harts]. destruct (decide (j = k)) as [->|Hne].
    + exists h'. split; [apply list_lookup_insert_eq; by eapply lookup_lt_Some|]. rewrite Hj in Hk. injection Hk as ->.
      pose proof (ls_remaining _ _ _ _ _ _ Hl). lia.
    + exists h. rewrite list_lookup_insert_ne by done. split; [done|lia].
Qed.

(** The turns of hart [k] in a schedule. *)
Definition turns (k : nat) (schedule : list nat) : nat := length (filter (fun j => j = k) schedule).
Lemma schedule_inv (P : Machine R -> Prop) schedule m :
  (forall j m, P m -> P (boot_step j m)) -> (forall m, P m -> machine_inv m) -> P m ->
  P (run_schedule schedule m) /\ forall k h, m_harts m !! k = Some h -> exists h',
    m_harts (run_schedule schedule m) !! k = Some h' /\ (remaining h' <= remaining h - turns k schedule)%nat.
Proof.
  intros Hstep HP. unfold Entry.run_schedule, turns. revert m. induction schedule as [|j schedule IH]; intros m Hm.
  - split; [done|]. intros k h Hk. exists h. split; [done|]. cbn. lia.
  - cbn [foldl]. destruct (IH (boot_step j m) (Hstep j m Hm)) as [Hend Hrem]. split; [done|]. intros k h Hk.
    destruct (step_remaining j m k h (HP m Hm) Hk) as (h1 & Hk1 & Hle1). destruct (Hrem k h1 Hk1) as (h2 & Hk2 & Hle2).
    exists h2. split; [done|]. rewrite filter_cons. destruct (decide (j = k)); cbn [length]; lia.
Qed.
Lemma inits_one m : machine_inv m -> (length (m_inits m) <= 1)%nat.
Proof. intros [_ Hc [->|(j & h & Hj & Hh)]]; [cbn; lia|]. destruct (Hc j h Hj Hh) as (c & -> & _). done. Qed.
End Owner.

(** The cases of a place in the stub. *)
Ltac each_pc n pc := lazymatch n with O => idtac | S ?n => destruct pc as [|pc]; [|each_pc n pc] end.

(** Rewrites with what is known of a register. *)
Ltac use_reg r := match goal with H : ?regs r = _ |- _ => rewrite H end.

(** ** Clearing the bss *)

Section Bss.
Context (bss_start bss_end : Z).

(** The linker script makes the bss a number of words. *)
Definition bss_linked : Prop := 0 <= bss_start <= bss_end /\ bss_end + 8 <= 2 ^ 64 /\ (bss_end - bss_start) mod 8 = 0.
Definition bss_words : nat := Z.to_nat ((bss_end - bss_start) / 8).
(** The loop has cleared the words below [x]. *)
Definition clearing (x : Z) (memory : Z -> Z) : Prop :=
  bss_start <= x <= bss_end /\ (x - bss_start) mod 8 = 0 /\
  forall a, bss_start <= a < x -> (a - bss_start) mod 8 = 0 -> memory a = 0.
Hypothesis Hbss : bss_linked.

(** The words that are left, by one word. *)
Lemma clearing_next x memory :
  clearing x memory -> x < bss_end ->
  clearing (wrapping_add 64 x 8) (put_word x 0 memory) /\
  Z.to_nat ((bss_end - x) / 8) = S (Z.to_nat ((bss_end - wrapping_add 64 x 8) / 8)).
Proof.
  intros (Hx & Hal & Hz) Hlt. destruct Hbss as (Hb & H64 & Hm).
  assert (x + 8 <= bss_end) as Hle by divlia.
  assert (wrapping_add 64 x 8 = x + 8) as -> by (unfold wrapping_add; apply Z.mod_small; lia).
  split; [|divlia]. split_and!; [lia|lia|divlia|]. intros a Ha Ham. unfold put_word. destruct (Z.eqb_spec a x); [done|].
  apply Hz; [|done]. divlia.
Qed.
Lemma clearing_done x memory : clearing x memory -> bss_end <= x -> bss_zero bss_start bss_end memory.
Proof. intros (Hx & _ & Hz) Hge a Ha Hm. apply Hz; [lia|done]. Qed.
Lemma clearing_start memory : clearing bss_start memory.
Proof. destruct Hbss as (Hb & _). split_and!; [lia|lia|by rewrite Z.sub_diag|]. intros a Ha. lia. Qed.
Lemma clearing_same x memory memory' : clearing x memory -> same_bss bss_start bss_end memory memory' -> clearing x memory'.
Proof. intros (Hx & Hm & Hz) Hs. split_and!; [lia|lia|done|]. intros a Ha Ham. rewrite Hs by lia. by apply Hz. Qed.
Lemma bss_zero_same memory memory' :
  bss_zero bss_start bss_end memory -> same_bss bss_start bss_end memory memory' -> bss_zero bss_start bss_end memory'.
Proof. intros Hz Hs a Ha Hm. rewrite Hs by done. by apply Hz. Qed.
End Bss.

(** ** ARM64 *)

Module Arm64Boot.
Import Arm64Entry.
Section Arm64.
Context (init : (Reg -> Z) -> (Z -> Z) -> (Reg -> Z) * (Z -> Z)) (dtb stack_top bss_start bss_end main : Z).

(** The bss is linked as the script says, and compiled code keeps [x19]. *)
Record arm64_link : Prop := {
  al_bss : bss_linked bss_start bss_end;
  al_saved regs memory : (init regs memory).1 X19 = regs X19;
}.
Hypothesis Hlink : arm64_link.
Abbreviation program := (arm64_start stack_top bss_start bss_end main).
Abbreviation high := Arm64Mmu.physical_to_virtual.
Implicit Types (h : Hart Reg) (memory : Z -> Z).

Definition primary h : Prop := Z.land (h_id h) 0xff = 0.
Definition arm64_at (pc : nat) h memory : Prop :=
  let r := h_regs h in
  match pc with
  | 0%nat => primary h -> r X0 = dtb
  | 1%nat => primary h -> r X19 = dtb
  | 2%nat => (primary h -> r X19 = dtb) /\ r X1 = h_id h
  | 3%nat => (primary h -> r X19 = dtb) /\ r X1 = Z.land (h_id h) 0xff
  | 4%nat => primary h /\ r X19 = dtb
  | 5%nat => primary h /\ r X19 = dtb /\ r X0 = stack_top
  | 6%nat | 7%nat | 8%nat | 9%nat => primary h /\ r X19 = dtb /\ r Sp = stack_top
  | 10%nat => primary h /\ r X19 = dtb /\ r Sp = stack_top /\ r X0 = bss_start
  | 11%nat | 14%nat => primary h /\ r X19 = dtb /\ r Sp = stack_top /\ r X1 = bss_end /\ clearing bss_start bss_end (r X0) memory
  | 12%nat => primary h /\ r X19 = dtb /\ r Sp = stack_top /\ r X1 = bss_end /\ clearing bss_start bss_end (r X0) memory /\ h_carry h = (bss_end <=? r X0)
  | 13%nat => primary h /\ r X19 = dtb /\ r Sp = stack_top /\ r X1 = bss_end /\ clearing bss_start bss_end (r X0) memory /\ r X0 < bss_end
  | 15%nat => primary h /\ r X19 = dtb /\ r Sp = stack_top /\ bss_zero bss_start bss_end memory
  | 16%nat => primary h /\ r X19 = dtb /\ r Sp = stack_top /\ bss_zero bss_start bss_end memory /\ r X0 = dtb
  | 17%nat => primary h /\ r X19 = dtb
  | 18%nat => primary h /\ r X19 = dtb /\ r X0 = stack_top
  | 19%nat => primary h /\ r X19 = dtb /\ r X0 = stack_top /\ r X1 = 0
  | 20%nat => primary h /\ r X19 = dtb /\ r X0 = stack_top /\ r X1 = 0xff8000000000
  | 21%nat => primary h /\ r X19 = dtb /\ r X0 = stack_top /\ r X1 = Arm64Mmu.KERNEL_VIRTUAL_BASE
  | 22%nat => primary h /\ r X19 = dtb /\ r Sp = high stack_top /\ r X1 = Arm64Mmu.KERNEL_VIRTUAL_BASE
  | 23%nat => primary h /\ r X19 = dtb /\ r Sp = high stack_top /\ r X1 = Arm64Mmu.KERNEL_VIRTUAL_BASE /\ r X16 = main
  | 24%nat => primary h /\ r X19 = dtb /\ r Sp = high stack_top /\ r X16 = high main
  | 25%nat => primary h /\ r X0 = dtb /\ r Sp = high stack_top /\ r X16 = high main
  | 26%nat | 27%nat => ~ primary h
  | _ => False
  end.
Definition arm64_annot h memory : Prop :=
  match h_place h with
  | At pc => arm64_at pc h memory
  | Gone a => primary h /\ a = high main /\ h_regs h Sp = high stack_top /\ h_regs h X0 = dtb
  end.
Definition arm64_called h : Prop :=
  primary h /\ match h_place h with At pc => (17 <= pc <= 25)%nat | Gone _ => True end.
Definition arm64_remaining h : nat :=
  let words := Z.to_nat ((bss_end - h_regs h X0) / 8) in
  match h_place h with
  | Gone _ => 0
  | At pc =>
      if (26 <=? pc)%nat then 0
      else if (15 <=? pc)%nat then 26 - pc
      else if (pc =? 14)%nat then 4 * words + 14
      else if (11 <=? pc)%nat then 4 * words + 24 - pc
      else 4 * bss_words bss_start bss_end + 24 - pc
  end%nat.


Abbreviation step := (local_step bss_start bss_end dtb stack_top arm64_annot primary arm64_called arm64_remaining).

(** A step that neither stores nor calls. *)
Lemma arm64_private j h h' memory pc pc' :
  h_place h = At pc -> h_place h' = At pc' -> h_id h' = h_id h -> arm64_at pc' h' memory ->
  (arm64_remaining h' <= pred (arm64_remaining h))%nat -> (primary h -> 17 <= pc' <= 25 <-> 17 <= pc <= 25)%nat ->
  step j h memory h' memory [].
Proof.
  intros Hp Hp' Hid Ha Hr Hc. split; [unfold arm64_annot; by rewrite Hp'|done|done|]. left. split; [done|]. unfold arm64_called, primary in *.
  rewrite Hid, Hp, Hp'. tauto.
Qed.
Lemma arm64_local j h pc i memory : arm64_annot h memory -> h_place h = At pc -> program !! pc = Some i ->
  let '(h', memory', calls) := exec_boot X0 Sp init j i pc h memory in step j h memory h' memory' calls.
Proof.
  unfold arm64_annot at 1. intros Ha Hp. rewrite Hp in Ha. destruct h as [id regs carry status pl]. cbn in Hp. subst pl.
  each_pc 28%nat pc; [..|done]; intros [= <-]; cbn in Ha |- *; try (destruct_and? Ha); subst.
  all: try (eapply arm64_private; [reflexivity|reflexivity|reflexivity| |cbn; lia|lia]; cbn; unfold primary; cbn; by split_and?; try congruence).
  - (* cbnz *) match goal with H : regs X1 = _ |- _ => rename H into Hx1 end. destruct (Z.eqb_spec (regs X1) 0) as [Hz|Hz].
    + eapply arm64_private; [reflexivity..| |cbn; lia|lia]. rewrite Hx1 in Hz. cbn. unfold primary in *. cbn in *. by split; [|naive_solver].
    + eapply arm64_private; [reflexivity..| |cbn; lia|lia]. cbn. unfold primary. cbn. by rewrite <-Hx1.
  - (* bss_end *) eapply arm64_private; [reflexivity..| | |lia]; cbn.
    + split_and!; try done. use_reg X0. apply clearing_start, Hlink.
    + rewrite decide_False by done. use_reg X0. unfold bss_words. lia.
  - (* b.hs *) match goal with H : clearing _ _ _ _ |- _ => rename H into Hcl end.
    destruct (Z.leb_spec bss_end (regs X0)) as [Hle|Hlt].
    + eapply arm64_private; [reflexivity..| |cbn; lia|lia]. cbn. split_and!; try done. by eapply clearing_done.
    + eapply arm64_private; [reflexivity..| |cbn; lia|lia]. cbn. by split_and!.
  - (* str *) match goal with H : clearing _ _ _ _ |- _ => destruct (clearing_next _ _ (al_bss Hlink) _ _ H ltac:(done)) as [Hcl Hw] end.
    split; cbn; [by split_and!|rewrite decide_True, Hw by done; lia| |left; split; [done|]].
    + intros Hno. done.
    + unfold arm64_called, primary. cbn. lia.
  - (* bl *) destruct (init regs memory) as [regs' memory'] eqn:Hi. pose proof (al_saved Hlink regs memory) as Hs. rewrite Hi in Hs. cbn in Hs.
    split; cbn; [split; [done|congruence]|lia|done|]. right. eexists. split_and!; [reflexivity| | | |done].
    + by split_and!.
    + intros [_ Hc]. cbn in Hc. lia.
    + split; [done|cbn; lia].
  - (* movk *) eapply arm64_private; [reflexivity..| |cbn; lia|lia]. cbn. split_and!; try done.
    use_reg X1. reflexivity.
  - eapply arm64_private; [reflexivity..| |cbn; lia|lia]. cbn. split_and!; try done.
    use_reg X1. reflexivity.
  - (* add sp *) eapply arm64_private; [reflexivity..| |cbn; lia|lia]. cbn. split_and!; try done. unfold Arm64Mmu.physical_to_virtual. rewrite decide_True by done. congruence.
  - (* add x16 *) eapply arm64_private; [reflexivity..| |cbn; lia|lia]. cbn. split_and!; try done. unfold Arm64Mmu.physical_to_virtual. rewrite decide_True by done. congruence.
  - (* br *) split; [by split_and!|cbn; lia|done|]. left. split; [done|]. unfold arm64_called. cbn. unfold primary. cbn. lia.
Qed.

(** A core that has nothing left to do in the stub. *)
Lemma arm64_finished h memory : arm64_annot h memory -> arm64_remaining h = 0%nat ->
  (primary h -> exists a, h_place h = Gone a) /\ (~ primary h -> h_place h = At 26 \/ h_place h = At 27).
Proof.
  unfold arm64_annot, arm64_remaining. destruct (h_place h) as [pc|a]; [|intros (Hp & _) _; split; [by exists a|done]].
  each_pc 28%nat pc; [..|done]; cbn; intros Ha Hr; try lia; (split; [done|]); [by left|by right].
Qed.
Lemma arm64_stuck h memory : arm64_annot h memory ->
  (forall pc i, h_place h = At pc -> program !! pc = Some i -> False) -> arm64_remaining h = 0%nat.
Proof.
  unfold arm64_annot, arm64_remaining. destruct (h_place h) as [pc|a]; [|done]. intros Ha Hno. exfalso.
  destruct (program !! pc) as [i|] eqn:Hi; [by eapply Hno|]. each_pc 28%nat pc; done.
Qed.

Lemma arm64_same h memory memory' : arm64_annot h memory -> same_bss bss_start bss_end memory memory' -> arm64_annot h memory'.
Proof.
  unfold arm64_annot. intros Ha Hs. destruct (h_place h) as [pc|]; [|done].
  each_pc 28%nat pc; cbn in *; destruct_and? Ha; split_and?; try done; first [by eapply clearing_same | by eapply bss_zero_same].
Qed.
Lemma arm64_other h memory memory' : arm64_annot h memory -> ~ primary h -> arm64_annot h memory'.
Proof.
  unfold arm64_annot. intros Ha Hno. destruct (h_place h) as [pc|]; [|done]. each_pc 28%nat pc; cbn in *; destruct_and? Ha; done.
Qed.

Lemma arm64_called_primary h : arm64_called h -> primary h.
Proof. by intros []. Qed.
Lemma primary_or h : primary h \/ ~ primary h.
Proof. unfold primary. lia. Qed.

Definition arm64_run (schedule : list nat) := run_schedule X0 Sp init program schedule.
Lemma arm64_run_id schedule m j h : m_harts (arm64_run schedule m) !! j = Some h -> exists h0, m_harts m !! j = Some h0 /\ h_id h = h_id h0.
Proof. apply schedule_id. Qed.
(** From reset on, only the primary core has the device tree in [x0]. *)
Definition arm64_reset h : Prop := h_place h = At 0 /\ (primary h -> h_regs h X0 = dtb).
Lemma arm64_reset_inv harts memory : Forall arm64_reset harts ->
  machine_inv bss_start bss_end dtb stack_top arm64_annot arm64_called {| m_harts := harts; m_memory := memory; m_inits := [] |}.
Proof.
  intros Hr. split; cbn; [| |by left]; intros j h Hj; destruct (Forall_lookup_1 _ _ _ _ Hr Hj) as [Hp Hd].
  - unfold arm64_annot. by rewrite Hp.
  - intros [_ Hc]. rewrite Hp in Hc. lia.
Qed.

(** (C5) However the cores interleave from reset, when one of them is the primary
    core: a core that leaves the boot stub is that one; it arrives at
    [rust_arm64_main] in the higher half, on the boot stack there, with the device
    tree in [x0]; [phys_init] was called exactly once, by it, on the boot stack,
    with every word of the bss zero.  A core that had turns enough for the size
    of the bss has left if it is the primary one and otherwise waits in the
    parking loop. *)
Theorem arm64_one_core_boots harts memory schedule :
  Forall arm64_reset harts -> one_owner primary harts ->
  let m := arm64_run schedule {| m_harts := harts; m_memory := memory; m_inits := [] |} in
  (length (m_inits m) <= 1)%nat /\
  (forall j h a, m_harts m !! j = Some h -> h_place h = Gone a ->
    primary h /\ a = high main /\ h_regs h Sp = high stack_top /\ h_regs h X0 = dtb /\
    exists c, m_inits m = [c] /\ good_call bss_start bss_end dtb stack_top j c) /\
  (forall j h, m_harts m !! j = Some h -> (4 * bss_words bss_start bss_end + 24 <= turns j schedule)%nat ->
    (primary h -> exists a, h_place h = Gone a) /\ (~ primary h -> h_place h = At 26 \/ h_place h = At 27)).
Proof.
  intros Hreset Hone m.
  destruct (schedule_inv X0 Sp init program bss_start bss_end dtb stack_top arm64_annot primary arm64_called arm64_remaining
    arm64_local arm64_stuck (fun m => machine_inv bss_start bss_end dtb stack_top arm64_annot arm64_called m /\ one_owner primary (m_harts m))
    schedule {| m_harts := harts; m_memory := memory; m_inits := [] |}) as [[Hinv Howner] Hrem].
  - intros j m1 [Hm1 Ho1]. split; [refine (owner_step_inv _ _ _ _ _ _ _ _ _ primary _ arm64_remaining arm64_local arm64_same arm64_other arm64_called_primary primary_or _ _ Hm1 Ho1)|].
    intros j1 h1 j2 h2 (g1 & Hg1 & Hi1)%step_id (g2 & Hg2 & Hi2)%step_id. unfold primary. rewrite Hi1, Hi2. by eapply Ho1.
  - by intros m1 [].
  - split; [|done]. by apply arm64_reset_inv.
  - fold (arm64_run schedule) in Hinv, Howner, Hrem. split_and!; [by eapply inits_one| |].
    + intros j h a Hj Hp. pose proof (mi_annot _ _ _ _ _ _ _ Hinv j h Hj) as Ha. unfold arm64_annot in Ha. rewrite Hp in Ha.
      destruct Ha as (Hpr & -> & Hsp & Hx0). split_and!; [done..|]. eapply (mi_called _ _ _ _ _ _ _ Hinv j h Hj). split; [done|by rewrite Hp].
    + intros j h Hj Hturns. eapply arm64_finished; [by eapply (mi_annot _ _ _ _ _ _ _ Hinv)|].
      destruct (schedule_id _ _ _ _ _ _ _ _ Hj) as (h0 & Hj0 & _). destruct (Hrem j h0 Hj0) as (h' & Hj' & Hle).
      assert (h' = h) as -> by (apply (inj Some); rewrite <-Hj'; exact Hj). destruct (Forall_lookup_1 _ _ _ _ Hreset Hj0) as [Hp0 _].
      assert (arm64_remaining h0 = 4 * bss_words bss_start bss_end + 24)%nat as Hr by (unfold arm64_remaining; rewrite Hp0; cbn; lia). lia.
Qed.
End Arm64.
End Arm64Boot.

(** ** RISC-V *)

Module Riscv64Boot.
Import Riscv64Entry.
Section Riscv64.
Context (init : (Reg -> Z) -> (Z -> Z) -> (Reg -> Z) * (Z -> Z)) (dtb global_pointer claim stack_top bss_start bss_end main : Z).

(** [BOOT_HART_CLAIM] is linked outside the bss; compiled code keeps [s0] and
    [s1], and Rust code never touches the claim. *)
Record riscv_link : Prop := {
  rl_bss : bss_linked bss_start bss_end;
  rl_claim : ~ bss_start <= claim < bss_end;
  rl_saved regs memory : (init regs memory).1 S0 = regs S0 /\ (init regs memory).1 S1 = regs S1;
  rl_kept regs memory : (init regs memory).2 claim = memory claim;
}.
Hypothesis Hlink : riscv_link.
Abbreviation program := (riscv64_start global_pointer claim stack_top bss_start bss_end main).
Abbreviation high := RiscvMmu.physical_to_virtual.
Implicit Types (h : Hart Reg) (memory : Z -> Z).

(** A hart that took its turn at the claim; one that got it. *)
Definition claimed h : bool := match h_place h with At pc => (6 <=? pc)%nat | Gone _ => true end.
Definition winner h : Prop :=
  match h_place h with At pc => (7 <= pc <= 25)%nat \/ (pc = 6%nat /\ h_regs h T2 = 0) | Gone _ => True end.

Definition riscv_at (pc : nat) h memory : Prop :=
  let r := h_regs h in
  let saved := r S0 = h_id h /\ r S1 = dtb in
  match pc with
  | 0%nat | 1%nat => r A0 = h_id h /\ r A1 = dtb
  | 2%nat => r S0 = h_id h /\ r A1 = dtb
  | 3%nat => saved
  | 4%nat => saved /\ r T0 = claim
  | 5%nat => saved /\ r T0 = claim /\ r T1 = 1
  | 6%nat | 7%nat | 18%nat => saved
  | 8%nat | 9%nat | 10%nat => saved /\ r Rsp = stack_top
  | 11%nat => saved /\ r Rsp = stack_top /\ r T0 = bss_start
  | 12%nat | 15%nat => saved /\ r Rsp = stack_top /\ r T1 = bss_end /\ clearing bss_start bss_end (r T0) memory
  | 13%nat => saved /\ r Rsp = stack_top /\ r T1 = bss_end /\ clearing bss_start bss_end (r T0) memory /\ r T0 < bss_end
  | 14%nat => saved /\ r Rsp = stack_top /\ r T1 = bss_end /\ r T0 < bss_end /\
      clearing bss_start bss_end (wrapping_add 64 (r T0) 8) memory /\
      Z.to_nat ((bss_end - r T0) / 8) = S (Z.to_nat ((bss_end - wrapping_add 64 (r T0) 8) / 8))
  | 16%nat => saved /\ r Rsp = stack_top /\ bss_zero bss_start bss_end memory
  | 17%nat => saved /\ r Rsp = stack_top /\ bss_zero bss_start bss_end memory /\ r A0 = dtb
  | 19%nat => saved /\ r T0 = RiscvMmu.KERNEL_VIRTUAL_BASE
  | 20%nat => saved /\ r T0 = RiscvMmu.KERNEL_VIRTUAL_BASE /\ r Rsp = stack_top
  | 21%nat => saved /\ r T0 = RiscvMmu.KERNEL_VIRTUAL_BASE /\ r Rsp = high stack_top
  | 22%nat => saved /\ r T0 = RiscvMmu.KERNEL_VIRTUAL_BASE /\ r Rsp = high stack_top /\ r T1 = main
  | 23%nat => saved /\ r Rsp = high stack_top /\ r T1 = high main
  | 24%nat => r S1 = dtb /\ r Rsp = high stack_top /\ r T1 = high main /\ r A0 = h_id h
  | 25%nat => r Rsp = high stack_top /\ r T1 = high main /\ r A0 = h_id h /\ r A1 = dtb
  | 26%nat | 27%nat => True
  | _ => False
  end.
Definition riscv_annot h memory : Prop :=
  match h_place h with
  | At pc => riscv_at pc h memory
  | Gone a => a = high main /\ h_regs h Rsp = high stack_top /\ h_regs h A0 = h_id h /\ h_regs h A1 = dtb
  end.
Definition riscv_called h : Prop := match h_place h with At pc => (18 <= pc <= 25)%nat | Gone _ => True end.
Definition riscv_remaining h : nat :=
  let words := Z.to_nat ((bss_end - h_regs h T0) / 8) in
  match h_place h with
  | Gone _ => 0
  | At pc =>
      if (26 <=? pc)%nat then 0
      else if (16 <=? pc)%nat then 26 - pc
      else if (pc =? 15)%nat then 4 * words + 12
      else if (12 <=? pc)%nat then 4 * words + 23 - pc
      else 4 * bss_words bss_start bss_end + 23 - pc
  end%nat.

Abbreviation step := (local_step bss_start bss_end dtb stack_top riscv_annot winner riscv_called riscv_remaining).
(** What a step does to the claim. *)
Definition claim_step h memory h' memory' : Prop :=
  (claimed h = false /\ claimed h' = true /\ memory' claim = wrapping_add 64 (memory claim) 1 /\ (winner h' <-> memory claim = 0)) \/
  (claimed h' = claimed h /\ memory' claim = memory claim /\ (winner h' <-> winner h)).

Lemma riscv_private j h h' memory pc pc' :
  h_place h = At pc -> h_place h' = At pc' -> riscv_at pc' h' memory ->
  (riscv_remaining h' <= pred (riscv_remaining h))%nat -> (18 <= pc' <= 25 <-> 18 <= pc <= 25)%nat ->
  (6 <= pc' <-> 6 <= pc)%nat -> (7 <= pc' <= 25 \/ pc' = 6 /\ h_regs h' T2 = 0%Z <-> 7 <= pc <= 25 \/ pc = 6 /\ h_regs h T2 = 0%Z)%nat ->
  step j h memory h' memory [] /\ claim_step h memory h' memory.
Proof.
  intros Hp Hp' Ha Hr Hc Hcl Hw. split.
  - split; [unfold riscv_annot; by rewrite Hp'|done|done|]. left. split; [done|]. unfold riscv_called. by rewrite Hp, Hp'.
  - right. unfold claimed, winner. rewrite Hp, Hp'. split_and!; [|done|done]. destruct (Nat.leb_spec 6 pc), (Nat.leb_spec 6 pc'); lia || done.
Qed.
Lemma riscv_local j h pc i memory : riscv_annot h memory -> h_place h = At pc -> program !! pc = Some i ->
  let '(h', memory', calls) := exec_boot A0 Rsp init j i pc h memory in
  step j h memory h' memory' calls /\ claim_step h memory h' memory'.
Proof.
  unfold riscv_annot at 1. intros Ha Hp. rewrite Hp in Ha. destruct h as [id regs carry status pl]. cbn in Hp. subst pl.
  each_pc 28%nat pc; [..|done]; intros [= <-]; cbn in Ha |- *; try (destruct_and? Ha).
  all: try (eapply riscv_private; [reflexivity|reflexivity| |cbn; lia|lia|lia|lia]; cbn; by split_and?; try congruence).
  - (* amoadd *) use_reg T0. use_reg T1. split.
    + split; cbn; [done|lia| |left; split; [done|unfold riscv_called; cbn; lia]]. intros _ a Ha. unfold put_word. destruct (Z.eqb_spec a claim) as [->|]; [|done].
      by destruct (rl_claim Hlink).
    + left. unfold claimed, winner, put_word. cbn. rewrite decide_True, Z.eqb_refl by done. split_and!; [done..|]. lia.
  - (* bnez *) destruct (Z.eqb_spec (regs T2) 0) as [Hz|Hz]; (eapply riscv_private; [reflexivity|reflexivity|done|cbn; lia|lia|lia|cbn; lia]).
  - (* bss_end *) eapply riscv_private; [reflexivity|reflexivity| | |lia|lia|lia]; cbn.
    + split_and!; try done. use_reg T0. apply clearing_start, Hlink.
    + rewrite decide_False by done. use_reg T0. unfold bss_words. lia.
  - (* bgeu *) use_reg T1. match goal with H : clearing _ _ _ _ |- _ => rename H into Hcl end. destruct (Z.leb_spec bss_end (regs T0)) as [Hle|Hlt].
    + eapply riscv_private; [reflexivity|reflexivity| |cbn; lia|lia|lia|lia]. cbn. split_and!; try done. by eapply clearing_done.
    + eapply riscv_private; [reflexivity|reflexivity| |cbn; lia|lia|lia|lia]. cbn. by split_and!.
  - (* sd *) match goal with H : clearing _ _ _ _ |- _ => pose proof H as (Hx & _); destruct (clearing_next _ _ (rl_bss Hlink) _ _ H ltac:(done)) as [Hcl Hw] end.
    split.
    + split; cbn; [by split_and!|lia| |left; split; [done|unfold riscv_called; cbn; lia]]. intros Hno. destruct Hno. left. cbn. lia.
    + right. unfold claimed, winner, put_word. cbn. split_and!; [done| |lia]. destruct (Z.eqb_spec claim (regs T0)) as [He|]; [|done].
      destruct (rl_claim Hlink). lia.
  - (* addi *) eapply riscv_private; [reflexivity|reflexivity| | |lia|lia|lia]; cbn.
    + by split_and!.
    + rewrite decide_True by done. lia.
  - (* call *) destruct (init regs memory) as [regs' memory'] eqn:Hi. pose proof (rl_saved Hlink regs memory) as [Hs0 Hs1].
    pose proof (rl_kept Hlink regs memory) as Hk. rewrite Hi in Hs0, Hs1, Hk. cbn in Hs0, Hs1, Hk. split.
    + split; cbn; [split; congruence|lia| |].
      { intros Hno. destruct Hno. left. cbn. lia. }
      right. eexists. split; [reflexivity|]. split; [by split_and!|]. unfold riscv_called, winner. cbn. lia.
    + right. unfold claimed, winner. cbn. split_and!; [done|done|lia].
  - (* add sp *) eapply riscv_private; [reflexivity|reflexivity| |cbn; lia|lia|lia|lia]. cbn. split_and!; try done.
    unfold RiscvMmu.physical_to_virtual. rewrite decide_True by done. congruence.
  - (* add t1 *) eapply riscv_private; [reflexivity|reflexivity| |cbn; lia|lia|lia|lia]. cbn. split_and!; try done.
    unfold RiscvMmu.physical_to_virtual. rewrite decide_True by done. congruence.
  - (* jr *) split; [split; [by split_and!|cbn; lia|done|]|].
    + left. split; [done|]. unfold riscv_called. cbn. lia.
    + right. unfold claimed, winner. cbn. split_and!; [done|done|lia].
Qed.

Lemma riscv_finished h memory : riscv_annot h memory -> riscv_remaining h = 0%nat ->
  (winner h -> exists a, h_place h = Gone a) /\ (~ winner h -> h_place h = At 26 \/ h_place h = At 27) /\ claimed h = true.
Proof.
  unfold riscv_annot, riscv_remaining, winner, claimed. destruct (h_place h) as [pc|a]; [|intros _ _; split_and!; [by exists a|done|done]].
  each_pc 28%nat pc; [..|done]; cbn; intros Ha Hr; try lia; (split_and!; [lia|intros _|done]); [by left|by right].
Qed.
Lemma riscv_stuck h memory : riscv_annot h memory ->
  (forall pc i, h_place h = At pc -> program !! pc = Some i -> False) -> riscv_remaining h = 0%nat.
Proof.
  unfold riscv_annot, riscv_remaining. destruct (h_place h) as [pc|a]; [|done]. intros Ha Hno. exfalso.
  destruct (program !! pc) as [i|] eqn:Hi; [by eapply Hno|]. each_pc 28%nat pc; done.
Qed.
Lemma riscv_same h memory memory' : riscv_annot h memory -> same_bss bss_start bss_end memory memory' -> riscv_annot h memory'.
Proof.
  unfold riscv_annot. intros Ha Hs. destruct (h_place h) as [pc|]; [|done].
  each_pc 28%nat pc; cbn in *; destruct_and? Ha; split_and?; try done; first [by eapply clearing_same | by eapply bss_zero_same].
Qed.
Lemma riscv_other h memory memory' : riscv_annot h memory -> ~ winner h -> riscv_annot h memory'.
Proof.
  unfold riscv_annot, winner. intros Ha Hno. destruct (h_place h) as [pc|]; [|done]. each_pc 28%nat pc; cbn in *; try done; lia.
Qed.
Lemma riscv_called_winner h : riscv_called h -> winner h.
Proof. unfold riscv_called, winner. destruct (h_place h); [lia|done]. Qed.
Lemma winner_or h : winner h \/ ~ winner h.
Proof. unfold winner. destruct (h_place h); [lia|by left]. Qed.
Lemma winner_claimed h : winner h -> claimed h = true.
Proof. unfold winner, claimed. destruct (h_place h) as [pc|]; [|done]. intros Hw. apply Nat.leb_le. lia. Qed.

(** How many harts took their turn at the claim. *)
Fixpoint claims (harts : list (Hart Reg)) : Z :=
  match harts with [] => 0 | h :: harts => (if claimed h then 1 else 0) + claims harts end.
Lemma claims_bound harts : 0 <= claims harts <= Z.of_nat (length harts).
Proof. induction harts as [|h harts IH]; cbn; [done|]. destruct (claimed h); lia. Qed.
Lemma claims_insert harts j h h' : harts !! j = Some h ->
  claims (<[j := h']> harts) + (if claimed h then 1 else 0) = claims harts + (if claimed h' then 1 else 0).
Proof.
  revert j. induction harts as [|x harts IH]; intros [|j] Hj; [done..| |].
  - injection Hj as ->. cbn. lia.
  - change (<[S j := h']> (x :: harts)) with (x :: <[j := h']> harts). cbn [claims]. specialize (IH j Hj). lia.
Qed.
Lemma claims_zero harts j h : claims harts = 0 -> harts !! j = Some h -> claimed h = false.
Proof.
  revert j. induction harts as [|x harts IH]; intros [|j] Hz Hj; cbn in *; [done..| |]; pose proof (claims_bound harts).
  - injection Hj as ->. destruct (claimed h); [lia|done].
  - apply (IH j); [|done]. destruct (claimed x); lia.
Qed.

(** The state of the machine between any two steps. *)
Record riscv_inv (m : Machine Reg) : Prop := {
  ri_machine : machine_inv bss_start bss_end dtb stack_top riscv_annot riscv_called m;
  ri_one : one_owner winner (m_harts m);
  ri_count : m_memory m claim = claims (m_harts m);
  ri_harts : Z.of_nat (length (m_harts m)) < 2 ^ 64;
  ri_some : m_memory m claim <> 0 -> exists j h, m_harts m !! j = Some h /\ winner h;
}.
Definition riscv_run (schedule : list nat) := run_schedule A0 Rsp init program schedule.
Abbreviation riscv_step := (boot_step A0 Rsp init program).

Lemma riscv_local_step j h pc i memory : riscv_annot h memory -> h_place h = At pc -> program !! pc = Some i ->
  let '(h', memory', calls) := exec_boot A0 Rsp init j i pc h memory in step j h memory h' memory' calls.
Proof. intros Ha Hp Hi. pose proof (riscv_local j h pc i memory Ha Hp Hi) as Hl. destruct (exec_boot _ _ _ _ _ _ _ _) as [[h' memory'] calls]. apply Hl. Qed.

Lemma riscv_step_inv j m : riscv_inv m -> riscv_inv (riscv_step j m).
Proof.
  intros [Hm Hone Hcount Hlen Hsome].
  pose proof (owner_step_inv _ _ _ _ _ _ _ _ _ winner _ riscv_remaining riscv_local_step riscv_same riscv_other riscv_called_winner winner_or j m Hm Hone) as Hm'.
  destruct (step_cases A0 Rsp init program j m) as [[Heq _]|(h & pc & i & Hj & Hp & Hi)]; [by rewrite Heq|].
  pose proof (riscv_local j h pc i (m_memory m) (mi_annot _ _ _ _ _ _ _ Hm j h Hj) Hp Hi) as Hl.
  destruct (exec_boot A0 Rsp init j i pc h (m_memory m)) as [[h' memory'] calls] eqn:He.
  rewrite (step_run A0 Rsp init program j m h pc i h' memory' calls Hj Hp Hi He) in *. destruct Hl as [_ Hl].
  pose proof (claims_insert (m_harts m) j h h' Hj) as Hins. pose proof (claims_bound (<[j := h']> (m_harts m))) as Hbound.
  rewrite length_insert in Hbound.
  assert (forall k x, k <> j -> m_harts m !! k = Some x -> <[j := h']> (m_harts m) !! k = Some x) as Hne by (intros; by rewrite list_lookup_insert_ne).
  assert (<[j := h']> (m_harts m) !! j = Some h') as Hj' by (apply list_lookup_insert_eq; by eapply lookup_lt_Some).
  split; cbn [m_harts m_memory m_inits]; [done| | |by rewrite length_insert|].
  - intros j1 h1 j2 h2 H1 H2 W1 W2.
    destruct (lookup_after _ _ _ _ _ _ Hj H1) as [[-> ->]|[N1 L1]], (lookup_after _ _ _ _ _ _ Hj H2) as [[-> ->]|[N2 L2]]; [done| | |by eapply Hone].
    + destruct Hl as [(_ & _ & _ & Hw)|(_ & _ & Hw)]; [|by eapply Hone; [exact Hj|exact L2|apply Hw|]].
      apply winner_claimed in W2. rewrite (claims_zero _ _ _ ltac:(rewrite <-Hcount; by apply Hw) L2) in W2. done.
    + destruct Hl as [(_ & _ & _ & Hw)|(_ & _ & Hw)]; [|by eapply Hone; [exact L1|exact Hj| |apply Hw]].
      apply winner_claimed in W1. rewrite (claims_zero _ _ _ ltac:(rewrite <-Hcount; by apply Hw) L1) in W1. done.
  - destruct Hl as [(Hc & Hc' & -> & _)|(Hc & -> & _)]; [|rewrite Hc in Hins; lia]. rewrite Hc, Hc' in Hins. rewrite Hcount.
    unfold wrapping_add. rewrite Z.mod_small; lia.
  - intros Hnz. destruct Hl as [(Hc & _ & _ & Hw)|(_ & Hmem & Hw)].
    + destruct (Z.eq_dec (m_memory m claim) 0) as [Hz|Hz]; [exists j, h'; split; [done|by apply Hw]|].
      destruct (Hsome Hz) as (k & x & Hk & Hx). exists k, x. split; [|done]. apply Hne; [|done]. intros ->.
      apply winner_claimed in Hx. congruence.
    + rewrite Hmem in Hnz. destruct (Hsome Hnz) as (k & x & Hk & Hx). destruct (decide (k = j)) as [->|].
      * exists j, h'. split; [done|]. apply Hw. congruence.
      * exists k, x. split; [by apply Hne|done].
Qed.

(** From reset on, firmware gives each hart its identity and the device tree. *)
Definition riscv_reset h : Prop := h_place h = At 0 /\ h_regs h A0 = h_id h /\ h_regs h A1 = dtb.
Lemma riscv_reset_inv harts memory : Forall riscv_reset harts -> Z.of_nat (length harts) < 2 ^ 64 -> memory claim = 0 ->
  riscv_inv {| m_harts := harts; m_memory := memory; m_inits := [] |}.
Proof.
  intros Hr Hlen Hz.
  assert (forall j h, harts !! j = Some h -> riscv_reset h) as Hall by (intros j h Hj; exact (Forall_lookup_1 _ _ _ _ Hr Hj)).
  split; cbn; [split; cbn; [| |by left]| | |done|done].
  - intros j h Hj. destruct (Hall j h Hj) as (Hp & Ha). unfold riscv_annot. by rewrite Hp.
  - intros j h Hj. destruct (Hall j h Hj) as (Hp & _). unfold riscv_called. rewrite Hp. lia.
  - intros j h j2 h2 Hj _ Hw _. destruct (Hall j h Hj) as (Hp & _). unfold winner in Hw. rewrite Hp in Hw. lia.
  - rewrite Hz. clear -Hr. induction Hr as [|h harts (Hp & _) _ IH]; [done|]. cbn. unfold claimed. rewrite Hp. exact IH.
Qed.

(** (C4) However the harts interleave from reset, at most one leaves the boot
    stub; it arrives at [rust_riscv64_main] in the higher half, on the boot stack
    there, with its identity in [a0] and the device tree in [a1]; [phys_init] was
    called exactly once, by it, on the boot stack, with every word of the bss
    zero.  When every hart had turns enough for the size of the bss, exactly one
    has left and all others wait in the parking loop. *)
Theorem riscv_one_hart_boots harts memory schedule :
  Forall riscv_reset harts -> Z.of_nat (length harts) < 2 ^ 64 -> memory claim = 0 ->
  let m := riscv_run schedule {| m_harts := harts; m_memory := memory; m_inits := [] |} in
  (length (m_inits m) <= 1)%nat /\
  (forall j h a, m_harts m !! j = Some h -> h_place h = Gone a ->
    a = high main /\ h_regs h Rsp = high stack_top /\ h_regs h A0 = h_id h /\ h_regs h A1 = dtb /\
    (exists c, m_inits m = [c] /\ good_call bss_start bss_end dtb stack_top j c) /\
    forall k x b, m_harts m !! k = Some x -> h_place x = Gone b -> k = j) /\
  (harts <> [] -> (forall j, (j < length harts)%nat -> (4 * bss_words bss_start bss_end + 23 <= turns j schedule)%nat) ->
    exists j a, forall k h, m_harts m !! k = Some h -> if decide (k = j) then h_place h = Gone a else h_place h = At 26 \/ h_place h = At 27).
Proof.
  intros Hreset Hlen Hz m.
  destruct (schedule_inv A0 Rsp init program bss_start bss_end dtb stack_top riscv_annot winner riscv_called riscv_remaining
    riscv_local_step riscv_stuck riscv_inv schedule {| m_harts := harts; m_memory := memory; m_inits := [] |}) as [Hinv Hrem];
    [exact riscv_step_inv|apply ri_machine|by apply riscv_reset_inv|].
  fold (riscv_run schedule) in Hinv, Hrem. fold m in Hinv, Hrem. destruct Hinv as [Hm Hone Hcount Hn Hsome].
  assert (forall j h a, m_harts m !! j = Some h -> h_place h = Gone a -> winner h) as Hwin by (intros j h a _ Hp; unfold winner; by rewrite Hp).
  split_and!; [by eapply inits_one| |].
  - intros j h a Hj Hp. pose proof (mi_annot _ _ _ _ _ _ _ Hm j h Hj) as Ha. unfold riscv_annot in Ha. rewrite Hp in Ha.
    destruct Ha as (-> & Hsp & Ha0 & Ha1). split_and!; [done..| |].
    + eapply (mi_called _ _ _ _ _ _ _ Hm j h Hj). unfold riscv_called. by rewrite Hp.
    + intros k x b Hk Hx. by eapply Hone; [exact Hk|exact Hj|eapply Hwin|eapply Hwin].
  - intros Hne Hturns.
    assert (forall k h, m_harts m !! k = Some h -> riscv_remaining h = 0%nat) as Hzero.
    { intros k h Hk. destruct (schedule_id _ _ _ _ _ _ _ _ Hk) as (h0 & Hk0 & _). destruct (Hrem k h0 Hk0) as (h' & Hk' & Hle).
      rewrite Hk in Hk'. injection Hk' as <-. cbn in Hk0. destruct (Forall_lookup_1 _ _ _ _ Hreset Hk0) as [Hp0 _].
      assert (riscv_remaining h0 = 4 * bss_words bss_start bss_end + 23)%nat as Hr by (unfold riscv_remaining; rewrite Hp0; cbn; lia).
      specialize (Hturns k ltac:(by eapply lookup_lt_Some)). lia. }
    assert (m_memory m claim <> 0) as Hcl.
    { destruct harts as [|h0 harts]; [done|]. destruct (Hrem 0%nat h0 eq_refl) as (h & Hk & _).
      destruct (riscv_finished h _ (mi_annot _ _ _ _ _ _ _ Hm _ _ Hk) (Hzero _ _ Hk)) as (_ & _ & Hc). rewrite Hcount. intros H0.
      rewrite (claims_zero _ _ _ H0 Hk) in Hc. done. }
    destruct (Hsome Hcl) as (j & h & Hj & Hw).
    destruct (riscv_finished h _ (mi_annot _ _ _ _ _ _ _ Hm _ _ Hj) (Hzero _ _ Hj)) as ([a Ha] & _); [done|]. exists j, a. intros k x Hk.
    destruct (decide (k = j)) as [->|Hkj]; [congruence|].
    apply (riscv_finished x _ (mi_annot _ _ _ _ _ _ _ Hm _ _ Hk) (Hzero _ _ Hk)). intros Hx. by destruct (Hkj (Hone _ _ _ _ Hk Hj Hx Hw)).
Qed.
End Riscv64.
End Riscv64Boot.

(** ** Interrupt masks *)

(** The two operations that a guard uses, and whether interrupts are enabled. *)
Class CpuMask := {
  mask_disable : M Z bool;
  mask_restore : bool -> M Z unit;
  mask_enabled : Z -> bool;
}.
(** They do on the register what [Sync] does on its flag, and leave every other
    bit alone. *)
Class CpuMaskLaws `{CpuMask} := {
  mask_disable_law r : exists r', mask_disable r = Done (mask_enabled r, r') /\ mask_enabled r' = false /\
    mask_restore (mask_enabled r) r' = Done (tt, r);
  mask_restore_law b r : exists r', mask_restore b r = Done (tt, r') /\ mask_enabled r' = (b || mask_enabled r);
}.
#[export] Instance arm64_mask : CpuMask := {|
  mask_disable := arm64_disable_interrupts; mask_restore := arm64_restore_interrupts; mask_enabled r := negb (Z.testbit r 7) |}.
#[export] Instance riscv_mask : CpuMask := {|
  mask_disable := riscv_disable_interrupts; mask_restore := riscv_restore_interrupts; mask_enabled r := Z.testbit r 1 |}.

Lemma mask_clear r n : 0 <= n -> (Z.land r (Z.shiftl 1 n) =? 0) = negb (Z.testbit r n).
Proof.
  intros Hn. rewrite Z.shiftl_1_l, land_bit by done. destruct (Z.testbit r n); [|done]. apply Z.eqb_neq. pose proof (Z.pow_pos_nonneg 2 n). lia.
Qed.
Lemma set_bit r n : 0 <= n -> forall k, 0 <= k -> Z.testbit (Z.lor r (Z.shiftl 1 n)) k = (k =? n) || Z.testbit r k.
Proof.
  intros Hn k Hk. rewrite Z.lor_spec, Z.shiftl_spec by done. destruct (Z.eqb_spec k n) as [->|Hne]; [rewrite Z.sub_diag; apply orb_true_r|].
  destruct (Z.ltb_spec k n); [rewrite (Z.testbit_neg_r 1) by lia|rewrite (Z.bits_above_log2 1) by (cbn; lia)]; by rewrite orb_false_r.
Qed.
Lemma clear_bit r n : 0 <= n -> forall k, 0 <= k -> Z.testbit (Z.ldiff r (Z.shiftl 1 n)) k = negb (k =? n) && Z.testbit r k.
Proof.
  intros Hn k Hk. rewrite Z.ldiff_spec, Z.shiftl_spec by done. destruct (Z.eqb_spec k n) as [->|Hne]; [rewrite Z.sub_diag; apply andb_false_r|].
  destruct (Z.ltb_spec k n); [rewrite (Z.testbit_neg_r 1) by lia|rewrite (Z.bits_above_log2 1) by (cbn; lia)]; by rewrite andb_true_r.
Qed.
(** Setting a bit and clearing it again, when it was clear; and the other way
    round. *)
Lemma clear_set r n : 0 <= n -> Z.testbit r n = false -> Z.ldiff (Z.lor r (Z.shiftl 1 n)) (Z.shiftl 1 n) = r.
Proof.
  intros Hn Hb. apply Z.bits_inj'. intros k Hk. rewrite clear_bit, set_bit by done. by destruct (Z.eqb_spec k n) as [->|].
Qed.
Lemma set_clear r n : 0 <= n -> Z.testbit r n = true -> Z.lor (Z.ldiff r (Z.shiftl 1 n)) (Z.shiftl 1 n) = r.
Proof.
  intros Hn Hb. apply Z.bits_inj'. intros k Hk. rewrite set_bit, clear_bit by done. by destruct (Z.eqb_spec k n) as [->|].
Qed.
Lemma set_set r n : 0 <= n -> Z.testbit r n = true -> Z.lor r (Z.shiftl 1 n) = r.
Proof. intros Hn Hb. apply Z.bits_inj'. intros k Hk. rewrite set_bit by done. by destruct (Z.eqb_spec k n) as [->|]. Qed.
Lemma clear_clear r n : 0 <= n -> Z.testbit r n = false -> Z.ldiff r (Z.shiftl 1 n) = r.
Proof. intros Hn Hb. apply Z.bits_inj'. intros k Hk. rewrite clear_bit by done. by destruct (Z.eqb_spec k n) as [->|]. Qed.

#[export] Instance arm64_mask_laws : CpuMaskLaws (H:=arm64_mask).
Proof.
  split; cbn [mask_disable mask_restore mask_enabled arm64_mask riscv_mask]; unfold arm64_disable_interrupts, arm64_restore_interrupts, arm64_enable_interrupts, bind, gets, modify, ret;
    change (Z.shiftl DAIF_IRQ_MASK 6) with (Z.shiftl 1 7).
  - intros r. rewrite mask_clear by done. eexists. split; [reflexivity|]. cbv beta. rewrite set_bit by done. split; [done|].
    destruct (Z.testbit r 7) eqn:Hb; cbn [negb]; [by rewrite set_set|by rewrite clear_set].
  - intros [] r; eexists; (split; [reflexivity|]; cbv beta); [by rewrite clear_bit|done].
Qed.
#[export] Instance riscv_mask_laws : CpuMaskLaws (H:=riscv_mask).
Proof.
  split; cbn [mask_disable mask_restore mask_enabled arm64_mask riscv_mask]; unfold riscv_disable_interrupts, riscv_restore_interrupts, riscv_enable_interrupts, bind, gets, modify, ret;
    change SUPERVISOR_INTERRUPT_ENABLE with (Z.shiftl 1 1).
  - intros r. rewrite mask_clear, negb_involutive by done. eexists. split; [reflexivity|]. cbv beta. rewrite clear_bit by done. split; [done|].
    destruct (Z.testbit r 1) eqn:Hb; [by rewrite set_clear|by rewrite clear_clear].
  - intros [] r; eexists; (split; [reflexivity|]; cbv beta); [by rewrite set_bit|done].
Qed.

(** The registers refine the flag that the spin lock's guards use: disabling and
    restoring give what [Sync] computes, in every state. *)
Lemma guard_mask_refines `{CpuMaskLaws} r (l : SpinLock) :
  mask_enabled r = irq_enabled l -> exists was r', mask_disable r = Done (was, r') /\
  was = irq_enabled l /\ mask_enabled r' = irq_enabled (set_irq false l) /\
  forall b, exists r'' l'', mask_restore b r' = Done (tt, r'') /\ Sync.restore_interrupts b (set_irq false l) = Done (tt, l'') /\
    mask_enabled r'' = irq_enabled l''.
Proof.
  intros Hr. destruct (mask_disable_law r) as (r' & Hd & Hoff & _). exists (mask_enabled r), r'. split_and!; [done..|].
  intros b. destruct (mask_restore_law b r') as (r'' & Hrun & Hen). destruct b; eexists r'', _; (split_and!; [done|reflexivity|]);
    rewrite Hen; [done|by rewrite Hoff].
Qed.

(** ** Two harts from reset *)

Definition demo_memory (a : Z) : Z := if a =? 0x2000 then 0 else 7.
(** Forty turns each, in turn. *)
Definition demo_schedule : list nat := concat (replicate 40 [1; 0])%nat.

Definition arm64_init (regs : Arm64Entry.Reg -> Z) (memory : Z -> Z) : (Arm64Entry.Reg -> Z) * (Z -> Z) :=
  (fun r => match r with Arm64Entry.X19 => regs Arm64Entry.X19 | _ => 5 end, memory).
Definition arm64_core (id : Z) : Hart Arm64Entry.Reg := {|
  h_id := id; h_regs := fun r => match r with Arm64Entry.X0 => 0x4000 | _ => 9 end; h_carry := false; h_status := 0; h_place := At 0 |}.
Lemma demo_arm64_link : Arm64Boot.arm64_link arm64_init 0x1000 0x1010.
Proof. split; [repeat split; done|done]. Qed.

Lemma arm64_one_core_boots_witness : exists k, k = 0%nat /\ forall j h,
  m_harts (Arm64Boot.arm64_run arm64_init 0x3000 0x1000 0x1010 0x500 demo_schedule
    {| m_harts := [arm64_core 0x80000000; arm64_core 0x80000001]; m_memory := demo_memory; m_inits := [] |}) !! j = Some h ->
  if decide (j = k) then h_place h = Gone (Arm64Mmu.physical_to_virtual 0x500) else h_place h = At 26 \/ h_place h = At 27.
Proof.
  exists 0%nat. split; [done|]. intros j h Hj. pose proof (Arm64Boot.arm64_run_id _ _ _ _ _ _ _ _ _ Hj) as (h0 & Hj0 & Hid). cbn [m_harts] in Hj0.
  destruct (Arm64Boot.arm64_one_core_boots arm64_init 0x4000 0x3000 0x1000 0x1010 0x500 demo_arm64_link
    [arm64_core 0x80000000; arm64_core 0x80000001] demo_memory demo_schedule) as (_ & Hgone & Hdone).
  - by repeat constructor.
  - intros [|[|j1]] h1 [|[|j2]] h2 [= <-] [= <-] H1 H2; done.
  - unfold Arm64Boot.primary in Hdone. destruct j as [|[|j]]; [| |done]; injection Hj0 as <-.
    + destruct (Hdone 0%nat h Hj ltac:(vm_compute; lia)) as [[a Ha] _]; [by rewrite Hid|].
      destruct (Hgone 0%nat h a Hj Ha) as (_ & -> & _). exact Ha.
    + apply (Hdone 1%nat h Hj ltac:(vm_compute; lia)). by rewrite Hid.
Defined.

Definition riscv_init (regs : Riscv64Entry.Reg -> Z) (memory : Z -> Z) : (Riscv64Entry.Reg -> Z) * (Z -> Z) :=
  (fun r => match r with Riscv64Entry.S0 | Riscv64Entry.S1 => regs r | _ => 5 end, memory).
Definition riscv_hart (id : Z) : Hart Riscv64Entry.Reg := {|
  h_id := id; h_regs := fun r => match r with Riscv64Entry.A0 => id | Riscv64Entry.A1 => 0x4000 | _ => 9 end;
  h_carry := false; h_status := 0; h_place := At 0 |}.
Lemma demo_riscv_link : Riscv64Boot.riscv_link riscv_init 0x2000 0x1000 0x1010.
Proof. split; [repeat split; done|lia|done|done]. Qed.

Lemma riscv_one_hart_boots_witness : exists j a, forall k h,
  m_harts (Riscv64Boot.riscv_run riscv_init 0x2800 0x2000 0x3000 0x1000 0x1010 0x500 demo_schedule
    {| m_harts := [riscv_hart 0; riscv_hart 1]; m_memory := demo_memory; m_inits := [] |}) !! k = Some h ->
  if decide (k = j) then h_place h = Gone a else h_place h = At 26 \/ h_place h = At 27.
Proof.
  destruct (Riscv64Boot.riscv_one_hart_boots riscv_init 0x4000 0x2800 0x2000 0x3000 0x1000 0x1010 0x500 demo_riscv_link
    [riscv_hart 0; riscv_hart 1] demo_memory demo_schedule) as (_ & _ & Hone); [by repeat constructor|done|done|].
  apply Hone; [done|]. intros [|[|j]] Hj; [vm_compute; lia|vm_compute; lia|cbn in Hj; lia].
Defined.
