(* ===== verification/Task.v ===== *)
(** * Tasks and the scheduler

    Models [task/mod.rs] (kernel stacks are in [KernelStack.v]): processes,
    threads, the weighted fair scheduler and the selection of the two contexts
    of a switch.  A [ThreadId] and a [ProcessId] are their [u32].  Every public
    function runs under [SCHEDULER_LOCK], so it is one atomic step. *)

From S2P Require Import Prelude Address Clock Pmm Trace Context KernelStack.
From stdpp Require Import base tactics option list list_numbers numbers strings.

#[local] Open Scope Z_scope.
#[local] Open Scope kernel_scope.

Definition SCHED_BASE_WEIGHT : Z := 1024.
Definition SCHED_MIN_WEIGHT : Z := 1.
Definition SCHED_TIME_SLICE_NS : Z := 1000000000 / TICK_RATE_HZ.
Definition MAX_PROCESSES : nat := 8.

Inductive InitError := ProcessTableFull | ThreadTableFull | MissingKernelStack.
Inductive ScheduleError := NotInitialized | UnknownThread | ZeroWeight.

Inductive ProcessState := Active | Exiting | Zombie.
Inductive ThreadState := Ready | Running | Blocked | Exited.
#[global] Instance ProcessState_eq_dec : EqDecision ProcessState.
Proof. solve_decision. Defined.
#[global] Instance ThreadState_eq_dec : EqDecision ThreadState.
Proof. solve_decision. Defined.
Definition is_runnable (s : ThreadState) : bool :=
  match s with Ready | Running => true | _ => false end.

Definition WaitToken_new (raw : Z) : option Z := if raw =? 0 then None else Some raw.

Record Switch := {
  previous : Z;
  next : Z;
}.

Record ThreadSnapshot := {
  snap_id : Z;
  snap_process : Z;
  snap_state : ThreadState;
  snap_weight : Z;
  snap_virtual_runtime : Z;
  snap_blocked_on : option Z;
}.

Record Process := {
  p_id : Z;
  p_first_thread : option Z;
  p_thread_count : Z;
  p_state : ProcessState;
}.
Definition Process_new (id : Z) : Process :=
  {| p_id := id; p_first_thread := None; p_thread_count := 0; p_state := Active |}.

Record Thread (Ctx : Type) := {
  t_id : Z;
  t_process : Z;
  t_state : ThreadState;
  t_context : Ctx;
  t_stack : option KernelStack;
  t_blocked_on : option Z;
  t_weight : Z;
  t_virtual_runtime : Z;
  t_process_next : option Z;
  t_idle : bool;
}.
Arguments t_id {Ctx}.
Arguments t_process {Ctx}.
Arguments t_state {Ctx}.
Arguments t_context {Ctx}.
Arguments t_stack {Ctx}.
Arguments t_blocked_on {Ctx}.
Arguments t_weight {Ctx}.
Arguments t_virtual_runtime {Ctx}.
Arguments t_process_next {Ctx}.
Arguments t_idle {Ctx}.

(** The scheduler; [dropped] lists the kernel stacks whose [Drop] the scheduler
    has run, in order. *)
Record Scheduler (Ctx : Type) := {
  threads : list (option (Thread Ctx));
  processes : list (option Process);
  boot_context : Ctx;
  next_thread_id : Z;
  next_process_id : Z;
  current : option Z;
  idle : option Z;
  min_virtual_runtime : Z;
  need_reschedule : bool;
  sched_initialized : bool;
  trace_ring : Ring;
  dropped : list KernelStack;
}.
Arguments threads {Ctx}.
Arguments processes {Ctx}.
Arguments boot_context {Ctx}.
Arguments next_thread_id {Ctx}.
Arguments next_process_id {Ctx}.
Arguments current {Ctx}.
Arguments idle {Ctx}.
Arguments min_virtual_runtime {Ctx}.
Arguments need_reschedule {Ctx}.
Arguments sched_initialized {Ctx}.
Arguments trace_ring {Ctx}.
Arguments dropped {Ctx}.

Section Scheduler.
Context {Ctx : Type} `{ContextOps Ctx}.
Implicit Types s : Scheduler Ctx.

(** Field updates. *)
Definition set_threads (v : list (option (Thread Ctx))) (s : Scheduler Ctx) : Scheduler Ctx := {|
  threads := v; processes := processes s; boot_context := boot_context s;
  next_thread_id := next_thread_id s; next_process_id := next_process_id s; current := current s;
  idle := idle s; min_virtual_runtime := min_virtual_runtime s;
  need_reschedule := need_reschedule s; sched_initialized := sched_initialized s;
  trace_ring := trace_ring s; dropped := dropped s |}.
Definition set_processes (v : list (option Process)) (s : Scheduler Ctx) : Scheduler Ctx := {|
  threads := threads s; processes := v; boot_context := boot_context s;
  next_thread_id := next_thread_id s; next_process_id := next_process_id s; current := current s;
  idle := idle s; min_virtual_runtime := min_virtual_runtime s;
  need_reschedule := need_reschedule s; sched_initialized := sched_initialized s;
  trace_ring := trace_ring s; dropped := dropped s |}.
Definition set_next_thread_id (v : Z) (s : Scheduler Ctx) : Scheduler Ctx := {|
  threads := threads s; processes := processes s; boot_context := boot_context s;
  next_thread_id := v; next_process_id := next_process_id s; current := current s; idle := idle s;
  min_virtual_runtime := min_virtual_runtime s; need_reschedule := need_reschedule s;
  sched_initialized := sched_initialized s; trace_ring := trace_ring s; dropped := dropped s |}.
Definition set_next_process_id (v : Z) (s : Scheduler Ctx) : Scheduler Ctx := {|
  threads := threads s; processes := processes s; boot_context := boot_context s;
  next_thread_id := next_thread_id s; next_process_id := v; current := current s; idle := idle s;
  min_virtual_runtime := min_virtual_runtime s; need_reschedule := need_reschedule s;
  sched_initialized := sched_initialized s; trace_ring := trace_ring s; dropped := dropped s |}.
Definition set_current (v : option Z) (s : Scheduler Ctx) : Scheduler Ctx := {|
  threads := threads s; processes := processes s; boot_context := boot_context s;
  next_thread_id := next_thread_id s; next_process_id := next_process_id s; current := v;
  idle := idle s; min_virtual_runtime := min_virtual_runtime s;
  need_reschedule := need_reschedule s; sched_initialized := sched_initialized s;
  trace_ring := trace_ring s; dropped := dropped s |}.
Definition set_idle (v : option Z) (s : Scheduler Ctx) : Scheduler Ctx := {|
  threads := threads s; processes := processes s; boot_context := boot_context s;
  next_thread_id := next_thread_id s; next_process_id := next_process_id s; current := current s;
  idle := v; min_virtual_runtime := min_virtual_runtime s; need_reschedule := need_reschedule s;
  sched_initialized := sched_initialized s; trace_ring := trace_ring s; dropped := dropped s |}.
Definition set_min_virtual_runtime (v : Z) (s : Scheduler Ctx) : Scheduler Ctx := {|
  threads := threads s; processes := processes s; boot_context := boot_context s;
  next_thread_id := next_thread_id s; next_process_id := next_process_id s; current := current s;
  idle := idle s; min_virtual_runtime := v; need_reschedule := need_reschedule s;
  sched_initialized := sched_initialized s; trace_ring := trace_ring s; dropped := dropped s |}.
Definition set_need_reschedule (v : bool) (s : Scheduler Ctx) : Scheduler Ctx := {|
  threads := threads s; processes := processes s; boot_context := boot_context s;
  next_thread_id := next_thread_id s; next_process_id := next_process_id s; current := current s;
  idle := idle s; min_virtual_runtime := min_virtual_runtime s; need_reschedule := v;
  sched_initialized := sched_initialized s; trace_ring := trace_ring s; dropped := dropped s |}.
Definition set_sched_initialized (v : bool) (s : Scheduler Ctx) : Scheduler Ctx := {|
  threads := threads s; processes := processes s; boot_context := boot_context s;
  next_thread_id := next_thread_id s; next_process_id := next_process_id s; current := current s;
  idle := idle s; min_virtual_runtime := min_virtual_runtime s;
  need_reschedule := need_reschedule s; sched_initialized := v; trace_ring := trace_ring s;
  dropped := dropped s |}.
Definition set_trace_ring (v : Ring) (s : Scheduler Ctx) : Scheduler Ctx := {|
  threads := threads s; processes := processes s; boot_context := boot_context s;
  next_thread_id := next_thread_id s; next_process_id := next_process_id s; current := current s;
  idle := idle s; min_virtual_runtime := min_virtual_runtime s;
  need_reschedule := need_reschedule s; sched_initialized := sched_initialized s; trace_ring := v;
  dropped := dropped s |}.
Definition set_dropped (v : list KernelStack) (s : Scheduler Ctx) : Scheduler Ctx := {|
  threads := threads s; processes := processes s; boot_context := boot_context s;
  next_thread_id := next_thread_id s; next_process_id := next_process_id s; current := current s;
  idle := idle s; min_virtual_runtime := min_virtual_runtime s;
  need_reschedule := need_reschedule s; sched_initialized := sched_initialized s;
  trace_ring := trace_ring s; dropped := v |}.
Definition set_t_process (v : Z) (t : Thread Ctx) : Thread Ctx := {|
  t_id := t_id t; t_process := v; t_state := t_state t; t_context := t_context t;
  t_stack := t_stack t; t_blocked_on := t_blocked_on t; t_weight := t_weight t;
  t_virtual_runtime := t_virtual_runtime t; t_process_next := t_process_next t;
  t_idle := t_idle t |}.
Definition set_t_state (v : ThreadState) (t : Thread Ctx) : Thread Ctx := {|
  t_id := t_id t; t_process := t_process t; t_state := v; t_context := t_context t;
  t_stack := t_stack t; t_blocked_on := t_blocked_on t; t_weight := t_weight t;
  t_virtual_runtime := t_virtual_runtime t; t_process_next := t_process_next t;
  t_idle := t_idle t |}.
Definition set_t_blocked_on (v : option Z) (t : Thread Ctx) : Thread Ctx := {|
  t_id := t_id t; t_process := t_process t; t_state := t_state t; t_context := t_context t;
  t_stack := t_stack t; t_blocked_on := v; t_weight := t_weight t;
  t_virtual_runtime := t_virtual_runtime t; t_process_next := t_process_next t;
  t_idle := t_idle t |}.
Definition set_t_virtual_runtime (v : Z) (t : Thread Ctx) : Thread Ctx := {|
  t_id := t_id t; t_process := t_process t; t_state := t_state t; t_context := t_context t;
  t_stack := t_stack t; t_blocked_on := t_blocked_on t; t_weight := t_weight t;
  t_virtual_runtime := v; t_process_next := t_process_next t; t_idle := t_idle t |}.
Definition set_t_process_next (v : option Z) (t : Thread Ctx) : Thread Ctx := {|
  t_id := t_id t; t_process := t_process t; t_state := t_state t; t_context := t_context t;
  t_stack := t_stack t; t_blocked_on := t_blocked_on t; t_weight := t_weight t;
  t_virtual_runtime := t_virtual_runtime t; t_process_next := v; t_idle := t_idle t |}.

(** [iter().position]. *)
Fixpoint position {A} (p : A -> bool) (l : list A) : option nat :=
  match l with
  | [] => None
  | x :: l => if p x then Some O else option_map S (position p l)
  end.

Definition Thread_new (id process weight : Z) (is_idle : bool) (context : Ctx)
    (stack : option KernelStack) : Thread Ctx := {|
  t_id := id; t_process := process; t_state := Ready; t_context := context; t_stack := stack;
  t_blocked_on := None; t_weight := weight; t_virtual_runtime := 0; t_process_next := None;
  t_idle := is_idle |}.

Definition snapshot (t : Thread Ctx) : ThreadSnapshot := {|
  snap_id := t_id t; snap_process := t_process t; snap_state := t_state t;
  snap_weight := t_weight t; snap_virtual_runtime := t_virtual_runtime t;
  snap_blocked_on := t_blocked_on t |}.

(** [Process::add_thread]: the process and the thread. *)
Definition add_thread {S} (p : Process) (t : Thread Ctx) : M S (Process * Thread Ctx) :=
  let t := set_t_process (p_id p) (set_t_process_next (p_first_thread p) t) in
  let! count := add_uint 32 (p_thread_count p) 1 in
  ret ({| p_id := p_id p; p_first_thread := Some (t_id t); p_thread_count := count;
          p_state := p_state p |}, t).

Definition Scheduler_new (THREADS PROCESSES : nat) (dropped : list KernelStack) : Scheduler Ctx := {|
  threads := replicate THREADS None; processes := replicate PROCESSES None;
  boot_context := context_empty; next_thread_id := 1; next_process_id := 1; current := None;
  idle := None; min_virtual_runtime := 0; need_reschedule := false; sched_initialized := false;
  trace_ring := Ring_new TRACE_EVENTS; dropped := dropped |}.

(** [thread] and [thread_mut]: the first slot that holds the thread. *)
Definition thread_index (id : Z) (ts : list (option (Thread Ctx))) : option nat :=
  position (fun slot => match slot with Some t => t_id t =? id | None => false end) ts.
Definition thread_at s (i : nat) : option (Thread Ctx) := default None (threads s !! i).
Definition thread s (id : Z) : option (Thread Ctx) :=
  match thread_index id (threads s) with
  | Some i => thread_at s i
  | None => None
  end.
Definition update_thread (i : nat) (f : Thread Ctx -> Thread Ctx) s : Scheduler Ctx :=
  set_threads (alter (option_map f) i (threads s)) s.

Definition process_index (id : Z) s : option nat :=
  position (fun slot =>
    match slot with
    | Some p => (p_id p =? id) && bool_decide (p_state p = Active)
    | None => false
    end) (processes s).

Definition trace (kind : TraceKind) (subject object value : Z) : M (Scheduler Ctx) unit := fun s =>
  match emit {| event_kind := kind; event_subject := subject; event_object := object;
                event_value := value |} (trace_ring s) with
  | Done (_, r) => Done (tt, set_trace_ring r s)
  | Panic msg => Panic msg
  | Undefined => Undefined
  | OutOfFuel => OutOfFuel
  end.

(** [next.wrapping_add(1).max(1)] *)
Definition next_id (id : Z) : Z := Z.max (wrapping_add 32 id 1) 1.

Definition create_process : M (Scheduler Ctx) (Result Z InitError) :=
  let! id := gets next_process_id in
  modify (set_next_process_id (next_id id)) ;;;
  let! ps := gets processes in
  match position (fun slot => match slot with None => true | Some _ => false end) ps with
  | None => ret (Err ProcessTableFull)
  | Some i => modify (set_processes (<[i := Some (Process_new id)]> ps)) ;;; ret (Ok id)
  end.

(** A stack that is not stored is dropped. *)
Definition drop_stack (stack : option KernelStack) : M (Scheduler Ctx) unit :=
  match stack with
  | Some k => modify (fun s => set_dropped (dropped s ++ [k]) s)
  | None => ret tt
  end.

Definition insert_thread (process_id weight : Z) (is_idle : bool) (context : Ctx)
    (stack : option KernelStack) : M (Scheduler Ctx) (Result Z InitError) :=
  let! id := gets next_thread_id in
  modify (set_next_thread_id (next_id id)) ;;;
  let! s := gets (fun s => s) in
  match process_index process_id s with
  | None => drop_stack stack ;;; ret (Err ProcessTableFull)
  | Some process_index =>
      match position (fun slot => match slot with None => true | Some _ => false end) (threads s) with
      | None => drop_stack stack ;;; ret (Err ThreadTableFull)
      | Some thread_index =>
          let! p := expect "process index was found" (default None (processes s !! process_index)) in
          let! (p, t) := add_thread p (Thread_new id process_id weight is_idle context stack) in
          modify (set_processes (<[process_index := Some p]> (processes s))) ;;;
          let t :=
            if negb is_idle && (t_virtual_runtime t <? min_virtual_runtime s)
            then set_t_virtual_runtime (min_virtual_runtime s) t else t in
          modify (set_threads (<[thread_index := Some t]> (threads s))) ;;;
          (if negb is_idle then trace SchedEnqueue id 0 0 else ret tt) ;;;
          ret (Ok id)
      end
  end.

Definition create_thread (process_id weight : Z) (is_idle : bool) : M (Scheduler Ctx) (Result Z InitError) :=
  insert_thread process_id weight is_idle context_empty None.

(** [trampoline] is [thread_trampoline_address()]. *)
Definition create_thread_with_stack (trampoline : Z) (process_id weight : Z) (is_idle : bool)
    (stack : KernelStack) (entry arg : Z) : M (Scheduler Ctx) (Result Z InitError) :=
  let! top := stack_top stack in
  let context := context_set_entry_data entry arg (context_new trampoline top) in
  insert_thread process_id weight is_idle context (Some stack).

(** [*self = Self::new()] drops every thread's stack. *)
Definition reset : M (Scheduler Ctx) unit :=
  modify (fun s => Scheduler_new (length (threads s)) (length (processes s))
    (dropped s ++ omap (fun slot => match slot with Some t => t_stack t | None => None end) (threads s))).

(** What both initialisations do with the idle thread. *)
Definition start_idle (id : Z) : M (Scheduler Ctx) unit :=
  modify (set_idle (Some id)) ;;;
  modify (set_current (Some id)) ;;;
  modify (fun s =>
    match thread_index id (threads s) with
    | Some i => update_thread i (set_t_state Running) s
    | None => s
    end) ;;;
  modify (set_sched_initialized true).

Definition init : M (Scheduler Ctx) (Result unit InitError) :=
  reset ;;;
  try! kernel := create_process in
  try! id := create_thread kernel SCHED_MIN_WEIGHT true in
  start_idle id ;;; ret (Ok tt).

(** When [create_process] fails the stack is dropped. *)
Definition init_with_idle_thread (trampoline : Z) (stack : KernelStack) (entry arg : Z) :
    M (Scheduler Ctx) (Result unit InitError) :=
  reset ;;;
  let! kernel := create_process in
  match kernel with
  | Err e => drop_stack (Some stack) ;;; ret (Err e)
  | Ok kernel =>
      try! id := create_thread_with_stack trampoline kernel SCHED_MIN_WEIGHT true stack entry arg in
      start_idle id ;;; ret (Ok tt)
  end.

Definition current_snapshot s : option ThreadSnapshot :=
  match current s with
  | Some id => option_map snapshot (thread s id)
  | None => None
  end.

(** [min_by_key(|t| (t.virtual_runtime, t.id.0))]: the first minimum. *)
Definition key_lt (t1 t2 : Thread Ctx) : bool :=
  (t_virtual_runtime t1 <? t_virtual_runtime t2) ||
  ((t_virtual_runtime t1 =? t_virtual_runtime t2) && (t_id t1 <? t_id t2)).
Definition min_by_key (ts : list (Thread Ctx)) : option (Thread Ctx) :=
  foldl (fun best t =>
    match best with
    | None => Some t
    | Some b => if key_lt t b then Some t else Some b
    end) None ts.
Definition is_candidate (t : Thread Ctx) : bool := bool_decide (t_state t = Ready) && negb (t_idle t).
Definition best_ready_thread s : option (Thread Ctx) :=
  min_by_key (List.filter is_candidate (omap (fun slot => slot) (threads s))).

(** The time a thread of weight [w] is charged for [elapsed] ticks; the
    products are [u128]. *)
Definition charge (elapsed w : Z) : Z :=
  let elapsed_ns := SCHED_TIME_SLICE_NS * elapsed in
  let scaled := elapsed_ns * SCHED_BASE_WEIGHT / w in
  Z.min scaled u64_MAX.

Definition tick (elapsed_ticks : Z) : M (Scheduler Ctx) (Result unit ScheduleError) :=
  if elapsed_ticks =? 0 then ret (Ok tt)
  else
    let! s := gets (fun s => s) in
    if negb (sched_initialized s) then ret (Err NotInitialized)
    else
      let? id := current s ok_or NotInitialized in
      let? i := thread_index id (threads s) ok_or UnknownThread in
      let? t := thread_at s i ok_or UnknownThread in
      if t_weight t =? 0 then ret (Err ZeroWeight)
      else
        let delta := charge elapsed_ticks (t_weight t) in
        let runtime := saturating_add 64 (t_virtual_runtime t) delta in
        modify (update_thread i (set_t_virtual_runtime runtime)) ;;;
        trace SchedTick (t_id t) 0 runtime ;;;
        let! s := gets (fun s => s) in
        match best_ready_thread s with
        | Some best =>
            let best_runtime := t_virtual_runtime best in
            (if best_runtime <? runtime then modify (set_need_reschedule true) else ret tt) ;;;
            let current_min := if t_idle t then u64_MAX else runtime in
            let next_min := Z.min best_runtime current_min in
            (if min_virtual_runtime s <? next_min then modify (set_min_virtual_runtime next_min)
             else ret tt) ;;;
            ret (Ok tt)
        | None =>
            (if negb (t_idle t) && (min_virtual_runtime s <? runtime)
             then modify (set_min_virtual_runtime runtime) else ret tt) ;;;
            ret (Ok tt)
        end.

Definition schedule : M (Scheduler Ctx) (option Switch) :=
  let! s := gets (fun s => s) in
  let? prev := current s in
  let? nxt := match best_ready_thread s with Some t => Some (t_id t) | None => idle s end in
  if prev =? nxt then ret None
  else
    modify (fun s =>
      match thread_index prev (threads s) with
      | Some i => update_thread i (fun t =>
          if decide (t_state t = Running) then set_t_state Ready t else t) s
      | None => s
      end) ;;;
    modify (fun s =>
      match thread_index nxt (threads s) with
      | Some i => update_thread i (set_t_state Running) s
      | None => s
      end) ;;;
    modify (set_current (Some nxt)) ;;;
    trace SchedSwitch prev nxt 0 ;;;
    ret (Some {| previous := prev; next := nxt |}).

(** [block_current] and [wake] are compiled for the unit tests only. *)
Definition block_current (wait : Z) : M (Scheduler Ctx) (Result (option Switch) ScheduleError) :=
  let! s := gets (fun s => s) in
  let? id := current s ok_or NotInitialized in
  let? i := thread_index id (threads s) ok_or UnknownThread in
  modify (update_thread i (fun t => set_t_state Blocked (set_t_blocked_on (Some wait) t))) ;;;
  trace SchedBlock id 0 wait ;;;
  let! r := schedule in
  ret (Ok r).

Definition wake (id : Z) : M (Scheduler Ctx) (Result unit ScheduleError) :=
  let! s := gets (fun s => s) in
  let minimum := min_virtual_runtime s in
  let? i := thread_index id (threads s) ok_or UnknownThread in
  let? t := thread_at s i ok_or UnknownThread in
  if decide (t_state t = Blocked) then
    modify (update_thread i (fun t =>
      let t := set_t_state Ready (set_t_blocked_on None t) in
      if t_virtual_runtime t <? minimum then set_t_virtual_runtime minimum t else t)) ;;;
    trace SchedWake id 0 0 ;;;
    ret (Ok tt)
  else ret (Ok tt).

Definition maybe_reschedule : M (Scheduler Ctx) (option Switch) :=
  let! need := gets need_reschedule in
  if negb need then ret None
  else modify (set_need_reschedule false) ;;; schedule.

Definition trace_len s : Z := ring_len (trace_ring s).

(** The context records a switch is between: the boot context, or the one of
    the thread in a slot. *)
Inductive ContextRef :=
  | BootContext
  | ThreadContext (slot : nat).
Record ContextPair := {
  old : ContextRef;
  new : ContextRef;
}.

Definition enter_idle_contexts : M (Scheduler Ctx) (Result ContextPair ScheduleError) :=
  let! s := gets (fun s => s) in
  if negb (sched_initialized s) then ret (Err NotInitialized)
  else
    let? id := idle s ok_or NotInitialized in
    let? i := thread_index id (threads s) ok_or UnknownThread in
    let? t := thread_at s i ok_or UnknownThread in
    match t_stack t with
    | None => ret (Err UnknownThread)
    | Some _ =>
        modify (update_thread i (set_t_state Running)) ;;;
        modify (set_current (Some id)) ;;;
        ret (Ok {| old := BootContext; new := ThreadContext i |})
    end.

Definition preempt_contexts : M (Scheduler Ctx) (Result (option ContextPair) ScheduleError) :=
  let! s := gets (fun s => s) in
  if negb (sched_initialized s) then ret (Err NotInitialized)
  else if negb (need_reschedule s) then ret (Ok None)
  else
    modify (set_need_reschedule false) ;;;
    let! switch := schedule in
    match switch with
    | None => ret (Ok None)
    | Some switch =>
        trace SchedPreempt (previous switch) (next switch) 0 ;;;
        let! ts := gets threads in
        let? o := thread_index (previous switch) ts ok_or UnknownThread in
        let? n := thread_index (next switch) ts ok_or UnknownThread in
        ret (Ok (Some {| old := ThreadContext o; new := ThreadContext n |}))
    end.

Definition kernel_process s : option Z :=
  option_map p_id (head (omap (fun slot => slot) (processes s))).
(** [KernelProcess::spawn] and the public [create_thread_with_stack]. *)
Definition spawn (trampoline process weight : Z) (stack : KernelStack) (entry arg : Z) :
    M (Scheduler Ctx) (Result Z InitError) :=
  create_thread_with_stack trampoline process weight false stack entry arg.
End Scheduler.
