(* ===== verification/TaskInv.v ===== *)
(** * Invariants of the scheduler

    The thread table seen as the list of its threads, the rules of the table's
    operations, and the invariant that thread creation, timer ticks and
    preemption keep: one running thread, which is the current one. *)

From S2P Require Import Prelude Address Clock Pmm Trace Context KernelStack Task.
From stdpp Require Import base tactics option list list_numbers numbers strings sets.

#[local] Open Scope Z_scope.
#[local] Open Scope kernel_scope.

Section Inv.
Context {Ctx : Type} `{ContextOps Ctx}.
Implicit Types (s : Scheduler Ctx) (ts : list (option (Thread Ctx))) (l : list (Thread Ctx)).

(** ** The table as a list of threads *)

Definition live ts : list (Thread Ctx) := omap (fun slot => slot) ts.

Lemma position_Some {A} (p : A -> bool) (xs : list A) i :
  position p xs = Some i -> exists x, xs !! i = Some x /\ p x = true.
Proof.
  revert i. induction xs as [|x xs IH]; intros i; simpl; [done|].
  destruct (p x) eqn:Hp; [intros [= <-]; by exists x|].
  destruct (position p xs) as [j|]; [|done]. intros [= <-]. by apply IH.
Qed.
Lemma position_None {A} (p : A -> bool) (xs : list A) x :
  position p xs = None -> x ∈ xs -> p x = false.
Proof.
  induction xs as [|y xs IH]; simpl; [by intros _ ?%not_elem_of_nil|].
  destruct (p y) eqn:Hp; [done|]. destruct (position p xs); [done|].
  intros _ [->|Hin]%elem_of_cons; [done|]. by apply IH.
Qed.

Lemma elem_of_live ts t : t ∈ live ts <-> Some t ∈ ts.
Proof.
  unfold live. rewrite list_elem_of_omap. split; [intros (x & Hx & Heq); simpl in Heq; by subst|]. intros Ht. by exists (Some t).
Qed.

Lemma live_app ts1 ts2 : live (ts1 ++ ts2) = live ts1 ++ live ts2.
Proof. unfold live. induction ts1 as [|[t|] ts1 IH]; csimpl; [done|by rewrite IH|done]. Qed.

(** A slot that holds a thread splits the list; updating it maps the thread. *)
Lemma live_split ts i t :
  ts !! i = Some (Some t) ->
  exists l1 l2, live ts = l1 ++ t :: l2 /\
    forall f, live (alter (option_map f) i ts) = l1 ++ f t :: l2.
Proof.
  intros Hi. apply list_elem_of_split_length in Hi as (ts1 & ts2 & -> & ->).
  exists (live ts1), (live ts2). rewrite live_app. split; [done|]. intros f.
  replace (length ts1) with (length ts1 + 0)%nat by lia. by rewrite alter_app_r, live_app.
Qed.

(** Filling an empty slot inserts a thread. *)
Lemma live_fill ts i t :
  ts !! i = Some None ->
  exists l1 l2, live ts = l1 ++ l2 /\ live (<[i := Some t]> ts) = l1 ++ t :: l2.
Proof.
  intros Hi. apply list_elem_of_split_length in Hi as (ts1 & ts2 & -> & ->).
  exists (live ts1), (live ts2). rewrite live_app. split; [done|].
  by rewrite list_insert_middle, live_app.
Qed.

Lemma live_length ts : (length (live ts) <= length ts)%nat.
Proof. unfold live. induction ts as [|[t|] ts IH]; csimpl; lia. Qed.
Lemma live_length_lt ts i : ts !! i = Some None -> (length (live ts) < length ts)%nat.
Proof.
  intros Hi. apply list_elem_of_split_length in Hi as (ts1 & ts2 & -> & ->).
  rewrite live_app, !length_app. simpl.
  pose proof (live_length ts1). pose proof (live_length ts2). unfold live in *. lia.
Qed.

(** The distinct threads have distinct identifiers. *)
Definition distinct ts : Prop := NoDup (t_id <$> live ts).

Lemma distinct_eq ts t1 t2 : distinct ts -> t1 ∈ live ts -> t2 ∈ live ts -> t_id t1 = t_id t2 -> t1 = t2.
Proof.
  unfold distinct. intros Hnd H1 H2 Heq. apply list_elem_of_lookup in H1 as [i1 H1], H2 as [i2 H2].
  assert (i1 = i2) as ->; [|congruence].
  eapply NoDup_lookup; [exact Hnd|by rewrite list_lookup_fmap, H1|].
  by rewrite list_lookup_fmap, H2, Heq.
Qed.

Lemma thread_index_Some ts id i :
  thread_index id ts = Some i -> exists t, ts !! i = Some (Some t) /\ t_id t = id.
Proof.
  unfold thread_index. intros (x & Hx & Hp)%position_Some. destruct x as [t|]; [|done].
  exists t. split; [done|]. by apply Z.eqb_eq.
Qed.
Lemma thread_index_live ts t :
  distinct ts -> t ∈ live ts ->
  exists i, thread_index (t_id t) ts = Some i /\ ts !! i = Some (Some t).
Proof.
  intros Hd Ht. destruct (thread_index (t_id t) ts) as [i|] eqn:Hi.
  - exists i. split; [done|]. destruct (thread_index_Some _ _ _ Hi) as (t' & Hl & Hid).
    rewrite Hl. repeat f_equal. apply (distinct_eq ts); [done| |done|done].
    apply elem_of_live. by eapply list_elem_of_lookup_2.
  - unfold thread_index in Hi. apply elem_of_live in Ht.
    pose proof (position_None _ _ _ Hi Ht) as Hne. cbv beta iota in Hne. by rewrite Z.eqb_refl in Hne.
Qed.
Lemma thread_live s t : distinct (threads s) -> t ∈ live (threads s) -> thread s (t_id t) = Some t.
Proof.
  intros Hd Ht. unfold thread, thread_at. destruct (thread_index_live _ _ Hd Ht) as (i & -> & Hi).
  by rewrite Hi.
Qed.

(** The thread with an identifier changed. *)
Definition on_id (id : Z) (f : Thread Ctx -> Thread Ctx) (t : Thread Ctx) : Thread Ctx :=
  if t_id t =? id then f t else t.

Lemma on_id_other id f t : t_id t <> id -> on_id id f t = t.
Proof. intros Hne. unfold on_id. by rewrite (proj2 (Z.eqb_neq _ _)). Qed.
Lemma on_id_same t f : on_id (t_id t) f t = f t.
Proof. unfold on_id. by rewrite Z.eqb_refl. Qed.

Lemma map_others id f l : id ∉ t_id <$> l -> on_id id f <$> l = l.
Proof.
  intros Hid. rewrite <-(list_fmap_id l) at 2. apply list_fmap_ext. intros i t Hi. simpl.
  apply on_id_other. intros <-. apply Hid, list_elem_of_fmap_2. by eapply list_elem_of_lookup_2.
Qed.

Lemma live_update ts id i f :
  distinct ts -> thread_index id ts = Some i ->
  live (alter (option_map f) i ts) = on_id id f <$> live ts.
Proof.
  unfold distinct. intros Hd (t & Hi & <-)%thread_index_Some.
  destruct (live_split _ _ _ Hi) as (l1 & l2 & Hl & Hf). rewrite Hf. rewrite Hl in Hd |- *.
  rewrite fmap_app, fmap_cons in Hd. rewrite fmap_app, fmap_cons, on_id_same.
  apply NoDup_app in Hd as (_ & H1 & Hd%NoDup_cons). destruct Hd as [H2 _].
  rewrite !map_others; [done|done|]. intros Hin. by apply (H1 _ Hin); left.
Qed.

Lemma live_ids id (f : Thread Ctx -> Thread Ctx) l :
  (forall t, t_id (f t) = t_id t) -> t_id <$> (on_id id f <$> l) = t_id <$> l.
Proof.
  intros Hf. rewrite <-list_fmap_compose. apply list_fmap_ext. intros i t _. simpl.
  unfold on_id. case_match; [apply Hf|done].
Qed.

(** ** The ready thread with the least key *)

Definition key_le (t1 t2 : Thread Ctx) : Prop :=
  t_virtual_runtime t1 < t_virtual_runtime t2 \/
  (t_virtual_runtime t1 = t_virtual_runtime t2 /\ t_id t1 <= t_id t2).

Lemma key_lt_spec (t1 t2 : Thread Ctx) : if key_lt t1 t2 then key_le t1 t2 else key_le t2 t1.
Proof.
  unfold key_lt, key_le.
  destruct (Z.ltb_spec (t_virtual_runtime t1) (t_virtual_runtime t2)); simpl; [lia|].
  destruct (Z.eqb_spec (t_virtual_runtime t1) (t_virtual_runtime t2)); simpl; [|lia].
  destruct (Z.ltb_spec (t_id t1) (t_id t2)); lia.
Qed.

Lemma min_fold_spec l : forall b,
  exists m, foldl (fun best t =>
    match best with
    | None => Some t
    | Some b => if key_lt t b then Some t else Some b
    end) (Some b) l = Some m /\ m ∈ b :: l /\ forall t, t ∈ b :: l -> key_le m t.
Proof.
  assert (forall t : Thread Ctx, key_le t t) as Hrefl by (unfold key_le; lia).
  assert (forall t1 t2 t3 : Thread Ctx, key_le t1 t2 -> key_le t2 t3 -> key_le t1 t3) as Htrans
    by (unfold key_le; lia).
  induction l as [|t l IH]; intros b; simpl.
  - exists b. split_and!; [done|by left|]. by intros t [->|?%not_elem_of_nil]%elem_of_cons.
  - pose proof (key_lt_spec t b) as Hlt. destruct (key_lt t b).
    + destruct (IH t) as (m & Hm & Hin & Hle). exists m. split_and!; [done|set_solver|].
      intros u [->|Hu]%elem_of_cons; [|by apply Hle]. eapply Htrans; [|exact Hlt]. apply Hle. by left.
    + destruct (IH b) as (m & Hm & Hin & Hle). exists m. split_and!; [done|set_solver|].
      intros u [->|[->|Hu]%elem_of_cons]%elem_of_cons.
      * apply Hle. by left.
      * eapply Htrans; [|exact Hlt]. apply Hle. by left.
      * apply Hle. by right.
Qed.

(** [ready s t]: [t] is a thread the scheduler may choose. *)
Definition ready s (t : Thread Ctx) : Prop :=
  t ∈ live (threads s) /\ t_state t = Ready /\ t_idle t = false.

Lemma elem_of_candidates s t : t ∈ List.filter is_candidate (live (threads s)) <-> ready s t.
Proof.
  rewrite list_elem_of_In, List.filter_In, <-list_elem_of_In. unfold ready, is_candidate.
  rewrite andb_true_iff, bool_decide_eq_true, negb_true_iff. done.
Qed.

Lemma best_ready_thread_spec s :
  match best_ready_thread s with
  | Some b => ready s b /\ forall t, ready s t -> key_le b t
  | None => forall t, ~ ready s t
  end.
Proof.
  unfold best_ready_thread, min_by_key. fold (live (threads s)).
  pose proof (elem_of_candidates s) as Hc.
  destruct (List.filter is_candidate (live (threads s))) as [|b l]; simpl.
  - intros t Ht%Hc. by apply not_elem_of_nil in Ht.
  - destruct (min_fold_spec l b) as (m & -> & Hin & Hle). split; [by apply Hc|].
    intros t Ht%Hc. by apply Hle.
Qed.

(** ** The invariant *)

Record thread_ok s (t : Thread Ctx) : Prop := {
  ok_id : 1 <= t_id t < next_thread_id s;
  ok_weight : 0 < t_weight t < 2 ^ 32;
  ok_runtime : 0 <= t_virtual_runtime t < 2 ^ 64;
  ok_state : t_state t = Ready \/ t_state t = Running;
  ok_running : t_state t = Running -> current s = Some (t_id t);
  ok_idle : t_idle t = true -> idle s = Some (t_id t);
  ok_min : t_idle t = false -> min_virtual_runtime s <= t_virtual_runtime t;
}.

(** The current thread runs. *)
Definition running s (t : Thread Ctx) : Prop :=
  t ∈ live (threads s) /\ t_state t = Running /\ current s = Some (t_id t).

Record sched_inv s : Prop := {
  si_distinct : distinct (threads s);
  si_threads t : t ∈ live (threads s) -> thread_ok s t;
  si_current : exists t, running s t;
  si_idle : exists t, t ∈ live (threads s) /\ t_idle t = true /\ idle s = Some (t_id t);
  si_next : 1 <= next_thread_id s < 2 ^ 32;
  si_min : 0 <= min_virtual_runtime s < 2 ^ 64;
  si_need : need_reschedule s = true -> exists t, ready s t;
  si_init : sched_initialized s = true;
  si_trace : exists history, records 7 history (trace_ring s);
  si_table : Z.of_nat (length (threads s)) < 2 ^ 32 - 1;
  si_counts p : Some p ∈ processes s -> 0 <= p_thread_count p <= Z.of_nat (length (live (threads s)));
}.

Lemma wp_trace k a b c (Q : unit -> Scheduler Ctx -> Prop) s :
  (exists history, records 7 history (trace_ring s)) ->
  (forall r, (exists history, records 7 history r) -> Q tt (set_trace_ring r s)) ->
  wp (trace k a b c) Q s.
Proof.
  intros [h Hr] HQ. unfold wp, trace.
  destruct (proj1 (wp_unfold _ _ _) (records_emit 7 h (trace_ring s)
    {| event_kind := k; event_subject := a; event_object := b; event_value := c |} Hr))
    as ([] & r & -> & Hr'). apply HQ. eauto.
Qed.

Lemma charge_bounds e w : 1 <= e < 2 ^ 64 -> 0 < w < 2 ^ 32 -> 1 <= charge e w < 2 ^ 64.
Proof.
  intros He Hw. unfold charge, SCHED_TIME_SLICE_NS, SCHED_BASE_WEIGHT, TICK_RATE_HZ, u64_MAX.
  change (1000000000 / 100) with 10000000.
  assert (1 <= 10000000 * e * 1024 / w) by (apply Z.div_le_lower_bound; lia). lia.
Qed.

(** What a tick of [e] makes of the current thread's virtual runtime. *)
Definition charged (e : Z) (t : Thread Ctx) : Z :=
  saturating_add 64 (t_virtual_runtime t) (charge e (t_weight t)).

Record ticked (e : Z) s (t : Thread Ctx) s' : Prop := {
  tk_threads : live (threads s') = on_id (t_id t) (set_t_virtual_runtime (charged e t)) <$> live (threads s);
  tk_length : length (threads s') = length (threads s);
  tk_current : current s' = current s;
  tk_idle : idle s' = idle s;
  tk_processes : processes s' = processes s;
  tk_next : next_thread_id s' = next_thread_id s;
  tk_dropped : dropped s' = dropped s;
  tk_init : sched_initialized s' = sched_initialized s;
  tk_trace : exists history, records 7 history (trace_ring s');
  tk_need : need_reschedule s' = true <->
    need_reschedule s = true \/ exists b, ready s' b /\ t_virtual_runtime b < charged e t;
  tk_min : min_virtual_runtime s <= min_virtual_runtime s';
  tk_min_ready b : ready s' b -> min_virtual_runtime s' <= Z.max (min_virtual_runtime s) (t_virtual_runtime b);
  tk_min_current : t_idle t = false -> min_virtual_runtime s' <= Z.max (min_virtual_runtime s) (charged e t);
  tk_min_u64 : 0 <= min_virtual_runtime s' < 2 ^ 64;
}.

Lemma tick_spec s t e :
  sched_inv s -> running s t -> 1 <= e < 2 ^ 64 ->
  wp (tick e) (fun r s' => r = Ok tt /\ ticked e s t s') s.
Proof.
  intros Hinv (Ht & Hrun & Hcur) He. pose proof (si_threads _ Hinv t Ht) as [_ Hw Hv _ _ _ _].
  destruct (thread_index_live _ _ (si_distinct _ Hinv) Ht) as (i & Hidx & Hi).
  pose proof (charge_bounds e (t_weight t) He Hw) as Hch.
  assert (0 <= charged e t < 2 ^ 64) as Hvr by (unfold charged, saturating_add; lia).
  pose proof (si_min _ Hinv) as Hmin.
  unfold tick. rewrite (proj2 (Z.eqb_neq e 0)) by lia. apply wp_bind, wp_gets.
  rewrite (si_init _ Hinv), Hcur, Hidx. unfold thread_at at 1. rewrite Hi. cbn [negb default from_option id].
  rewrite (proj2 (Z.eqb_neq (t_weight t) 0)) by lia. cbv zeta.
  change (saturating_add 64 (t_virtual_runtime t) (charge e (t_weight t))) with (charged e t).
  apply wp_bind, wp_modify, wp_bind, wp_trace; [apply Hinv|]. intros r Hr. apply wp_bind, wp_gets.
  set (s1 := set_trace_ring r (update_thread i (set_t_virtual_runtime (charged e t)) s)).
  assert (live (threads s1) = on_id (t_id t) (set_t_virtual_runtime (charged e t)) <$> live (threads s)) as Hl.
  { apply live_update; [apply Hinv|done]. }
  assert (length (threads s1) = length (threads s)) as Hlen by apply length_alter.
  pose proof (best_ready_thread_spec s1) as Hbest. destruct (best_ready_thread s1) as [b|].
  - destruct Hbest as [Hb Hle].
    assert (0 <= t_virtual_runtime b < 2 ^ 64) as Hbv.
    { destruct Hb as [Hb _]. rewrite Hl in Hb. apply list_elem_of_fmap in Hb as (b0 & -> & Hb0).
      unfold on_id. case_match; [done|]. apply (si_threads _ Hinv b0 Hb0). }
    assert (forall b', ready s1 b' -> t_virtual_runtime b <= t_virtual_runtime b') as Hle'
      by (intros b' Hb'; specialize (Hle b' Hb'); unfold key_le in Hle; lia).
    set (m := Z.min _ _).
    assert (m <= t_virtual_runtime b /\ (t_idle t = false -> m <= charged e t) /\ 0 <= m < 2 ^ 64)
      as (Hm1 & Hm2 & Hm3) by (unfold m, u64_MAX; destruct (t_idle t); lia).
    destruct (Z.ltb_spec (t_virtual_runtime b) (charged e t)) as [Hlt|Hge];
      destruct (Z.ltb_spec (min_virtual_runtime s1) m) as [Hmm|Hmm]; cbn in Hmm; wp_steps; (split; [done|]).
    all: split; cbn; try done; try lia.
    all: first
      [ split; [intros _; right; by exists b|done]
      | intros b' Hb'; specialize (Hle' b' Hb'); lia
      | split; [by left|intros [Hn|(b' & Hb' & Hlt)]; [done|specialize (Hle' b' Hb'); lia]]
      | intros Hi0; specialize (Hm2 Hi0); lia ].
  - destruct (negb (t_idle t) && (min_virtual_runtime s1 <? charged e t)) eqn:Hup; wp_steps; (split; [done|]).
    all: split; cbn; try done; try lia.
    all: first
      [ split; [by left|intros [Hn|(b' & Hb' & Hlt)]; [done|by apply Hbest in Hb']]
      | intros b' Hb'; by apply Hbest in Hb'
      | apply andb_true_iff in Hup as [_ Hup%Z.ltb_lt]; cbn in Hup; lia ].
Qed.

Lemma on_id_elem id f l t : t ∈ on_id id f <$> l -> exists t0, t0 ∈ l /\ t = on_id id f t0.
Proof. intros (t0 & -> & Ht0)%list_elem_of_fmap. by exists t0. Qed.
Lemma elem_on_id id f l t : t ∈ l -> on_id id f t ∈ on_id id f <$> l.
Proof. apply list_elem_of_fmap_2. Qed.

Lemma ticked_inv s t e s' :
  sched_inv s -> running s t -> 1 <= e < 2 ^ 64 -> ticked e s t s' ->
  sched_inv s' /\ running s' (set_t_virtual_runtime (charged e t) t).
Proof.
  intros Hinv (Ht & Hrun & Hcur) He Hk. pose proof (si_threads _ Hinv t Ht) as [_ Hw Hv _ _ _ _].
  pose proof (charge_bounds e (t_weight t) He Hw) as Hch. destruct Hk.
  assert (t_virtual_runtime t <= charged e t < 2 ^ 64) as Hvr by (unfold charged, saturating_add; lia).
  assert (running s' (set_t_virtual_runtime (charged e t) t)) as Hrun'.
  { split_and!; [|done|by rewrite tk_current0]. rewrite tk_threads0, <-(on_id_same t). by apply elem_on_id. }
  split; [|done]. split.
  - unfold distinct. rewrite tk_threads0, live_ids by done. apply Hinv.
  - intros u Hu. pose proof Hu as Hu'. rewrite tk_threads0 in Hu'.
    apply on_id_elem in Hu' as (u0 & Hu0 & ->).
    destruct (si_threads _ Hinv u0 Hu0) as [Hid Hwu Hvu Hst Hr Hi Hm].
    destruct (decide (t_id u0 = t_id t)) as [Heq|Hne].
    + assert (u0 = t) as -> by (by apply (distinct_eq (threads s)); [apply Hinv|..]).
      rewrite on_id_same in *. split; cbn; rewrite ?tk_next0, ?tk_current0, ?tk_idle0; try done; try lia.
      intros Hni. specialize (Hm Hni). specialize (tk_min_current0 Hni). lia.
    + rewrite on_id_other in * by done.
      split; rewrite ?tk_next0, ?tk_current0, ?tk_idle0; try done.
      intros Hni. specialize (Hm Hni). specialize (tk_min_ready0 u0).
      destruct Hst as [Hst|Hst]; [|apply Hr in Hst; congruence].
      assert (ready s' u0) as Hru by (by split_and!). specialize (tk_min_ready0 Hru). lia.
  - eauto.
  - destruct (si_idle _ Hinv) as (d & Hd & Hdi & Hds).
    exists (on_id (t_id t) (set_t_virtual_runtime (charged e t)) d).
    rewrite tk_threads0, tk_idle0. split; [by apply elem_on_id|]. unfold on_id. by case_match.
  - rewrite tk_next0. apply Hinv.
  - done.
  - intros [Hn|(b & Hb & _)]%tk_need0; [|by exists b].
    destruct (si_need _ Hinv Hn) as (b & Hb & Hbs & Hbi). exists b.
    split_and!; [|done|done]. rewrite tk_threads0.
    rewrite <-(on_id_other (t_id t) (set_t_virtual_runtime (charged e t)) b); [by apply elem_on_id|].
    intros Heq. assert (b = t) as -> by (by apply (distinct_eq (threads s)); [apply Hinv|..]). congruence.
  - rewrite tk_init0. apply Hinv.
  - done.
  - rewrite tk_length0. apply Hinv.
  - intros p Hp. rewrite tk_processes0 in Hp. rewrite tk_threads0, length_fmap. by apply Hinv.
Qed.

(** ** Switching *)

Definition demote (t : Thread Ctx) : Thread Ctx :=
  if decide (t_state t = Running) then set_t_state Ready t else t.

Record switched_to s (t b : Thread Ctx) s' : Prop := {
  st_threads : live (threads s') =
    on_id (t_id b) (set_t_state Running) <$> (on_id (t_id t) demote <$> live (threads s));
  st_length : length (threads s') = length (threads s);
  st_current : current s' = Some (t_id b);
  st_idle : idle s' = idle s;
  st_processes : processes s' = processes s;
  st_next : next_thread_id s' = next_thread_id s;
  st_dropped : dropped s' = dropped s;
  st_init : sched_initialized s' = sched_initialized s;
  st_trace : exists history, records 7 history (trace_ring s');
  st_need : need_reschedule s' = need_reschedule s;
  st_min : min_virtual_runtime s' = min_virtual_runtime s;
}.

Lemma demote_id t : t_id (demote t) = t_id t.
Proof. unfold demote. by case_decide. Qed.

Lemma schedule_spec s t b :
  sched_inv s -> running s t -> best_ready_thread s = Some b ->
  wp schedule (fun r s' => r = Some {| previous := t_id t; next := t_id b |} /\ switched_to s t b s') s.
Proof.
  intros Hinv (Ht & Hrun & Hcur) Hb. pose proof (best_ready_thread_spec s) as Hbest. rewrite Hb in Hbest.
  destruct Hbest as [(Hbl & Hbs & Hbi) _]. pose proof (si_distinct _ Hinv) as Hd.
  assert (t_id t <> t_id b) as Hne.
  { intros Heq. assert (t = b) as -> by (by apply (distinct_eq (threads s))). congruence. }
  destruct (thread_index_live _ _ Hd Ht) as (i & Hidx & Hi).
  unfold schedule. apply wp_bind, wp_gets. rewrite Hcur, Hb, (proj2 (Z.eqb_neq _ _) Hne).
  apply wp_bind, wp_modify. rewrite Hidx. set (s1 := update_thread i _ s).
  assert (live (threads s1) = on_id (t_id t) demote <$> live (threads s)) as Hl1 by (by apply live_update).
  assert (distinct (threads s1)) as Hd1.
  { unfold distinct. rewrite Hl1, live_ids by apply demote_id. exact Hd. }
  assert (b ∈ live (threads s1)) as Hb1.
  { rewrite Hl1, <-(on_id_other (t_id t) demote b) by congruence. by apply elem_on_id. }
  destruct (thread_index_live _ _ Hd1 Hb1) as (j & Hjdx & Hj).
  apply wp_bind, wp_modify. rewrite Hjdx. set (s2 := update_thread j _ s1).
  assert (live (threads s2) = on_id (t_id b) (set_t_state Running) <$> live (threads s1)) as Hl2
    by (by apply live_update).
  apply wp_bind, wp_modify, wp_bind, wp_trace; [apply Hinv|]. intros r Hr. apply wp_ret.
  split; [done|]. split; try done.
  - change (live (threads s2) = on_id (t_id b) (set_t_state Running) <$> (on_id (t_id t) demote <$> live (threads s))).
    by rewrite Hl2, Hl1.
  - cbn. by rewrite !length_alter.
Qed.

(** A thread of the new table is the old current one demoted, the chosen one
    promoted, or unchanged. *)
Lemma switched_elem s t b s' u :
  switched_to s t b s' -> distinct (threads s) -> t ∈ live (threads s) -> b ∈ live (threads s) ->
  t_id t <> t_id b -> t_state t = Running ->
  u ∈ live (threads s') <->
    u = set_t_state Ready t \/ u = set_t_state Running b \/
    (u ∈ live (threads s) /\ t_id u <> t_id t /\ t_id u <> t_id b).
Proof.
  intros Hsw Hd Ht Hb Hne Hrun. rewrite (st_threads _ _ _ _ Hsw), list_elem_of_fmap.
  assert (demote t = set_t_state Ready t) as Hdem by (unfold demote; by rewrite decide_True).
  rewrite <-Hdem. split.
  - intros (u1 & -> & (u0 & Hu0 & ->)%on_id_elem).
    destruct (decide (t_id u0 = t_id t)) as [Heq|Hnt].
    + assert (u0 = t) as -> by (by apply (distinct_eq (threads s))). left.
      by rewrite on_id_same, on_id_other by (by rewrite demote_id).
    + right. rewrite (on_id_other (t_id t)) by done.
      destruct (decide (t_id u0 = t_id b)) as [Heq|Hnb].
      * left. assert (u0 = b) as -> by (by apply (distinct_eq (threads s))). by rewrite on_id_same.
      * right. by rewrite on_id_other.
  - intros [->|[->|(Hu & Hnt & Hnb)]].
    + exists (demote t). split; [by rewrite on_id_other by (by rewrite demote_id)|].
      rewrite <-(on_id_same t demote) at 1. by apply elem_on_id.
    + exists b. split; [by rewrite on_id_same|].
      rewrite <-(on_id_other (t_id t) demote b) by congruence. by apply elem_on_id.
    + exists u. split; [by rewrite on_id_other|].
      rewrite <-(on_id_other (t_id t) demote u) by done. by apply elem_on_id.
Qed.

Lemma switched_distinct s t b s' : switched_to s t b s' -> distinct (threads s) -> distinct (threads s').
Proof.
  intros Hsw Hd. unfold distinct. rewrite (st_threads _ _ _ _ Hsw), live_ids by done.
  by rewrite live_ids by apply demote_id.
Qed.

Lemma switched_inv s t b s' :
  sched_inv s -> running s t -> ready s b -> need_reschedule s = false -> switched_to s t b s' ->
  sched_inv s' /\ running s' (set_t_state Running b).
Proof.
  intros Hinv (Ht & Hrun & Hcur) (Hb & Hbs & Hbi) Hneed Hsw. pose proof (si_distinct _ Hinv) as Hd.
  assert (t_id t <> t_id b) as Hne.
  { intros Heq. assert (t = b) as -> by (by apply (distinct_eq (threads s))). congruence. }
  pose proof (switched_elem s t b s') as Hel.
  specialize (fun u => Hel u Hsw Hd Ht Hb Hne Hrun).
  assert (running s' (set_t_state Running b)) as Hrun'.
  { split_and!; [apply Hel; tauto|done|by rewrite (st_current _ _ _ _ Hsw)]. }
  split; [|done]. pose proof Hsw as []. split.
  - by eapply switched_distinct.
  - intros u [->|[->|(Hu & Hnt & Hnb)]]%Hel.
    + destruct (si_threads _ Hinv t Ht). split; cbn; rewrite ?st_next0, ?st_idle0, ?st_min0; auto; done.
    + destruct (si_threads _ Hinv b Hb). split; cbn; rewrite ?st_next0, ?st_idle0, ?st_min0; auto.
    + destruct (si_threads _ Hinv u Hu) as [Hid Hw Hv Hst Hr Hi Hm].
      split; rewrite ?st_next0, ?st_idle0, ?st_min0; try done.
      intros Hur%Hr. congruence.
  - eauto.
  - destruct (si_idle _ Hinv) as (d & Hdl & Hdi & Hds). rewrite st_idle0.
    destruct (decide (t_id d = t_id t)) as [Heq|Hdt].
    { assert (d = t) as -> by (by apply (distinct_eq (threads s))).
      exists (set_t_state Ready t). split; [apply Hel; tauto|done]. }
    exists d. split; [|done]. apply Hel. right; right. split_and!; [done|done|].
    intros Heq. assert (d = b) as -> by (by apply (distinct_eq (threads s))). congruence.
  - rewrite st_next0. apply Hinv.
  - rewrite st_min0. apply Hinv.
  - rewrite st_need0, Hneed. done.
  - rewrite st_init0. apply Hinv.
  - done.
  - rewrite st_length0. apply Hinv.
  - intros p Hp. rewrite st_processes0 in Hp. rewrite st_threads0, !length_fmap. by apply Hinv.
Qed.

(** Clearing the reschedule request. *)
Lemma clear_need_inv s : sched_inv s -> sched_inv (set_need_reschedule false s).
Proof. intros []. split; try done. intros t Ht. by destruct (si_threads0 t Ht). Qed.
Lemma trace_inv s r :
  sched_inv s -> (exists history, records 7 history r) -> sched_inv (set_trace_ring r s).
Proof. intros []. split; try done. intros t Ht. by destruct (si_threads0 t Ht). Qed.

(** A pending reschedule chooses the ready thread with the least key. *)
Lemma preempt_spec s t :
  sched_inv s -> running s t -> need_reschedule s = true ->
  exists b, ready s b /\ (forall u, ready s u -> key_le b u) /\
  wp preempt_contexts (fun r s' =>
    switched_to (set_need_reschedule false s) t b s' /\ sched_inv s' /\
    exists i j, r = Ok (Some {| old := ThreadContext i; new := ThreadContext j |}) /\
      threads s' !! i = Some (Some (set_t_state Ready t)) /\
      threads s' !! j = Some (Some (set_t_state Running b))) s.
Proof.
  intros Hinv Hrun Hneed. pose proof (best_ready_thread_spec s) as Hbest.
  destruct (best_ready_thread s) as [b|] eqn:Hb.
  2:{ destruct (si_need _ Hinv Hneed) as [u Hu]. by apply Hbest in Hu. }
  destruct Hbest as [Hrb Hle]. exists b. split; [done|]. split; [done|].
  pose proof (clear_need_inv s Hinv) as Hinv1. set (s1 := set_need_reschedule false s) in *.
  unfold preempt_contexts. apply wp_bind, wp_gets. rewrite (si_init _ Hinv), Hneed. cbn [negb].
  apply wp_bind, wp_modify, wp_bind. fold s1.
  eapply wp_mono; [exact (schedule_spec s1 t b Hinv1 Hrun Hb)|]. intros r s2 [-> Hsw]. cbn [previous next].
  destruct (switched_inv s1 t b s2 Hinv1 Hrun Hrb eq_refl Hsw) as [Hinv2 Hrun2].
  apply wp_bind, wp_trace; [apply Hinv2|]. intros r Hr. apply wp_bind, wp_gets.
  cbn [threads set_trace_ring]. destruct Hrun as (Ht & Hrt & Hcur). pose proof (si_distinct _ Hinv) as Hd.
  assert (t_id t <> t_id b) as Hne.
  { intros Heq. assert (t = b) as -> by (apply (distinct_eq (threads s)); [done..|apply Hrb|done]).
    destruct Hrb as (_ & Hst & _). congruence. }
  pose proof (switched_elem s1 t b s2) as Hel. specialize (fun u => Hel u Hsw Hd Ht (proj1 Hrb) Hne Hrt).
  destruct (thread_index_live (threads s2) (set_t_state Ready t)) as (i & Hi & Hil);
    [apply Hinv2|apply Hel; tauto|].
  destruct (thread_index_live (threads s2) (set_t_state Running b)) as (j & Hj & Hjl);
    [apply Hinv2|apply Hel; tauto|].
  cbn in Hi, Hj. rewrite Hi, Hj. apply wp_ret. split_and!.
  - destruct Hsw; by split.
  - by apply trace_inv.
  - by exists i, j.
Qed.

(** ** Creating threads *)

Definition is_none {A} (slot : option A) : bool := match slot with None => true | Some _ => false end.

(** The process that may own new threads. *)
Definition active_process s (id : Z) : Prop :=
  exists p, Some p ∈ processes s /\ p_id p = id /\ p_state p = Active.

Lemma process_index_spec s id :
  match process_index id s with
  | Some i => exists p, processes s !! i = Some (Some p) /\ p_id p = id /\ p_state p = Active
  | None => ~ active_process s id
  end.
Proof.
  destruct (process_index id s) as [i|] eqn:Hi; unfold process_index in Hi.
  - apply position_Some in Hi as ([p|] & Hp & Hb); [|done].
    apply andb_true_iff in Hb as [Hid%Z.eqb_eq Hst%bool_decide_eq_true]. by exists p.
  - intros (p & Hp & Hid & Hst). pose proof (position_None _ _ _ Hi Hp) as Hb. cbn in Hb.
    by rewrite Hid, Z.eqb_refl, bool_decide_eq_true_2 in Hb.
Qed.

Lemma free_slot_spec {A} (xs : list (option A)) :
  match position is_none xs with
  | Some i => xs !! i = Some None
  | None => forall x, x ∈ xs -> x <> None
  end.
Proof.
  destruct (position is_none xs) as [i|] eqn:Hi.
  - by apply position_Some in Hi as ([x|] & Hx & Hb).
  - intros x Hx ->. by apply (position_None _ _ _ Hi) in Hx.
Qed.

(** The thread that [insert_thread] adds. *)
Record new_thread s (process_id weight : Z) (is_idle : bool) (context : Ctx)
    (stack : option KernelStack) (t : Thread Ctx) : Prop := {
  nt_id : t_id t = next_thread_id s;
  nt_process : t_process t = process_id;
  nt_state : t_state t = Ready;
  nt_context : t_context t = context;
  nt_stack : t_stack t = stack;
  nt_weight : t_weight t = weight;
  nt_runtime : t_virtual_runtime t = if is_idle then 0 else min_virtual_runtime s;
  nt_idle : t_idle t = is_idle;
}.

(** The state after an insertion. *)
Record inserted s (t : Thread Ctx) s' : Prop := {
  in_threads : exists l1 l2, live (threads s) = l1 ++ l2 /\ live (threads s') = l1 ++ t :: l2;
  in_length : length (threads s') = length (threads s);
  in_current : current s' = current s;
  in_idle : idle s' = idle s;
  in_next : next_thread_id s' = next_id (next_thread_id s);
  in_dropped : dropped s' = dropped s;
  in_init : sched_initialized s' = sched_initialized s;
  in_trace : exists history, records 7 history (trace_ring s');
  in_need : need_reschedule s' = need_reschedule s;
  in_min : min_virtual_runtime s' = min_virtual_runtime s;
  in_counts p : Some p ∈ processes s' -> exists p0, Some p0 ∈ processes s /\
    p_thread_count p0 <= p_thread_count p <= p_thread_count p0 + 1;
}.

(** The state after a refused insertion. *)
Record refused s (stack : option KernelStack) s' : Prop := {
  re_threads : threads s' = threads s;
  re_processes : processes s' = processes s;
  re_current : current s' = current s;
  re_idle : idle s' = idle s;
  re_next : next_thread_id s' = next_id (next_thread_id s);
  re_dropped : dropped s' = dropped s ++ option_list stack;
  re_init : sched_initialized s' = sched_initialized s;
  re_trace : trace_ring s' = trace_ring s;
  re_need : need_reschedule s' = need_reschedule s;
  re_min : min_virtual_runtime s' = min_virtual_runtime s;
}.

Lemma drop_stack_refused s stack (e : InitError) :
  wp (drop_stack stack ;;; ret (Err e : Result Z InitError))
    (fun r s' => r = Err e /\ refused s stack s') (set_next_thread_id (next_id (next_thread_id s)) s).
Proof.
  unfold drop_stack. destruct stack as [k|]; wp_steps; (split; [done|]); split; cbn; try done.
  by rewrite app_nil_r.
Qed.

Lemma insert_thread_spec s process_id weight is_idle context stack :
  (exists history, records 7 history (trace_ring s)) ->
  0 <= min_virtual_runtime s ->
  (forall p, Some p ∈ processes s -> 0 <= p_thread_count p <= Z.of_nat (length (live (threads s)))) ->
  Z.of_nat (length (threads s)) < 2 ^ 32 - 1 ->
  wp (insert_thread process_id weight is_idle context stack) (fun r s' =>
    match r with
    | Ok id => id = next_thread_id s /\ active_process s process_id /\
        exists t, new_thread s process_id weight is_idle context stack t /\ inserted s t s'
    | Err ThreadTableFull => refused s stack s' /\ forall slot, slot ∈ threads s -> slot <> None
    | Err ProcessTableFull => refused s stack s' /\ ~ active_process s process_id
    | Err MissingKernelStack => False
    end) s.
Proof.
  intros Htr Hmin Hcounts Htab. unfold insert_thread. apply wp_bind, wp_gets, wp_bind, wp_modify, wp_bind, wp_gets.
  set (s1 := set_next_thread_id _ s). pose proof (process_index_spec s process_id) as Hp.
  change (process_index process_id s1) with (process_index process_id s).
  destruct (process_index process_id s) as [pi|].
  2:{ eapply wp_mono; [apply drop_stack_refused|]. by intros r s' [-> Hre]. }
  destruct Hp as (p & Hpi & Hpid & Hpst). pose proof (free_slot_spec (threads s)) as Hslot.
  change (position _ (threads s1)) with (position is_none (threads s)).
  destruct (position is_none (threads s)) as [ti|].
  2:{ eapply wp_mono; [apply drop_stack_refused|]. by intros r s' [-> Hre]. }
  apply wp_bind. eapply wp_expect; [cbn; by rewrite Hpi|].
  assert (Some p ∈ processes s) as Hpin by (by eapply list_elem_of_lookup_2).
  pose proof (live_length_lt _ _ Hslot). specialize (Hcounts p Hpin) as Hcnt.
  unfold add_thread. apply wp_bind, wp_bind, wp_add_uint; [lia|]. apply wp_ret. cbn [p_thread_count].
  apply wp_bind, wp_modify. cbv zeta. set (t := if _ && _ then _ else _).
  assert (new_thread s process_id weight is_idle context stack t) as Hnew.
  { unfold t. cbn. destruct is_idle; cbn; [by split|].
    destruct (Z.ltb_spec 0 (min_virtual_runtime s)); split; cbn; try done. lia. }
  apply wp_bind, wp_modify, wp_bind.
  assert (forall r, (exists history, records 7 history r) ->
    inserted s t (set_trace_ring r (set_threads (<[ti:=Some t]> (threads s1))
      (set_processes (<[pi:=Some {| p_id := p_id p; p_first_thread := Some (next_thread_id s);
        p_thread_count := p_thread_count p + 1; p_state := p_state p |}]> (processes s1)) s1)))) as Hins.
  { intros r Hr. split; cbn; try done.
    - by apply live_fill.
    - by rewrite length_insert.
    - intros q Hq. apply list_elem_of_lookup in Hq as [k Hk].
      destruct (decide (k = pi)) as [->|Hne].
      + rewrite list_lookup_insert_eq in Hk by (by eapply lookup_lt_Some). injection Hk as <-.
        exists p. cbn. split; [done|lia].
      + rewrite list_lookup_insert_ne in Hk by done. exists q. split; [by eapply list_elem_of_lookup_2|lia]. }
  assert (active_process s process_id) as Hact by (by exists p).
  destruct is_idle; cbn [negb].
  - apply wp_ret, wp_ret. split_and!; [done|done|]. exists t. split; [done|]. exact (Hins (trace_ring s) Htr).
  - apply wp_trace; [exact Htr|]. intros r Hr. apply wp_ret. split_and!; [done|done|].
    exists t. split; [done|]. exact (Hins r Hr).
Qed.

Lemma next_id_small n : 0 <= n < 2 ^ 32 - 1 -> next_id n = n + 1.
Proof. intros Hn. unfold next_id, wrapping_add. rewrite Z.mod_small by lia. lia. Qed.

Lemma inserted_elem s t s' u : inserted s t s' -> u ∈ live (threads s') <-> u = t \/ u ∈ live (threads s).
Proof.
  intros Hin. destruct (in_threads _ _ _ Hin) as (l1 & l2 & -> & ->).
  rewrite !elem_of_app, elem_of_cons. tauto.
Qed.

Lemma inserted_inv s t s' process_id weight context stack :
  sched_inv s -> next_thread_id s < 2 ^ 32 - 1 -> 0 < weight < 2 ^ 32 ->
  new_thread s process_id weight false context stack t -> inserted s t s' ->
  sched_inv s' /\ (forall u, running s u -> running s' u).
Proof.
  intros Hinv Hn Hw Hnew Hin. pose proof (fun u => inserted_elem s t s' u Hin) as Hel.
  pose proof (si_next _ Hinv) as Hnext. destruct Hin, Hnew. rewrite next_id_small in in_next0 by lia.
  assert (forall u, running s u -> running s' u) as Hrun.
  { intros u (Hu & Hst & Hc). split_and!; [by apply Hel; right|done|congruence]. }
  split; [|done]. split.
  - unfold distinct. destruct in_threads0 as (l1 & l2 & Hl & ->).
    pose proof (si_distinct _ Hinv) as Hd. unfold distinct in Hd. rewrite Hl in Hd.
    rewrite fmap_app, fmap_cons, <-Permutation_middle. apply NoDup_cons. split; [|by rewrite <-fmap_app].
    rewrite <-fmap_app, <-Hl. intros (u & Hid & Hu)%list_elem_of_fmap.
    pose proof (ok_id _ _ (si_threads _ Hinv u Hu)). lia.
  - intros u [->|Hu]%Hel.
    + pose proof (si_min _ Hinv).
      cbn in nt_runtime0. split; rewrite ?in_next0, ?in_min0; [lia|lia|lia|by left| | |lia].
      * by rewrite nt_state0.
      * by rewrite nt_idle0.
    + destruct (si_threads _ Hinv u Hu).
      split; rewrite ?in_next0, ?in_min0, ?in_current0, ?in_idle0; try done. lia.
  - destruct (si_current _ Hinv) as [u Hu]. exists u. by apply Hrun.
  - destruct (si_idle _ Hinv) as (d & Hd & Hdi & Hds). exists d. rewrite in_idle0. split; [|done].
    apply Hel. by right.
  - lia.
  - rewrite in_min0. apply Hinv.
  - rewrite in_need0. intros Hneed. destruct (si_need _ Hinv Hneed) as (b & Hb & Hbs). exists b.
    split; [|done]. apply Hel. by right.
  - rewrite in_init0. apply Hinv.
  - done.
  - rewrite in_length0. apply Hinv.
  - intros p (p0 & Hp0 & Hc)%in_counts0. destruct in_threads0 as (l1 & l2 & Hl & ->).
    pose proof (si_counts _ Hinv p0 Hp0) as Hc0. rewrite Hl in Hc0.
    rewrite length_app in *. simpl. lia.
Qed.

Lemma refused_inv s stack s' :
  sched_inv s -> next_thread_id s < 2 ^ 32 - 1 -> refused s stack s' ->
  sched_inv s' /\ (forall u, running s u -> running s' u).
Proof.
  intros Hinv Hn []. pose proof (si_next _ Hinv) as Hnext. rewrite next_id_small in re_next0 by lia.
  split.
  2:{ intros u (Hu & Hst & Hc). split_and!; [by rewrite re_threads0|done|congruence]. }
  destruct Hinv. split; rewrite ?re_threads0, ?re_processes0, ?re_idle0, ?re_min0, ?re_init0, ?re_trace0,
    ?re_next0, ?re_need0; try done; try lia.
  - intros t Ht. destruct (si_threads0 t Ht).
    split; rewrite ?re_next0, ?re_current0, ?re_idle0, ?re_min0; try done. lia.
  - destruct si_current0 as (t & Ht). exists t. unfold running in *. by rewrite re_threads0, re_current0.
  - unfold ready in *. by rewrite re_threads0.
Qed.

(** The kernel stacks that the scheduler's threads own. *)
Definition owned s : list KernelStack := omap t_stack (live (threads s)).

Lemma owned_app l1 l2 : omap t_stack (l1 ++ l2) = omap t_stack l1 ++ omap t_stack l2.
Proof. induction l1 as [|t l1 IH]; csimpl; [done|]. destruct (t_stack t); simpl; by rewrite IH. Qed.

Lemma owned_on_id id f l :
  (forall t, t_stack (f t) = t_stack t) -> omap t_stack (on_id id f <$> l) = omap t_stack l.
Proof.
  intros Hf. induction l as [|t l IH]; csimpl; [done|]. rewrite IH.
  replace (t_stack (on_id id f t)) with (t_stack t); [done|].
  unfold on_id. by destruct (t_id t =? id).
Qed.

Lemma inserted_owned s t s' : inserted s t s' -> owned s' ≡ₚ option_list (t_stack t) ++ owned s.
Proof.
  intros Hin. unfold owned. destruct (in_threads _ _ _ Hin) as (l1 & l2 & -> & ->).
  rewrite !owned_app. csimpl. destruct (t_stack t); simpl; [|done]. symmetry. apply Permutation_middle.
Qed.

(** ** Boot *)

Lemma reset_dropped ts :
  omap (fun slot => match slot with Some t => t_stack t | None => None end) ts = omap t_stack (live ts).
Proof.
  unfold live. induction ts as [|[t|] ts IH]; csimpl; [done| |done]. by rewrite IH.
Qed.

Lemma live_replicate n : live (replicate n None) = [].
Proof. induction n; [done|]. exact IHn. Qed.

Lemma replicate_elem {A} (n : nat) (x y : A) : y ∈ replicate n x -> y = x.
Proof. intros [? _]%elem_of_replicate. done. Qed.

(** The scheduler with its kernel process and no threads. *)
Record empty_kernel s : Prop := {
  ek_threads : exists n, threads s = replicate (S n) None;
  ek_table : Z.of_nat (length (threads s)) < 2 ^ 32 - 1;
  ek_process : active_process s 1;
  ek_counts p : Some p ∈ processes s -> p_thread_count p = 0;
  ek_next : next_thread_id s = 1;
  ek_min : min_virtual_runtime s = 0;
  ek_need : need_reschedule s = false;
  ek_trace : exists history, records 7 history (trace_ring s);
}.

Lemma reset_spec s :
  (0 < length (threads s))%nat -> Z.of_nat (length (threads s)) < 2 ^ 32 - 1 ->
  (0 < length (processes s))%nat ->
  wp (reset ;;; create_process) (fun r s' =>
    r = Ok 1 /\ empty_kernel s' /\ dropped s' = dropped s ++ owned s) s.
Proof.
  intros Ht Ht2 Hp. unfold reset. apply wp_bind, wp_modify. rewrite reset_dropped. fold (owned s).
  destruct (length (threads s)) as [|n] eqn:Hn; [lia|]. destruct (length (processes s)) as [|m]; [lia|].
  unfold create_process. apply wp_bind, wp_gets, wp_bind, wp_modify, wp_bind, wp_gets. cbn.
  split_and!; [done| |done]. split; cbn; try done.
  - by exists n.
  - rewrite length_replicate. lia.
  - exists (Process_new 1). split; [by left|done].
  - intros p [[= ->]|Hin]%elem_of_cons; [done|]. by apply replicate_elem in Hin.
  - exists []. by apply (records_new 7).
Qed.

(** The state once the idle thread runs. *)
Lemma start_idle_spec s t s1 process_id weight context stack :
  empty_kernel s -> 0 < weight < 2 ^ 32 ->
  new_thread s process_id weight true context stack t -> inserted s t s1 ->
  wp (start_idle (t_id t)) (fun _ s' =>
    sched_inv s' /\ live (threads s') = [set_t_state Running t] /\
    current s' = Some (t_id t) /\ idle s' = Some (t_id t) /\ need_reschedule s' = false /\
    dropped s' = dropped s1) s1.
Proof.
  intros [(n & Hts) Htab Hact Hcnt Hnext Hmin Hneed Htr] Hw [] [].
  destruct in_threads0 as (l1 & l2 & Hl & Hl1). rewrite Hts, live_replicate in Hl.
  symmetry in Hl. apply app_nil in Hl as [-> ->]. simpl in Hl1.
  assert (distinct (threads s1)) as Hd.
  { unfold distinct. rewrite Hl1. apply NoDup_singleton. }
  destruct (thread_index_live (threads s1) t) as (i & Hi & _); [done|rewrite Hl1; by left|].
  unfold start_idle. apply wp_bind, wp_modify, wp_bind, wp_modify, wp_bind, wp_modify, wp_modify.
  cbn [threads set_idle set_current]. rewrite Hi. set (s' := set_sched_initialized _ _).
  assert (live (threads s') = [set_t_state Running t]) as Hl'.
  { change (threads s') with (alter (option_map (set_t_state Running)) i (threads s1)).
    rewrite (live_update _ (t_id t)) by done. rewrite Hl1. cbn. by rewrite on_id_same. }
  assert (set_t_state Running t ∈ live (threads s')) as Hin by (rewrite Hl'; by left).
  cbn in nt_runtime0. split_and!; [|done|done|done|cbn; congruence|done]. split; try done.
  - unfold distinct. rewrite Hl'. apply NoDup_singleton.
  - intros u Hu. rewrite Hl' in Hu. apply list_elem_of_singleton in Hu as ->.
    split; cbn; rewrite ?in_next0, ?Hnext; try done; try lia.
    + rewrite nt_id0, Hnext, next_id_small by lia. lia.
    + by right.
  - by exists (set_t_state Running t).
  - by exists (set_t_state Running t).
  - change (next_thread_id s') with (next_thread_id s1). rewrite in_next0, Hnext, next_id_small by lia. lia.
  - change (min_virtual_runtime s') with (min_virtual_runtime s1). rewrite in_min0, Hmin. lia.
  - change (need_reschedule s') with (need_reschedule s1). by rewrite in_need0, Hneed.
  - change (threads s') with (alter (option_map (set_t_state Running)) i (threads s1)).
    rewrite length_alter, in_length0. done.
  - intros p (p0 & Hp0%Hcnt & Hc)%in_counts0. rewrite Hl'. simpl. lia.
Qed.

Lemma init_idle_spec s trampoline stack entry arg :
  (0 < length (threads s))%nat -> Z.of_nat (length (threads s)) < 2 ^ 32 - 1 ->
  (0 < length (processes s))%nat -> stack_base stack + stack_size stack < 2 ^ 64 ->
  wp (init_with_idle_thread trampoline stack entry arg) (fun r s' =>
    r = Ok tt /\ sched_inv s' /\ dropped s' = dropped s ++ owned s /\ owned s' = [stack] /\
    exists t, live (threads s') = [t] /\ running s' t /\ idle s' = Some (t_id t) /\ t_idle t = true /\
      need_reschedule s' = false /\
      t_context t = context_set_entry_data entry arg
        (context_new trampoline (stack_base stack + stack_size stack))) s.
Proof.
  intros Ht Ht2 Hp Htop.
  pose proof (reset_spec s Ht Ht2 Hp) as Hreset. unfold init_with_idle_thread.
  apply (proj1 (wp_bind _ _ _ _)) in Hreset. apply wp_bind. eapply wp_mono; [exact Hreset|].
  intros [] s0 Hc. apply wp_bind. eapply wp_mono; [exact Hc|]. intros r s1 (-> & Hek & Hdrop).
  apply wp_bind. unfold create_thread_with_stack, stack_top. apply wp_bind, wp_add_uint; [done|].
  pose proof (insert_thread_spec s1 1 SCHED_MIN_WEIGHT true (context_set_entry_data entry arg
    (context_new trampoline (stack_base stack + stack_size stack))) (Some stack)) as Hins.
  pose proof Hek as [(n & Hts) Htab Hact Hcnt Hnext Hmin Hneed Htr].
  eapply wp_mono; [apply Hins; [done|lia| |done]|].
  { intros p Hp1%Hcnt. lia. }
  intros [id|[]] s2; [|intros [_ Hn]; by destruct Hn|intros [_ Hn]|done].
  2:{ exfalso. apply (Hn None); [|done]. rewrite Hts. by left. }
  intros (-> & _ & t & Hnew & Hin). apply wp_bind. rewrite <-(nt_id _ _ _ _ _ _ _ Hnew).
  eapply wp_mono; [eapply start_idle_spec; [exact Hek| |exact Hnew|exact Hin]; by unfold SCHED_MIN_WEIGHT|].
  intros [] s3 (Hinv & Hl & Hcur & Hidle & Hnr & Hd). apply wp_ret. destruct Hnew. split_and!; [done|done| | |].
  - by rewrite Hd, (in_dropped _ _ _ Hin).
  - unfold owned. rewrite Hl. csimpl. by rewrite nt_stack0.
  - exists (set_t_state Running t). unfold running. rewrite Hl. split_and!; try done. by left.
Qed.
End Inv.
