(* ===== verification/Switching.v ===== *)
(** * The scheduler on the CPU

    [task::enter_idle] and [task::preempt_from_trap] choose two context records
    under the lock and hand their addresses to the assembly that switches.  Here
    the scheduler of [Task.v] chooses, and the programs of [Context.v] run on a
    CPU whose memory holds the records.  [machine_step] adds what happens in
    between: a thread runs, and time and new threads come. *)

From S2P Require Import Prelude Address Clock Pmm Trace Context KernelStack Task TaskInv TaskTheorems.
From stdpp Require Import base tactics option list list_numbers numbers gmap strings sets relations.

#[local] Open Scope Z_scope.
#[local] Open Scope kernel_scope.

#[global] Instance ContextRef_eq_dec : EqDecision ContextRef.
Proof. solve_decision. Defined.

(** Every record is sixteen words. *)
Class RecordLaws (R Ctx : Type) `{SwitchArch R Ctx, ContextOps Ctx} := {
  capture_length (regs : R -> Z) (c : Ctx) : length (context_words (capture regs c)) = length (context_words c);
  new_length (entry arg pc top : Z) : length (context_words (context_set_entry_data entry arg (context_new pc top))) = 16%nat;
  empty_length : length (context_words context_empty) = 16%nat;
  arguments_differ : first_argument <> second_argument;
}.
#[global] Instance arm64_records : RecordLaws Arm64.Arm64Reg Arm64.Arm64Context.
Proof. by split. Qed.
#[global] Instance riscv64_records : RecordLaws Riscv64.Riscv64Reg Riscv64.Riscv64Context.
Proof. by split. Qed.

(** ** The machine *)

Section Machine.
Context {R Ctx : Type} `{SwitchLaws R Ctx}.
(** Where the records are: fields of [SCHEDULER]. *)
Context (record_address : ContextRef -> Z).

(** The scheduler, the CPU with its memory, and the address it runs at. *)
Record Machine := { m_sched : Scheduler Ctx; m_cpu : Cpu R; m_pc : Z }.
Definition on_machine {A} (m : M (Scheduler Ctx) A) : M Machine A := fun x =>
  match m (m_sched x) with
  | Done (a, s) => Done (a, {| m_sched := s; m_cpu := m_cpu x; m_pc := m_pc x |})
  | Panic msg => Panic msg
  | Undefined => Undefined
  | OutOfFuel => OutOfFuel
  end.

(** The registers at the call: the two records in the argument registers. *)
Definition with_arguments (contexts : ContextPair) (c : Cpu R) : Cpu R :=
  set_reg second_argument (record_address (new contexts)) (set_reg first_argument (record_address (old contexts)) c).
(** [unsafe { switch_context(old, new) }]: the CPU goes on where the program
    leaves to. *)
Definition run_switch (program : list (instr R)) (contexts : ContextPair) : M Machine unit := fun x =>
  match call program (with_arguments contexts (m_cpu x)) with
  | Done (pc, c) => Done (tt, {| m_sched := m_sched x; m_cpu := c; m_pc := pc |})
  | Panic msg => Panic msg
  | Undefined => Undefined
  | OutOfFuel => OutOfFuel
  end.

Definition enter_idle : M Machine (Result unit ScheduleError) :=
  try! contexts := on_machine enter_idle_contexts in
  run_switch switch_program contexts ;;; ret (Ok tt).
Definition preempt_from_trap : M Machine (Result unit ScheduleError) :=
  try! contexts := on_machine preempt_contexts in
  match contexts with
  | None => ret (Ok tt)
  | Some contexts => run_switch from_trap_program contexts ;;; ret (Ok tt)
  end.

(** Writing a record to its place. *)
Fixpoint write_words (base : Z) (words : list Z) (mem : gmap Z Z) : gmap Z Z :=
  match words with
  | [] => mem
  | w :: words => write_words (base + 8) words (<[base := w]> mem)
  end.
Definition write_record (r : ContextRef) (c : Ctx) (x : Machine) : Machine := {|
  m_sched := m_sched x; m_pc := m_pc x;
  m_cpu := {| cpu_regs := cpu_regs (m_cpu x); cpu_irq := cpu_irq (m_cpu x);
              cpu_mem := write_words (record_address r) (context_words c) (cpu_mem (m_cpu x)) |} |}.
(** [create_thread_with_stack]: the new thread's record is written with it. *)
Definition machine_spawn (trampoline process weight : Z) (stack : KernelStack) (entry arg : Z) : M Machine (Result Z InitError) :=
  let! r := on_machine (spawn trampoline process weight stack entry arg) in
  match r with
  | Err e => ret (Err e)
  | Ok id =>
      let! s := gets m_sched in
      match thread_index id (threads s) with
      | None => ret (Ok id)
      | Some i =>
          match thread_at s i with
          | None => ret (Ok id)
          | Some t => modify (write_record (ThreadContext i) (t_context t)) ;;; ret (Ok id)
          end
      end
  end.

(** ** What happened *)

(** Records that were made, and switches with the registers at the call of the
    assembly, the registers it left, and the address it left to. *)
Inductive SwitchEvent :=
  | Created (r : ContextRef) (c : Ctx)
  | Switched (from to : ContextRef) (before after : R -> Z) (pc : Z).
Implicit Types (h : list SwitchEvent) (x : Machine).

(** Whose code the CPU runs, latest event first. *)
Fixpoint running_ref h : ContextRef :=
  match h with
  | [] => BootContext
  | Switched _ to _ _ _ :: _ => to
  | Created _ _ :: h => running_ref h
  end.
(** The registers a record should hold: those at its last suspension, or those
    that it was made with. *)
Fixpoint expected h (r : ContextRef) : option Ctx :=
  match h with
  | [] => None
  | Created r' c :: h => if decide (r = r') then Some c else expected h r
  | Switched from _ before _ _ :: h =>
      if decide (r = from) then option_map (capture before) (expected h r) else expected h r
  end.
(** The switch resumed the code it switched to where it was suspended. *)
Definition resumed h (to : ContextRef) (after : R -> Z) (pc : Z) : Prop :=
  exists c, expected h to = Some c /\ capture after c = c /\ pc = context_link c.

(** ** Steps *)

(** The memory of the records. *)
Definition in_records (a : Z) : Prop := exists r, record_address r <= a < record_address r + Context_SIZE.
Definition same_records (mem mem' : gmap Z Z) : Prop := forall a, in_records a -> mem' !! a = mem !! a.

(** The protocol that the kernel follows; the public functions check none of it.
    The boot code calls [enter_idle] once, and makes no thread before that; a
    running thread makes threads while identifiers last; the timer ticks and
    preempts.  [maybe_reschedule], which no code calls and which switches no
    contexts, is not a step. *)
Inductive machine_step : Machine * list SwitchEvent -> Machine * list SwitchEvent -> Prop :=
  (* code runs, and leaves the records alone *)
  | ms_run x h cpu pc :
      same_records (cpu_mem (m_cpu x)) (cpu_mem cpu) ->
      machine_step (x, h) ({| m_sched := m_sched x; m_cpu := cpu; m_pc := pc |}, h)
  | ms_tick x h e r x' :
      is_uint 64 e -> on_machine (tick e) x = Done (r, x') -> machine_step (x, h) (x', h)
  (* the boot code makes no thread but the idle one *)
  | ms_spawn x h trampoline process weight stack entry arg id x' i t :
      running_ref h <> BootContext -> next_thread_id (m_sched x) < 2 ^ 32 - 1 -> 0 < weight < 2 ^ 32 ->
      stack_base stack + stack_size stack < 2 ^ 64 ->
      machine_spawn trampoline process weight stack entry arg x = Done (Ok id, x') ->
      threads (m_sched x') !! i = Some (Some t) -> t_id t = id ->
      machine_step (x, h) (x', Created (ThreadContext i) (t_context t) :: h)
  | ms_spawn_refused x h trampoline process weight stack entry arg e x' :
      running_ref h <> BootContext -> next_thread_id (m_sched x) < 2 ^ 32 - 1 -> 0 < weight < 2 ^ 32 ->
      stack_base stack + stack_size stack < 2 ^ 64 ->
      machine_spawn trampoline process weight stack entry arg x = Done (Err e, x') -> machine_step (x, h) (x', h)
  | ms_preempt x h contexts s x' :
      preempt_contexts (m_sched x) = Done (Ok (Some contexts), s) -> preempt_from_trap x = Done (Ok tt, x') ->
      machine_step (x, h) (x', Switched (old contexts) (new contexts)
        (cpu_regs (with_arguments contexts (m_cpu x))) (cpu_regs (m_cpu x')) (m_pc x') :: h)
  | ms_no_preempt x h r s x' :
      preempt_contexts (m_sched x) = Done (r, s) -> r = Ok None \/ (exists e, r = Err e) ->
      on_machine preempt_contexts x = Done (r, x') -> machine_step (x, h) (x', h)
  (* the boot code enters the idle thread once *)
  | ms_enter_idle x h contexts s x' :
      running_ref h = BootContext ->
      enter_idle_contexts (m_sched x) = Done (Ok contexts, s) -> enter_idle x = Done (Ok tt, x') ->
      machine_step (x, h) (x', Switched (old contexts) (new contexts)
        (cpu_regs (with_arguments contexts (m_cpu x))) (cpu_regs (m_cpu x')) (m_pc x') :: h).

(** ** Threads keep their slots *)

(** The identifier and the context of the thread in each slot. *)
Definition card (t : Thread Ctx) : Z * Ctx := (t_id t, t_context t).
Definition directory (s : Scheduler Ctx) : list (option (Z * Ctx)) := option_map card <$> threads s.
Definition keeps_cards {A} (m : M (Scheduler Ctx) A) : Prop := forall s a s', m s = Done (a, s') -> directory s' = directory s.

Lemma cards_ret {A} (a : A) : keeps_cards (ret a).
Proof. by intros s b s' [= _ <-]. Qed.
Lemma cards_gets {A} (f : Scheduler Ctx -> A) : keeps_cards (gets f).
Proof. by intros s b s' [= _ <-]. Qed.
Lemma cards_bind {A B} (m : M (Scheduler Ctx) A) (f : A -> M (Scheduler Ctx) B) :
  keeps_cards m -> (forall a, keeps_cards (f a)) -> keeps_cards (bind m f).
Proof. intros Hm Hf s b s' (a & s1 & Hr1 & Hr2)%bind_Done. rewrite (Hf a _ _ _ Hr2). by eapply Hm. Qed.
Lemma cards_modify (f : Scheduler Ctx -> Scheduler Ctx) :
  (forall s, directory (f s) = directory s) -> keeps_cards (modify f).
Proof. intros Hf s b s' [= _ <-]. apply Hf. Qed.
Lemma cards_trace k a b c : keeps_cards (trace k a b c).
Proof. intros s [] s'. unfold trace. by destruct (emit _ _) as [[[] r]| | |]; intros [= <-]. Qed.
Lemma directory_update s i f : (forall t, card (f t) = card t) -> directory (update_thread i f s) = directory s.
Proof.
  intros Hf. unfold directory, update_thread. cbn. apply list_eq. intros j. rewrite !list_lookup_fmap.
  destruct (decide (i = j)) as [<-|Hne]; [|by rewrite list_lookup_alter_ne].
  rewrite list_lookup_alter_eq. destruct (threads s !! i) as [[t|]|]; [|done..]. cbn. by rewrite Hf.
Qed.

Ltac keeps_cards :=
  repeat first
    [ eassumption | apply cards_ret | apply cards_gets | apply cards_trace
    | apply cards_bind; [|intros]
    | apply cards_modify; intros; first [reflexivity | apply directory_update; intros; reflexivity]
    | match goal with |- keeps_cards (match ?e with _ => _ end) => destruct e end ].

Lemma tick_cards e : keeps_cards (tick e).
Proof. unfold tick. cbv zeta. keeps_cards. Qed.
Lemma schedule_cards : keeps_cards schedule.
Proof.
  unfold schedule. keeps_cards; apply cards_modify; intros; (case_match; [|done]); apply directory_update; [|done].
  intros u. by case_decide.
Qed.
Lemma preempt_cards : keeps_cards preempt_contexts.
Proof. pose proof schedule_cards. unfold preempt_contexts. keeps_cards. Qed.
Lemma enter_idle_cards : keeps_cards enter_idle_contexts.
Proof. unfold enter_idle_contexts. keeps_cards. Qed.

(** A new thread takes an empty slot; a refused one changes nothing. *)
Lemma insert_directory process_id weight is_idle context stack s r s' :
  insert_thread process_id weight is_idle context stack s = Done (r, s') ->
  match r with
  | Ok id => exists i, directory s !! i = Some None /\ directory s' = <[i := Some (id, context)]> (directory s)
  | Err _ => directory s' = directory s
  end.
Proof.
  unfold insert_thread. intros (id & s1 & [= <- <-] & Hr)%bind_Done. apply bind_Done in Hr as ([] & s2 & [= <-] & Hr).
  apply bind_Done in Hr as (s3 & s4 & [= <- <-] & Hr). set (s1 := set_next_thread_id _ s) in Hr.
  assert (forall e, (drop_stack stack ;;; ret (Err e)) s1 = Done (r, s') ->
    match r with Ok _ => False | Err _ => directory s' = directory s end) as Hdrop.
  { intros e. unfold drop_stack, bind, modify, ret. destruct stack; intros [= <- <-]; reflexivity. }
  destruct (process_index process_id s1) as [pi|]; [|apply Hdrop in Hr; by destruct r].
  pose proof (free_slot_spec (threads s)) as Hslot. change (position _ (threads s1)) with (position is_none (threads s)) in Hr.
  destruct (position is_none (threads s)) as [ti|]; [|apply Hdrop in Hr; by destruct r].
  apply bind_Done in Hr as (p & s2 & Hp & Hr). unfold expect in Hp. destruct (default None _); [|done]. injection Hp as -> <-.
  apply bind_Done in Hr as ([p' t] & s2 & Hadd & Hr). unfold add_thread in Hadd.
  apply bind_Done in Hadd as (n & s3 & Hn & [= _ <- <-]). unfold add_uint, expect in Hn.
  destruct (checked_add _ _ _); [|done]. injection Hn as -> <-.
  apply bind_Done in Hr as ([] & s3 & [= <-] & Hr). cbv zeta in Hr. set (t := if _ && _ then _ else _) in Hr.
  assert (card t = (next_thread_id s, context)) as Ht by (unfold t; by destruct (_ && _)).
  apply bind_Done in Hr as ([] & s3 & [= <-] & Hr).
  apply bind_Done in Hr as ([] & s4 & Htr & [= <- <-]).
  assert (directory s4 = <[ti := Some (card t)]> (directory s)) as Hd.
  { assert (forall sx, directory (set_threads (<[ti:=Some t]> (threads s1)) sx) = <[ti := Some (card t)]> (directory s)) as Hins.
    { intros sx. unfold directory. cbn. by rewrite list_fmap_insert. }
    destruct (negb is_idle); [|injection Htr as <-; apply Hins].
    rewrite (cards_trace _ _ _ _ _ _ _ Htr). apply Hins. }
  rewrite Ht in Hd. exists ti. split; [|done]. unfold directory. by rewrite list_lookup_fmap, Hslot.
Qed.
End Machine.

(** ** Records in memory *)

Lemma write_words_outside base words mem a :
  a < base \/ base + 8 * Z.of_nat (length words) <= a -> write_words base words mem !! a = mem !! a.
Proof.
  revert base mem. induction words as [|w words IH]; intros base mem; cbn [write_words length]; [done|]. intros Ha.
  rewrite IH by lia. apply lookup_insert_ne. lia.
Qed.
Lemma write_words_stored base words mem : stored (write_words base words mem) base words.
Proof.
  revert base mem. induction words as [|w words IH]; intros base mem i v Hv; [done|]. cbn [write_words].
  destruct i as [|i]; cbn in Hv.
  - injection Hv as ->. rewrite write_words_outside by lia. rewrite Z.add_0_r. apply lookup_insert_eq.
  - replace (base + 8 * Z.of_nat (S i)) with (base + 8 + 8 * Z.of_nat i) by lia. by apply IH.
Qed.
Lemma stored_frame mem mem' base words :
  (forall a, base <= a < base + Context_SIZE -> mem' !! a = mem !! a) -> length words = 16%nat ->
  stored mem base words -> stored mem' base words.
Proof.
  intros Hf Hl Hs i w Hw. rewrite Hf; [by apply Hs|]. apply lookup_lt_Some in Hw. unfold Context_SIZE. lia.
Qed.

Lemma slot_unique {Ctx} (ts : list (option (Thread Ctx))) i j t u :
  distinct ts -> ts !! i = Some (Some t) -> ts !! j = Some (Some u) -> t_id t = t_id u -> i = j.
Proof.
  unfold distinct. revert i j. induction ts as [|slot ts IH]; intros i j Hd Hi Hj Heq; [done|].
  assert (forall k v, ts !! k = Some (Some v) -> t_id v ∈ t_id <$> live ts) as Hin.
  { intros k v Hk. apply list_elem_of_fmap_2, elem_of_live. by eapply list_elem_of_lookup_2. }
  destruct slot as [v|].
  - apply NoDup_cons in Hd as [Hv Hd]. destruct i as [|i], j as [|j]; cbn in Hi, Hj; simplify_eq; [done| | |].
    + destruct Hv. rewrite Heq. by eapply Hin.
    + destruct Hv. rewrite <-Heq. by eapply Hin.
    + f_equal. by apply IH.
  - destruct i as [|i], j as [|j]; cbn in Hi, Hj; simplify_eq. f_equal. by apply IH.
Qed.

Section Invariant.
Context {R Ctx : Type} `{SwitchLaws R Ctx} {HRL : RecordLaws R Ctx}.
Context (record_address : ContextRef -> Z).
(** The records do not overlap. *)
Hypothesis Hapart : forall r r', r <> r' -> apart (record_address r) (record_address r').
Abbreviation Machine := (Machine (R:=R) (Ctx:=Ctx)).
Implicit Types (h : list (SwitchEvent (R:=R) (Ctx:=Ctx))) (x : Machine).

(** Every record in memory holds what it should. *)
Definition records_hold (mem : gmap Z Z) h : Prop := forall r c, expected h r = Some c ->
  stored mem (record_address r) (context_words c) /\ length (context_words c) = 16%nat.

Lemma records_same mem mem' h : same_records record_address mem mem' -> records_hold mem h -> records_hold mem' h.
Proof.
  intros Hs Hr r c Hc. destruct (Hr r c Hc) as [Hst Hl]. split; [|done]. eapply stored_frame; [|done|exact Hst].
  intros a Ha. apply Hs. by exists r.
Qed.
Lemma records_write mem h r c : length (context_words c) = 16%nat -> records_hold mem h ->
  records_hold (write_words (record_address r) (context_words c) mem) (Created r c :: h).
Proof.
  intros Hl Hr r' c' Hc. cbn in Hc. case_decide as Hd; [simplify_eq; split; [apply write_words_stored|done]|].
  destruct (Hr r' c' Hc) as [Hst Hl']. split; [|done]. eapply stored_frame; [|done|exact Hst].
  intros a Ha. apply write_words_outside. destruct (Hapart _ _ Hd); unfold Context_SIZE in *; lia.
Qed.

(** One switch: it returns, the record it leaves holds the caller's registers,
    and it resumes the other record. *)
Lemma switch_wp program irq contexts x h :
  switches R Ctx program irq -> old contexts <> new contexts ->
  is_Some (expected h (old contexts)) -> is_Some (expected h (new contexts)) -> records_hold (cpu_mem (m_cpu x)) h ->
  wp (run_switch record_address program contexts) (fun _ x' => m_sched x' = m_sched x /\
    records_hold (cpu_mem (m_cpu x')) (Switched (old contexts) (new contexts)
      (cpu_regs (with_arguments record_address contexts (m_cpu x))) (cpu_regs (m_cpu x')) (m_pc x') :: h) /\
    resumed h (new contexts) (cpu_regs (m_cpu x')) (m_pc x')) x.
Proof.
  intros Hsw Hne [a Ha] [b Hb] Hrec. set (c := with_arguments record_address contexts (m_cpu x)).
  assert (cpu_regs c first_argument = record_address (old contexts)) as Hfirst.
  { unfold c, with_arguments. cbn. rewrite decide_False by apply arguments_differ. by rewrite decide_True. }
  assert (cpu_regs c second_argument = record_address (new contexts)) as Hsecond.
  { unfold c, with_arguments. cbn. by rewrite decide_True. }
  destruct (Hrec _ _ Ha) as [Hsa Hla], (Hrec _ _ Hb) as [Hsb Hlb].
  assert (switch_call c a b) as Hcall by (split; rewrite ?Hfirst, ?Hsecond; auto).
  destruct (proj1 (wp_unfold _ _ _) (Hsw c a b Hcall)) as (pc & c' & Hrun & [Hpc Hregs Hsaved Hframe] & _).
  rewrite Hfirst in Hsaved, Hframe. unfold wp, run_switch. fold c. rewrite Hrun. split_and!; [done| |by exists b].
  intros r d Hd. cbn in Hd. case_decide as Hr.
  - subst r. rewrite Ha in Hd. injection Hd as <-. split; [exact Hsaved|]. by rewrite capture_length.
  - destruct (Hrec r d Hd) as [Hst Hl]. split; [|done]. eapply stored_frame; [|done|exact Hst].
    intros w Hw. apply Hframe. destruct (Hapart _ _ Hr); unfold Context_SIZE in *; lia.
Qed.

(** ** The invariant *)

(** Every switch in the history left the code that ran and resumed the code it
    went to. *)
Fixpoint all_resumed h : Prop :=
  match h with
  | [] => True
  | Created _ _ :: h => all_resumed h
  | Switched from to _ after pc :: h => from = running_ref h /\ resumed h to after pc /\ all_resumed h
  end.

(** The CPU runs the current thread; before the switch to the idle thread, the
    boot code with the idle thread alone. *)
Definition runs_current (s : Scheduler Ctx) (r : ContextRef) : Prop :=
  match r with
  | BootContext => current s = idle s /\ length (live (threads s)) = 1%nat
  | ThreadContext j => exists id c, directory s !! j = Some (Some (id, c)) /\ current s = Some id
  end.

Record machine_inv x h : Prop := {
  mi_sched : sched_inv (m_sched x);
  mi_records : records_hold (cpu_mem (m_cpu x)) h;
  mi_slots j : is_Some (expected h (ThreadContext j)) <-> exists d, directory (m_sched x) !! j = Some (Some d);
  mi_boot : is_Some (expected h BootContext);
  mi_running : runs_current (m_sched x) (running_ref h);
  mi_resumed : all_resumed h;
}.

Lemma directory_thread (s : Scheduler Ctx) j id c :
  directory s !! j = Some (Some (id, c)) <-> exists t, threads s !! j = Some (Some t) /\ t_id t = id /\ t_context t = c.
Proof.
  unfold directory. rewrite list_lookup_fmap. split.
  - destruct (threads s !! j) as [[t|]|]; intros Hd; cbn in Hd; unfold card in Hd; simplify_eq. by exists t.
  - intros (t & -> & <- & <-). done.
Qed.

(** Steps that leave the records and the table alone. *)
Lemma inv_same_table x h s' :
  machine_inv x h -> sched_inv s' -> directory s' = directory (m_sched x) -> runs_current s' (running_ref h) ->
  machine_inv {| m_sched := s'; m_cpu := m_cpu x; m_pc := m_pc x |} h.
Proof. intros [] Hs Hd Hr. split; try done. intros j. cbn [m_sched]. rewrite Hd. apply mi_slots0. Qed.

Lemma on_machine_Done {A} (m : M (Scheduler Ctx) A) x a x' :
  on_machine m x = Done (a, x') ->
  exists s', m (m_sched x) = Done (a, s') /\ x' = {| m_sched := s'; m_cpu := m_cpu x; m_pc := m_pc x |}.
Proof. unfold on_machine. destruct (m (m_sched x)) as [[b s]| | |]; [|done..]. intros [= <- <-]. by exists s. Qed.

Lemma tick_inv x h e r s' :
  machine_inv x h -> is_uint 64 e -> tick e (m_sched x) = Done (r, s') ->
  machine_inv {| m_sched := s'; m_cpu := m_cpu x; m_pc := m_pc x |} h.
Proof.
  intros Hi He Hrun. pose proof (mi_sched _ _ Hi) as Hs. pose proof (tick_cards _ _ _ _ Hrun) as Hd.
  destruct (decide (e = 0)) as [->|Hne].
  { unfold tick in Hrun. cbn in Hrun. injection Hrun as _ <-. apply inv_same_table; [done|done|done|apply Hi]. }
  unfold is_uint in He. destruct (si_current _ Hs) as [t Ht].
  destruct (wp_Done _ _ _ _ _ (tick_spec (m_sched x) t e Hs Ht ltac:(lia)) Hrun) as [_ Hk].
  apply inv_same_table; [done|apply (ticked_inv (m_sched x) t e s'); [done|done|lia|done]|done|].
  pose proof (mi_running _ _ Hi) as Hr. unfold runs_current in *. rewrite (tk_current _ _ _ _ Hk), (tk_idle _ _ _ _ Hk).
  by rewrite Hd, (tk_threads _ _ _ _ Hk), length_fmap.
Qed.

(** The thread that the scheduler preempts is the one the CPU runs. *)
Lemma preempt_inv x h contexts s' :
  machine_inv x h -> preempt_contexts (m_sched x) = Done (Ok (Some contexts), s') ->
  sched_inv s' /\ directory s' = directory (m_sched x) /\
  old contexts = running_ref h /\ old contexts <> new contexts /\
  is_Some (expected h (old contexts)) /\ is_Some (expected h (new contexts)) /\ runs_current s' (new contexts).
Proof.
  intros Hi Hrun. pose proof (mi_sched _ _ Hi) as Hs. pose proof (preempt_cards _ _ _ Hrun) as Hd.
  destruct (si_current _ Hs) as [t Ht]. destruct (need_reschedule (m_sched x)) eqn:Hneed.
  2:{ unfold preempt_contexts in Hrun. apply bind_Done in Hrun as (s & s1 & [= <- <-] & Hrun).
      rewrite (si_init _ Hs), Hneed in Hrun. done. }
  destruct (preempt_spec _ _ Hs Ht Hneed) as (b & Hb & _ & Hwp).
  destruct (wp_Done _ _ _ _ _ Hwp Hrun) as (Hsw & Hs' & i & j & [= ->] & Hti & Htj). cbn [old new].
  assert (forall k u, threads s' !! k = Some (Some u) -> directory (m_sched x) !! k = Some (Some (card u))) as Hcard.
  { intros k u Hu. rewrite <-Hd. by apply directory_thread; exists u. }
  assert (t_id t <> t_id b) as Hne.
  { destruct Ht as (Htl & Hrt & _), Hb as (Hbl & Hbs & _). intros Heq.
    assert (t = b) by (by apply (distinct_eq (threads (m_sched x))); [apply Hs|..]). congruence. }
  pose proof (Hcard _ _ Hti) as Hci. pose proof (Hcard _ _ Htj) as Hcj.
  split_and!; [done|done| | | | |].
  - pose proof (mi_running _ _ Hi) as Hr. unfold runs_current in Hr. destruct (running_ref h) as [|k].
    + destruct Hr as [_ Hone]. destruct Ht as (Htl & Hrt & _), Hb as (Hbl & Hbs & _).
      destruct (live (threads (m_sched x))) as [|u [|]] eqn:Hl; [done| |done].
      apply list_elem_of_singleton in Htl as ->, Hbl as ->. done.
    + f_equal. destruct Hr as (id & c & Hk & Hcur). destruct Ht as (Htl & Hrt & Hcurt). rewrite Hcur in Hcurt. injection Hcurt as ->.
      apply directory_thread in Hk as (u & Hu & Hid & _). apply directory_thread in Hci as (v & Hv & Hvid & _).
      eapply (slot_unique (threads (m_sched x))); [apply Hs|exact Hv|exact Hu|]. rewrite Hid, Hvid. done.
  - intros [= ->]. rewrite Hti in Htj. apply Hne. by injection Htj.
  - apply (mi_slots _ _ Hi). by eexists.
  - apply (mi_slots _ _ Hi). by eexists.
  - exists (t_id b), (t_context b). rewrite Hd. split; [exact Hcj|]. apply Hsw.
Qed.

Lemma enter_idle_inv x h contexts s' :
  machine_inv x h -> running_ref h = BootContext -> enter_idle_contexts (m_sched x) = Done (Ok contexts, s') ->
  sched_inv s' /\ directory s' = directory (m_sched x) /\
  old contexts = running_ref h /\ old contexts <> new contexts /\
  is_Some (expected h (old contexts)) /\ is_Some (expected h (new contexts)) /\ runs_current s' (new contexts).
Proof.
  intros Hi Hboot Hrun. pose proof (mi_sched _ _ Hi) as Hs. pose proof (enter_idle_cards _ _ _ Hrun) as Hd.
  pose proof (mi_running _ _ Hi) as Hr. rewrite Hboot in *. destruct Hr as [Hci _].
  destruct (si_current _ Hs) as (t & Ht & Hrt & Hcur).
  unfold enter_idle_contexts in Hrun. apply bind_Done in Hrun as (s & s1 & [= <- <-] & Hrun).
  rewrite (si_init _ Hs), <-Hci, Hcur in Hrun. cbn [negb] in Hrun.
  destruct (thread_index_live _ _ (si_distinct _ Hs) Ht) as (i & Hidx & Hti).
  rewrite Hidx in Hrun. unfold thread_at in Hrun. rewrite Hti in Hrun. cbn [from_option id] in Hrun.
  destruct (t_stack t) as [k|]; [|done].
  apply bind_Done in Hrun as ([] & s1 & [= <-] & Hrun). apply bind_Done in Hrun as ([] & s2 & [= <-] & [= <- <-]).
  rewrite (rerun_same (m_sched x) t i) by done. cbn [old new].
  assert (directory (m_sched x) !! i = Some (Some (card t))) as Hcard by (apply directory_thread; by exists t).
  split_and!; [done|done|done|done|apply Hi| |].
  - apply (mi_slots _ _ Hi). by eexists.
  - by exists (t_id t), (t_context t).
Qed.

(** What a completed switch keeps. *)
Lemma switched_machine_inv x h contexts s' x' (before after : R -> Z) pc :
  machine_inv x h -> sched_inv s' -> directory s' = directory (m_sched x) -> old contexts = running_ref h ->
  is_Some (expected h (old contexts)) -> runs_current s' (new contexts) -> m_sched x' = s' ->
  records_hold (cpu_mem (m_cpu x')) (Switched (old contexts) (new contexts) before after pc :: h) ->
  resumed h (new contexts) after pc ->
  machine_inv x' (Switched (old contexts) (new contexts) before after pc :: h).
Proof.
  intros Hi Hs Hd Hold [c Hc] Hr Hx Hrec Hres. split; rewrite ?Hx; try done.
  - intros j. rewrite Hd, <-(mi_slots _ _ Hi j). cbn [expected]. case_decide as Hj; [|done]. rewrite Hj, Hc.
    split; intros _; by eexists.
  - cbn [expected]. case_decide as Hj; [|apply Hi]. rewrite Hj, Hc. by eexists.
  - split_and!; [done|done|apply Hi].
Qed.

(** *** New threads *)

Definition new_context (trampoline : Z) (stack : KernelStack) (entry arg : Z) : Ctx :=
  context_set_entry_data entry arg (context_new trampoline (stack_base stack + stack_size stack)).

Lemma spawn_table s trampoline process weight stack entry arg r s' :
  sched_inv s -> next_thread_id s < 2 ^ 32 - 1 -> 0 < weight < 2 ^ 32 -> stack_base stack + stack_size stack < 2 ^ 64 ->
  spawn trampoline process weight stack entry arg s = Done (r, s') ->
  sched_inv s' /\ current s' = current s /\
  match r with
  | Ok id => exists i, directory s !! i = Some None /\
      directory s' = <[i := Some (id, new_context trampoline stack entry arg)]> (directory s)
  | Err _ => directory s' = directory s
  end.
Proof.
  intros Hs Hn Hw Hfit Hrun. unfold spawn, create_thread_with_stack, stack_top in Hrun.
  apply bind_Done in Hrun as (top & s1 & Htop & Hrun).
  assert (top = stack_base stack + stack_size stack /\ s1 = s) as [-> ->].
  { pose proof (wp_add_uint 64 (stack_base stack) (stack_size stack)
      (fun v s0 => v = stack_base stack + stack_size stack /\ s0 = s) s Hfit (conj eq_refl eq_refl)) as Hwp.
    exact (wp_Done _ _ _ _ _ Hwp Htop). }
  pose proof (insert_directory _ _ _ _ _ _ _ _ Hrun) as Hd.
  assert (wp (insert_thread process weight false (new_context trampoline stack entry arg) (Some stack))
    (fun _ s2 => sched_inv s2 /\ current s2 = current s) s) as Hwp.
  { eapply wp_mono; [apply insert_thread_spec; apply Hs|].
    intros [id|[]] s2; [|intros [Hre _]; split; [by eapply refused_inv|apply Hre]..|done].
    intros (_ & _ & t & Hnew & Hin). split; [by eapply inserted_inv|apply Hin]. }
  destruct (wp_Done _ _ _ _ _ Hwp Hrun) as [Hs' Hc]. by split_and!.
Qed.

Lemma spawn_inv x h trampoline process weight stack entry arg id x' i t :
  machine_inv x h -> running_ref h <> BootContext -> next_thread_id (m_sched x) < 2 ^ 32 - 1 -> 0 < weight < 2 ^ 32 ->
  stack_base stack + stack_size stack < 2 ^ 64 ->
  machine_spawn record_address trampoline process weight stack entry arg x = Done (Ok id, x') ->
  threads (m_sched x') !! i = Some (Some t) -> t_id t = id ->
  machine_inv x' (Created (ThreadContext i) (t_context t) :: h).
Proof.
  intros Hi Hb Hn Hw Hfit Hrun Ht Hid. unfold machine_spawn in Hrun.
  apply bind_Done in Hrun as (r & x1 & (s1 & Hsp & ->)%on_machine_Done & Hrun).
  destruct (spawn_table _ _ _ _ _ _ _ _ _ (mi_sched _ _ Hi) Hn Hw Hfit Hsp) as (Hs1 & Hcur & Hdir).
  destruct r as [id'|e]; [|done]. apply bind_Done in Hrun as (s2 & x2 & [= <- <-] & Hrun).
  destruct Hdir as (k & Hk & Hdir).
  assert (directory s1 !! k = Some (Some (id', new_context trampoline stack entry arg))) as Hk1.
  { rewrite Hdir, list_lookup_insert_eq; [done|]. by eapply lookup_lt_Some. }
  apply directory_thread in Hk1 as (u & Hu & Huid & Huc).
  destruct (thread_index_live (threads s1) u) as (k' & Hidx & Hk'); [apply Hs1|apply elem_of_live; by eapply list_elem_of_lookup_2|].
  cbn [m_sched] in Hrun. rewrite <-Huid, Hidx in Hrun. unfold thread_at in Hrun. rewrite Hk' in Hrun. cbn [from_option Datatypes.id] in Hrun.
  apply bind_Done in Hrun as ([] & x3 & [= <-] & [= Hid' <-]). cbn [m_sched write_record] in Ht.
  assert (k' = k) as -> by (by eapply (slot_unique (threads s1)); [apply Hs1|exact Hk'|exact Hu|]).
  assert (i = k) as -> by (eapply (slot_unique (threads s1)); [apply Hs1|exact Ht|exact Hu|congruence]).
  assert (t = u) as -> by congruence. rewrite Huc. split; cbn [m_sched m_cpu write_record cpu_mem].
  - exact Hs1.
  - apply records_write; [apply new_length|apply Hi].
  - intros j. rewrite Hdir. cbn [expected]. case_decide as Hj.
    + injection Hj as ->. split; intros _; [|by eexists]. eexists. rewrite list_lookup_insert_eq; [done|]. by eapply lookup_lt_Some.
    + rewrite list_lookup_insert_ne by congruence. apply Hi.
  - apply (mi_boot _ _ Hi).
  - cbn [running_ref]. pose proof (mi_running _ _ Hi) as Hr. destruct (running_ref h) as [|j]; [done|].
    destruct Hr as (rid & c & Hj & Hc). exists rid, c. rewrite Hdir, Hcur. split; [|done].
    rewrite list_lookup_insert_ne; [done|]. intros ->. congruence.
  - apply (mi_resumed _ _ Hi).
Qed.

(** *** Switches *)

Lemma switch_inv program irq x h contexts s' x' :
  switches R Ctx program irq -> machine_inv x h ->
  sched_inv s' /\ directory s' = directory (m_sched x) /\
  old contexts = running_ref h /\ old contexts <> new contexts /\
  is_Some (expected h (old contexts)) /\ is_Some (expected h (new contexts)) /\ runs_current s' (new contexts) ->
  run_switch record_address program contexts {| m_sched := s'; m_cpu := m_cpu x; m_pc := m_pc x |} = Done (tt, x') ->
  machine_inv x' (Switched (old contexts) (new contexts)
    (cpu_regs (with_arguments record_address contexts (m_cpu x))) (cpu_regs (m_cpu x')) (m_pc x') :: h).
Proof.
  intros Hsw Hi (Hs' & Hd & Hold & Hne & Ho & Hn & Hr) Hrun.
  set (x1 := {| m_sched := s'; m_cpu := m_cpu x; m_pc := m_pc x |}) in Hrun.
  destruct (wp_Done _ _ _ _ _ (switch_wp program irq contexts x1 h Hsw Hne Ho Hn (mi_records _ _ Hi)) Hrun) as (Hx & Hrec & Hres).
  by eapply switched_machine_inv.
Qed.

Lemma preempt_step_inv x h contexts s x' :
  machine_inv x h -> preempt_contexts (m_sched x) = Done (Ok (Some contexts), s) ->
  preempt_from_trap record_address x = Done (Ok tt, x') ->
  machine_inv x' (Switched (old contexts) (new contexts)
    (cpu_regs (with_arguments record_address contexts (m_cpu x))) (cpu_regs (m_cpu x')) (m_pc x') :: h).
Proof.
  intros Hi Hp Hrun. pose proof (preempt_inv _ _ _ _ Hi Hp) as Hall. unfold preempt_from_trap in Hrun.
  apply bind_Done in Hrun as (r & x1 & (s1 & Hp1 & ->)%on_machine_Done & Hrun). rewrite Hp in Hp1. injection Hp1 as <- <-.
  apply bind_Done in Hrun as ([] & x2 & Hsw & [= <-]).
  exact (switch_inv _ _ _ _ _ _ _ (from_trap_switches R Ctx) Hi Hall Hsw).
Qed.
Lemma enter_idle_step_inv x h contexts s x' :
  machine_inv x h -> running_ref h = BootContext -> enter_idle_contexts (m_sched x) = Done (Ok contexts, s) ->
  enter_idle record_address x = Done (Ok tt, x') ->
  machine_inv x' (Switched (old contexts) (new contexts)
    (cpu_regs (with_arguments record_address contexts (m_cpu x))) (cpu_regs (m_cpu x')) (m_pc x') :: h).
Proof.
  intros Hi Hb Hp Hrun. pose proof (enter_idle_inv _ _ _ _ Hi Hb Hp) as Hall. unfold enter_idle in Hrun.
  apply bind_Done in Hrun as (r & x1 & (s1 & Hp1 & ->)%on_machine_Done & Hrun). rewrite Hp in Hp1. injection Hp1 as <- <-.
  apply bind_Done in Hrun as ([] & x2 & Hsw & [= <-]).
  exact (switch_inv _ _ _ _ _ _ _ (switch_switches R Ctx) Hi Hall Hsw).
Qed.
Lemma no_preempt_inv x h r s s' :
  machine_inv x h -> preempt_contexts (m_sched x) = Done (r, s) -> r = Ok None \/ (exists e, r = Err e) ->
  preempt_contexts (m_sched x) = Done (r, s') -> machine_inv {| m_sched := s'; m_cpu := m_cpu x; m_pc := m_pc x |} h.
Proof.
  intros Hi _ Hr Hrun. pose proof (mi_sched _ _ Hi) as Hs. destruct (si_current _ Hs) as [t Ht].
  destruct (need_reschedule (m_sched x)) eqn:Hneed.
  - destruct (preempt_spec _ _ Hs Ht Hneed) as (b & _ & _ & Hwp).
    destruct (wp_Done _ _ _ _ _ Hwp Hrun) as (_ & _ & i & j & -> & _). by destruct Hr as [|[]].
  - unfold preempt_contexts in Hrun. apply bind_Done in Hrun as (s0 & s1 & [= <- <-] & Hrun).
    rewrite (si_init _ Hs), Hneed in Hrun. injection Hrun as _ <-. apply inv_same_table; [done|done|done|apply Hi].
Qed.

Lemma machine_step_inv x h x' h' : machine_step record_address (x, h) (x', h') -> machine_inv x h -> machine_inv x' h'.
Proof.
  intros Hstep Hi. inversion Hstep; subst.
  - destruct Hi. split; try done. cbn [m_cpu]. by eapply records_same.
  - destruct (on_machine_Done _ _ _ _ ltac:(eassumption)) as (s' & Hrun & ->). by eapply tick_inv.
  - by eapply spawn_inv.
  - match goal with Hrun : machine_spawn _ _ _ _ _ _ _ _ = _ |- _ => unfold machine_spawn in Hrun;
      apply bind_Done in Hrun as (r & x1 & (s1 & Hsp & ->)%on_machine_Done & Hrun); rename Hrun into Hr1 end.
    destruct (spawn_table _ _ _ _ _ _ _ _ _ (mi_sched _ _ Hi) ltac:(eassumption) ltac:(eassumption) ltac:(eassumption) Hsp) as (Hs1 & Hcur & Hdir).
    destruct r as [id|e'].
    { apply bind_Done in Hr1 as (s2 & x2 & _ & Hr1). by repeat case_match. }
    injection Hr1 as _ <-.
    apply inv_same_table; [done|done|done|]. pose proof (mi_running _ _ Hi) as Hr. destruct (running_ref h'); [done|].
    cbn in *. by rewrite Hdir, Hcur.
  - by eapply preempt_step_inv.
  - destruct (on_machine_Done _ _ _ _ ltac:(eassumption)) as (s' & Hrun & ->). by eapply no_preempt_inv.
  - by eapply enter_idle_step_inv.
Qed.
Lemma machine_steps_inv c c' : rtc (machine_step record_address) c c' -> machine_inv c.1 c.2 -> machine_inv c'.1 c'.2.
Proof. induction 1 as [|[x h] [x1 h1] c Hs _ IH]; [done|]. intros Hi. apply IH. by eapply machine_step_inv. Qed.

(** *** The machine that [init_with_idle_thread] leaves *)

Record boot_machine x h : Prop := {
  bm_init : exists THREADS PROCESSES trampoline stack entry arg,
    (0 < THREADS)%nat /\ Z.of_nat THREADS < 2 ^ 32 - 1 /\ (0 < PROCESSES)%nat /\ stack_base stack + stack_size stack < 2 ^ 64 /\
    init_with_idle_thread trampoline stack entry arg (Scheduler_new THREADS PROCESSES []) = Done (Ok tt, m_sched x);
  bm_history : exists i t, threads (m_sched x) !! i = Some (Some t) /\
    h = [Created (ThreadContext i) (t_context t); Created BootContext context_empty];
  bm_records r c : Created r c ∈ h -> stored (cpu_mem (m_cpu x)) (record_address r) (context_words c);
}.

Lemma boot_machine_inv x h : boot_machine x h -> machine_inv x h.
Proof.
  intros [(T & P & tr & stack & entry & arg & HT & HT2 & HP & Hfit & Hrun) (i & t & Hi & ->) Hrec].
  assert (wp (init_with_idle_thread tr stack entry arg) (fun _ s => sched_inv s /\ exists u, live (threads s) = [u] /\
    running s u /\ idle s = Some (t_id u) /\ t_context u = new_context tr stack entry arg) (Scheduler_new T P [])) as Hwp.
  { eapply wp_mono; [apply init_idle_spec; cbn; rewrite ?length_replicate; done|].
    intros r s (_ & Hs & _ & _ & u & Hl & Hu & Hid & _ & _ & Hc). split; [done|]. by exists u. }
  destruct (wp_Done _ _ _ _ _ Hwp Hrun) as (Hs & u & Hl & (Hu & _ & Hcur) & Hidle & Hc).
  assert (forall j v, threads (m_sched x) !! j = Some (Some v) -> v = u) as Honly.
  { intros j v Hv. assert (v ∈ live (threads (m_sched x))) as Hin by (apply elem_of_live; by eapply list_elem_of_lookup_2).
    rewrite Hl in Hin. by apply list_elem_of_singleton in Hin. }
  pose proof (Honly i t Hi) as ->. split; [done| | | | |done].
  - intros r c Hr. cbn in Hr. repeat case_decide; simplify_eq.
    + split; [apply Hrec; by left|]. rewrite Hc. apply new_length.
    + split; [apply Hrec; right; by left|apply empty_length].
  - intros j. cbn [expected]. case_decide as Hj.
    + injection Hj as ->. split; intros _; [|by eexists]. exists (card u). by apply directory_thread; exists u.
    + rewrite decide_False by done. split; [by intros []|]. intros ([id c] & (v & Hv & _)%directory_thread).
      pose proof (Honly j v Hv) as ->. destruct Hj. f_equal. by eapply (slot_unique (threads (m_sched x))); [apply Hs|exact Hv|exact Hi|].
  - cbn [expected]. rewrite decide_False, decide_True by done. by eexists.
  - split; [congruence|]. by rewrite Hl.
Qed.

Lemma preempt_returns x h : machine_inv x h -> exists r x', preempt_from_trap record_address x = Done (r, x').
Proof.
  intros Hi. pose proof (mi_sched _ _ Hi) as Hs. destruct (si_current _ Hs) as [t Ht].
  assert (exists r s, preempt_contexts (m_sched x) = Done (r, s)) as (r & s & Hp).
  { destruct (proj1 (wp_unfold _ _ _) (preempt_wp (m_sched x) _ (conj Hs (reflexivity _)))) as (r & s & Hrun & _). by exists r, s. }
  unfold preempt_from_trap, on_machine, bind. rewrite Hp. destruct r as [[contexts|]|e]; [|by eexists _, _..].
  destruct (preempt_inv _ _ _ _ Hi Hp) as (_ & _ & _ & Hne & Ho & Hn & _).
  destruct (proj1 (wp_unfold _ _ _) (switch_wp _ _ contexts {| m_sched := s; m_cpu := m_cpu x; m_pc := m_pc x |} h
    (from_trap_switches R Ctx) Hne Ho Hn (mi_records _ _ Hi))) as ([] & x' & -> & _). by eexists _, _.
Qed.

Lemma all_resumed_app h1 h2 : all_resumed (h1 ++ h2) -> all_resumed h2.
Proof. induction h1 as [|[] h1 IH]; cbn; [done|done|]. intros (_ & _ & ?). by apply IH. Qed.

(** (C28) Every thread resumes where it was suspended.  From the machine that
    [init_with_idle_thread] leaves, whatever code runs between the switches,
    whatever threads are made and whenever the timer preempts: each switch that
    the scheduler asks for saves the registers of the code that was running,
    and the assembly continues at the return address, with the callee-saved
    registers and the stack pointer, that the thread it goes to had at its last
    suspension, or in the trampoline with the entry data it was made with.  The
    steps are those of the kernel's protocol ([machine_step]): the boot code
    enters the idle thread once and makes no other thread, and threads are made
    while identifiers are below 2^32 - 1.  The
    CPU always runs the thread that the scheduler calls current, and a
    preemption always returns: no record is missing. *)
Theorem threads_resume x0 h0 x h :
  boot_machine x0 h0 -> rtc (machine_step record_address) (x0, h0) (x, h) ->
  (forall h1 from to before after pc h2, h = h1 ++ Switched from to before after pc :: h2 ->
     from = running_ref h2 /\ resumed h2 to after pc) /\
  runs_current (m_sched x) (running_ref h) /\
  exists r x', preempt_from_trap record_address x = Done (r, x').
Proof.
  intros Hb Hr. pose proof (machine_steps_inv _ _ Hr (boot_machine_inv _ _ Hb)) as Hi. cbn in Hi. split_and!.
  - intros h1 from to before after pc h2 ->. pose proof (mi_resumed _ _ Hi) as Hall.
    apply all_resumed_app in Hall as (Hf & Hres & _). done.
  - apply Hi.
  - by eapply preempt_returns.
Qed.
End Invariant.

(** ** A RISC-V machine that enters its idle thread *)

Definition demo_address (r : ContextRef) : Z :=
  match r with BootContext => 0x1000 | ThreadContext i => 0x2000 + Context_SIZE * Z.of_nat i end.
Lemma demo_apart r r' : r <> r' -> apart (demo_address r) (demo_address r').
Proof.
  intros Hne. unfold apart, demo_address, Context_SIZE.
  destruct r as [|i], r' as [|j]; try lia; [done|]. assert (i <> j) by congruence. lia.
Qed.

Definition demo_idle_stack : KernelStack := demo_stack 0x9000.
Definition demo_init : M (Scheduler Riscv64.Riscv64Context) (Result unit InitError) :=
  init_with_idle_thread 0x3000 demo_idle_stack 0x4000 7.
Definition demo_idle : Riscv64.Riscv64Context := new_context 0x3000 demo_idle_stack 0x4000 7.
Definition demo_machine : Machine (R:=Riscv64.Riscv64Reg) (Ctx:=Riscv64.Riscv64Context) := {|
  m_sched := after demo_init (Scheduler_new 4 2 []);
  m_cpu := {| cpu_regs _ := 5; cpu_irq := false;
    cpu_mem := image 0x1000 (Riscv64.riscv64_context_words Riscv64.riscv64_empty) ∪
               image 0x2000 (Riscv64.riscv64_context_words demo_idle) |};
  m_pc := 0x6000 |}.
Definition demo_history : list (SwitchEvent (R:=Riscv64.Riscv64Reg) (Ctx:=Riscv64.Riscv64Context)) :=
  [Created (ThreadContext 0) demo_idle; Created BootContext Riscv64.riscv64_empty].
Definition demo_switched : Machine := after (enter_idle demo_address) demo_machine.
Abbreviation demo_event := (Switched BootContext (ThreadContext 0)
  (cpu_regs (with_arguments demo_address {| old := BootContext; new := ThreadContext 0 |} (m_cpu demo_machine)))
  (cpu_regs (m_cpu demo_switched)) (m_pc demo_switched)).

Lemma demo_boot_machine : boot_machine demo_address demo_machine demo_history.
Proof.
  split.
  - exists 4%nat, 2%nat, 0x3000, demo_idle_stack, 0x4000, 7. split_and!; [lia..| |].
    + reflexivity.
    + apply (result_after demo_init). vm_compute. reflexivity.
  - eexists 0%nat, _. split; vm_compute; reflexivity.
  - intros r c [[= -> ->]|[[= -> ->]|[]%not_elem_of_nil]%elem_of_cons]%elem_of_cons; apply stored_check; vm_compute; reflexivity.
Qed.
Lemma demo_enter : rtc (machine_step demo_address) (demo_machine, demo_history) (demo_switched, demo_event :: demo_history).
Proof.
  apply rtc_once. eapply (ms_enter_idle demo_address demo_machine demo_history {| old := BootContext; new := ThreadContext 0 |}
    (after enter_idle_contexts (m_sched demo_machine))).
  - reflexivity.
  - apply (result_after enter_idle_contexts). vm_compute. reflexivity.
  - apply (result_after (enter_idle demo_address)). vm_compute. reflexivity.
Qed.

Lemma threads_resume_witness :
  resumed demo_history (ThreadContext 0) (cpu_regs (m_cpu demo_switched)) (m_pc demo_switched) /\
  exists r x', preempt_from_trap demo_address demo_switched = Done (r, x').
Proof.
  destruct (threads_resume demo_address demo_apart _ _ _ _ demo_boot_machine demo_enter) as (Hres & _ & Hp).
  split; [|exact Hp]. exact (proj2 (Hres [] _ _ _ _ _ _ eq_refl)).
Defined.
