(* ===== verification/Startup.v ===== *)
(** * Boot

    Models [startup/init.rs], [kernel_main] of [main.rs], [boot.rs], the layer
    [hal/mod.rs] and the clock registers of both architectures' [timer.rs]: the
    two boot phases over the state of the whole kernel, from the device tree in
    memory to the switch to the idle thread.  The device tree is read byte by
    byte from physical memory through the page tables that are loaded.  The two
    architectures are instances of [Hal]. *)

From S2P Require Import Prelude Address HwInfo Pmm Clock Trap Context KernelStack Kmalloc Task Console Gic.
From S2P Require Import Arm64Mmu RiscvMmu.
From stdpp Require Import base tactics option list list_numbers numbers gmap strings.

#[local] Open Scope Z_scope.
#[local] Open Scope kernel_scope.

(** ** The state of the kernel *)

(** Running a computation on a part of the state. *)
Definition zoom {S T A} (get : S -> T) (put : T -> S -> S) (m : M T A) : M S A := fun s =>
  match m (get s) with
  | Done (a, t) => Done (a, put t s)
  | Panic msg => Panic msg
  | Undefined => Undefined
  | OutOfFuel => OutOfFuel
  end.

(** The page allocator and the heap, [NEXT_STACK_SLOT], the page tables, the
    interrupt controller with the clock and the scheduler, [FREQUENCY_HZ], the
    trap vector register and the console. *)
Record Kernel (Mmu Con Ctx : Type) := {
  k_heap : Heap;
  k_next_slot : Z;
  k_mmu : Mmu;
  k_irq : Irq (Clock (Scheduler Ctx));
  k_frequency : Z;
  k_vector : option Z;
  k_console : Con;
}.
Arguments k_heap {Mmu Con Ctx}.
Arguments k_next_slot {Mmu Con Ctx}.
Arguments k_mmu {Mmu Con Ctx}.
Arguments k_irq {Mmu Con Ctx}.
Arguments k_frequency {Mmu Con Ctx}.
Arguments k_vector {Mmu Con Ctx}.
Arguments k_console {Mmu Con Ctx}.

(** ** The hardware abstraction layer *)

(** [hal/mod.rs]: what the portable code calls.  [hal_vector] is the value that
    [trap::init] writes to the vector register for a table at an address. *)
Class Hal (Mmu Con Ctx : Type) := {
  hal_KERNEL_PHYSICAL_LOAD : PhysicalAddress;
  hal_physical_to_virtual : PhysicalAddress -> VirtualAddress;
  hal_virtual_to_physical : VirtualAddress -> PhysicalAddress;
  (** Where the CPU finds an address: what its registers make of the tables. *)
  hal_walk : Mmu -> VirtualAddress -> option PhysicalAddress;
  hal_mmu_init : PhysicalAddress -> M Mmu unit;
  hal_expand_physmap : PhysicalAddress -> M Mmu unit;
  hal_remove_identity_mapping : M Mmu unit;
  hal_kernel_stack_region_base : VirtualAddress;
  hal_map_kernel_stack_page : VirtualAddress -> PhysicalAddress -> M (World Mmu) (Result unit MapError);
  hal_unmap_kernel_stack_page : VirtualAddress -> M (World Mmu) (Result PhysicalAddress UnmapError);
  hal_vector : Z -> Z;
  hal_console :: ConsoleDevice Con;
  hal_console_post_mmu_init : M Con unit;
  hal_interrupt_init : HardwareInfo -> M (Irq (Clock (Scheduler Ctx))) unit;
  hal_handle_timer_interrupt : M (Clock (Scheduler Ctx)) unit -> option TrapCause ->
    M (Irq (Clock (Scheduler Ctx))) bool;
  hal_timer :: HalTimer;
  (** What [init_frequency] stores for the frequency of the hardware description. *)
  hal_timer_frequency : option Z -> Z;
  hal_timer_enable : M (Irq (Clock (Scheduler Ctx))) (Result unit TimerError);
}.

(** [frequency] of both [timer.rs]: [Frequency::try_from_hz] of [FREQUENCY_HZ]. *)
Definition timer_frequency (hz : Z) : option Z := if hz =? 0 then None else Some hz.

(** [arch/aarch64]: [cntfrq] is the timer's frequency register, the static
    tables are at [low_ptr] and [high_ptr]. *)
Section Arm64.
Context `{PageLayout} {Ctx : Type} (low_ptr high_ptr cntfrq : Z) (uart : list UartOp -> Z -> Z) (patience : nat).
Context (device : list DeviceOp -> VirtualAddress -> Z) (register : list DeviceOp -> GicRegister -> Z).

Definition arm64_read_frequency : option Z := timer_frequency cntfrq.
Definition arm64_init_frequency (f : option Z) : Z := default 0 arm64_read_frequency.

(** The CPU's walk: with the bit [M] of [SCTLR_EL1] clear an address is physical;
    with it set the low half goes through the table that [TTBR0_EL1] names and
    the high half through that of [TTBR1_EL1]. *)
Definition arm64_walk (m : Arm64Mmu.Mmu) (address : VirtualAddress) : option PhysicalAddress :=
  let through base table root :=
    if base =? Arm64Mmu.static_physical_address table
    then match Arm64Mmu.translate root address m with Done (found, _) => found | _ => None end
    else None in
  if negb (Z.testbit (Arm64Mmu.sctlr_el1 m) 0) then Some address
  else if address <? 2 ^ 63 then through (Arm64Mmu.ttbr0_el1 m) low_ptr Arm64Mmu.LowTable
  else through (Arm64Mmu.ttbr1_el1 m) high_ptr Arm64Mmu.HighTable.

Definition arm64_hal : Hal Arm64Mmu.Mmu Uart Ctx := {|
  hal_KERNEL_PHYSICAL_LOAD := Arm64Mmu.KERNEL_PHYSICAL_LOAD;
  hal_physical_to_virtual := Arm64Mmu.physical_to_virtual;
  hal_virtual_to_physical := Arm64Mmu.virtual_to_physical;
  hal_walk := arm64_walk;
  hal_mmu_init := Arm64Mmu.mmu_init low_ptr high_ptr Arm64Mmu.KERNEL_PHYSICAL_LOAD;
  hal_expand_physmap := Arm64Mmu.expand_physmap;
  hal_remove_identity_mapping := Arm64Mmu.remove_identity_mapping;
  hal_kernel_stack_region_base := Arm64Mmu.kernel_stack_region_base;
  hal_map_kernel_stack_page := Arm64Mmu.map_kernel_stack_page;
  hal_unmap_kernel_stack_page := Arm64Mmu.unmap_kernel_stack_page;
  hal_vector base := base;
  hal_console := pl011_device uart patience;
  hal_console_post_mmu_init := arm64_console_post_mmu_init;
  hal_interrupt_init := gic_init device register;
  hal_handle_timer_interrupt := arm64_handle_timer_interrupt device register;
  hal_timer := aarch64_timer;
  hal_timer_frequency := arm64_init_frequency;
  hal_timer_enable := arm64_timer_enable device ;;; ret (Ok tt);
|}.
End Arm64.

(** [arch/riscv64]: the timer is SBI's, the console too. *)
Section Riscv64.
Context `{PageLayout} `{SbiFirmware} {Ctx : Type} (st : Statics).

Definition STVEC_MODE_VECTORED : Z := 1.
Definition riscv_init_frequency (f : option Z) : Z := default 0 f.
(** [enable_local_timer_interrupts] and [enable_interrupts]. *)
Definition riscv_timer_enable : M (Irq (Clock (Scheduler Ctx))) (Result unit TimerError) :=
  log EnableLocalTimer ;;; log EnableInterrupts ;;; ret (Ok tt).

(** The CPU's walk: [satp] is 0 for no translation, or names the root table. *)
Definition riscv_walk (m : RiscvMmu.Mmu) (address : VirtualAddress) : option PhysicalAddress :=
  if RiscvMmu.satp m =? 0 then Some address
  else if RiscvMmu.satp m =? RiscvMmu.sv48 (RiscvMmu.static_physical_address (RiscvMmu.ROOT_TABLE st)) 0
  then match RiscvMmu.translate (RiscvMmu.static_table (RiscvMmu.ROOT_TABLE st)) address m with Done (found, _) => found | _ => None end
  else None.

Definition riscv_hal : Hal RiscvMmu.Mmu (list Ecall) Ctx := {|
  hal_KERNEL_PHYSICAL_LOAD := RiscvMmu.KERNEL_PHYSICAL_LOAD;
  hal_physical_to_virtual := RiscvMmu.physical_to_virtual;
  hal_virtual_to_physical := RiscvMmu.virtual_to_physical;
  hal_walk := riscv_walk;
  hal_mmu_init := RiscvMmu.mmu_init st RiscvMmu.KERNEL_PHYSICAL_LOAD;
  hal_expand_physmap := RiscvMmu.expand_physmap st;
  hal_remove_identity_mapping := RiscvMmu.remove_identity_mapping st;
  hal_kernel_stack_region_base := RiscvMmu.kernel_stack_region_base;
  hal_map_kernel_stack_page := RiscvMmu.map_kernel_stack_page st;
  hal_unmap_kernel_stack_page := RiscvMmu.unmap_kernel_stack_page st;
  hal_vector base := Z.lor base STVEC_MODE_VECTORED;
  hal_console := sbi_device;
  hal_console_post_mmu_init := riscv_console_post_mmu_init;
  hal_interrupt_init _ := ret tt;
  hal_handle_timer_interrupt := riscv_handle_timer_interrupt;
  hal_timer := riscv64_timer;
  hal_timer_frequency := riscv_init_frequency;
  hal_timer_enable := riscv_timer_enable;
|}.
End Riscv64.

(** ** The device tree in memory *)

Inductive BootError :=
  | MissingDeviceTree
  | DeviceTreeHeader
  | DeviceTreeTooLarge
  | DeviceTreeMagic
  | DeviceTreeMisaligned.

Definition FDT_MAGIC : Z := 0xd00dfeed.

Section Boot.
Context {Mmu Con Ctx : Type} `{Hal Mmu Con Ctx} `{ContextOps Ctx} `{PageLayout} `{FunctionAddresses} `{FdtParser}.
Implicit Types k : Kernel Mmu Con Ctx.
(** The bytes of physical memory, and [Fdt::new_unaligned] of the [fdt] crate. *)
Variable memory : PhysicalAddress -> option Z.
Variable new_unaligned : list Z -> option Fdt.

(** A load goes through the page tables; there may be no memory behind them. *)
Definition load_byte k (address : VirtualAddress) : option Z :=
  match hal_walk (k_mmu k) address with None => None | Some physical => memory physical end.
(** [core::slice::from_raw_parts]: reading unmapped bytes is undefined. *)
Definition from_raw_parts (address : VirtualAddress) (len : Z) : M (Kernel Mmu Con Ctx) (list Z) := fun k =>
  match mapM (load_byte k) (seqZ address len) with
  | Some bytes => Done (bytes, k)
  | None => Undefined
  end.

Definition DeviceTreeBlob_new (dtb : PhysicalAddress) : M (Kernel Mmu Con Ctx) (Result (list Z) BootError) :=
  if negb (dtb mod 8 =? 0) then ret (Err DeviceTreeMisaligned)
  else
    let virtual_address := hal_physical_to_virtual dtb in
    let! header := from_raw_parts virtual_address 8 in
    let magic := from_be_bytes (take 4 header) in
    if negb (magic =? FDT_MAGIC) then ret (Err DeviceTreeMagic)
    else
      let total_size := from_be_bytes (drop 4 header) in
      if DEVICE_TREE_BLOB_MAX_SIZE <? total_size then ret (Err DeviceTreeTooLarge)
      else
        let! data := from_raw_parts virtual_address total_size in
        ret (Ok data).
Definition as_fdt (data : list Z) : Result Fdt BootError :=
  match new_unaligned data with Some fdt => Ok fdt | None => Err DeviceTreeHeader end.

Definition read_hardware_info (dtb : PhysicalAddress) : M (Kernel Mmu Con Ctx) (Result HardwareInfo BootError) :=
  if dtb =? 0 then ret (Err MissingDeviceTree)
  else
    try! blob := DeviceTreeBlob_new dtb in
    match as_fdt blob with
    | Err e => ret (Err e)
    | Ok fdt => let! info := lift_outcome (HardwareInfo_from_fdt dtb fdt blob) in ret (Ok info)
    end.

(** ** Parts of the kernel *)

Definition set_heap (h : Heap) k : Kernel Mmu Con Ctx := {|
  k_heap := h; k_next_slot := k_next_slot k; k_mmu := k_mmu k; k_irq := k_irq k;
  k_frequency := k_frequency k; k_vector := k_vector k; k_console := k_console k |}.
Definition set_mmu (m : Mmu) k : Kernel Mmu Con Ctx := {|
  k_heap := k_heap k; k_next_slot := k_next_slot k; k_mmu := m; k_irq := k_irq k;
  k_frequency := k_frequency k; k_vector := k_vector k; k_console := k_console k |}.
Definition set_irq (i : Irq (Clock (Scheduler Ctx))) k : Kernel Mmu Con Ctx := {|
  k_heap := k_heap k; k_next_slot := k_next_slot k; k_mmu := k_mmu k; k_irq := i;
  k_frequency := k_frequency k; k_vector := k_vector k; k_console := k_console k |}.
Definition set_console (c : Con) k : Kernel Mmu Con Ctx := {|
  k_heap := k_heap k; k_next_slot := k_next_slot k; k_mmu := k_mmu k; k_irq := k_irq k;
  k_frequency := k_frequency k; k_vector := k_vector k; k_console := c |}.

(** [PMM], seen by the page-table and stack code beside the page tables. *)
Definition k_pmm k : Pmm := m_pmm (heap_mem (k_heap k)).
Definition set_k_pmm (s : Pmm) k : Kernel Mmu Con Ctx := set_heap {|
  kmalloc := kmalloc (k_heap k);
  heap_mem := {| m_pmm := s; m_words := m_words (heap_mem (k_heap k)); m_headers := m_headers (heap_mem (k_heap k));
                 m_bytes := m_bytes (heap_mem (k_heap k)); m_mappers := m_mappers (heap_mem (k_heap k)) |} |} k.
Definition k_world k : World Mmu := {| w_pmm := k_pmm k; w_next_slot := k_next_slot k; w_mmu := k_mmu k |}.
Definition set_world (w : World Mmu) k : Kernel Mmu Con Ctx :=
  let k := set_k_pmm (w_pmm w) k in {|
  k_heap := k_heap k; k_next_slot := w_next_slot w; k_mmu := w_mmu w; k_irq := k_irq k;
  k_frequency := k_frequency k; k_vector := k_vector k; k_console := k_console k |}.
Definition k_clock k : Clock (Scheduler Ctx) := irq_kernel (k_irq k).
Definition set_k_clock (c : Clock (Scheduler Ctx)) k : Kernel Mmu Con Ctx := set_irq {|
  gic_ready := gic_ready (k_irq k); gic_slot := gic_slot (k_irq k); gic_ops := gic_ops (k_irq k); irq_kernel := c |} k.
Definition k_sched k : Scheduler Ctx := clk_sched (k_clock k).
Definition set_k_sched (s : Scheduler Ctx) k : Kernel Mmu Con Ctx := set_k_clock (set_sched s (k_clock k)) k.

Definition on_console {A} (m : M Con A) : M (Kernel Mmu Con Ctx) A := zoom k_console set_console m.
Definition on_mmu {A} (m : M Mmu A) : M (Kernel Mmu Con Ctx) A := zoom k_mmu set_mmu m.
Definition on_kernel_pmm {A} (m : M Pmm A) : M (Kernel Mmu Con Ctx) A := zoom k_pmm set_k_pmm m.
Definition on_heap {A} (m : M Heap A) : M (Kernel Mmu Con Ctx) A := zoom k_heap set_heap m.
Definition on_world {A} (m : M (World Mmu) A) : M (Kernel Mmu Con Ctx) A := zoom k_world set_world m.
Definition on_irq {A} (m : M (Irq (Clock (Scheduler Ctx))) A) : M (Kernel Mmu Con Ctx) A := zoom k_irq set_irq m.
Definition on_clock {A} (m : M (Clock (Scheduler Ctx)) A) : M (Kernel Mmu Con Ctx) A := zoom k_clock set_k_clock m.
Definition on_sched {A} (m : M (Scheduler Ctx) A) : M (Kernel Mmu Con Ctx) A := zoom k_sched set_k_sched m.

(** ** The two phases *)

(** The address of the vector table, of [idle_thread] and of the thread
    trampoline, and the end of the kernel image, known at link time. *)
Variables vectors idle_thread trampoline kernel_end : Z.

(** [hal::trap::init]: the table's address is that of the running code. *)
Definition trap_init (base : Z) : M (Kernel Mmu Con Ctx) unit :=
  modify (fun k => {| k_heap := k_heap k; k_next_slot := k_next_slot k; k_mmu := k_mmu k; k_irq := k_irq k;
    k_frequency := k_frequency k; k_vector := Some (hal_vector base); k_console := k_console k |}).
Definition timer_init_frequency (info : HardwareInfo) : M (Kernel Mmu Con Ctx) unit :=
  modify (fun k => {| k_heap := k_heap k; k_next_slot := k_next_slot k; k_mmu := k_mmu k; k_irq := k_irq k;
    k_frequency := hal_timer_frequency (timer_frequency_hz info); k_vector := k_vector k; k_console := k_console k |}).

Definition phys_init (dtb : PhysicalAddress) : M (Kernel Mmu Con Ctx) unit :=
  on_console log_header ;;;
  on_console log_uart ;;;
  trap_init vectors ;;;
  on_console log_trap ;;;
  on_mmu (hal_mmu_init dtb).

(** [hal::mmu::post_mmu_init] reloads the global pointer and has no effect here. *)
Definition virt_init (dtb : PhysicalAddress) : M (Kernel Mmu Con Ctx) (Result HardwareInfo BootError) :=
  trap_init (hal_physical_to_virtual vectors) ;;;
  on_console hal_console_post_mmu_init ;;;
  on_console log_mmu ;;;
  try! hardware := read_hardware_info dtb in
  on_mmu (hal_expand_physmap (max_memory_end hardware)) ;;;
  on_mmu hal_remove_identity_mapping ;;;
  on_console log_virt ;;;
  on_console (log_dtb hardware) ;;;
  timer_init_frequency hardware ;;;
  ret (Ok hardware).

(** ** Timer interrupts *)

(** [kernel::task::tick] and [preempt_from_trap]: their results are ignored. *)
Definition task_tick (elapsed : Z) : M (Scheduler Ctx) unit := let! _ := tick elapsed in ret tt.
Definition preempt_from_trap : M (Clock (Scheduler Ctx)) unit :=
  zoom clk_sched set_sched (let! _ := preempt_contexts in ret tt).
(** An interrupt through the fast entry while the counter reads [now]. *)
Definition timer_interrupt (now : Z) : M (Kernel Mmu Con Ctx) unit :=
  on_irq (handle_fast_interrupt (hal_handle_timer_interrupt (handle_timer_irq task_tick now)) preempt_from_trap).

(** [wait_for_first_tick]: before each load of [TICK_COUNT] a timer interrupt may
    arrive, at the counter value that [arrivals] gives; after [arrivals] none do,
    so every further load reads the same. *)
Fixpoint wait_first_tick (max_spins : Z) (arrivals : list (option Z)) :
    M (Kernel Mmu Con Ctx) (Result unit ClockError) :=
  if max_spins <=? 0 then ret (Err FirstTickTimeout)
  else
    let poll (rest : M (Kernel Mmu Con Ctx) (Result unit ClockError)) :=
      let! count := gets (fun k => clk_tick_count (k_clock k)) in
      if negb (count =? 0) then ret (Ok tt) else rest in
    match arrivals with
    | [] => poll (ret (Err FirstTickTimeout))
    | arrival :: arrivals =>
        match arrival with Some now => timer_interrupt now | None => ret tt end ;;;
        poll (wait_first_tick (max_spins - 1) arrivals)
    end.

(** ** [kernel_main] *)

(** The CPU stopped in [halt]. *)
Inductive Halted := Halt.
(** [.unwrap_or_else(|_| { out.print(message); halt() })] *)
Definition or_halt {A B E} (m : M (Kernel Mmu Con Ctx) (Result A E)) (message : string)
    (f : A -> M (Kernel Mmu Con Ctx) (Result B Halted)) : M (Kernel Mmu Con Ctx) (Result B Halted) :=
  let! r := m in
  match r with
  | Ok a => f a
  | Err _ => on_console (print (newline ++ "[PANIC]" ++ newline ++ message ++ newline)) ;;; ret (Err Halt)
  end.

Definition FIRST_TICK_SPINS : Z := 100000000.

(** [enter_idle_thread]: the contexts of the switch to the idle thread. *)
Definition enter_idle_thread : M (Kernel Mmu Con Ctx) (Result ContextPair Halted) :=
  or_halt (on_sched enter_idle_contexts) "task: idle context missing" (fun pair => ret (Ok pair)).

Definition kernel_main (dtb : PhysicalAddress) (now : Z) (arrivals : list (option Z)) :
    M (Kernel Mmu Con Ctx) (Result ContextPair Halted) :=
  or_halt (virt_init dtb) "boot: invalid device tree" (fun hardware =>
  or_halt (on_kernel_pmm (Pmm.init hardware hal_KERNEL_PHYSICAL_LOAD (hal_virtual_to_physical kernel_end)
             hal_physical_to_virtual)) "pmm: initialization failed" (fun _ =>
  let! pmm := gets k_pmm in
  on_console (log_pmm (arena_count pmm) (total_pages pmm)) ;;;
  on_heap (Kmalloc_init hal_physical_to_virtual hal_virtual_to_physical) ;;;
  or_halt (on_heap Kmalloc.boot_probe) "allocator: initialization failed" (fun _ =>
  or_halt (on_world (create_mapped hal_kernel_stack_region_base hal_map_kernel_stack_page hal_unmap_kernel_stack_page))
    "task: idle stack allocation failed" (fun idle_stack =>
  or_halt (on_sched (init_with_idle_thread trampoline idle_stack idle_thread 0))
    "task: scheduler initialization failed" (fun _ =>
  on_console log_trace ;;;
  on_irq (hal_interrupt_init hardware) ;;;
  let! hz := gets k_frequency in
  or_halt (on_clock (clock_init (timer_frequency hz) now)) "clock: invalid timer frequency" (fun _ =>
  or_halt (on_irq hal_timer_enable) "clock: timer enable failed" (fun _ =>
  or_halt (wait_first_tick FIRST_TICK_SPINS arrivals) "clock: first timer interrupt did not arrive" (fun _ =>
  on_console log_clock ;;;
  on_console log_task ;;;
  on_console log_idle ;;;
  on_console (print ("[BOOT:OK]" ++ newline)) ;;;
  enter_idle_thread)))))))).

(** The boot stub calls [phys_init], moves to the higher half and calls
    [kernel_main]. *)
Definition boot (dtb : PhysicalAddress) (now : Z) (arrivals : list (option Z)) :
    M (Kernel Mmu Con Ctx) (Result ContextPair Halted) :=
  phys_init dtb ;;; kernel_main dtb now arrivals.
End Boot.
