(* ===== verification/Locking.v ===== *)
(** * The kernel under its spin locks

    The statics of [pmm/mod.rs], [allocator/mod.rs] and [task/mod.rs] are each
    behind a [SpinLock]: a public function takes a guard, calls the method, and
    drops the guard.  The other files model the methods; here are the public
    functions, with the lock.  [sim] compares a computation with locks to the
    one without.  [Cpu] runs calls and timer interrupts on one CPU, one step of
    the guard at a time, where an interrupt can arrive before any step that
    finds interrupts enabled.  The functions of the page
    allocator and of its pages and runs are here under [PMM_LOCK], for their
    clients; [PMM_LOCK] taken inside a heap call or inside the creation or drop
    of a stack is not modelled: it is the innermost lock, and each call of a page
    function is one atomic step of the caller, which finds it free. *)

From S2P Require Import Prelude Address HwInfo Pmm Sync Clock Trap Trace Context KernelStack Kmalloc Task Gic Startup.
From stdpp Require Import base tactics option list list_numbers numbers strings relations.

#[local] Open Scope Z_scope.
#[local] Open Scope kernel_scope.

(** ** A static behind its lock *)

Record Guarded (K : Type) := { g_lock : SpinLock; g_value : K }.
Arguments g_lock {K}.
Arguments g_value {K}.
Definition set_g_lock {K} (l : SpinLock) (g : Guarded K) : Guarded K := {| g_lock := l; g_value := g_value g |}.
Definition set_g_value {K} (v : K) (g : Guarded K) : Guarded K := {| g_lock := g_lock g; g_value := v |}.
Definition on_lock {K A} (m : M SpinLock A) : M (Guarded K) A := zoom g_lock set_g_lock m.
Definition on_value {K A} (m : M K A) : M (Guarded K) A := zoom g_value set_g_value m.

(** [let _guard = LOCK.guard(); m]: the guard is dropped when the block ends.  A
    panic halts the machine without dropping it. *)
Definition with_guard {K A} (fuel : nat) (m : M K A) : M (Guarded K) A :=
  let! irq_was_enabled := on_lock (Sync.guard fuel) in
  let! a := on_value m in
  on_lock (guard_drop irq_was_enabled) ;;;
  ret a.

Section Public.
Context (fuel : nat).

(** *** [task/mod.rs] *)
Section Task.
Context {Ctx : Type} `{ContextOps Ctx} (trampoline : Z).
Abbreviation Sched := (Guarded (Scheduler Ctx)).

Definition locked_init : M Sched (Result unit InitError) := with_guard fuel init.
Definition locked_init_with_idle_thread (stack : KernelStack) (entry arg : Z) : M Sched (Result unit InitError) :=
  with_guard fuel (init_with_idle_thread trampoline stack entry arg).
(** The choice of the contexts; [Context.v] has the switch that follows. *)
Definition locked_enter_idle : M Sched (Result ContextPair ScheduleError) := with_guard fuel enter_idle_contexts.
Definition locked_preempt_from_trap : M Sched unit :=
  let! _ := with_guard fuel preempt_contexts in ret tt.
Definition locked_tick (elapsed_ticks : Z) : M Sched unit :=
  with_guard fuel (let! _ := tick elapsed_ticks in ret tt).
Definition locked_maybe_reschedule : M Sched (option Switch) := with_guard fuel maybe_reschedule.
Definition locked_current : M Sched (option ThreadSnapshot) := with_guard fuel (gets current_snapshot).
Definition locked_kernel_process : M Sched (option Z) := with_guard fuel (gets kernel_process).
Definition locked_spawn (process weight : Z) (stack : KernelStack) (entry arg : Z) : M Sched (Result Z InitError) :=
  with_guard fuel (spawn trampoline process weight stack entry arg).
Definition locked_trace_len : M Sched Z := with_guard fuel (gets trace_len).
End Task.

(** *** [pmm/mod.rs] *)
Section PmmFunctions.
Context `{PageLayout}.

Definition locked_pmm_init (info : HardwareInfo) (kernel_start kernel_end : PhysicalAddress)
    (physical_to_virtual : PhysicalAddress -> VirtualAddress) : M (Guarded Pmm) (Result unit Pmm.InitError) :=
  with_guard fuel (Pmm.init info kernel_start kernel_end physical_to_virtual).
Definition locked_alloc_page : M (Guarded Pmm) (option PageHandle) := with_guard fuel global_alloc_page.
Definition locked_free_page_handle (page : PageHandle) : M (Guarded Pmm) unit := with_guard fuel (free_page_handle page).
Definition locked_alloc_contiguous (count alignment_log2 : Z) : M (Guarded Pmm) (option PageRun) :=
  with_guard fuel (global_alloc_contiguous count alignment_log2).
Definition locked_free_contiguous_parts (head : PageHandle) (count : Z) : M (Guarded Pmm) (Result unit FreeContiguousError) :=
  with_guard fuel (free_contiguous_parts head count).
Definition locked_page_to_physical_handle (page : PageHandle) : M (Guarded Pmm) (option PhysicalAddress) :=
  with_guard fuel (page_to_physical_handle page).
Definition locked_free_physical_page (physical : PhysicalAddress) : M (Guarded Pmm) unit :=
  with_guard fuel (free_physical_page physical).
(** [AllocatedPage] and [PageRun]: their methods call the functions above; a run
    of no pages, or an index past its end, does not ask for the lock. *)
Definition locked_AllocatedPage_physical_address (page : PageHandle) : M (Guarded Pmm) (option PhysicalAddress) :=
  locked_page_to_physical_handle page.
Definition locked_leak_physical (page : PageHandle) : M (Guarded Pmm) (option PhysicalAddress) :=
  locked_AllocatedPage_physical_address page.
Definition locked_PageRun_physical_address (run : PageRun) (index : Z) : M (Guarded Pmm) (option PhysicalAddress) :=
  if run_count run <=? index then ret None
  else
    let? index := try_from_uint 32 index in
    let? page_index := checked_add 32 (handle_page_index (run_head run)) index in
    locked_page_to_physical_handle (PageHandle_new (handle_arena_index (run_head run)) page_index).
Definition locked_PageRun_drop (run : PageRun) : M (Guarded Pmm) unit :=
  if run_count run =? 0 then ret tt
  else let! _ := locked_free_contiguous_parts (run_head run) (run_count run) in ret tt.
Definition locked_total_pages : M (Guarded Pmm) Z := with_guard fuel (gets total_pages).
Definition locked_free_pages : M (Guarded Pmm) Z := with_guard fuel (gets free_pages).
Definition locked_arena_count : M (Guarded Pmm) Z := with_guard fuel (gets arena_count).
End PmmFunctions.

(** *** [allocator/mod.rs] *)
Section KmallocFunctions.
Context `{PageLayout} `{FunctionAddresses}.

Definition locked_kmalloc_init (p2v : PhysicalAddress -> VirtualAddress) (v2p : VirtualAddress -> PhysicalAddress) :
    M (Guarded Heap) unit := with_guard fuel (Kmalloc_init p2v v2p).
Definition locked_alloc_raw (size : Z) (alignment : option Z) : M (Guarded Heap) (Result Z AllocError) :=
  with_guard fuel (Kmalloc_alloc size alignment).
Definition locked_alloc (size : Z) (alignment : option Z) : M (Guarded Heap) (Result KernelAllocation AllocError) :=
  try! ptr := locked_alloc_raw size alignment in
  ret (Ok {| allocation_ptr := ptr; allocation_size := size |}).
Definition locked_free_raw (ptr : Z) : M (Guarded Heap) (Result unit FreeError) := with_guard fuel (Kmalloc_free ptr).
Definition locked_KernelAllocation_drop (a : KernelAllocation) : M (Guarded Heap) unit :=
  let! _ := locked_free_raw (allocation_ptr a) in ret tt.
Definition locked_boot_probe : M (Guarded Heap) (Result unit AllocError) :=
  try! object := locked_alloc CACHE_LINE_SIZE None in
  locked_KernelAllocation_drop object ;;;
  ret (Ok tt).
End KmallocFunctions.
End Public.

(** ** One pass through a critical section *)

(** The word of the free lock after [k] acquisitions, up to the 65536th, whose
    release carries into the ticket half. *)
Definition LAST : Z := 2 ^ 16.
Definition free_word (k : Z) : Z := if k =? LAST then word 1 0 else word k k.
Definition unlocked (k : Z) (irq : bool) : SpinLock :=
  {| lock_state := free_word k; lock_held := false; irq_enabled := irq |}.
Definition taken_word (k : Z) : Z := issue_ticket (free_word k).
Definition taken (k : Z) (irq : bool) : SpinLock :=
  {| lock_state := taken_word k; lock_held := true; irq_enabled := irq |}.

Lemma free_word_halves k : 0 <= k < LAST -> owner_ticket (free_word k) = k /\ next_ticket (free_word k) = k.
Proof.
  unfold LAST. intros Hk. unfold free_word, LAST. rewrite (proj2 (Z.eqb_neq _ _)) by lia.
  by rewrite owner_word, next_word by lia.
Qed.
Lemma taken_word_cases k : 0 <= k < LAST ->
  (owner_ticket (taken_word k) =? next_ticket (taken_word k)) = false /\ advance_owner (taken_word k) = free_word (k + 1).
Proof.
  unfold LAST. intros Hk. unfold taken_word, free_word, LAST. rewrite (proj2 (Z.eqb_neq k _)) by lia.
  destruct (decide (k + 1 = 2 ^ 16)) as [He|Hne].
  - replace k with (2 ^ 16 - 1) by lia. by vm_compute.
  - rewrite issue_word, owner_word, next_word, advance_word, !(proj2 (Z.eqb_neq _ _)) by lia. done.
Qed.

Lemma lock_run k irq fuel : 0 <= k < LAST -> lock fuel (unlocked k irq) = Done (tt, taken k irq).
Proof.
  intros Hk. destruct (free_word_halves k Hk) as [Ho Hn].
  unfold lock, acquire, bind, gets, modify, ret. simpl. by rewrite Ho, Hn, Z.eqb_refl.
Qed.
Lemma unlock_run k irq : 0 <= k < LAST -> unlock (taken k irq) = Done (tt, unlocked (k + 1) irq).
Proof.
  intros Hk. destruct (taken_word_cases k Hk) as [Hne Ha].
  unfold unlock, release, bind, gets, modify, ret. simpl. rewrite Hne. unfold set_lock_state, set_lock_held. simpl.
  unfold unlocked. by rewrite Ha.
Qed.
Lemma guard_run k irq fuel : 0 <= k < LAST -> Sync.guard fuel (unlocked k irq) = Done (irq, taken k false).
Proof.
  intros Hk. unfold Sync.guard, bind at 1, gets, modify. simpl. unfold bind.
  change (Sync.set_irq false (unlocked k irq)) with (unlocked k false). by rewrite lock_run.
Qed.
Lemma guard_drop_run k irq : 0 <= k < LAST -> guard_drop irq (taken k false) = Done (tt, unlocked (k + 1) irq).
Proof. intros Hk. unfold guard_drop, bind. rewrite unlock_run by done. by destruct irq. Qed.

(** The lock after its last release: the next ticket is ahead of every owner. *)
Lemma spin_dead irq h t fuel :
  t <> 0 -> spin fuel t {| lock_state := word 2 0; lock_held := h; irq_enabled := irq |} = OutOfFuel.
Proof.
  intros Ht. induction fuel as [|fuel IH]; [done|]. cbn [spin]. unfold bind, gets. cbn [lock_state].
  rewrite owner_word by lia. rewrite (proj2 (Z.eqb_neq 0 t)) by lia. exact IH.
Qed.
Lemma guard_dead irq fuel : Sync.guard fuel (unlocked LAST irq) = OutOfFuel.
Proof.
  unfold Sync.guard, lock, acquire, bind, gets, modify. cbn -[spin word].
  change (owner_ticket _ =? next_ticket _) with false. cbv iota.
  change (set_lock_state _ _) with {| lock_state := word 2 0; lock_held := false; irq_enabled := false |}.
  by rewrite spin_dead.
Qed.

(** ** Computations with and without the lock

    [F k irq s] is the state [s] with the lock free after [k] acquisitions and
    interrupts enabled or not.  [sim F lo hi m' m]: [m'] takes the lock between
    [lo] and [hi] times and otherwise does what [m] does, unless it asks for the
    lock after its last acquisition: then it spins. *)
Section Sim.
Context {S S' : Type} (F : Z -> bool -> S -> S').

Definition sim {A} (lo hi : Z) (m' : M S' A) (m : M S A) : Prop := forall k irq s, 0 <= k <= LAST ->
  (LAST < k + hi /\ m' (F k irq s) = OutOfFuel) \/
  match m s with
  | Done (a, t) => exists k', k + lo <= k' <= k + hi /\ k' <= LAST /\ m' (F k irq s) = Done (a, F k' irq t)
  | Panic msg => m' (F k irq s) = Panic msg
  | Undefined => m' (F k irq s) = Undefined
  | OutOfFuel => m' (F k irq s) = OutOfFuel
  end.

Lemma sim_ret {A} (a : A) : sim 0 0 (ret a) (ret a).
Proof. intros k irq s Hk. right. exists k. split_and!; [lia..|done]. Qed.
Lemma sim_panic {A} msg : sim 0 0 (panic msg : M S' A) (panic msg).
Proof. intros k irq s Hk. by right. Qed.
Lemma sim_gets {A} (f' : S' -> A) (f : S -> A) : (forall k irq s, f' (F k irq s) = f s) -> sim 0 0 (gets f') (gets f).
Proof. intros Hf k irq s Hk. right. exists k. split_and!; [lia..|]. unfold gets. by rewrite Hf. Qed.
Lemma sim_modify (f' : S' -> S') (f : S -> S) :
  (forall k irq s, f' (F k irq s) = F k irq (f s)) -> sim 0 0 (modify f') (modify f).
Proof. intros Hf k irq s Hk. right. exists k. split_and!; [lia..|]. unfold modify. by rewrite Hf. Qed.
Lemma sim_bind {A B} lo1 hi1 lo2 hi2 (m' : M S' A) m (f' : A -> M S' B) f :
  0 <= lo1 -> 0 <= hi2 -> sim lo1 hi1 m' m -> (forall a, sim lo2 hi2 (f' a) (f a)) ->
  sim (lo1 + lo2) (hi1 + hi2) (bind m' f') (bind m f).
Proof.
  intros Hlo Hhi Hm Hf k irq s Hk. unfold bind. destruct (Hm k irq s Hk) as [[Hb ->]|Hr]; [left; split; [lia|done]|].
  destruct (m s) as [[a t]|msg| |]; [|by rewrite Hr; right..].
  destruct Hr as (k' & Hk1 & Hk2 & ->). destruct (Hf a k' irq t ltac:(lia)) as [[Hb ->]|Hr]; [left; split; [lia|done]|right].
  destruct (f a t) as [[b u]|msg| |]; [|done..]. destruct Hr as (k'' & Hk3 & Hk4 & ->). exists k''. split_and!; [lia..|done].
Qed.
Lemma sim_mono {A} lo lo' hi hi' (m' : M S' A) m : lo' <= lo -> hi <= hi' -> sim lo hi m' m -> sim lo' hi' m' m.
Proof.
  intros Hlo Hhi Hm k irq s Hk. destruct (Hm k irq s Hk) as [[Hb ->]|Hr]; [left; split; [lia|done]|right].
  destruct (m s) as [[a t]|msg| |]; [|done..]. destruct Hr as (k' & Hk1 & Hk2 & ->). exists k'. split_and!; [lia..|done].
Qed.
(** Within the bound the two agree. *)
Lemma sim_Done {A} lo hi (m' : M S' A) m k irq s a t :
  sim lo hi m' m -> 0 <= k -> k + hi <= LAST -> 0 <= hi -> m s = Done (a, t) ->
  exists k', k + lo <= k' <= k + hi /\ m' (F k irq s) = Done (a, F k' irq t).
Proof.
  intros Hm Hk Hb Hhi Ht. destruct (Hm k irq s ltac:(lia)) as [[? _]|Hr]; [lia|]. rewrite Ht in Hr.
  destruct Hr as (k' & Hk1 & _ & ->). by exists k'.
Qed.
(** Past the last acquisition the computation with the lock spins. *)
Lemma sim_dead {A} lo hi (m' : M S' A) m irq s a t :
  sim lo hi m' m -> 0 < lo -> m s = Done (a, t) -> m' (F LAST irq s) = OutOfFuel.
Proof.
  intros Hm Hlo Ht. destruct (Hm LAST irq s ltac:(unfold LAST; lia)) as [[_ ?]|Hr]; [done|]. rewrite Ht in Hr.
  destruct Hr as (k' & ? & ? & _). lia.
Qed.
End Sim.

(** The lock beside the value it guards. *)
Definition guarded {K} (k : Z) (irq : bool) (v : K) : Guarded K := {| g_lock := unlocked k irq; g_value := v |}.

Lemma sim_with_guard {K A} fuel (m : M K A) : sim guarded 1 1 (with_guard fuel m) m.
Proof.
  intros k irq v Hk. unfold with_guard, on_lock, on_value, zoom, bind, guarded. cbn [g_lock g_value].
  destruct (decide (k = LAST)) as [->|Hne]; [left; rewrite guard_dead; split; [lia|done]|right].
  rewrite guard_run by lia. cbn [g_lock g_value set_g_lock set_g_value].
  destruct (m v) as [[a w]|msg| |]; [|done..]. exists (k + 1). split_and!; [lia..|].
  cbn [g_lock g_value set_g_lock set_g_value]. by rewrite guard_drop_run by lia.
Qed.
Lemma sim_ignore {S S' A} (F : Z -> bool -> S -> S') lo hi (m' : M S' A) (m : M S A) :
  0 <= lo -> sim F lo hi m' m -> sim F lo hi (let! _ := m' in ret tt) (let! _ := m in ret tt).
Proof.
  intros Hlo Hm. rewrite <-(Z.add_0_r lo), <-(Z.add_0_r hi). eapply sim_bind; [lia|lia|exact Hm|]. intros _. apply sim_ret.
Qed.
Lemma sim_step {S S' A B} (F : Z -> bool -> S -> S') lo hi (m' : M S' A) (m : M S A) (f' : A -> M S' B) f :
  0 <= hi -> sim F 0 0 m' m -> (forall a, sim F lo hi (f' a) (f a)) -> sim F lo hi (bind m' f') (bind m f).
Proof. intros Hhi Hm Hf. apply (sim_bind F 0 0 lo hi m' m f' f); [lia|done..]. Qed.
Lemma sim_first {S S' A B} (F : Z -> bool -> S -> S') lo hi hi' (m' : M S' A) (m : M S A) (f' : A -> M S' B) f :
  0 <= lo -> 0 <= hi' -> sim F lo hi m' m -> (forall a, sim F 0 hi' (f' a) (f a)) -> sim F lo (hi + hi') (bind m' f') (bind m f).
Proof. intros Hlo Hhi Hm Hf. rewrite <-(Z.add_0_r lo). by apply sim_bind. Qed.
Lemma sim_last {S S' A B} (F : Z -> bool -> S -> S') lo hi (m' : M S' A) (m : M S A) (f' : A -> M S' B) f :
  0 <= lo -> sim F lo hi m' m -> (forall a, sim F 0 0 (f' a) (f a)) -> sim F lo hi (bind m' f') (bind m f).
Proof. intros Hlo Hm Hf. rewrite <-(Z.add_0_r hi). by apply sim_first. Qed.

(** Computations that leave the guarded part alone. *)
Ltac sim_pure :=
  repeat first
    [ apply sim_ret | apply sim_panic
    | apply sim_gets; intros; reflexivity
    | apply sim_modify; intros; reflexivity
    | apply sim_step; [lia| |intros]
    | match goal with |- sim _ _ _ (match ?x with _ => _ end) _ => destruct x end ].

(** ** The timer interrupt *)

Definition with_sched {S S'} (f : S -> S') (c : Clock S) : Clock S' := {|
  clk_frequency := clk_frequency c; clk_interval := clk_interval c; clk_next_tick := clk_next_tick c;
  clk_tick_count := clk_tick_count c; clk_programmed := clk_programmed c; clk_halted := clk_halted c;
  clk_sched := f (clk_sched c) |}.
Definition with_kernel {K K'} (f : K -> K') (i : Irq K) : Irq K' := {|
  gic_ready := gic_ready i; gic_slot := gic_slot i; gic_ops := gic_ops i; irq_kernel := f (irq_kernel i) |}.

(** A computation on the scheduler run on the clock. *)
Lemma sim_on_sched {S S' A} (F : Z -> bool -> S -> S') lo hi (m' : M S' A) (m : M S A) :
  sim F lo hi m' m -> sim (fun k irq => with_sched (F k irq)) lo hi (zoom clk_sched set_sched m') (zoom clk_sched set_sched m).
Proof.
  intros Hm k irq c Hk. unfold zoom. cbn [clk_sched with_sched].
  destruct (Hm k irq (clk_sched c) Hk) as [[Hb ->]|Hr]; [by left|right].
  destruct (m (clk_sched c)) as [[a t]|msg| |]; [|by rewrite Hr..].
  destruct Hr as (k' & H1 & H2 & ->). by exists k'.
Qed.
Lemma run_task_tick_zoom {Sched} (task_tick : Z -> M Sched unit) e c :
  run_task_tick task_tick e c = (let! _ := zoom clk_sched set_sched (task_tick e) in ret tt) c.
Proof. unfold run_task_tick, bind, zoom. by destruct (task_tick e (clk_sched c)) as [[a t]| | |]. Qed.
Lemma sim_meq {S S' A} (F : Z -> bool -> S -> S') lo hi (m' n' : M S' A) (m n : M S A) :
  meq m' n' -> meq m n -> sim F lo hi n' n -> sim F lo hi m' m.
Proof. intros H1 H2 Hs k irq s Hk. rewrite H1, H2. by apply Hs. Qed.

(** The architecture's interrupt driver: it runs the clock's handler at most
    once and leaves the rest of the kernel alone. *)
Class InterruptDriver := {
  driver_handle : forall {K : Type}, M K unit -> option TrapCause -> M (Irq K) bool;
  driver_sim : forall {K K'} (F : Z -> bool -> K -> K') hi (m' : M K' unit) (m : M K unit) cause, 0 <= hi ->
    sim F 0 hi m' m -> sim (fun k irq => with_kernel (F k irq)) 0 hi (driver_handle m' cause) (driver_handle m cause);
}.

Lemma sim_on_kernel {K K' : Type} (F : Z -> bool -> K -> K') lo hi (m' : M K' unit) (m : M K unit)
    (put' : K' -> Irq K' -> Irq K') (put : K -> Irq K -> Irq K) :
  (forall k irq t i, put' (F k irq t) (with_kernel (F k irq) i) = with_kernel (F k irq) (put t i)) ->
  (forall k irq k1 t i, put' (F k irq t) (with_kernel (F k1 irq) i) = put' (F k irq t) (with_kernel (F k irq) i)) ->
  sim F lo hi m' m -> sim (fun k irq => with_kernel (F k irq)) lo hi (zoom irq_kernel put' m') (zoom irq_kernel put m).
Proof.
  intros Hput Hput' Hm k irq i Hk. unfold zoom. cbn [irq_kernel with_kernel].
  destruct (Hm k irq (irq_kernel i) Hk) as [[Hb ->]|Hr]; [by left|right].
  destruct (m (irq_kernel i)) as [[a t]|msg| |]; [|by rewrite Hr..].
  destruct Hr as (k' & H1 & H2 & ->). exists k'. split_and!; [lia..|]. by rewrite Hput', Hput.
Qed.
Definition put_handled {K} (x : K) (s : Irq K) : Irq K :=
  {| gic_ready := gic_ready s; gic_slot := gic_slot s; gic_ops := TimerHandled :: gic_ops s; irq_kernel := x |}.
Definition put_kernel {K} (x : K) (s : Irq K) : Irq K :=
  {| gic_ready := gic_ready s; gic_slot := gic_slot s; gic_ops := gic_ops s; irq_kernel := x |}.
Lemma run_timer_irq_zoom {K} (m : M K unit) : meq (run_timer_irq m) (let! _ := zoom irq_kernel put_handled m in ret tt).
Proof. intros s. unfold run_timer_irq, bind, zoom. by destruct (m (irq_kernel s)) as [[[] t]| | |]. Qed.
Lemma run_preempt_zoom {K} (m : M K unit) : meq (run_preempt m) (let! _ := zoom irq_kernel put_kernel m in ret tt).
Proof. intros s. unfold run_preempt, bind, zoom. by destruct (m (irq_kernel s)) as [[[] t]| | |]. Qed.
Lemma sim_run_timer_irq {K K'} (F : Z -> bool -> K -> K') lo hi m' m : 0 <= lo ->
  sim F lo hi m' m -> sim (fun k irq => with_kernel (F k irq)) lo hi (run_timer_irq m') (run_timer_irq m).
Proof. intros Hlo Hm. eapply sim_meq; [apply run_timer_irq_zoom..|]. by apply sim_ignore, sim_on_kernel. Qed.
Lemma sim_run_preempt {K K'} (F : Z -> bool -> K -> K') lo hi m' m : 0 <= lo ->
  sim F lo hi m' m -> sim (fun k irq => with_kernel (F k irq)) lo hi (run_preempt m') (run_preempt m).
Proof. intros Hlo Hm. eapply sim_meq; [apply run_preempt_zoom..|]. by apply sim_ignore, sim_on_kernel. Qed.

Section Drivers.
Context (device : list DeviceOp -> VirtualAddress -> Z) (register : list DeviceOp -> GicRegister -> Z).
Context {K K' : Type} (F : Z -> bool -> K -> K').
Abbreviation FI := (fun k irq => with_kernel (F k irq)).

Lemma sim_with_gic {A} (f' : Gic -> M (Irq K') A) (f : Gic -> M (Irq K) A) :
  (forall g, sim FI 0 0 (f' g) (f g)) -> sim FI 0 0 (with_gic f') (with_gic f).
Proof. intros Hf. unfold with_gic. sim_pure. apply Hf. Qed.
Lemma sim_acknowledge : sim FI 0 0 (acknowledge device register) (acknowledge device register).
Proof.
  apply sim_with_gic. intros [g|g]; unfold Gic_acknowledge, GicV2_acknowledge, GicV3_acknowledge, read32_at, register_at, expect,
    read32, read_register, log; sim_pure.
Qed.
Lemma sim_end_of_interrupt intid : sim FI 0 0 (end_of_interrupt intid) (end_of_interrupt intid).
Proof.
  apply sim_ignore; [lia|]. apply sim_with_gic. intros [g|g]; unfold Gic_end_of_interrupt, GicV2_end_of_interrupt,
    GicV3_end_of_interrupt, write32_at, register_at, expect, log; sim_pure.
Qed.

Lemma sim_arm64 hi (m' : M K' unit) m cause : 0 <= hi -> sim F 0 hi m' m ->
  sim FI 0 hi (arm64_handle_timer_interrupt device register m' cause) (arm64_handle_timer_interrupt device register m cause).
Proof.
  intros Hhi Hm. unfold arm64_handle_timer_interrupt. apply sim_step; [lia|apply sim_acknowledge|].
  assert (sim FI 0 hi (ret false) (ret false)) as Hret by (eapply sim_mono; [| |apply sim_ret]; lia).
  intros [intid|]; [|exact Hret]. destruct (is_gic_special_interrupt intid); [exact Hret|].
  destruct (intid =? TIMER_PPI).
  - apply sim_last; [lia|by apply sim_run_timer_irq|]. intros _.
    apply sim_step; [lia|apply sim_end_of_interrupt|]. intros _. apply sim_ret.
  - apply sim_step; [lia|apply sim_end_of_interrupt|]. intros _. exact Hret.
Qed.
Lemma sim_riscv hi (m' : M K' unit) m cause : 0 <= hi -> sim F 0 hi m' m ->
  sim FI 0 hi (riscv_handle_timer_interrupt m' cause) (riscv_handle_timer_interrupt m cause).
Proof.
  intros Hhi Hm. unfold riscv_handle_timer_interrupt.
  destruct (match cause with None => true | Some c => _ end); [|eapply sim_mono; [| |apply sim_ret]; lia].
  apply sim_last; [lia|by apply sim_run_timer_irq|]. intros _. apply sim_ret.
Qed.
End Drivers.

Definition Arm64Driver (device : list DeviceOp -> VirtualAddress -> Z) (register : list DeviceOp -> GicRegister -> Z) :
    InterruptDriver := {|
  driver_handle := fun K => arm64_handle_timer_interrupt device register;
  driver_sim := fun K K' => sim_arm64 device register |}.
Definition Riscv64Driver : InterruptDriver := {|
  driver_handle := fun K => riscv_handle_timer_interrupt;
  driver_sim := fun K K' => sim_riscv |}.

(** ** The scheduler, the clock and the interrupt driver under [SCHEDULER_LOCK] *)

Section Kernel.
Context {Ctx : Type} `{ContextOps Ctx} `{HalTimer} {Driver : InterruptDriver} (trampoline : Z) (fuel : nat).
Abbreviation Plain := (Irq (Clock (Scheduler Ctx))).
Abbreviation Locked := (Irq (Clock (Guarded (Scheduler Ctx)))).
Implicit Types (p : Plain) (x : Locked).

(** An interrupt through the fast entry while the counter reads [now]; without
    the lock this is [timer_interrupt] on the part of the kernel it touches. *)
Definition interrupt (now : Z) : M Plain unit :=
  handle_fast_interrupt (driver_handle (handle_timer_irq task_tick now)) preempt_from_trap.
Definition locked_interrupt (now : Z) : M Locked unit :=
  handle_fast_interrupt (driver_handle (handle_timer_irq (locked_tick fuel) now))
    (zoom clk_sched set_sched (locked_preempt_from_trap fuel)).

(** The calls that threads and the boot code make, and their results. *)
Inductive SchedCall :=
  | CallInit
  | CallInitWithIdleThread (stack : KernelStack) (entry arg : Z)
  | CallEnterIdle
  | CallMaybeReschedule
  | CallCurrent
  | CallKernelProcess
  | CallSpawn (process weight : Z) (stack : KernelStack) (entry arg : Z)
  | CallTraceLen.
Inductive Response :=
  | Initialised (r : Result unit InitError)
  | Entered (r : Result ContextPair ScheduleError)
  | Rescheduled (r : option Switch)
  | CurrentIs (r : option ThreadSnapshot)
  | ProcessIs (r : option Z)
  | Spawned (r : Result Z InitError)
  | TraceLen (r : Z).

Definition reply {S A} (f : A -> Response) (m : M S A) : M S Response := let! a := m in ret (f a).
Definition sched_call (c : SchedCall) : M (Scheduler Ctx) Response :=
  match c with
  | CallInit => reply Initialised init
  | CallInitWithIdleThread stack entry arg => reply Initialised (init_with_idle_thread trampoline stack entry arg)
  | CallEnterIdle => reply Entered enter_idle_contexts
  | CallMaybeReschedule => reply Rescheduled maybe_reschedule
  | CallCurrent => reply CurrentIs (gets current_snapshot)
  | CallKernelProcess => reply ProcessIs (gets kernel_process)
  | CallSpawn process weight stack entry arg => reply Spawned (spawn trampoline process weight stack entry arg)
  | CallTraceLen => reply TraceLen (gets trace_len)
  end.
Definition locked_sched_call (c : SchedCall) : M (Guarded (Scheduler Ctx)) Response :=
  match c with
  | CallInit => reply Initialised (locked_init fuel)
  | CallInitWithIdleThread stack entry arg => reply Initialised (locked_init_with_idle_thread fuel trampoline stack entry arg)
  | CallEnterIdle => reply Entered (locked_enter_idle fuel)
  | CallMaybeReschedule => reply Rescheduled (locked_maybe_reschedule fuel)
  | CallCurrent => reply CurrentIs (locked_current fuel)
  | CallKernelProcess => reply ProcessIs (locked_kernel_process fuel)
  | CallSpawn process weight stack entry arg => reply Spawned (locked_spawn fuel trampoline process weight stack entry arg)
  | CallTraceLen => reply TraceLen (locked_trace_len fuel)
  end.

Definition on_plain {A} (m : M (Scheduler Ctx) A) : M Plain A := zoom irq_kernel put_kernel (zoom clk_sched set_sched m).
Definition on_locked {A} (m : M (Guarded (Scheduler Ctx)) A) : M Locked A := zoom irq_kernel put_kernel (zoom clk_sched set_sched m).

(** A call or an interrupt, with its result. *)
Inductive Event := Called (c : SchedCall) | Interrupted (now : Z).
Definition run_event (e : Event) : M Plain (option Response) :=
  match e with
  | Called c => let! r := on_plain (sched_call c) in ret (Some r)
  | Interrupted now => interrupt now ;;; ret None
  end.
Definition locked_run_event (e : Event) : M Locked (option Response) :=
  match e with
  | Called c => let! r := on_locked (locked_sched_call c) in ret (Some r)
  | Interrupted now => locked_interrupt now ;;; ret None
  end.
Fixpoint run_events (es : list Event) : M Plain (list (option Response)) :=
  match es with
  | [] => ret []
  | e :: es => let! r := run_event e in let! rs := run_events es in ret (r :: rs)
  end.
Fixpoint locked_run_events (es : list Event) : M Locked (list (option Response)) :=
  match es with
  | [] => ret []
  | e :: es => let! r := locked_run_event e in let! rs := locked_run_events es in ret (r :: rs)
  end.

(** The kernel with the lock free after [k] acquisitions. *)
Definition locked_kernel (k : Z) (irq : bool) (p : Plain) : Locked := with_kernel (with_sched (guarded k irq)) p.

(** *** Simulation *)

Lemma sim_reply {A} (f : A -> Response) (m' : M (Guarded (Scheduler Ctx)) A) m lo hi :
  0 <= lo -> sim guarded lo hi m' m -> sim guarded lo hi (reply f m') (reply f m).
Proof. intros Hlo Hm. apply sim_last; [done|done|]. intros. apply sim_ret. Qed.
Lemma sim_sched_call c : sim guarded 1 1 (locked_sched_call c) (sched_call c).
Proof. destruct c; apply sim_reply, sim_with_guard; lia. Qed.

Lemma sim_zoom_kernel {K K' A : Type} (F : Z -> bool -> K -> K') lo hi (m' : M K' A) (m : M K A) :
  sim F lo hi m' m -> sim (fun k irq => with_kernel (F k irq)) lo hi (zoom irq_kernel put_kernel m') (zoom irq_kernel put_kernel m).
Proof.
  intros Hm k irq i Hk. unfold zoom. cbn [irq_kernel with_kernel].
  destruct (Hm k irq (irq_kernel i) Hk) as [[Hb ->]|Hr]; [by left|right].
  destruct (m (irq_kernel i)) as [[a t]|msg| |]; [|by rewrite Hr..].
  destruct Hr as (k' & H1 & H2 & ->). by exists k'.
Qed.

Lemma sim_handle_timer_irq now :
  sim (fun k irq => with_sched (guarded k irq)) 0 1 (handle_timer_irq (locked_tick fuel) now) (handle_timer_irq (task_tick (Ctx := Ctx)) now).
Proof.
  unfold handle_timer_irq.
  assert (forall A (a : A), sim (fun k irq => with_sched (@guarded (Scheduler Ctx) k irq)) 0 1 (ret a) (ret a)) as Hret
    by (intros; eapply sim_mono; [| |apply sim_ret]; lia).
  apply sim_step; [lia|by apply sim_gets|]. intros raw. destruct (TickInterval_try_from_ticks raw) as [interval|]; [|apply Hret].
  apply sim_step; [lia|by apply sim_gets|]. intros scheduled.
  apply sim_step; [lia|unfold advance_tick_state, sub_uint, add_uint, expect; cbv zeta; sim_pure|].
  intros [advance|]; [|apply Hret]. apply sim_step; [lia|by apply sim_modify|]. intros _.
  apply sim_last; [lia| |].
  - eapply sim_meq; [intros c; apply run_task_tick_zoom..|]. apply sim_ignore; [lia|]. apply sim_on_sched.
    eapply sim_mono; [| |apply sim_with_guard]; lia.
  - intros _. unfold program_deadline. apply sim_step; [lia|by apply sim_modify|]. intros _.
    destruct (hal_set_deadline _); sim_pure.
Qed.

Lemma sim_interrupt now : sim locked_kernel 1 2 (locked_interrupt now) (interrupt now).
Proof.
  unfold locked_interrupt, interrupt, handle_fast_interrupt. change 2 with (1 + 1).
  apply (sim_bind locked_kernel 0 1 1 1); [lia|lia|apply driver_sim; [lia|apply sim_handle_timer_irq]|].
  intros [|]; [|intros k irq s Hk; by right]. apply sim_run_preempt; [lia|]. apply sim_on_sched.
  apply sim_ignore; [lia|apply sim_with_guard].
Qed.

Lemma sim_event e : sim locked_kernel 1 2 (locked_run_event e) (run_event e).
Proof.
  destruct e as [c|now]; cbn [locked_run_event run_event].
  - eapply (sim_mono _ 1 1 1 2); [lia|lia|]. apply sim_last; [lia| |intros; apply sim_ret].
    apply sim_zoom_kernel, sim_on_sched, sim_sched_call.
  - apply sim_last; [lia|apply sim_interrupt|intros; apply sim_ret].
Qed.
Lemma sim_events es :
  sim locked_kernel (Z.of_nat (length es)) (2 * Z.of_nat (length es)) (locked_run_events es) (run_events es).
Proof.
  induction es as [|e es IH]; cbn [locked_run_events run_events length]; [apply sim_ret|].
  eapply (sim_mono _ (1 + (Z.of_nat (length es) + 0)) _ (2 + (2 * Z.of_nat (length es) + 0))); [lia|lia|].
  apply sim_bind; [lia|lia|apply sim_event|]. intros r. apply sim_bind; [lia|lia|exact IH|]. intros. apply sim_ret.
Qed.

(** ** One CPU, step by step

    A thread that calls the scheduler runs the steps of the guard: it masks
    interrupts, takes the lock, runs the method, releases the lock and restores
    the mask.  A timer interrupt arrives before any step, when interrupts are
    enabled; the exception entry masks them and the exception return enables them
    again.  Outside its calls the thread changes the mask as it likes. *)

Inductive CpuPc :=
  | Outside
  | Masked (irq_was_enabled : bool) (c : SchedCall)
  | Holding (irq_was_enabled : bool) (c : SchedCall)
  | Releasing (irq_was_enabled : bool)
  | Restoring (irq_was_enabled : bool).
(** [cpu_log]: the calls and interrupts so far, with their results. *)
Record Cpu := { cpu_kernel : Locked; cpu_pc : CpuPc; cpu_log : list (Event * option Response) }.
Abbreviation cpu x pc log := {| cpu_kernel := x; cpu_pc := pc; cpu_log := log |}.

Definition scheduler_lock x : SpinLock := g_lock (clk_sched (irq_kernel x)).
Definition set_mask (b : bool) : M Locked unit := on_locked (on_lock (modify (Sync.set_irq b))).

Inductive cpu_step : Cpu -> Cpu -> Prop :=
  | cpu_set_mask b x x' log :
      set_mask b x = Done (tt, x') -> cpu_step (cpu x Outside log) (cpu x' Outside log)
  | cpu_call c x x' log :
      set_mask false x = Done (tt, x') ->
      cpu_step (cpu x Outside log) (cpu x' (Masked (irq_enabled (scheduler_lock x)) c) log)
  | cpu_lock irq c x x' log :
      on_locked (on_lock (lock fuel)) x = Done (tt, x') ->
      cpu_step (cpu x (Masked irq c) log) (cpu x' (Holding irq c) log)
  | cpu_body irq c r x x' log :
      on_locked (on_value (sched_call c)) x = Done (r, x') ->
      cpu_step (cpu x (Holding irq c) log) (cpu x' (Releasing irq) (log ++ [(Called c, Some r)]))
  | cpu_unlock irq x x' log :
      on_locked (on_lock unlock) x = Done (tt, x') ->
      cpu_step (cpu x (Releasing irq) log) (cpu x' (Restoring irq) log)
  | cpu_restore irq x x' log :
      on_locked (on_lock (restore_interrupts irq)) x = Done (tt, x') ->
      cpu_step (cpu x (Restoring irq) log) (cpu x' Outside log)
  | cpu_interrupt now x x1 x2 x' pc log :
      irq_enabled (scheduler_lock x) = true ->
      set_mask false x = Done (tt, x1) -> locked_interrupt now x1 = Done (tt, x2) -> set_mask true x2 = Done (tt, x') ->
      cpu_step (cpu x pc log) (cpu x' pc (log ++ [(Interrupted now, None)])).

(** The kernel without its lock. *)
Definition plain (x : Locked) : Plain := with_kernel (with_sched g_value) x.
Definition holding_kernel (k : Z) (p : Plain) : Locked :=
  with_kernel (with_sched (fun v => {| g_lock := taken k false; g_value := v |})) p.

(** After the events of the log the plain kernel is in the state the locked one
    is in, and the lock and the mask are where the program counter says. *)
Definition cpu_at (k : Z) (p : Plain) (c : Cpu) : Prop :=
  match cpu_pc c with
  | Outside => exists irq, cpu_kernel c = locked_kernel k irq p
  | Masked _ _ | Restoring _ => cpu_kernel c = locked_kernel k false p
  | Holding _ _ => cpu_kernel c = holding_kernel k p
  | Releasing _ => exists j, k = j + 1 /\ cpu_kernel c = holding_kernel j p
  end.
Definition cpu_inv (p0 : Plain) (c : Cpu) : Prop := exists k p,
  0 <= k <= 2 * Z.of_nat (length (cpu_log c)) /\
  run_events (cpu_log c).*1 p0 = Done ((cpu_log c).*2, p) /\ (forall j, cpu_pc c = Releasing j -> 0 < k) /\ cpu_at k p c.

Lemma run_events_snoc es e rs r (p0 p p' : Plain) :
  run_events es p0 = Done (rs, p) -> run_event e p = Done (r, p') -> run_events (es ++ [e]) p0 = Done (rs ++ [r], p').
Proof.
  revert p0 rs. induction es as [|e1 es IH]; intros p0 rs; cbn [run_events app].
  - intros [= <- <-] Hr. unfold bind. by rewrite Hr.
  - intros (r1 & p1 & H1 & (rs1 & p2 & H2 & [= <- <-])%bind_Done)%bind_Done Hr. unfold bind at 1. rewrite H1.
    unfold bind. by rewrite (IH _ _ H2 Hr).
Qed.

Lemma on_locked_lock {A} (m : M SpinLock A) a l (f : Scheduler Ctx -> Guarded (Scheduler Ctx)) l0 p :
  (forall v, f v = {| g_lock := l0; g_value := v |}) -> m l0 = Done (a, l) ->
  on_locked (on_lock m) (with_kernel (with_sched f) p) =
  Done (a, with_kernel (with_sched (fun v => {| g_lock := l; g_value := v |})) p).
Proof.
  intros Hf Hm. unfold on_locked, on_lock, zoom. cbn [irq_kernel with_kernel clk_sched with_sched]. rewrite Hf.
  cbn [g_lock]. by rewrite Hm.
Qed.
Lemma set_mask_run b k irq p : set_mask b (locked_kernel k irq p) = Done (tt, locked_kernel k b p).
Proof. by apply (on_locked_lock _ _ _ _ (unlocked k irq)). Qed.
Lemma lock_kernel k p : 0 <= k < LAST -> on_locked (on_lock (lock fuel)) (locked_kernel k false p) = Done (tt, holding_kernel k p).
Proof. intros Hk. by apply (on_locked_lock _ _ _ _ (unlocked k false)), lock_run. Qed.
Lemma unlock_kernel k p : 0 <= k < LAST -> on_locked (on_lock unlock) (holding_kernel k p) = Done (tt, locked_kernel (k + 1) false p).
Proof. intros Hk. by apply (on_locked_lock _ _ _ _ (taken k false)), unlock_run. Qed.
Lemma restore_kernel k irq p :
  on_locked (on_lock (restore_interrupts irq)) (locked_kernel k false p) = Done (tt, locked_kernel k irq p).
Proof. apply (on_locked_lock _ _ _ _ (unlocked k false)); by destruct irq. Qed.
Lemma on_value_body {A} (m : M (Scheduler Ctx) A) k r x' p :
  on_locked (on_value m) (holding_kernel k p) = Done (r, x') ->
  exists p', on_plain m p = Done (r, p') /\ x' = holding_kernel k p'.
Proof.
  unfold on_locked, on_plain, on_value, zoom, holding_kernel. cbn [irq_kernel with_kernel clk_sched with_sched g_value].
  destruct (m _) as [[a v]| | |]; [|done..]. intros [= <- <-]. eexists. by split.
Qed.

Lemma cpu_step_inv p0 c c' :
  cpu_step c c' -> 2 * Z.of_nat (length (cpu_log c')) + 2 <= LAST -> cpu_inv p0 c -> cpu_inv p0 c'.
Proof.
  intros Hs. destruct Hs; intros Hb (k & p & Hk & Hrun & Hpos & Hat); unfold cpu_at in Hat; cbn [cpu_pc cpu_log cpu_kernel] in *.
  - destruct Hat as [irq ->]. rewrite set_mask_run in *. simplify_eq. exists k, p. unfold cpu_at. cbn [cpu_pc cpu_log cpu_kernel]. split_and!; [lia..|done|done|]. by exists b.
  - destruct Hat as [irq ->]. rewrite set_mask_run in *. simplify_eq. by exists k, p.
  - subst x. rewrite lock_kernel in * by lia.
    simplify_eq. by exists k, p.
  - subst x. destruct (on_value_body _ _ _ _ _ ltac:(eassumption)) as (p' & Hp & ->).
    exists (k + 1), p'. unfold cpu_at. cbn [cpu_pc cpu_log cpu_kernel]. rewrite length_app, !fmap_app in *. cbn [length] in *. split_and!; [lia..| |lia|by exists k].
    apply (run_events_snoc _ (Called c) _ (Some r) _ _ _ Hrun). cbn [run_event]. unfold bind. by rewrite Hp.
  - destruct Hat as (j & -> & ->). specialize (Hpos irq eq_refl).
    rewrite unlock_kernel in * by lia.
    simplify_eq. by exists (j + 1), p.
  - subst x. rewrite restore_kernel in *.
    simplify_eq. exists k, p. unfold cpu_at. cbn [cpu_pc cpu_log cpu_kernel]. split_and!; [lia..|done|done|]. by exists irq.
  - rewrite length_app in Hb. cbn [length] in Hb.
    assert (pc = Outside /\ x = locked_kernel k true p) as [-> ->].
    { destruct pc; destruct_and?; try (subst; done).
      - destruct Hat as [irq ->]. by destruct irq.
      - by destruct Hat as (j & _ & ->). }
    rewrite set_mask_run in *. simplify_eq.
    destruct (sim_interrupt now k false p ltac:(unfold LAST in *; lia)) as [[? _]|Hsim]; [lia|].
    destruct (interrupt now p) as [[[] p']| | |] eqn:Hp; [|congruence..]. destruct Hsim as (k' & Hk' & _ & Hx).
    assert (x2 = locked_kernel k' false p') as -> by congruence. rewrite set_mask_run in *. simplify_eq.
    exists k', p'. unfold cpu_at. cbn [cpu_pc cpu_log cpu_kernel]. rewrite length_app, !fmap_app. cbn [length]. split_and!; [lia..| |done|by exists true].
    apply (run_events_snoc _ (Interrupted now) _ None _ _ _ Hrun). cbn [run_event]. unfold bind. by rewrite Hp.
Qed.
Lemma cpu_log_grows c c' : cpu_step c c' -> (length (cpu_log c) <= length (cpu_log c'))%nat.
Proof. destruct 1; cbn; rewrite ?length_app; lia. Qed.
Lemma cpu_steps_inv p0 irq c :
  rtc cpu_step (cpu (locked_kernel 0 irq p0) Outside []) c -> 2 * Z.of_nat (length (cpu_log c)) + 2 <= LAST -> cpu_inv p0 c.
Proof.
  intros Hr. pattern c. eapply rtc_ind_r; [| |exact Hr].
  - intros _. exists 0, p0. cbn. split_and!; [lia..|done|done|]. by exists irq.
  - intros c1 c2 _ Hs IH Hb. eapply cpu_step_inv; [exact Hs|done|]. apply IH. pose proof (cpu_log_grows _ _ Hs). lia.
Qed.
End Kernel.
