(* ===== verification/StartupLemmas.v ===== *)
(** * Boot: rules

    What the boot code relies on in an architecture ([HalLaws]), rules for
    computations on parts of the kernel, and the invariant that the heap, the
    kernel stacks and the page tables keep together over one page allocator. *)

From S2P Require Import Prelude Address HwInfo Pmm PmmReserved PmmFreeList PmmAlloc PmmInit PmmClients PmmTheorems.
From S2P Require Import HwInfoTheorems Clock Trap Context KernelStack PageMapper.
From S2P Require Import Kmalloc KmallocLemmas KmallocPool KmallocOps KmallocHeap KmallocUsers KmallocTheorems.
From S2P Require Import Task TaskInv TaskTheorems Console Gic Startup.
From stdpp Require Import base tactics option list list_numbers numbers gmap strings.

#[local] Open Scope Z_scope.
#[local] Open Scope kernel_scope.

(** ** Rules *)

Lemma wp_zoom {S T A} (get : S -> T) (put : T -> S -> S) (m : M T A) Q s :
  wp m (fun a t => Q a (put t s)) (get s) -> wp (zoom get put m) Q s.
Proof. unfold wp, zoom. by destruct (m (get s)) as [[a t]| | |]. Qed.
Lemma wp_lift_outcome {S A} (o : outcome A) a Q (s : S) : o = Done a -> Q a s -> wp (lift_outcome o) Q s.
Proof. by intros ->. Qed.

(** A computation has one result, so what holds of it for every [i] holds at once. *)
Lemma wp_all {S A I} `{Inhabited I} (m : M S A) (P : I -> A -> S -> Prop) s :
  (forall i, wp m (P i) s) -> wp m (fun a s' => forall i, P i a s') s.
Proof. unfold wp. intros Hall. destruct (m s) as [[a s']| | |]; [exact Hall|exact (Hall inhabitant)..]. Qed.

#[export] Instance HardwareInfo_inhabited : Inhabited HardwareInfo := populate (HardwareInfo_empty 0).

(** ** What the page allocator's counters hold *)

(** [m] keeps [P], when it ends. *)
Definition keeps {S A} (P : S -> Prop) (m : M S A) : Prop :=
  forall s, P s -> match m s with Done (_, s') => P s' | _ => True end.

Section Keeps.
Context {S : Type} (P : S -> Prop).

Lemma keeps_ret {A} (a : A) : keeps P (ret a).
Proof. by intros s. Qed.
Lemma keeps_panic {A} msg : keeps (A:=A) P (panic msg).
Proof. by intros s. Qed.
Lemma keeps_bind {A B} (m : M S A) (f : A -> M S B) : keeps P m -> (forall a, keeps P (f a)) -> keeps P (bind m f).
Proof.
  intros Hm Hf s Hs. unfold bind. specialize (Hm s Hs). destruct (m s) as [[a s1]| | |]; [|done..]. by apply Hf.
Qed.
Lemma keeps_gets {A} (f : S -> A) : keeps P (gets f).
Proof. by intros s. Qed.
Lemma keeps_modify f : (forall s, P s -> P (f s)) -> keeps P (modify f).
Proof. intros Hf s. apply Hf. Qed.
Lemma keeps_for_each {A} (l : list A) (f : A -> M S unit) : (forall a, keeps P (f a)) -> keeps P (for_each l f).
Proof. intros Hf. induction l as [|a l IH]; [apply keeps_ret|]. apply keeps_bind; [apply Hf|done]. Qed.
Lemma keeps_for_loop {A B R} (l : list A) (b : B) (f : A -> B -> M S (ctl B R)) :
  (forall a b, keeps P (f a b)) -> keeps P (for_loop l b f).
Proof.
  intros Hf. revert b. induction l as [|a l IH]; intros b; [apply keeps_ret|].
  cbn [for_loop]. apply keeps_bind; [apply Hf|]. intros [b'|r]; [apply IH|apply keeps_ret].
Qed.
End Keeps.

(** The counters that [startup::log::pmm] prints are machine words. *)
Definition counted (s : Pmm) : Prop := is_uint 64 (total_pages s) /\ is_uint 64 (arena_count s).

Section Counted.
Context `{PageLayout}.

Lemma counted_expect {A} msg (o : option A) : keeps counted (expect msg o).
Proof. destruct o; intros s Hs; [exact Hs|done]. Qed.
Lemma counted_load slot : keeps counted (load_page slot).
Proof. intros s Hs. unfold load_page. by destruct (metadata s !! slot). Qed.
Lemma counted_same f : (forall s, total_pages (f s) = total_pages s /\ arena_count (f s) = arena_count s) -> keeps counted (modify f).
Proof. intros Hf. apply keeps_modify. intros s [Ht Ha]. destruct (Hf s) as [E1 E2]. unfold counted. by rewrite E1, E2. Qed.
(** The two places where the counters change. *)
Lemma counted_total total mpages (r : Result (option Arena) Pmm.InitError) :
  keeps counted (let! usable := sub_uint total mpages in
                 let! n := gets total_pages in
                 let? n := checked_add 64 n usable ok_or ArithmeticOverflow in
                 modify (set_total_pages n) ;;; ret r).
Proof.
  intros s Hs. pose proof Hs as [[Ht _] Ha]. unfold bind, sub_uint, gets.
  destruct (checked_sub total mpages) as [usable|] eqn:Hsub; [|done]. apply checked_sub_Some in Hsub as [Hsub ?].
  cbn. unfold checked_add. destruct (Z.ltb_spec (total_pages s + usable) (2 ^ 64)); [|exact Hs].
  unfold counted, is_uint in *. cbn. lia.
Qed.
Lemma counted_arenas arena :
  keeps counted (let! count := gets arena_count in
                 let! l := gets Pmm.arenas in
                 let! l := array_set l count arena in
                 let! count := add_uint 64 count 1 in
                 modify (set_arenas l count) ;;; ret (Continue tt : ctl unit (option Pmm.InitError))).
Proof.
  intros s [Ht [Ha _]]. unfold bind, gets, array_set. destruct (arena_count s <? _); [|done]. cbn.
  unfold add_uint, expect, checked_add. destruct (Z.ltb_spec (arena_count s + 1) (2 ^ 64)); [|done].
  unfold counted, is_uint in *. cbn. lia.
Qed.

Ltac counted_step :=
  lazymatch goal with
  | |- keeps _ (bind (sub_uint _ _) (fun _ => bind (gets total_pages) _)) => apply counted_total
  | |- keeps _ (bind (gets arena_count) (fun _ => bind (gets Pmm.arenas) (fun _ => bind (array_set _ _ _) _))) => apply counted_arenas
  | |- keeps _ (bind _ _) => apply keeps_bind; [|intros ?]
  | |- keeps _ (ret _) => apply keeps_ret
  | |- keeps _ (panic _) => apply keeps_panic
  | |- keeps _ (gets _) => apply keeps_gets
  | |- keeps _ (modify _) => apply counted_same; done
  | |- keeps _ (expect _ _) => apply counted_expect
  | |- keeps _ (add_uint _ _ _) => apply counted_expect
  | |- keeps _ (sub_uint _ _) => apply counted_expect
  | |- keeps _ (mul_uint _ _ _) => apply counted_expect
  | |- keeps _ (load_page _) => apply counted_load
  | |- keeps _ (for_each _ _) => apply keeps_for_each; intros ?
  | |- keeps _ (for_loop _ _ _) => apply keeps_for_loop; intros ? ?
  | |- keeps _ (match ?x with _ => _ end) => destruct x
  | |- keeps _ out_of_fuel => by intros ?
  end.
Ltac counted_tac := repeat (cbn beta zeta; counted_step).

Lemma counted_remove i : keeps counted (remove_reserved i).
Proof. unfold remove_reserved, array_set, array_get. counted_tac. Qed.
Lemma counted_record_loop fuel : forall i r, keeps counted (record_reserved_loop fuel i r).
Proof.
  induction fuel as [|fuel IH]; intros i r; cbn [record_reserved_loop]; unfold array_get; counted_tac;
    solve [apply IH | apply counted_remove].
Qed.
Lemma counted_record a b : keeps counted (record_reserved a b).
Proof. unfold record_reserved, array_set. counted_tac. apply counted_record_loop. Qed.
Lemma counted_find_loop fuel : forall e b c, keeps counted (find_metadata_loop fuel e b c).
Proof. induction fuel as [|fuel IH]; intros e b c; cbn [find_metadata_loop]; counted_tac. apply IH. Qed.
Lemma counted_arena r i p2v : keeps counted (init_arena r i p2v).
Proof.
  unfold init_arena, find_metadata_range, write_page.
  counted_tac; solve [apply counted_find_loop | apply counted_record].
Qed.
Lemma counted_mark : keeps counted mark_reserved_ranges.
Proof. unfold mark_reserved_ranges, mark_range, mark_arena, mark_page, array_get, update_page, write_page. counted_tac. Qed.
Lemma counted_build : keeps counted build_free_list.
Proof. unfold build_free_list, build_arena, build_page, push_free, array_get, update_page, write_page. counted_tac. Qed.

(** [pmm::init] leaves machine words in its counters. *)
Lemma init_counted info ks ke p2v s r s' : Pmm.init info ks ke p2v s = Done (r, s') -> counted s'.
Proof.
  intros Hrun. unfold Pmm.init in Hrun. apply bind_Done in Hrun as ([] & s1 & [= <-] & Hrun).
  match type of Hrun with ?m ?x = _ => assert (keeps counted m) as Hk; [|assert (counted x) as Hx by (by split; split)] end.
  { unfold reserve_kernel, reserve_device_tree, reserve_firmware_regions, init_arenas, add_region.
    counted_tac; solve [apply counted_record | apply counted_arena | apply counted_mark | apply counted_build]. }
  specialize (Hk _ Hx). by rewrite Hrun in Hk.
Qed.
End Counted.

(** ** What an architecture promises *)

(** When the page allocator has started on the machine [info], the tables [m]
    can map kernel stacks, and none is mapped. *)
Definition tables_ready {Mmu Con Ctx} `{Hal Mmu Con Ctx} `{PageLayout} (info : HardwareInfo) (ke : PhysicalAddress)
    (m : Mmu) : Prop := forall s s0,
  Pmm.init info hal_KERNEL_PHYSICAL_LOAD ke hal_physical_to_virtual s = Done (Ok tt, s0) ->
  exists PM : PageMapper s0 hal_map_kernel_stack_page hal_unmap_kernel_stack_page,
    stack_region s0 _ _ hal_kernel_stack_region_base /\
    pm_ok {| w_pmm := s0; w_next_slot := 0; w_mmu := m |} [] /\
    forall va, hal_kernel_stack_region_base <= va < hal_kernel_stack_region_base + KERNEL_STACK_REGION_SIZE ->
      pm_space m va = None.

(** The CPU finds the megabyte from the device tree on at its physmap address. *)
Definition maps_dtb {Mmu Con Ctx} `{Hal Mmu Con Ctx} (dtb : PhysicalAddress) (m : Mmu) : Prop :=
  dtb <> 0 -> forall pa, dtb <= pa < dtb + DEVICE_TREE_BLOB_MAX_SIZE -> hal_walk m (hal_physical_to_virtual pa) = Some pa.

(** [hl_base] is where the physmap starts and [hl_limit] the end of the memory
    it can cover.  [hl_reset], [hl_image] and [hl_controller] are what the
    architecture expects of the page tables at reset, of the kernel image and of
    the interrupt hardware; [hl_irq] says that the interrupt controller is up. *)
Class HalLaws (Mmu Con Ctx : Type) `{Hal Mmu Con Ctx} `{PageLayout} := {
  hl_console :: ConsoleLaws Con;
  hl_base : VirtualAddress;
  hl_limit : Z;
  hl_linear : 0 < hl_base /\ hl_base mod PAGE_SIZE = 0 /\ 0 <= hl_limit /\ hl_base + hl_limit <= 2 ^ 64;
  hl_p2v pa : hal_physical_to_virtual pa = wrapping_add 64 pa hl_base;
  hl_v2p va : hal_virtual_to_physical va = wrapping_sub 64 va hl_base;
  hl_load : is_usize hal_KERNEL_PHYSICAL_LOAD;
  hl_reset : Mmu -> Prop;
  hl_image : PhysicalAddress -> Prop;
  hl_mmu dtb ke m0 :
    hl_reset m0 -> hl_image ke -> 0 <= dtb -> dtb + DEVICE_TREE_BLOB_MAX_SIZE <= hl_limit ->
    wp (hal_mmu_init dtb) (fun _ m1 => maps_dtb dtb m1 /\ forall info, boot_ok info hal_KERNEL_PHYSICAL_LOAD ke ->
      (forall r, r ∈ memory_regions info -> region_base r + region_size r <= hl_limit) ->
      wp (hal_expand_physmap (max_memory_end info)) (fun _ m2 =>
        wp hal_remove_identity_mapping (fun _ m3 => tables_ready info ke m3) m2) m1) m0;
  hl_post c : console_ready c ->
    wp hal_console_post_mmu_init (fun _ c' => console_ready c' /\ console_sent c' = console_sent c) c;
  hl_controller : option InterruptControllerInfo -> Prop;
  hl_irq : Irq (Clock (Scheduler Ctx)) -> Prop;
  hl_interrupt_init info s : hl_controller (interrupt_controller (features info)) ->
    wp (hal_interrupt_init info) (fun _ s' => hl_irq s' /\ irq_kernel s' = irq_kernel s) s;
  hl_timer_enable s : hl_irq s ->
    wp hal_timer_enable (fun r s' => r = Ok tt /\ hl_irq s' /\ irq_kernel s' = irq_kernel s) s;
  hl_timer_interrupt handler s k : hl_irq s -> handler (irq_kernel s) = Done (tt, k) ->
    wp (hal_handle_timer_interrupt handler None) (fun handled s' =>
      handled = true /\ hl_irq s' /\ irq_kernel s' = k) s;
  hl_irq_kernel s k : hl_irq s -> hl_irq {| gic_ready := gic_ready s; gic_slot := gic_slot s;
    gic_ops := gic_ops s; irq_kernel := k |};
  hl_deadline d : hal_set_deadline d = Ok tt;
}.

(** ** One page allocator for heap, stacks and tables *)

(** A page that the heap holds, seen by the code that does not know it. *)
Definition conceal (o : holding) : holding :=
  match o with HoldLeaked h _ => HoldPage h | o => o end.

Section Share.
Context `{PageLayout} (s0 : Pmm).

Lemma conceal_held os : all_held (conceal <$> os) = all_held os.
Proof. unfold all_held. induction os as [|o os IH]; [done|]. cbn. rewrite IH. by destruct o. Qed.
Lemma conceal_heads os : held_heads (conceal <$> os) = held_heads os.
Proof. unfold held_heads. induction os as [|o os IH]; [done|]. cbn. rewrite IH. by destruct o. Qed.

Lemma client_inv_same s os os' l :
  all_held os' = all_held os -> held_heads os' = held_heads os -> Forall (holding_wf s) os' ->
  client_inv s0 s os l -> client_inv s0 s os' l.
Proof. intros Ha Hb Hwf [Hi Hinv Hnd Hq Hh Hst Hhd _ Hfr]. split; rewrite ?Ha, ?Hb; done. Qed.

Lemma conceal_client s os1 os2 l : client_inv s0 s (os1 ++ os2) l -> client_inv s0 s ((conceal <$> os1) ++ os2) l.
Proof.
  intros Hci. eapply client_inv_same; [| | |exact Hci].
  - by rewrite !all_held_app, conceal_held.
  - by rewrite !held_heads_app, conceal_heads.
  - apply Forall_app. pose proof (ci_wf _ _ _ _ Hci) as [H1 H2]%Forall_app. split; [|done].
    apply Forall_fmap. eapply Forall_impl; [exact H1|]. by intros [].
Qed.
(** The heap's holdings stay well formed while the rest of the kernel works. *)
Lemma reveal_client s s' os1 os2 os2' l l' :
  client_inv s0 s (os1 ++ os2) l -> client_inv s0 s' ((conceal <$> os1) ++ os2') l' ->
  client_inv s0 s' (os1 ++ os2') l'.
Proof.
  intros Hci Hci'. eapply client_inv_same; [| | |exact Hci'].
  - by rewrite !all_held_app, conceal_held.
  - by rewrite !held_heads_app, conceal_heads.
  - apply Forall_app. pose proof (ci_wf _ _ _ _ Hci) as [H1 _]%Forall_app.
    pose proof (ci_wf _ _ _ _ Hci') as [_ H2]%Forall_app. split; [|done].
    eapply Forall_impl; [exact H1|]. intros [h|run|h phys]; cbn; [done|done|].
    rewrite (frame_physical_of s0 s'), (frame_physical_of s0 s) by (apply Hci || apply Hci'). done.
Qed.

Lemma conceal_leaked os1 os2 h phys : HoldLeaked h phys ∈ (conceal <$> os1) ++ os2 -> HoldLeaked h phys ∈ os2.
Proof.
  intros [(o & Ho & _)%list_elem_of_fmap|Ho]%elem_of_app; [|done]. by destruct o.
Qed.
End Share.
