(* ===== verification/KernelMemory.v ===== *)
(** * The kernel's memory

    One page allocator serves the heap, the kernel stacks and the page tables.
    The invariant they keep together, and that the calls of each part keep it:
    the heap's pages, the pages of the stacks and the pages of the tables stay
    apart. *)

From S2P Require Import Prelude Address HwInfo Pmm PmmReserved PmmFreeList PmmAlloc PmmInit PmmClients PmmTheorems.
From S2P Require Import KernelStack PageMapper.
From S2P Require Import Kmalloc KmallocLemmas KmallocPool KmallocOps KmallocHeap KmallocUsers KmallocTheorems StartupLemmas.
From stdpp Require Import base tactics option list list_numbers numbers gmap strings.

#[local] Open Scope Z_scope.
#[local] Open Scope kernel_scope.

Section Memory.
Context `{PageLayout} `{FunctionAddresses} (s0 : Pmm) {Mmu : Type}.
Context {map_page : VirtualAddress -> PhysicalAddress -> M (World Mmu) (Result unit MapError)}.
Context {unmap_page : VirtualAddress -> M (World Mmu) (Result PhysicalAddress UnmapError)}.
Context (PM : PageMapper s0 map_page unmap_page).
Context (base : VirtualAddress) (Hregion : stack_region s0 map_page unmap_page base).
Context (mp : Mappers) (Hmp : mappers_ok s0 mp) (A0 : kspace).
Implicit Types (h : Heap) (w : World Mmu) (ks : list KernelStack).

Definition stack_runs ks : list holding := (fun k => HoldRun (stack_pages k)) <$> ks.

(** The heap with the allocations its users own, and the page tables with the
    stacks in use, over the same page allocator. *)
Record memory_inv h w (allocs : list KernelAllocation) ks : Prop := {
  mv_pmm : w_pmm w = m_pmm (heap_mem h);
  mv_shared : exists leaks l S P L rest,
    heap_inv s0 mp (stack_runs ks ++ rest) h leaks l S P L /\ users_ok allocs L /\
    pm_ok w ((conceal <$> leaks) ++ stack_runs ks ++ rest);
  mv_stacks : stacks_inv s0 map_page unmap_page base A0 w ks;
}.

Definition with_pmm (s : Pmm) w : World Mmu := {| w_pmm := s; w_next_slot := w_next_slot w; w_mmu := w_mmu w |}.

Lemma stacks_frame w w' ks rest :
  stacks_inv s0 map_page unmap_page base A0 w ks -> pm_ok w' (stack_runs ks ++ rest) ->
  w_next_slot w' = w_next_slot w -> w_mmu w' = w_mmu w -> stacks_inv s0 map_page unmap_page base A0 w' ks.
Proof. intros [_ Hn Hl Hv Hr] Hok En Em. split; rewrite ?En, ?Em; try done. by exists rest. Qed.

Lemma heap_inv_pmm os os' h leaks l l' S P L s :
  heap_inv s0 mp os h leaks l S P L -> client_inv s0 s (leaks ++ os') l' ->
  heap_inv s0 mp os' (on_pmm s h) leaks l' S P L.
Proof.
  intros [_ Hm Hi Hp Hsp Hck Hap Hpg Hn Hh] Hci. split; cbn; try done.
  intros c. eapply pool_inv_frame; [apply Hp|]. done.
Qed.

(** ** The heap *)

(** What the heap does keeps the stacks and the tables. *)
Lemma memory_heap h w allocs ks :
  memory_inv h w allocs ks -> exists os,
    users_inv s0 mp {| u_heap := h; u_allocs := allocs; u_pages := os |} /\
    forall h' allocs', users_inv s0 mp {| u_heap := h'; u_allocs := allocs'; u_pages := os |} ->
      memory_inv h' (with_pmm (m_pmm (heap_mem h')) w) allocs' ks.
Proof.
  intros [Hw (leaks & l & S & P & L & rest & Hinv & Hok & Hpm) Hst]. exists (stack_runs ks ++ rest).
  split; [by exists leaks, l, S, P, L|]. intros h' allocs' (leaks' & l' & S' & P' & L' & Hinv' & Hok'). cbn in Hinv', Hok'.
  assert (pm_ok (with_pmm (m_pmm (heap_mem h')) w) ((conceal <$> leaks') ++ stack_runs ks ++ rest)) as Hpm'.
  { eapply pm_frame; [exact Hpm|eapply conceal_client, Hinv'|]. intros ph phys Hin%conceal_leaked. apply elem_of_app. by right. }
  split; [done| |].
  - by exists leaks', l', S', P', L', rest.
  - eapply (stacks_frame w _ ks ((conceal <$> leaks') ++ rest)); [exact Hst| |done|done].
    eapply pm_ok_perm; [|exact Hpm']. solve_Permutation.
Qed.

Lemma memory_alloc h w allocs ks size alignment :
  memory_inv h w allocs ks -> 0 <= size ->
  wp (heap_alloc size alignment) (fun r h' => memory_inv h' (with_pmm (m_pmm (heap_mem h')) w)
    (match r with Ok a => a :: allocs | Err _ => allocs end) ks) h.
Proof.
  intros Hm Hs. destruct (memory_heap _ _ _ _ Hm) as (os & Hu & Hback).
  eapply wp_mono; [exact (users_alloc s0 mp Hmp h allocs os size alignment Hu Hs)|].
  intros [a|e] h' Hr; apply Hback; [apply Hr|]. assert (h' = h) as -> by (destruct e; tauto). exact Hu.
Qed.

Lemma memory_free h w allocs1 a allocs2 ks :
  memory_inv h w (allocs1 ++ a :: allocs2) ks ->
  wp (KernelAllocation_drop a) (fun _ h' => memory_inv h' (with_pmm (m_pmm (heap_mem h')) w) (allocs1 ++ allocs2) ks) h.
Proof.
  intros Hm. destruct (memory_heap _ _ _ _ Hm) as (os & Hu & Hback). unfold KernelAllocation_drop. apply wp_bind.
  eapply wp_mono; [exact (users_free s0 mp Hmp h allocs1 a allocs2 os Hu)|].
  intros r h' (_ & _ & Hu'). apply wp_ret. by apply Hback.
Qed.

Lemma memory_probe h w allocs ks :
  memory_inv h w allocs ks ->
  wp boot_probe (fun _ h' => memory_inv h' (with_pmm (m_pmm (heap_mem h')) w) allocs ks) h.
Proof.
  intros Hm. unfold boot_probe. apply wp_bind. eapply wp_mono; [apply (memory_alloc h w allocs ks _ None Hm); done|].
  intros [a|e] h' Hm'; [|by apply wp_ret]. apply wp_bind.
  eapply wp_mono; [exact (memory_free _ _ [] a allocs ks Hm')|]. intros [] h2 Hm2. apply wp_ret. exact Hm2.
Qed.

(** ** Stacks *)

(** What the stacks and the tables do keeps the heap. *)
Lemma memory_world h w w' allocs ks' leaks l S P L os rest' :
  heap_inv s0 mp os h leaks l S P L -> users_ok allocs L -> client_inv s0 (w_pmm w) (leaks ++ os) l ->
  pm_ok w' ((conceal <$> leaks) ++ stack_runs ks' ++ rest') -> stacks_inv s0 map_page unmap_page base A0 w' ks' ->
  memory_inv (on_pmm (w_pmm w') h) w' allocs ks'.
Proof.
  intros Hinv Hok Hci Hpm Hst. destruct (pm_client _ _ Hpm) as [l' Hci'].
  split; [done| |done]. exists leaks, l', S, P, L, rest'. split_and!; [|done|done].
  eapply heap_inv_pmm; [exact Hinv|]. eapply reveal_client; [exact Hci|exact Hci'].
Qed.

Lemma memory_create h w allocs ks :
  memory_inv h w allocs ks -> w_next_slot w + 1 < 2 ^ 64 ->
  wp (create_mapped base map_page unmap_page) (fun r w' =>
    w_next_slot w' = w_next_slot w + 1 /\
    memory_inv (on_pmm (w_pmm w') h) w' allocs (match r with Ok k => k :: ks | Err _ => ks end)) w.
Proof.
  intros [Hw (leaks & l & S & P & L & rest & Hinv & Hok & Hpm) Hst] Hn. pose proof (si_next _ _ _ _ _ _ _ Hst) as Hn0.
  pose proof (hv_client _ _ _ _ _ _ _ _ _ Hinv) as Hci. rewrite <-Hw in Hci.
  destruct (proj1 (wp_unfold _ _ _) (create_mapped_spec s0 map_page unmap_page base Hregion w _ Hpm Hn0))
    as (r & w' & Hrun & os' & Hpm' & Hn' & Hr). eapply wp_run; [exact Hrun|].
  split; [rewrite Hn'; unfold wrapping_add; apply Z.mod_small; lia|]. destruct r as [k|e].
  - destruct Hr as (_ & _ & _ & _ & _ & (extra & -> & _) & _).
    eapply (memory_world h w w' allocs (k :: ks) leaks l S P L _ (extra ++ rest)); [exact Hinv|exact Hok|exact Hci| |].
    + eapply pm_ok_perm; [|exact Hpm']. change (stack_runs (k :: ks)) with (HoldRun (stack_pages k) :: stack_runs ks). solve_Permutation.
    + by eapply create_inv.
  - destruct Hr as ((extra & -> & _) & _).
    eapply (memory_world h w w' allocs ks leaks l S P L _ (extra ++ rest)); [exact Hinv|exact Hok|exact Hci| |].
    + eapply pm_ok_perm; [|exact Hpm']. solve_Permutation.
    + by eapply stack_refused_inv.
Qed.

Lemma memory_drop h w allocs ks1 k ks2 :
  memory_inv h w allocs (ks1 ++ k :: ks2) ->
  wp (KernelStack_drop unmap_page k) (fun _ w' => w_next_slot w' = w_next_slot w /\
    memory_inv (on_pmm (w_pmm w') h) w' allocs (ks1 ++ ks2)) w.
Proof.
  intros [Hw (leaks & l & S & P & L & rest & Hinv & Hok & Hpm) Hst].
  pose proof (hv_client _ _ _ _ _ _ _ _ _ Hinv) as Hci. rewrite <-Hw in Hci.
  eapply wp_mono; [apply (drop_rest s0 map_page unmap_page base Hregion A0 w ks1 k ks2 ((conceal <$> leaks) ++ rest) Hst)|].
  - eapply pm_ok_perm; [|exact Hpm]. unfold stack_runs. solve_Permutation.
  - intros [] w' (Hn' & Hst' & Hpm'). split; [done|].
    eapply (memory_world h w w' allocs (ks1 ++ ks2) leaks l S P L _ rest); [exact Hinv|exact Hok|exact Hci| |exact Hst'].
    eapply pm_ok_perm; [|exact Hpm']. unfold stack_runs. solve_Permutation.
Qed.

(** ** Who uses a physical byte *)

(** A byte of a block is in a page of the heap. *)
Lemma block_page os h leaks l S P L allocs a x :
  heap_inv s0 mp os h leaks l S P L -> users_ok allocs L -> a ∈ allocs ->
  allocation_ptr a <= x < allocation_ptr a + block_size a ->
  exists ph phys off, HoldLeaked ph phys ∈ leaks /\ 0 <= off < PAGE_SIZE /\ x = map_physical_to_virtual mp phys + off.
Proof.
  intros Hinv Hok Ha Hx. destruct (uo_size _ _ Hok a Ha) as [_ [c Hc]]. unfold block_size in Hx. rewrite Hc in Hx.
  assert (allocation_ptr a ∈ L c) as Hl by (apply (uo_live _ _ Hok); by exists a).
  destruct (live_slot_of s0 mp os h leaks l S P L Hinv c _ Hl) as (page & b & i & Hb & Hi & _ & Heq & Hpg & _).
  destruct (object_bounds c page i Hpg Hi) as (Hlo & Hhi & _). rewrite Heq in Hx.
  destruct (hv_pages _ _ _ _ _ _ _ _ _ Hinv c page) as (ph & phys & Hin & ->); [by eexists|].
  exists ph, phys, (x - map_physical_to_virtual mp phys). split_and!; [done|lia|lia|lia].
Qed.

(** The page of a byte that a client holds. *)
Lemma held_byte s os l ph phys p :
  client_inv s0 s os l -> ph ∈ all_held os -> physical_of s0 ph = Some phys -> phys <= p < phys + PAGE_SIZE ->
  page_byte s ph p /\ phys = p - p mod PAGE_SIZE.
Proof.
  intros Hci Hh Hp Hb. pose proof (pi_layout _ _ (pi_core _ _ (ci_inv _ _ _ _ Hci))) as Hwf.
  pose proof (Forall_elem _ _ _ (ci_held _ _ _ _ Hci) Hh) as Hv.
  rewrite <-(frame_physical_of s0 s) in Hp by apply Hci.
  pose proof (physical_of_aligned s ph phys Hwf Hv Hp) as Hal. destruct (physical_of_valid s ph Hwf Hv) as (a & Ha & Hpa).
  rewrite Hp in Hpa. injection Hpa as ->. unfold PAGE_SIZE in *. split; [|divlia].
  exists a. split; [done|]. unfold PAGE_SIZE. lia.
Qed.
Lemma held_same s os l ph1 ph2 phys :
  client_inv s0 s os l -> ph1 ∈ all_held os -> ph2 ∈ all_held os ->
  physical_of s0 ph1 = Some phys -> physical_of s0 ph2 = Some phys -> ph1 = ph2.
Proof.
  intros Hci H1 H2 P1 P2. pose proof (pi_layout _ _ (pi_core _ _ (ci_inv _ _ _ _ Hci))) as Hwf.
  rewrite <-(frame_physical_of s0 s) in P1, P2 by apply Hci.
  apply (physical_of_inj s ph1 ph2 phys Hwf); [apply (Forall_elem _ _ _ (ci_held _ _ _ _ Hci) H1)|
    apply (Forall_elem _ _ _ (ci_held _ _ _ _ Hci) H2)|done|done].
Qed.

(** A byte of a block, or of a page of a stack's run. *)
Definition heap_byte (v2p : VirtualAddress -> PhysicalAddress) (allocs : list KernelAllocation) (p : PhysicalAddress) : Prop :=
  exists a x, a ∈ allocs /\ allocation_ptr a <= x < allocation_ptr a + block_size a /\ p = v2p x.
Definition stack_byte (s : Pmm) ks (p : PhysicalAddress) : Prop :=
  exists stack i pa, stack ∈ ks /\ 0 <= i < run_count (stack_pages stack) /\
    PageRun_physical_address (stack_pages stack) i s = Done (Some pa, s) /\ pa <= p < pa + PAGE_SIZE.

Lemma memory_apart h w allocs ks p :
  memory_inv h w allocs ks ->
  (forall phys off, managed s0 phys -> 0 <= off < PAGE_SIZE ->
    map_virtual_to_physical mp (map_physical_to_virtual mp phys + off) = phys + off) ->
  (heap_byte (map_virtual_to_physical mp) allocs p \/ stack_byte (w_pmm w) ks p -> exists os l ph,
    client_inv s0 (w_pmm w) os l /\ ph ∈ all_held os /\ page_byte (w_pmm w) ph p) /\
  ~ (heap_byte (map_virtual_to_physical mp) allocs p /\ stack_byte (w_pmm w) ks p).
Proof.
  intros [Hw (leaks & l & S & P & L & rest & Hinv & Hok & Hpm) Hst] Hlin.
  pose proof (hv_client _ _ _ _ _ _ _ _ _ Hinv) as Hci. rewrite <-Hw in Hci.
  set (os := leaks ++ stack_runs ks ++ rest) in *. 
  assert (heap_byte (map_virtual_to_physical mp) allocs p -> exists ph phys, ph ∈ all_held leaks /\
    physical_of s0 ph = Some phys /\ phys <= p < phys + PAGE_SIZE) as Hheap.
  { intros (a & x & Ha & Hx & ->). destruct (block_page _ _ _ _ _ _ _ _ a x Hinv Hok Ha Hx) as (ph & phys & off & Hin & Hoff & ->).
    pose proof (Forall_elem _ _ _ (ci_wf _ _ _ _ Hci) (proj2 (elem_of_app leaks (stack_runs ks ++ rest) _) (or_introl Hin))) as Hph. cbn in Hph.
    rewrite (frame_physical_of s0) in Hph by apply Hci.
    assert (ph ∈ all_held leaks) as Hh by (apply list_elem_of_bind; exists (HoldLeaked ph phys); split; [by left|done]).
    exists ph, phys. split_and!; [done|done| |]; rewrite Hlin; try lia; exists ph; (split; [|done]);
      apply (frame_valid s0 (w_pmm w)); try apply Hci; apply (Forall_elem _ _ _ (ci_held _ _ _ _ Hci));
      unfold os; rewrite all_held_app; apply elem_of_app; by left. }
  assert (stack_byte (w_pmm w) ks p -> exists ph phys, ph ∈ all_held (stack_runs ks) /\
    physical_of s0 ph = Some phys /\ phys <= p < phys + PAGE_SIZE) as Hstack.
  { intros (stack & i & pa & Hin & Hi & Hrun & Hp).
    assert (HoldRun (stack_pages stack) ∈ stack_runs ks) as Hr by (apply list_elem_of_fmap; by exists stack).
    destruct (held_run_page s0 _ os l (stack_pages stack) i Hci) as (pa' & Hrun' & _ & Hpa); [unfold os; set_solver|done|].
    rewrite Hrun in Hrun'. injection Hrun' as <-. exists (run_page (stack_pages stack) i), pa. split_and!; [|done|lia|lia].
    apply list_elem_of_bind. exists (HoldRun (stack_pages stack)). split; [|done]. apply elem_of_handles. cbn. lia. }
  assert (forall ph, ph ∈ all_held leaks \/ ph ∈ all_held (stack_runs ks) -> ph ∈ all_held os) as Hsub.
  { intros ph Hph. unfold os. rewrite !all_held_app, !elem_of_app. tauto. }
  split.
  - intros Hb. assert (exists ph phys, ph ∈ all_held os /\ physical_of s0 ph = Some phys /\ phys <= p < phys + PAGE_SIZE)
      as (ph & phys & Hh & Hp & Hr) by (destruct Hb as [(ph & phys & Hh & ?)%Hheap|(ph & phys & Hh & ?)%Hstack]; eauto 10).
    exists os, l, ph. split_and!; [done|done|]. by eapply held_byte.
  - intros [(h1 & p1 & H1 & P1 & B1)%Hheap (h2 & p2 & H2 & P2 & B2)%Hstack].
    destruct (held_byte _ _ _ _ _ p Hci (Hsub _ (or_introl H1)) P1 B1) as [_ E1].
    destruct (held_byte _ _ _ _ _ p Hci (Hsub _ (or_intror H2)) P2 B2) as [_ E2]. subst p1 p2.
    assert (h1 = h2) as <- by (by eapply (held_same _ _ _ h1 h2 _ Hci (Hsub _ (or_introl H1)) (Hsub _ (or_intror H2)))).
    pose proof (ci_nodup _ _ _ _ Hci) as (_ & _ & Hnd)%NoDup_app. unfold os in Hnd. rewrite all_held_app in Hnd.
    apply NoDup_app in Hnd as (_ & Hd & _). apply (Hd h1 H1). rewrite all_held_app, elem_of_app. by left.
Qed.
End Memory.
