(* ===== verification/StartupBoot.v ===== *)
(** * Boot: the phases

    What each phase of [phys_init] and [kernel_main] does to the kernel's state
    and prints, and what a timer interrupt keeps. *)

From S2P Require Import Prelude Address HwInfo Pmm PmmReserved PmmFreeList PmmAlloc PmmInit PmmClients PmmTheorems.
From S2P Require Import HwInfoTheorems Clock Trap Context KernelStack PageMapper.
From S2P Require Import Kmalloc KmallocLemmas KmallocPool KmallocOps KmallocHeap KmallocUsers KmallocTheorems.
From S2P Require Import Task TaskInv TaskTheorems Console Gic Startup StartupLemmas KernelMemory.
From stdpp Require Import base tactics option list list_numbers numbers gmap strings.

#[local] Open Scope Z_scope.
#[local] Open Scope kernel_scope.

(** ** Texts without the letter of the final message *)

(** No stage but the last prints a [K], none a carriage return, and all text is
    ASCII. *)
Definition quiet_byte (b : Z) : bool := (0 <=? b) && (b <? 128) && negb (b =? 75) && negb (b =? 13).
Definition quiet (t : list Z) : Prop := forallb quiet_byte t = true.

Lemma quiet_byte_spec b : quiet_byte b = true <-> 0 <= b < 128 /\ b <> 75 /\ b <> 13.
Proof. unfold quiet_byte. rewrite !andb_true_iff, !negb_true_iff, Z.leb_le, Z.ltb_lt, !Z.eqb_neq. lia. Qed.
Lemma quiet_app t1 t2 : quiet t1 -> quiet t2 -> quiet (t1 ++ t2).
Proof. unfold quiet. rewrite forallb_app. by intros -> ->. Qed.
Lemma quiet_elem t b : quiet t -> b ∈ t -> 0 <= b < 128 /\ b <> 75 /\ b <> 13.
Proof. unfold quiet. rewrite forallb_forall. intros Ht Hb. by apply quiet_byte_spec, Ht, list_elem_of_In. Qed.
Lemma quiet_dec v : is_uint 64 v -> quiet (dec_text v).
Proof.
  intros Hv. destruct (format_decimal_round_trip v Hv) as (d & Hd & _ & Hf & _). unfold dec_text. rewrite Hd.
  apply forallb_forall. intros b Hin%list_elem_of_In. pose proof (Forall_elem _ _ _ Hf Hin). apply quiet_byte_spec. cbn in *. lia.
Qed.
Lemma elem_of_wire t b : b ∈ on_wire t -> b ∈ t \/ b = 13.
Proof.
  intros (x & Hin & Hx)%list_elem_of_bind. unfold wire_byte in Hin. destruct (Z.eqb_spec x 10) as [Hx10|].
  - subst x. apply elem_of_cons in Hin as [->| ->%list_elem_of_singleton]; [by right|by left].
  - apply list_elem_of_singleton in Hin as ->. by left.
Qed.
Lemma quiet_wire t : quiet t -> 75 ∉ on_wire t.
Proof. intros Ht [Hin|]%elem_of_wire; [|done]. by apply (quiet_elem _ _ Ht) in Hin as (_ & ? & _). Qed.
#[export] Hint Resolve quiet_app quiet_dec : console.

(** Splits a text and computes the closed parts. *)
Ltac quiet_tac :=
  repeat lazymatch goal with
  | |- quiet (dec_text _) => apply quiet_dec
  | |- quiet (_ ++ _) => apply quiet_app
  | |- quiet (if ?b then _ else _) => destruct b
  | |- quiet _ => first [assumption | vm_compute; reflexivity]
  end.

Lemma quiet_dtb info : log_typed info -> quiet (dtb_text info).
Proof.
  intros [Hc Ht Hm Hr]. unfold dtb_text, warning_text. quiet_tac; try done. unfold is_uint, MEGABYTE in *. divlia.
Qed.
Lemma quiet_pmm arenas pages : is_uint 64 arenas -> is_uint 64 pages -> quiet (pmm_text arenas pages).
Proof. intros Ha Hp. unfold pmm_text. quiet_tac; done. Qed.

(** ** The boot thread and the timer *)

Section Boot.
Context {Mmu Con Ctx : Type} `{HL : HalLaws Mmu Con Ctx} `{ContextOps Ctx} `{FunctionAddresses}.
Implicit Types (k : Kernel Mmu Con Ctx) (c : Clock (Scheduler Ctx)) (i : Irq (Clock (Scheduler Ctx))).

Definition clock_ok c : Prop :=
  0 < clk_interval c < 2 ^ 64 /\ 0 < clk_next_tick c < 2 ^ 64 /\ clk_halted c = false.

(** The interrupt controller is up, the clock runs and the scheduler is in [P]. *)
Definition irq_ok (P : Scheduler Ctx -> Prop) i : Prop :=
  hl_irq i /\ clock_ok (irq_kernel i) /\ P (clk_sched (irq_kernel i)).

Section Timer.
Context (P : Scheduler Ctx -> Prop).
Hypothesis Htick : forall e s, is_uint 64 e -> P s -> wp (tick e) (fun _ => P) s.
Hypothesis Hpreempt : forall s, P s -> wp preempt_contexts (fun _ => P) s.

Lemma timer_irq_wp now c :
  is_uint 64 now -> clock_ok c -> P (clk_sched c) ->
  wp (handle_timer_irq task_tick now) (fun _ c' => clock_ok c' /\ P (clk_sched c')) c.
Proof.
  intros Hnow (Hi & Hn & Hh) HP. unfold handle_timer_irq. apply wp_bind, wp_gets.
  unfold TickInterval_try_from_ticks. rewrite (proj2 (Z.eqb_neq _ _)) by lia. apply wp_bind, wp_gets, wp_bind.
  set (n := ticks_passed now (clk_next_tick c) (clk_interval c)).
  destruct (ticks_passed_bounds now (clk_next_tick c) (clk_interval c) ltac:(lia)) as [_ Hlate]. fold n in Hlate.
  assert (1 <= n) as Hn1 by (unfold n, ticks_passed; lia). unfold is_uint in Hnow.
  assert (n < 2 ^ 64) as Hn64 by nia.
  pose proof (advance_tick_run now (clk_next_tick c) (clk_interval c) c) as Hrun. cbv zeta in Hrun. fold n in Hrun.
  rewrite (proj2 (Z.eqb_neq n _)) in Hrun by lia.
  destruct (Z.ltb_spec (clk_next_tick c + n * clk_interval c) (2 ^ 64)) as [Hfit|_];
    (eapply wp_run; [apply Hrun; unfold is_uint; lia|]); [|by apply wp_ret].
  apply wp_bind, wp_modify, wp_bind. unfold wp at 1, run_task_tick, task_tick. cbn [elapsed_ticks advance_next_tick].
  destruct (proj1 (wp_unfold _ _ _) (Htick n (clk_sched c) ltac:(unfold is_uint; lia) HP)) as (r & s' & Hs' & HP').
  unfold bind at 1. cbn [clk_sched set_tick_count set_clock]. rewrite Hs'. cbn [ret].
  apply wp_bind, wp_modify, wp_bind. unfold program_deadline. rewrite hl_deadline.
  apply wp_bind, wp_modify, wp_ret, wp_ret. cbn. split; [|done]. unfold clock_ok. cbn. split_and!; [lia|lia|nia|lia|done].
Qed.

Lemma timer_interrupt_wp now k :
  is_uint 64 now -> irq_ok P (k_irq k) ->
  wp (timer_interrupt now) (fun _ k' => exists i, k' = set_irq i k /\ irq_ok P i) k.
Proof.
  intros Hnow (Hirq & Hclk & HP). unfold timer_interrupt, on_irq. apply wp_zoom. unfold handle_fast_interrupt. apply wp_bind.
  destruct (proj1 (wp_unfold _ _ _) (timer_irq_wp now _ Hnow Hclk HP)) as ([] & c1 & Hc1 & Hclk1 & HP1).
  eapply wp_mono; [exact (hl_timer_interrupt _ _ _ Hirq Hc1)|]. intros handled s1 (-> & Hirq1 & Hk1). cbn [negb].
  destruct (proj1 (wp_unfold _ _ _) (Hpreempt _ HP1)) as (r & s' & Hs' & HP').
  unfold wp, run_preempt, preempt_from_trap, zoom, bind. rewrite Hk1, Hs'. cbn [ret].
  eexists. split; [reflexivity|]. split_and!; [by apply hl_irq_kernel|done|done].
Qed.

(** Waiting for the first tick lets interrupts in and nothing else. *)
Lemma wait_first_tick_wp arrivals : forall n k,
  Forall (from_option (is_uint 64) True) arrivals -> irq_ok P (k_irq k) ->
  wp (wait_first_tick n arrivals) (fun _ k' => exists i, k' = set_irq i k /\ irq_ok P i) k.
Proof.
  assert (forall k, irq_ok P (k_irq k) -> exists i, k = set_irq i k /\ irq_ok P i) as Hself.
  { intros k Hk. exists (k_irq k). split; [by destruct k|done]. }
  induction arrivals as [|arrival arrivals IH]; intros n k Ha Hk; cbn [wait_first_tick];
    (destruct (n <=? 0); [apply wp_ret; by apply Hself|]).
  - apply wp_bind, wp_gets. destruct (negb _); apply wp_ret; by apply Hself.
  - apply Forall_cons in Ha as [Hnow Ha]. apply wp_bind.
    assert (wp (match arrival with Some now => timer_interrupt now | None => ret tt end)
      (fun _ k' => exists i, k' = set_irq i k /\ irq_ok P i) k) as Hone.
    { destruct arrival as [now|]; [by apply timer_interrupt_wp|]. apply wp_ret. by apply Hself. }
    eapply wp_mono; [exact Hone|]. intros [] k1 (i & -> & Hi). apply wp_bind, wp_gets.
    destruct (negb _); [apply wp_ret; by exists i|]. eapply wp_mono; [by apply (IH (n - 1) (set_irq i k))|].
    intros r k2 (j & -> & Hj). by exists j.
Qed.
End Timer.

(** The idle thread is the only thread: it runs on [stack] and its context is
    [ctx]. *)
Record idle_alone (stack : KernelStack) (ctx : Ctx) (s : Scheduler Ctx) : Prop := {
  ia_inv : sched_inv s;
  ia_dropped : dropped s = [];
  ia_thread : exists t, live (threads s) = [t] /\ idle s = Some (t_id t) /\ t_stack t = Some stack /\ t_context t = ctx;
}.

Lemma alone_running stack ctx s : idle_alone stack ctx s ->
  exists t, running s t /\ live (threads s) = [t] /\ idle s = Some (t_id t) /\ t_stack t = Some stack /\ t_context t = ctx.
Proof.
  intros [Hinv _ (t & Hl & Hid & Hst & Hc)]. destruct (si_current _ Hinv) as [u Hu]. exists u. split; [done|].
  destruct Hu as [Hu _]. rewrite Hl in Hu. apply list_elem_of_singleton in Hu as ->. done.
Qed.

Lemma alone_tick stack ctx e s : is_uint 64 e -> idle_alone stack ctx s -> wp (tick e) (fun _ => idle_alone stack ctx) s.
Proof.
  intros He Ha. destruct (decide (e = 0)) as [->|Hne]; [done|]. unfold is_uint in He.
  destruct (alone_running _ _ _ Ha) as (t & Hrun & Hl & Hid & Hst & Hc). pose proof (ia_inv _ _ _ Ha) as Hinv.
  eapply wp_mono; [apply (tick_spec s t e); [done|done|lia]|]. intros r s' [_ Hk]. split.
  - by apply (ticked_inv s t e s'); [..|lia|].
  - rewrite (tk_dropped _ _ _ _ Hk). apply Ha.
  - exists (set_t_virtual_runtime (charged e t) t). split_and!; [|by rewrite (tk_idle _ _ _ _ Hk)|done|done].
    rewrite (tk_threads _ _ _ _ Hk), Hl. cbn. by rewrite on_id_same.
Qed.
Lemma alone_preempt stack ctx s : idle_alone stack ctx s -> wp preempt_contexts (fun _ => idle_alone stack ctx) s.
Proof.
  intros Ha. destruct (alone_running _ _ _ Ha) as (t & (_ & Hst & _) & Hl & _). pose proof (ia_inv _ _ _ Ha) as Hinv.
  unfold preempt_contexts. apply wp_bind, wp_gets. rewrite (si_init _ Hinv).
  destruct (need_reschedule s) eqn:Hneed; [|by apply wp_ret].
  destruct (si_need _ Hinv Hneed) as (u & Hu & Hr & _). rewrite Hl in Hu. apply list_elem_of_singleton in Hu as ->. congruence.
Qed.

(** The switch that ends the boot goes to the idle thread. *)
Lemma alone_enter stack ctx s : idle_alone stack ctx s ->
  wp enter_idle_contexts (fun r s' => idle_alone stack ctx s' /\ exists j t,
    r = Ok {| old := BootContext; new := ThreadContext j |} /\ threads s' !! j = Some (Some t) /\
    t_context t = ctx /\ t_stack t = Some stack) s.
Proof.
  intros Ha. destruct (alone_running _ _ _ Ha) as (t & (Hin & Hrun & Hcur) & Hl & Hid & Hst & Hc).
  pose proof (ia_inv _ _ _ Ha) as Hinv. destruct (thread_index_live _ _ (si_distinct _ Hinv) Hin) as (j & Hidx & Hj).
  unfold enter_idle_contexts. apply wp_bind, wp_gets. rewrite (si_init _ Hinv), Hid, Hidx. unfold thread_at. rewrite Hj.
  cbn [negb mjoin option_join id]. cbn. rewrite Hst. wp_steps. rewrite (rerun_same s t j) by done. split; [done|]. by exists j, t.
Qed.

(** [init_with_idle_thread] of an empty scheduler. *)
Lemma alone_init THREADS PROCESSES trampoline stack entry :
  config_ok THREADS PROCESSES stack ->
  wp (init_with_idle_thread trampoline stack entry 0) (fun r s => r = Ok tt /\
    idle_alone stack (context_set_entry_data entry 0 (context_new trampoline (stack_base stack + stack_size stack))) s)
    (Scheduler_new THREADS PROCESSES []).
Proof.
  intros (Ht & Ht2 & Hp & Hf). eapply wp_mono; [apply init_idle_spec; cbn; rewrite ?length_replicate; done|].
  intros r s (-> & Hinv & Hdrop & Hown & t & Hl & _ & Hid & _ & _ & Hctx). split; [done|]. split; [done| |].
  - rewrite Hdrop. unfold owned. change (threads (Scheduler_new THREADS PROCESSES [])) with
      (replicate THREADS (@None (Thread Ctx))). by rewrite live_replicate.
  - exists t. split_and!; [done|done| |done]. unfold owned in Hown. rewrite Hl in Hown. cbn in Hown.
    by destruct (t_stack t); simplify_eq/=.
Qed.

(** ** What the boot prints *)

(** The console works and has sent [T] since reset. *)
Definition said (T : list Z) k : Prop :=
  console_ready (k_console k) /\ console_sent (k_console k) = on_wire T.

Lemma wp_say m t T k Q :
  sends m t -> said T k -> (forall con, said (T ++ t) (set_console con k) -> Q tt (set_console con k)) -> wp (on_console m) Q k.
Proof.
  intros Hm [Hr Hs] HQ. apply wp_zoom. eapply wp_mono; [exact (Hm _ Hr)|]. intros [] con [Hr' Hs']. apply HQ. split; [done|].
  by rewrite on_wire_app, <-Hs.
Qed.

(** Nothing but quiet text was sent; and so too after the halt, with the last
    line ended. *)
Definition said_quietly k : Prop := exists T, said T k /\ quiet T.
Definition halted_quietly k : Prop := exists T, said (T ++ [10]) k /\ quiet T.

Lemma wp_or_halt {A B E} (m : M (Kernel Mmu Con Ctx) (Result A E)) message (f : A -> M (Kernel Mmu Con Ctx) (Result B Halted)) Q k :
  quiet (str_bytes message) -> (forall k', halted_quietly k' -> Q (Err Halt) k') ->
  wp m (fun r k' => match r with Ok a => wp (f a) Q k' | Err _ => said_quietly k' end) k ->
  wp (or_halt m message f) Q k.
Proof.
  intros Hq HQ Hm. apply wp_bind. eapply wp_mono; [exact Hm|]. intros [a|e] k1 Hr; [exact Hr|].
  destruct Hr as (T & HT & HqT). apply wp_bind. eapply wp_say; [apply sends_print|exact HT|].
  intros con Hc. rewrite !str_bytes_app, !(assoc_L (++)) in Hc. apply wp_ret, HQ. eexists. split; [exact Hc|]. quiet_tac.
Qed.

(** ** The device tree *)

Context `{FdtParser} (memory : PhysicalAddress -> option Z) (new_unaligned : list Z -> option Fdt).
Context (vectors idle_thread trampoline kernel_end : Z).
Abbreviation ke := (hal_virtual_to_physical kernel_end).

(** A device tree of a machine that the kernel supports: the [fdt] crate does not
    panic on it, its numbers have their widths, its memory lies where the physmap
    can reach it and its interrupt controller is one the architecture can bring
    up. *)
Record tree_ok (fdt : Fdt) : Prop := {
  to_quiet msg : ~ raises fdt msg;
  to_typed : fdt_typed fdt;
  to_cpus : is_uint 64 (Z.of_nat (length (tree_cpus fdt)));
  to_memory r : r ∈ tree_memory fdt -> region_base r + region_size r <= hl_limit;
  to_controller : hl_controller (tree_controller fdt);
}.
(** There is physical memory in the megabyte from the device tree on. *)
Definition blob_present (dtb : PhysicalAddress) : Prop := forall pa,
  dtb <= pa < dtb + DEVICE_TREE_BLOB_MAX_SIZE -> exists b, memory pa = Some b /\ is_uint 8 b.

(** The bytes of physical memory from [dtb] on. *)
Definition blob_at (dtb : PhysicalAddress) (bytes : list Z) : Prop :=
  mapM memory (seqZ dtb (Z.of_nat (length bytes))) = Some bytes.

(** What the rest of the boot relies on in the hardware description. *)
Record info_ok (info : HardwareInfo) : Prop := {
  io_boot : boot_ok info hal_KERNEL_PHYSICAL_LOAD ke;
  io_memory r : r ∈ memory_regions info -> region_base r + region_size r <= hl_limit;
  io_log : log_typed info;
  io_controller : hl_controller (interrupt_controller (features info));
}.

Lemma ke_usize : is_usize ke.
Proof. rewrite hl_v2p. apply Z.mod_pos_bound. done. Qed.

Lemma total_of_uint l : Forall region_u64 l -> is_uint 64 (total_of l).
Proof.
  unfold total_of. assert (is_uint 64 0) as Hn by done. revert Hn. generalize 0 as n.
  induction l as [|r l IH]; intros n Hn Hl; [done|]. apply Forall_cons in Hl as [[_ Hr] Hl]. cbn [foldl]. apply IH; [|done].
  unfold saturating_add, is_uint in *. lia.
Qed.

Lemma from_fdt_ok dtb fdt blob :
  tree_ok fdt -> Forall (is_uint 8) blob -> is_usize dtb ->
  exists info, HardwareInfo_from_fdt dtb fdt blob = Done info /\ info_ok info.
Proof.
  intros [Hq Ht Hc Hm Hi] Hb Hdtb. pose proof (from_fdt_spec dtb fdt blob Hb) as Hs.
  destruct (HardwareInfo_from_fdt dtb fdt blob) as [info|msg| |]; [|by destruct (Hq msg)|done..].
  exists info. split; [done|].
  pose proof (describes_boot_ok dtb fdt blob info _ ke Ht Hb Hdtb hl_load ke_usize Hs) as Hboot.
  destruct Hs as [_ _ Hp _ Hdm Htot Hres _ Hcpu _ _ Hf]. destruct (blob_reserved _ blob) as [block missing]. destruct Hres as [_ Hdr].
  split; [done| | |by rewrite Hf].
  - intros r Hr. apply Hm. rewrite Hp in Hr. apply elem_of_take in Hr as (n & Hn & _). by eapply list_elem_of_lookup_2.
  - split; [by rewrite Hcpu|rewrite Htot; by apply total_of_uint, Forall_take, tree_memory_u64|rewrite Hdm|rewrite Hdr]; unfold overflow, is_uint; lia.
Qed.

Lemma mapM_through {A B C} (f : B -> option C) (g : A -> B) (h : A -> option C) l :
  (forall a, a ∈ l -> f (g a) = h a) -> mapM f (g <$> l) = mapM h l.
Proof.
  induction l as [|a l IH]; intros Heq; [done|]. cbn. rewrite Heq by (by left).
  by rewrite IH by (intros a' Ha'; apply Heq; by right).
Qed.
(** What the kernel reads at the device tree's physmap address, through the page
    tables, is what is there in physical memory. *)
Lemma load_blob dtb len k :
  maps_dtb dtb (k_mmu k) -> dtb <> 0 -> 0 <= dtb -> dtb + DEVICE_TREE_BLOB_MAX_SIZE <= hl_limit -> len <= DEVICE_TREE_BLOB_MAX_SIZE ->
  mapM (load_byte memory k) (seqZ (hal_physical_to_virtual dtb) len) = mapM memory (seqZ dtb len).
Proof.
  intros Hmap Hnz H0' Hlim Hlen. destruct hl_linear as (Hb & _ & _ & H64). unfold DEVICE_TREE_BLOB_MAX_SIZE in *.
  assert (forall pa, dtb <= pa < dtb + len -> hal_physical_to_virtual pa = pa + hl_base) as Hlin
    by (intros pa Hpa; rewrite hl_p2v; unfold wrapping_add; apply Z.mod_small; lia).
  destruct (decide (len <= 0)) as [Hle|Hpos]; [by rewrite !seqZ_nil by lia|]. rewrite Hlin by lia.
  replace (seqZ (dtb + hl_base) len) with ((fun pa => pa + hl_base) <$> seqZ dtb len).
  2:{ unfold seqZ. rewrite <-list_fmap_compose. apply list_fmap_ext. intros i x _. unfold compose. lia. }
  apply mapM_through. intros pa Hpa%elem_of_seqZ. unfold load_byte.
  by rewrite <-Hlin, Hmap by (lia || unfold DEVICE_TREE_BLOB_MAX_SIZE; lia).
Qed.

Lemma from_raw_parts_wp dtb len k :
  maps_dtb dtb (k_mmu k) -> dtb <> 0 -> 0 <= dtb -> dtb + DEVICE_TREE_BLOB_MAX_SIZE <= hl_limit ->
  blob_present dtb -> len <= DEVICE_TREE_BLOB_MAX_SIZE ->
  wp (from_raw_parts memory (hal_physical_to_virtual dtb) len) (fun bytes k' => k' = k /\ Forall (is_uint 8) bytes /\
    mapM memory (seqZ dtb len) = Some bytes) k.
Proof.
  intros Hmap Hnz H0' Hlim Hm Hlen. unfold wp, from_raw_parts. rewrite (load_blob dtb len k) by done.
  assert (forall l, (forall a, a ∈ l -> exists b, memory a = Some b /\ is_uint 8 b) ->
    exists bytes, mapM memory l = Some bytes /\ Forall (is_uint 8) bytes) as Hall.
  { induction l as [|a l IH]; intros Hl; [by exists []|]. destruct (Hl a) as (b & Hb & Hu); [by left|].
    destruct IH as (bytes & Hbs & Hus); [intros a' Ha'; apply Hl; by right|]. exists (b :: bytes). cbn. rewrite Hb. cbn.
    rewrite Hbs. split; [done|by constructor]. }
  destruct (Hall (seqZ dtb len)) as (bytes & -> & Hu); [|done]. intros a Ha%elem_of_seqZ. apply Hm. lia.
Qed.

Lemma blob_at_intro dtb len bytes : mapM memory (seqZ dtb len) = Some bytes -> blob_at dtb bytes.
Proof.
  intros Hb. unfold blob_at. pose proof (length_mapM _ _ _ Hb) as Hl. rewrite length_seqZ in Hl.
  rewrite <-Hl, <-Hb. unfold seqZ. by rewrite Nat2Z.id.
Qed.

(** The description that the device tree at [dtb] gives: the blob is as long as
    its header says, and [info] is what the parsed tree describes. *)
Definition describes (dtb : PhysicalAddress) (info : HardwareInfo) : Prop := exists header blob fdt,
  mapM memory (seqZ dtb 8) = Some header /\ mapM memory (seqZ dtb (from_be_bytes (drop 4 header))) = Some blob /\
  new_unaligned blob = Some fdt /\ HardwareInfo_from_fdt dtb fdt blob = Done info.
Lemma describes_unique dtb info info' : describes dtb info -> describes dtb info' -> info = info'.
Proof.
  intros (h & b & f & Hh & Hb & Hf & Hi) (h' & b' & f' & Hh' & Hb' & Hf' & Hi').
  rewrite Hh in Hh'. injection Hh' as <-. rewrite Hb in Hb'. injection Hb' as <-. rewrite Hf in Hf'. injection Hf' as <-. congruence.
Qed.

Lemma read_hardware_info_wp dtb k :
  maps_dtb dtb (k_mmu k) -> 0 <= dtb -> dtb + DEVICE_TREE_BLOB_MAX_SIZE <= hl_limit -> is_usize dtb ->
  blob_present dtb -> (forall blob fdt, blob_at dtb blob -> new_unaligned blob = Some fdt -> tree_ok fdt) ->
  wp (read_hardware_info memory new_unaligned dtb) (fun r k' => k' = k /\
    match r with Ok info => info_ok info /\ describes dtb info | Err _ => True end) k.
Proof.
  intros Hmap H0' Hlim Hd Hm Hp. unfold read_hardware_info. destruct (Z.eqb_spec dtb 0) as [|Hnz]; [by apply wp_ret|]. apply wp_bind.
  unfold DeviceTreeBlob_new. destruct (negb _); [by apply wp_ret, wp_ret|]. apply wp_bind.
  eapply wp_mono; [by apply from_raw_parts_wp|]. intros header k1 (-> & _ & Hh). destruct (negb _); [by apply wp_ret, wp_ret|].
  destruct (Z.ltb_spec DEVICE_TREE_BLOB_MAX_SIZE (from_be_bytes (drop 4 header))); [by apply wp_ret, wp_ret|]. apply wp_bind.
  eapply wp_mono; [by apply from_raw_parts_wp|]. intros blob k2 (-> & Hblob & Hat). apply wp_ret. unfold as_fdt.
  destruct (new_unaligned blob) as [fdt|] eqn:Hn; [|by apply wp_ret].
  destruct (from_fdt_ok dtb fdt blob (Hp _ _ (blob_at_intro _ _ _ Hat) Hn) Hblob Hd) as (info & Hrun & Hok).
  apply wp_bind. eapply wp_lift_outcome; [exact Hrun|]. apply wp_ret. split_and!; [done|done|]. by exists header, blob, fdt.
Qed.

(** ** To the higher half *)

Definition phys_text : list Z :=
  [] ++ str_bytes ("[BOOT:STARTED]" ++ newline) ++ stage_text 1 "boot" "console ready" ++
  stage_text 2 "trap" "exception handlers set".
Definition virt_text (info : HardwareInfo) : list Z :=
  ((phys_text ++ stage_text 3 "mmu" "virtual memory enabled") ++ stage_text 4 "mmu" "low addresses unmapped") ++
  dtb_text info.

(** What the machine is like when the boot stub calls [phys_init]. *)
Record machine_ok k (dtb : PhysicalAddress) (arrivals : list (option Z)) : Prop := {
  mo_console : said [] k;
  mo_tables : hl_reset (k_mmu k);
  mo_image : hl_image ke;
  mo_dtb : 0 <= dtb /\ dtb + DEVICE_TREE_BLOB_MAX_SIZE <= hl_limit;
  mo_blob : blob_present dtb;
  mo_tree blob fdt : blob_at dtb blob -> new_unaligned blob = Some fdt -> tree_ok fdt;
  mo_heap : kmalloc_initialized (kmalloc (k_heap k)) = false;
  mo_slot : k_next_slot k = 0;
  mo_sched : exists THREADS PROCESSES, k_sched k = Scheduler_new THREADS PROCESSES [] /\
    (0 < THREADS)%nat /\ Z.of_nat THREADS < 2 ^ 32 - 1 /\ (0 < PROCESSES)%nat;
  mo_clock : clk_halted (k_clock k) = false;
  mo_arrivals : Forall (from_option (is_uint 64) True) arrivals;
}.

(** The description was read, the tables are final, and only they, the vector,
    the timer's frequency and the console changed. *)
Record virtual dtb k (info : HardwareInfo) k' : Prop := {
  vi_info : info_ok info;
  vi_read : describes dtb info;
  vi_tables : tables_ready info ke (k_mmu k');
  vi_said : said (virt_text info) k' /\ quiet (virt_text info);
  vi_heap : k_heap k' = k_heap k;
  vi_slot : k_next_slot k' = k_next_slot k;
  vi_irq : k_irq k' = k_irq k;
}.

Lemma dtb_usize dtb : 0 <= dtb -> dtb + DEVICE_TREE_BLOB_MAX_SIZE <= hl_limit -> is_usize dtb.
Proof. destruct hl_linear as (? & _ & _ & ?). unfold is_usize, is_uint, DEVICE_TREE_BLOB_MAX_SIZE. lia. Qed.

Lemma virt_phase k dtb arrivals :
  machine_ok k dtb arrivals ->
  wp (phys_init vectors dtb) (fun _ k1 => wp (virt_init memory new_unaligned vectors dtb) (fun r k2 =>
    match r with Ok info => virtual dtb k info k2 | Err _ => said_quietly k2 end) k1) k.
Proof.
  intros [Hcon Htab Himg [Hd0 Hd1] Hblob Htree _ _ _ _ _]. pose proof (dtb_usize dtb Hd0 Hd1) as Hdtb.
  unfold phys_init. apply wp_bind. eapply wp_say; [apply sends_print|exact Hcon|]. intros c1 H1'.
  apply wp_bind. eapply wp_say; [by apply sends_stage|exact H1'|]. intros c2 H2'.
  apply wp_bind, wp_modify, wp_bind. eapply wp_say; [by apply sends_stage|exact H2'|]. intros c3 H3'.
  unfold on_mmu at 1. apply wp_zoom. eapply wp_mono; [exact (hl_mmu dtb ke _ Htab Himg Hd0 Hd1)|]. intros [] m1 [Hdt Hm1]. cbn beta.
  unfold virt_init. apply wp_bind, wp_modify, wp_bind, wp_zoom.
  eapply wp_mono; [apply hl_post; exact (proj1 H3')|]. intros [] c4 [Hr4 Hs4]. rewrite <-!(assoc_L (++)) in H3'.
  assert (forall k', k_console k' = c4 -> said phys_text k') as H4' by (intros k' <-; split; [done|]; rewrite Hs4; apply H3').
  apply wp_bind. eapply wp_say; [by apply sends_stage|by apply H4'|]. intros c5 H5'.
  apply wp_bind. eapply wp_mono; [by apply read_hardware_info_wp|]. intros [info|e] k5 [-> Hr5].
  2:{ apply wp_ret. eexists. split; [exact H5'|]. quiet_tac. }
  destruct Hr5 as [Hi Hread]. apply wp_bind, wp_zoom. eapply wp_mono; [apply Hm1; apply Hi|]. intros [] m2 Hm2. cbn beta.
  apply wp_bind, wp_zoom. eapply wp_mono; [exact Hm2|]. intros [] m3 Hm3.
  apply wp_bind. eapply wp_say; [by apply sends_stage|exact H5'|]. intros c6 H6'.
  apply wp_bind. eapply wp_say; [by apply sends_dtb, Hi|exact H6'|]. intros c7 H7'.
  apply wp_bind, wp_modify, wp_ret. split; try done. split; [exact H7'|].
  pose proof (quiet_dtb info (io_log _ Hi)). unfold virt_text. quiet_tac.
Qed.

(** ** Memory *)

Definition hal_mappers : Mappers :=
  {| map_physical_to_virtual := hal_physical_to_virtual; map_virtual_to_physical := hal_virtual_to_physical |}.

(** The memory of a kernel that booted on the machine [info]: the page allocator
    manages the machine's memory but for what must be left alone; the heap with
    [allocs] and the stacks [ks] share it. *)
Definition kernel_memory (info : HardwareInfo) k (allocs : list KernelAllocation) (ks : list KernelStack) : Prop :=
  exists s0 (PM : PageMapper s0 hal_map_kernel_stack_page hal_unmap_kernel_stack_page) l A0,
  PmmInit.ready hl_base (memory_regions info) s0 l /\
  (forall p, must_reserve info hal_KERNEL_PHYSICAL_LOAD ke p -> covered (active_ranges s0) p) /\
  stack_region s0 _ _ hal_kernel_stack_region_base /\ mappers_ok s0 hal_mappers /\
  memory_inv s0 PM hal_kernel_stack_region_base hal_mappers A0 (k_heap k) (k_world k) allocs ks.

Lemma linear_region info r p : info_ok info -> r ∈ memory_regions info ->
  region_base r <= p < region_base r + region_size r -> hal_physical_to_virtual p = p + hl_base.
Proof.
  intros Hi Hr Hp. pose proof (io_memory _ Hi r Hr) as Hlim. pose proof (Forall_elem _ _ _ (bo_memory _ _ _ (io_boot _ Hi)) Hr) as Hok.
  rewrite hl_p2v. unfold wrapping_add. apply Z.mod_small. destruct hl_linear as (? & _ & _ & ?). unfold region_ok in Hok. lia.
Qed.

Lemma pmm_phase dtb k info k1 :
  virtual dtb k info k1 -> k_next_slot k = 0 -> kmalloc_initialized (kmalloc (k_heap k)) = false ->
  wp (on_kernel_pmm (Pmm.init info hal_KERNEL_PHYSICAL_LOAD ke hal_physical_to_virtual)) (fun r k2 =>
    k_console k2 = k_console k1 /\ k_irq k2 = k_irq k /\ match r with
    | Err _ => True
    | Ok _ => counted (k_pmm k2) /\ forall con,
        wp (on_heap (Kmalloc_init hal_physical_to_virtual hal_virtual_to_physical)) (fun _ k3 =>
          kernel_memory info k3 [] [] /\ k_console k3 = con /\ k_irq k3 = k_irq k /\ k_next_slot k3 = 0) (set_console con k2)
    end) k1.
Proof.
  intros [Hi _ Htab _ Hheap Hslot Hirq] Hz Hnot. unfold on_kernel_pmm. apply wp_zoom.
  destruct (proj1 (wp_unfold _ _ _) (init_spec hl_base info hal_KERNEL_PHYSICAL_LOAD ke hal_physical_to_virtual (k_pmm k1)
    (io_boot _ Hi) (fun r p Hr => linear_region info r p Hi Hr))) as ([[]|e] & s0 & Hrun & Hr); (eapply wp_run; [exact Hrun|]).
  2:{ split_and!; [done|done|done]. }
  destruct Hr as [[l Hready] Hres]. destruct (Htab _ _ Hrun) as (PM & Hreg & Hpm & Hvac).
  assert (mappers_ok s0 hal_mappers) as Hmp.
  { destruct hl_linear as (H0' & Hal & _ & H64). apply (linear_mappers_ok hl_base hl_base (memory_regions info) s0 l); [done|done| |exact hl_p2v|exact hl_v2p].
    intros r Hr. pose proof (io_memory _ Hi r Hr). lia. }
  split_and!; [done|done|exact (init_counted _ _ _ _ _ _ _ Hrun)|]. intros con. unfold on_heap. apply wp_zoom.
  eapply wp_mono; [apply (Kmalloc_init_spec s0 hal_mappers [] Hmp _ l)|].
  - cbn. by rewrite Hheap.
  - exact (ready_client _ _ _ _ Hready).
  - intros [] h3 Hinv. split_and!; [|done|done|cbn; congruence].
    exists s0, PM, l, (pm_space (k_mmu k1)). split_and!; [done..|]. pose proof (hv_client _ _ _ _ _ _ _ _ _ Hinv) as Hci.
    match goal with |- memory_inv _ _ _ _ _ _ ?w _ _ => assert (pm_ok w []) as Hok end.
    { eapply (pm_frame _ [] _ [] l _ Hpm); [exact Hci|by intros ? ?]. }
    split; [done| |].
    + exists [], l, (fun _ => ∅), (fun _ => []), (fun _ => ∅), []. split_and!; [exact Hinv| |exact Hok].
      split; [constructor| |]; set_solver.
    + eapply (stacks_init s0 _ _ _ _ [] Hok); [cbn; lia|]. intros va _ Hva. by apply Hvac.
Qed.

Lemma kernel_memory_heap {A} (m : M Heap A) allocs allocs' ks info k :
  kernel_memory info k allocs ks ->
  (forall s0 (PM : PageMapper s0 hal_map_kernel_stack_page hal_unmap_kernel_stack_page) A0, mappers_ok s0 hal_mappers ->
    memory_inv s0 PM hal_kernel_stack_region_base hal_mappers A0 (k_heap k) (k_world k) allocs ks ->
    wp m (fun r h' => memory_inv s0 PM hal_kernel_stack_region_base hal_mappers A0 h'
      (with_pmm (m_pmm (heap_mem h')) (k_world k)) (allocs' r) ks) (k_heap k)) ->
  wp (on_heap m) (fun r k' => kernel_memory info k' (allocs' r) ks /\ exists h, k' = set_heap h k) k.
Proof.
  intros (s0 & PM & l & A0 & Hready & Hres & Hreg & Hmp & Hm) Hwp. apply wp_zoom.
  eapply wp_mono; [exact (Hwp s0 PM A0 Hmp Hm)|]. intros r h' Hm'. split; [|by exists h'].
  exists s0, PM, l, A0. split_and!; [done..|exact Hm'].
Qed.

Lemma probe_phase info k allocs ks :
  kernel_memory info k allocs ks ->
  wp (on_heap boot_probe) (fun _ k' => kernel_memory info k' allocs ks /\ exists h, k' = set_heap h k) k.
Proof. intros Hk. apply (kernel_memory_heap _ allocs (fun _ => allocs) ks); [done|]. intros. by apply memory_probe. Qed.

(** The world after a call is what the rest of the kernel sees. *)
Lemma world_seen w k : k_world (set_world w k) = w.
Proof. by destruct w. Qed.

Lemma stack_phase info k allocs ks :
  kernel_memory info k allocs ks -> k_next_slot k + 1 < 2 ^ 64 ->
  wp (on_world (create_mapped hal_kernel_stack_region_base hal_map_kernel_stack_page hal_unmap_kernel_stack_page))
    (fun r k' => (exists w, k' = set_world w k) /\ k_next_slot k' = k_next_slot k + 1 /\
      kernel_memory info k' allocs (match r with Ok stack => stack :: ks | Err _ => ks end)) k.
Proof.
  intros (s0 & PM & l & A0 & Hready & Hres & Hreg & Hmp & Hm) Hn. apply wp_zoom.
  eapply wp_mono; [exact (memory_create s0 PM _ Hreg hal_mappers A0 _ _ _ _ Hm Hn)|]. intros r w' [Hn' Hm'].
  split; [by exists w'|]. split; [done|]. exists s0, PM, l, A0. rewrite world_seen. split_and!; [done..|exact Hm'].
Qed.

Lemma discard_phase info k allocs ks1 stack ks2 :
  kernel_memory info k allocs (ks1 ++ stack :: ks2) ->
  wp (on_world (KernelStack_drop hal_unmap_kernel_stack_page stack)) (fun _ k' => (exists w, k' = set_world w k) /\
    kernel_memory info k' allocs (ks1 ++ ks2)) k.
Proof.
  intros (s0 & PM & l & A0 & Hready & Hres & Hreg & Hmp & Hm). apply wp_zoom.
  eapply wp_mono; [exact (memory_drop s0 PM _ Hreg hal_mappers A0 _ _ _ _ _ _ Hm)|]. intros [] w' [_ Hm'].
  split; [by exists w'|]. exists s0, PM, l, A0. rewrite world_seen. split_and!; [done..|exact Hm'].
Qed.

Lemma stack_in_region info k allocs ks stack : kernel_memory info k allocs ks -> stack ∈ ks -> stack_fits stack.
Proof.
  intros (s0 & PM & l & A0 & _ & _ & Hreg & _ & Hm) Hin.
  destruct (live_slot s0 _ _ _ A0 _ _ stack (mv_stacks _ _ _ _ _ _ _ _ _ Hm) Hin) as (slot & _ & [Hs Hb Hz _ _ _]).
  destruct Hreg as (_ & _ & Hend & _). unfold stack_fits. rewrite Hb, Hz. unfold slot_base.
  change MAX_KERNEL_STACK_SLOTS with 87381 in Hs. change KERNEL_STACK_SLOT_SIZE with 12288. change KERNEL_STACK_GUARD_SIZE with 4096.
  change KERNEL_STACK_SIZE with 8192. change KERNEL_STACK_REGION_SIZE with 1073741824 in Hend. lia.
Qed.

(** ** To the idle thread *)

Definition boot_text (info : HardwareInfo) (arenas pages : Z) : list Z :=
  (((((virt_text info ++ pmm_text arenas pages) ++ stage_text 7 "trace" "ring ready") ++
     stage_text 8 "clock" "timer ready") ++ stage_text 9 "task" "scheduler ready") ++
   stage_text 10 "task" "entering idle thread") ++ str_bytes ("[BOOT:OK]" ++ newline).

(** The context of the idle thread: it starts at the trampoline on the top of
    its stack, with [idle_thread] as its entry. *)
Definition idle_context (stack : KernelStack) : Ctx :=
  context_set_entry_data idle_thread 0 (context_new trampoline (stack_base stack + stack_size stack)).

(** A kernel that finished its boot: the idle thread is the only one, it has the
    only stack, no heap block is in use, interrupts are on, the log is complete,
    and the boot thread is about to switch to the idle thread. *)
Record booted (info : HardwareInfo) k (pair : ContextPair) : Prop := {
  bt_memory : exists stack j t, kernel_memory info k [] [stack] /\
    irq_ok (idle_alone stack (idle_context stack)) (k_irq k) /\
    pair = {| old := BootContext; new := ThreadContext j |} /\ threads (k_sched k) !! j = Some (Some t) /\
    t_stack t = Some stack /\ t_context t = idle_context stack;
  bt_text : exists arenas pages, said (boot_text info arenas pages) k /\ quiet (virt_text info ++ pmm_text arenas pages);
}.

Lemma clock_phase f now c :
  0 <= now -> clk_halted c = false ->
  wp (clock_init f now) (fun r c' => clk_sched c' = clk_sched c /\ (r = Ok tt -> clock_ok c')) c.
Proof.
  intros Hnow Hh. unfold clock_init. destruct f as [f|]; [|by apply wp_ret]. unfold ticks_per_interval.
  destruct (Z.ltb_spec f TICK_RATE_HZ) as [|Hf]; [by apply wp_ret|]. unfold TickInterval_try_from_ticks, TICK_RATE_HZ in *.
  assert (1 <= f / 100) as Hi by divlia. rewrite (proj2 (Z.eqb_neq _ _)) by lia.
  unfold checked_add. destruct (Z.ltb_spec (now + f / 100) (2 ^ 64)); [|by apply wp_ret].
  apply wp_bind, wp_modify, wp_bind. unfold program_deadline. rewrite hl_deadline. apply wp_bind, wp_modify, wp_ret, wp_ret.
  split; [done|]. intros _. unfold clock_ok. cbn. split_and!; lia || done.
Qed.

(** From the interrupt controller to the first tick. *)
Lemma timer_phase (P : Scheduler Ctx -> Prop) info now arrivals k {A} f Q (T : list Z) :
  (forall e s, is_uint 64 e -> P s -> wp (tick e) (fun _ => P) s) -> (forall s, P s -> wp preempt_contexts (fun _ => P) s) ->
  info_ok info -> 0 <= now -> Forall (from_option (is_uint 64) True) arrivals ->
  said T k -> quiet T -> P (k_sched k) -> clk_halted (k_clock k) = false ->
  (forall k', halted_quietly k' -> Q (Err Halt) k') ->
  (forall i, irq_ok P i -> wp (f tt) Q (set_irq i k)) ->
  wp (on_irq (hal_interrupt_init info) ;;;
      let! hz := gets k_frequency in
      or_halt (A:=unit) (B:=A) (on_clock (clock_init (timer_frequency hz) now)) "clock: invalid timer frequency" (fun _ =>
      or_halt (on_irq hal_timer_enable) "clock: timer enable failed" (fun _ =>
      or_halt (wait_first_tick FIRST_TICK_SPINS arrivals) "clock: first timer interrupt did not arrive" f))) Q k.
Proof.
  intros Htick Hpre Hi Hnow Harr HT Hq HP Hh Hhalt Hf.
  apply wp_bind, wp_zoom. eapply wp_mono; [exact (hl_interrupt_init info _ (io_controller _ Hi))|]. intros [] i1 [Hi1 Hk1].
  apply wp_bind, wp_gets. apply wp_or_halt; [done|done|]. apply wp_zoom.
  eapply wp_mono; [apply clock_phase; [exact Hnow|change (clk_halted (irq_kernel i1) = false); rewrite Hk1; exact Hh]|].
  intros [[]|e] c2 [Hs2 Hc2]; [|by exists T].
  assert (clock_ok c2) as Hok2 by (by apply Hc2). assert (P (clk_sched c2)) as HP2 by (rewrite Hs2; change (P (clk_sched (irq_kernel i1))); rewrite Hk1; exact HP).
  apply wp_or_halt; [done|done|]. apply wp_zoom.
  eapply wp_mono; [apply hl_timer_enable, hl_irq_kernel, Hi1|]. intros r i3 (-> & Hi3 & Hk3). cbn in Hk3.
  assert (irq_ok P i3) as Hok3 by (split_and!; [done|by rewrite Hk3|by rewrite Hk3]).
  apply wp_or_halt; [done|done|].
  eapply wp_mono; [by apply (wait_first_tick_wp P Htick Hpre)|]. intros [[]|e] k4 (i & -> & Hok4); [exact (Hf i Hok4)|by exists T].
Qed.

(** From the page allocator to the idle thread's stack. *)
Lemma memory_phase dtb k info k1 {A} (f : KernelStack -> M (Kernel Mmu Con Ctx) (Result A Halted)) Q :
  virtual dtb k info k1 -> k_next_slot k = 0 -> kmalloc_initialized (kmalloc (k_heap k)) = false ->
  (forall k', halted_quietly k' -> Q (Err Halt) k') ->
  (forall k' stack na np, is_uint 64 na -> is_uint 64 np -> said (virt_text info ++ pmm_text na np) k' ->
    quiet (virt_text info ++ pmm_text na np) -> kernel_memory info k' [] [stack] -> k_irq k' = k_irq k -> wp (f stack) Q k') ->
  wp (or_halt (on_kernel_pmm (Pmm.init info hal_KERNEL_PHYSICAL_LOAD ke hal_physical_to_virtual)) "pmm: initialization failed" (fun _ =>
      let! pmm := gets k_pmm in
      on_console (log_pmm (arena_count pmm) (total_pages pmm)) ;;;
      on_heap (Kmalloc_init hal_physical_to_virtual hal_virtual_to_physical) ;;;
      or_halt (on_heap Kmalloc.boot_probe) "allocator: initialization failed" (fun _ =>
      or_halt (on_world (create_mapped hal_kernel_stack_region_base hal_map_kernel_stack_page hal_unmap_kernel_stack_page))
        "task: idle stack allocation failed" f))) Q k1.
Proof.
  intros Hv Hslot Hheap Hhalt Hf. pose proof (vi_said _ _ _ _ Hv) as [HT1 Hq1].
  apply wp_or_halt; [done|done|]. eapply wp_mono; [exact (pmm_phase dtb k info k1 Hv Hslot Hheap)|].
  intros r2 k2 (Hc2 & Hi2 & Hr2).
  assert (said (virt_text info) k2) as HT2 by (unfold said in *; by rewrite Hc2). destruct r2 as [[]|e]; [|by eexists].
  destruct Hr2 as [[Hpages Harenas] Hinit]. apply wp_bind, wp_gets, wp_bind.
  eapply wp_say; [exact (sends_pmm _ _ Harenas Hpages)|exact HT2|]. intros con HT3.
  pose proof (quiet_app _ _ Hq1 (quiet_pmm _ _ Harenas Hpages)) as Hq3.
  apply wp_bind. eapply wp_mono; [exact (Hinit con)|]. clear Hinit. intros [] k4 (Hm4 & Hc4 & Hi4 & Hn4).
  assert (said (virt_text info ++ pmm_text (arena_count (k_pmm k2)) (total_pages (k_pmm k2))) k4) as HT4
    by (unfold said in *; by rewrite Hc4).
  apply wp_or_halt; [done|done|]. eapply wp_mono; [exact (probe_phase info k4 [] [] Hm4)|].
  intros [[]|e] k5 (Hm5 & h5 & ->); [|by eexists].
  apply wp_or_halt; [done|done|].
  eapply wp_mono; [apply (stack_phase info _ [] [] Hm5); cbn; lia|]. intros [stack|e] k6 ((w & ->) & _ & Hm6); [|by eexists].
  eapply (Hf _ stack _ _ Harenas Hpages); [exact HT4|exact Hq3|exact Hm6|exact Hi4].
Qed.

(** From the scheduler on. *)
Lemma task_phase info k stack now arrivals na np T THREADS PROCESSES :
  info_ok info -> 0 <= now -> Forall (from_option (is_uint 64) True) arrivals -> is_uint 64 na -> is_uint 64 np ->
  T = virt_text info ++ pmm_text na np -> said T k -> quiet T -> kernel_memory info k [] [stack] ->
  k_sched k = Scheduler_new THREADS PROCESSES [] -> (0 < THREADS)%nat -> Z.of_nat THREADS < 2 ^ 32 - 1 -> (0 < PROCESSES)%nat ->
  clk_halted (k_clock k) = false ->
  wp (or_halt (on_sched (init_with_idle_thread trampoline stack idle_thread 0)) "task: scheduler initialization failed" (fun _ =>
      on_console log_trace ;;;
      on_irq (hal_interrupt_init info) ;;;
      let! hz := gets k_frequency in
      or_halt (on_clock (clock_init (timer_frequency hz) now)) "clock: invalid timer frequency" (fun _ =>
      or_halt (on_irq hal_timer_enable) "clock: timer enable failed" (fun _ =>
      or_halt (wait_first_tick FIRST_TICK_SPINS arrivals) "clock: first timer interrupt did not arrive" (fun _ =>
      on_console log_clock ;;; on_console log_task ;;; on_console log_idle ;;;
      on_console (print ("[BOOT:OK]" ++ newline)) ;;; enter_idle_thread)))))
    (fun r k' => match r with Ok switch => booted info k' switch | Err _ => halted_quietly k' end) k.
Proof.
  intros Hi Hnow Harr Hna Hnp HTeq HT Hq Hm Hsch Ht1 Ht2 Hp1 Hclk.
  pose proof (stack_in_region _ _ _ _ stack Hm ltac:(by left)) as Hfit.
  apply wp_or_halt; [done|done|]. apply wp_zoom. rewrite Hsch.
  eapply wp_mono; [exact (alone_init THREADS PROCESSES trampoline stack idle_thread ltac:(by split_and!))|].
  intros r s7 [-> Hal]. fold (idle_context stack) in Hal. apply wp_bind.
  eapply wp_say; [by apply sends_stage|exact HT|]. intros con8 HT8.
  eapply (timer_phase (idle_alone stack (idle_context stack))); [apply alone_tick|apply alone_preempt|exact Hi|exact Hnow|exact Harr
    |exact HT8|quiet_tac|exact Hal|exact Hclk|done|].
  intros i9 Hok9. apply wp_bind. eapply wp_say; [by apply sends_stage|exact HT8|]. intros con9 HT9.
  apply wp_bind. eapply wp_say; [by apply sends_stage|exact HT9|]. intros con10 HT10.
  apply wp_bind. eapply wp_say; [by apply sends_stage|exact HT10|]. intros con11 HT11.
  apply wp_bind. eapply wp_say; [apply sends_print|exact HT11|]. intros con12 HT12.
  apply wp_or_halt; [done|done|]. apply wp_zoom. destruct Hok9 as (Hirq9 & Hclk9 & Hal9).
  eapply wp_mono; [exact (alone_enter _ _ _ Hal9)|]. intros r s13 (Hal13 & j & t & -> & Hj & Hctx & Hst). apply wp_ret. split.
  - exists stack, j, t. split_and!; [exact Hm| |done|exact Hj|done|done]. split_and!; [by apply hl_irq_kernel|done|exact Hal13].
  - exists na, np. rewrite HTeq in HT12. split; [exact HT12|by rewrite <-HTeq].
Qed.

Lemma boot_run k dtb now arrivals :
  machine_ok k dtb arrivals -> 0 <= now ->
  wp (boot memory new_unaligned vectors idle_thread trampoline kernel_end dtb now arrivals) (fun r k' =>
    match r with Ok switch => exists info, describes dtb info /\ booted info k' switch | Err _ => halted_quietly k' end) k.
Proof.
  intros Hmo Hnow. pose proof Hmo as [_ _ _ _ _ _ Hheap Hslot (THREADS & PROCESSES & Hsch & Ht1 & Ht2 & Hp1) Hclk Harr].
  unfold boot, kernel_main. apply wp_bind. eapply wp_mono; [exact (virt_phase k dtb arrivals Hmo)|]. intros [] k1 Hv.
  apply wp_or_halt; [done|done|]. eapply wp_mono; [exact Hv|]. clear Hv k1. intros [info|e] k1 Hv; [|done].
  eapply memory_phase; [exact Hv|done|done|done|]. intros k6 stack na np Hna Hnp HT Hq Hm Hirq.
  eapply wp_mono; [eapply (task_phase info k6 stack now arrivals na np _ THREADS PROCESSES); [exact (vi_info _ _ _ _ Hv)|done|done|exact Hna|exact Hnp|reflexivity|done|done|done| |done|done|done|]|].
  - unfold k_sched, k_clock in *. by rewrite Hirq.
  - unfold k_clock in *. by rewrite Hirq.
  - intros [sw|e'] k' Hr; [exists info; split; [apply Hv|done]|done].
Qed.
End Boot.
