(* ===== verification/KernelRun.v ===== *)
(** * The running kernel

    The calls on a kernel that finished its boot, as a step relation: the heap,
    the stacks, new threads and timer interrupts.  The invariant of the whole
    kernel, kept by every step. *)

From S2P Require Import Prelude Address HwInfo Pmm PmmReserved PmmFreeList PmmAlloc PmmInit PmmClients PmmTheorems.
From S2P Require Import HwInfoTheorems Clock Trap Context KernelStack PageMapper.
From S2P Require Import Kmalloc KmallocLemmas KmallocPool KmallocOps KmallocHeap KmallocUsers KmallocTheorems.
From S2P Require Import Task TaskInv TaskTheorems Console Gic Startup StartupLemmas KernelMemory StartupBoot.
From stdpp Require Import base tactics option list list_numbers numbers gmap strings relations.

#[local] Open Scope Z_scope.
#[local] Open Scope kernel_scope.

Section Run.
Context {Mmu Con Ctx : Type} `{HL : HalLaws Mmu Con Ctx} `{ContextOps Ctx} `{FunctionAddresses}.
Context (trampoline kernel_end : Z).
Implicit Types (k : Kernel Mmu Con Ctx) (s : Scheduler Ctx).

(** ** New threads *)

(** [create_thread_with_stack] of [task/mod.rs]: a refused stack goes out of
    scope, so its [Drop] runs. *)
Definition kernel_spawn (process weight : Z) (stack : KernelStack) (entry arg : Z) : M (Kernel Mmu Con Ctx) (Result Z InitError) :=
  let! r := on_sched (spawn trampoline process weight stack entry arg) in
  match r with
  | Ok id => ret (Ok id)
  | Err e => on_world (KernelStack_drop hal_unmap_kernel_stack_page stack) ;;; ret (Err e)
  end.

(** ** Steps *)

(** The heap blocks in use and the stacks that no thread has yet. *)
Record Running := { r_kernel : Kernel Mmu Con Ctx; r_allocs : list KernelAllocation; r_spare : list KernelStack }.
Abbreviation run k allocs spare := {| r_kernel := k; r_allocs := allocs; r_spare := spare |}.

(** One call or interrupt; slots and thread identifiers have not run out. *)
Inductive kernel_step : Running -> Running -> Prop :=
  | ks_alloc k allocs spare size alignment r k' :
      0 <= size -> on_heap (heap_alloc size alignment) k = Done (r, k') ->
      kernel_step (run k allocs spare) (run k' (match r with Ok a => a :: allocs | Err _ => allocs end) spare)
  | ks_free k allocs1 a allocs2 spare k' :
      on_heap (KernelAllocation_drop a) k = Done (tt, k') ->
      kernel_step (run k (allocs1 ++ a :: allocs2) spare) (run k' (allocs1 ++ allocs2) spare)
  | ks_stack k allocs spare r k' :
      k_next_slot k + 1 < 2 ^ 64 ->
      on_world (create_mapped hal_kernel_stack_region_base hal_map_kernel_stack_page hal_unmap_kernel_stack_page) k = Done (r, k') ->
      kernel_step (run k allocs spare) (run k' allocs (match r with Ok stack => stack :: spare | Err _ => spare end))
  | ks_discard k allocs spare1 stack spare2 k' :
      on_world (KernelStack_drop hal_unmap_kernel_stack_page stack) k = Done (tt, k') ->
      kernel_step (run k allocs (spare1 ++ stack :: spare2)) (run k' allocs (spare1 ++ spare2))
  | ks_spawn k allocs spare1 stack spare2 process weight entry arg r k' :
      next_thread_id (k_sched k) < 2 ^ 32 - 1 -> 0 < weight < 2 ^ 32 ->
      kernel_spawn process weight stack entry arg k = Done (r, k') ->
      kernel_step (run k allocs (spare1 ++ stack :: spare2)) (run k' allocs (spare1 ++ spare2))
  | ks_interrupt k allocs spare now k' :
      is_uint 64 now -> timer_interrupt now k = Done (tt, k') ->
      kernel_step (run k allocs spare) (run k' allocs spare).

(** ** The invariant *)

(** The scheduler's state with the stacks its threads have. *)
Definition owning (g : list KernelStack) s : Prop := sched_inv s /\ owned s = g.

Lemma owning_tick g e s : is_uint 64 e -> owning g s -> wp (tick e) (fun _ => owning g) s.
Proof.
  intros He [Hinv Hg]. destruct (decide (e = 0)) as [->|Hne]; [done|]. unfold is_uint in He.
  destruct (si_current _ Hinv) as [t Ht].
  eapply wp_mono; [apply (tick_spec s t e); [done|done|lia]|]. intros r s' [_ Hk].
  split; [apply (ticked_inv s t e s'); [done|done|lia|done]|]. unfold owned. by rewrite (tk_threads _ _ _ _ Hk), owned_on_id.
Qed.
Lemma owning_preempt g s : owning g s -> wp preempt_contexts (fun _ => owning g) s.
Proof.
  intros [Hinv Hg]. destruct (need_reschedule s) eqn:Hneed.
  - destruct (si_current _ Hinv) as [t Ht]. destruct (preempt_spec s t Hinv Ht Hneed) as (b & _ & _ & Hwp).
    eapply wp_mono; [exact Hwp|]. intros r s' (Hsw & Hinv' & _). split; [done|]. unfold owned.
    rewrite (st_threads _ _ _ _ Hsw), !owned_on_id; [done| |done]. intros u. unfold demote. by case_decide.
  - unfold preempt_contexts. apply wp_bind, wp_gets. by rewrite (si_init _ Hinv), Hneed.
Qed.
Lemma owning_spawn g s process weight stack entry arg :
  owning g s -> next_thread_id s < 2 ^ 32 - 1 -> 0 < weight < 2 ^ 32 -> stack_fits stack ->
  wp (spawn trampoline process weight stack entry arg) (fun r s' =>
    match r with Ok _ => sched_inv s' /\ owned s' ≡ₚ stack :: g | Err _ => owning g s' end) s.
Proof.
  intros [Hinv Hg] Hn Hw Hfit. unfold spawn, create_thread_with_stack, stack_top.
  apply wp_bind, wp_add_uint; [exact Hfit|]. eapply wp_mono; [apply insert_thread_spec; apply Hinv|].
  assert (forall s', refused s (Some stack) s' -> owning g s') as Href.
  { intros s' Hre. split; [by eapply refused_inv|]. unfold owned. by rewrite (re_threads _ _ _ Hre). }
  intros [id|[]] s'; [|intros [Hre _]; by apply Href|intros [Hre _]; by apply Href|done].
  intros (_ & _ & t & Hnew & Hin). split; [by eapply inserted_inv|].
  rewrite (inserted_owned _ _ _ Hin), (nt_stack _ _ _ _ _ _ _ Hnew). by rewrite Hg.
Qed.

(** The memory is in order, every stack in it is spare or a thread's, and the
    clock and the interrupt controller run. *)
Record kernel_inv (info : HardwareInfo) k (allocs : list KernelAllocation) (spare : list KernelStack) : Prop := {
  kv_stacks : exists ks, kernel_memory kernel_end info k allocs ks /\ ks ≡ₚ spare ++ owned (k_sched k);
  kv_irq : irq_ok sched_inv (k_irq k);
}.
Definition running_inv info (x : Running) : Prop := kernel_inv info (r_kernel x) (r_allocs x) (r_spare x).

(** ** Every call keeps it *)

Lemma alloc_kernel info k allocs spare size alignment :
  kernel_inv info k allocs spare -> 0 <= size ->
  wp (on_heap (heap_alloc size alignment)) (fun r k' =>
    kernel_inv info k' (match r with Ok a => a :: allocs | Err _ => allocs end) spare) k.
Proof.
  intros [(ks & Hm & Hp) Hirq] Hs.
  eapply wp_mono; [apply (kernel_memory_heap kernel_end _ allocs (fun r => match r with Ok a => a :: allocs | Err _ => allocs end) ks info k Hm)|].
  - intros s0 PM A0 Hmp Hmem. by apply memory_alloc.
  - intros r k' [Hm' [h ->]]. split; [|exact Hirq]. by exists ks.
Qed.

Lemma free_kernel info k allocs1 a allocs2 spare :
  kernel_inv info k (allocs1 ++ a :: allocs2) spare ->
  wp (on_heap (KernelAllocation_drop a)) (fun _ k' => kernel_inv info k' (allocs1 ++ allocs2) spare) k.
Proof.
  intros [(ks & Hm & Hp) Hirq].
  eapply wp_mono; [apply (kernel_memory_heap kernel_end _ _ (fun _ => allocs1 ++ allocs2) ks info k Hm)|].
  - intros s0 PM A0 Hmp Hmem. by apply memory_free.
  - intros r k' [Hm' [h ->]]. split; [|exact Hirq]. by exists ks.
Qed.

Lemma stack_kernel info k allocs spare :
  kernel_inv info k allocs spare -> k_next_slot k + 1 < 2 ^ 64 ->
  wp (on_world (create_mapped hal_kernel_stack_region_base hal_map_kernel_stack_page hal_unmap_kernel_stack_page))
    (fun r k' => kernel_inv info k' allocs (match r with Ok stack => stack :: spare | Err _ => spare end)) k.
Proof.
  intros [(ks & Hm & Hp) Hirq] Hn. eapply wp_mono; [exact (stack_phase kernel_end info k allocs ks Hm Hn)|].
  intros r k' ((w & ->) & _ & Hm'). split; [|exact Hirq]. eexists. split; [exact Hm'|].
  destruct r as [stack|e]; [|done]. cbn. by constructor.
Qed.

(** A stack that leaves the spare ones leaves the memory too. *)
Lemma take_stack (ks spare1 spare2 g : list KernelStack) stack :
  ks ≡ₚ (spare1 ++ stack :: spare2) ++ g ->
  exists ks1 ks2, ks = ks1 ++ stack :: ks2 /\ ks1 ++ ks2 ≡ₚ (spare1 ++ spare2) ++ g.
Proof.
  intros Hp. assert (stack ∈ ks) as Hin by (rewrite Hp; set_solver).
  apply list_elem_of_split in Hin as (ks1 & ks2 & ->). exists ks1, ks2. split; [done|].
  apply (Permutation_cons_inv (a := stack)). rewrite Permutation_middle, Hp. solve_Permutation.
Qed.

Lemma discard_kernel info k allocs spare1 stack spare2 :
  kernel_inv info k allocs (spare1 ++ stack :: spare2) ->
  wp (on_world (KernelStack_drop hal_unmap_kernel_stack_page stack)) (fun _ k' => kernel_inv info k' allocs (spare1 ++ spare2)) k.
Proof.
  intros [(ks & Hm & Hp) Hirq]. destruct (take_stack _ _ _ _ _ Hp) as (ks1 & ks2 & -> & Hp').
  eapply wp_mono; [exact (discard_phase kernel_end info k allocs ks1 stack ks2 Hm)|].
  intros [] k' [[w ->] Hm']. split; [|exact Hirq]. by eexists.
Qed.

Lemma spawn_kernel info k allocs spare1 stack spare2 process weight entry arg :
  kernel_inv info k allocs (spare1 ++ stack :: spare2) -> next_thread_id (k_sched k) < 2 ^ 32 - 1 -> 0 < weight < 2 ^ 32 ->
  wp (kernel_spawn process weight stack entry arg) (fun _ k' => kernel_inv info k' allocs (spare1 ++ spare2)) k.
Proof.
  intros [(ks & Hm & Hp) (Hirq & Hclk & Hsch)] Hn Hw.
  assert (stack_fits stack) as Hfit by (eapply stack_in_region; [exact Hm|rewrite Hp; set_solver]).
  unfold kernel_spawn. apply wp_bind, wp_zoom.
  eapply wp_mono; [exact (owning_spawn (owned (k_sched k)) (k_sched k) process weight stack entry arg ltac:(by split) Hn Hw Hfit)|].
  intros [id|e] s' Hs'.
  - destruct Hs' as [Hinv' Hown]. apply wp_ret. split; [|split_and!; [by apply hl_irq_kernel|done|done]].
    exists ks. split; [exact Hm|]. change (ks ≡ₚ (spare1 ++ spare2) ++ owned s'). rewrite Hown, Hp. solve_Permutation.
  - destruct Hs' as [Hinv' Hown]. apply wp_bind.
    assert (kernel_inv info (set_k_sched s' k) allocs (spare1 ++ stack :: spare2)) as Hk.
    { split; [|split_and!; [by apply hl_irq_kernel|done|done]]. exists ks. split; [exact Hm|].
      change (ks ≡ₚ (spare1 ++ stack :: spare2) ++ owned s'). by rewrite Hown. }
    eapply wp_mono; [exact (discard_kernel _ _ _ _ _ _ Hk)|]. intros [] k' Hk'. by apply wp_ret.
Qed.

Lemma interrupt_kernel info k allocs spare now :
  kernel_inv info k allocs spare -> is_uint 64 now -> wp (timer_interrupt now) (fun _ k' => kernel_inv info k' allocs spare) k.
Proof.
  intros [(ks & Hm & Hp) (Hirq & Hclk & Hsch)] Hnow.
  eapply wp_mono; [apply (timer_interrupt_wp (owning (owned (k_sched k))) (owning_tick _) (owning_preempt _) now k Hnow)|].
  - by split_and!.
  - intros [] k' (i & -> & Hi & Hc & Hinv & Hown). split; [|by split_and!]. exists ks. split; [exact Hm|].
    change (ks ≡ₚ spare ++ owned (clk_sched (irq_kernel i))). by rewrite Hown.
Qed.

Lemma kernel_step_inv info x y : kernel_step x y -> running_inv info x -> running_inv info y.
Proof.
  unfold running_inv. destruct 1; cbn [r_kernel r_allocs r_spare]; intros Hinv.
  - by eapply (wp_Done _ _ _ _ _ (alloc_kernel _ _ _ _ _ _ Hinv ltac:(eassumption))).
  - by eapply (wp_Done _ _ _ _ _ (free_kernel _ _ _ _ _ _ Hinv)).
  - by eapply (wp_Done _ _ _ _ _ (stack_kernel _ _ _ _ Hinv ltac:(eassumption))).
  - by eapply (wp_Done _ _ _ _ _ (discard_kernel _ _ _ _ _ _ Hinv)).
  - by eapply (wp_Done _ _ _ _ _ (spawn_kernel _ _ _ _ _ _ _ _ _ _ Hinv ltac:(eassumption) ltac:(eassumption))).
  - by eapply (wp_Done _ _ _ _ _ (interrupt_kernel _ _ _ _ _ Hinv ltac:(eassumption))).
Qed.
Lemma kernel_steps_inv info x y : rtc kernel_step x y -> running_inv info x -> running_inv info y.
Proof. induction 1; eauto using kernel_step_inv. Qed.
End Run.
