(* ===== verification/StartupTheorems.v ===== *)
(** * What the boot guarantees

    Both architectures are instances of the interface that the boot relies on;
    the theorems on the whole boot, and on the running kernel's memory.  That its
    calls return is here for their bodies; [LockingTheorems] adds the locks. *)

From S2P Require Import Prelude Address HwInfo Pmm PmmReserved PmmFreeList PmmAlloc PmmInit PmmClients PmmTheorems.
From S2P Require Import HwInfoTheorems Clock Trap Context KernelStack PageMapper.
From S2P Require Import Kmalloc KmallocLemmas KmallocPool KmallocOps KmallocHeap KmallocUsers KmallocTheorems.
From S2P Require Import Task TaskInv TaskTheorems Console Gic Startup StartupLemmas KernelMemory StartupBoot KernelRun.
From S2P Require Arm64Mmu Arm64MmuTheorems RiscvMmu RiscvMmuWorld RiscvMmuBoot RiscvMmuTheorems.
From stdpp Require Import base tactics option list list_numbers numbers gmap strings relations.

#[local] Open Scope Z_scope.
#[local] Open Scope kernel_scope.

(** ** ARM64 *)

Section Arm64.
Context `{PageLayout} {Ctx : Type} (low_ptr high_ptr cntfrq : Z) (uart : list UartOp -> Z -> Z) (patience : nat).
Context (device : list DeviceOp -> VirtualAddress -> Z) (register : list DeviceOp -> GicRegister -> Z).

(** The UART's FIFO drains, and the interrupts that arrive are the timer's. *)
Hypothesis Hdrains : drains uart patience.
Hypothesis Htimer : forall g ops, (acknowledge_op device register g ops).2 = TIMER_PPI.

(** A controller that the driver can bring up. *)
Definition arm64_controller (c : option InterruptControllerInfo) : Prop :=
  match c with
  | Some (InfoGicV2 d (Some c)) => gic_fits (V2 (GicV2_new d c))
  | Some (InfoGicV3 d (Some r)) =>
      let g := GicV3_new d r in gic_fits (V3 g) /\
      forall ops reads, answers device (v3_redistributor g + GICR_WAKER) (v3_request device register g ops) reads ->
        length reads = Z.to_nat WAKE_RETRY_BUDGET -> ~ Forall asleep reads
  | _ => False
  end.
Definition arm64_irq (s : Irq (Clock (Scheduler Ctx))) : Prop :=
  gic_ready s = true /\ exists g, gic_slot s = Some g /\ gic_fits g.

Lemma arm64_interrupt_init info (s : Irq (Clock (Scheduler Ctx))) :
  arm64_controller (interrupt_controller (features info)) ->
  wp (gic_init device register info) (fun _ s' => arm64_irq s' /\ irq_kernel s' = irq_kernel s) s.
Proof.
  intros Hc. pose proof (gic_init_run device register info s) as Hrun. unfold arm64_controller in Hc.
  destruct (interrupt_controller (features info)) as [[d [c|]|d [r|]]|]; try done.
  - eapply wp_run; [exact (Hrun Hc)|]. split; [|done]. split; [done|]. by eexists.
  - destruct Hc as [Hfit Hwake]. destruct (Hrun Hfit) as (reads & Ha & [(Hlen & Hall & _)|(v & rest & _ & _ & _ & _ & Hr)]).
    + by destruct (Hwake _ _ Ha Hlen).
    + eapply wp_run; [exact Hr|]. split; [|done]. split; [done|]. by eexists.
Qed.

Lemma arm64_enable (s : Irq (Clock (Scheduler Ctx))) :
  arm64_irq s -> wp (arm64_timer_enable device ;;; ret (Ok tt : Result unit TimerError)) (fun r s' =>
    r = Ok tt /\ arm64_irq s' /\ irq_kernel s' = irq_kernel s) s.
Proof.
  intros (Hr & g & Hs & Hf). destruct s as [rd sl ops k]. cbn in Hr, Hs. subst rd sl.
  assert (exists ops', Gic_enable_timer_interrupt device g {| gic_ready := true; gic_slot := Some g; gic_ops := ops; irq_kernel := k |} =
    Done (tt, {| gic_ready := true; gic_slot := Some g; gic_ops := ops'; irq_kernel := k |})) as [ops' Hrun].
  { destruct g as [g|g]; destruct Hf as (H1 & H2 & H3 & H4); cbn [Gic_enable_timer_interrupt];
      unfold GicV2_enable_timer_interrupt, GicV3_enable_timer_interrupt, bind; eexists.
    - rewrite write8_at_run, write32_at_run by (revert H2; change (GICD_INTERRUPT_PRIORITY + TIMER_PPI) with 0x41e; change GICD_INTERRUPT_SET_ENABLE with 0x100; lia). reflexivity.
    - rewrite register_at_run by (change GICR_SGI_BASE with 0x10000; lia). change GICR_SGI_BASE with 0x10000.
      rewrite read32_at_run, write32_at_run, write8_at_run, write32_at_run
        by (change (GICR_INTERRUPT_PRIORITY + TIMER_PPI) with 0x41e; change GICR_INTERRUPT_SET_ENABLE with 0x100;
            change GICR_IGROUPR0 with 0x80; lia). reflexivity. }
  apply wp_bind. unfold arm64_timer_enable, enable_timer_interrupt, with_gic. apply wp_bind, wp_bind, wp_bind, wp_gets.
  cbn [gic_ready negb]. apply wp_bind, wp_gets. cbn [gic_slot]. apply wp_bind. eapply wp_run; [exact Hrun|].
  apply wp_ret, wp_ret, wp_bind, wp_modify, wp_modify, wp_ret. split_and!; [done| |done]. split; [done|]. by exists g.
Qed.

Lemma arm64_timer (handler : M (Clock (Scheduler Ctx)) unit) s k :
  arm64_irq s -> handler (irq_kernel s) = Done (tt, k) ->
  wp (arm64_handle_timer_interrupt device register handler None) (fun handled s' =>
    handled = true /\ arm64_irq s' /\ irq_kernel s' = k) s.
Proof.
  intros (Hr & g & Hs & Hf) Hk. pose proof (interrupt_run device register handler None g s Hr Hs Hf) as Hrun.
  pose proof (Htimer g (gic_ops s)) as Ht. destruct (acknowledge_op device register g (gic_ops s)) as [ack intid]. cbn in Ht. subst intid.
  rewrite Z.eqb_refl, Hk in Hrun. eapply wp_run; [exact Hrun|]. split_and!; [done| |done]. split; [done|]. by exists g.
Qed.

Lemma arm64_maps_dtb dtb m0 :
  let HAL := arm64_hal (Ctx:=Ctx) low_ptr high_ptr cntfrq uart patience device register in
  length (Arm64Mmu.low_table m0) = 512%nat -> length (Arm64Mmu.high_table m0) = 512%nat ->
  0 <= dtb -> dtb + DEVICE_TREE_BLOB_MAX_SIZE <= 2 ^ 39 -> wp (hal_mmu_init dtb) (fun _ m1 => maps_dtb dtb m1) m0.
Proof.
  intros HAL Hl Hh H0 Hd. eapply wp_mono; [exact (Arm64MmuTheorems.arm64_init_maps_dtb m0 low_ptr high_ptr dtb Hl Hh H0 Hd)|].
  intros [] m1 (Hctl & Ht1 & Hmap) Hnz pa Hpa. cbn. unfold arm64_walk. rewrite Hctl. cbn [negb].
  assert (Arm64Mmu.physical_to_virtual pa = pa + Arm64Mmu.KERNEL_VIRTUAL_BASE) as Hva
    by (unfold Arm64Mmu.physical_to_virtual, wrapping_add, Arm64Mmu.KERNEL_VIRTUAL_BASE; rewrite Z.mod_small; lia).
  rewrite (proj2 (Z.ltb_ge _ _)) by (rewrite Hva; unfold Arm64Mmu.KERNEL_VIRTUAL_BASE; lia).
  by rewrite Ht1, Z.eqb_refl, (Hmap Hnz pa Hpa).
Qed.

Lemma arm64_mmu dtb ke m0 :
  let HAL := arm64_hal (Ctx:=Ctx) low_ptr high_ptr cntfrq uart patience device register in
  length (Arm64Mmu.low_table m0) = 512%nat /\ length (Arm64Mmu.high_table m0) = 512%nat /\ Arm64Mmu.tables m0 = ∅ ->
  0 <= dtb -> dtb + DEVICE_TREE_BLOB_MAX_SIZE <= 511 * Arm64Mmu.BLOCK_1G ->
  wp (hal_mmu_init dtb) (fun _ m1 => maps_dtb dtb m1 /\ forall info, boot_ok info hal_KERNEL_PHYSICAL_LOAD ke ->
    (forall r, r ∈ memory_regions info -> region_base r + region_size r <= 511 * Arm64Mmu.BLOCK_1G) ->
    wp (hal_expand_physmap (max_memory_end info)) (fun _ m2 =>
      wp hal_remove_identity_mapping (fun _ m3 => tables_ready info ke m3) m2) m1) m0.
Proof.
  intros HAL (Hl & Hh & Ht) H0 Hd. change Arm64Mmu.BLOCK_1G with 1073741824 in *.
  apply wp_and; [by apply arm64_maps_dtb; [..|lia]|]. apply (wp_all (I:=HardwareInfo)). intros info.
  destruct (proj1 (wp_unfold _ _ _) (Arm64MmuTheorems.boot_mmu_wp m0 low_ptr high_ptr dtb info Hl Hh H0 ltac:(lia)))
    as ([] & m3 & Hrun & _). pose proof Hrun as Hboot.
  apply bind_Done in Hrun as ([] & m1 & Hrun1 & Hrun). apply bind_Done in Hrun as ([] & m2 & Hrun2 & Hrun3).
  eapply wp_run; [exact Hrun1|]. intros Hok Hmem. eapply wp_run; [exact Hrun2|]. eapply wp_run; [exact Hrun3|].
  intros s s0 Hinit.
  assert (Arm64MmuTheorems.arm64_booted info hal_KERNEL_PHYSICAL_LOAD ke dtb {| w_pmm := s0; w_next_slot := 0; w_mmu := m3 |}) as Hb.
  { split; [done|exact Hmem|done| |by exists s|done]. by exists low_ptr, high_ptr, m0. }
  destruct (Arm64MmuTheorems.booted_small _ _ _ _ _ Hb) as [_ Hworld].
  exists (Arm64MmuTheorems.arm64_mapper s0 (proj1 (Arm64MmuTheorems.booted_small _ _ _ _ _ Hb))). split_and!.
  - exact (Arm64MmuTheorems.arm64_stack_region _ _ _ _ _ Hb).
  - exact Hworld.
  - intros va Hva. exact (Arm64MmuTheorems.arm64_region_vacant _ _ _ _ _ va Hb Hva).
Qed.

(** The ARM64 kernel keeps what the portable code relies on. *)
#[refine] Definition arm64_laws : @HalLaws Arm64Mmu.Mmu Uart Ctx
    (arm64_hal low_ptr high_ptr cntfrq uart patience device register) _ := {|
  hl_console := (pl011_laws uart patience Hdrains :
    @ConsoleLaws Uart (@hal_console _ _ _ (arm64_hal (Ctx:=Ctx) low_ptr high_ptr cntfrq uart patience device register)));
  hl_base := Arm64Mmu.KERNEL_VIRTUAL_BASE;
  hl_limit := 511 * Arm64Mmu.BLOCK_1G;
  hl_reset m := length (Arm64Mmu.low_table m) = 512%nat /\ length (Arm64Mmu.high_table m) = 512%nat /\ Arm64Mmu.tables m = ∅;
  hl_image _ := True;
  hl_controller := arm64_controller;
  hl_irq := arm64_irq;
|}.
Proof.
  - split_and!; [done|done|done|]. vm_compute. discriminate.
  - done.
  - done.
  - split; [vm_compute; discriminate|done].
  - intros dtb ke m0 Hreset _ H0 Hd. exact (arm64_mmu dtb ke m0 Hreset H0 Hd).
  - intros c Hc. eapply wp_mono; [exact (arm64_post_mmu_init_ready c Hc)|]. by intros [] c' (? & _ & ?).
  - exact arm64_interrupt_init.
  - exact arm64_enable.
  - exact arm64_timer.
  - done.
  - done.
Defined.
End Arm64.

(** ** RISC-V *)

Section Riscv64.
Context `{PageLayout} `{SbiFirmware} {Ctx : Type} (st : RiscvMmu.Statics).

(** The firmware accepts every deadline. *)
Hypothesis Hsbi : forall d, riscv64_set_deadline d = Ok tt.

Lemma riscv_maps_dtb dtb m0 :
  let HAL := riscv_hal (Ctx:=Ctx) st in
  RiscvMmuBoot.statics_ok st -> RiscvMmuBoot.statics_present st m0 ->
  0 <= dtb -> dtb + DEVICE_TREE_BLOB_MAX_SIZE <= 2 ^ 39 -> wp (hal_mmu_init dtb) (fun _ m1 => maps_dtb dtb m1) m0.
Proof.
  intros HAL Hst Hp H0' Hd. eapply wp_mono; [exact (RiscvMmuTheorems.riscv_init_maps_dtb st m0 dtb Hst Hp H0' Hd)|].
  intros [] m1 (Hsatp & Hmap) Hnz pa Hpa. cbn. unfold riscv_walk. rewrite Hsatp, Z.eqb_refl, (Hmap Hnz pa Hpa).
  destruct (Z.eqb_spec (RiscvMmu.sv48 (RiscvMmu.static_physical_address (RiscvMmu.ROOT_TABLE st)) 0) 0) as [Hz|]; [|done].
  apply Z.lor_eq_0_iff in Hz as [Hz _]. by vm_compute in Hz.
Qed.

Lemma riscv_mmu dtb ke m0 :
  let HAL := riscv_hal (Ctx:=Ctx) st in
  RiscvMmuTheorems.statics_only st m0 ->
  RiscvMmuBoot.statics_ok st /\ Forall (fun p => RiscvMmu.KERNEL_PHYSICAL_LOAD <= p < ke) (RiscvMmuWorld.statics st) ->
  0 <= dtb -> dtb + DEVICE_TREE_BLOB_MAX_SIZE <= 511 * RiscvMmu.GIGAPAGE ->
  wp (hal_mmu_init dtb) (fun _ m1 => maps_dtb dtb m1 /\ forall info, boot_ok info hal_KERNEL_PHYSICAL_LOAD ke ->
    (forall r, r ∈ memory_regions info -> region_base r + region_size r <= 511 * RiscvMmu.GIGAPAGE) ->
    wp (hal_expand_physmap (max_memory_end info)) (fun _ m2 =>
      wp hal_remove_identity_mapping (fun _ m3 => tables_ready info ke m3) m2) m1) m0.
Proof.
  intros HAL Honly Hst H0' Hd. change RiscvMmu.GIGAPAGE with 1073741824 in *.
  apply wp_and; [by apply riscv_maps_dtb; [apply Hst|apply Honly|..|lia]|]. apply (wp_all (I:=HardwareInfo)). intros info.
  destruct (proj1 (wp_unfold _ _ _) (RiscvMmuTheorems.riscv_boot_mmu_wp st m0 dtb info (proj1 Hst) (proj1 Honly) H0' ltac:(lia)))
    as ([] & m3 & Hrun & _). pose proof Hrun as Hboot.
  apply bind_Done in Hrun as ([] & m1 & Hrun1 & Hrun). apply bind_Done in Hrun as ([] & m2 & Hrun2 & Hrun3).
  eapply wp_run; [exact Hrun1|]. intros Hok Hmem. eapply wp_run; [exact Hrun2|]. eapply wp_run; [exact Hrun3|].
  intros s s0 Hinit.
  assert (RiscvMmuTheorems.riscv_booted st info hal_KERNEL_PHYSICAL_LOAD ke dtb {| w_pmm := s0; w_next_slot := 0; w_mmu := m3 |}) as Hb.
  { split; [done|exact Hmem|done|exact Hst| |by exists s|done]. by exists m0. }
  destruct (RiscvMmuTheorems.riscv_booted_ok _ _ _ _ _ _ Hb) as [_ Hworld].
  exists (RiscvMmuTheorems.riscv_mapper s0 st (proj1 (RiscvMmuTheorems.riscv_booted_ok _ _ _ _ _ _ Hb))). split_and!.
  - exact (RiscvMmuTheorems.riscv_stack_region _ _ _ _ _ _ Hb).
  - exact Hworld.
  - intros va Hva. exact (RiscvMmuTheorems.riscv_region_vacant _ _ _ _ _ _ va Hb Hva).
Qed.

(** The RISC-V kernel keeps what the portable code relies on. *)
#[refine] Definition riscv_laws : @HalLaws RiscvMmu.Mmu (list Ecall) Ctx (riscv_hal st) _ := {|
  hl_console := (sbi_laws : @ConsoleLaws (list Ecall) (@hal_console _ _ _ (riscv_hal (Ctx:=Ctx) st)));
  hl_base := RiscvMmu.KERNEL_VIRTUAL_BASE;
  hl_limit := 511 * RiscvMmu.GIGAPAGE;
  hl_reset := RiscvMmuTheorems.statics_only st;
  hl_image ke := RiscvMmuBoot.statics_ok st /\ Forall (fun p => RiscvMmu.KERNEL_PHYSICAL_LOAD <= p < ke) (RiscvMmuWorld.statics st);
  hl_controller _ := True;
  hl_irq _ := True;
|}.
Proof.
  - split_and!; [done|done|done|]. vm_compute. discriminate.
  - done.
  - done.
  - split; [vm_compute; discriminate|done].
  - exact riscv_mmu.
  - intros c Hc. by apply wp_ret.
  - intros info s _. by apply wp_ret.
  - intros s _. apply wp_bind, wp_modify, wp_bind, wp_modify, wp_ret. done.
  - intros handler s k _ Hk. unfold wp. cbn. unfold riscv_handle_timer_interrupt, run_timer_irq, bind, ret. rewrite Hk. done.
  - done.
  - exact Hsbi.
Defined.
End Riscv64.

(** ** Every architecture *)

Section Kernel.
Context {Mmu Con Ctx : Type} `{HL : HalLaws Mmu Con Ctx} `{ContextOps Ctx} `{FunctionAddresses}.
Context `{FdtParser} (memory : PhysicalAddress -> option Z) (new_unaligned : list Z -> option Fdt).
Context (vectors idle_thread trampoline kernel_end : Z).
Implicit Types k : Kernel Mmu Con Ctx.
Abbreviation boot := (boot memory new_unaligned vectors idle_thread trampoline kernel_end).
Abbreviation machine_ok := (machine_ok memory new_unaligned kernel_end).


Lemma booted_inv info k switch : booted idle_thread trampoline kernel_end info k switch -> kernel_inv kernel_end info k [] [].
Proof.
  intros [(stack & j & t & Hm & (Hirq & Hclk & Hal) & _) _]. split; [|split_and!; [done|done|apply Hal]].
  exists [stack]. split; [done|]. destruct Hal as [_ _ (u & Hl & _ & Hu & _)]. unfold owned, k_sched, k_clock. rewrite Hl. cbn. by rewrite Hu.
Qed.

Lemma quiet_not_ok k : halted_quietly k -> ~ exists a b, console_sent (k_console k) = a ++ str_bytes "[BOOT:OK]" ++ b.
Proof.
  intros (T & [_ Hs] & Hq) (a & b & Heq). apply (quiet_wire (T ++ [10])); [quiet_tac|]. rewrite <-Hs, Heq.
  apply elem_of_app. right. apply elem_of_app. left. apply (bool_decide_unpack _). vm_compute. exact I.
Qed.

(** (C1) The boot returns on every supported machine, from the first byte it
    prints to the switch to the idle thread: it panics nowhere, every byte of the
    device tree that it reads through the page tables of [mmu::init] is mapped to
    the byte of physical memory it stands for, and no loop runs forever.  Either
    every stage succeeded: the console got exactly the boot log, ending in
    [BOOT:OK]; the heap, the stacks, the page tables, the scheduler, the clock
    and the interrupt controller are in their invariants; and the boot thread
    switches to a thread whose context starts the idle function on a mapped
    stack.  Or a stage failed, the CPU halts, and the console never got
    [BOOT:OK].  Supported is [machine_ok]: among others there is memory in the
    megabyte from the device tree on, inside the physmap's reach, and the [fdt]
    crate does not panic on the tree it parses there. *)
Theorem kernel_boots k dtb now arrivals :
  machine_ok k dtb arrivals -> 0 <= now ->
  exists r k', boot dtb now arrivals k = Done (r, k') /\
  match r with
  | Ok switch => exists info stack j t arenas pages, describes memory new_unaligned dtb info /\
      console_sent (k_console k') = on_wire (boot_text info arenas pages) /\
      kernel_inv kernel_end info k' [] [] /\
      switch = {| old := BootContext; new := ThreadContext j |} /\ threads (k_sched k') !! j = Some (Some t) /\
      t_stack t = Some stack /\ t_context t = idle_context idle_thread trampoline stack
  | Err _ => ~ exists a b, console_sent (k_console k') = a ++ str_bytes "[BOOT:OK]" ++ b
  end.
Proof.
  intros Hmo Hnow.
  pose proof (boot_run memory new_unaligned vectors idle_thread trampoline kernel_end k dtb now arrivals Hmo Hnow) as Hwp.
  apply wp_unfold in Hwp as (r & k' & Hrun & Hr). exists r, k'. split; [done|]. destruct r as [switch|[]]; [|by apply quiet_not_ok].
  destruct Hr as (info & Hread & Hb). pose proof (booted_inv info k' switch Hb) as Hinv.
  destruct Hb as [(stack & j & t & Hm & _ & Hsw & Hj & Hst & Hctx) (na & np & [_ Hsent] & _)].
  exists info, stack, j, t, na, np. by split_and!.
Qed.

(** The states of a kernel that booted. *)
Definition reached k0 dtb now arrivals (x : Running) : Prop :=
  exists switch k1, boot dtb now arrivals k0 = Done (Ok switch, k1) /\
  rtc (kernel_step trampoline) {| r_kernel := k1; r_allocs := []; r_spare := [] |} x.

Lemma reached_kernel_inv k0 dtb now arrivals x :
  machine_ok k0 dtb arrivals -> 0 <= now -> reached k0 dtb now arrivals x ->
  exists info, describes memory new_unaligned dtb info /\ running_inv kernel_end info x.
Proof.
  intros Hmo Hnow (switch & k1 & Hrun & Hsteps).
  pose proof (boot_run memory new_unaligned vectors idle_thread trampoline kernel_end k0 dtb now arrivals Hmo Hnow) as Hwp.
  destruct (wp_Done _ _ _ _ _ Hwp Hrun) as (info & Hread & Hb). exists info. split; [done|].
  eapply kernel_steps_inv; [exact Hsteps|]. exact (booted_inv info k1 switch Hb).
Qed.

(** The mapping to the physmap is linear within a page. *)
Lemma physmap_linear regs s0 l phys off :
  PmmInit.ready hl_base regs s0 l -> mappers_ok s0 hal_mappers -> managed s0 phys -> 0 <= off < PAGE_SIZE ->
  hal_virtual_to_physical (hal_physical_to_virtual phys + off) = phys + off.
Proof.
  intros Hready Hmp Hm Hoff. destruct (Hmp phys Hm) as [Hround _]. cbn in Hround. rewrite hl_v2p in *. unfold wrapping_sub in *.
  destruct (managed_in_region _ _ _ _ _ Hready Hm) as (_ & _ & Hal & Hpos & _).
  replace (hal_physical_to_virtual phys + off - hl_base) with (hal_physical_to_virtual phys - hl_base + off) by lia.
  rewrite <-Zplus_mod_idemp_l, Hround. apply Z.mod_small.
  pose proof (Z.mod_pos_bound (hal_physical_to_virtual phys - hl_base) (2 ^ 64) ltac:(lia)). unfold PAGE_SIZE in *.
  assert (phys + 4096 <= 2 ^ 64); [|lia]. divlia.
Qed.

(** (C2) Whatever heap calls, stack creations and drops, thread creations and
    timer interrupts follow the boot, every physical byte of a heap block and of
    a kernel stack lies in the machine's memory and outside the kernel image,
    the device tree and the firmware regions, and no byte belongs to both a heap
    block and a stack. *)
Theorem kernel_memory_separated k0 dtb now arrivals x info p :
  machine_ok k0 dtb arrivals -> 0 <= now -> reached k0 dtb now arrivals x -> describes memory new_unaligned dtb info ->
  let stacks := r_spare x ++ owned (k_sched (r_kernel x)) in
  let heap := heap_byte hal_virtual_to_physical (r_allocs x) p in
  let stack := stack_byte (k_pmm (r_kernel x)) stacks p in
  (heap \/ stack -> ~ must_reserve info hal_KERNEL_PHYSICAL_LOAD (hal_virtual_to_physical kernel_end) p /\
    exists r, r ∈ memory_regions info /\ region_base r <= p < region_base r + region_size r) /\
  ~ (heap /\ stack).
Proof.
  intros Hmo Hnow Hreach Hread stacks heap stack. destruct (reached_kernel_inv _ _ _ _ _ Hmo Hnow Hreach) as (info' & Hread' & Hinv).
  pose proof (describes_unique _ _ _ _ _ Hread Hread') as <-.
  destruct Hinv as [(ks & (s0 & PM & l & A0 & Hready & Hres & Hreg & Hmp & Hm) & Hp) _].
  assert (forall q, stack_byte (k_pmm (r_kernel x)) stacks q <-> stack_byte (k_pmm (r_kernel x)) ks q) as Hks.
  { intros q. unfold stack_byte. setoid_rewrite Hp. done. }
  assert (forall phys off, managed s0 phys -> 0 <= off < PAGE_SIZE ->
    hal_virtual_to_physical (hal_physical_to_virtual phys + off) = phys + off) as Hlin.
  { intros phys off. by eapply physmap_linear. }
  destruct (memory_apart s0 PM _ Hreg hal_mappers Hmp A0 _ _ _ _ p Hm Hlin) as [Huse Hnot].
  subst heap stack. rewrite Hks. split; [|exact Hnot]. intros Hb.
  destruct (Huse Hb) as (os & l' & ph & Hci & Hph & Hbyte).
  destruct (held_usable _ _ _ _ _ _ _ _ _ _ Hready Hres Hci Hph) as (_ & _ & Hno & r & Hr & Hin). split; [by apply Hno|].
  exists r. split; [done|]. by apply Hin.
Qed.

(** A call returns. *)
Definition returns {S A} (m : M S A) (s : S) : Prop := exists a s', m s = Done (a, s').
Lemma wp_returns {S A} (m : M S A) Q s : wp m Q s -> returns m s.
Proof. intros (a & s' & Hrun & _)%wp_unfold. by exists a, s'. Qed.

(** The bodies of the calls on a booted kernel, inside their locks, return. *)
Lemma kernel_bodies_return k0 dtb now arrivals k allocs spare :
  machine_ok k0 dtb arrivals -> 0 <= now ->
  reached k0 dtb now arrivals {| r_kernel := k; r_allocs := allocs; r_spare := spare |} ->
  (forall size alignment, 0 <= size -> returns (on_heap (heap_alloc size alignment)) k) /\
  (forall a, a ∈ allocs -> returns (on_heap (KernelAllocation_drop a)) k) /\
  (k_next_slot k + 1 < 2 ^ 64 -> returns (on_world (create_mapped hal_kernel_stack_region_base
    hal_map_kernel_stack_page hal_unmap_kernel_stack_page)) k) /\
  (forall stack, stack ∈ spare -> returns (on_world (KernelStack_drop hal_unmap_kernel_stack_page stack)) k) /\
  (forall stack process weight entry arg, stack ∈ spare -> next_thread_id (k_sched k) < 2 ^ 32 - 1 -> 0 < weight < 2 ^ 32 ->
    returns (kernel_spawn trampoline process weight stack entry arg) k) /\
  (forall t, is_uint 64 t -> returns (timer_interrupt t) k).
Proof.
  intros Hmo Hnow Hreach. destruct (reached_kernel_inv _ _ _ _ _ Hmo Hnow Hreach) as (info & _ & Hinv).
  unfold running_inv in Hinv. cbn in Hinv. split_and!.
  - intros size alignment Hs. eapply wp_returns. by apply (alloc_kernel kernel_end info k allocs spare).
  - intros a (a1 & a2 & ->)%list_elem_of_split. eapply wp_returns, (free_kernel kernel_end info k a1 a a2 spare Hinv).
  - intros Hn. by eapply wp_returns, (stack_kernel kernel_end info k allocs spare).
  - intros stack (s1 & s2 & ->)%list_elem_of_split. eapply wp_returns, (discard_kernel kernel_end info k allocs s1 stack s2 Hinv).
  - intros stack process weight entry arg (s1 & s2 & ->)%list_elem_of_split Hn Hw.
    by eapply wp_returns, (spawn_kernel trampoline kernel_end info k allocs s1 stack s2).
  - intros t Ht. by eapply wp_returns, (interrupt_kernel kernel_end info k allocs spare).
Qed.
End Kernel.

(** ** A RISC-V machine that boots *)

#[local] Existing Instance small_layout.
#[local] Existing Instance demo_addresses.
#[local] Instance DemoTree : FdtParser := {|
  Fdt := unit;
  Node := nat;
  fdt_total_size _ := 40;
  fdt_memory_reserve_map_offset _ := 24;
  fdt_find_node _ path :=
    Ok (if String.eqb path "/memory" then Some 0%nat else if String.eqb path "/cpus" then Some 1%nat else None);
  fdt_all_compatible _ _ := [];
  node_children node := if (node =? 1)%nat then [Ok 2%nat] else [];
  node_name node := Ok (if (node =? 2)%nat then "cpu" else "cpus");
  node_reg node := Ok (if (node =? 0)%nat then Some [Some (0x88000000, 0x20000)] else None);
  node_raw_property _ property := Ok (if String.eqb property "timebase-frequency" then Some [0; 0x98; 0x96; 0x80] else None);
|}.
#[local] Instance demo_sbi : SbiFirmware := {| ecall _ _ _ _ _ := (0, 0) |}.
#[local] Instance demo_hal : Hal RiscvMmu.Mmu (list Ecall) Riscv64.Riscv64Context := riscv_hal RiscvMmuTheorems.small_statics.
#[local] Instance demo_laws : HalLaws RiscvMmu.Mmu (list Ecall) Riscv64.Riscv64Context :=
  riscv_laws RiscvMmuTheorems.small_statics (fun _ => eq_refl).

Definition demo_dtb : PhysicalAddress := 0x8c000000.
Definition demo_memory (a : PhysicalAddress) : option Z :=
  Some (default 0 ([0xd0; 0x0d; 0xfe; 0xed; 0; 0; 0; 40] !! Z.to_nat (a - demo_dtb))).
Definition demo_parse (blob : list Z) : option Fdt := Some (tt : Fdt).
Definition demo_kernel : Kernel RiscvMmu.Mmu (list Ecall) Riscv64.Riscv64Context := {|
  k_heap := {| kmalloc := Kmalloc_empty;
    heap_mem := {| m_pmm := Pmm_empty ∅; m_words := ∅; m_headers := ∅; m_bytes := fun _ => 0; m_mappers := Mappers_identity |} |};
  k_next_slot := 0; k_mmu := RiscvMmuTheorems.riscv_reset_mmu;
  k_irq := {| gic_ready := false; gic_slot := None; gic_ops := []; irq_kernel := Clock_new (Scheduler_new 8 4 []) |};
  k_frequency := 0; k_vector := None; k_console := [] |}.
Definition demo_end : VirtualAddress := RiscvMmu.physical_to_virtual 0x80210000.
Definition demo_entry : VirtualAddress := RiscvMmu.physical_to_virtual 0x80200900.
Definition demo_trampoline : VirtualAddress := RiscvMmu.physical_to_virtual 0x80200a00.
(** The first timer interrupt comes after one look at the tick count. *)
Definition demo_arrivals : list (option Z) := [None; Some 200000].

Lemma demo_machine : machine_ok demo_memory demo_parse demo_end demo_kernel demo_dtb demo_arrivals.
Proof.
  split.
  - split; [constructor|reflexivity].
  - exact RiscvMmuTheorems.small_statics_only.
  - split; [exact RiscvMmuTheorems.small_statics_ok|]. repeat constructor; vm_compute; (discriminate || reflexivity).
  - split; vm_compute; discriminate.
  - intros a _. eexists. split; [reflexivity|]. generalize (Z.to_nat (a - demo_dtb)) as n. intros n.
    do 8 (destruct n as [|n]; [by split|]). by split.
  - intros blob fdt _ _. split.
    + intros msg [path Hr|names Hr|node _ Hr|node _ Hr|node _ Hr|node name _ Hr]; try done; [by apply elem_of_nil in Hr|].
      cbn in Hr. destruct (_ =? _)%nat; [by apply list_elem_of_singleton in Hr|by apply elem_of_nil in Hr].
    + split; [by split|by split|]. intros node reg. unfold node_reg, DemoTree. destruct (_ =? _)%nat; [|done]. intros [= <-].
      repeat constructor; vm_compute; (discriminate || reflexivity).
    + by split.
    + intros r Hr. vm_compute in Hr. apply list_elem_of_singleton in Hr as ->. vm_compute. discriminate.
    + done.
  - reflexivity.
  - reflexivity.
  - exists 8%nat, 4%nat. split_and!; [reflexivity|lia|reflexivity|lia].
  - reflexivity.
  - repeat constructor; vm_compute; (discriminate || reflexivity).
Qed.

Lemma Done_inj {S A} (a b : A) (s t : S) : Done (a, s) = Done (b, t) -> b = a /\ t = s.
Proof. by intros [= -> ->]. Qed.
Abbreviation demo_boot := (boot demo_memory demo_parse 0x80200800 demo_entry demo_trampoline demo_end demo_dtb 1000 demo_arrivals).
Definition demo_switch : ContextPair := {| old := BootContext; new := ThreadContext 0 |}.
Lemma demo_boots : result demo_boot demo_kernel = Some (Ok demo_switch).
Proof. vm_compute. reflexivity. Qed.
Definition demo_booted : Kernel RiscvMmu.Mmu (list Ecall) Riscv64.Riscv64Context := after demo_boot demo_kernel.


Lemma kernel_boots_witness :
  demo_boot demo_kernel = Done (Ok demo_switch, demo_booted) /\
  exists info, kernel_inv demo_end info demo_booted [] [] /\
    exists log, console_sent (k_console demo_booted) = log ++ on_wire (str_bytes ("[BOOT:OK]" ++ newline)).
Proof.
  pose proof (result_after _ _ _ demo_boots : _ = Done (Ok demo_switch, demo_booted)) as Hrun. split; [exact Hrun|].
  destruct (kernel_boots demo_memory demo_parse 0x80200800 demo_entry demo_trampoline demo_end demo_kernel demo_dtb 1000 demo_arrivals
    demo_machine ltac:(lia)) as (r & k' & Hrun' & Hr).
  rewrite Hrun in Hrun'. apply Done_inj in Hrun' as [-> ->].
  destruct Hr as (info & stack & j & t & arenas & pages & _ & Hsent & Hinv & _). exists info. split; [exact Hinv|].
  eexists. etransitivity; [exact Hsent|]. unfold boot_text. rewrite on_wire_app. reflexivity.
Defined.


(** The kernel after a heap allocation and the creation of a stack. *)
Abbreviation demo_alloc := (on_heap (Mmu:=RiscvMmu.Mmu) (Con:=list Ecall) (Ctx:=Riscv64.Riscv64Context) (heap_alloc 100 (Some 8))).
Abbreviation demo_create := (on_world (Con:=list Ecall) (Ctx:=Riscv64.Riscv64Context)
  (create_mapped hal_kernel_stack_region_base hal_map_kernel_stack_page hal_unmap_kernel_stack_page)).
Definition demo_kernel1 := after demo_alloc demo_booted.
Definition demo_kernel2 := after demo_create demo_kernel1.
Definition demo_block : KernelAllocation :=
  match result demo_alloc demo_booted with Some (Ok a) => a | _ => {| allocation_ptr := 0; allocation_size := 0 |} end.
Definition demo_stack : KernelStack :=
  match result demo_create demo_kernel1 with Some (Ok stack) => stack | _ => RiscvMmuTheorems.small_riscv_stack end.
Definition demo_spare : list KernelStack := [demo_stack].
Definition demo_state : Running (Mmu:=RiscvMmu.Mmu) (Con:=list Ecall) (Ctx:=Riscv64.Riscv64Context) :=
  {| r_kernel := demo_kernel2; r_allocs := [demo_block]; r_spare := demo_spare |}.
Lemma demo_alloc_run : demo_alloc demo_booted = Done (Ok demo_block, demo_kernel1).
Proof. apply (result_after demo_alloc). vm_compute. reflexivity. Qed.
Lemma demo_create_run : demo_create demo_kernel1 = Done (Ok demo_stack, demo_kernel2).
Proof. apply (result_after demo_create). vm_compute. reflexivity. Qed.
#[local] Opaque demo_booted demo_kernel1 demo_kernel2 demo_block demo_stack.

Lemma demo_kernel_reached :
  reached demo_memory demo_parse 0x80200800 demo_entry demo_trampoline demo_end demo_kernel demo_dtb 1000 demo_arrivals demo_state.
Proof.
  exists demo_switch, demo_booted. split; [exact (result_after _ _ _ demo_boots)|].
  eapply rtc_l.
  { refine (ks_alloc _ demo_booted [] [] 100 (Some 8) (Ok demo_block) demo_kernel1 _ demo_alloc_run). discriminate. }
  apply rtc_once. refine (ks_stack _ demo_kernel1 [demo_block] [] (Ok demo_stack) demo_kernel2 _ demo_create_run).
  vm_compute. reflexivity.
Qed.

Lemma kernel_memory_separated_witness :
  exists info, describes demo_memory demo_parse demo_dtb info /\ forall p,
    ~ (heap_byte RiscvMmu.virtual_to_physical [demo_block] p /\
       stack_byte (k_pmm demo_kernel2) (demo_spare ++ owned (k_sched demo_kernel2)) p).
Proof.
  assert (exists info, describes demo_memory demo_parse demo_dtb info) as [info Hread].
  { do 4 eexists. split_and!; [vm_compute; reflexivity..]. }
  exists info. split; [exact Hread|]. intros p.
  apply (kernel_memory_separated demo_memory demo_parse 0x80200800 demo_entry demo_trampoline demo_end demo_kernel demo_dtb 1000
    demo_arrivals demo_state info p demo_machine ltac:(lia) demo_kernel_reached Hread).
Defined.
