(* ===== verification/LockingTheorems.v ===== *)
(** * What the locks guarantee

    The calls of the page allocator's clients under [PMM_LOCK], and the calls and
    interrupts of a booted kernel under the locks of the heap and the scheduler,
    return for as long as the locks' tickets last; the calls and interrupts of
    one CPU under [SCHEDULER_LOCK] behave as if they ran one at a time; and a
    kernel that booted stops when the tickets run out. *)

From S2P Require Import Prelude Address HwInfo Pmm Sync Clock Trap Context KernelStack Kmalloc Task TaskInv Gic Startup Locking.
From S2P Require Import PmmInit PmmClients PmmTheorems KmallocTheorems StartupLemmas KernelMemory StartupBoot KernelRun StartupTheorems.
From stdpp Require Import base tactics option list list_numbers numbers gmap strings relations.

#[local] Open Scope Z_scope.
#[local] Open Scope kernel_scope.

(** ** Calls under a guard *)

(** The heap's public functions take the lock once per method call. *)
Lemma sim_locked_boot_probe `{PageLayout} `{FunctionAddresses} fuel :
  sim guarded 1 2 (locked_boot_probe fuel) boot_probe.
Proof.
  assert (forall S A (a : A), sim (@guarded S) 0 1 (ret a) (ret a)) as Hret
    by (intros; eapply sim_mono; [| |apply sim_ret]; lia).
  unfold locked_boot_probe, boot_probe, locked_alloc, heap_alloc, locked_alloc_raw.
  change 2 with (1 + 1). apply sim_first; [lia|lia| |].
  - apply sim_last; [lia|apply sim_with_guard|]. intros [ptr|e]; apply sim_ret.
  - intros [a|e]; [|apply Hret]. apply sim_last; [lia| |intros; apply sim_ret].
    apply sim_ignore; [lia|]. eapply sim_mono; [| |apply sim_with_guard]; lia.
Qed.

(** ** Clients of the page allocator, under [PMM_LOCK] *)
Section LockedClients.
Context `{PageLayout} (fuel : nat).
Implicit Types (g : Guarded Pmm) (s : Pmm) (os : list holding).

Lemma sim_one {A} (m' : M (Guarded Pmm) A) m : sim guarded 1 1 m' m -> sim guarded 0 1 m' m.
Proof. apply sim_mono; lia. Qed.
Lemma sim_locked_PageRun_drop run : sim guarded 0 1 (locked_PageRun_drop fuel run) (PageRun_drop run).
Proof.
  unfold locked_PageRun_drop, PageRun_drop. destruct (run_count run =? 0); [eapply sim_mono; [| |apply sim_ret]; lia|].
  apply sim_ignore; [lia|]. apply sim_one, sim_with_guard.
Qed.
Lemma sim_locked_PageRun_physical_address run index :
  sim guarded 0 1 (locked_PageRun_physical_address fuel run index) (PageRun_physical_address run index).
Proof.
  assert (forall A (a : A), sim (@guarded Pmm) 0 1 (ret a) (ret a)) as Hret
    by (intros; eapply sim_mono; [| |apply sim_ret]; lia).
  unfold locked_PageRun_physical_address, PageRun_physical_address. destruct (run_count run <=? index); [apply Hret|].
  destruct (try_from_uint 32 index) as [i|]; [|apply Hret]. cbn.
  destruct (checked_add 32 _ i); [|apply Hret]. cbn. apply sim_one, sim_with_guard.
Qed.

(** One call of the public interface by a client that respects ownership. *)
Inductive locked_client_step : Guarded Pmm * list holding -> Guarded Pmm * list holding -> Prop :=
  | locked_client_alloc g os r g' :
      locked_alloc_page fuel g = Done (r, g') ->
      locked_client_step (g, os) (g', match r with Some h => HoldPage h :: os | None => os end)
  | locked_client_drop_page g os1 h os2 g' :
      locked_free_page_handle fuel h g = Done (tt, g') ->
      locked_client_step (g, os1 ++ HoldPage h :: os2) (g', os1 ++ os2)
  | locked_client_alloc_run g os count alignment_log2 r g' :
      is_usize count -> is_uint 8 alignment_log2 ->
      locked_alloc_contiguous fuel count alignment_log2 g = Done (r, g') ->
      locked_client_step (g, os) (g', match r with Some run => HoldRun run :: os | None => os end)
  | locked_client_drop_run g os1 run os2 g' :
      locked_PageRun_drop fuel run g = Done (tt, g') ->
      locked_client_step (g, os1 ++ HoldRun run :: os2) (g', os1 ++ os2)
  | locked_client_leak g os1 h os2 phys g' :
      locked_leak_physical fuel h g = Done (Some phys, g') ->
      locked_client_step (g, os1 ++ HoldPage h :: os2) (g', os1 ++ HoldLeaked h phys :: os2)
  | locked_client_free_physical g os1 h phys os2 g' :
      locked_free_physical_page fuel phys g = Done (tt, g') ->
      locked_client_step (g, os1 ++ HoldLeaked h phys :: os2) (g', os1 ++ os2).

(** A call that returns with the lock also returns without it. *)
Lemma sim_client_Done {A} (m' : M (Guarded Pmm) A) m k irq s a g :
  sim guarded 0 1 m' m -> 0 <= k <= LAST -> m' (guarded k irq s) = Done (a, g) ->
  exists k' s', k <= k' <= k + 1 /\ k' <= LAST /\ g = guarded k' irq s' /\ m s = Done (a, s').
Proof.
  intros Hm Hk Hr. destruct (Hm k irq s Hk) as [[_ Hd]|Hd]; [congruence|].
  destruct (m s) as [[b t]| | |]; [|congruence..]. destruct Hd as (k' & Hb & Hl & Hd). rewrite Hd in Hr. simplify_eq.
  exists k', t. split_and!; [lia..|done|done].
Qed.

Lemma locked_client_sim k irq s os c' :
  0 <= k <= LAST -> locked_client_step (guarded k irq s, os) c' ->
  exists k' s', k <= k' <= k + 1 /\ k' <= LAST /\ c'.1 = guarded k' irq s' /\ client_step (s, os) (s', c'.2).
Proof.
  assert (forall A (m : M Pmm A), sim guarded 0 1 (with_guard fuel m) m) as Hwg by (intros; apply sim_one, sim_with_guard).
  intros Hk Hstep. inversion Hstep; subst;
    match goal with H : _ (guarded k irq s) = Done _ |- _ =>
      eapply sim_client_Done in H as (k' & s' & ? & ? & -> & ?);
        [exists k', s'; split_and!; [lia..|done|]|first [apply Hwg|apply sim_locked_PageRun_drop]|done] end;
    by econstructor.
Qed.
Lemma locked_clients_sim n : forall k irq s os c, 0 <= k -> k + Z.of_nat n <= LAST ->
  nsteps locked_client_step n (guarded k irq s, os) c ->
  exists k' s', k <= k' <= k + Z.of_nat n /\ c.1 = guarded k' irq s' /\ rtc client_step (s, os) (s', c.2).
Proof.
  induction n as [|n IH]; intros k irq s os c Hk Hb Hn; inversion Hn as [|? ? [g1 os1] ? Hs Hr]; subst.
  - exists k, s. split_and!; [lia..|done|constructor].
  - destruct (locked_client_sim k irq s os (g1, os1)) as (k1 & s1 & ? & ? & Hg & Hcs); [lia|done|]. simpl in Hg, Hcs. subst g1.
    destruct (IH k1 irq s1 os1 c) as (k' & s' & ? & ? & ?); [lia..|done|].
    exists k', s'. split_and!; [lia..|done|]. by eapply rtc_l.
Qed.

(** A call that returns without the lock returns with it while tickets last. *)
Lemma sim_returns {A} (m' : M (Guarded Pmm) A) m k irq s a t :
  sim guarded 0 1 m' m -> 0 <= k < LAST -> m s = Done (a, t) -> exists g', m' (guarded k irq s) = Done (a, g').
Proof.
  intros Hm Hk Ht. destruct (sim_Done guarded 0 1 m' m k irq s a t Hm) as (k' & _ & Hr); [lia..|done|]. by eexists.
Qed.

(** (C8) Once [pmm::init] has succeeded, in every state that clients' calls
    reach, each call of the public interface made by the owner of what it names
    takes [PMM_LOCK], if it needs it, and returns: [alloc_page] and
    [alloc_contiguous] with any arguments; [free_page_handle], the drop,
    [physical_address] and [leak_physical] of a page; the drop of a run and its
    [physical_address] at any index, which has an address exactly below the
    run's length; and [free_physical_page] of a leaked page.  No panic, no access
    to metadata that does not exist, no endless loop and no wait for the lock.
    The bound is on the calls so far, at most 65534: the lock's tickets last for
    65536 acquisitions. *)
Theorem client_calls_return off info kernel_start kernel_end p2v s0 irq g n c :
  boot_ok info kernel_start kernel_end ->
  (forall r p, r ∈ memory_regions info ->
     region_base r <= p < region_base r + region_size r -> p2v p = p + off) ->
  locked_pmm_init fuel info kernel_start kernel_end p2v (guarded 0 irq s0) = Done (Ok tt, g) ->
  nsteps locked_client_step n (g, []) c -> Z.of_nat n <= 65534 ->
  (exists r g', locked_alloc_page fuel c.1 = Done (r, g')) /\
  (forall count alignment_log2, is_usize count -> is_uint 8 alignment_log2 ->
     exists r g', locked_alloc_contiguous fuel count alignment_log2 c.1 = Done (r, g')) /\
  forall o, o ∈ c.2 ->
    match o with
    | HoldPage h =>
        (exists g', locked_free_page_handle fuel h c.1 = Done (tt, g')) /\
        (exists phys g', locked_AllocatedPage_physical_address fuel h c.1 = Done (Some phys, g')) /\
        exists phys g', locked_leak_physical fuel h c.1 = Done (Some phys, g')
    | HoldRun run =>
        (exists g', locked_PageRun_drop fuel run c.1 = Done (tt, g')) /\
        forall index, 0 <= index -> exists phys g', locked_PageRun_physical_address fuel run index c.1 = Done (phys, g') /\
          (is_Some phys <-> index < run_count run)
    | HoldLeaked _ phys => exists g', locked_free_physical_page fuel phys c.1 = Done (tt, g')
    end.
Proof.
  intros Hok Hp2v Hinit Hsteps Hn.
  eapply sim_client_Done in Hinit as (k & s & Hk & _ & -> & Hinit); [|by apply sim_one, sim_with_guard|unfold LAST; lia].
  destruct (locked_clients_sim n k irq s [] c) as (k' & s' & Hk' & Hc & Hrtc); [lia|unfold LAST; lia|done|]. rewrite Hc.
  assert (0 <= k' < LAST) as Hb by (unfold LAST; lia).
  destruct (reachable_inv off info kernel_start kernel_end p2v s0 s _ Hok Hp2v Hinit Hrtc) as (_ & _ & l & Hci).
  destruct (owner_calls_return _ _ _ _ Hci) as ((r & t & Ha) & Hac & Howner). clear Hok Hp2v Hinit Hsteps Hci Hrtc Hc.
  assert (forall A (m : M Pmm A) a t, m s' = Done (a, t) -> exists g', with_guard fuel m (guarded k' irq s') = Done (a, g')) as Hwg
    by (intros; eapply sim_returns; [apply sim_one, sim_with_guard|done|done]).
  split_and!.
  - destruct (Hwg _ _ _ _ Ha) as [g' Hg]. by exists r, g'.
  - intros cnt al Hcnt Hal. destruct (Hac cnt al Hcnt Hal) as (r' & t' & Hr). destruct (Hwg _ _ _ _ Hr) as [g' Hg]. by exists r', g'.
  - intros o Ho. specialize (Howner o Ho). destruct o as [h|run|h phys].
    + destruct Howner as ((t1 & Hf) & phys & Hp). destruct (Hwg _ _ _ _ Hp) as [g' Hg].
      split_and!; [by eapply Hwg|by exists phys, g'|by exists phys, g'].
    + destruct Howner as ((t1 & Hd) & Hi). split; [by eapply sim_returns; [apply sim_locked_PageRun_drop|..]|].
      intros index Hidx. destruct (Hi index Hidx) as (phys & Hp & Hsome).
      destruct (sim_returns _ _ k' irq _ _ _ (sim_locked_PageRun_physical_address run index) Hb Hp) as [g' Hg]. by exists phys, g'.
    + destruct Howner as (t1 & Hf). by eapply Hwg.
Qed.
End LockedClients.

Section Atomic.
Context {Ctx : Type} `{ContextOps Ctx} `{HalTimer} {Driver : InterruptDriver} (trampoline : Z) (fuel : nat).

Lemma plain_locked k irq (p : Irq (Clock (Scheduler Ctx))) : plain (locked_kernel k irq p) = p.
Proof. by destruct p as [? ? ? []]. Qed.
Lemma plain_holding k (p : Irq (Clock (Scheduler Ctx))) : plain (holding_kernel k p) = p.
Proof. by destruct p as [? ? ? []]. Qed.

Lemma cpu_at_plain k p (c : Cpu (Ctx:=Ctx)) : cpu_at k p c -> plain (cpu_kernel c) = p.
Proof.
  unfold cpu_at. destruct (cpu_pc c); [intros [irq ->]|intros ->|intros ->|intros (j & _ & ->)|intros ->];
    first [apply plain_locked|apply plain_holding].
Qed.

(** (C24) Whatever calls a thread makes to the scheduler, and wherever timer
    interrupts arrive between the steps of their guards, the scheduler goes
    through the states and returns the results of the same calls and interrupts
    run one at a time without a lock, as long as there are at most 32767 of
    them.  An interrupt that arrives finds the lock free, so its handler does
    what it does without a lock and never spins on the lock of the code that it
    interrupted; a call that asks for the lock gets it at once; and no assertion
    of [unlock] fails. *)
Theorem scheduler_calls_atomic (p0 : Irq (Clock (Scheduler Ctx))) (irq : bool) (c : Cpu) :
  rtc (cpu_step trampoline fuel) {| cpu_kernel := locked_kernel 0 irq p0; cpu_pc := Outside; cpu_log := [] |} c ->
  Z.of_nat (length (cpu_log c)) < 2 ^ 15 ->
  let x := cpu_kernel c in
  run_events trampoline (cpu_log c).*1 p0 = Done ((cpu_log c).*2, plain x) /\
  (irq_enabled (scheduler_lock x) = true -> lock_held (scheduler_lock x) = false /\ cpu_pc c = Outside /\ forall now p',
     interrupt now (plain x) = Done (tt, p') ->
     exists x1 x', set_mask false x = Done (tt, x1) /\ locked_interrupt fuel now x1 = Done (tt, x') /\ plain x' = p') /\
  (forall was call, cpu_pc c = Masked was call -> exists x', on_locked (on_lock (lock fuel)) x = Done (tt, x')) /\
  (forall was, cpu_pc c = Releasing was -> exists x', on_locked (on_lock unlock) x = Done (tt, x')).
Proof.
  intros Hr Hb x. assert (2 * Z.of_nat (length (cpu_log c)) + 2 <= LAST) as Hb' by (unfold LAST; lia).
  destruct (cpu_steps_inv trampoline fuel p0 irq c Hr Hb') as (k & p & Hk & Hrun & Hpos & Hat).
  pose proof (cpu_at_plain _ _ _ Hat) as Hp. fold x in Hp. split_and!.
  - by rewrite Hp.
  - rewrite Hp. intros Hon. unfold cpu_at in Hat. fold x in Hat.
    assert (cpu_pc c = Outside /\ x = locked_kernel k true p) as [-> Hx].
    { destruct (cpu_pc c) as [| | | |]; try (rewrite Hat in Hon; done).
      - destruct Hat as [i Hx]. rewrite Hx in *. by destruct i.
      - destruct Hat as (j & _ & Hx). by rewrite Hx in Hon. }
    split_and!; [by rewrite Hx|done|]. intros now p' Hi.
    destruct (sim_Done locked_kernel 1 2 _ _ k false p tt p' (sim_interrupt fuel now)) as (k' & Hk' & Hx'); [lia..|done|].
    exists (locked_kernel k false p), (locked_kernel k' false p'). rewrite Hx. split_and!; [apply set_mask_run|done|apply plain_locked].
  - intros was call Hpc. unfold cpu_at in Hat. rewrite Hpc in Hat. unfold x. rewrite Hat. eexists. apply lock_kernel. lia.
  - intros was Hpc. specialize (Hpos was Hpc). unfold cpu_at in Hat. rewrite Hpc in Hat. destruct Hat as (j & -> & Hx). unfold x.
    rewrite Hx. eexists. apply unlock_kernel. lia.
Qed.
End Atomic.

(** ** A booted kernel *)

Section Booted.
Context {Mmu Con Ctx : Type} `{HL : HalLaws Mmu Con Ctx} `{ContextOps Ctx} `{FunctionAddresses} {Driver : InterruptDriver}.
Context `{FdtParser} (memory : PhysicalAddress -> option Z) (new_unaligned : list Z -> option Fdt).
Context (vectors idle_thread trampoline kernel_end : Z).
Implicit Types k : Kernel Mmu Con Ctx.
(** The driver is the one of the architecture. *)
Hypothesis Hdriver : forall m cause, hal_handle_timer_interrupt m cause = driver_handle m cause.

Lemma interrupt_returns now k : is_uint 64 now -> irq_ok sched_inv (k_irq k) ->
  exists i, interrupt now (k_irq k) = Done (tt, i) /\ irq_ok sched_inv i.
Proof.
  intros Hnow Hi.
  assert (wp (timer_interrupt now) (fun _ k' => exists i, k' = set_irq i k /\ irq_ok sched_inv i) k) as Hwp.
  { apply (timer_interrupt_wp sched_inv); [| |done|done].
    - intros e s He Hs. eapply wp_mono; [exact (owning_tick (owned s) e s He (conj Hs eq_refl))|]. by intros ? ? [].
    - intros s Hs. eapply wp_mono; [exact (owning_preempt (owned s) s (conj Hs eq_refl))|]. by intros ? ? []. }
  apply wp_unfold in Hwp as ([] & k' & Hrun & i & -> & Hok). exists i. split; [|done].
  unfold timer_interrupt, on_irq, zoom in Hrun. unfold interrupt, handle_fast_interrupt, bind in *. rewrite Hdriver in Hrun.
  destruct (driver_handle _ None (k_irq k)) as [[[] s]| | |]; [|done..]. cbn [negb] in *.
  destruct (run_preempt _ s) as [[[] s']| | |]; [|done..]. injection Hrun as Hrun. by subst.
Qed.
Lemma interrupts_return nows : forall k, Forall (is_uint 64) nows -> irq_ok sched_inv (k_irq k) ->
  exists rs i, run_events trampoline (map Interrupted nows) (k_irq k) = Done (rs, i).
Proof.
  induction nows as [|now nows IH]; intros k Hn Hi; [by eexists _, _|]. apply Forall_cons in Hn as [Hnow Hn].
  destruct (interrupt_returns now k Hnow Hi) as (i & Hrun & Hok). destruct (IH (set_irq i k) Hn Hok) as (rs & i' & Hrest).
  cbn [map run_events run_event]. unfold bind. rewrite Hrun. cbn [ret]. change (k_irq (set_irq i k)) with i in Hrest. rewrite Hrest.
  by eexists _, _.
Qed.

(** A call on a part of the kernel, and a call under its lock. *)
Lemma returns_zoom {S T A} (get : S -> T) (put : T -> S -> S) (m : M T A) s : returns (zoom get put m) s -> returns m (get s).
Proof. unfold returns, zoom. intros (a & s' & Hr). destruct (m (get s)) as [[b t]| | |]; [by eexists _, _|done..]. Qed.
Lemma returns_locked {S S' A} (F : Z -> bool -> S -> S') lo hi (m' : M S' A) (m : M S A) n irq s :
  sim F lo hi m' m -> 0 <= n -> 0 <= hi -> n + hi <= LAST -> returns m s -> returns m' (F n irq s).
Proof.
  intros Hsim Hn Hhi Hb (a & t & Hr). destruct (sim_Done F lo hi m' m n irq s a t Hsim Hn Hb Hhi Hr) as (k' & _ & Hr').
  by eexists _, _.
Qed.

(** (C3) The calls on a booted kernel return, in any state that such calls reach,
    while the locks they take have tickets left: heap allocations and frees
    under [KMALLOC_LOCK], creating and dropping kernel stacks, creating threads
    under [SCHEDULER_LOCK] (with the stack dropped when the thread table is
    full), and timer interrupts, which take [SCHEDULER_LOCK] for the tick and
    for the preemption that follows.  None panics, runs into undefined behaviour
    or runs forever.  The locks have been taken at most 65534 times before, the
    stack slots and the thread identifiers have not run out, and each call into
    the page allocator is one step that finds [PMM_LOCK] free. *)
Theorem kernel_calls_return k0 dtb now arrivals k allocs spare taken_before irq fuel :
  machine_ok memory new_unaligned kernel_end k0 dtb arrivals -> 0 <= now ->
  reached memory new_unaligned vectors idle_thread trampoline kernel_end k0 dtb now arrivals
    {| r_kernel := k; r_allocs := allocs; r_spare := spare |} ->
  0 <= taken_before <= 65534 ->
  let heap := guarded taken_before irq (k_heap k) in
  let scheduler := guarded taken_before irq (k_sched k) in
  (forall size alignment, 0 <= size -> returns (locked_alloc fuel size alignment) heap) /\
  (forall a, a ∈ allocs -> returns (locked_KernelAllocation_drop fuel a) heap) /\
  (k_next_slot k + 1 < 2 ^ 64 -> returns (on_world (create_mapped hal_kernel_stack_region_base
    hal_map_kernel_stack_page hal_unmap_kernel_stack_page)) k) /\
  (forall stack, stack ∈ spare -> returns (on_world (KernelStack_drop hal_unmap_kernel_stack_page stack)) k) /\
  (forall stack process weight entry arg, stack ∈ spare -> next_thread_id (k_sched k) < 2 ^ 32 - 1 -> 0 < weight < 2 ^ 32 ->
    returns (locked_spawn fuel trampoline process weight stack entry arg) scheduler /\
    returns (kernel_spawn trampoline process weight stack entry arg) k) /\
  (forall t, is_uint 64 t -> returns (locked_interrupt fuel t) (locked_kernel taken_before irq (k_irq k))).
Proof.
  intros Hmo Hnow Hreach Hn heap scheduler. assert (taken_before + 2 <= LAST) as Hb by (unfold LAST; lia).
  destruct (kernel_bodies_return _ _ _ _ _ _ _ _ _ _ _ _ _ Hmo Hnow Hreach) as (Ha & Hf & Hc & Hd & Hs & _).
  destruct (reached_kernel_inv _ _ _ _ _ _ _ _ _ _ _ Hmo Hnow Hreach) as (info & _ & [_ Hirq]). split_and!; [| |done|done| |].
  - intros size alignment Hz. specialize (Ha size alignment Hz). apply returns_zoom in Ha.
    eapply (returns_locked guarded 1 1); [|lia|lia|lia|exact Ha]. apply sim_last; [lia|apply sim_with_guard|].
    intros [ptr|e]; apply sim_ret.
  - intros a Hin. specialize (Hf a Hin). apply returns_zoom in Hf.
    eapply (returns_locked guarded 1 1); [|lia|lia|lia|exact Hf]. apply sim_ignore; [lia|apply sim_with_guard].
  - intros stack process weight entry arg Hin Hid Hw. specialize (Hs stack process weight entry arg Hin Hid Hw). split; [|done].
    destruct Hs as (r & k' & Hr). apply bind_Done in Hr as (r1 & k1 & Hr & _).
    eapply (returns_locked guarded 1 1); [apply sim_with_guard|lia|lia|lia|]. apply (returns_zoom k_sched set_k_sched). by exists r1, k1.
  - intros t Ht. destruct (interrupt_returns t k Ht Hirq) as (i & Hr & _).
    eapply (returns_locked locked_kernel 1 2); [apply sim_interrupt|lia|lia|lia|]. by exists tt, i.
Qed.

(** (C25) A kernel that booted stops: in any state that calls and interrupts
    reach after the boot, whatever number of times [SCHEDULER_LOCK] has been
    taken by then, timer interrupts that would all return without the lock do
    not return with it, however long they spin, once there are 65537 of them.
    At [TICK_RATE_HZ], 100 interrupts a second, that is within 11 minutes. *)
Theorem scheduler_lock_hangs k0 dtb now arrivals x nows taken_before irq :
  machine_ok memory new_unaligned kernel_end k0 dtb arrivals -> 0 <= now ->
  reached memory new_unaligned vectors idle_thread trampoline kernel_end k0 dtb now arrivals x ->
  0 <= taken_before <= 2 ^ 16 -> Forall (is_uint 64) nows -> 2 ^ 16 < Z.of_nat (length nows) ->
  let p := k_irq (r_kernel x) in
  (exists rs p', run_events trampoline (map Interrupted nows) p = Done (rs, p')) /\
  forall fuel, locked_run_events trampoline fuel (map Interrupted nows) (locked_kernel taken_before irq p) = OutOfFuel.
Proof.
  intros Hmo Hnow Hreach Hk Hns Hlen p.
  destruct (reached_kernel_inv _ _ _ _ _ _ _ _ _ _ _ Hmo Hnow Hreach) as (info & _ & [_ Hirq]).
  destruct (interrupts_return nows (r_kernel x) Hns Hirq) as (rs & p' & Hrun). split; [by exists rs, p'|]. intros fuel.
  destruct (sim_events trampoline fuel (map Interrupted nows) taken_before irq p Hk) as [[_ Hr]|Hr]; [exact Hr|].
  fold p in Hrun. rewrite Hrun in Hr. destruct Hr as (k' & Hk' & Hle & _). rewrite length_map in Hk'. unfold LAST in Hle. lia.
Qed.
End Booted.

(** ** Examples *)

#[local] Existing Instance small_layout.
#[local] Existing Instance demo_addresses.
#[local] Existing Instance DemoTree.
#[local] Existing Instance demo_sbi.
#[local] Existing Instance demo_hal.
#[local] Existing Instance demo_laws.
#[local] Existing Instance Riscv64Driver.

(** A thread is about to release the lock after it asked for the length of the
    trace, with interrupts enabled before the call. *)
Abbreviation fresh_kernel := {| gic_ready := false; gic_slot := None; gic_ops := [];
  irq_kernel := Clock_new (Scheduler_new (Ctx:=Riscv64.Riscv64Context) 8 4 []) |}.
Definition releasing : Cpu (Ctx:=Riscv64.Riscv64Context) := {|
  cpu_kernel := holding_kernel 0 fresh_kernel; cpu_pc := Releasing true; cpu_log := [(Called CallTraceLen, Some (TraceLen 0))] |}.
Lemma releasing_reached :
  rtc (cpu_step demo_trampoline 10) {| cpu_kernel := locked_kernel 0 true fresh_kernel; cpu_pc := Outside; cpu_log := [] |} releasing.
Proof.
  eapply rtc_l; [apply (cpu_call _ _ CallTraceLen); reflexivity|].
  eapply rtc_l; [apply cpu_lock; reflexivity|]. apply rtc_once, (cpu_body _ _ true CallTraceLen (TraceLen 0)). reflexivity.
Qed.

Lemma scheduler_calls_atomic_witness :
  run_events demo_trampoline [Called CallTraceLen] fresh_kernel = Done ([Some (TraceLen 0)], plain (cpu_kernel releasing)) /\
  exists x', on_locked (on_lock unlock) (cpu_kernel releasing) = Done (tt, x').
Proof.
  destruct (scheduler_calls_atomic demo_trampoline 10 fresh_kernel true releasing releasing_reached ltac:(reflexivity))
    as (Hrun & _ & _ & Hun).
  split; [exact Hrun|exact (Hun true eq_refl)].
Defined.

Lemma demo_driver (m : M (Clock (Scheduler Riscv64.Riscv64Context)) unit) cause :
  @hal_handle_timer_interrupt _ _ _ demo_hal m cause = driver_handle m cause.
Proof. reflexivity. Qed.

Definition many_interrupts : list Z := replicate (Z.to_nat (2 ^ 16 + 1)) 300000.
Lemma scheduler_lock_hangs_witness :
  (exists rs p', run_events demo_trampoline (map Interrupted many_interrupts) (k_irq demo_kernel2) = Done (rs, p')) /\
  locked_run_events demo_trampoline 100 (map Interrupted many_interrupts) (locked_kernel 0 true (k_irq demo_kernel2)) = OutOfFuel.
Proof.
  destruct (scheduler_lock_hangs demo_memory demo_parse 0x80200800 demo_entry demo_trampoline demo_end demo_driver
    demo_kernel demo_dtb 1000 demo_arrivals demo_state many_interrupts 0 true demo_machine ltac:(lia) demo_kernel_reached ltac:(lia))
    as [Hplain Hlocked].
  - by apply Forall_replicate.
  - unfold many_interrupts. rewrite length_replicate, Z2Nat.id by lia. lia.
  - split; [exact Hplain|exact (Hlocked 100%nat)].
Defined.

(** The page allocator of the small machine, after [init] and one allocation. *)
Definition small_locked : Guarded Pmm :=
  match locked_pmm_init 1 small_info 0x1000 0x2000 small_p2v (guarded 0 true (Pmm_empty ∅)) with Done (_, g) => g | _ => guarded 0 true (Pmm_empty ∅) end.
Definition small_locked_config : Guarded Pmm * list holding :=
  match locked_alloc_page 1 small_locked with
  | Done (Some h, g) => (g, [HoldPage h])
  | _ => (small_locked, [])
  end.
Lemma small_locked_step : nsteps (locked_client_step 1) 1 (small_locked, []) small_locked_config.
Proof.
  apply nsteps_once. unfold small_locked_config. destruct (locked_alloc_page 1 small_locked) as [[[h|] g]| | |] eqn:Hrun.
  1: exact (locked_client_alloc 1 small_locked [] (Some h) g Hrun).
  all: exfalso; revert Hrun; vm_compute; discriminate.
Qed.
Lemma client_calls_return_witness : exists r g', locked_alloc_page 1 small_locked_config.1 = Done (r, g').
Proof.
  refine (proj1 (client_calls_return 1 small_offset small_info 0x1000 0x2000 small_p2v (Pmm_empty ∅) true small_locked 1
    small_locked_config small_boot_ok small_p2v_linear _ small_locked_step _)); [vm_compute; reflexivity|done].
Defined.

Lemma kernel_calls_return_witness :
  returns (locked_KernelAllocation_drop 100 demo_block) (guarded 65534 true (k_heap demo_kernel2)) /\
  returns (locked_interrupt 100 300000) (locked_kernel 65534 true (k_irq demo_kernel2)).
Proof.
  destruct (kernel_calls_return demo_memory demo_parse 0x80200800 demo_entry demo_trampoline demo_end demo_driver demo_kernel demo_dtb 1000
    demo_arrivals demo_kernel2 [demo_block] demo_spare 65534 true 100 demo_machine ltac:(lia) demo_kernel_reached ltac:(lia))
    as (_ & Hfree & _ & _ & _ & Htimer).
  split; [apply Hfree; by left|apply Htimer; by split].
Defined.
