(* ===== verification/UnitTests.v ===== *)
(** * The repository's unit tests on the model

    The [mod tests] of the kernel crate, translated test by test: an assertion
    that fails is a panic, as in Rust.  Each test runs on the same definitions
    that the theorems are about, so the expectations that the authors wrote down
    hold of the model.  [HwInfoTests.v] has those of [hwinfo/mod.rs].  Left out
    are the [size_of] checks and the tests of [fdt/blob.rs], which parse with
    the external crate. *)

From S2P Require Import Prelude Address HwInfo Pmm Sync Clock Trap Trace Context KernelStack Kmalloc Task PmmTheorems.
From stdpp Require Import base tactics option list list_numbers numbers gmap strings.

#[local] Open Scope Z_scope.
#[local] Open Scope kernel_scope.

(** ** Assertions *)

Definition assert {S} (b : bool) : M S unit := if b then ret tt else panic "assertion failed".
Definition assert_eq {S A} `{EqDecision A} (a b : A) : M S unit :=
  if decide (a = b) then ret tt else panic "assertion `left == right` failed".
Definition assert_ne {S A} `{EqDecision A} (a b : A) : M S unit :=
  if decide (a = b) then panic "assertion `left != right` failed" else ret tt.
Definition unwrap {S A} (o : option A) : M S A := expect "called `Option::unwrap()` on a `None` value" o.
Definition unwrap_ok {S A E} (r : Result A E) : M S A :=
  match r with Ok a => ret a | Err _ => panic "called `Result::unwrap()` on an `Err` value" end.
(** A value computed outside the state. *)
Definition lift {S A} (o : outcome A) : M S A := fun s =>
  match o with Done a => Done (a, s) | Panic msg => Panic msg | Undefined => Undefined | OutOfFuel => OutOfFuel end.

(** A test is its run; it passes when it returns. *)
Record test := { test_name : string; test_run : outcome unit }.
Definition run_on {S} (s : S) (m : M S unit) : outcome unit :=
  match m s with Done _ => Done tt | Panic msg => Panic msg | Undefined => Undefined | OutOfFuel => OutOfFuel end.
Definition pure_test (m : M unit unit) : outcome unit := run_on tt m.
Definition passes (t : test) : bool := match test_run t with Done _ => true | _ => false end.

#[local] Instance Result_eq_dec {A E} `{EqDecision A, EqDecision E} : EqDecision (Result A E).
Proof. solve_decision. Defined.
#[local] Instance TrapCause_eq_dec : EqDecision TrapCause.
Proof. solve_decision. Defined.
#[local] Instance TrapReport_eq_dec : EqDecision TrapReport.
Proof. solve_decision. Defined.
#[local] Instance KernelTrapAction_eq_dec : EqDecision KernelTrapAction.
Proof. solve_decision. Defined.
#[local] Instance TickAdvance_eq_dec : EqDecision TickAdvance.
Proof. solve_decision. Defined.
#[local] Instance MappingPermissions_eq_dec : EqDecision MappingPermissions.
Proof. solve_decision. Defined.
#[local] Instance MappingIntent_eq_dec : EqDecision MappingIntent.
Proof. solve_decision. Defined.
#[local] Instance InitError_eq_dec : EqDecision Pmm.InitError.
Proof. solve_decision. Defined.

(** ** [mmu/address.rs] and [mmu/page_table_entry.rs] *)

Definition tracks_page_offsets : M unit unit :=
  let! offset := unwrap (PageOffset_new 0x234) in
  assert_eq (PhysicalAddress_page_offset 0x1234) offset ;;;
  assert_eq (VirtualAddress_page_offset 0x4000) 0 ;;;
  assert (PhysicalAddress_is_page_aligned 0x4000) ;;;
  assert (negb (VirtualAddress_is_page_aligned 0x4001)).
Definition aligns_addresses : M unit unit :=
  assert_eq (PhysicalAddress_align_down 0x4123) 0x4000 ;;;
  let! up := unwrap (PhysicalAddress_align_up 0x4000) in
  assert_eq up 0x4000 ;;;
  let! up := unwrap (VirtualAddress_align_up 0x4001) in
  assert_eq up 0x5000 ;;;
  assert_eq (VirtualAddress_align_up usize_MAX) None.
Definition counts_pages_from_bytes : M unit unit :=
  assert_eq (PageCount_from_bytes_round_up 0) (Some 0) ;;;
  assert_eq (PageCount_from_bytes_round_up 1) (Some 1) ;;;
  assert_eq (PageCount_from_bytes_round_up PAGE_SIZE) (Some 1) ;;;
  assert_eq (PageCount_from_bytes_round_up (PAGE_SIZE + 1)) (Some 2) ;;;
  assert_eq (PageCount_to_bytes 2) (Some (PAGE_SIZE * 2)).
Definition rejects_out_of_range_offsets : M unit unit :=
  assert_eq (PageOffset_new (PAGE_SIZE - 1)) (Some (PAGE_SIZE - 1)) ;;;
  assert_eq (PageOffset_new PAGE_SIZE) None.

Definition accepts_page_aligned_mappings : M unit unit :=
  let! intent := unwrap (MappingIntent_new 0x4000 Page4K Normal KERNEL_READ_WRITE) in
  assert_eq (physical_address intent) 0x4000 ;;;
  assert_eq (MappingSize_bytes (Address.size intent)) PAGE_SIZE.
Definition rejects_misaligned_mappings_for_size : M unit unit :=
  assert_eq (MappingIntent_new 0x4001 Page4K Normal KERNEL_READ_WRITE) None ;;;
  assert_eq (MappingIntent_new 0x200000 Block1G Normal KERNEL_READ_WRITE) None.

Definition mmu_tests : list test := [
  {| test_name := "tracks_page_offsets"; test_run := pure_test tracks_page_offsets |};
  {| test_name := "aligns_addresses"; test_run := pure_test aligns_addresses |};
  {| test_name := "counts_pages_from_bytes"; test_run := pure_test counts_pages_from_bytes |};
  {| test_name := "rejects_out_of_range_offsets"; test_run := pure_test rejects_out_of_range_offsets |};
  {| test_name := "accepts_page_aligned_mappings"; test_run := pure_test accepts_page_aligned_mappings |};
  {| test_name := "rejects_misaligned_mappings_for_size"; test_run := pure_test rejects_misaligned_mappings_for_size |}].

(** ** [fdt/cells.rs] and [clock/mod.rs] *)

Definition reads_big_endian_cells : M unit unit :=
  assert_eq (read_cells [0x12; 0x34; 0x56; 0x78] 1) (Some 0x12345678) ;;;
  assert_eq (read_cells [0x00; 0x00; 0x00; 0x00; 0x80; 0x00; 0x00; 0x00] 2) (Some 0x80000000) ;;;
  assert_eq (read_cells [0x12; 0x34; 0x56; 0x78; 0x9a; 0xbc; 0xde; 0xf0] 2) (Some 0x123456789abcdef0) ;;;
  assert_eq (read_cells (replicate 4 0) 0) None ;;;
  assert_eq (read_cells (replicate 4 0) 3) None ;;;
  assert_eq (read_cells (replicate 3 0) 1) None.

Definition freq (hz : Z) : M unit Z := unwrap (Frequency_try_from_hz hz).
Definition interval (ticks : Z) : option Z := TickInterval_try_from_ticks ticks.
Definition computes_ticks_per_interval : M unit unit :=
  assert_eq (Frequency_try_from_hz 0) None ;;;
  let! f := freq 99 in assert_eq (ticks_per_interval f) None ;;;
  let! f := freq 100 in assert_eq (ticks_per_interval f) (interval 1) ;;;
  let! f := freq 200 in assert_eq (ticks_per_interval f) (interval 2) ;;;
  let! f := freq 12300 in assert_eq (ticks_per_interval f) (interval 123).
Definition advances_single_elapsed_tick : M unit unit :=
  let! i := unwrap (interval 100) in
  let! advance := advance_tick_state 1000 1000 i in
  assert_eq advance (Some {| elapsed_ticks := 1; advance_next_tick := 1100 |}).
Definition accounts_for_missed_intervals : M unit unit :=
  let! i := unwrap (interval 100) in
  let! advance := advance_tick_state 1350 1000 i in
  assert_eq advance (Some {| elapsed_ticks := 4; advance_next_tick := 1400 |}).
Definition rejects_zero_tick_interval : M unit unit := assert_eq (TickInterval_try_from_ticks 0) None.
Definition converts_timer_units : M unit unit :=
  let! f := freq 1000000000 in assert_eq (ticks_to_ns 1 f) 1 ;;;
  let! f := freq 1000000 in assert_eq (ticks_to_us 1000 f) 1000 ;;;
  let! f := freq 1000000 in assert_eq (ns_to_ticks 1000000 f) 1000.

Definition clock_tests : list test := [
  {| test_name := "reads_big_endian_cells"; test_run := pure_test reads_big_endian_cells |};
  {| test_name := "computes_ticks_per_interval"; test_run := pure_test computes_ticks_per_interval |};
  {| test_name := "advances_single_elapsed_tick"; test_run := pure_test advances_single_elapsed_tick |};
  {| test_name := "accounts_for_missed_intervals"; test_run := pure_test accounts_for_missed_intervals |};
  {| test_name := "rejects_zero_tick_interval"; test_run := pure_test rejects_zero_tick_interval |};
  {| test_name := "converts_timer_units"; test_run := pure_test converts_timer_units |}].

(** ** [trap/] *)

Definition decodes_syscall_from_esr_exception_class : M unit unit :=
  let cause := decode_exception_syndrome (Z.shiftl 0x15 EXCEPTION_CLASS_SHIFT) in
  assert_eq (cause_kind cause) Syscall ;;;
  assert (is_syscall cause) ;;;
  assert_eq (cause_name cause) "svc (syscall)"%string.
Definition decodes_data_abort_as_page_fault_input : M unit unit :=
  let raw := Z.shiftl 0x25 EXCEPTION_CLASS_SHIFT in
  let cause := decode_exception_syndrome raw in
  assert_eq (cause_raw cause) raw ;;;
  assert_eq (cause_kind cause) PageFault ;;;
  assert (is_page_fault cause) ;;;
  assert_eq (cause_name cause) "data abort (same level)"%string.
Definition decodes_exception_and_interrupt_from_scause : M unit unit :=
  let page_fault := decode_supervisor_cause 13 in
  let timer := decode_supervisor_cause (Z.lor INTERRUPT_BIT 5) in
  assert_eq (cause_kind page_fault) PageFault ;;;
  assert (is_page_fault page_fault) ;;;
  assert_eq (cause_name page_fault) "load page fault"%string ;;;
  assert_eq (cause_kind timer) (Interrupt SupervisorTimer) ;;;
  assert (is_interrupt timer) ;;;
  assert_eq (interrupt_kind timer) (Some SupervisorTimer) ;;;
  assert_eq (cause_name timer) "supervisor timer interrupt"%string.
Definition preserves_unknown_riscv_raw_values : M unit unit :=
  let cause := decode_supervisor_cause 0x1234 in
  assert_eq (cause_raw cause) 0x1234 ;;;
  assert_eq (cause_kind cause) UnknownTrap ;;;
  assert_eq (cause_name cause) "unknown trap"%string.

(** [core::array::from_fn(|i| i as u64 + 100)]. *)
Definition numbered_registers : list Z := (fun i => Z.of_nat i + 100) <$> seq 0 31.
Definition arm64_layout_matches_assembly_contract : M unit unit :=
  assert_eq TrapFrame_SIZE 288 ;;;
  assert_eq SAVED_STACK_POINTER_OFFSET 248 ;;;
  assert_eq FAULT_ADDRESS_OFFSET 280 ;;;
  assert_eq Arm64IrqFrame_SIZE 176 ;;;
  assert_eq Arm64IrqFrame_EXCEPTION_RETURN_ADDRESS_OFFSET 160.
Definition arm64_reads_registers : M unit unit :=
  let frame := {| arm64_regs := numbered_registers; arm64_sp_saved := 0; arm64_elr := 0; arm64_spsr := 0;
                  arm64_esr := 0; arm64_far := 0 |} in
  assert_eq (arm64_reg 0 frame) (Some 100) ;;;
  assert_eq (arm64_reg 1 frame) (Some 101) ;;;
  assert_eq (arm64_reg 30 frame) (Some 130) ;;;
  assert_eq (arm64_reg 31 frame) None.
Definition arm64_detects_user_origin : M unit unit :=
  let user := {| arm64_regs := replicate 31 0; arm64_sp_saved := 0; arm64_elr := 0; arm64_spsr := 0x00;
                 arm64_esr := 0; arm64_far := 0 |} in
  let kernel := {| arm64_regs := arm64_regs user; arm64_sp_saved := arm64_sp_saved user; arm64_elr := arm64_elr user;
                   arm64_spsr := 0x05; arm64_esr := arm64_esr user; arm64_far := arm64_far user |} in
  assert (arm64_is_from_user user) ;;;
  assert (negb (arm64_is_from_user kernel)).
Definition arm64_reads_syscall_abi : M unit unit :=
  let frame := {| arm64_regs := <[5%nat := 500]> (<[1%nat := 200]> (<[0%nat := 100]> (<[8%nat := 42]> (replicate 31 0))));
                  arm64_sp_saved := 0; arm64_elr := 0; arm64_spsr := 0; arm64_esr := 0; arm64_far := 0 |} in
  assert_eq (arm64_syscall_num frame) (Some 42) ;;;
  assert_eq (arm64_syscall_arg 0 frame) (Some 100) ;;;
  assert_eq (arm64_syscall_arg 1 frame) (Some 200) ;;;
  assert_eq (arm64_syscall_arg 5 frame) (Some 500) ;;;
  assert_eq (arm64_syscall_arg 6 frame) None ;;;
  assert_eq (arm64_regs (arm64_set_syscall_return 999 frame) !! 0%nat) (Some 999).

Definition riscv64_layout_matches_assembly_contract : M unit unit :=
  assert_eq TrapFrame_SIZE 288 ;;;
  assert_eq SAVED_STACK_POINTER_OFFSET 248 ;;;
  assert_eq TRAP_VALUE_OFFSET 280 ;;;
  assert_eq LAST_REGISTER_OFFSET 240 ;;;
  assert_eq Riscv64IrqFrame_SIZE 144 ;;;
  assert_eq Riscv64IrqFrame_PROGRAM_COUNTER_OFFSET 128.
Definition reads_registers_with_riscv_special_cases : M unit unit :=
  let frame := {| riscv64_regs := numbered_registers; riscv64_sp_saved := 0xdeadbeef; riscv64_sepc := 0;
                  riscv64_sstatus := 0; riscv64_scause := 0; riscv64_stval := 0 |} in
  assert_eq (riscv64_reg 0 frame) (Some 0) ;;;
  assert_eq (riscv64_reg 1 frame) (Some 100) ;;;
  assert_eq (riscv64_reg 2 frame) (Some 0xdeadbeef) ;;;
  assert_eq (riscv64_reg 3 frame) (Some 102) ;;;
  assert_eq (riscv64_reg 32 frame) None.
Definition riscv64_detects_user_origin : M unit unit :=
  let user := {| riscv64_regs := replicate 31 0; riscv64_sp_saved := 0; riscv64_sepc := 0; riscv64_sstatus := 0x00;
                 riscv64_scause := 0; riscv64_stval := 0 |} in
  let kernel := {| riscv64_regs := riscv64_regs user; riscv64_sp_saved := riscv64_sp_saved user;
                   riscv64_sepc := riscv64_sepc user; riscv64_sstatus := 0x100; riscv64_scause := riscv64_scause user;
                   riscv64_stval := riscv64_stval user |} in
  assert (riscv64_is_from_user user) ;;;
  assert (negb (riscv64_is_from_user kernel)).
Definition riscv64_reads_syscall_abi : M unit unit :=
  let frame := {| riscv64_regs := <[14%nat := 500]> (<[10%nat := 200]> (<[9%nat := 100]> (<[16%nat := 42]> (replicate 31 0))));
                  riscv64_sp_saved := 0; riscv64_sepc := 0; riscv64_sstatus := 0; riscv64_scause := 0; riscv64_stval := 0 |} in
  assert_eq (riscv64_syscall_num frame) (Some 42) ;;;
  assert_eq (riscv64_syscall_arg 0 frame) (Some 100) ;;;
  assert_eq (riscv64_syscall_arg 1 frame) (Some 200) ;;;
  assert_eq (riscv64_syscall_arg 5 frame) (Some 500) ;;;
  assert_eq (riscv64_syscall_arg 6 frame) None ;;;
  assert_eq (riscv64_regs (riscv64_set_syscall_return 999 frame) !! 9%nat) (Some 999).

(** [FakeFrame] of [trap/dispatch.rs] and of [trap/report.rs]. *)
Inductive DispatchFrame := dispatch_frame.
#[local] Instance DispatchFrame_snapshot : TrapFrameSnapshot DispatchFrame := {|
  architecture_name _ := "test"; program_counter _ := 0x4000;
  frame_cause _ := TrapCause_new PageFault (Z.shiftl 0x25 26) "data abort";
  fault_address _ := 0x8000; is_from_user _ := false |}.
Definition unexpected_kernel_traps_panic_with_report : M unit unit :=
  assert_eq (dispatch_kernel_trap dispatch_frame) (TrapPanic {|
    report_architecture_name := "test"; report_program_counter := 0x4000;
    report_cause := TrapCause_new PageFault (Z.shiftl 0x25 26) "data abort";
    report_fault_address := 0x8000; report_from_user := false |}).
Inductive ReportFrame := report_frame.
#[local] Instance ReportFrame_snapshot : TrapFrameSnapshot ReportFrame := {|
  architecture_name _ := "test"; program_counter _ := 0x1000;
  frame_cause _ := TrapCause_new PageFault 13 "load page fault";
  fault_address _ := 0x2000; is_from_user _ := true |}.
Definition snapshots_common_trap_fields : M unit unit :=
  assert_eq (TrapReport_from_frame report_frame) {|
    report_architecture_name := "test"; report_program_counter := 0x1000;
    report_cause := TrapCause_new PageFault 13 "load page fault";
    report_fault_address := 0x2000; report_from_user := true |}.

(** The byte strings [b"..."]. *)
Definition byte_string (s : string) : list Z := (fun c => Z.of_nat (Ascii.nat_of_ascii c)) <$> String.list_ascii_of_string s.
Definition formats_hex_output : M unit unit :=
  let! s := lift (format_hex 0) in assert_eq s (byte_string "0000000000000000") ;;;
  let! s := lift (format_hex 0xf) in assert_eq s (byte_string "000000000000000f") ;;;
  let! s := lift (format_hex 0xdeadbeef) in assert_eq s (byte_string "00000000deadbeef") ;;;
  let! s := lift (format_hex u64_MAX) in assert_eq s (byte_string "ffffffffffffffff").
Definition formats_usize_hex_output : M unit unit :=
  let! s := lift (format_hex_usize 0) in assert_eq (s !! 0%nat) (Some 48) ;;;
  let! s := lift (format_hex_usize 0) in assert_eq (s !! (HEX_USIZE_DIGITS - 1)%nat) (Some 48) ;;;
  let! s := lift (format_hex_usize 0xf) in assert_eq (s !! (HEX_USIZE_DIGITS - 1)%nat) (Some 102).
Definition formats_decimal_output : M unit unit :=
  let! d := lift (format_decimal 0) in assert_eq (as_bytes d) (byte_string "0") ;;;
  let! d := lift (format_decimal 42) in assert_eq (as_bytes d) (byte_string "42") ;;;
  let! d := lift (format_decimal 1234567890) in assert_eq (as_bytes d) (byte_string "1234567890").

Definition trap_tests : list test := [
  {| test_name := "decodes_syscall_from_esr_exception_class"; test_run := pure_test decodes_syscall_from_esr_exception_class |};
  {| test_name := "decodes_data_abort_as_page_fault_input"; test_run := pure_test decodes_data_abort_as_page_fault_input |};
  {| test_name := "decodes_exception_and_interrupt_from_scause"; test_run := pure_test decodes_exception_and_interrupt_from_scause |};
  {| test_name := "preserves_unknown_riscv_raw_values"; test_run := pure_test preserves_unknown_riscv_raw_values |};
  {| test_name := "layout_matches_assembly_contract"; test_run := pure_test arm64_layout_matches_assembly_contract |};
  {| test_name := "reads_registers"; test_run := pure_test arm64_reads_registers |};
  {| test_name := "detects_user_origin"; test_run := pure_test arm64_detects_user_origin |};
  {| test_name := "reads_syscall_abi"; test_run := pure_test arm64_reads_syscall_abi |};
  {| test_name := "layout_matches_assembly_contract"; test_run := pure_test riscv64_layout_matches_assembly_contract |};
  {| test_name := "reads_registers_with_riscv_special_cases"; test_run := pure_test reads_registers_with_riscv_special_cases |};
  {| test_name := "detects_user_origin"; test_run := pure_test riscv64_detects_user_origin |};
  {| test_name := "reads_syscall_abi"; test_run := pure_test riscv64_reads_syscall_abi |};
  {| test_name := "unexpected_kernel_traps_panic_with_report"; test_run := pure_test unexpected_kernel_traps_panic_with_report |};
  {| test_name := "snapshots_common_trap_fields"; test_run := pure_test snapshots_common_trap_fields |};
  {| test_name := "formats_hex_output"; test_run := pure_test formats_hex_output |};
  {| test_name := "formats_usize_hex_output"; test_run := pure_test formats_usize_hex_output |};
  {| test_name := "formats_decimal_output"; test_run := pure_test formats_decimal_output |}].

(** ** [sync/mod.rs] and the context records *)

Definition once_returns_true_once : M unit unit :=
  let once := Once_new in
  let (first, once) := try_once once in
  assert first ;;;
  let (second, once) := try_once once in
  assert (negb second) ;;;
  assert (is_done once).
(** [lock.raw()] is the word. *)
Definition ticket_lock_cycles : M SpinLock unit :=
  acquire 1 ;;;
  let! raw := gets lock_state in
  assert_eq raw (Z.shiftl 1 TICKET_SHIFT) ;;;
  release ;;;
  let! raw := gets lock_state in
  assert_eq raw (Z.lor (Z.shiftl 1 TICKET_SHIFT) 1).
Definition spin_lock_try_guard : M SpinLock unit :=
  let! guard := try_guard in
  let! guard := expect "lock should be free" guard in
  let! second := try_guard in
  assert (match second with None => true | Some _ => false end) ;;;
  guard_drop guard.
Definition spin_lock_try_guard_restores_on_failure : M SpinLock unit :=
  let! guard := Sync.guard 1 in
  let! second := try_guard in
  assert (match second with None => true | Some _ => false end) ;;;
  guard_drop guard.

Definition arm64_initializes_thread_entry_context : M unit unit :=
  let context := Arm64.arm64_set_entry_data 0x2000 0x3000 (Arm64.arm64_new 0x1000 0x8000) in
  assert_eq (Arm64.a_link_register context) 0x1000 ;;;
  assert_eq (context_stack_pointer context) 0x8000 ;;;
  assert_eq (Arm64.x19 context) 0x2000 ;;;
  assert_eq (Arm64.x20 context) 0x3000.
Definition riscv64_initializes_thread_entry_context : M unit unit :=
  let context := Riscv64.riscv64_set_entry_data 0x2000 0x3000 (Riscv64.riscv64_new 0x1000 0x8000) in
  assert_eq (Riscv64.r_return_address context) 0x1000 ;;;
  assert_eq (context_stack_pointer context) 0x8000 ;;;
  assert_eq (Riscv64.s1 context) 0x2000 ;;;
  assert_eq (Riscv64.s2 context) 0x3000.

Definition sync_tests : list test := [
  {| test_name := "once_returns_true_once"; test_run := pure_test once_returns_true_once |};
  {| test_name := "ticket_lock_cycles"; test_run := run_on (SpinLock_new true) ticket_lock_cycles |};
  {| test_name := "spin_lock_try_guard"; test_run := run_on (SpinLock_new true) spin_lock_try_guard |};
  {| test_name := "spin_lock_try_guard_restores_on_failure";
     test_run := run_on (SpinLock_new true) spin_lock_try_guard_restores_on_failure |};
  {| test_name := "initializes_thread_entry_context"; test_run := pure_test arm64_initializes_thread_entry_context |};
  {| test_name := "initializes_thread_entry_context"; test_run := pure_test riscv64_initializes_thread_entry_context |}].

(** ** [task/mod.rs] *)

Definition Sched4 : Type := Scheduler HostContext.
(** [PageRun::new_for_test], [KernelStack::new_for_test]. *)
Definition PageRun_empty : PageRun := {| run_head := PageHandle_NONE; run_count := 0 |}.
Definition KernelStack_new_for_test (base : VirtualAddress) (size : Z) : KernelStack :=
  {| stack_pages := PageRun_empty; stack_base := base; stack_size := size; stack_unmap := false |}.
Definition test_thread (id : Z) : M Sched4 (Thread HostContext) :=
  let! s := gets (fun s => s) in unwrap (thread s id).
(** [scheduler.current = Some(id); scheduler.thread_mut(id).unwrap().state = Running] *)
Definition run_thread (id : Z) : M Sched4 unit :=
  modify (set_current (Some id)) ;;;
  let! ts := gets threads in
  let! i := unwrap (thread_index id ts) in
  modify (update_thread i (set_t_state Running)).
Definition unwrap_create (process weight : Z) : M Sched4 Z :=
  let! r := create_thread process weight false in unwrap_ok r.
Definition unwrap_process : M Sched4 Z := let! r := create_process in unwrap_ok r.
Definition unwrap_tick (elapsed : Z) : M Sched4 unit := let! r := tick elapsed in unwrap_ok r.

(** [Process::remove_thread] on [self] and the table; [find_thread_mut] is
    [thread_index].  Each round of the loop goes to the next thread of the
    process, so the table bounds them. *)
Fixpoint remove_loop (fuel : nat) (p : Process) (thread_id : Z) (ts : list (option (Thread HostContext)))
    (previous current : option Z) : M Sched4 (bool * Process * list (option (Thread HostContext))) :=
  match fuel with
  | O => out_of_fuel
  | S fuel =>
      match current with
      | None => ret (false, p, ts)
      | Some current_id =>
          match thread_index current_id ts with
          | None => ret (false, p, ts)
          | Some i =>
              let! current_thread := expect "slot was found" (default None (ts !! i)) in
              if current_id =? thread_id then
                let next := t_process_next current_thread in
                let ts := alter (option_map (set_t_process_next None)) i ts in
                let (first, ts) :=
                  match previous with
                  | Some previous_id =>
                      (p_first_thread p,
                       match thread_index previous_id ts with
                       | Some j => alter (option_map (set_t_process_next next)) j ts
                       | None => ts
                       end)
                  | None => (next, ts)
                  end in
                let! count := sub_uint (p_thread_count p) 1 in
                ret (count =? 0, {| p_id := p_id p; p_first_thread := first; p_thread_count := count; p_state := p_state p |}, ts)
              else remove_loop fuel p thread_id ts current (t_process_next current_thread)
          end
      end
  end.
Definition remove_thread (process_index : nat) (thread_id : Z) : M Sched4 bool :=
  let! s := gets (fun s => s) in
  let! p := unwrap (default None (processes s !! process_index)) in
  let! r := remove_loop (S (length (threads s))) p thread_id (threads s) None (p_first_thread p) in
  modify (fun s => set_threads r.2 (set_processes (<[process_index := Some r.1.2]> (processes s)) s)) ;;;
  ret r.1.1.

Definition tracks_process_threads_without_raw_public_pointers : M Sched4 unit :=
  let! process := unwrap_process in
  let! first := unwrap_create process SCHED_BASE_WEIGHT in
  let! second := unwrap_create process SCHED_BASE_WEIGHT in
  let! s := gets (fun s => s) in
  let! i := unwrap (process_index process s) in
  let! p := unwrap (default None (processes s !! i)) in
  assert_eq (p_thread_count p) 2 ;;;
  let! emptied := remove_thread i second in
  assert (negb emptied) ;;;
  let! emptied := remove_thread i first in
  assert emptied.
Definition vruntime_scales_inversely_with_weight : M Sched4 unit :=
  let! r := init in
  unwrap_ok r ;;;
  let! process := unwrap_process in
  let! normal := unwrap_create process SCHED_BASE_WEIGHT in
  let! high := unwrap_create process (SCHED_BASE_WEIGHT * 2) in
  run_thread normal ;;;
  unwrap_tick 1 ;;;
  run_thread high ;;;
  unwrap_tick 1 ;;;
  let! t := test_thread normal in
  assert_eq (t_virtual_runtime t) SCHED_TIME_SLICE_NS ;;;
  let! t := test_thread high in
  assert_eq (t_virtual_runtime t) (SCHED_TIME_SLICE_NS / 2).
Definition blocks_and_wakes_thread : M Sched4 unit :=
  let! r := init in
  unwrap_ok r ;;;
  let! process := unwrap_process in
  let! id := unwrap_create process SCHED_BASE_WEIGHT in
  run_thread id ;;;
  let! token := unwrap (WaitToken_new 0x1000) in
  let! r := block_current token in
  unwrap_ok r ;;;
  let! t := test_thread id in
  assert_eq (t_state t) Blocked ;;;
  let! r := wake id in
  unwrap_ok r ;;;
  let! t := test_thread id in
  assert_eq (t_state t) Ready.
Definition trace_ring_records_scheduler_events : M Sched4 unit :=
  let! r := init in
  unwrap_ok r ;;;
  let! process := unwrap_process in
  let! id := unwrap_create process SCHED_BASE_WEIGHT in
  run_thread id ;;;
  unwrap_tick 1 ;;;
  let! n := gets trace_len in
  assert (2 <=? n).
Definition kernel_stack_top_is_base_plus_size : M unit unit :=
  let stack := KernelStack_new_for_test 0xffff0000 KERNEL_STACK_SIZE in
  assert_eq (stack_base stack) 0xffff0000 ;;;
  let! top := stack_top stack in
  assert_eq top (0xffff0000 + KERNEL_STACK_SIZE).
(** [idle_entry] is a function address. *)
Definition idle_thread_owns_stack_and_entry_context (idle_entry : Z) : M Sched4 unit :=
  let stack := KernelStack_new_for_test 0x8000 KERNEL_STACK_SIZE in
  let! r := init_with_idle_thread 0 stack idle_entry 0x55 in
  unwrap_ok r ;;;
  let! i := gets idle in
  let! i := unwrap i in
  let! t := test_thread i in
  assert (match t_stack t with Some _ => true | None => false end) ;;;
  assert_eq (context_stack_pointer (t_context t)) (0x8000 + KERNEL_STACK_SIZE).

Definition scheduler4 : Sched4 := Scheduler_new 4 2 [].
Definition task_tests : list test := [
  {| test_name := "tracks_process_threads_without_raw_public_pointers";
     test_run := run_on scheduler4 tracks_process_threads_without_raw_public_pointers |};
  {| test_name := "vruntime_scales_inversely_with_weight"; test_run := run_on scheduler4 vruntime_scales_inversely_with_weight |};
  {| test_name := "blocks_and_wakes_thread"; test_run := run_on scheduler4 blocks_and_wakes_thread |};
  {| test_name := "trace_ring_records_scheduler_events"; test_run := run_on scheduler4 trace_ring_records_scheduler_events |};
  {| test_name := "kernel_stack_top_is_base_plus_size"; test_run := pure_test kernel_stack_top_is_base_plus_size |};
  {| test_name := "idle_thread_owns_stack_and_entry_context";
     test_run := run_on scheduler4 (idle_thread_owns_stack_and_entry_context 0x4000) |}].

(** ** [pmm/mod.rs] *)

#[local] Existing Instance small_layout.
(** [let mut pages = [Page::default(); n]] at some address. *)
Definition PAGES : Z := 0x100000.
Definition default_pages (n : nat) : gmap Z Page :=
  list_to_map ((fun i => (PAGES + Z.of_nat i * size_of_Page, Page_new 0 Free)) <$> seq 0 n).
Definition test_arena (base : PhysicalAddress) (n arena_index : Z) : Arena :=
  {| arena_base := base; page_count := n;
     pages := {| storage_ptr := PAGES; storage_len := n; storage_arena_index := arena_index |} |}.

Definition page_handle_round_trips_through_arena : M unit unit :=
  let arena := test_arena 0x1000 4 2 in
  for_each (range 0 4) (fun index =>
    let physical := 0x1000 + index * PAGE_SIZE in
    let! page := unwrap (physical_to_page arena physical) in
    assert_eq page (PageHandle_new 2 index) ;;;
    assert_eq (page_to_physical arena page) (Some physical)) ;;;
  assert_eq (physical_to_page arena 0x0) None ;;;
  assert_eq (physical_to_page arena 0x5000) None ;;;
  assert_eq (physical_to_page arena 0x1001) None.

(** [pmm.arenas[0] = arena; pmm.arena_count = 1; pmm.build_free_list(); pmm.initialized = true] *)
Definition one_arena (arena : Arena) : M Pmm unit :=
  let! l := gets arenas in
  let! l := array_set l 0 arena in
  modify (set_arenas l 1) ;;;
  build_free_list ;;;
  modify (set_initialized true).
Definition free_list_reuses_single_page : M Pmm unit :=
  one_arena (test_arena 0x1000 2 0) ;;;
  let! first := alloc_page in
  let! first := unwrap first in
  let! second := alloc_page in
  let! second := unwrap second in
  assert_ne first second ;;;
  let! third := alloc_page in
  assert_eq third None ;;;
  free_page first ;;;
  let! again := alloc_page in
  assert_eq again (Some first).
Definition contiguous_allocation_validates_head_and_length : M Pmm unit :=
  one_arena (test_arena 0x4000 8 0) ;;;
  let! run := alloc_contiguous 3 12 in
  let! run := unwrap run in
  assert_eq (run_count run) 3 ;;;
  assert_eq (run_head run) (PageHandle_new 0 0) ;;;
  let! l := gets arenas in
  let! arena := array_get l 0 in
  let! slot := unwrap (page_slot arena (run_head run)) in
  let! head_page := load_page slot in
  assert (contiguous_head head_page) ;;;
  let! r := free_contiguous (run_head run) (run_count run) in
  unwrap_ok r ;;;
  let! n := gets free_pages in
  assert_eq n 8.
Definition metadata_search_skips_reserved_tail : M Pmm unit :=
  let! r := record_reserved 0x9000 0xa000 in
  unwrap_ok r ;;;
  let! found := find_metadata_range 0x1000 9 1 in
  let! found := unwrap_ok found in
  assert_eq found (Some 0x8000).
Definition metadata_search_reports_no_safe_span : M Pmm unit :=
  let! r := record_reserved 0x1000 0xa000 in
  unwrap_ok r ;;;
  let! found := find_metadata_range 0x1000 9 1 in
  let! found := unwrap_ok found in
  assert_eq found None.
Definition rejects_overlapping_memory_regions : M unit unit :=
  let regions := [{| region_base := 0x1000; region_size := 0x3000 |}; {| region_base := 0x3000; region_size := 0x2000 |}] in
  assert_eq (validate_memory_regions regions) (Err OverlappingMemoryRegions).
Definition merges_touching_reserved_ranges : M Pmm unit :=
  let! r := record_reserved 0x2000 0x3000 in
  unwrap_ok r ;;;
  let! r := record_reserved 0x3000 0x4000 in
  unwrap_ok r ;;;
  let! s := gets (fun s => s) in
  assert_eq (reserved_count s) 1 ;;;
  assert (is_reserved s 0x2000) ;;;
  assert (is_reserved s 0x3fff) ;;;
  assert (negb (is_reserved s 0x4000)).

Definition pmm_tests : list test := [
  {| test_name := "page_handle_round_trips_through_arena"; test_run := pure_test page_handle_round_trips_through_arena |};
  {| test_name := "free_list_reuses_single_page"; test_run := run_on (Pmm_empty (default_pages 2)) free_list_reuses_single_page |};
  {| test_name := "contiguous_allocation_validates_head_and_length";
     test_run := run_on (Pmm_empty (default_pages 8)) contiguous_allocation_validates_head_and_length |};
  {| test_name := "metadata_search_skips_reserved_tail"; test_run := run_on (Pmm_empty ∅) metadata_search_skips_reserved_tail |};
  {| test_name := "metadata_search_reports_no_safe_span"; test_run := run_on (Pmm_empty ∅) metadata_search_reports_no_safe_span |};
  {| test_name := "rejects_overlapping_memory_regions"; test_run := pure_test rejects_overlapping_memory_regions |};
  {| test_name := "merges_touching_reserved_ranges"; test_run := run_on (Pmm_empty ∅) merges_touching_reserved_ranges |}].

(** ** [allocator/mod.rs] *)

Definition SizeClass_is (c : SizeClass) (o : option SizeClass) : bool :=
  match o, c with
  | Some Class64, Class64 | Some Class128, Class128 | Some Class256, Class256 | Some Class512, Class512
  | Some Class1024, Class1024 => true
  | _, _ => false
  end.
Definition kmalloc_class_selection_validates_inputs : M unit unit :=
  assert (SizeClass_is Class64 (size_class 64)) ;;;
  assert (SizeClass_is Class128 (size_class 65)) ;;;
  assert (SizeClass_is Class1024 (size_class 1024)) ;;;
  assert (match size_class 1025 with None => true | Some _ => false end).

(** [TestState], a thread-local in memory like any other: eight pages, the number
    handed out, and the addresses that came back. *)
Definition test_page (index : Z) : Z := 0x10000 + index * PAGE_SIZE.
Definition TEST_STATE_next : Z := 0x20000.
Definition TEST_STATE_freed (index : Z) : Z := 0x20008 + index * 8.
Definition TEST_STATE_freed_count : Z := 0x20048.
Definition load (address : Z) : M Memory Z :=
  let! w := gets (fun m => m_words m !! address) in
  match w with Some v => ret v | None => undefined end.
Definition store (address v : Z) : M Memory unit := modify (fun m => set_words (<[address := v]> (m_words m)) m).
Definition TestState_new : Memory := {|
  m_pmm := Pmm_empty ∅;
  m_words := list_to_map ((fun address => (address, 0)) <$>
    TEST_STATE_next :: TEST_STATE_freed_count :: (TEST_STATE_freed <$> range 0 8));
  m_headers := ∅; m_bytes := fun _ => 0; m_mappers := Mappers_identity |}.
Definition TestState_reset : M Memory unit :=
  store TEST_STATE_next 0 ;;;
  store TEST_STATE_freed_count 0.
Definition test_alloc_page : M Memory (option Z) :=
  let! index := load TEST_STATE_next in
  if 8 <=? index then ret None
  else
    let! next := add_uint 64 index 1 in
    store TEST_STATE_next next ;;;
    ret (NonNull_new (test_page index)).
Definition test_free_page (page : Z) : M Memory unit :=
  let! index := load TEST_STATE_freed_count in
  (if index <? 8 then store (TEST_STATE_freed index) page else panic "index out of bounds") ;;;
  let! n := add_uint 64 index 1 in
  store TEST_STATE_freed_count n.

Definition TestObject : Layout := {| size_of := 64; align_of := 8 |}.
Definition test_pool (seed : Z) : M PoolState unit :=
  let! p := Pool_new TestObject (OtherPages test_alloc_page test_free_page) seed in
  modify (on_pool (fun _ => p)).
Definition reset_and_new (seed : Z) : M PoolState unit := lift_memory TestState_reset ;;; test_pool seed.
Definition alloc_unwrap : M PoolState Z := let! object := Pool_alloc TestObject in unwrap object.
Definition free_unwrap (object : Z) : M PoolState unit := let! r := Pool_free TestObject object in unwrap_ok r.
(** [for _ in l { objects.push(pool.alloc().unwrap()) }] *)
Fixpoint alloc_each (l : list Z) : M PoolState (list Z) :=
  match l with
  | [] => ret []
  | _ :: l => let! object := alloc_unwrap in let! objects := alloc_each l in ret (object :: objects)
  end.

Definition calculates_pool_layout : M PoolState unit :=
  test_pool 1 ;;;
  assert_eq (object_size TestObject) CACHE_LINE_SIZE ;;;
  assert (1 <? objects_per_slab TestObject).
Definition allocates_and_frees_from_pool : M PoolState unit :=
  reset_and_new 2 ;;;
  let! first := alloc_unwrap in
  let! second := alloc_unwrap in
  assert_ne first second ;;;
  let! total := gets (fun s => total_allocated (pool s)) in
  assert_eq total 2 ;;;
  free_unwrap first ;;;
  let! total := gets (fun s => total_allocated (pool s)) in
  assert_eq total 1 ;;;
  free_unwrap second ;;;
  let! total := gets (fun s => total_allocated (pool s)) in
  assert_eq total 0.
Definition reuses_freed_slot_from_full_slab : M PoolState unit :=
  reset_and_new 3 ;;;
  let capacity := objects_per_slab TestObject in
  let! objects := alloc_each (range 1 capacity) in
  let! count := gets (fun s => slab_count (pool s)) in
  assert_eq count 1 ;;;
  let! freed := expect "index out of bounds" (objects !! 0%nat) in
  free_unwrap freed ;;;
  let! reused := alloc_unwrap in
  assert_eq reused freed.
Definition reclaims_empty_slab_above_minimum : M PoolState unit :=
  reset_and_new 4 ;;;
  let capacity := objects_per_slab TestObject in
  let! first_slab := alloc_each (range 1 capacity) in
  let! second_slab_object := alloc_unwrap in
  let! count := gets (fun s => slab_count (pool s)) in
  assert_eq count 2 ;;;
  free_unwrap second_slab_object ;;;
  let! count := gets (fun s => slab_count (pool s)) in
  assert_eq count 1 ;;;
  let! freed_count := lift_memory (load TEST_STATE_freed_count) in
  assert_eq freed_count 1.
Definition reports_free_errors : M PoolState unit :=
  reset_and_new 5 ;;;
  let! object_addr := alloc_unwrap in
  let page_base := Z.land object_addr (not_uint 64 (PAGE_SIZE - 1)) in
  let storage_base := page_base + usable_start TestObject in
  let! misaligned := unwrap (NonNull_new (object_addr + 1)) in
  let! misaligned_result := Pool_free TestObject misaligned in
  assert_eq misaligned_result (Err MisalignedPointer) ;;;
  let! metadata := unwrap (NonNull_new storage_base) in
  let! r := Pool_free TestObject metadata in
  assert_eq r (Err MetadataSlot) ;;;
  let! out_of_bounds := unwrap (NonNull_new (storage_base + objects_per_slab TestObject * object_size TestObject)) in
  let! out_of_bounds_result := Pool_free TestObject out_of_bounds in
  assert_eq out_of_bounds_result (Err OutOfBounds) ;;;
  free_unwrap object_addr ;;;
  let! r := Pool_free TestObject object_addr in
  assert_eq r (Err DoubleFree).
Definition rejects_corrupted_back_pointer : M PoolState unit :=
  reset_and_new 6 ;;;
  let! object := alloc_unwrap in
  let back_pointer := Z.land object (not_uint 64 (PAGE_SIZE - 1)) in
  let! saved := read_word back_pointer in
  write_word back_pointer 0 ;;;
  let! r := Pool_free TestObject object in
  assert_eq r (Err InvalidSlab) ;;;
  write_word back_pointer saved ;;;
  free_unwrap object.

(** A test's thread-local is new. *)
Abbreviation on_test_state m := (run_on {| pool := Pool_empty; mem := TestState_new |} m).
Definition allocator_tests : list test := [
  {| test_name := "calculates_pool_layout"; test_run := on_test_state calculates_pool_layout |};
  {| test_name := "allocates_and_frees_from_pool"; test_run := on_test_state allocates_and_frees_from_pool |};
  {| test_name := "reuses_freed_slot_from_full_slab"; test_run := on_test_state reuses_freed_slot_from_full_slab |};
  {| test_name := "reclaims_empty_slab_above_minimum"; test_run := on_test_state reclaims_empty_slab_above_minimum |};
  {| test_name := "reports_free_errors"; test_run := on_test_state reports_free_errors |};
  {| test_name := "rejects_corrupted_back_pointer"; test_run := on_test_state rejects_corrupted_back_pointer |};
  {| test_name := "kmalloc_class_selection_validates_inputs"; test_run := pure_test kmalloc_class_selection_validates_inputs |}].

(** ** All of them *)

Definition unit_tests : list test :=
  mmu_tests ++ clock_tests ++ trap_tests ++ sync_tests ++ task_tests ++ pmm_tests ++ allocator_tests.
