(* ===== verification/HwInfoTests.v ===== *)
(** * The unit tests of [hwinfo/mod.rs]

    The tests build device trees with a small writer, [DtbBuilder], and read
    them back.  The writer is modelled; the [fdt] crate is not part of the
    repository, so [FlatTree] instantiates its interface with a reader of the
    flattened format, for these examples only. *)

From S2P Require Import Prelude Address HwInfo HwInfoTheorems Clock UnitTests.
From stdpp Require Import base tactics option list list_numbers numbers strings.

#[local] Open Scope Z_scope.
#[local] Open Scope kernel_scope.

(** ** [DtbBuilder] *)

Definition FDT_BEGIN_NODE : Z := 1.
Definition FDT_END_NODE : Z := 2.
Definition FDT_PROP : Z := 3.
Definition FDT_END : Z := 9.

(** [to_be_bytes] of a [u32] and of a [u64]. *)
Definition to_be_bytes (n : nat) (value : Z) : list Z :=
  (fun i => Z.land (Z.shiftr value (8 * (Z.of_nat n - 1 - Z.of_nat i))) 0xff) <$> seq 0 n.

Record DtbBuilder := { dtb_reserved : list (Z * Z); dtb_structs : list Z; dtb_strings : list Z }.
Definition DtbBuilder_new : DtbBuilder := {| dtb_reserved := []; dtb_structs := []; dtb_strings := [] |}.
Definition push_structs (bytes : list Z) (b : DtbBuilder) : DtbBuilder :=
  {| dtb_reserved := dtb_reserved b; dtb_structs := dtb_structs b ++ bytes; dtb_strings := dtb_strings b |}.

Definition reserve (address size : Z) (b : DtbBuilder) : DtbBuilder :=
  {| dtb_reserved := dtb_reserved b ++ [(address, size)]; dtb_structs := dtb_structs b; dtb_strings := dtb_strings b |}.
Definition push_struct_u32 (word : Z) : DtbBuilder -> DtbBuilder := push_structs (to_be_bytes 4 word).
(** The [while] loop runs at most three times. *)
Fixpoint pad_loop (fuel : nat) (b : DtbBuilder) : DtbBuilder :=
  match fuel with
  | O => b
  | S fuel => if Z.of_nat (length (dtb_structs b)) mod 4 =? 0 then b else pad_loop fuel (push_structs [0] b)
  end.
Definition pad_struct : DtbBuilder -> DtbBuilder := pad_loop 4.
Definition string_offset (name : string) (b : DtbBuilder) : Z * DtbBuilder :=
  (cast_uint 32 (Z.of_nat (length (dtb_strings b))),
   {| dtb_reserved := dtb_reserved b; dtb_structs := dtb_structs b; dtb_strings := dtb_strings b ++ byte_string name ++ [0] |}).
Definition begin_node (name : string) (b : DtbBuilder) : DtbBuilder :=
  pad_struct (push_structs (byte_string name ++ [0]) (push_struct_u32 FDT_BEGIN_NODE b)).
Definition end_node : DtbBuilder -> DtbBuilder := push_struct_u32 FDT_END_NODE.
Definition prop (name : string) (value : list Z) (b : DtbBuilder) : DtbBuilder :=
  let (name_offset, b) := string_offset name b in
  let b := push_struct_u32 FDT_PROP b in
  let b := push_struct_u32 (cast_uint 32 (Z.of_nat (length value))) b in
  let b := push_struct_u32 name_offset b in
  pad_struct (push_structs value b).
Definition prop_u32 (name : string) (value : Z) : DtbBuilder -> DtbBuilder := prop name (to_be_bytes 4 value).
Definition prop_cells (name : string) (cells : list Z) : DtbBuilder -> DtbBuilder := prop name (cells ≫= to_be_bytes 4).
Definition prop_str (name value : string) : DtbBuilder -> DtbBuilder := prop name (byte_string value ++ [0]).
Definition prop_str_list (name : string) (values : list string) : DtbBuilder -> DtbBuilder :=
  prop name (values ≫= fun value => byte_string value ++ [0]).
Definition finish (b : DtbBuilder) : list Z :=
  let b := push_struct_u32 FDT_END b in
  let HEADER_LEN := 40 in
  let reserve_map_len := (Z.of_nat (length (dtb_reserved b)) + 1) * 16 in
  let structs_offset := HEADER_LEN + reserve_map_len in
  let strings_offset := structs_offset + Z.of_nat (length (dtb_structs b)) in
  let total_size := strings_offset + Z.of_nat (length (dtb_strings b)) in
  ([0xd00dfeed; cast_uint 32 total_size; cast_uint 32 structs_offset; cast_uint 32 strings_offset; cast_uint 32 HEADER_LEN;
    17; 16; 0; cast_uint 32 (Z.of_nat (length (dtb_strings b))); cast_uint 32 (Z.of_nat (length (dtb_structs b)))] ≫= to_be_bytes 4) ++
  (dtb_reserved b ≫= fun '(address, size) => to_be_bytes 8 address ++ to_be_bytes 8 size) ++
  replicate 16 0 ++ dtb_structs b ++ dtb_strings b.

(** ** A reader of the flattened format *)

Module FlatTree.
Unset Elimination Schemes.
Inductive DtNode := Dt (name : list Z) (props : list (list Z * list Z)) (children : list DtNode).
Set Elimination Schemes.
Definition dt_props (n : DtNode) : list (list Z * list Z) := let 'Dt _ props _ := n in props.
Definition dt_children (n : DtNode) : list DtNode := let 'Dt _ _ children := n in children.
Definition dt_name (n : DtNode) : list Z := let 'Dt name _ _ := n in name.

Definition read_word (l : list Z) : option (Z * list Z) :=
  match l with a :: b :: c :: d :: l => Some (from_be_bytes [a; b; c; d], l) | _ => None end.
Fixpoint read_string (l : list Z) : option (list Z * list Z) :=
  match l with
  | [] => None
  | c :: l => if c =? 0 then Some ([], l) else option_map (fun '(s, l) => (c :: s, l)) (read_string l)
  end.
Definition padding (n : nat) : nat := (4 - n mod 4) mod 4.

(** The open nodes, innermost first, with their properties and children in
    reverse. *)
Definition frame : Type := list Z * list (list Z * list Z) * list DtNode.
Fixpoint read_structs (fuel : nat) (l strings : list Z) (stack : list frame) : option DtNode :=
  match fuel with
  | O => None
  | S fuel =>
      match read_word l with
      | None => None
      | Some (token, l) =>
          if token =? FDT_BEGIN_NODE then
            match read_string l with
            | Some (name, l) => read_structs fuel (drop (padding (S (length name))) l) strings ((name, [], []) :: stack)
            | None => None
            end
          else if token =? FDT_PROP then
            match read_word l with
            | Some (len, l) =>
                match read_word l, stack with
                | Some (offset, l), (name, props, children) :: stack =>
                    let n := Z.to_nat len in
                    match read_string (drop (Z.to_nat offset) strings) with
                    | Some (key, _) => read_structs fuel (drop (n + padding n) l) strings
                        ((name, (key, take n l) :: props, children) :: stack)
                    | None => None
                    end
                | _, _ => None
                end
            | None => None
            end
          else if token =? FDT_END_NODE then
            match stack with
            | (name, props, children) :: stack =>
                let node := Dt name (reverse props) (reverse children) in
                match stack with
                | [] => Some node
                | (name, props, children) :: stack => read_structs fuel l strings ((name, props, node :: children) :: stack)
                end
            | [] => None
            end
          else None
      end
  end.

(** A node with the cell counts that its parent gives its addresses and sizes. *)
Record PlacedNode := { placed : DtNode; address_cells : Z; size_cells : Z }.
Definition property (n : DtNode) (name : list Z) : option (list Z) :=
  option_map snd (list_find (fun p => p.1 = name) (dt_props n) ≫= fun x => Some x.2).
Definition cells_of (n : DtNode) (name : string) (otherwise : Z) : Z :=
  match property n (byte_string name) with Some v => default otherwise (read_cells v 1) | None => otherwise end.
Definition children_of (n : PlacedNode) : list PlacedNode :=
  (fun child => {| placed := child; address_cells := cells_of (placed n) "#address-cells" 2;
                   size_cells := cells_of (placed n) "#size-cells" 1 |}) <$> dt_children (placed n).
(** The name without its unit address. *)
Definition AT : Z := 64.
Fixpoint base_name (name : list Z) : list Z :=
  match name with [] => [] | c :: name => if c =? AT then [] else c :: base_name name end.
Fixpoint reg_entries (fuel : nat) (address_cells size_cells : Z) (value : list Z) : list (option (Z * Z)) :=
  match fuel with
  | O => []
  | S fuel =>
      let a := Z.to_nat (4 * address_cells) in
      let n := (a + Z.to_nat (4 * size_cells))%nat in
      if (length value <? n)%nat || (n =? 0)%nat then []
      else
        match read_cells value address_cells, read_cells (drop a value) size_cells with
        | Some address, Some size => Some (address, size)
        | _, _ => None
        end :: reg_entries fuel address_cells size_cells (drop n value)
  end.
(** The nodes below a node, in the order of the tree. *)
Fixpoint descendants (fuel : nat) (n : PlacedNode) : list PlacedNode :=
  match fuel with
  | O => []
  | S fuel => n :: (children_of n ≫= descendants fuel)
  end.
Definition DEPTH : nat := 16.
Definition compatible_with (names : list string) (n : PlacedNode) : bool :=
  match property (placed n) (byte_string "compatible") with
  | None => false
  | Some value => existsb (fun name => has_string_list_entry value (byte_string name)) names
  end.
Definition named (name : list Z) (n : PlacedNode) : bool :=
  bool_decide (dt_name (placed n) = name) || bool_decide (base_name (dt_name (placed n)) = name).

Record Tree := { tree_size : Z; tree_reserve_map : Z; tree_root : DtNode }.
Definition root (t : Tree) : PlacedNode := {| placed := tree_root t; address_cells := 2; size_cells := 1 |}.
Definition header_word (i : Z) (blob : list Z) : Z := match read_word (drop (Z.to_nat (4 * i)) blob) with Some (w, _) => w | None => 0 end.
Definition new_unaligned (blob : list Z) : option Tree :=
  if negb (header_word 0 blob =? 0xd00dfeed) then None
  else
    let structs := drop (Z.to_nat (header_word 2 blob)) blob in
    let strings := drop (Z.to_nat (header_word 3 blob)) blob in
    option_map (fun n => {| tree_size := header_word 1 blob; tree_reserve_map := header_word 4 blob; tree_root := n |})
      (read_structs (length blob) structs strings []).

(** This reader answers [None] for what it cannot read and never panics. *)
#[global] Instance FlatTreeParser : FdtParser := {|
  Fdt := Tree; Node := PlacedNode;
  fdt_total_size := tree_size;
  fdt_memory_reserve_map_offset := tree_reserve_map;
  fdt_find_node t path := Ok (head (List.filter (named (drop 1 (byte_string path))) (children_of (root t))));
  fdt_all_compatible t names := Ok <$> List.filter (compatible_with names) (descendants DEPTH (root t));
  node_children n := Ok <$> children_of n;
  node_name n := Ok (String.string_of_list_ascii ((fun c => Ascii.ascii_of_nat (Z.to_nat c)) <$> base_name (dt_name (placed n))));
  node_reg n := Ok (option_map (fun value => reg_entries (length value) (address_cells n) (size_cells n) value)
    (property (placed n) (byte_string "reg")));
  node_raw_property n name := Ok (property (placed n) (byte_string name)) |}.
End FlatTree.
Import FlatTree.

(** ** The tests *)

#[local] Instance MemoryRegion_eq_dec : EqDecision MemoryRegion.
Proof. solve_decision. Defined.
#[local] Instance InterruptControllerInfo_eq_dec : EqDecision InterruptControllerInfo.
Proof. solve_decision. Defined.
Abbreviation region base size := {| region_base := base; region_size := size |}.

Definition returns_valid_region_slices : M unit unit :=
  let hw := HardwareInfo_empty 0x40000000 in
  let hw := push_memory_region (region 0x80000000 0x10000000) hw in
  let hw := push_reserved_region (region 0x80000000 0x200000) hw in
  assert_eq (length (memory_regions hw)) 1%nat ;;;
  assert_eq (length (reserved_regions hw)) 1%nat ;;;
  assert_eq (max_memory_end hw) 0x90000000.
Definition sorts_regions_by_size_descending : M unit unit :=
  let regions := sort_regions_by_size [region 0x1000 100; region 0x2000 500; region 0x3000 200] in
  assert_eq (region_size <$> regions !! 0%nat) (Some 500) ;;;
  assert_eq (region_size <$> regions !! 1%nat) (Some 200) ;;;
  assert_eq (region_size <$> regions !! 2%nat) (Some 100).
Definition parses_timer_frequency_encodings : M unit unit :=
  assert_eq (parse_timer_frequency [0x00; 0x98; 0x96; 0x80]) (Some 10000000) ;;;
  assert_eq (parse_timer_frequency [0x00; 0x00; 0x00; 0x02; 0x54; 0x0b; 0xe4; 0x00]) (Some 10000000000) ;;;
  assert_eq (parse_timer_frequency [0x01; 0x02]) None.
Definition detects_hardware_random_extension_forms : M unit unit :=
  assert (has_string_list_entry (byte_string "ima" ++ [0] ++ byte_string "zkr" ++ [0]) zkr) ;;;
  assert (isa_string_has_extension (byte_string "rv64imafd_zicsr_zkr") zkr) ;;;
  assert (negb (isa_string_has_extension (byte_string "rv64imafdzkr") zkr)).

Definition test_dtb : list Z :=
  let dtb := DtbBuilder_new in
  let dtb := begin_node "" dtb in
  let dtb := prop_u32 "#address-cells" 2 dtb in
  let dtb := prop_u32 "#size-cells" 2 dtb in
  let dtb := prop_str_list "compatible" ["bullfinch,test"] dtb in
  let dtb := begin_node "memory@80000000" dtb in
  let dtb := prop_str "device_type" "memory" dtb in
  let dtb := prop_cells "reg" [0; 0x80000000; 0; 0x08000000; 0; 0x40000000; 0; 0x04000000] dtb in
  let dtb := end_node dtb in
  let dtb := begin_node "reserved-memory" dtb in
  let dtb := prop_u32 "#address-cells" 2 dtb in
  let dtb := prop_u32 "#size-cells" 2 dtb in
  let dtb := begin_node "framebuffer@8f000000" dtb in
  let dtb := prop_cells "reg" [0; 0x8f000000; 0; 0x00100000] dtb in
  let dtb := end_node dtb in
  let dtb := end_node dtb in
  let dtb := begin_node "cpus" dtb in
  let dtb := prop_u32 "#address-cells" 1 dtb in
  let dtb := prop_u32 "#size-cells" 0 dtb in
  let dtb := prop_u32 "timebase-frequency" 10000000 dtb in
  let dtb := begin_node "cpu@0" dtb in
  let dtb := prop_str "device_type" "cpu" dtb in
  let dtb := prop_str_list "riscv,isa-extensions" ["ima"; "zkr"] dtb in
  let dtb := end_node dtb in
  let dtb := begin_node "cpu@1" dtb in
  let dtb := prop_str "device_type" "cpu" dtb in
  let dtb := end_node dtb in
  let dtb := end_node dtb in
  let dtb := begin_node "soc" dtb in
  let dtb := prop_u32 "#address-cells" 2 dtb in
  let dtb := prop_u32 "#size-cells" 2 dtb in
  let dtb := begin_node "serial@10000000" dtb in
  let dtb := prop_str_list "compatible" ["ns16550a"] dtb in
  let dtb := prop_cells "reg" [0; 0x10000000; 0; 0x100] dtb in
  let dtb := end_node dtb in
  let dtb := begin_node "interrupt-controller@8000000" dtb in
  let dtb := prop_str_list "compatible" ["arm,gic-v3"] dtb in
  let dtb := prop_cells "reg" [0; 0x08000000; 0; 0x10000; 0; 0x080a0000; 0; 0x00f60000] dtb in
  let dtb := end_node dtb in
  let dtb := end_node dtb in
  let dtb := end_node dtb in
  finish dtb.

Definition extracts_boot_hardware_info_from_fdt : M unit unit :=
  let blob := test_dtb in
  let! fdt := unwrap (new_unaligned blob) in
  let! hw := lift (HardwareInfo_from_fdt 0x48000000 fdt blob) in
  assert_eq (dtb_phys hw) 0x48000000 ;;;
  assert_eq (dtb_size hw) (Z.of_nat (length blob)) ;;;
  assert_eq (length (memory_regions hw)) 2%nat ;;;
  assert_eq (memory_regions hw !! 0%nat) (Some (region 0x80000000 0x08000000)) ;;;
  assert_eq (total_memory hw) 0x0c000000 ;;;
  assert_eq (reserved_regions hw) [region 0x8f000000 0x100000] ;;;
  assert_eq (timer_frequency_hz hw) (Some 10000000) ;;;
  assert_eq (cpu_count_found hw) 2 ;;;
  assert (hardware_random (features hw)) ;;;
  assert_eq (uart_base_found hw) (Some 0x10000000) ;;;
  assert_eq (interrupt_controller (features hw)) (Some (InfoGicV3 0x08000000 (Some 0x080a0000))).
Definition extracts_header_memory_reservations_from_fdt : M unit unit :=
  let blob := finish (end_node (begin_node "" (reserve 0x81000000 0x200000 DtbBuilder_new))) in
  let! fdt := unwrap (new_unaligned blob) in
  let! hw := lift (HardwareInfo_from_fdt 0x48000000 fdt blob) in
  assert_eq (reserved_regions hw) [region 0x81000000 0x200000] ;;;
  assert_eq (dropped_reserved_regions hw) 0.
Definition records_reserved_region_overflow : M unit unit :=
  let dtb := foldl (fun dtb index => reserve (0x81000000 + index * 0x100000) 0x1000 dtb) DtbBuilder_new
    (range 0 (MAX_RESERVED_REGIONS + 1)) in
  let blob := finish (end_node (begin_node "" dtb)) in
  let! fdt := unwrap (new_unaligned blob) in
  let! hw := lift (HardwareInfo_from_fdt 0x48000000 fdt blob) in
  assert_eq (Z.of_nat (length (reserved_regions hw))) MAX_RESERVED_REGIONS ;;;
  assert_eq (dropped_reserved_regions hw) 1.

Definition hwinfo_tests : list test := [
  {| test_name := "returns_valid_region_slices"; test_run := pure_test returns_valid_region_slices |};
  {| test_name := "sorts_regions_by_size_descending"; test_run := pure_test sorts_regions_by_size_descending |};
  {| test_name := "parses_timer_frequency_encodings"; test_run := pure_test parses_timer_frequency_encodings |};
  {| test_name := "detects_hardware_random_extension_forms"; test_run := pure_test detects_hardware_random_extension_forms |};
  {| test_name := "extracts_boot_hardware_info_from_fdt"; test_run := pure_test extracts_boot_hardware_info_from_fdt |};
  {| test_name := "extracts_header_memory_reservations_from_fdt";
     test_run := pure_test extracts_header_memory_reservations_from_fdt |};
  {| test_name := "records_reserved_region_overflow"; test_run := pure_test records_reserved_region_overflow |}].

(** Every test of the kernel crate that the model can express passes on it:
    no assertion of the authors fails and no [unwrap] panics. *)
Theorem unit_tests_pass : forallb passes (unit_tests ++ hwinfo_tests) = true.
Proof. vm_compute. reflexivity. Qed.

(** ** The reservation block round trip *)

Lemma to_be_bytes_8 v : to_be_bytes 8 v = be_bytes v.
Proof.
  assert (forall k, 0 <= k -> Z.land (Z.shiftr v (8 * k)) 0xff = v / 256 ^ k mod 256) as Hb.
  { intros k Hk. change 0xff with (Z.ones 8). rewrite Z.land_ones, Z.shiftr_div_pow2, Z.pow_mul_r by lia. done. }
  unfold to_be_bytes, be_bytes. change [7; 6; 5; 4; 3; 2; 1; 0] with ((fun i => Z.of_nat 8 - 1 - Z.of_nat i) <$> seq 0 8).
  rewrite map_map. apply map_ext_in. intros i Hi%in_seq. apply Hb. lia.
Qed.
Lemma to_be_bytes_length n v : length (to_be_bytes n v) = n.
Proof. unfold to_be_bytes. by rewrite length_fmap, length_seq. Qed.

(** The reservations that a builder was given. *)
Definition builder_regions (b : DtbBuilder) : list MemoryRegion :=
  (fun '(address, size) => region address size) <$> dtb_reserved b.

Lemma finish_blocks (b : DtbBuilder) : exists header tail, length header = 40%nat /\
  finish b = header ++ mjoin (encode_reservation <$> builder_regions b) ++ terminator ++ tail.
Proof.
  unfold finish. cbv zeta. eexists _, _. split; [|f_equal; f_equal].
  - cbn [mbind list_bind]. rewrite !length_app, !to_be_bytes_length. done.
  - unfold builder_regions. cbn [dtb_reserved push_struct_u32 push_structs].
    induction (dtb_reserved b) as [|[a n] l IH]; [done|]. cbn [mbind list_bind fmap list_fmap mjoin list_join].
    rewrite IH. unfold encode_reservation. cbn [region_base region_size]. by rewrite !to_be_bytes_8.
Qed.

(** The fifth word of the header, which the format gives to the offset of the
    reservation block. *)
Definition header_offset (blob : list Z) : Z := from_be_bytes (take 4 (drop 16 blob)).
Lemma finish_offset b : header_offset (finish b) = 40.
Proof. reflexivity. Qed.

(** (C40) The memory reservation block round trip: from a blob that [DtbBuilder]
    finished, whatever its tree, the kernel's reader of the block, which starts
    at the offset in the blob's own header, pushes exactly the reservations that
    were put in, in order, and reports none missing.  The reservations are pairs
    of [u64]s and none is the pair of zeros, which ends the block; the [fdt]
    crate's header is the header of the blob. *)
Theorem reservations_round_trip `{FdtParser} (fdt : Fdt) (b : DtbBuilder) (info : HardwareInfo) :
  fdt_memory_reserve_map_offset fdt = header_offset (finish b) ->
  Forall (fun r => region_u64 r /\ ~ region_zero r) (builder_regions b) ->
  collect_memory_reservation_block (fdt_memory_reserve_map_offset fdt) (finish b) info =
    Done (tt, foldl (fun info r => push_reserved_region r info) info (builder_regions b)).
Proof.
  intros -> Hall. rewrite finish_offset. destruct (finish_blocks b) as (header & tail & Hlen & Heq).
  unfold collect_memory_reservation_block. rewrite (proj2 (Z.ltb_ge _ _)) by (rewrite Heq, length_app, Hlen; lia).
  change (Z.to_nat 40) with 40%nat. rewrite Heq, drop_app_length' by done. unfold bind at 1.
  rewrite loop_encoded; [done|by eapply Forall_impl; [exact Hall|intros r []]..|].
  rewrite !length_app. unfold terminator. rewrite length_replicate.
  assert (length (builder_regions b) <= length (mjoin (encode_reservation <$> builder_regions b)))%nat; [|lia].
  clear. induction (builder_regions b) as [|r l IH]; [done|].
  change (mjoin (encode_reservation <$> r :: l)) with (encode_reservation r ++ mjoin (encode_reservation <$> l)).
  rewrite length_app. change (length (encode_reservation r)) with 16%nat. cbn [length]. lia.
Qed.

Definition two_reservations : DtbBuilder :=
  end_node (begin_node "" (reserve 0x82000000 0x1000 (reserve 0x81000000 0x200000 DtbBuilder_new))).
Definition two_reservations_tree : Tree :=
  default {| tree_size := 0; tree_reserve_map := 0; tree_root := Dt [] [] [] |} (new_unaligned (finish two_reservations)).
Lemma reservations_round_trip_witness :
  collect_memory_reservation_block (tree_reserve_map two_reservations_tree) (finish two_reservations) (HardwareInfo_empty 0) =
    Done (tt, foldl (fun info r => push_reserved_region r info) (HardwareInfo_empty 0)
      [region 0x81000000 0x200000; region 0x82000000 0x1000]).
Proof.
  apply (@reservations_round_trip FlatTreeParser two_reservations_tree two_reservations (HardwareInfo_empty 0)).
  - vm_compute. reflexivity.
  - repeat constructor; try (vm_compute; discriminate); intros [H _]; discriminate H.
Defined.
