(* ===== verification/SmokeTheorems.v ===== *)
(** * The smoke test and the boot

    A run of the tool on the modelled kernel: the verdict of the smoke test on a
    machine's output is whether the boot succeeded. *)

From S2P Require Import Prelude Address HwInfo Pmm Clock PmmTheorems HwInfoTheorems Trap Context Kmalloc KmallocTheorems Task TaskTheorems Console Gic.
From S2P Require Import Startup StartupLemmas StartupBoot StartupTheorems Xtask XtaskTheorems.
From S2P Require RiscvMmu.
From stdpp Require Import base tactics option list list_numbers numbers gmap strings relations.

#[local] Open Scope Z_scope.
#[local] Open Scope kernel_scope.

(** Text around the kernel's that does not look like its last message. *)
Definition no_mark (t : list Z) : Prop := contains (normalize_output t) BOOT_OK_START = false.

Lemma quiet_ascii t : quiet t -> Forall ascii (on_wire t).
Proof.
  intros Ht. apply Forall_forall. intros b [Hin| ->]%elem_of_wire; [|by split]. by apply (quiet_elem _ _ Ht) in Hin as [? _].
Qed.

Section Smoke.
Context {Mmu Con Ctx : Type} `{HL : HalLaws Mmu Con Ctx} `{ContextOps Ctx} `{FunctionAddresses} `{FdtParser} `{HostSystem}.
Context (memory : PhysicalAddress -> option Z) (new_unaligned : list Z -> option Fdt).
Context (vectors idle_thread trampoline kernel_end : Z).
Abbreviation boot := (boot memory new_unaligned vectors idle_thread trampoline kernel_end).
Abbreviation machine_ok := (machine_ok memory new_unaligned kernel_end).

(** The log of a successful boot, from mark to mark. *)
Lemma boot_text_marks info arenas pages : quiet (virt_text info ++ pmm_text arenas pages) -> exists log,
  boot_text info arenas pages = (str_bytes "[BOOT:STARTED]" ++ log ++ BOOT_OK) ++ [10] /\ quiet log.
Proof.
  intros Hq. set (tail := stage_text 7 "trace" "ring ready" ++ stage_text 8 "clock" "timer ready" ++
    stage_text 9 "task" "scheduler ready" ++ stage_text 10 "task" "entering idle thread").
  assert (quiet tail) as Htail by (vm_compute; reflexivity).
  exists (drop 14 (virt_text info ++ pmm_text arenas pages) ++ tail). split.
  - assert (str_bytes "[BOOT:STARTED]" ++ drop 14 (virt_text info ++ pmm_text arenas pages) = virt_text info ++ pmm_text arenas pages) as Hd.
    { unfold virt_text, phys_text. rewrite <-!(assoc_L (++)). reflexivity. }
    rewrite !(assoc_L (++)), Hd. unfold boot_text, tail. by rewrite <-!(assoc_L (++)).
  - apply quiet_app; [|done]. unfold quiet in *. rewrite <-(take_drop 14 (_ ++ _)), forallb_app in Hq. by apply andb_true_iff in Hq as [_ Hq].
Qed.

Lemma boot_passes before info arenas pages rest err k :
  said (boot_text info arenas pages) k -> quiet (virt_text info ++ pmm_text arenas pages) ->
  Forall ascii before -> Forall ascii rest -> Forall ascii err ->
  passes (from_utf8_lossy (before ++ console_sent (k_console k) ++ rest) ++ from_utf8_lossy err).
Proof.
  intros [_ ->] Hq Hb Hr He. destruct (boot_text_marks info arenas pages Hq) as (log & -> & Hlog).
  rewrite !from_utf8_ascii; [|done|].
  - rewrite on_wire_app, <-!(assoc_L (++)). apply complete_log_passes. intros Hin.
    by apply (quiet_elem _ _ Hlog) in Hin as (_ & _ & ?).
  - rewrite !Forall_app. split_and!; [done| |done]. apply Forall_forall.
    intros b [Hin| ->]%elem_of_wire; [|by split]. rewrite !elem_of_app in Hin.
    destruct Hin as [[Hin|[Hin|Hin]]|Hin]; [|by apply (quiet_elem _ _ Hlog) in Hin as [? _]| |]; revert Hin;
      apply (proj1 (Forall_forall _ _)); repeat constructor; unfold ascii; cbn; lia.
Qed.
Lemma halt_fails before rest err k :
  halted_quietly k -> Forall ascii before -> Forall ascii rest -> Forall ascii err -> no_mark before -> no_mark (rest ++ err) ->
  ~ passes (from_utf8_lossy (before ++ console_sent (k_console k) ++ rest) ++ from_utf8_lossy err).
Proof.
  intros (T & [_ ->] & Hq) Hb Hr He Mb Mr. rewrite !from_utf8_ascii; [|done|].
  - rewrite <-!(assoc_L (++)). apply quiet_log_fails; [done|done|].
    intros Hin. by apply (quiet_elem _ _ Hq) in Hin as (_ & ? & _).
  - rewrite !Forall_app. split_and!; [done| |done]. apply quiet_ascii. apply quiet_app; [done|reflexivity].
Qed.

(** QEMU, started on a variant's image, shows what the kernel's console got in
    the end state [k], with the firmware's and its own text around it: ASCII, and
    without the kernel's last message. *)
Definition shows (v : Arch * Mode) (k : Kernel Mmu Con Ctx) : Prop := forall h c output,
  qemu_command_for (board_for v.1) (artifact_of v.1 v.2) = Ok c -> output_of h c output -> exists before rest err,
  Forall ascii before /\ Forall ascii rest /\ Forall ascii err /\ no_mark before /\ no_mark (rest ++ err) /\
  output = from_utf8_lossy (before ++ console_sent (k_console k) ++ rest) ++ from_utf8_lossy err.

(** (C37) The smoke test's verdict on a supported machine is right: when the tool
    returns a verdict on a run in which QEMU shows what the booting kernel
    printed, the variant passes if and only if the kernel's boot reached the
    switch to the idle thread, and never when it halted.  The machine is one that
    the kernel supports ([machine_ok]), on which the boot does not panic; the
    host's clock goes on while the tool polls ([timed]); and the text that
    firmware and QEMU print around the kernel's is ASCII and does not have the
    text [BOOT:OK] after a bracket. *)
Theorem smoke_verdict_is_boot k dtb now arrivals r k' a m verbose h verdict h' :
  timed -> machine_ok k dtb arrivals -> 0 <= now ->
  boot dtb now arrivals k = Done (r, k') -> shows (a, m) k' ->
  run_smoke_variant a m false verbose h = Done (Ok verdict, h') ->
  verdict = true <-> exists switch, r = Ok switch.
Proof.
  intros Ht Hmo Hnow Hboot Hshow Hrun.
  destruct (wp_Done _ _ _ _ _ (runs_variant Ht a m false verbose h) Hrun) as [_ Hran].
  destruct (Hran verdict eq_refl eq_refl) as (c & h1 & output & Hc & _ & Hout & ->). clear Hran.
  destruct (Hshow _ _ _ Hc Hout) as (before & rest & err & Hb & Hr & He & Mb & Mr & ->).
  pose proof (wp_Done _ _ _ _ _ (boot_run memory new_unaligned vectors idle_thread trampoline kernel_end k dtb now arrivals Hmo Hnow) Hboot) as Hres.
  destruct r as [switch|[]]; cbn in Hres.
  - destruct Hres as (info & _ & [_ (arenas & pages & Hsaid & Hq)]). split; [by exists switch|]. intros _. by eapply boot_passes.
  - split; [|by intros []]. intros Hp. by destruct (halt_fails before rest err k' Hres Hb Hr He Mb Mr).
Qed.
End Smoke.

(** ** The demonstration kernel on the demonstration host *)

#[local] Existing Instance small_layout.
#[local] Existing Instance demo_addresses.
#[local] Existing Instance DemoTree.
#[local] Existing Instance demo_sbi.
#[local] Existing Instance demo_hal.
#[local] Existing Instance demo_laws.
Definition demo_output : list Z := str_bytes ("[OpenSBI]" ++ newline) ++ console_sent (k_console demo_booted).
#[local] Instance boot_host : HostSystem := demo_host demo_output.

Lemma demo_shows : shows (Riscv64, Debug) demo_booted.
Proof.
  intros h c output _ (child & out & err & [= <-] & [= <-] & [= <-] & ->).
  exists (str_bytes ("[OpenSBI]" ++ newline)), [], [].
  split_and!; [|constructor|constructor|by vm_compute|by vm_compute|by rewrite app_nil_r].
  repeat constructor; by vm_compute.
Qed.
Lemma demo_variant : result (run_smoke_variant Riscv64 Debug false false) [] = Some (Ok true).
Proof. vm_compute. reflexivity. Qed.

Lemma smoke_verdict_is_boot_witness :
  result (run_smoke_variant Riscv64 Debug false false) [] = Some (Ok true) /\ exists switch, Ok demo_switch = Ok switch :> Result ContextPair Halted.
Proof.
  split; [exact demo_variant|].
  apply (smoke_verdict_is_boot demo_memory demo_parse 0x80200800 demo_entry demo_trampoline demo_end demo_kernel demo_dtb 1000 demo_arrivals
    (Ok demo_switch) demo_booted Riscv64 Debug false [] true (after (run_smoke_variant Riscv64 Debug false false) [])
    (demo_timed demo_output) demo_machine ltac:(lia)).
  - exact (result_after _ _ _ demo_boots).
  - exact demo_shows.
  - exact (result_after _ _ _ demo_variant).
  - reflexivity.
Defined.
